(* ===== verification/_CoqProject ===== *)
-Q . S2P
Prelude.v
OMap.v
Bytes.v
NodeId.v
Packet.v
FloodHist.v
Isqrt.v
KState.v
KInstance.v
KForward.v
KSocket.v
KRouteThms.v
KBindThms.v
KPacketThms.v
KSocketThms.v
Topology.v
RoutesThms.v
TableThms.v
Ccm.v
CcmThms.v
Aes.v
AesSpec.v
AesThms.v
AesCcmThms.v
CryptoUnit.v
CryptoThms.v
Neighbors.v
NeighborThms.v
LinkThms.v
Metrics.v
SendQueue.v
SendQueueThms.v
Names.v
Filter.v
Routing.v
Station.v
RoutingThms.v
DeliveryThms.v
HeaderThms.v
FloodThms.v
TopoThms.v
Tap.v
TapThms.v
StationThms.v
Shell.v
ShellThms.v
Probes.v
ProbesThms.v
Debug.v
DebugThms.v
TopoText.v
TopoTextThms.v
Watch.v
WatchThms.v
Marshal.v
MarshalThms.v
Double.v
Ping.v
PingThms.v
TopoLock.v
TopoLockThms.v
Traffic.v
TrafficThms.v
TTMetric.v
Linux.v
LinuxThms.v
LinuxFrameThms.v
Keyfile.v
Timers.v
Startup.v
StartupThms.v
Udp.v
Observers.v
TypeThms.v
Reports.v
LinkGraph.v
GraphThms.v
TopologyThms.v
MetricMains.v
KModule.v
