(* ===== verification/Prelude.v ===== *)
(** * AWDS: a verification development

    AWDS (Ad-hoc Wireless Distribution Service) is a routing daemon for wireless
    mesh networks with an optional kernel module.  Stations announce themselves
    with beacons, flood the state of their links through the network, compute
    shortest paths and forward unicast packets hop by hop; a tap device makes the
    mesh look like one Ethernet to the operating system.

    ** The program and how its parts interact

    - [awds/toArray.h], [awds/AbstractId.h]: numbers and station identifiers in
      network byte order; every header is written with them.
    - [awds/BasePacket.h] and the wrappers ([SrcPacket], [Beacon], [Flood],
      [TopoPacket], [UnicastPacket], [TraceUcPacket], [FlowPacket]): one buffer of
      4096 bytes with a reference count, shared between the neighbour table, the
      send queue and the handlers.
    - [beacon.cc], [awds/NodeDescr.h] and the first half of [AwdsRouting.cc]: the
      neighbour table that beacons fill.
    - [Topology.cc]: the adjacency list topology packets fill, its expiry, the
      routes, the table that is handed to the kernel, the observers, and the texts
      (DOT, XML, adjacency) that [topowatch.cc] and [dumpTopo.cc] give to clients.
    - [AwdsRouting.cc], [TopoPacket.cc], [basic.cc], [SendQueue.cc]: a received
      frame becomes a packet, is dispatched by its type, delivered to a registered
      protocol or put into the send queue; timers send beacons and topology packets.
    - [rawbasic.cc], [linuxbasic.cc], [udpBasic.cc]: three transports; the second one
      works on the sockets of the kernel module.
    - [crypto/]: AES, CCM mode, the key file and the crypto unit that signs beacons and
      topology packets and encrypts the frames of the tap device.
    - [TapInterface.cc], [SrcFilter.cc], [EtxMetric.cc], [RTTMetric.cc], [PktPair.cc],
      [TTMetric.cc], [TopoLock.cc], [pinger.cc], [Traffic.cc]: modules that register
      protocols, metrics and commands.
    - [shell.cc], [debug_cmd.cc]: the command shell on a TCP port; the log and its
      redirection.
    - [awds.cc]: starts the modules one after the other.
    - [linux-module/awds_module.c]: the kernel module that forwards unicast packets
      with the table of the daemon.

    ** Files

    Programs are modelled as functions that return an [outcome]: the result, or
    the [fault] with which the code leaves the defined behaviour of C++ (access
    outside an object, use after free, a failed assertion, ...).  Stateful code is
    written in the state monad [M] over [outcome]; a component works on its own
    state and is lifted into a larger one with [zoom].

    - [Prelude]: machine integers, outcomes, the monad, time ([Gea]), slices of
      buffers, the hint databases.  [OMap]: maps in the order of their keys, as
      [std::map] iterates over them.
    - [Bytes], [NodeId], [Packet]: byte order, identifiers, packets.
    - [FloodHist], [Isqrt]: the flood history; the integer square root.
    - [KState], [KInstance], [KForward], [KSocket]: the kernel module: its heap and
      the services of Linux (class [LinuxKernel]), instances and interfaces, the
      packet path, the socket calls.  [KRouteThms], [KBindThms], [KPacketThms],
      [KSocketThms] hold the theorems.  [KModule]: loading, unloading and the file of
      statistics.
    - [Topology], [RoutesThms], [TableThms]: topology and routes; shortest paths;
      the way of the routes into the kernel.  [Observers]: the lists of observers.
      [TopoText], [TopoTextThms]: the topology as text, the command [topo].
    - [LinkGraph], [GraphThms], [TopologyThms]: the graph of links with its pointers
      between a link and its reverse: look-up and update, the invariant, its form while
      [feed] merges a packet; the whole merge with what observers are told; the expiry,
      and every state a topology can reach.
    - [Ccm], [CcmThms], [CryptoUnit], [CryptoThms]: authenticated encryption over any
      block cipher.  [Aes], [AesSpec], [AesThms], [AesCcmThms]: the block cipher of
      [crypto/gladman], the standard, that one computes the other, and that the two
      together are AES-CCM.  [Keyfile]: the key file and the main function that reads it.
    - [Neighbors], [NeighborThms], [LinkThms]: beacons and the neighbour table.
    - [Metrics]: link quality and the ETX metric.  [Probes], [ProbesThms], [TTMetric]:
      metrics that send probes ([RTTMetric.cc], [PktPair.cc] with their base classes,
      [TTMetric.cc], [gea2mad.cc]).  [Reports]: the history of the round-trip metric and
      the texts the metrics report.  [MetricMains]: the main functions of all metrics
      with their options, and [signaler.cc], which prints the reports.
    - [SendQueue], [SendQueueThms]: the queue to the device and Ethernet frames.
    - [Names], [Filter]: names of stations; the source filter.
    - [Routing], [Station]: the class [AwdsRouting]: reception and forwarding; the
      station's own packets, timers and registries.
    - [RoutingThms], [DeliveryThms], [FloodThms], [TopoThms], [StationThms]: theorems
      on single steps, on delivery through a network, on duplicate suppression, on
      topology packets and on beacons.  [TypeThms]: the buffers of packets keep their
      type in every event of a station.  [HeaderThms]: what rewriting a header and
      repeating a flood leave of a packet; the modules above use them.
    - [Tap], [TapThms]: the tap interface.
    - [Shell], [ShellThms], [Debug], [DebugThms]: the shell; the stream buffers, the log
      with its history, the command [debug], the options of the daemon frame.
    - [Watch], [WatchThms]: clients that watch the topology ([topowatch.cc],
      [dumpTopo.cc]).
    - [Marshal], [MarshalThms]: packets as streams ([MarshalStream.h]).
    - [Double]: [double] as a binary64 number: conversion, printing, reading.
    - [Ping], [PingThms], [TopoLock], [TopoLockThms], [Traffic], [TrafficThms]: the
      tools [pinger.cc], [TopoLock.cc], [Traffic.cc].
    - [Linux], [LinuxThms], [LinuxFrameThms], [Udp]: the transports over the kernel
      module and over UDP.
    - [Timers]: cancellable timers ([CancelTimer.h]).
    - [Startup], [StartupThms]: [main], the main functions of the modules it starts,
      the raw socket and the tap device.

    Interfaces between the components are type classes: [Gea] (time of the event
    library), [LinuxKernel], [StdSort] (what the standard promises of [std::sort]),
    [Metric] and [LinkMeter] (the two halves of a metric), [AES] (the block
    cipher; [AesThms] gives the instance of the source), [Basic] (the transport),
    [Handlers] (the functions modules register with the routing), [Commands] (the
    functions behind the names of the shell), [GeaPrint], [GeaWire], [GeaRaw],
    [GeaSeconds] and [GeaDouble] (how the event library prints, serialises and converts
    times), [ObjRepository] (its repository of objects), [Registrar] (the registrations of
    the kernel module), [Tcl] (the interpreter of the simulator), [NetDevices] and [System] (the
    answers of the operating system).  The theorems hold for every instance, or for
    those with the stated laws; the witnesses use concrete instances ([gea_ns],
    [merge_std_sort], [hop_count], [toy_aes], [ex_basic], [tap_handlers], [linux_sim]).

    ** What the theorems show

    - Routes: [calcRoutes] computes shortest paths and first hops
      ([RoutesThms]); the kernel finds for every destination the hop the daemon has
      computed ([TableThms]); its binary search and its forwarding are correct
      ([KRouteThms], [KPacketThms]).
    - Delivery: stations that agree on the topology hand a unicast packet on until
      it arrives ([DeliveryThms]); no flood is delivered twice within the window of
      the history ([FloodThms], [FloodHist]); a frame that one daemon writes to the
      kernel module is what another one reads ([LinuxFrameThms]); a ping comes back with
      the time it took ([PingThms]).
    - State: packets stay buffers of 4096 bytes ([TypeThms]); the links of the topology
      with their pointers and weights ([TopologyThms]), the neighbour table with its shared
      packets and two-hop counts ([NeighborThms]), the send queue with its references
      ([SendQueueThms]), the registry of kernel bindings ([KBindThms]) keep their
      invariants; a well-formed topology packet is taken over and the routes are shortest
      paths again ([TopologyThms]); timers call back
      once ([Timers]), observers are told of every change ([Observers]), the output of the
      daemon is kept and passed on ([DebugThms]), clients get the current topology
      ([WatchThms]).
    - Wire formats: fields are independent registers ([Packet]), beacons and
      topology packets are read back as they were written ([NeighborThms],
      [TopoThms], [StationThms]), identifiers survive printing ([Names]), topologies the
      adjacency text ([TopoTextThms]), values a marshal stream ([MarshalThms]), keys a
      text file ([Keyfile]), levels the way through [ioctl] ([LinuxThms]).
    - Cryptography: the block cipher is that of FIPS 197 ([AesThms]), [CCM_mode]
      computes RFC 3610, signing and encryption round trip, accepted counters increase
      ([CcmThms], [CryptoThms], [AesCcmThms]).
    - Metrics: the size of the probes that is asked for and what it does to the packet, and
      that one metric remains whatever is loaded ([MetricMains]).
    - Start: when the daemon enters its event loop ([StartupThms]); loading and unloading
      the kernel module ([KModule]); the shell runs the
      lines it is sent ([ShellThms]).
    - Numbers: the square root, the adaptive period, the ETX weights.
    - Deviations: theorems of kind error show inputs on which the code leaves its
      contract (a malformed beacon, a forged packet, an encrypted flood that is
      repeated in clear, a client that leaves before its answer, a mutex of the kernel
      that the start of the daemon releases, ...).

    ** Loops

    Loops that are not structural carry fuel, and [OutOfFuel] is a fault of its
    own, so a theorem that promises [Ok] also says that the fuel is enough.  The
    bounds: 32 rounds for the square root and for counting bits, the length of the
    table for binary searches (255 for the lists of a beacon, whose counters are at
    most 127), one round per node for Dijkstra's loop, [now - next + 1] for the
    beacon timer, 64 for padding a frame, the number of arguments for the parsers, two
    levels of handlers that send packets to the own station, one round per timer for
    [cleanUp], one per observer for a notification.

    ** Not modelled

    - The decryption direction and the table generator of [crypto/gladman], which the
      source switches off, its test program, and the self test of the crypto unit.
    - [awds/RateMonitor.h]: an abstract class without a user.
    - Log texts, and the differences of the XML rendering, which are events of the
      model of the topology.
    - The macros of [awds_debug.h] that write the log of the kernel module; signals and
      the [fork] of the daemon. *)

From stdpp Require Export base tactics numbers list gmap sorting.

Declare Scope awds_scope.
Delimit Scope awds_scope with awds.
#[global] Open Scope Z_scope.

(** ** Machine integers

    An unsigned [w]-bit object holds a [Z] in [[0, 2^w)]; storing a wider value
    truncates it.  [char] is the signed 8-bit type of the platforms the daemon
    is built for. *)

Definition wrap (w z : Z) : Z := z mod 2 ^ w.

Definition swrap (w z : Z) : Z :=
  let u := wrap w z in if u <? 2 ^ (w - 1) then u else u - 2 ^ w.

Notation "'u8' x" := (wrap 8 x) (at level 10, x at level 9) : awds_scope.
Notation "'u16' x" := (wrap 16 x) (at level 10, x at level 9) : awds_scope.
Notation "'u32' x" := (wrap 32 x) (at level 10, x at level 9) : awds_scope.
Notation "'u64' x" := (wrap 64 x) (at level 10, x at level 9) : awds_scope.
Notation "'s8' x" := (swrap 8 x) (at level 10, x at level 9) : awds_scope.
Notation "'s32' x" := (swrap 32 x) (at level 10, x at level 9) : awds_scope.
Open Scope awds_scope.

Definition in_width (w z : Z) : Prop := 0 <= z < 2 ^ w.

Lemma wrap_range w z : 0 <= w -> in_width w (wrap w z).
Proof. intros. apply Z.mod_pos_bound. lia. Qed.

Lemma wrap_id w z : in_width w z -> wrap w z = z.
Proof. apply Z.mod_small. Qed.

Lemma swrap_id w z : 0 < w -> 0 <= z < 2 ^ (w - 1) -> swrap w z = z.
Proof.
  intros Hw Hz. unfold swrap, wrap.
  assert (2 ^ w = 2 * 2 ^ (w - 1)) as Hp
    by (rewrite <- Z.pow_succ_r by lia; f_equal; lia).
  rewrite Z.mod_small by lia. destruct (Z.ltb_spec z (2 ^ (w - 1))); lia.
Qed.

(** ** Outcomes of C code

    C and C++ code that leaves the defined behaviour of the language, fails an
    [assert], or waits for ever on a lock is a [Fail] with the reason. *)

Inductive fault :=
| OutOfBounds     (* access outside an object *)
| NullDeref       (* dereference of a null pointer *)
| UseAfterFree    (* dereference of a freed object *)
| AssertFail      (* a failed [assert] *)
| Deadlock        (* acquiring a mutex that is never released *)
| BadUnlock       (* releasing a mutex that is not held *)
| DivByZero
| BadShift        (* shift by at least the width of the type *)
| BadCast         (* conversion of a floating value to a type it does not fit *)
| OutOfFuel.      (* the model's loop bound was reached *)

#[export] Instance fault_eq_dec : EqDecision fault.
Proof. solve_decision. Defined.

Inductive outcome (A : Type) := Ok (a : A) | Fail (f : fault).
Arguments Ok {A} a.
Arguments Fail {A} f.

#[export] Instance outcome_ret : MRet outcome := fun A a => Ok a.
#[export] Instance outcome_bind : MBind outcome := fun A B k m =>
  match m with Ok a => k a | Fail f => Fail f end.

Definition of_option {A} (f : fault) (o : option A) : outcome A :=
  match o with Some a => Ok a | None => Fail f end.

Definition cassert (b : bool) : outcome unit := if b then Ok tt else Fail AssertFail.

Lemma outcome_bind_ok {A B} (m : outcome A) (k : A -> outcome B) b :
  (a ← m; k a) = Ok b <-> exists a, m = Ok a /\ k a = Ok b.
Proof. destruct m; cbn; naive_solver. Qed.

Lemma outcome_ret_bind {A B} (a : A) (k : A -> outcome B) : (x ← Ok a; k x) = k a.
Proof. done. Qed.

(** State-passing code that can fail. *)
Definition M (S A : Type) : Type := S -> outcome (A * S).

#[export] Instance M_ret S : MRet (M S) := fun A a s => Ok (a, s).
#[export] Instance M_bind S : MBind (M S) := fun A B k m s =>
  match m s with Ok (a, s') => k a s' | Fail f => Fail f end.

Definition get {S} : M S S := fun s => Ok (s, s).
Definition gets {S A} (g : S -> A) : M S A := fun s => Ok (g s, s).
Definition modify {S} (g : S -> S) : M S unit := fun s => Ok (tt, g s).
Definition fail {S A} (f : fault) : M S A := fun _ => Fail f.
Definition lift {S A} (m : outcome A) : M S A := fun s =>
  match m with Ok a => Ok (a, s) | Fail f => Fail f end.

(** Code of a component that runs on the part [g] of a larger state. *)
Definition zoom {S T A} (g : S -> T) (put : T -> S -> S) (m : M T A) : M S A := fun s =>
  match m (g s) with Ok (a, t) => Ok (a, put t s) | Fail f => Fail f end.

(** Running a step of a monadic program. *)

Lemma M_bind_inv {S A B} (m : M S A) (k : A -> M S B) s b s' :
  (m ≫= k) s = Ok (b, s') -> exists a s1, m s = Ok (a, s1) /\ k a s1 = Ok (b, s').
Proof. unfold mbind, M_bind. destruct (m s) as [[a s1]|]; [|done]. intros E. by exists a, s1. Qed.

Lemma M_bind_ok {S A B} (m : M S A) (k : A -> M S B) s a s' :
  m s = Ok (a, s') -> (x ← m; k x) s = k a s'.
Proof. intros E. unfold mbind, M_bind. by rewrite E. Qed.

Lemma M_bind_fail {S A B} (m : M S A) (k : A -> M S B) s f :
  m s = Fail f -> (x ← m; k x) s = Fail f.
Proof. intros E. unfold mbind, M_bind. by rewrite E. Qed.

Lemma lift_ok {S A} (m : outcome A) (s : S) a : m = Ok a -> lift m s = Ok (a, s).
Proof. by intros ->. Qed.

(** One step: a call with the known result [E], or a primitive. *)
Ltac mcall E := erewrite M_bind_ok by (eapply E; eauto).
Ltac mprim := erewrite M_bind_ok by reflexivity.
Ltac mlift := erewrite M_bind_ok by (apply lift_ok; first [reflexivity | eassumption]).

(** ** Time

    The event library GEA ([gea::AbsTime], [gea::Duration], [GEA.waitFor]) is
    not part of the repository.  The model uses integers for points in time and
    for durations, with the two conversions the sources use as operations of an
    interface: [Duration(num, den)] is [num/den] seconds and [getNanoSecsLL()]
    the number of nanoseconds.  The laws are those the sources rely on. *)

Class Gea := {
  duration : Z -> Z -> Z;
  nanosecs : Z -> Z;
  nanosecs_ms : forall ms, 0 <= ms -> nanosecs (duration ms 1000) = ms * 1000000;
  duration_mono : forall a b d, 0 < d -> a <= b -> duration a d <= duration b d;
  duration_pos : forall a d, 0 < d -> 0 < a -> d <= 10000 -> 0 < duration a d;
}.

(** Time in nanoseconds. *)
Definition gea_ns : Gea.
Proof.
  refine {| duration a d := a * 1000000000 / d; nanosecs t := t |}.
  - intros ms _. replace (ms * 1000000000) with (ms * 1000000 * 1000) by lia.
    apply Z.div_mul. lia.
  - intros a b d Hd Hab. apply Z.div_le_mono; lia.
  - intros a d Hd Ha Hle. apply Z.div_str_pos. nia.
Defined.

(** ** Byte strings

    A byte is a [Z] in [[0, 256)]; [slice off n l] are the [n] cells from
    [off], [splice off bs l] overwrites the cells from [off] with [bs]. *)

Definition is_byte (b : Z) : Prop := 0 <= b < 256.
Abbreviation bytes := (Forall is_byte).

Definition slice {A} (off n : nat) (l : list A) : list A := take n (drop off l).
Definition splice {A} (off : nat) (bs l : list A) : list A :=
  take off l ++ bs ++ drop (off + length bs) l.

(** The byte at a fixed offset of a buffer that is known to reach that far. *)
Definition byte_at (l : list Z) (off : nat) : Z := default 0 (l !! off).

Section slices.
Context {A : Type}.
Implicit Types (l bs : list A) (off n : nat).

Lemma slice_length off n l : (off + n <= length l)%nat -> length (slice off n l) = n.
Proof. intros. unfold slice. rewrite length_take, length_drop. lia. Qed.

Lemma splice_length off bs l :
  (off + length bs <= length l)%nat -> length (splice off bs l) = length l.
Proof.
  intros. unfold splice. rewrite !length_app, length_take, length_drop. lia.
Qed.

Lemma splice_lookup off bs l i :
  (off + length bs <= length l)%nat ->
  splice off bs l !! i =
    if decide (off <= i < off + length bs)%nat then bs !! (i - off)%nat else l !! i.
Proof.
  intros H. unfold splice. case_decide as D.
  - rewrite lookup_app_r by (rewrite length_take; lia).
    rewrite length_take, lookup_app_l by lia. f_equal. lia.
  - destruct (decide (i < off)%nat).
    + rewrite lookup_app_l by (rewrite length_take; lia).
      apply lookup_take_lt; lia.
    + rewrite lookup_app_r by (rewrite length_take; lia).
      rewrite lookup_app_r by (rewrite length_take; lia).
      rewrite lookup_drop, length_take. f_equal. lia.
Qed.

Lemma slice_splice_same off bs l :
  (off + length bs <= length l)%nat -> slice off (length bs) (splice off bs l) = bs.
Proof.
  intros. unfold slice, splice.
  rewrite drop_app_ge by (rewrite length_take; lia).
  rewrite length_take, Nat.min_l by lia. rewrite Nat.sub_diag, drop_0.
  apply take_app_length.
Qed.

Lemma slice_splice_disjoint off n off' bs l :
  (off' + length bs <= length l)%nat ->
  (off + n <= off' \/ off' + length bs <= off)%nat ->
  slice off n (splice off' bs l) = slice off n l.
Proof.
  intros Hl Hd. apply list_eq. intros i. unfold slice.
  destruct (decide (i < n)%nat).
  - rewrite !lookup_take_lt, !lookup_drop, splice_lookup by lia.
    case_decide; [lia | done].
  - rewrite !lookup_take_ge by lia. done.
Qed.

Lemma slice_lookup off n l i :
  (i < n)%nat -> slice off n l !! i = l !! (off + i)%nat.
Proof. intros. unfold slice. by rewrite lookup_take_lt, lookup_drop. Qed.

Lemma slice_cons off n l x :
  l !! off = Some x -> slice off (S n) l = x :: slice (S off) n l.
Proof. intros H. unfold slice. by erewrite drop_S by exact H. Qed.

Lemma slice_snoc off n l x :
  l !! (off + n)%nat = Some x -> slice off (S n) l = slice off n l ++ [x].
Proof.
  intros H. unfold slice. apply take_S_r. by rewrite lookup_drop.
Qed.

Lemma splice_nil off l : splice off [] l = l.
Proof. unfold splice. cbn. rewrite Nat.add_0_r. apply take_drop. Qed.

Lemma splice_snoc off bs x l :
  (off + S (length bs) <= length l)%nat ->
  splice off (bs ++ [x]) l = splice off bs (<[(off + length bs)%nat := x]> l).
Proof.
  intros H. apply list_eq. intros i.
  rewrite !splice_lookup by (rewrite ?length_insert, ?length_app; cbn; lia).
  rewrite length_app. cbn. repeat case_decide; try lia.
  - by rewrite lookup_app_l by lia.
  - replace i with (off + length bs)%nat by lia.
    rewrite list_lookup_insert_eq by lia.
    rewrite lookup_app_r by lia.
    by replace (off + length bs - off - length bs)%nat with 0%nat by lia.
  - rewrite list_lookup_insert_ne by lia. done.
Qed.

Lemma Forall_slice (P : A -> Prop) off n l : Forall P l -> Forall P (slice off n l).
Proof. intros. unfold slice. by apply Forall_take, Forall_drop. Qed.

Lemma Forall_splice (P : A -> Prop) off bs l :
  Forall P bs -> Forall P l -> Forall P (splice off bs l).
Proof.
  intros. unfold splice. repeat apply Forall_app_2; auto using Forall_take, Forall_drop.
Qed.
End slices.

Create HintDb awds.
Create Rewrite HintDb awds.
#[export] Hint Resolve Forall_slice Forall_splice slice_length : awds.
#[export] Hint Rewrite @splice_length @slice_splice_same using (cbn; lia) : awds.
