(* ===== verification/OMap.v ===== *)
(** * Ordered maps

    A [std::map] with integer keys is the list of its elements in key order; the
    modules that walk over such maps share these operations. *)

From S2P Require Import Prelude.

Section omap.
Context {D : Type}.
Abbreviation omap := (list (Z * D)).
Implicit Types (k : Z) (d : D) (m : omap).

Fixpoint om_find k m : option D :=
  match m with
  | [] => None
  | (k', d) :: m => if k' =? k then Some d else if k <? k' then None else om_find k m
  end.

(** [m[k] = d] *)
Fixpoint om_put k d m : omap :=
  match m with
  | [] => [(k, d)]
  | (k', d') :: m' =>
      if k' =? k then (k, d) :: m' else if k <? k' then (k, d) :: m else (k', d') :: om_put k d m'
  end.

(** [m.erase(k)] *)
Definition om_erase k m : omap := filter (fun kd => kd.1 <> k) m.

Definition om_sorted m : Prop := StronglySorted Z.lt (m.*1).

Lemma om_sorted_cons k d m : om_sorted ((k, d) :: m) <-> om_sorted m /\ Forall (fun kd => k < kd.1) m.
Proof.
  unfold om_sorted. cbn. split.
  - intros [H1 H2]%StronglySorted_inv. split; [done|]. exact (proj1 (Forall_fmap fst _ _) H2).
  - intros [H1 H2]. constructor; [done|]. exact (proj2 (Forall_fmap fst _ _) H2).
Qed.

Lemma om_find_elem k d m : om_sorted m -> om_find k m = Some d <-> (k, d) ∈ m.
Proof.
  induction m as [|[k' d'] m IH]; intros Hs; cbn [om_find]; [split; [done | by intros ?%elem_of_nil]|].
  apply om_sorted_cons in Hs as [Hs Hk]. rewrite elem_of_cons, <- IH by done.
  destruct (Z.eqb_spec k' k) as [->|Hne].
  - split; [intros [= ->]; by left|]. intros [[= ->]|Hf]; [done|].
    apply IH in Hf; [|done]. rewrite Forall_forall in Hk. specialize (Hk _ Hf). cbn in Hk. lia.
  - destruct (Z.ltb_spec k k') as [L|L]; [|naive_solver].
    split; [done|]. intros [[=]|Hf]; [congruence|]. apply IH in Hf; [|done].
    rewrite Forall_forall in Hk. specialize (Hk _ Hf). cbn in Hk. lia.
Qed.

Lemma om_put_elem k d m x : om_sorted m -> x ∈ om_put k d m <-> x = (k, d) \/ (x ∈ m /\ x.1 <> k).
Proof.
  induction m as [|[k' d'] m IH]; intros Hs; cbn [om_put]; [rewrite elem_of_cons, elem_of_nil; naive_solver|].
  apply om_sorted_cons in Hs as [Hs Hk]. rewrite Forall_forall in Hk.
  destruct (Z.eqb_spec k' k) as [->|Hne].
  - rewrite !elem_of_cons. split; [|naive_solver]. intros [->|Hx]; [by left|]. right. split; [by right|].
    apply Hk in Hx. cbn in Hx. lia.
  - destruct (Z.ltb_spec k k') as [L|L]; rewrite !elem_of_cons; [|rewrite IH by done; naive_solver].
    split; [|naive_solver]. intros [->|[->|Hx]]; [by left | right; naive_solver |]. right.
    split; [by right|]. apply Hk in Hx. cbn in Hx. lia.
Qed.

Lemma om_put_sorted k d m : om_sorted m -> om_sorted (om_put k d m).
Proof.
  induction m as [|[k' d'] m IH]; intros Hs; cbn [om_put]; [apply om_sorted_cons; split; [done | constructor]|].
  pose proof Hs as Hs0. apply om_sorted_cons in Hs as [Hs Hk].
  destruct (Z.eqb_spec k' k) as [->|Hne]; [by apply om_sorted_cons|].
  destruct (Z.ltb_spec k k') as [L|L]; apply om_sorted_cons; split; try done; try by apply IH.
  - constructor; [done|]. eapply Forall_impl; [exact Hk|]. cbn. intros ? ?. lia.
  - rewrite Forall_forall in *. intros x [->|[Hx _]]%om_put_elem; [cbn; lia | by apply Hk | done].
Qed.

(** Lookup after insertion. *)
Lemma om_find_put k k' d m : om_sorted m -> om_find k' (om_put k d m) = if decide (k' = k) then Some d else om_find k' m.
Proof.
  intros Hs. apply option_eq. intros d'. rewrite om_find_elem, om_put_elem by auto using om_put_sorted.
  case_decide as E; [subst; naive_solver|]. rewrite om_find_elem by done. naive_solver.
Qed.

Lemma om_erase_sorted k m : om_sorted m -> om_sorted (om_erase k m).
Proof.
  induction m as [|[k' d'] m IH]; intros Hs; [done|]. apply om_sorted_cons in Hs as [Hs Hk].
  unfold om_erase. rewrite filter_cons. case_decide; [|by apply IH].
  apply om_sorted_cons. split; [by apply IH|]. rewrite Forall_forall in *. intros x Hx.
  apply list_elem_of_filter in Hx as [_ Hx]. by apply Hk.
Qed.

Lemma om_erase_elem k m x : x ∈ om_erase k m <-> x ∈ m /\ x.1 <> k.
Proof. unfold om_erase. rewrite list_elem_of_filter. naive_solver. Qed.
End omap.
