(* ===== verification/Bytes.v ===== *)
(** * Bytes: network byte order

    [src/src/awds/toArray.h]: the templates [toArray<T>] and [fromArray<T>]
    as the loops the source runs, the i386 specialisations, and the reference
    big-endian codec [be_enc]/[be_dec] both are proved equal to.  The
    lexicographic order of byte strings ([memcmp]) is the order of the numbers
    they encode; the kernel module's table search and [AbstractID] rely on it. *)

From S2P Require Import Prelude.

(** ** Reference big-endian codec *)

Fixpoint be_enc (n : nat) (z : Z) : list Z :=
  match n with
  | O => []
  | S n' => be_enc n' (z / 256) ++ [z mod 256]
  end.

Definition be_dec (l : list Z) : Z := foldl (fun acc b => acc * 256 + b) 0 l.

Lemma be_enc_length n z : length (be_enc n z) = n.
Proof. revert z. induction n; intros; cbn; rewrite ?length_app, ?IHn; cbn; lia. Qed.

Lemma be_enc_bytes n z : bytes (be_enc n z).
Proof.
  revert z. induction n as [|n IH]; intros z; cbn; [constructor|].
  apply Forall_app_2; [apply IH|]. repeat constructor; apply Z.mod_pos_bound; lia.
Qed.

Lemma be_dec_snoc l b : be_dec (l ++ [b]) = be_dec l * 256 + b.
Proof. unfold be_dec. by rewrite foldl_app. Qed.

Lemma be_dec_bound l : bytes l -> 0 <= be_dec l < 256 ^ Z.of_nat (length l).
Proof.
  induction l as [|b l IH] using rev_ind; intros Hl; [cbn; lia|].
  apply Forall_app in Hl as [Hl Hb]. apply Forall_cons_1 in Hb as [Hb _].
  specialize (IH Hl). unfold is_byte in Hb.
  rewrite be_dec_snoc, length_app. cbn [length].
  rewrite Nat2Z.inj_add, Z.pow_add_r by lia. change (256 ^ Z.of_nat 1) with 256. lia.
Qed.

Lemma be_dec_enc n z : be_dec (be_enc n z) = z mod 256 ^ Z.of_nat n.
Proof.
  revert z. induction n as [|n IH]; intros z; [cbn; by rewrite Z.mod_1_r|].
  cbn [be_enc]. rewrite be_dec_snoc, IH, Nat2Z.inj_succ, Z.pow_succ_r by lia.
  rewrite Z.rem_mul_r by lia. lia.
Qed.

Lemma be_dec_enc_id n z : 0 <= z < 256 ^ Z.of_nat n -> be_dec (be_enc n z) = z.
Proof. intros. rewrite be_dec_enc. by apply Z.mod_small. Qed.

Lemma be_enc_dec l : bytes l -> be_enc (length l) (be_dec l) = l.
Proof.
  induction l as [|b l IH] using rev_ind; intros Hl; [done|].
  apply Forall_app in Hl as [Hl Hb]. apply Forall_cons_1 in Hb as [Hb _]. unfold is_byte in Hb.
  rewrite length_app, be_dec_snoc. cbn [length]. rewrite Nat.add_1_r. cbn [be_enc].
  rewrite Z.div_add_l, Z.div_small, Z.add_0_r, IH by (done || lia).
  by rewrite Z.add_comm, Z.mod_add, Z.mod_small by lia.
Qed.

Lemma be_dec_inj l1 l2 :
  bytes l1 -> bytes l2 -> length l1 = length l2 -> be_dec l1 = be_dec l2 -> l1 = l2.
Proof.
  intros H1 H2 Hl He. rewrite <- (be_enc_dec l1), <- (be_enc_dec l2) by done.
  by rewrite Hl, He.
Qed.

Lemma be_dec_app l1 l2 :
  be_dec (l1 ++ l2) = be_dec l1 * 256 ^ Z.of_nat (length l2) + be_dec l2.
Proof.
  induction l2 as [|b l2 IH] using rev_ind.
  - rewrite app_nil_r. cbn. lia.
  - rewrite app_assoc, !be_dec_snoc, IH, length_app, Nat2Z.inj_add, Z.pow_add_r by lia.
    cbn [length]. change (256 ^ Z.of_nat 1) with 256. lia.
Qed.

Lemma be_dec_cons b l : be_dec (b :: l) = b * 256 ^ Z.of_nat (length l) + be_dec l.
Proof. change (b :: l) with ([b] ++ l). rewrite be_dec_app. cbn. lia. Qed.

(** ** [memcmp]

    The sign of the result of [memcmp] on two blocks of the same length: the
    difference of the first bytes (as [unsigned char]) that differ. *)

Fixpoint memcmp (l1 l2 : list Z) : Z :=
  match l1, l2 with
  | b1 :: l1', b2 :: l2' => if b1 =? b2 then memcmp l1' l2' else b1 - b2
  | _, _ => 0
  end.

Lemma memcmp_spec l1 l2 :
  bytes l1 -> bytes l2 -> length l1 = length l2 ->
  (memcmp l1 l2 ?= 0) = (be_dec l1 ?= be_dec l2).
Proof.
  intros H1. revert l2. induction H1 as [|b1 l1 Hb1 H1 IH]; intros l2 H2 Hl.
  - by destruct l2.
  - destruct l2 as [|b2 l2]; [done|]. apply Forall_cons in H2 as [Hb2 H2].
    injection Hl as Hl. cbn [memcmp]. rewrite !be_dec_cons, Hl.
    pose proof (be_dec_bound l1 H1) as B1. pose proof (be_dec_bound l2 H2) as B2.
    rewrite Hl in B1. unfold is_byte in *.
    set (p := 256 ^ Z.of_nat (length l2)) in *.
    destruct (Z.eqb_spec b1 b2) as [->|Hne].
    + rewrite (IH l2 H2 Hl). symmetry. apply Zcompare_plus_compat.
    + destruct (Z.lt_total b1 b2) as [Hlt|[?|Hgt]]; [|lia|].
      * rewrite (proj2 (Z.compare_lt_iff _ _)) by lia.
        symmetry. apply Z.compare_lt_iff. nia.
      * rewrite (proj2 (Z.compare_gt_iff _ _)) by lia.
        symmetry. apply Z.compare_gt_iff. nia.
Qed.

(** ** [toArray<T>] and [fromArray<T>]

    [sz] is [sizeof(T)].  The loop counter [i] of the source runs up while the
    cell [sizeof(T) - 1 - i] runs down; [k] is that cell plus one. *)

Fixpoint toArray_loop (k : nat) (d : Z) (off : nat) (array : list Z) : list Z :=
  match k with
  | O => array
  | S k' => toArray_loop k' (Z.shiftr d 8) off (<[(off + k')%nat := u8 d]> array)
  end.

Definition toArray (sz : nat) (d : Z) (off : nat) (array : list Z) : list Z :=
  toArray_loop sz d off array.

Fixpoint fromArray_loop (w : Z) (n i : nat) (d : Z) (off : nat) (array : list Z) : Z :=
  match n with
  | O => d
  | S n' =>
      fromArray_loop w n' (S i)
        (Z.lor (wrap w (Z.shiftl d 8)) (byte_at array (off + i))) off array
  end.

Definition fromArray (sz : nat) (off : nat) (array : list Z) : Z :=
  fromArray_loop (8 * Z.of_nat sz) sz 0 0 off array.

(** *** The loops compute the reference codec *)

Lemma lor_pack k a b : 0 <= k -> in_width k b -> Z.lor (a * 2 ^ k) b = a * 2 ^ k + b.
Proof.
  intros Hk Hb. unfold in_width in Hb.
  assert (Z.land (a * 2 ^ k) b = 0) as Hland.
  { rewrite <- (Z.mod_small b (2 ^ k)) by lia.
    rewrite <- Z.land_ones, <- Z.shiftl_mul_pow2 by lia.
    apply Z.bits_inj'. intros n Hn. rewrite !Z.land_spec, Z.bits_0.
    destruct (Z.lt_ge_cases n k).
    - by rewrite Z.shiftl_spec_low by lia.
    - rewrite Z.ones_spec_high by lia. by rewrite !andb_false_r. }
  rewrite <- Z.lxor_lor by done. symmetry. by apply Z.add_nocarry_lxor.
Qed.

Lemma lor_low_byte d b : is_byte b -> Z.lor (d * 256) b = d * 256 + b.
Proof. intros Hb. by apply (lor_pack 8). Qed.

Lemma toArray_loop_spec k d off array :
  (off + k <= length array)%nat ->
  toArray_loop k d off array = splice off (be_enc k d) array.
Proof.
  revert d array. induction k as [|k IH]; intros d array Hlen; cbn [toArray_loop be_enc].
  - by rewrite splice_nil.
  - rewrite IH by (rewrite length_insert; lia).
    rewrite splice_snoc by (rewrite be_enc_length; lia).
    rewrite be_enc_length, Z.shiftr_div_pow2 by lia. done.
Qed.

Lemma fromArray_loop_spec w n i d off array :
  w = 8 * Z.of_nat (i + n) -> 0 <= d < 256 ^ Z.of_nat i ->
  (off + i + n <= length array)%nat -> bytes array ->
  fromArray_loop w n i d off array =
    d * 256 ^ Z.of_nat n + be_dec (slice (off + i) n array).
Proof.
  intros -> Hd. revert i d Hd. induction n as [|n IH]; intros i d Hd Hlen Hb.
  - unfold slice. rewrite take_0. cbn -[Z.mul]. lia.
  - cbn [fromArray_loop].
    destruct (lookup_lt_is_Some_2 array (off + i)) as [x Hx]; [lia|].
    unfold byte_at. rewrite Hx. change (default 0 (Some x)) with x.
    assert (is_byte x) as Hxb by (eapply Forall_lookup_1; eauto).
    rewrite Z.shiftl_mul_pow2 by lia. change (2 ^ 8) with 256.
    assert (d * 256 < 256 ^ Z.of_nat (S i)) as Hlt
      by (rewrite Nat2Z.inj_succ, Z.pow_succ_r by lia; lia).
    rewrite wrap_id.
    2: { split; [lia|]. replace (2 ^ _) with (256 ^ Z.of_nat (i + S n))
           by (change 256 with (2 ^ 8); rewrite <- Z.pow_mul_r by lia; done).
         apply Z.lt_le_trans with (256 ^ Z.of_nat (S i)); [done|].
         apply Z.pow_le_mono_r; lia. }
    rewrite lor_low_byte by (done || lia).
    replace (i + S n)%nat with (S i + n)%nat by lia.
    rewrite IH; [|unfold is_byte in Hxb; rewrite Nat2Z.inj_succ, Z.pow_succ_r in * by lia; lia
                 |lia|done].
    rewrite (slice_cons _ _ _ x Hx), be_dec_cons, slice_length by lia.
    replace (off + S i)%nat with (S (off + i)) by lia.
    rewrite Nat2Z.inj_succ, Z.pow_succ_r by lia. lia.
Qed.

Lemma toArray_spec sz d off array :
  (off + sz <= length array)%nat -> toArray sz d off array = splice off (be_enc sz d) array.
Proof. apply toArray_loop_spec. Qed.

Lemma fromArray_spec sz off array :
  (off + sz <= length array)%nat -> bytes array ->
  fromArray sz off array = be_dec (slice off sz array).
Proof.
  intros. unfold fromArray. rewrite fromArray_loop_spec by (done || cbn; lia).
  by rewrite Nat.add_0_r.
Qed.

Lemma fromArray_toArray_same sz d off array :
  (off + sz <= length array)%nat -> bytes array ->
  fromArray sz off (toArray sz d off array) = d mod 256 ^ Z.of_nat sz.
Proof.
  intros Hl Hb. rewrite toArray_spec by done.
  assert (length (be_enc sz d) = sz) as He by apply be_enc_length.
  rewrite fromArray_spec.
  - rewrite <- He at 1. rewrite slice_splice_same by lia. apply be_dec_enc.
  - by rewrite splice_length by lia.
  - apply Forall_splice; [apply be_enc_bytes | done].
Qed.

Lemma fromArray_toArray_other sz d off sz' off' array :
  (off + sz <= length array)%nat -> (off' + sz' <= length array)%nat -> bytes array ->
  (off' + sz' <= off \/ off + sz <= off')%nat ->
  fromArray sz' off' (toArray sz d off array) = fromArray sz' off' array.
Proof.
  intros Hl Hl' Hb Hd. rewrite toArray_spec by done.
  assert (length (be_enc sz d) = sz) as He by apply be_enc_length.
  rewrite !fromArray_spec; try done.
  - rewrite slice_splice_disjoint by lia. done.
  - by rewrite splice_length by lia.
  - apply Forall_splice; [apply be_enc_bytes | done].
Qed.

Lemma toArray_length sz d off array :
  (off + sz <= length array)%nat -> length (toArray sz d off array) = length array.
Proof. intros. rewrite toArray_spec, splice_length by (rewrite ?be_enc_length; done). done. Qed.

Lemma toArray_bytes sz d off array :
  (off + sz <= length array)%nat -> bytes array -> bytes (toArray sz d off array).
Proof. intros. rewrite toArray_spec by done. apply Forall_splice; [apply be_enc_bytes|done]. Qed.

Lemma fromArray_range sz off array :
  (off + sz <= length array)%nat -> bytes array ->
  0 <= fromArray sz off array < 256 ^ Z.of_nat sz.
Proof.
  intros. rewrite fromArray_spec by done.
  pose proof (be_dec_bound (slice off sz array)) as B.
  rewrite slice_length in B by done. apply B. by apply Forall_slice.
Qed.

(** ** The i386 specialisations

    A 16- or 32-bit load or store in the little-endian order of the i386,
    followed or preceded by the byte swap of [<byteswap.h>]. *)

Module I386.
Definition bswap_16 (x : Z) : Z :=
  Z.lor (Z.shiftl (Z.land x 255) 8) (Z.land (Z.shiftr x 8) 255).

Definition bswap_32 (x : Z) : Z :=
  Z.lor (Z.shiftl (bswap_16 (Z.land x 65535)) 16) (bswap_16 (Z.shiftr x 16)).

Definition load16 (off : nat) (array : list Z) : Z :=
  Z.lor (Z.shiftl (byte_at array (off + 1)) 8) (byte_at array off).
Definition load32 (off : nat) (array : list Z) : Z :=
  Z.lor (Z.shiftl (load16 (off + 2) array) 16) (load16 off array).

Definition store16 (v : Z) (off : nat) (array : list Z) : list Z :=
  splice off [Z.land v 255; Z.land (Z.shiftr v 8) 255] array.
Definition store32 (v : Z) (off : nat) (array : list Z) : list Z :=
  store16 (Z.shiftr v 16) (off + 2) (store16 (Z.land v 65535) off array).

Definition fromArray_ushort (off : nat) (array : list Z) : Z := bswap_16 (load16 off array).
Definition fromArray_ulong (off : nat) (array : list Z) : Z := bswap_32 (load32 off array).
Definition toArray_ushort (v : Z) (off : nat) (array : list Z) : list Z :=
  store16 (bswap_16 v) off array.
Definition toArray_ulong (v : Z) (off : nat) (array : list Z) : list Z :=
  store32 (bswap_32 v) off array.

Lemma bswap_16_spec hi lo : is_byte hi -> is_byte lo -> bswap_16 (hi * 256 + lo) = lo * 256 + hi.
Proof.
  intros Hh Hl. unfold bswap_16, is_byte in *.
  change 255 with (Z.ones 8). rewrite !Z.land_ones, Z.shiftr_div_pow2, Z.shiftl_mul_pow2 by lia.
  change (2 ^ 8) with 256.
  rewrite Z.div_add_l, (Z.div_small lo), Z.add_0_r by lia.
  rewrite (Z.add_comm (hi * 256)), Z.mod_add, !Z.mod_small by lia.
  by apply lor_low_byte.
Qed.

Lemma load16_spec off array b0 b1 :
  array !! off = Some b0 -> array !! (off + 1)%nat = Some b1 -> is_byte b0 -> is_byte b1 ->
  load16 off array = b1 * 256 + b0.
Proof.
  intros H0 H1 B0 B1. unfold load16, byte_at. rewrite H0, H1. cbn [from_option id].
  rewrite Z.shiftl_mul_pow2 by lia. by apply lor_low_byte.
Qed.

Lemma bswap_32_spec a b c d :
  is_byte a -> is_byte b -> is_byte c -> is_byte d ->
  bswap_32 ((a * 256 + b) * 65536 + (c * 256 + d)) = (d * 256 + c) * 65536 + (b * 256 + a).
Proof.
  intros. unfold bswap_32, is_byte in *. change 65535 with (Z.ones 16).
  rewrite Z.land_ones, Z.shiftr_div_pow2 by lia. change (2 ^ 16) with 65536.
  rewrite Z.div_add_l, (Z.div_small (c * 256 + d)), Z.add_0_r by lia.
  rewrite (Z.add_comm ((a * 256 + b) * 65536)), Z.mod_add, Z.mod_small by lia.
  rewrite !bswap_16_spec by (unfold is_byte; lia). rewrite Z.shiftl_mul_pow2 by lia.
  apply (lor_pack 16); unfold in_width; lia.
Qed.
End I386.
