(* ===== verification/NodeId.v ===== *)
(** * NodeId: station identifiers

    [src/src/awds/AbstractId.h], [src/src/awds/NodeId.h].  [AbstractID<Size>]
    is an array of [Size] bytes compared lexicographically; the specialisation
    [AbstractID<6>], which [NodeId] is, keeps the identifier in a 64-bit word.
    The two representations are related by the big-endian codec, and the
    comparison operators of both are shown to agree. *)

From S2P Require Import Prelude Bytes.

(** ** The i386 byte-order specialisations agree with the portable loops *)

Lemma slice2 off (array : list Z) b0 b1 :
  array !! off = Some b0 -> array !! (off + 1)%nat = Some b1 -> slice off 2 array = [b0; b1].
Proof.
  intros H0 H1. rewrite (slice_cons _ _ _ b0 H0). f_equal.
  rewrite (slice_cons _ _ _ b1) by (by rewrite <- Nat.add_1_r). done.
Qed.

Lemma fromArray_ushort_equiv off array :
  (off + 2 <= length array)%nat -> bytes array ->
  I386.fromArray_ushort off array = fromArray 2 off array.
Proof.
  intros Hl Hb. rewrite fromArray_spec by done.
  destruct (lookup_lt_is_Some_2 array off) as [b0 H0]; [lia|].
  destruct (lookup_lt_is_Some_2 array (off + 1)) as [b1 H1]; [lia|].
  assert (is_byte b0) by (by eapply (Forall_lookup_1 is_byte)).
  assert (is_byte b1) by (by eapply (Forall_lookup_1 is_byte)).
  rewrite (slice2 _ _ b0 b1) by done.
  unfold I386.fromArray_ushort. by rewrite (I386.load16_spec off array b0 b1), I386.bswap_16_spec.
Qed.

Lemma be_enc_2 v : in_width 16 v -> be_enc 2 v = [v / 256; v mod 256].
Proof.
  intros [H0 H1]. change (2 ^ 16) with (256 * 256) in H1. cbn. f_equal.
  apply Z.mod_small. split; [apply Z.div_pos | apply Z.div_lt_upper_bound]; lia.
Qed.

Lemma toArray_ushort_equiv v off array :
  in_width 16 v -> (off + 2 <= length array)%nat ->
  I386.toArray_ushort v off array = toArray 2 v off array.
Proof.
  intros Hv Hl. rewrite toArray_spec, be_enc_2 by done.
  unfold I386.toArray_ushort, I386.store16. destruct Hv as [H0 H1].
  change (2 ^ 16) with (256 * 256) in H1.
  assert (0 <= v / 256 < 256)
    by (split; [apply Z.div_pos | apply Z.div_lt_upper_bound]; lia).
  pose proof (Z.mod_pos_bound v 256 ltac:(lia)).
  rewrite (Z.div_mod v 256) at 1 2 by lia.
  rewrite (Z.mul_comm 256), I386.bswap_16_spec by (unfold is_byte; lia).
  change 255 with (Z.ones 8). rewrite !Z.land_ones, Z.shiftr_div_pow2 by lia.
  change (2 ^ 8) with 256.
  rewrite Z.div_add_l, (Z.div_small (v / 256)), Z.add_0_r, Z.mod_mod by lia.
  by rewrite (Z.add_comm (_ * 256)), Z.mod_add, (Z.mod_small (v / 256)) by lia.
Qed.

(** ** [AbstractID<Size>]: the generic template *)

Module AbstractID.
Section size.
Context (Size : nat).

(** The default constructor clears every cell. *)
Definition mk_default : list Z := replicate Size 0.

(** [AbstractID(unsigned num)]: cell [Size-1] first, [k] cells to go. *)
Fixpoint of_num_loop (k : nat) (num : Z) (id : list Z) : list Z :=
  match k with
  | O => id
  | S k' => of_num_loop k' (Z.shiftr num 8) (<[k' := Z.land num 255]> id)
  end.
Definition of_num (num : Z) : list Z := of_num_loop Size (wrap 32 num) mk_default.

Definition fromArray (off : nat) (data : list Z) : list Z := slice off Size data.
Definition toArray (id : list Z) (off : nat) (data : list Z) : list Z := splice off id data.
End size.

(** [LEXI_BOOL_OP(op)]: the operator on the first cells that differ, and
    [0 op 0] when there are none. *)
Fixpoint lexi_bool_op (op : Z -> Z -> bool) (a b : list Z) : bool :=
  match a, b with
  | x :: a', y :: b' =>
      if x =? y then lexi_bool_op op a' b'
      else if negb (op x y) then false
      else true
  | _, _ => op 0 0
  end.

(** The six instances of the macro. *)
Definition ops : list (Z -> Z -> bool) :=
  [Z.eqb; (fun x y => negb (x =? y)); Z.ltb; Z.gtb; Z.leb; Z.geb].

(** An operator that only looks at how its operands compare. *)
Definition by_compare (op : Z -> Z -> bool) : Prop :=
  exists f : comparison -> bool, forall x y, op x y = f (x ?= y).

Lemma ops_by_compare op : op ∈ ops -> by_compare op.
Proof.
  intros Hop. unfold ops in Hop.
  repeat (apply elem_of_cons in Hop as [->|Hop]); [| | | | | |by apply not_elem_of_nil in Hop].
  - exists (fun c => match c with Eq => true | _ => false end). intros.
    destruct (Z.eqb_spec x y), (Z.compare_spec x y); (done || lia).
  - exists (fun c => match c with Eq => false | _ => true end). intros.
    destruct (Z.eqb_spec x y), (Z.compare_spec x y); (done || lia).
  - by exists (fun c => match c with Lt => true | _ => false end).
  - by exists (fun c => match c with Gt => true | _ => false end).
  - by exists (fun c => match c with Gt => false | _ => true end).
  - by exists (fun c => match c with Lt => false | _ => true end).
Qed.

Lemma lexi_memcmp op a b :
  by_compare op -> length a = length b -> lexi_bool_op op a b = op (memcmp a b) 0.
Proof.
  intros [f Hf]. revert b. induction a as [|x a IH]; intros [|y b] Hl; try done.
  injection Hl as Hl. cbn. destruct (Z.eqb_spec x y) as [->|Hne]; [by apply IH|].
  replace (op (x - y) 0) with (op x y).
  - by destruct (op x y).
  - rewrite !Hf. f_equal.
    destruct (Z.compare_spec x y), (Z.compare_spec (x - y) 0); (done || lia).
Qed.

(** The comparison of two identifiers is the comparison of their values. *)
Lemma lexi_value op a b :
  op ∈ ops -> bytes a -> bytes b -> length a = length b ->
  lexi_bool_op op a b = op (be_dec a) (be_dec b).
Proof.
  intros Hop Ha Hb Hl. apply ops_by_compare in Hop as Hc.
  rewrite lexi_memcmp by done. destruct Hc as [f Hf].
  rewrite !Hf. f_equal. by apply memcmp_spec.
Qed.
End AbstractID.

(** ** [AbstractID<6>] *)

Module AbstractID6.
(** The object is its word [d]. *)
Definition size : nat := 6.

Definition mk_default : Z := 0.
Definition of_num (num : Z) : Z := wrap 32 num.

(** [fromArray]: [d *= 0x100; d |= data[i]], [n] cells to go. *)
Fixpoint fromArray_loop (n i : nat) (d : Z) (off : nat) (data : list Z) : Z :=
  match n with
  | O => d
  | S n' => fromArray_loop n' (S i) (Z.lor (u64 (d * 256)) (byte_at data (off + i))) off data
  end.
Definition fromArray (off : nat) (data : list Z) : Z := fromArray_loop 6 0 0 off data.

(** [toArray]: [data[5-i] = dd; dd /= 0x100]. *)
Fixpoint toArray_loop (k : nat) (dd : Z) (off : nat) (data : list Z) : list Z :=
  match k with
  | O => data
  | S k' => toArray_loop k' (dd / 256) off (<[(off + k')%nat := u8 dd]> data)
  end.
Definition toArray (d : Z) (off : nat) (data : list Z) : list Z := toArray_loop 6 d off data.

(** The i386 variants: a 16-bit and a 32-bit byte-swapped access. *)
Definition fromArray_i386 (off : nat) (data : list Z) : Z :=
  let s := I386.bswap_16 (I386.load16 off data) in
  let d := u64 (s * 4294967296) in
  let l := I386.bswap_32 (I386.load32 (off + 2) data) in
  Z.lor d l.
Definition toArray_i386 (d : Z) (off : nat) (data : list Z) : list Z :=
  let data := I386.store16 (I386.bswap_16 (u16 (d / 4294967296))) off data in
  I386.store32 (I386.bswap_32 (u32 d)) (off + 2) data.

(** [operator unsigned long] on an LP64 platform. *)
Definition to_unsigned_long (d : Z) : Z := u64 d.

(** The comparison operators compare the words. *)
Definition bool_op (op : Z -> Z -> bool) (a b : Z) : bool := op a b.

(** [operator<<]: two digits per byte, written from the end of [buf]. *)
Definition hexnum : list Z :=
  [48; 49; 50; 51; 52; 53; 54; 55; 56; 57; 65; 66; 67; 68; 69; 70].
Fixpoint print_loop (n i : nat) (dd : Z) (buf : list Z) : list Z :=
  match n with
  | O => buf
  | S n' =>
      let x := u8 dd in
      let buf := <[(11 - 2 * i)%nat := byte_at hexnum (Z.to_nat (x mod 16))]> buf in
      let buf := <[(10 - 2 * i)%nat := byte_at hexnum (Z.to_nat (x / 16))]> buf in
      print_loop n' (S i) (dd / 256) buf
  end.
Definition print (d : Z) : list Z := print_loop 6 0 d (replicate 12 0).

(** Identifiers that fit the six bytes on the wire. *)
Definition wf (d : Z) : Prop := in_width 48 d.

Lemma toArray_loop_eq k dd off data :
  toArray_loop k dd off data = Bytes.toArray_loop k dd off data.
Proof.
  revert dd data. induction k as [|k IH]; intros; cbn; [done|].
  by rewrite IH, Z.shiftr_div_pow2 by lia.
Qed.

Lemma id6_toArray_spec d off data :
  (off + 6 <= length data)%nat -> toArray d off data = splice off (be_enc 6 d) data.
Proof. intros. unfold toArray. by rewrite toArray_loop_eq, Bytes.toArray_loop_spec. Qed.

Lemma id6_fromArray_loop_spec n i d off data :
  (i + n <= 6)%nat -> 0 <= d < 256 ^ Z.of_nat i ->
  (off + i + n <= length data)%nat -> bytes data ->
  fromArray_loop n i d off data = Bytes.fromArray_loop (8 * Z.of_nat (i + n)) n i d off data.
Proof.
  revert i d. induction n as [|n IH]; intros i d Hi Hd Hl Hb; [done|].
  cbn [fromArray_loop Bytes.fromArray_loop].
  assert (d * 256 < 256 ^ Z.of_nat (S i)) as Hlt
    by (rewrite Nat2Z.inj_succ, Z.pow_succ_r by lia; lia).
  assert (256 ^ Z.of_nat (S i) <= 256 ^ Z.of_nat (i + S n)) as Hle
    by (apply Z.pow_le_mono_r; lia).
  assert (256 ^ Z.of_nat (i + S n) <= 2 ^ 64) as Hmax
    by (change 256 with (2 ^ 8); rewrite <- Z.pow_mul_r by lia; apply Z.pow_le_mono_r; lia).
  assert (2 ^ (8 * Z.of_nat (i + S n)) = 256 ^ Z.of_nat (i + S n)) as Hw
    by (change 256 with (2 ^ 8); by rewrite <- Z.pow_mul_r by lia).
  rewrite (wrap_id 64) by (unfold in_width; lia).
  rewrite (wrap_id (8 * _)) by (rewrite Z.shiftl_mul_pow2 by lia; unfold in_width; lia).
  rewrite Z.shiftl_mul_pow2 by lia. change (2 ^ 8) with 256.
  assert (is_byte (byte_at data (off + i))) as Hx.
  { unfold byte_at. destruct (lookup_lt_is_Some_2 data (off + i)) as [x Hx]; [lia|].
    rewrite Hx. by eapply (Forall_lookup_1 is_byte). }
  replace (i + S n)%nat with (S i + n)%nat by lia.
  rewrite !lor_low_byte by (done || lia). unfold is_byte in Hx.
  apply IH; [lia| |lia|done]. rewrite Nat2Z.inj_succ, Z.pow_succ_r by lia. lia.
Qed.

Lemma fromArray_loop_be n off data :
  (n <= 6)%nat -> (off + n <= length data)%nat -> bytes data ->
  fromArray_loop n 0 0 off data = be_dec (slice off n data).
Proof.
  intros. rewrite id6_fromArray_loop_spec by (done || cbn; lia).
  by rewrite <- Bytes.fromArray_spec by done.
Qed.

Lemma id6_fromArray_spec off data :
  (off + 6 <= length data)%nat -> bytes data -> fromArray off data = be_dec (slice off 6 data).
Proof. intros. by apply fromArray_loop_be. Qed.

Lemma fromArray_wf off data :
  (off + 6 <= length data)%nat -> bytes data -> wf (fromArray off data).
Proof.
  intros. rewrite id6_fromArray_spec by done. unfold wf, in_width.
  pose proof (be_dec_bound (slice off 6 data)) as B. rewrite slice_length in B by done.
  apply B. by apply Forall_slice.
Qed.

Lemma fromArray_toArray_trunc d off data :
  (off + 6 <= length data)%nat -> bytes data -> fromArray off (toArray d off data) = wrap 48 d.
Proof.
  intros Hl Hb. rewrite id6_toArray_spec by done.
  pose proof (be_enc_length 6 d) as He.
  rewrite id6_fromArray_spec.
  - rewrite <- He at 1. rewrite slice_splice_same by lia. apply be_dec_enc.
  - by rewrite splice_length by lia.
  - apply Forall_splice; [apply be_enc_bytes|done].
Qed.

Lemma fromArray_toArray d off data :
  wf d -> (off + 6 <= length data)%nat -> bytes data -> fromArray off (toArray d off data) = d.
Proof. intros. rewrite fromArray_toArray_trunc by done. by apply wrap_id. Qed.

Lemma fromArray_splice_other off off' bs data :
  (off + 6 <= length data)%nat -> (off' + length bs <= length data)%nat ->
  bytes bs -> bytes data -> (off + 6 <= off' \/ off' + length bs <= off)%nat ->
  fromArray off (splice off' bs data) = fromArray off data.
Proof.
  intros. rewrite !id6_fromArray_spec; try done.
  - by rewrite slice_splice_disjoint by lia.
  - by rewrite splice_length.
  - by apply Forall_splice.
Qed.

Lemma id6_toArray_length d off data :
  (off + 6 <= length data)%nat -> length (toArray d off data) = length data.
Proof. intros. rewrite id6_toArray_spec, splice_length by (rewrite ?be_enc_length; done). done. Qed.

Lemma id6_toArray_bytes d off data :
  (off + 6 <= length data)%nat -> bytes data -> bytes (toArray d off data).
Proof. intros. rewrite id6_toArray_spec by done. apply Forall_splice; [apply be_enc_bytes|done]. Qed.
End AbstractID6.

(** [typedef AbstractID<6> NodeId] *)
Abbreviation NodeId := Z.

(** ** Facts about both representations *)

Lemma lookup_byte (data : list Z) i :
  (i < length data)%nat -> bytes data -> exists b, data !! i = Some b /\ is_byte b.
Proof.
  intros Hi Hb. destruct (lookup_lt_is_Some_2 data i Hi) as [b H].
  exists b. split; [done|]. by eapply (Forall_lookup_1 is_byte).
Qed.

Lemma load32_spec off data b0 b1 b2 b3 :
  data !! off = Some b0 -> data !! (off + 1)%nat = Some b1 ->
  data !! (off + 2)%nat = Some b2 -> data !! (off + 3)%nat = Some b3 ->
  is_byte b0 -> is_byte b1 -> is_byte b2 -> is_byte b3 ->
  I386.load32 off data = (b3 * 256 + b2) * 65536 + (b1 * 256 + b0).
Proof.
  intros. unfold I386.load32.
  rewrite (I386.load16_spec off data b0 b1), (I386.load16_spec (off + 2) data b2 b3)
    by (done || by rewrite <- Nat.add_assoc).
  rewrite Z.shiftl_mul_pow2 by lia. apply (lor_pack 16); unfold in_width, is_byte in *; lia.
Qed.

Lemma fromArray_i386_equiv off data :
  (off + 6 <= length data)%nat -> bytes data ->
  AbstractID6.fromArray_i386 off data = AbstractID6.fromArray off data.
Proof.
  intros Hl Hb. rewrite AbstractID6.id6_fromArray_spec by done.
  destruct (lookup_byte data off) as (b0 & H0 & B0); [lia|done|].
  destruct (lookup_byte data (off + 1)) as (b1 & H1 & B1); [lia|done|].
  destruct (lookup_byte data (off + 2)) as (b2 & H2 & B2); [lia|done|].
  destruct (lookup_byte data (off + 3)) as (b3 & H3 & B3); [lia|done|].
  destruct (lookup_byte data (off + 4)) as (b4 & H4 & B4); [lia|done|].
  destruct (lookup_byte data (off + 5)) as (b5 & H5 & B5); [lia|done|].
  unfold AbstractID6.fromArray_i386.
  rewrite (I386.load16_spec off data b0 b1), I386.bswap_16_spec by done.
  rewrite (load32_spec (off + 2) data b2 b3 b4 b5), I386.bswap_32_spec
    by (done || by rewrite <- Nat.add_assoc).
  assert (slice off 6 data = [b0; b1; b2; b3; b4; b5]) as ->.
  { rewrite (slice_cons _ _ _ b0 H0). f_equal. replace (S off) with (off + 1)%nat by lia.
    rewrite (slice_cons _ _ _ b1 H1). f_equal. replace (S (off + 1)) with (off + 2)%nat by lia.
    rewrite (slice_cons _ _ _ b2 H2). f_equal. replace (S (off + 2)) with (off + 3)%nat by lia.
    rewrite (slice_cons _ _ _ b3 H3). f_equal. replace (S (off + 3)) with (off + 4)%nat by lia.
    apply slice2; [done|]. by rewrite <- Nat.add_assoc. }
  unfold is_byte in *. rewrite wrap_id by (unfold in_width; lia).
  rewrite (lor_pack 32) by (unfold in_width; lia). cbn. lia.
Qed.

Lemma splice_splice_adjacent {A} off (bs1 bs2 l : list A) :
  (off + length bs1 + length bs2 <= length l)%nat ->
  splice (off + length bs1) bs2 (splice off bs1 l) = splice off (bs1 ++ bs2) l.
Proof.
  intros Hl. apply list_eq. intros i.
  rewrite !splice_lookup by (rewrite ?splice_length, ?length_app; lia).
  rewrite length_app. repeat case_decide; try lia; try done.
  - rewrite lookup_app_r by lia. f_equal. lia.
  - by rewrite lookup_app_l by lia.
Qed.

Lemma store16_bswap x y off data :
  is_byte x -> is_byte y ->
  I386.store16 (I386.bswap_16 (x * 256 + y)) off data = splice off [x; y] data.
Proof.
  intros Hx Hy. unfold I386.store16. rewrite I386.bswap_16_spec by done. unfold is_byte in *.
  change 255 with (Z.ones 8). rewrite !Z.land_ones, Z.shiftr_div_pow2 by lia.
  change (2 ^ 8) with 256. rewrite Z.div_add_l, (Z.div_small x), Z.add_0_r by lia.
  by rewrite (Z.add_comm (y * 256)), Z.mod_add, !Z.mod_small by lia.
Qed.

Lemma store32_bswap a b c d off data :
  is_byte a -> is_byte b -> is_byte c -> is_byte d -> (off + 4 <= length data)%nat ->
  I386.store32 (I386.bswap_32 ((a * 256 + b) * 65536 + (c * 256 + d))) off data
  = splice off [a; b; c; d] data.
Proof.
  intros Ha Hb Hc Hd Hl. unfold I386.store32. rewrite I386.bswap_32_spec by done.
  unfold is_byte in *. change 65535 with (Z.ones 16).
  rewrite Z.land_ones, Z.shiftr_div_pow2 by lia. change (2 ^ 16) with 65536.
  rewrite Z.div_add_l, (Z.div_small (b * 256 + a)), Z.add_0_r by lia.
  rewrite (Z.add_comm ((d * 256 + c) * 65536)), Z.mod_add, Z.mod_small by lia.
  rewrite <- (I386.bswap_16_spec a b), <- (I386.bswap_16_spec c d) by (unfold is_byte; lia).
  rewrite !store16_bswap by (unfold is_byte; lia).
  apply (splice_splice_adjacent off [a; b] [c; d]). cbn. lia.
Qed.

Lemma bytes_of_48 d :
  AbstractID6.wf d -> exists b0 b1 b2 b3 b4 b5,
    is_byte b0 /\ is_byte b1 /\ is_byte b2 /\ is_byte b3 /\ is_byte b4 /\ is_byte b5 /\
    be_enc 6 d = [b0; b1; b2; b3; b4; b5] /\
    d = (b0 * 256 + b1) * 4294967296 + ((b2 * 256 + b3) * 65536 + (b4 * 256 + b5)).
Proof.
  intros Hd. pose proof (be_enc_length 6 d) as Hl. pose proof (be_enc_bytes 6 d) as Hb.
  pose proof (be_dec_enc_id 6 d Hd) as He.
  destruct (be_enc 6 d) as [|b0 [|b1 [|b2 [|b3 [|b4 [|b5 [|]]]]]]]; try done.
  repeat (apply Forall_cons in Hb as [? Hb]).
  exists b0, b1, b2, b3, b4, b5. repeat split; try done; try (unfold is_byte in *; lia).
  cbn in He. lia.
Qed.

Lemma toArray_i386_equiv d off data :
  AbstractID6.wf d -> (off + 6 <= length data)%nat ->
  AbstractID6.toArray_i386 d off data = AbstractID6.toArray d off data.
Proof.
  intros Hd Hl. rewrite AbstractID6.id6_toArray_spec by done.
  destruct (bytes_of_48 d Hd) as (b0 & b1 & b2 & b3 & b4 & b5 & B0 & B1 & B2 & B3 & B4 & B5 & -> & ->).
  unfold AbstractID6.toArray_i386.
  set (lo := (b2 * 256 + b3) * 65536 + (b4 * 256 + b5)).
  assert (0 <= lo < 4294967296) as Hlo by (unfold lo, is_byte in *; lia).
  assert (((b0 * 256 + b1) * 4294967296 + lo) / 4294967296 = b0 * 256 + b1) as ->
    by (rewrite Z.div_add_l, Z.div_small by lia; lia).
  assert (u32 ((b0 * 256 + b1) * 4294967296 + lo) = lo) as ->
    by (unfold wrap; change (2 ^ 32) with 4294967296;
        rewrite Z.add_comm, Z.mod_add, Z.mod_small by lia; done).
  rewrite (wrap_id 16) by (unfold in_width, is_byte in *; lia). unfold lo.
  rewrite store16_bswap, store32_bswap by (done || rewrite splice_length by (cbn; lia); lia).
  apply (splice_splice_adjacent off [b0; b1] [b2; b3; b4; b5]). cbn. lia.
Qed.

(** ** Theorems *)

(** An identifier written to a buffer and read back is unchanged, nothing
    outside its six bytes changes, and reading any six bytes and writing them
    back reproduces them: the wire format of [NodeId] is a bijection on 48-bit
    identifiers. *)
Theorem nodeid_wire_roundtrip (d : Z) (off : nat) (data : list Z)
    (Hd : AbstractID6.wf d) (Hl : (off + 6 <= length data)%nat) (Hb : bytes data) :
  AbstractID6.fromArray off (AbstractID6.toArray d off data) = d /\
  AbstractID6.toArray (AbstractID6.fromArray off data) off data = data /\
  (forall i, (i < off \/ off + 6 <= i)%nat -> AbstractID6.toArray d off data !! i = data !! i).
Proof.
  split; [by apply AbstractID6.fromArray_toArray|]. split.
  - rewrite AbstractID6.id6_toArray_spec, AbstractID6.id6_fromArray_spec by done.
    pose proof (slice_length off 6 data Hl) as Hs.
    rewrite <- Hs at 1. rewrite be_enc_dec by (by apply Forall_slice).
    apply list_eq. intros i. rewrite splice_lookup by lia. case_decide as D; [|done].
    rewrite slice_lookup by lia. f_equal. lia.
  - intros i Hi. rewrite AbstractID6.id6_toArray_spec by done.
    rewrite splice_lookup by (rewrite be_enc_length; lia). rewrite be_enc_length.
    case_decide; [lia|done].
Qed.

Lemma nodeid_wire_roundtrip_witness :
  AbstractID6.fromArray 1 (AbstractID6.toArray 0x00112233FFEE 1 (replicate 8 0)) = 0x00112233FFEE.
Proof.
  apply (nodeid_wire_roundtrip 0x00112233FFEE 1 (replicate 8 0)).
  - split; vm_compute; congruence.
  - vm_compute. lia.
  - repeat constructor; vm_compute; congruence.
Defined.

(** The six comparison operators of the generic template, applied to the
    bytes of two identifiers, give what the specialised template computes on
    their words: sorted arrays of identifiers and [std::map]s keyed by them have
    one order, whichever representation is used. *)
Theorem nodeid_operators_agree (op : Z -> Z -> bool) (a b : list Z)
    (Hop : op ∈ AbstractID.ops)
    (Ha : bytes a) (Hb : bytes b) (Hla : length a = 6%nat) (Hlb : length b = 6%nat) :
  AbstractID.lexi_bool_op op a b
  = AbstractID6.bool_op op (AbstractID6.fromArray 0 a) (AbstractID6.fromArray 0 b).
Proof.
  rewrite AbstractID.lexi_value by congruence.
  rewrite !AbstractID6.id6_fromArray_spec by (done || lia).
  unfold slice. by rewrite !drop_0, !take_ge by lia.
Qed.

Lemma nodeid_operators_agree_witness :
  AbstractID.lexi_bool_op Z.ltb [0; 1; 2; 3; 4; 255] [0; 1; 2; 3; 5; 0]
  = AbstractID6.bool_op Z.ltb (AbstractID6.fromArray 0 [0; 1; 2; 3; 4; 255])
                              (AbstractID6.fromArray 0 [0; 1; 2; 3; 5; 0]).
Proof.
  apply nodeid_operators_agree; try reflexivity.
  - unfold AbstractID.ops. set_solver.
  - repeat constructor; vm_compute; congruence.
  - repeat constructor; vm_compute; congruence.
Defined.

(** The byte-swapping specialisations for the i386 compute exactly what the
    portable loops compute, for 16-bit fields and for identifiers, in both
    directions. *)
Theorem i386_specialisations_equiv (v d : Z) (off : nat) (data : list Z)
    (Hv : in_width 16 v) (Hd : AbstractID6.wf d)
    (Hl : (off + 6 <= length data)%nat) (Hb : bytes data) :
  I386.fromArray_ushort off data = fromArray 2 off data /\
  I386.toArray_ushort v off data = toArray 2 v off data /\
  AbstractID6.fromArray_i386 off data = AbstractID6.fromArray off data /\
  AbstractID6.toArray_i386 d off data = AbstractID6.toArray d off data.
Proof.
  repeat split.
  - apply fromArray_ushort_equiv; [lia|done].
  - apply toArray_ushort_equiv; [done|lia].
  - by apply fromArray_i386_equiv.
  - by apply toArray_i386_equiv.
Qed.

Lemma i386_specialisations_equiv_witness :
  AbstractID6.fromArray_i386 0 [1; 2; 3; 4; 5; 6] = AbstractID6.fromArray 0 [1; 2; 3; 4; 5; 6].
Proof.
  apply (i386_specialisations_equiv 258 7 0 [1; 2; 3; 4; 5; 6]).
  - split; vm_compute; congruence.
  - split; vm_compute; congruence.
  - vm_compute. lia.
  - repeat constructor; vm_compute; congruence.
Defined.
