(* ===== verification/Packet.v ===== *)
(** * Packet: buffers and header accessors

    [src/src/awds/BasePacket.h] and the accessor classes that wrap a packet:
    [SrcPacket.h], [Flood.h], [TopoPacket.h], [UnicastPacket.h],
    [TraceUcPacket.h], [FlowPacket.h] and the field accessors of [beacon.h].
    A buffer cell is the byte it holds; where the source reads a plain [char]
    as an [int] the sign extension is written out ([s8]). *)

From S2P Require Import Prelude Bytes NodeId.

(** ** [BasePacket] *)

Inductive PacketType :=
| PacketTypeBeacon | PacketTypeFlood | PacketTypeUnicast | PacketTypeForward.

#[export] Instance PacketType_eq_dec : EqDecision PacketType.
Proof. solve_decision. Defined.

Definition PacketType_num (t : PacketType) : Z :=
  match t with
  | PacketTypeBeacon => 0 | PacketTypeFlood => 1
  | PacketTypeUnicast => 2 | PacketTypeForward => 3
  end.

Definition PacketType_of_num (n : Z) : PacketType :=
  if n =? 0 then PacketTypeBeacon else if n =? 1 then PacketTypeFlood
  else if n =? 2 then PacketTypeUnicast else PacketTypeForward.

Definition MaxSize : nat := 4096.

(** [cb] is the send callback with its [cb_data], if one is set. *)
Record BasePacket := mkPacket {
  buffer : list Z;
  size : Z;
  refcount : Z;
  cb : option (Z * Z);
  dest : NodeId;
}.

Definition set_buffer (b : list Z) (p : BasePacket) : BasePacket :=
  mkPacket b (size p) (refcount p) (cb p) (dest p).
Definition set_size (n : Z) (p : BasePacket) : BasePacket :=
  mkPacket (buffer p) n (refcount p) (cb p) (dest p).
Definition set_refcount (n : Z) (p : BasePacket) : BasePacket :=
  mkPacket (buffer p) (size p) n (cb p) (dest p).
Definition set_cb (c : option (Z * Z)) (p : BasePacket) : BasePacket :=
  mkPacket (buffer p) (size p) (refcount p) c (dest p).
Definition set_dest (d : NodeId) (p : BasePacket) : BasePacket :=
  mkPacket (buffer p) (size p) (refcount p) (cb p) d.

Definition upd (f : list Z -> list Z) (p : BasePacket) : BasePacket :=
  set_buffer (f (buffer p)) p.
Definition set_byte (off : nat) (v : Z) (p : BasePacket) : BasePacket :=
  upd (fun b => <[off := u8 v]> b) p.
Definition get_byte (off : nat) (p : BasePacket) : Z := byte_at (buffer p) off.

Definition BasePacket_new : BasePacket := mkPacket (replicate MaxSize 0) 0 1 None 0.

(** [receive]: [read] returned [ret] and filled the buffer with [data]. *)
Definition receive (ret : Z) (data : list Z) (p : BasePacket) : Z * BasePacket :=
  (s32 ret, set_size (u64 ret) (upd (splice 0 data) p)).

Definition setSendCallback (c data : Z) (p : BasePacket) : outcome BasePacket :=
  _ ← cassert (bool_decide (cb p = None)); Ok (set_cb (Some (c, data)) p).

Definition ref (p : BasePacket) : Z * BasePacket :=
  (refcount p + 1, set_refcount (refcount p + 1) p).

(** [unref] deletes the packet with the last reference; a send callback that is
    still set is called with the length [-1] first. *)
Inductive unref_result :=
| Alive (p : BasePacket)
| Deleted (fired : option (Z * Z * Z)).

Definition unref (p : BasePacket) : outcome (Z * unref_result) :=
  _ ← cassert (0 <? refcount p);
  let rc := refcount p - 1 in
  if rc =? 0
  then Ok (rc, Deleted (match cb p with Some (c, d) => Some (c, d, -1) | None => None end))
  else Ok (rc, Alive (set_refcount rc p)).

Definition getType (p : BasePacket) : PacketType :=
  PacketType_of_num (Z.land (get_byte 0 p) 3).
Definition setType (pt : PacketType) (p : BasePacket) : BasePacket :=
  set_byte 0 (Z.lor (Z.land (get_byte 0 p) (Z.lnot 3)) (PacketType_num pt)) p.
Definition setDest (d : NodeId) (p : BasePacket) : BasePacket := set_dest d p.

(** ** [SrcPacket] *)

Module SrcPacket.
Definition OffsetSrc : nat := 1.
Definition OffsetSeq : nat := OffsetSrc + AbstractID6.size.
Definition SrcPacketEnd : nat := OffsetSeq + 2.

Definition setSrc (id : NodeId) (p : BasePacket) : BasePacket :=
  upd (AbstractID6.toArray id OffsetSrc) p.
Definition getSrc (p : BasePacket) : NodeId := AbstractID6.fromArray OffsetSrc (buffer p).
Definition setSeq (num : Z) (p : BasePacket) : BasePacket :=
  upd (toArray 2 (u16 num) OffsetSeq) p.
Definition getSeq (p : BasePacket) : Z := fromArray 2 OffsetSeq (buffer p).

Definition setControlBit (bit : Z) (v : bool) (p : BasePacket) : outcome BasePacket :=
  _ ← cassert ((2 <=? bit) && (bit <=? 7));
  Ok (set_byte 0 (Z.lor (Z.land (get_byte 0 p) (Z.lnot (Z.shiftl 1 bit)))
                        (Z.shiftl (if v then 1 else 0) bit)) p).
Definition getControlBit (bit : Z) (p : BasePacket) : outcome bool :=
  _ ← cassert ((2 <=? bit) && (bit <=? 7));
  Ok (negb (Z.land (get_byte 0 p) (Z.shiftl 1 bit) =? 0)).
Definition setTraceFlag (v : bool) (p : BasePacket) : outcome BasePacket := setControlBit 7 v p.
Definition getTraceFlag (p : BasePacket) : outcome bool := getControlBit 7 p.
End SrcPacket.

(** ** [Flood] *)

Module Flood.
Import SrcPacket.
Definition OffsetLastHop : nat := SrcPacketEnd.
Definition OffsetTTL : nat := OffsetLastHop + AbstractID6.size.
Definition OffsetFloodType : nat := OffsetTTL + 1.
Definition FloodHeaderEnd : nat := OffsetFloodType + 1.

(** The constructor marks the packet as a flood packet. *)
Definition mk (p : BasePacket) : BasePacket := setType PacketTypeFlood p.

Definition getTTL (p : BasePacket) : Z := get_byte OffsetTTL p.
Definition setTTL (ttl : Z) (p : BasePacket) : BasePacket := set_byte OffsetTTL (Z.rem ttl 256) p.
Definition decrTTL (p : BasePacket) : BasePacket := set_byte OffsetTTL (get_byte OffsetTTL p - 1) p.
Definition incTTL (p : BasePacket) : BasePacket := set_byte OffsetTTL (get_byte OffsetTTL p + 1) p.
Definition getLastHop (p : BasePacket) : NodeId := AbstractID6.fromArray OffsetLastHop (buffer p).
Definition setLastHop (id : NodeId) (p : BasePacket) : BasePacket :=
  upd (AbstractID6.toArray id OffsetLastHop) p.
Definition getFloodType (p : BasePacket) : Z := s8 (get_byte OffsetFloodType p).
Definition setFloodType (ft : Z) (p : BasePacket) : BasePacket :=
  set_byte OffsetFloodType (Z.rem ft 256) p.
End Flood.

(** [enum FloodType] *)
Definition FloodTypeTopo : Z := 0.
Definition FloodTypeMCast : Z := 1.
Definition FloodTypePrivate : Z := 2.

(** ** [TopoPacket]: the fixed fields *)

Module TopoPacket.
Import Flood.
Definition OffsetValidity : nat := FloodHeaderEnd.
Definition OffsetNumLinks : nat := OffsetValidity + 4.
Definition OffsetLinks : nat := OffsetNumLinks + 1.

Definition mk (p : BasePacket) : BasePacket := setFloodType FloodTypeTopo (Flood.mk p).
Definition getNumLinks (p : BasePacket) : Z := get_byte OffsetNumLinks p.
Definition getValidity_ms (p : BasePacket) : Z := fromArray 4 OffsetValidity (buffer p).
Definition getValidity `{Gea} (p : BasePacket) : Z := duration (getValidity_ms p) 1000.
Definition setValidity (d : Z) (p : BasePacket) : BasePacket :=
  upd (toArray 4 (u32 d) OffsetValidity) p.
End TopoPacket.

(** ** [UnicastPacket] *)

Module UnicastPacket.
Import SrcPacket.
Definition OffsetUcDest : nat := SrcPacketEnd.
Definition OffsetNextHop : nat := OffsetUcDest + AbstractID6.size.
Definition OffsetTTL : nat := OffsetNextHop + AbstractID6.size.
Definition OffsetUcType : nat := OffsetTTL + 1.
Definition UnicastPacketEnd : nat := OffsetUcType + 1.

Definition mk (p : BasePacket) : BasePacket := setType PacketTypeUnicast p.

Definition getTTL (p : BasePacket) : Z := get_byte OffsetTTL p.
Definition setTTL (ttl : Z) (p : BasePacket) : BasePacket := set_byte OffsetTTL (Z.rem ttl 256) p.
Definition decrTTL (p : BasePacket) : BasePacket := set_byte OffsetTTL (get_byte OffsetTTL p - 1) p.
Definition incTTL (p : BasePacket) : BasePacket := set_byte OffsetTTL (get_byte OffsetTTL p + 1) p.
Definition getUcDest (p : BasePacket) : NodeId := AbstractID6.fromArray OffsetUcDest (buffer p).
Definition setUcDest (id : NodeId) (p : BasePacket) : BasePacket :=
  upd (AbstractID6.toArray id OffsetUcDest) p.
Definition getNextHop (p : BasePacket) : NodeId := AbstractID6.fromArray OffsetNextHop (buffer p).
Definition setNextHop (id : NodeId) (p : BasePacket) : BasePacket :=
  upd (AbstractID6.toArray id OffsetNextHop) p.
Definition getUcPacketType (p : BasePacket) : Z := get_byte OffsetUcType p.
Definition setUcPacketType (type : Z) (p : BasePacket) : BasePacket :=
  set_byte OffsetUcType (Z.rem type 256) p.
End UnicastPacket.

(** ** [TraceUcPacket] *)

Module TraceUcPacket.
Import UnicastPacket.
Definition OffsetTraceEnd : nat := UnicastPacketEnd.
Definition TraceUcPacketEnd : nat := OffsetTraceEnd + 2.

Definition setTracePointer (offset : Z) (p : BasePacket) : BasePacket :=
  upd (toArray 2 (u16 offset) OffsetTraceEnd) p.
Definition getTracePointer (p : BasePacket) : Z := fromArray 2 OffsetTraceEnd (buffer p).

(** The check is against [packet.size]; the write goes into the buffer. *)
Definition appendNode (id : NodeId) (p : BasePacket) : outcome (bool * BasePacket) :=
  let offset := getTracePointer p in
  if size p <=? offset + 6 then Ok (false, p)
  else if offset + 6 <=? Z.of_nat MaxSize
       then Ok (true, setTracePointer (offset + 6)
                        (upd (AbstractID6.toArray id (Z.to_nat offset)) p))
       else Fail OutOfBounds.
End TraceUcPacket.

(** ** [FlowPacket] *)

Module FlowPacket.
Import SrcPacket.
Definition OffsetFlowDest : nat := SrcPacketEnd.
Definition OffsetFlowId : nat := OffsetFlowDest + AbstractID6.size.
Definition OffsetFlowType : nat := OffsetFlowId + 4.
Definition FlowPacketEnd : nat := OffsetFlowType + 4.

Definition getFlowId (p : BasePacket) : Z := fromArray 4 OffsetFlowId (buffer p).
Definition setFlowId (flowid : Z) (p : BasePacket) : BasePacket :=
  upd (toArray 4 (u32 flowid) OffsetFlowId) p.
Definition getFlowDest (p : BasePacket) : NodeId := AbstractID6.fromArray OffsetFlowDest (buffer p).
Definition setFlowDest (id : NodeId) (p : BasePacket) : BasePacket :=
  upd (AbstractID6.toArray id OffsetFlowDest) p.
Definition getFlowType (p : BasePacket) : Z := fromArray 4 OffsetFlowType (buffer p).
Definition setFlowType (type : Z) (p : BasePacket) : BasePacket :=
  upd (toArray 4 (u32 type) OffsetFlowType) p.
End FlowPacket.

(** ** [Beacon]: the fixed fields *)

Module Beacon.
Import SrcPacket.
Definition OffsetPeriod : nat := SrcPacketEnd.
Definition OffsetNumNoMpr : nat := OffsetPeriod + 2.
Definition OffsetNumMpr : nat := OffsetNumNoMpr + 1.
Definition OffsetLNeigh : nat := OffsetNumMpr + 1.

Definition mk (p : BasePacket) : BasePacket := setType PacketTypeBeacon p.

Definition getPeriod_ms (p : BasePacket) : Z := fromArray 2 OffsetPeriod (buffer p).
Definition getPeriod `{Gea} (p : BasePacket) : Z := duration (getPeriod_ms p) 1000.
Definition setPeriod `{Gea} (d : Z) (p : BasePacket) : BasePacket :=
  upd (toArray 2 (u16 (Z.quot (nanosecs d) 1000000)) OffsetPeriod) p.

(** The counters are read as plain, signed [char]s. *)
Definition getNumNoMpr (p : BasePacket) : Z := s8 (get_byte OffsetNumNoMpr p).
Definition setNumNoMpr (n : Z) (p : BasePacket) : BasePacket := set_byte OffsetNumNoMpr n p.
Definition getNumMpr (p : BasePacket) : Z := s8 (get_byte OffsetNumMpr p).
Definition setNumMpr (n : Z) (p : BasePacket) : BasePacket := set_byte OffsetNumMpr n p.
End Beacon.

(** ** Well-formed packets *)

Record wf_packet (p : BasePacket) : Prop := {
  wf_length : length (buffer p) = MaxSize;
  wf_bytes : bytes (buffer p);
}.

Lemma BasePacket_new_wf : wf_packet BasePacket_new.
Proof.
  split; cbn [buffer BasePacket_new]; [apply length_replicate|].
  apply Forall_replicate. split; lia.
Qed.

Lemma u8_byte v : is_byte (u8 v).
Proof. apply Z.mod_pos_bound. lia. Qed.

(** Every field setter overwrites some cells and nothing else. *)
Lemma insert_splice (off : nat) (v : Z) l :
  (off < length l)%nat -> <[off := v]> l = splice off [v] l.
Proof.
  intros. rewrite <- (splice_nil off (<[off:=v]> l)).
  change [v] with ([] ++ [v]). rewrite splice_snoc by (cbn; lia).
  cbn. by rewrite Nat.add_0_r.
Qed.

Lemma upd_splice_wf off bs p :
  wf_packet p -> bytes bs -> (off + length bs <= MaxSize)%nat -> wf_packet (upd (splice off bs) p).
Proof.
  intros [Hl Hb] Hbs Ho. split; cbn.
  - rewrite splice_length; [done|lia].
  - by apply Forall_splice.
Qed.

(** ** Header fields as registers

    A field occupies [flen] cells from [foff]; its setter overwrites exactly
    these with some bytes, its getter depends on nothing else, and reads back
    the value up to the truncation to the field's width. *)

Record field := mkField {
  foff : nat; flen : nat;
  fget : BasePacket -> Z;
  fset : Z -> BasePacket -> BasePacket;
  ftrunc : Z -> Z;
}.

Record field_law (f : field) : Prop := {
  fl_inside : (foff f + flen f <= MaxSize)%nat;
  fl_set : forall v p, wf_packet p -> exists bs,
    length bs = flen f /\ bytes bs /\ fset f v p = upd (splice (foff f) bs) p;
  fl_get : forall p q, wf_packet p -> wf_packet q ->
    slice (foff f) (flen f) (buffer p) = slice (foff f) (flen f) (buffer q) -> fget f p = fget f q;
  fl_get_set : forall v p, wf_packet p -> fget f (fset f v p) = ftrunc f v;
}.

Definition disjoint_fields (f g : field) : Prop :=
  (foff f + flen f <= foff g \/ foff g + flen g <= foff f)%nat.

Lemma field_set_wf f v p : field_law f -> wf_packet p -> wf_packet (fset f v p).
Proof.
  intros L Hp. destruct (fl_set f L v p Hp) as (bs & Hlen & Hb & ->).
  apply upd_splice_wf; [done..|]. rewrite Hlen. apply (fl_inside f L).
Qed.

Lemma field_frame f g v p :
  field_law f -> field_law g -> disjoint_fields f g -> wf_packet p ->
  fget f (fset g v p) = fget f p.
Proof.
  intros Lf Lg Hd Hp. apply (fl_get f Lf); [by apply field_set_wf|done|].
  destruct (fl_set g Lg v p Hp) as (bs & Hlen & Hb & ->). cbn.
  destruct Hp as [Hl _]. pose proof (fl_inside g Lg).
  apply slice_splice_disjoint; rewrite Hlen; [lia|]. unfold disjoint_fields in Hd. lia.
Qed.

Lemma id_field_law off get set :
  (off + 6 <= MaxSize)%nat ->
  (forall p, get p = AbstractID6.fromArray off (buffer p)) ->
  (forall v p, set v p = upd (AbstractID6.toArray v off) p) ->
  field_law (mkField off 6 get set (wrap 48)).
Proof.
  intros Ho Hg Hs. split; cbn [foff flen fget fset ftrunc].
  - done.
  - intros v p [Hl Hb]. exists (be_enc 6 v). rewrite Hs. split; [apply be_enc_length|].
    split; [apply be_enc_bytes|]. unfold upd. by rewrite AbstractID6.id6_toArray_spec by lia.
  - intros p q [Hp Bp] [Hq Bq] He. rewrite !Hg, !AbstractID6.id6_fromArray_spec by (done || lia).
    by rewrite He.
  - intros v p [Hl Hb]. rewrite Hg, Hs. apply AbstractID6.fromArray_toArray_trunc; [lia|done].
Qed.

Lemma int_field_law off sz w get set :
  (off + sz <= MaxSize)%nat -> w = 8 * Z.of_nat sz ->
  (forall p, get p = fromArray sz off (buffer p)) ->
  (forall v p, set v p = upd (toArray sz (wrap w v) off) p) ->
  field_law (mkField off sz get set (wrap w)).
Proof.
  intros Ho -> Hg Hs. split; cbn [foff flen fget fset ftrunc].
  - done.
  - intros v p [Hl Hb]. exists (be_enc sz (wrap (8 * Z.of_nat sz) v)). rewrite Hs.
    split; [apply be_enc_length|]. split; [apply be_enc_bytes|].
    unfold upd. by rewrite toArray_spec by lia.
  - intros p q [Hp Bp] [Hq Bq] He. rewrite !Hg, !fromArray_spec by (done || lia). by rewrite He.
  - intros v p [Hl Hb]. rewrite Hg, Hs. cbn [upd set_buffer buffer].
    rewrite fromArray_toArray_same by (done || lia).
    unfold wrap. replace (256 ^ Z.of_nat sz) with (2 ^ (8 * Z.of_nat sz))
      by (change 256 with (2 ^ 8); by rewrite Z.pow_mul_r by lia).
    apply Z.mod_mod. apply Z.pow_nonzero; lia.
Qed.

Lemma u8_rem v : u8 (Z.rem v 256) = u8 v.
Proof.
  unfold wrap. change (2 ^ 8) with 256. rewrite (Z.quot_rem' v 256) at 2.
  by rewrite Z.add_comm, Z.mul_comm, Z.mod_add by lia.
Qed.

Lemma swrap_wrap w v : 0 <= w -> swrap w (wrap w v) = swrap w v.
Proof.
  intros. unfold swrap, wrap. rewrite Z.mod_mod by (apply Z.pow_nonzero; lia). done.
Qed.

Lemma get_set_byte off v p : wf_packet p -> (off < MaxSize)%nat -> get_byte off (set_byte off v p) = u8 v.
Proof.
  intros [Hl _] Ho. unfold get_byte, set_byte, byte_at. cbn.
  by rewrite list_lookup_insert_eq by lia.
Qed.

Lemma get_byte_slice off p q :
  wf_packet p -> wf_packet q -> (off < MaxSize)%nat ->
  slice off 1 (buffer p) = slice off 1 (buffer q) -> get_byte off p = get_byte off q.
Proof.
  intros _ _ Ho He. unfold get_byte, byte_at. f_equal.
  pose proof (f_equal (fun l => l !! 0%nat) He) as H1. cbn beta in H1.
  rewrite !slice_lookup, Nat.add_0_r in H1 by lia. done.
Qed.

Lemma byte_field_law off get set (rd : Z -> Z) trunc :
  (off < MaxSize)%nat ->
  (forall p, get p = rd (get_byte off p)) ->
  (forall v p, exists w, set v p = set_byte off w p /\ rd (u8 w) = trunc v) ->
  field_law (mkField off 1 get set trunc).
Proof.
  intros Ho Hg Hs. split; cbn [foff flen fget fset ftrunc].
  - lia.
  - intros v p [Hl Hb]. destruct (Hs v p) as (w & -> & _). exists [u8 w].
    repeat split; [repeat constructor; apply u8_byte|].
    unfold set_byte, upd. rewrite insert_splice by lia. done.
  - intros p q Hp Hq He. rewrite !Hg. f_equal. by apply get_byte_slice.
  - intros v p Hp. destruct (Hs v p) as (w & -> & <-). rewrite Hg. f_equal. by apply get_set_byte.
Qed.

(** ** The headers *)

Definition src_fields : list field :=
  [ mkField SrcPacket.OffsetSrc 6 SrcPacket.getSrc SrcPacket.setSrc (wrap 48);
    mkField SrcPacket.OffsetSeq 2 SrcPacket.getSeq SrcPacket.setSeq (wrap 16) ].

Definition flood_header : list field := src_fields ++
  [ mkField Flood.OffsetLastHop 6 Flood.getLastHop Flood.setLastHop (wrap 48);
    mkField Flood.OffsetTTL 1 Flood.getTTL Flood.setTTL (wrap 8);
    mkField Flood.OffsetFloodType 1 Flood.getFloodType Flood.setFloodType (swrap 8) ].

Definition topo_header : list field := flood_header ++
  [ mkField TopoPacket.OffsetValidity 4 TopoPacket.getValidity_ms TopoPacket.setValidity (wrap 32) ].

Definition trace_header : list field := src_fields ++
  [ mkField UnicastPacket.OffsetUcDest 6 UnicastPacket.getUcDest UnicastPacket.setUcDest (wrap 48);
    mkField UnicastPacket.OffsetNextHop 6 UnicastPacket.getNextHop UnicastPacket.setNextHop (wrap 48);
    mkField UnicastPacket.OffsetTTL 1 UnicastPacket.getTTL UnicastPacket.setTTL (wrap 8);
    mkField UnicastPacket.OffsetUcType 1
      UnicastPacket.getUcPacketType UnicastPacket.setUcPacketType (wrap 8);
    mkField TraceUcPacket.OffsetTraceEnd 2
      TraceUcPacket.getTracePointer TraceUcPacket.setTracePointer (wrap 16) ].

Definition flow_header : list field := src_fields ++
  [ mkField FlowPacket.OffsetFlowDest 6 FlowPacket.getFlowDest FlowPacket.setFlowDest (wrap 48);
    mkField FlowPacket.OffsetFlowId 4 FlowPacket.getFlowId FlowPacket.setFlowId (wrap 32);
    mkField FlowPacket.OffsetFlowType 4 FlowPacket.getFlowType FlowPacket.setFlowType (wrap 32) ].

Definition beacon_header : list field := src_fields ++
  [ mkField Beacon.OffsetNumNoMpr 1 Beacon.getNumNoMpr Beacon.setNumNoMpr (swrap 8);
    mkField Beacon.OffsetNumMpr 1 Beacon.getNumMpr Beacon.setNumMpr (swrap 8) ].

Definition headers : list (list field) :=
  [flood_header; topo_header; trace_header; flow_header; beacon_header].

(** Boolean disjointness of a list of fields, for evaluation. *)
Definition disjoint_b (f g : field) : bool :=
  ((foff f + flen f <=? foff g) || (foff g + flen g <=? foff f))%nat.
Fixpoint pairwise_disjoint (h : list field) : bool :=
  match h with
  | [] => true
  | f :: h' => forallb (disjoint_b f) h' && pairwise_disjoint h'
  end.

Lemma disjoint_b_sound f g : disjoint_b f g = true -> disjoint_fields f g.
Proof.
  unfold disjoint_b, disjoint_fields. rewrite orb_true_iff, !Nat.leb_le. done.
Qed.

Lemma pairwise_disjoint_lookup h i j f g :
  pairwise_disjoint h = true -> h !! i = Some f -> h !! j = Some g -> i <> j -> disjoint_fields f g.
Proof.
  revert i j. induction h as [|x h IH]; intros i j Hd Hi Hj Hne; [done|].
  cbn in Hd. apply andb_prop in Hd as [Hx Hd]. rewrite forallb_forall in Hx.
  assert (forall y k, h !! k = Some y -> disjoint_fields x y) as Hall.
  { intros y k Hk. apply disjoint_b_sound, Hx, list_elem_of_In. by eapply list_elem_of_lookup_2. }
  destruct i as [|i], j as [|j]; cbn in Hi, Hj; simplify_eq.
  - by eapply Hall.
  - apply Hall in Hi. unfold disjoint_fields in *. lia.
  - eapply (IH i j); eauto.
Qed.

Ltac inside_tac := first [apply Nat.leb_le | apply Nat.ltb_lt]; vm_compute; reflexivity.

Ltac field_law_tac :=
  first
  [ apply id_field_law; [inside_tac | done | done]
  | apply int_field_law; [inside_tac | done | done | done]
  | apply (byte_field_law _ _ _ (fun x => x)); [inside_tac | done |
      intros v p; eexists; split; [reflexivity|]; cbn beta;
      unfold wrap; rewrite ?Z.mod_mod by lia; first [done | apply u8_rem] ]
  | apply (byte_field_law _ _ _ (swrap 8)); [inside_tac | done |
      intros v p; eexists; split; [reflexivity|]; cbn beta;
      rewrite ?u8_rem; apply swrap_wrap; lia ] ].

Lemma src_fields_law : Forall field_law src_fields.
Proof. repeat (apply List.Forall_cons || apply List.Forall_nil); field_law_tac. Qed.

Lemma headers_law : Forall (fun h => Forall field_law h /\ pairwise_disjoint h = true) headers.
Proof.
  pose proof src_fields_law.
  repeat (apply List.Forall_cons || apply List.Forall_nil);
    (split; [|reflexivity]); repeat (apply Forall_app; split); try done;
    repeat (apply List.Forall_cons || apply List.Forall_nil); field_law_tac.
Qed.



(** ** The type and control bits of the first byte *)

Definition byte_values : list Z := map Z.of_nat (seq 0 256).

Lemma byte_values_complete b : is_byte b -> b ∈ byte_values.
Proof.
  intros Hb. unfold byte_values. apply list_elem_of_In, List.in_map_iff. exists (Z.to_nat b).
  unfold is_byte in Hb. split; [lia|]. apply List.in_seq. lia.
Qed.

Lemma byte_forall (P : Z -> bool) b :
  forallb P byte_values = true -> is_byte b -> P b = true.
Proof.
  intros HP Hb. rewrite forallb_forall in HP. by apply HP, list_elem_of_In, byte_values_complete.
Qed.

Lemma get_byte_wf off p : wf_packet p -> (off < MaxSize)%nat -> is_byte (get_byte off p).
Proof.
  intros [Hl Hb] Ho. unfold get_byte, byte_at.
  destruct (lookup_byte (buffer p) off) as (b & -> & ?); [lia|done|done].
Qed.

Definition type_byte (t : PacketType) (b : Z) : Z :=
  u8 (Z.lor (Z.land b (Z.lnot 3)) (PacketType_num t)).
Definition flag_byte (v : bool) (b : Z) : Z :=
  u8 (Z.lor (Z.land b (Z.lnot (Z.shiftl 1 7))) (Z.shiftl (if v then 1 else 0) 7)).
Definition byte_type (b : Z) : PacketType := PacketType_of_num (Z.land b 3).
Definition byte_flag (b : Z) : bool := negb (Z.land b (Z.shiftl 1 7) =? 0).

Lemma type_byte_laws t v b : is_byte b ->
  byte_type (type_byte t b) = t /\ byte_flag (type_byte t b) = byte_flag b /\
  byte_type (flag_byte v b) = byte_type b /\ byte_flag (flag_byte v b) = v.
Proof.
  intros Hb.
  pose proof (byte_forall (fun b =>
    bool_decide (byte_type (type_byte t b) = t) &&
    bool_decide (byte_flag (type_byte t b) = byte_flag b) &&
    bool_decide (byte_type (flag_byte v b) = byte_type b) &&
    bool_decide (byte_flag (flag_byte v b) = v)) b) as H.
  cbn beta in H. rewrite !andb_true_iff, !bool_decide_eq_true in H.
  destruct H as [[[? ?] ?] ?]; [|done|done]. by destruct t, v; vm_compute.
Qed.

Lemma MaxSize_pos : (0 < MaxSize)%nat.
Proof. inside_tac. Qed.

(** The two type bits and the trace flag share the first byte without
    disturbing each other: marking a packet with a type, as every accessor
    class does on construction, keeps its trace flag, and changing the trace
    flag keeps the type; both read back as written. *)
Theorem type_and_trace_flag (t : PacketType) (v : bool) (p : BasePacket) (Hp : wf_packet p) :
  getType (setType t p) = t /\
  SrcPacket.getTraceFlag (setType t p) = SrcPacket.getTraceFlag p /\
  exists q, SrcPacket.setTraceFlag v p = Ok q /\
    SrcPacket.getTraceFlag q = Ok v /\ getType q = getType p /\ wf_packet q.
Proof.
  pose proof (get_byte_wf 0 p Hp MaxSize_pos) as Hb.
  destruct (type_byte_laws t v (get_byte 0 p) Hb) as (H1 & H2 & H3 & H4).
  split; [|split].
  - unfold getType, setType. rewrite get_set_byte by (done || apply MaxSize_pos). exact H1.
  - unfold SrcPacket.getTraceFlag, SrcPacket.getControlBit, setType. cbn [Z.leb Z.compare andb cassert].
    rewrite get_set_byte by (done || apply MaxSize_pos). cbn. f_equal. exact H2.
  - eexists. split; [reflexivity|]. split; [|split].
    + unfold SrcPacket.getTraceFlag, SrcPacket.getControlBit.
      rewrite get_set_byte by (done || apply MaxSize_pos). cbn. f_equal. exact H4.
    + unfold getType. rewrite get_set_byte by (done || apply MaxSize_pos). exact H3.
    + destruct Hp as [Hl Hbs]. split; cbn; [by rewrite length_insert|].
      apply Forall_insert; [done|apply u8_byte].
Qed.

Lemma type_and_trace_flag_witness :
  getType (setType PacketTypeUnicast BasePacket_new) = PacketTypeUnicast.
Proof. apply (type_and_trace_flag PacketTypeUnicast true BasePacket_new BasePacket_new_wf). Defined.
