(* ===== verification/FloodHist.v ===== *)
(** * FloodHist: the ring buffer of recent flood packets

    [src/src/awds/FloodHistory.h], [src/src/FloodHistory.cc].  The abstract
    value of a history is the list of the remembered packets, latest first; the
    ring buffer is proved to keep exactly the last
    [FLOOD_HISTORY_NUM_ENTRIES] insertions. *)

From S2P Require Import Prelude NodeId.

Definition FLOOD_HISTORY_NUM_ENTRIES : nat := 128.
Abbreviation NUM := FLOOD_HISTORY_NUM_ENTRIES.

Record Entry := mkEntry { e_id : NodeId; e_seq : Z }.
#[export] Instance Entry_eq_dec : EqDecision Entry.
Proof. solve_decision. Defined.

Record FloodHistory := mkHistory {
  h_end : nat;
  h_count : nat;
  h_hist : list Entry;
}.

(** The constructor leaves the cells of [hist] as they are in memory. *)
Definition FloodHistory_new (mem : list Entry) : FloodHistory := mkHistory 0 0 mem.

Definition insert (id : NodeId) (seq : Z) (h : FloodHistory) : FloodHistory :=
  let e := ((h_end h + 1) mod NUM)%nat in
  mkHistory e (Nat.min (h_count h + 1) NUM) (<[e := mkEntry id seq]> (h_hist h)).

(** The loop of [contains]: [n] cells still to look at, the next one is [p]. *)
Fixpoint contains_loop (n p : nat) (id : NodeId) (seq : Z) (hist : list Entry) : outcome bool :=
  match n with
  | O => Ok false
  | S n' =>
      e ← of_option OutOfBounds (hist !! p);
      if (e_seq e =? seq) && (e_id e =? id) then Ok true
      else contains_loop n' (if (p =? 0)%nat then (NUM - 1)%nat else (p - 1)%nat) id seq hist
  end.

Definition contains (id : NodeId) (seq : Z) (h : FloodHistory) : outcome bool :=
  contains_loop (h_count h) (h_end h) id seq (h_hist h).

(** [printHistoryOfNode]: the sequence numbers printed for [id], in cell order. *)
Definition printHistoryOfNode (id : NodeId) (h : FloodHistory) : list Z :=
  map e_seq (List.filter (fun e => e_id e =? id) (h_hist h)).

(** ** Refinement to the list of recent packets *)

(** The cell that holds the [i]-th latest packet. *)
Definition cell (e i : nat) : nat := ((e + (NUM - i)) mod NUM)%nat.

Record repr (h : FloodHistory) (l : list Entry) : Prop := {
  r_end : (h_end h < NUM)%nat;
  r_len : length (h_hist h) = NUM;
  r_count : length l = h_count h;
  r_max : (h_count h <= NUM)%nat;
  r_cells : forall i e, l !! i = Some e -> h_hist h !! cell (h_end h) i = Some e;
}.

(** What an insertion does to the abstract value. *)
Definition remember (x : Entry) (l : list Entry) : list Entry := take NUM (x :: l).

Lemma NUM_eq : NUM = 128%nat. Proof. done. Qed.

Ltac num := unfold cell in *; rewrite ?NUM_eq in *.

Lemma cell_0 e : (e < NUM)%nat -> cell e 0 = e.
Proof. intros. num. rewrite Nat.sub_0_r, Nat.Div0.add_mod, Nat.Div0.mod_same, Nat.add_0_r.
  rewrite Nat.Div0.mod_mod. by apply Nat.mod_small. Qed.

Lemma cell_lt e i : (cell e i < NUM)%nat.
Proof. num. apply Nat.mod_upper_bound. lia. Qed.

(** Stepping back one packet is stepping back one cell, around the end. *)
Lemma cell_S e i :
  (e < NUM)%nat -> (i < NUM)%nat ->
  cell e (S i) = if (cell e i =? 0)%nat then (NUM - 1)%nat else (cell e i - 1)%nat.
Proof.
  intros He Hi. num.
  assert (e + (128 - i) < 128 \/ 128 <= e + (128 - i) < 256)%nat as [Hc|Hc] by lia.
  - rewrite (Nat.mod_small (e + (128 - i))), Nat.mod_small by lia.
    destruct (Nat.eqb_spec (e + (128 - i)) 0); lia.
  - replace (e + (128 - i))%nat with (e - i + 1 * 128)%nat by lia.
    rewrite Nat.Div0.mod_add, (Nat.mod_small (e - i)) by lia.
    destruct (Nat.eqb_spec (e - i) 0).
    + replace (e + (128 - S i))%nat with 127%nat by lia. done.
    + replace (e + (128 - S i))%nat with (e - i - 1 + 1 * 128)%nat by lia.
      rewrite Nat.Div0.mod_add, Nat.mod_small by lia. done.
Qed.

Lemma cell_next e i :
  (e < NUM)%nat -> (i < NUM - 1)%nat -> cell ((e + 1) mod NUM) (S i) = cell e i.
Proof.
  intros He Hi. num. replace (e + (128 - i))%nat with (e + 1 + (128 - S i))%nat by lia.
  by rewrite Nat.Div0.add_mod_idemp_l.
Qed.

Lemma cell_next_ne e i :
  (e < NUM)%nat -> (i < NUM - 1)%nat -> cell e i <> ((e + 1) mod NUM)%nat.
Proof.
  intros He Hi. num. destruct (decide (e + 1 < 128)%nat).
  - rewrite (Nat.mod_small (e + 1)) by lia.
    destruct (decide (i <= e)%nat).
    + replace (e + (128 - i))%nat with (e - i + 1 * 128)%nat by lia.
      rewrite Nat.Div0.mod_add, Nat.mod_small by lia. lia.
    + rewrite Nat.mod_small by lia. lia.
  - assert (e = 127%nat) as -> by lia. change ((127 + 1) mod 128)%nat with 0%nat.
    replace (127 + (128 - i))%nat with (127 - i + 1 * 128)%nat by lia.
    rewrite Nat.Div0.mod_add, Nat.mod_small by lia. lia.
Qed.

Lemma repr_new mem : length mem = NUM -> repr (FloodHistory_new mem) [].
Proof. intros. split; cbn; (done || num; lia). Qed.

Lemma repr_insert h l id seq :
  repr h l -> repr (insert id seq h) (remember (mkEntry id seq) l).
Proof.
  intros [He Hl Hc Hm Hcells]. unfold insert, remember.
  pose proof (Nat.mod_upper_bound (h_end h + 1) NUM ltac:(num; lia)) as Hn.
  split; cbn [h_end h_count h_hist].
  - done.
  - by rewrite length_insert.
  - rewrite length_take. cbn [length]. num. lia.
  - num. lia.
  - intros i e Hi. rewrite lookup_take_Some in Hi. destruct Hi as [Hi Hlt].
    destruct i as [|i]; cbn in Hi.
    + simplify_eq. rewrite cell_0 by done. apply list_lookup_insert_eq. by rewrite Hl.
    + rewrite cell_next by (num; lia). rewrite list_lookup_insert_ne.
      * by apply Hcells.
      * apply not_eq_sym, cell_next_ne; num; lia.
Qed.

Lemma contains_loop_spec h l n i id seq :
  repr h l -> (i + n = length l)%nat ->
  contains_loop n (cell (h_end h) i) id seq (h_hist h)
  = Ok (bool_decide (mkEntry id seq ∈ drop i l)).
Proof.
  intros R. destruct R as [He Hl Hc Hm Hcells].
  revert i. induction n as [|n IH]; intros i Hi.
  - cbn. rewrite drop_ge by lia. done.
  - destruct (lookup_lt_is_Some_2 l i) as [e Hie]; [lia|].
    cbn [contains_loop]. rewrite (Hcells _ _ Hie). cbn [of_option mbind outcome_bind].
    rewrite (drop_S l e i Hie), <- cell_S by (done || lia).
    destruct e as [eid eseq]. cbn [e_id e_seq].
    destruct (Z.eqb_spec eseq seq) as [->|Hs]; cbn [andb].
    + destruct (Z.eqb_spec eid id) as [->|Hid].
      * rewrite bool_decide_true; [done|]. apply elem_of_cons. by left.
      * rewrite IH by lia. f_equal. apply bool_decide_ext. rewrite elem_of_cons. naive_solver.
    + rewrite IH by lia. f_equal. apply bool_decide_ext. rewrite elem_of_cons. naive_solver.
Qed.

Lemma contains_spec h l id seq :
  repr h l -> contains id seq h = Ok (bool_decide (mkEntry id seq ∈ l)).
Proof.
  intros R. unfold contains. rewrite <- (cell_0 (h_end h)) by apply (r_end h l R).
  rewrite <- (r_count h l R). by rewrite (contains_loop_spec h l) by done.
Qed.

(** The history after inserting [es], latest first. *)
Definition insert_all (es : list Entry) (h : FloodHistory) : FloodHistory :=
  foldr (fun e => insert (e_id e) (e_seq e)) h es.

Lemma repr_insert_all es mem :
  length mem = NUM -> repr (insert_all es (FloodHistory_new mem)) (take NUM es).
Proof.
  intros Hm. induction es as [|[id seq] es IH]; cbn [insert_all foldr]; [by apply repr_new|].
  cbn [e_id e_seq]. eapply (repr_insert _ _ id seq) in IH. unfold remember in IH.
  assert (take NUM (mkEntry id seq :: take NUM es) = take NUM (mkEntry id seq :: es)) as <-; [|done].
  rewrite NUM_eq. cbn [take]. f_equal. rewrite take_take. f_equal.
Qed.

(** C14.  The flood history is a sliding window: after any sequence of insertions
    into a fresh history, whatever the ring buffer's memory held before, a packet
    is reported as seen exactly if it is one of the last 128 inserted ones, and
    the search never leaves the buffer. *)
Theorem flood_history_window (mem es : list Entry) (id : NodeId) (seq : Z)
    (Hmem : length mem = FLOOD_HISTORY_NUM_ENTRIES) :
  contains id seq (insert_all es (FloodHistory_new mem))
  = Ok (bool_decide (mkEntry id seq ∈ take FLOOD_HISTORY_NUM_ENTRIES es)).
Proof. apply contains_spec. by apply repr_insert_all. Qed.

Lemma flood_history_window_witness :
  contains 7 3 (insert_all [mkEntry 7 4; mkEntry 7 3] (FloodHistory_new (replicate 128 (mkEntry 0 0))))
  = Ok true.
Proof.
  rewrite (flood_history_window (replicate 128 (mkEntry 0 0)) [mkEntry 7 4; mkEntry 7 3] 7 3).
  - reflexivity.
  - reflexivity.
Defined.
