(* ===== verification/Isqrt.v ===== *)
(** * Isqrt: the integer square root and the adaptive topology period

    [src/src/sqrt_int.c] (Halleck's method) and the computation of the adaptive
    period in [AwdsRouting::send_topo] that uses it.  [long] has 64 bits. *)

From S2P Require Import Prelude Bytes.

(** ** [isqrt] *)

(** [(long) ((~0UL >> 1) & ~(~0UL >> 2))] *)
Definition squaredbit_init : Z :=
  swrap 64 (Z.land (Z.shiftr (2 ^ 64 - 1) 1) (wrap 64 (Z.lnot (Z.shiftr (2 ^ 64 - 1) 2)))).

Fixpoint isqrt_loop (fuel : nat) (squaredbit remainder root : Z) : outcome Z :=
  if squaredbit >? 0 then
    match fuel with
    | O => Fail OutOfFuel
    | S fuel' =>
        if remainder >=? Z.lor squaredbit root then
          let remainder := remainder - Z.lor squaredbit root in
          let root := Z.shiftr root 1 in
          let root := Z.lor root squaredbit in
          isqrt_loop fuel' (Z.shiftr squaredbit 2) remainder root
        else
          isqrt_loop fuel' (Z.shiftr squaredbit 2) remainder (Z.shiftr root 1)
    end
  else Ok root.

(** The loop runs 32 times: [squaredbit] starts at [4^31]. *)
Definition isqrt (x : Z) : outcome Z :=
  if x <? 1 then Ok 0 else isqrt_loop 32 squaredbit_init x 0.

(** The bit processed with [n] rounds to go, 0 when the loop is over. *)
Definition bit (n : nat) : Z := match n with O => 0 | S k => 4 ^ Z.of_nat k end.

Lemma bit_shift n : Z.shiftr (bit (S n)) 2 = bit n.
Proof.
  unfold bit. rewrite Z.shiftr_div_pow2 by lia. destruct n as [|n]; [done|].
  rewrite Nat2Z.inj_succ, Z.pow_succ_r, Z.mul_comm by lia. by rewrite Z.div_mul by lia.
Qed.

Lemma squaredbit_init_eq : squaredbit_init = bit 32.
Proof. reflexivity. Qed.

Lemma pow4 n : 4 ^ Z.of_nat n = 2 ^ Z.of_nat n * 2 ^ Z.of_nat n.
Proof. change 4 with (2 ^ 2). rewrite <- Z.pow_mul_r, <- Z.pow_add_r by lia. f_equal. lia. Qed.

(** [squaredbit] lies below the bits of [root], so [|] adds. *)
Lemma lor_bit n m a :
  0 < m -> Z.lor (4 ^ Z.of_nat n) (a * 2 ^ m * 4 ^ Z.of_nat n) = (a * 2 ^ m + 1) * 4 ^ Z.of_nat n.
Proof.
  intros Hm. assert (4 ^ Z.of_nat n = 2 ^ (2 * Z.of_nat n)) as -> by (by rewrite Z.pow_mul_r by lia).
  rewrite <- Z.mul_assoc, <- Z.pow_add_r, Z.lor_comm, lor_pack by
    (first [lia | split; [lia | apply Z.pow_lt_mono_r; lia]]).
  rewrite Z.pow_add_r by lia. lia.
Qed.

Lemma shiftr_root n a : Z.shiftr (a * 4 ^ Z.of_nat (S n)) 1 = a * 2 ^ 1 * 4 ^ Z.of_nat n.
Proof.
  rewrite Z.shiftr_div_pow2, Nat2Z.inj_succ, Z.pow_succ_r by lia. change (2 ^ 1) with 2.
  replace (a * (4 * 4 ^ Z.of_nat n)) with (a * 2 * 4 ^ Z.of_nat n * 2) by lia.
  by rewrite Z.div_mul by lia.
Qed.

(** With [n] rounds to go, [a * 2^n] is the root found so far, [root] is
    [a * 4^n], and the remaining rounds can add less than [2^n]. *)
Lemma isqrt_loop_spec n x a :
  0 <= a ->
  (a * 2 ^ Z.of_nat n) ^ 2 <= x < ((a + 1) * 2 ^ Z.of_nat n) ^ 2 ->
  isqrt_loop n (bit n) (x - (a * 2 ^ Z.of_nat n) ^ 2) (a * 4 ^ Z.of_nat n) = Ok (Z.sqrt x).
Proof.
  revert a. induction n as [|n IH]; intros a Ha Hx.
  - cbn -[Z.sqrt Z.pow Z.mul]. rewrite Z.mul_1_r. change (Z.of_nat 0) with 0 in Hx.
    rewrite !Z.pow_0_r, !Z.mul_1_r in Hx. f_equal. symmetry. apply Z.sqrt_unique. lia.
  - cbn [isqrt_loop]. rewrite bit_shift. change (bit (S n)) with (4 ^ Z.of_nat n).
    rewrite shiftr_root. pose proof (pow4 n) as H4.
    replace (a * 4 ^ Z.of_nat (S n)) with (a * 2 ^ 2 * 4 ^ Z.of_nat n)
      by (rewrite Nat2Z.inj_succ, Z.pow_succ_r by lia; lia).
    rewrite Nat2Z.inj_succ, Z.pow_succ_r in * by lia.
    rewrite (Z.lor_comm (a * 2 ^ 1 * _)), !lor_bit by lia.
    destruct (Z.gtb_spec (4 ^ Z.of_nat n) 0); [|lia].
    assert (0 < 2 ^ Z.of_nat n) as Hp by lia. set (p := 2 ^ Z.of_nat n) in *.
    destruct (Z.geb_spec (x - (a * (2 * p)) ^ 2) ((a * 2 ^ 2 + 1) * 4 ^ Z.of_nat n)) as [Hge|Hlt];
      rewrite H4 in *.
    + replace (x - _ - _) with (x - ((a * 2 ^ 1 + 1) * p) ^ 2) by lia.
      apply IH; [lia|]. split; lia.
    + replace (a * (2 * p)) with (a * 2 ^ 1 * p) in * by lia.
      apply IH; [lia|]. split; lia.
Qed.

Lemma isqrt_sqrt (x : Z) : - 2 ^ 63 <= x < 2 ^ 63 -> isqrt x = Ok (Z.sqrt x).
Proof.
  intros Hx. unfold isqrt. destruct (Z.ltb_spec x 1).
  - destruct (decide (x = 0)) as [->|]; [done|]. by rewrite Z.sqrt_neg by lia.
  - rewrite squaredbit_init_eq.
    pose proof (isqrt_loop_spec 32 x 0 ltac:(lia)) as H'.
    rewrite !Z.mul_0_l, Z.pow_0_l, Z.sub_0_r in H' by lia. apply H'. lia.
Qed.

(** For every [long] the loop of [isqrt] ends within its 32 rounds; the
    result [r] of a positive argument satisfies [r^2 <= x < (r+1)^2], the result
    for any other argument is 0. *)
Theorem isqrt_correct (x : Z) (Hx : - 2 ^ 63 <= x < 2 ^ 63) :
  exists r, isqrt x = Ok r /\ 0 <= r /\
    (1 <= x -> r * r <= x < (r + 1) * (r + 1)) /\ (x < 1 -> r = 0).
Proof.
  exists (Z.sqrt x). split; [by apply isqrt_sqrt|]. split; [apply Z.sqrt_nonneg|]. split; intros.
  - apply Z.sqrt_spec. lia.
  - destruct (decide (x = 0)) as [->|]; [done|]. apply Z.sqrt_neg. lia.
Qed.

Lemma isqrt_correct_witness : exists r, isqrt 144 = Ok r /\ r * r <= 144 < (r + 1) * (r + 1).
Proof.
  destruct (isqrt_correct 144) as (r & E & _ & Hr & _); [lia|].
  exists r. split; [exact E | apply Hr; lia].
Defined.

(** ** The adaptive topology period

    The computation in [send_topo], for the current number [n] of stations. *)

Definition adaptive_period (n : Z) : outcome Z :=
  r ← isqrt (n * 16);
  _ ← (if r =? 0 then Fail DivByZero else Ok tt);
  let newPeriod := Z.quot (200 * n * n * 4) r in
  let maxNewPerion := newPeriod + Z.quot newPeriod 5 in
  Ok (Z.min newPeriod maxNewPerion).

(** For every number of stations the daemon can know of (itself at least),
    the adaptive period is computed without a division by zero and is
    [800 n^2 / sqrt(16 n)] milliseconds: never below 200 ms and, up to rounding,
    at least [200 n sqrt n], so it grows with the size of the network.  The cap
    by [maxNewPerion] never takes effect. *)
Theorem adaptive_period_spec (n : Z) (Hn : 1 <= n < 2 ^ 20) :
  adaptive_period n = Ok (800 * (n * n) / Z.sqrt (16 * n)) /\
  200 <= 800 * (n * n) / Z.sqrt (16 * n) /\
  (200 * n) ^ 2 * n <= (800 * (n * n) / Z.sqrt (16 * n) + 1) ^ 2.
Proof.
  unfold adaptive_period. rewrite isqrt_sqrt by lia. cbn [mbind outcome_bind].
  rewrite (Z.mul_comm n 16). set (r := Z.sqrt (16 * n)).
  assert (r * r <= 16 * n < (r + 1) * (r + 1)) as Hr by (apply Z.sqrt_spec; lia).
  assert (4 <= r) as Hr4 by (change 4 with (Z.sqrt 16); apply Z.sqrt_le_mono; lia).
  destruct (Z.eqb_spec r 0); [lia|]. cbn [mbind outcome_bind].
  replace (200 * n * n * 4) with (800 * (n * n)) by lia.
  rewrite Z.quot_div_nonneg by nia. set (q := 800 * (n * n) / r).
  assert (r * q <= 800 * (n * n) < r * (q + 1)) as Hq.
  { unfold q. pose proof (Z.div_mod (800 * (n * n)) r ltac:(lia)).
    pose proof (Z.mod_pos_bound (800 * (n * n)) r ltac:(lia)). lia. }
  assert (0 <= q) as Hq0 by nia.
  assert (r <= 4 * n) as Hr4n by nia.
  split; [|split].
  - rewrite Z.quot_div_nonneg, Z.min_l; [done| |lia..].
    pose proof (Z.div_pos q 5 ltac:(lia) ltac:(lia)). lia.
  - nia.
  - assert (800 * (n * n) <= r * (q + 1)) as H1 by lia.
    assert (800 * (n * n) * (800 * (n * n)) <= (r * (q + 1)) * (r * (q + 1))) as H2
      by (apply Z.mul_le_mono_nonneg; nia).
    assert ((r * r) * ((q + 1) * (q + 1)) <= (16 * n) * ((q + 1) * (q + 1))) as H3
      by (apply Z.mul_le_mono_nonneg_r; nia).
    rewrite !Z.pow_2_r. apply (Z.mul_le_mono_pos_l _ _ (16 * n)); [lia|].
    replace (16 * n * (200 * n * (200 * n) * n)) with (800 * (n * n) * (800 * (n * n))) by lia. lia.
Qed.

Lemma adaptive_period_spec_witness : adaptive_period 25 = Ok 25000.
Proof.
  destruct (adaptive_period_spec 25) as [H _]; [lia|]. rewrite H. reflexivity.
Defined.
