(* ===== verification/KState.v ===== *)
(** * The kernel module: data, memory and the services of Linux

    [linux-module/awds_module.h] and the globals of [awds_module.c]: the
    structures become records, pointers to them locations in one heap per
    structure, and the static variables fields of the record [kstate].  Access
    through a null pointer and access to a freed object are faults; a mutex is
    the flag "held", and taking a held mutex is a [Deadlock] of the only thread
    the model runs.

    What Linux provides (allocation, devices, transmission, user memory, time)
    is the interface [LinuxKernel].  Each answer may depend on the trace of all
    calls the module has made so far, newest first. *)

From S2P Require Import Prelude Bytes.

(** ** Constants of [awds_defines.h] and of the Linux headers *)

Definition ETH_ALEN : nat := 6.
Definition ETH_HLEN : nat := 14.
Definition PF_AWDS : Z := 32.
Definition ETH_P_AWDS : Z := 0x8334.
Definition AWDS_HLEN : nat := 23.
Definition AWDS_DEST_OFFSET : Z := 9.
Definition AWDS_NEXTHOP_OFFSET : Z := 15.
Definition AWDS_TTL_OFFSET : Z := 21.
Definition AWDS_FLOODTYPE_OFFSET : Z := 17.
Definition AWDS_IOC_MAGIC : Z := 107.
Definition AWDS_IOC_MAX_NR : Z := 2.
Definition PACKET_BEACON : Z := 0.
Definition PACKET_FLOOD : Z := 1.
Definition PACKET_UNICAST : Z := 2.
Definition PACKET_FOREWARD : Z := 3.
Definition FLOOD_PACKET_TOPO : Z := 0.
Definition FLOOD_PACKET_MCAST : Z := 1.
Definition FLOOD_PACKET_PRIV : Z := 2.
Definition MAX_AWDS_COUNT : Z := 4.
Definition MAX_AWDS_INDEX : Z := MAX_AWDS_COUNT - 1.
Definition MAX_AWDS_UC_INTERVAL : Z := 15.
Definition EAWDSINVAL : Z := 1.
Definition EAWDSEXIST : Z := 2.
Definition EAWDSFULL : Z := 3.
Definition EAWDSNOMUTEX : Z := 4.
Definition EAWDSMISSING : Z := 5.
Definition AWDS_LOCAL_CONFIG : Z := 1.
Definition AWDS_FORWARD_CONFIG : Z := 2.

Definition ENXIO : Z := 6.
Definition EAGAIN : Z := 11.
Definition ENOMEM : Z := 12.
Definition EFAULT : Z := 14.
Definition ENODEV : Z := 19.
Definition EINVAL : Z := 22.
Definition ENOTTY : Z := 25.
Definition EADDRINUSE : Z := 98.
Definition ENETDOWN : Z := 100.
Definition ENOBUFS : Z := 105.
Definition ENOIOCTLCMD : Z := 515.

(** ** Structures *)

Definition ptr : Type := option positive.     (* [None] is the null pointer *)
Abbreviation null := (@None positive).

Record sockaddr_awds := SockAddr {
  sa_family : Z;
  sa_ifindex : Z;
  sa_addr : list Z;
}.

(** An [sk_buff]: its memory and the offset of [skb->data] in it; what lies
    before is the headroom, [skb->len] is the rest. *)
Record sk_buff := SkBuff {
  skb_buf : list Z;
  skb_off : nat;
  skb_dev : Z;
  skb_protocol : Z;
}.

Record awds_uc_dest_table := UcDest {
  uc_prev : ptr;
  uc_next : ptr;
  uc_mac : list Z;
  uc_mac_string : list Z;
  uc_time : Z;
}.

Record awds_instance := Instance {
  inst_index : Z;
  inst_sock : ptr;
  inst_lock : bool;
}.

Record awds_interface := Interface {
  if_next : ptr;
  if_prev : ptr;
  if_index : Z;
  if_dev : option Z;
  if_addr : ptr;
}.

Record awds_sock := Sock {
  sk_ifcount : Z;
  sk_interf : ptr;
  sk_table : ptr;
  sk_err : Z;
  sk_shutdown : bool;            (* [sk_shutdown & RCV_SHUTDOWN] *)
  sk_rcvtimeo : Z;
  sk_receive_queue : list sk_buff;
}.

Record awds_packet_statistic := Stats {
  rx_total_packets : Z;
  rx_total_unicast : Z;
  rx_total_beacon : Z;
  rx_total_flood : Z;
  rx_total_foreward : Z;
  rx_local_unicast : Z;
  rx_local_unicast_failed : Z;
  rx_forwarded_unicast : Z;
  rx_flood_topo : Z;
  rx_flood_mcast : Z;
  rx_flood_private : Z;
  tx_total : Z;
}.

Definition awds_stats0 : awds_packet_statistic := Stats 0 0 0 0 0 0 0 0 0 0 0 0.

(** ** The services of Linux *)

Inductive kcall :=
| CKmalloc
| CSkAlloc
| CDevGet (ifindex : Z)
| CDevHold (dev : Z)
| CDevPut (dev : Z)
| CXmit (skb : sk_buff)
| CNetifRx (skb : sk_buff)
| CQueueRcv (sk : positive) (skb : sk_buff)
| CKfreeSkb (skb : sk_buff)
| CWakeUp (sk : positive)
| CSockPut (sk : positive)
| CCopyFrom (addr : Z) (n : nat)
| CCopyTo (addr : Z) (data : list Z)
| CAllocSkb (n : nat)
| CDatagram (skb : sk_buff) (n : Z).

Class LinuxKernel := {
  (** [kmalloc] of a structure: does the call succeed? *)
  kmalloc_ok : list kcall -> bool;
  (** [kmalloc] of [n] raw bytes: their contents, or the null pointer *)
  kmalloc_bytes : list kcall -> nat -> option (list Z);
  sk_alloc_ok : list kcall -> bool;
  dev_get_by_index : list kcall -> Z -> option Z;
  dev_getbyhwaddr : list kcall -> list Z -> option Z;
  (** [dev->flags & IFF_UP] *)
  dev_up : list kcall -> Z -> bool;
  dev_queue_xmit : list kcall -> sk_buff -> Z;
  net_xmit_errno : Z -> Z;
  netif_rx_ni : list kcall -> sk_buff -> Z;
  eth_type_trans : sk_buff -> Z -> Z * sk_buff;
  sock_queue_rcv_skb : list kcall -> positive -> sk_buff -> Z;
  (** [CURRENT_TIME_SEC.tv_sec] *)
  current_time_sec : list kcall -> Z;
  print_mac : list Z -> list Z;
  access_ok : list kcall -> Z -> Z -> bool;
  (** the number of bytes not copied, and what the destination then holds *)
  copy_from_user : list kcall -> Z -> nat -> Z * list Z;
  copy_to_user : list kcall -> Z -> list Z -> Z;
  sock_alloc_send_skb : list kcall -> nat -> Z + sk_buff;
  (** [LL_RESERVED_SPACE(dev)] *)
  reserved_space : Z -> nat;
  dev_hard_header : sk_buff -> Z -> Z -> list Z -> Z -> Z * sk_buff;
  memcpy_fromiovec : list kcall -> nat -> Z * list Z;
  skb_copy_datagram_iovec : list kcall -> sk_buff -> Z -> Z;
  signal_pending : list kcall -> bool;
  sock_intr_errno : Z -> Z;
}.

(** A Linux in which every call succeeds, eight devices exist and are up, and
    user memory holds [user addr n]: to evaluate the module on examples. *)
Definition linux_sim (user : Z -> nat -> list Z) : LinuxKernel := {|
  kmalloc_ok _ := true;
  kmalloc_bytes _ n := Some (replicate n 0);
  sk_alloc_ok _ := true;
  dev_get_by_index _ i := if (1 <=? i) && (i <=? 8) then Some i else None;
  dev_getbyhwaddr _ _ := None;
  dev_up _ _ := true;
  dev_queue_xmit _ _ := 0;
  net_xmit_errno e := - e;
  netif_rx_ni _ _ := 0;
  eth_type_trans skb _ := (0x0800, SkBuff (skb_buf skb) (skb_off skb + 14) (skb_dev skb) (skb_protocol skb));
  sock_queue_rcv_skb _ _ _ := 0;
  current_time_sec _ := 1000;
  print_mac m := m;
  access_ok _ _ _ := true;
  copy_from_user _ a n := (0, user a n);
  copy_to_user _ _ _ := 0;
  sock_alloc_send_skb _ _ := inr (SkBuff [] 0 1 0);
  reserved_space _ := 16%nat;
  dev_hard_header skb _ _ _ _ := (14, SkBuff (skb_buf skb) (skb_off skb - 14) (skb_dev skb) (skb_protocol skb));
  memcpy_fromiovec _ n := (0, replicate n 0);
  skb_copy_datagram_iovec _ _ _ := 0;
  signal_pending _ := false;
  sock_intr_errno _ := -4;
|}.

(** ** The state of the module *)

Record kstate := KState {
  awds_instances : list ptr;
  awds_instance_index : Z;
  awds_instance_mutex : bool;
  awds_routing : option (list Z);
  awds_routing_count : Z;
  configuration : Z;
  statistics : Z;
  awds_stats : awds_packet_statistic;
  h_inst : gmap positive awds_instance;
  h_if : gmap positive awds_interface;
  h_addr : gmap positive sockaddr_awds;
  h_sock : gmap positive awds_sock;
  h_uc : gmap positive awds_uc_dest_table;
  next_loc : positive;
  trace : list kcall;
}.

(** The state after loading: the static initialisers, before [awds_init_module]. *)
Definition kstate0 : kstate :=
  KState (replicate 4 null) 0 false None 0
         (Z.lor AWDS_LOCAL_CONFIG AWDS_FORWARD_CONFIG) 1 awds_stats0
         ∅ ∅ ∅ ∅ ∅ 1 [].

Definition set_instances v s := KState v (awds_instance_index s) (awds_instance_mutex s)
  (awds_routing s) (awds_routing_count s) (configuration s) (statistics s) (awds_stats s)
  (h_inst s) (h_if s) (h_addr s) (h_sock s) (h_uc s) (next_loc s) (trace s).
Definition set_index v s := KState (awds_instances s) v (awds_instance_mutex s)
  (awds_routing s) (awds_routing_count s) (configuration s) (statistics s) (awds_stats s)
  (h_inst s) (h_if s) (h_addr s) (h_sock s) (h_uc s) (next_loc s) (trace s).
Definition set_mutex v s := KState (awds_instances s) (awds_instance_index s) v
  (awds_routing s) (awds_routing_count s) (configuration s) (statistics s) (awds_stats s)
  (h_inst s) (h_if s) (h_addr s) (h_sock s) (h_uc s) (next_loc s) (trace s).
Definition set_routing v s := KState (awds_instances s) (awds_instance_index s) (awds_instance_mutex s)
  v (awds_routing_count s) (configuration s) (statistics s) (awds_stats s)
  (h_inst s) (h_if s) (h_addr s) (h_sock s) (h_uc s) (next_loc s) (trace s).
Definition set_routing_count v s := KState (awds_instances s) (awds_instance_index s) (awds_instance_mutex s)
  (awds_routing s) v (configuration s) (statistics s) (awds_stats s)
  (h_inst s) (h_if s) (h_addr s) (h_sock s) (h_uc s) (next_loc s) (trace s).
Definition set_configuration v s := KState (awds_instances s) (awds_instance_index s) (awds_instance_mutex s)
  (awds_routing s) (awds_routing_count s) v (statistics s) (awds_stats s)
  (h_inst s) (h_if s) (h_addr s) (h_sock s) (h_uc s) (next_loc s) (trace s).
Definition set_stats v s := KState (awds_instances s) (awds_instance_index s) (awds_instance_mutex s)
  (awds_routing s) (awds_routing_count s) (configuration s) (statistics s) v
  (h_inst s) (h_if s) (h_addr s) (h_sock s) (h_uc s) (next_loc s) (trace s).
Definition set_next_loc v s := KState (awds_instances s) (awds_instance_index s) (awds_instance_mutex s)
  (awds_routing s) (awds_routing_count s) (configuration s) (statistics s) (awds_stats s)
  (h_inst s) (h_if s) (h_addr s) (h_sock s) (h_uc s) v (trace s).
Definition set_trace v s := KState (awds_instances s) (awds_instance_index s) (awds_instance_mutex s)
  (awds_routing s) (awds_routing_count s) (configuration s) (statistics s) (awds_stats s)
  (h_inst s) (h_if s) (h_addr s) (h_sock s) (h_uc s) (next_loc s) v.

Abbreviation K := (M kstate).

(** ** Heaps *)

Class Heap (A : Type) := {
  heap_of : kstate -> gmap positive A;
  set_heap : gmap positive A -> kstate -> kstate;
}.

#[export] Instance heap_inst : Heap awds_instance := {
  heap_of := h_inst;
  set_heap v s := KState (awds_instances s) (awds_instance_index s) (awds_instance_mutex s)
    (awds_routing s) (awds_routing_count s) (configuration s) (statistics s) (awds_stats s)
    v (h_if s) (h_addr s) (h_sock s) (h_uc s) (next_loc s) (trace s) }.
#[export] Instance heap_if : Heap awds_interface := {
  heap_of := h_if;
  set_heap v s := KState (awds_instances s) (awds_instance_index s) (awds_instance_mutex s)
    (awds_routing s) (awds_routing_count s) (configuration s) (statistics s) (awds_stats s)
    (h_inst s) v (h_addr s) (h_sock s) (h_uc s) (next_loc s) (trace s) }.
#[export] Instance heap_addr : Heap sockaddr_awds := {
  heap_of := h_addr;
  set_heap v s := KState (awds_instances s) (awds_instance_index s) (awds_instance_mutex s)
    (awds_routing s) (awds_routing_count s) (configuration s) (statistics s) (awds_stats s)
    (h_inst s) (h_if s) v (h_sock s) (h_uc s) (next_loc s) (trace s) }.
#[export] Instance heap_sock : Heap awds_sock := {
  heap_of := h_sock;
  set_heap v s := KState (awds_instances s) (awds_instance_index s) (awds_instance_mutex s)
    (awds_routing s) (awds_routing_count s) (configuration s) (statistics s) (awds_stats s)
    (h_inst s) (h_if s) (h_addr s) v (h_uc s) (next_loc s) (trace s) }.
#[export] Instance heap_uc : Heap awds_uc_dest_table := {
  heap_of := h_uc;
  set_heap v s := KState (awds_instances s) (awds_instance_index s) (awds_instance_mutex s)
    (awds_routing s) (awds_routing_count s) (configuration s) (statistics s) (awds_stats s)
    (h_inst s) (h_if s) (h_addr s) (h_sock s) v (next_loc s) (trace s) }.

(** [*p] *)
Definition load {A} `{Heap A} (p : ptr) : K A := fun s =>
  match p with
  | None => Fail NullDeref
  | Some l => match heap_of s !! l with Some a => Ok (a, s) | None => Fail UseAfterFree end
  end.

(** Assignment to members of [*p]. *)
Definition update {A} `{Heap A} (p : ptr) (g : A -> A) : K unit := fun s =>
  match p with
  | None => Fail NullDeref
  | Some l => match heap_of s !! l with
              | Some a => Ok (tt, set_heap (<[l := g a]> (heap_of s)) s)
              | None => Fail UseAfterFree
              end
  end.

Definition kfree {A} `{Heap A} (p : ptr) : K unit := fun s =>
  match p with
  | None => Ok (tt, s)
  | Some l => match heap_of s !! l with
              | Some _ => Ok (tt, set_heap (delete l (heap_of s)) s)
              | None => Fail UseAfterFree
              end
  end.

Definition emit (c : kcall) : K unit := modify (fun s => set_trace (c :: trace s) s).

(** Ask Linux: the answer depends on the calls so far. *)
Definition ask {A} (f : list kcall -> A) : K A := gets (fun s => f (trace s)).

Definition new_obj {A} `{Heap A} (a : A) : K ptr := fun s =>
  let l := next_loc s in
  Ok (Some l, set_next_loc (Pos.succ l) (set_heap (<[l := a]> (heap_of s)) s)).

(** ** Mutexes *)

Definition mutex_lock_global : K unit := fun s =>
  if awds_instance_mutex s then Fail Deadlock else Ok (tt, set_mutex true s).
Definition mutex_unlock_global : K unit := fun s =>
  if awds_instance_mutex s then Ok (tt, set_mutex false s) else Fail BadUnlock.

Definition set_lock (b : bool) (i : awds_instance) : awds_instance :=
  Instance (inst_index i) (inst_sock i) b.
Definition mutex_lock_inst (p : ptr) : K unit :=
  i ← load p; if inst_lock i then fail Deadlock else update p (set_lock true).
Definition mutex_unlock_inst (p : ptr) : K unit :=
  i ← load p; if inst_lock i then update p (set_lock false) else fail BadUnlock.

(** ** Socket buffers *)

Definition skb_len (skb : sk_buff) : Z := Z.of_nat (length (skb_buf skb) - skb_off skb).
Definition skb_data (skb : sk_buff) : list Z := drop (skb_off skb) (skb_buf skb).

(** [memcpy(.., skb->data + off, n)] and [memcpy(skb->data + off, bs, |bs|)] *)
Definition skb_read (skb : sk_buff) (off : Z) (n : nat) : outcome (list Z) :=
  let pos := Z.of_nat (skb_off skb) + off in
  if (0 <=? pos) && (pos + Z.of_nat n <=? Z.of_nat (length (skb_buf skb)))
  then Ok (slice (Z.to_nat pos) n (skb_buf skb)) else Fail OutOfBounds.

Definition skb_with_buf (skb : sk_buff) (b : list Z) : sk_buff :=
  SkBuff b (skb_off skb) (skb_dev skb) (skb_protocol skb).

Definition skb_write (skb : sk_buff) (off : Z) (bs : list Z) : outcome sk_buff :=
  let pos := Z.of_nat (skb_off skb) + off in
  if (0 <=? pos) && (pos + Z.of_nat (length bs) <=? Z.of_nat (length (skb_buf skb)))
  then Ok (skb_with_buf skb (splice (Z.to_nat pos) bs (skb_buf skb))) else Fail OutOfBounds.

Definition skb_byte (skb : sk_buff) (off : Z) : outcome Z :=
  bs ← skb_read skb off 1; Ok (byte_at bs 0).

Definition skb_with_off (skb : sk_buff) (o : nat) : sk_buff :=
  SkBuff (skb_buf skb) o (skb_dev skb) (skb_protocol skb).

(** [skb_push] panics when the headroom is too small; [skb_pull] leaves a too
    short buffer alone. *)
Definition skb_push (skb : sk_buff) (n : nat) : outcome sk_buff :=
  if (n <=? skb_off skb)%nat then Ok (skb_with_off skb (skb_off skb - n)) else Fail AssertFail.
Definition skb_pull (skb : sk_buff) (n : nat) : sk_buff :=
  if Z.of_nat n <=? skb_len skb then skb_with_off skb (skb_off skb + n) else skb.

(** ** Lemmas on the primitives *)

Lemma skb_read_ok skb off n :
  0 <= Z.of_nat (skb_off skb) + off ->
  Z.of_nat (skb_off skb) + off + Z.of_nat n <= Z.of_nat (length (skb_buf skb)) ->
  skb_read skb off n = Ok (slice (Z.to_nat (Z.of_nat (skb_off skb) + off)) n (skb_buf skb)).
Proof.
  intros H1 H2. unfold skb_read. rewrite (proj2 (Z.leb_le _ _) H1), (proj2 (Z.leb_le _ _) H2). done.
Qed.

Lemma skb_write_ok skb off bs :
  0 <= Z.of_nat (skb_off skb) + off ->
  Z.of_nat (skb_off skb) + off + Z.of_nat (length bs) <= Z.of_nat (length (skb_buf skb)) ->
  skb_write skb off bs =
    Ok (skb_with_buf skb (splice (Z.to_nat (Z.of_nat (skb_off skb) + off)) bs (skb_buf skb))).
Proof.
  intros H1 H2. unfold skb_write. rewrite (proj2 (Z.leb_le _ _) H1), (proj2 (Z.leb_le _ _) H2). done.
Qed.

(** A byte of the data part, read at a non-negative offset. *)
Lemma skb_byte_data skb off :
  0 <= off < skb_len skb ->
  skb_byte skb off = Ok (byte_at (skb_data skb) (Z.to_nat off)).
Proof.
  intros H. unfold skb_len in H. unfold skb_byte. rewrite skb_read_ok by lia.
  cbn [mbind outcome_bind]. unfold byte_at, skb_data.
  rewrite slice_lookup, lookup_drop by lia. do 3 f_equal. lia.
Qed.

Lemma skb_read_data skb off n :
  0 <= off -> (0 < n)%nat -> off + Z.of_nat n <= skb_len skb ->
  skb_read skb off n = Ok (slice (Z.to_nat off) n (skb_data skb)).
Proof.
  intros Ho Hn H. unfold skb_len in H. rewrite skb_read_ok by lia.
  f_equal. unfold slice, skb_data. rewrite drop_drop. do 2 f_equal. lia.
Qed.

Lemma skb_read_short skb off n :
  0 <= off -> skb_len skb < off + Z.of_nat n -> (0 < n)%nat ->
  skb_read skb off n = Fail OutOfBounds.
Proof.
  intros Ho H Hn. unfold skb_len in H. unfold skb_read.
  replace (_ <=? Z.of_nat (length _)) with false; [by rewrite andb_false_r|].
  symmetry. apply Z.leb_gt. lia.
Qed.

(** A binding of the state monad that ends well. *)
Lemma K_bind_ok {A B} (m : K A) (k : A -> K B) s a s' :
  m s = Ok (a, s') -> (x ← m; k x) s = k a s'.
Proof. intros H. unfold mbind, M_bind. by rewrite H. Qed.

Lemma K_bind_fail {A B} (m : K A) (k : A -> K B) s f :
  m s = Fail f -> (x ← m; k x) s = Fail f.
Proof. intros H. unfold mbind, M_bind. by rewrite H. Qed.

Lemma load_ok {A} `{Heap A} l (a : A) s : heap_of s !! l = Some a -> load (Some l) s = Ok (a, s).
Proof. intros Hl. unfold load. by rewrite Hl. Qed.

Lemma update_ok {A} `{Heap A} l (g : A -> A) a s :
  heap_of s !! l = Some a -> update (Some l) g s = Ok (tt, set_heap (<[l := g a]> (heap_of s)) s).
Proof. intros Hl. unfold update. by rewrite Hl. Qed.

Lemma kfree_ok {A} `{Heap A} l (a : A) s :
  heap_of s !! l = Some a -> kfree (A := A) (Some l) s = Ok (tt, set_heap (delete l (heap_of s)) s).
Proof. intros Hl. unfold kfree. by rewrite Hl. Qed.

Lemma mutex_lock_inst_ok l n k s :
  h_inst s !! l = Some (Instance n k false) ->
  mutex_lock_inst (Some l) s = Ok (tt, set_heap (<[l := Instance n k true]> (h_inst s)) s).
Proof.
  intros Hl. unfold mutex_lock_inst. erewrite K_bind_ok by (by apply load_ok). cbn [inst_lock].
  by rewrite (update_ok _ _ (Instance n k false)).
Qed.

Lemma mutex_unlock_inst_ok l n k s :
  h_inst s !! l = Some (Instance n k true) ->
  mutex_unlock_inst (Some l) s = Ok (tt, set_heap (<[l := Instance n k false]> (h_inst s)) s).
Proof.
  intros Hl. unfold mutex_unlock_inst. erewrite K_bind_ok by (by apply load_ok). cbn [inst_lock].
  by rewrite (update_ok _ _ (Instance n k true)).
Qed.

Lemma mutex_lock_inst_held l n k s :
  h_inst s !! l = Some (Instance n k true) -> mutex_lock_inst (Some l) s = Fail Deadlock.
Proof.
  intros Hl. unfold mutex_lock_inst. by erewrite K_bind_ok by (by apply load_ok).
Qed.

(** One step of straight-line code whose next operation is a primitive on a
    known object, or a call with a known result. *)
Ltac klookup := cbn; rewrite ?lookup_insert_eq; (done || eassumption || (rewrite lookup_insert_ne by done; done)).
Ltac kprim :=
  lazymatch goal with
  | |- load _ _ = _ => eapply load_ok; klookup
  | |- update _ _ _ = _ => eapply update_ok; klookup
  | |- kfree _ _ = _ => eapply kfree_ok; klookup
  | |- mutex_lock_inst _ _ = _ => eapply mutex_lock_inst_ok; klookup
  | |- mutex_unlock_inst _ _ = _ => eapply mutex_unlock_inst_ok; klookup
  | |- _ => first [ reflexivity | eassumption ]
  end.
Ltac kstep := erewrite K_bind_ok; [| solve [kprim]]; cbn beta iota.
Tactic Notation "kcall" uconstr(H) := erewrite K_bind_ok; [| eapply H; try eassumption]; cbn beta iota.
