(* ===== verification/KInstance.v ===== *)
(** * The kernel module: instances and interfaces

    [awds_module.c], "Helper functions for manipulating data structures": the
    array of awds instances, one per bound socket, and the doubly linked list of
    interfaces of each socket, with every mutex operation of the code. *)

From S2P Require Import Prelude Bytes KState.

Section instances.
Context `{LinuxKernel}.

Definition kmalloc {A} `{Heap A} (a : A) : K ptr :=
  ok ← ask kmalloc_ok; emit CKmalloc;; if (ok : bool) then new_obj a else mret null.

(** [awds_instances[i]], with the bounds of the array. *)
Definition instances_at (i : Z) : K ptr := fun s =>
  if 0 <=? i then
    match awds_instances s !! Z.to_nat i with Some p => Ok (p, s) | None => Fail OutOfBounds end
  else Fail OutOfBounds.

Definition instances_put (i : Z) (p : ptr) : K unit := fun s =>
  if (0 <=? i) && (i <? Z.of_nat (length (awds_instances s)))
  then Ok (tt, set_instances (<[Z.to_nat i := p]> (awds_instances s)) s) else Fail OutOfBounds.

Definition set_interf (p : ptr) (k : awds_sock) : awds_sock :=
  Sock (sk_ifcount k) p (sk_table k) (sk_err k) (sk_shutdown k) (sk_rcvtimeo k) (sk_receive_queue k).
Definition set_table (p : ptr) (k : awds_sock) : awds_sock :=
  Sock (sk_ifcount k) (sk_interf k) p (sk_err k) (sk_shutdown k) (sk_rcvtimeo k) (sk_receive_queue k).
Definition add_ifcount (d : Z) (k : awds_sock) : awds_sock :=
  Sock (sk_ifcount k + d) (sk_interf k) (sk_table k) (sk_err k) (sk_shutdown k) (sk_rcvtimeo k) (sk_receive_queue k).
Definition if_set_next (p : ptr) (f : awds_interface) : awds_interface :=
  Interface p (if_prev f) (if_index f) (if_dev f) (if_addr f).
Definition if_set_prev (p : ptr) (f : awds_interface) : awds_interface :=
  Interface (if_next f) p (if_index f) (if_dev f) (if_addr f).
Definition if_set_index (n : Z) (f : awds_interface) : awds_interface :=
  Interface (if_next f) (if_prev f) n (if_dev f) (if_addr f).
Definition if_set_addr (p : ptr) (f : awds_interface) : awds_interface :=
  Interface (if_next f) (if_prev f) (if_index f) (if_dev f) p.

(** ** Interfaces *)

(** [while(interface)] of [__awds_find_interface] *)
Fixpoint find_interface_loop (fuel : nat) (p : ptr) (dev : Z) : K ptr :=
  match p with
  | None => mret null
  | Some _ =>
      match fuel with
      | O => fail OutOfFuel
      | S fuel =>
          f ← load p;
          if decide (if_dev f = Some dev) then mret p
          else find_interface_loop fuel (if_next f) dev
      end
  end.

Definition __awds_find_interface (instance : ptr) (dev : Z) : K ptr :=
  i ← load instance;
  if inst_lock i then
    k ← load (inst_sock i);
    n ← gets (fun s => size (h_if s));
    find_interface_loop (S n) (sk_interf k) dev
  else mret null.

Definition awds_find_interface (instance : ptr) (dev : Z) : K ptr :=
  mutex_lock_inst instance;;
  interface ← __awds_find_interface instance dev;
  mutex_unlock_inst instance;;
  mret interface.

(** [while(interface_iter->next)] of [__awds_add_interface]: [inl r] is an early
    return, [inr (last, number_if)] the end of the list. *)
Fixpoint add_interface_loop (fuel : nat) (iter : ptr) (interface : ptr) (number_if : Z) :
    K (Z + ptr * Z) :=
  match fuel with
  | O => fail OutOfFuel
  | S fuel =>
      f ← load iter;
      match if_next f with
      | None => mret (inr (iter, number_if))
      | Some _ =>
          if decide (iter = interface) then mret (inl (- EAWDSINVAL))
          else add_interface_loop fuel (if_next f) interface (number_if + 1)
      end
  end.

Definition __awds_add_interface (instance interface : ptr) : K Z :=
  i ← load instance;
  if inst_lock i then
    match interface with
    | Some _ =>
        k ← load (inst_sock i);
        r ← match sk_interf k with
            | Some _ =>
                if decide (sk_interf k = interface) then mret (inl (- EAWDSINVAL)) else
                n ← gets (fun s => size (h_if s));
                r ← add_interface_loop (S n) (sk_interf k) interface 0;
                match r with
                | inl e => mret (inl e)
                | inr (last, number_if) =>
                    update last (if_set_next interface);;
                    update interface (if_set_prev last);;
                    mret (inr number_if)
                end
            | None => update (inst_sock i) (set_interf interface);; mret (inr 0)
            end;
        match r : Z + Z with
        | inl e => mret e
        | inr number_if =>
            update interface (if_set_index number_if);;
            update (inst_sock i) (add_ifcount 1);;
            mret number_if
        end
    | None => mret (- EAWDSINVAL)
    end
  else mret (- EAWDSNOMUTEX).

Definition awds_add_interface (instance iface : ptr) : K Z :=
  mutex_lock_inst instance;;
  ret ← __awds_add_interface instance iface;
  mutex_unlock_inst instance;;
  mret ret.

Definition __awds_del_interface (instance interface : ptr) : K Z :=
  i ← load instance;
  if inst_lock i then
    match interface with
    | Some _ =>
        f ← load interface;
        match if_prev f with Some _ => update (if_prev f) (if_set_next (if_next f)) | None => mret tt end;;
        match if_next f with Some _ => update (if_next f) (if_set_prev (if_prev f)) | None => mret tt end;;
        update interface (fun f => Interface null null (-1) None (if_addr f));;
        match if_dev f with Some dev => emit (CDevPut dev) | None => fail NullDeref end;;
        kfree (A := awds_interface) interface;;
        update (inst_sock i) (add_ifcount (-1));;
        mret 0
    | None => mret 0
    end
  else mret (- EAWDSNOMUTEX).

Definition awds_del_interface (instance iface : ptr) : K Z :=
  mutex_lock_inst instance;;
  ret ← __awds_del_interface instance iface;
  mutex_unlock_inst instance;;
  mret ret.

(** The early return of the source leaves [instance->lock] held. *)
Definition awds_release_interface (instance iface : ptr) : K Z :=
  mutex_lock_inst instance;;
  match iface with
  | Some _ => __awds_del_interface instance iface;; mret 0
  | None => mutex_unlock_inst instance;; mret (- EAWDSINVAL)
  end.

Definition awds_create_interface (instance : ptr) (addr : sockaddr_awds) : K Z :=
  odev ← ask (fun t => dev_get_by_index t (sa_ifindex addr));
  emit (CDevGet (sa_ifindex addr));;
  match odev with
  | Some dev =>
      interface ← awds_find_interface instance dev;
      match interface with
      | Some _ => emit (CDevPut dev);; mret (- EADDRINUSE)
      | None =>
          interface ← kmalloc (Interface null null (sa_ifindex addr) (Some dev) null);
          match interface with
          | Some _ =>
              a ← kmalloc addr;
              match a with
              | Some _ =>
                  update interface (if_set_addr a);;
                  ret ← awds_add_interface instance interface;
                  (if decide (ret = 0) then mret 0 else awds_release_interface instance interface);;
                  mret ret
              | None =>
                  kfree (A := awds_interface) interface;; emit (CDevPut dev);; mret (- ENOBUFS)
              end
          | None => emit (CDevPut dev);; mret (- ENOBUFS)
          end
      end
  | None => mret (- EAWDSINVAL)
  end.

(** ** The instance array *)

(** The loop of [__awds_add_instance] compares [awds_instances[cur_index]] in
    every round. *)
Fixpoint add_instance_loop (rounds : nat) (cur_index : Z) (instance : ptr) : K bool :=
  match rounds with
  | O => mret false
  | S rounds =>
      p ← instances_at cur_index;
      if decide (p = instance) then mret true else add_instance_loop rounds cur_index instance
  end.

Definition __awds_add_instance (instance : ptr) : K Z :=
  locked ← gets awds_instance_mutex;
  if (locked : bool) then
    match instance with
    | Some _ =>
        cur_index ← gets awds_instance_index;
        known ← add_instance_loop (Z.to_nat (cur_index + 1)) cur_index instance;
        if (known : bool) then mret (- EAWDSEXIST) else
        if cur_index =? MAX_AWDS_INDEX then mret (- EAWDSFULL) else
        modify (set_index (cur_index + 1));;
        update instance (fun i => Instance (cur_index + 1) (inst_sock i) (inst_lock i));;
        instances_put (cur_index + 1) instance;;
        mret 0
    | None => mret (- EAWDSINVAL)
    end
  else mret (- EAWDSNOMUTEX).

Definition awds_add_instance (instance : ptr) : K Z :=
  mutex_lock_global;;
  ret ← __awds_add_instance instance;
  mutex_unlock_global;;
  mret ret.

Fixpoint del_instance_loop (rounds : nat) (i_count : Z) (instance : ptr) (sk : ptr) : K Z :=
  match rounds with
  | O => mret (- EAWDSINVAL)
  | S rounds =>
      p ← instances_at i_count;
      if decide (p = instance) then
        instances_put i_count null;;
        update instance (fun i => Instance (-1) (inst_sock i) (inst_lock i));;
        match sk with
        | Some l =>
            update instance (fun i => Instance (inst_index i) null (inst_lock i));;
            emit (CSockPut l)
        | None => mret tt
        end;;
        n ← gets awds_instance_index;
        modify (set_index (n - 1));;
        mret 0
      else del_instance_loop rounds (i_count + 1) instance sk
  end.

Definition __awds_del_instance (instance : ptr) : K Z :=
  i ← load instance;
  locked ← gets awds_instance_mutex;
  if (locked : bool) then
    cur_index ← gets awds_instance_index;
    del_instance_loop (Z.to_nat (cur_index + 1)) 0 instance (inst_sock i)
  else mret (- EAWDSNOMUTEX).

Definition awds_del_instance (instance : ptr) : K Z :=
  mutex_lock_global;;
  ret ← __awds_del_instance instance;
  mutex_unlock_global;;
  mret ret.

Definition __awds_create_instance (sk : ptr) (addr : option sockaddr_awds) : K Z :=
  match sk, addr with
  | Some _, Some addr =>
      n ← gets awds_instance_index;
      if MAX_AWDS_INDEX <=? n then modify (set_index MAX_AWDS_INDEX);; mret (- ENOBUFS) else
      instance ← kmalloc (Instance (-1) sk false);
      match instance with
      | Some _ =>
          update sk (set_interf null);;
          update sk (set_table null);;
          ret ← awds_create_interface instance addr;
          (if ret =? 0 then _r ← __awds_add_instance instance; mret tt
           else kfree (A := awds_instance) instance);;
          mret ret
      | None => mret (- ENOBUFS)
      end
  | _, _ => mret (- EAWDSINVAL)
  end.

(** [while(interface)] of [__awds_release_instance]: the next pointer is read
    from the interface that [awds_release_interface] has freed. *)
Fixpoint release_instance_loop (fuel : nat) (instance interface : ptr) : K Z :=
  match interface with
  | None => mret 0
  | Some _ =>
      match fuel with
      | O => fail OutOfFuel
      | S fuel =>
          ret ← awds_release_interface instance interface;
          if ret =? 0 then
            f ← load interface; release_instance_loop fuel instance (if_next f)
          else mret ret
      end
  end.

Definition __awds_release_instance (instance : ptr) : K Z :=
  locked ← gets awds_instance_mutex;
  if (locked : bool) then
    i ← load instance;
    k ← load (inst_sock i);
    update (inst_sock i) (set_interf null);;
    n ← gets (fun s => size (h_if s));
    ret ← release_instance_loop (S n) instance (sk_interf k);
    if ret =? 0 then
      ret ← __awds_del_instance instance;
      (if ret =? 0 then kfree (A := awds_instance) instance else mret tt);;
      mret ret
    else mret ret
  else mret (- EAWDSNOMUTEX).

(** ** Searching *)

Fixpoint find_index_loop (rounds : nat) (i : Z) (sk : ptr) : K Z :=
  match rounds with
  | O => mret (- EAWDSMISSING)
  | S rounds =>
      p ← instances_at i;
      inst ← load p;
      if decide (sk = inst_sock inst) then mret i else find_index_loop rounds (i + 1) sk
  end.

Definition __awds_find_instance_index_by_sock (sk : ptr) : K Z :=
  locked ← gets awds_instance_mutex;
  if (locked : bool) then
    n ← gets awds_instance_index;
    find_index_loop (Z.to_nat (n + 1)) 0 sk
  else mret (- EAWDSNOMUTEX).

Definition awds_find_instance_index_by_sock (sk : ptr) : K Z :=
  mutex_lock_global;;
  res ← __awds_find_instance_index_by_sock sk;
  mutex_unlock_global;;
  mret res.

Definition __awds_find_instance_by_sock (sk : ptr) : K ptr :=
  locked ← gets awds_instance_mutex;
  if (locked : bool) then
    index ← __awds_find_instance_index_by_sock sk;
    if index =? - EAWDSMISSING then mret null else instances_at index
  else mret null.

Definition awds_find_instance_by_sock (sk : ptr) : K ptr :=
  mutex_lock_global;;
  instance ← __awds_find_instance_by_sock sk;
  mutex_unlock_global;;
  mret instance.

Fixpoint find_by_dev_loop (rounds : nat) (i : Z) (dev : Z) : K ptr :=
  match rounds with
  | O => mret null
  | S rounds =>
      p ← instances_at i;
      interface ← awds_find_interface p dev;
      match interface with
      | Some _ => instances_at i
      | None => find_by_dev_loop rounds (i + 1) dev
      end
  end.

Definition __awds_find_instance_by_dev (dev : Z) : K ptr :=
  locked ← gets awds_instance_mutex;
  if (locked : bool) then
    n ← gets awds_instance_index;
    find_by_dev_loop (Z.to_nat (n + 1)) 0 dev
  else mret null.

(** The search result is discarded. *)
Definition awds_find_instance_by_dev (dev : Z) : K ptr :=
  mutex_lock_global;;
  _instance ← __awds_find_instance_by_dev dev;
  mutex_unlock_global;;
  mret null.

(** ** Socket life cycle *)

Definition awds_create_socket : K (Z * ptr) :=
  ok ← ask sk_alloc_ok;
  emit CSkAlloc;;
  if (ok : bool) then sk ← new_obj (Sock 0 null null 0 false 0 []); mret (0, sk)
  else fail NullDeref.   (* [sock_init_data(sock, 0)] *)

Definition awds_socket_bind (sk : ptr) (addr : sockaddr_awds) : K Z :=
  mutex_lock_global;;
  instance ← __awds_find_instance_by_sock sk;
  res ← match instance with
        | Some _ => awds_create_interface instance addr
        | None => __awds_create_instance sk (Some addr)
        end;
  mutex_unlock_global;;
  mret res.

Definition awds_socket_release (sk : ptr) : K Z :=
  mutex_lock_global;;
  instance ← __awds_find_instance_by_sock sk;
  match instance with
  | Some _ => _ret ← __awds_release_instance instance; mret tt
  | None => match sk with Some l => emit (CSockPut l) | None => fail NullDeref end
  end;;
  mutex_unlock_global;;
  mret 0.

End instances.
