(* ===== verification/KForward.v ===== *)
(** * The kernel module: packets

    The receive path of [awds_module.c]: statistics, the binary search in the
    routing table, retransmission to the next hop, the table of known unicast
    sources, local delivery and the packet handler [awds_packet_rcv]. *)

From S2P Require Import Prelude Bytes KState KInstance.

(** ** Statistics *)

Definition incr (n : Z) : Z := u32 (n + 1).

Definition count_total (t : awds_packet_statistic) : awds_packet_statistic :=
  let '(Stats tp tu tb tf tw lu lf fu ft fm fp tx) := t in
  Stats (incr tp) tu tb tf tw lu lf fu ft fm fp tx.
Definition count_unicast (t : awds_packet_statistic) : awds_packet_statistic :=
  let '(Stats tp tu tb tf tw lu lf fu ft fm fp tx) := t in
  Stats tp (incr tu) tb tf tw lu lf fu ft fm fp tx.
Definition count_beacon (t : awds_packet_statistic) : awds_packet_statistic :=
  let '(Stats tp tu tb tf tw lu lf fu ft fm fp tx) := t in
  Stats tp tu (incr tb) tf tw lu lf fu ft fm fp tx.
Definition count_flood (t : awds_packet_statistic) : awds_packet_statistic :=
  let '(Stats tp tu tb tf tw lu lf fu ft fm fp tx) := t in
  Stats tp tu tb (incr tf) tw lu lf fu ft fm fp tx.
Definition count_foreward (t : awds_packet_statistic) : awds_packet_statistic :=
  let '(Stats tp tu tb tf tw lu lf fu ft fm fp tx) := t in
  Stats tp tu tb tf (incr tw) lu lf fu ft fm fp tx.
Definition count_local (t : awds_packet_statistic) : awds_packet_statistic :=
  let '(Stats tp tu tb tf tw lu lf fu ft fm fp tx) := t in
  Stats tp tu tb tf tw (incr lu) lf fu ft fm fp tx.
Definition count_local_failed (t : awds_packet_statistic) : awds_packet_statistic :=
  let '(Stats tp tu tb tf tw lu lf fu ft fm fp tx) := t in
  Stats tp tu tb tf tw lu (incr lf) fu ft fm fp tx.
Definition count_forwarded (t : awds_packet_statistic) : awds_packet_statistic :=
  let '(Stats tp tu tb tf tw lu lf fu ft fm fp tx) := t in
  Stats tp tu tb tf tw lu lf (incr fu) ft fm fp tx.
Definition count_flood_type (ty : Z) (t : awds_packet_statistic) : awds_packet_statistic :=
  let '(Stats tp tu tb tf tw lu lf fu ft fm fp tx) := t in
  if ty =? FLOOD_PACKET_TOPO then Stats tp tu tb tf tw lu lf fu (incr ft) fm fp tx
  else if ty =? FLOOD_PACKET_MCAST then Stats tp tu tb tf tw lu lf fu ft (incr fm) fp tx
  else if ty =? FLOOD_PACKET_PRIV then Stats tp tu tb tf tw lu lf fu ft fm (incr fp) tx
  else t.
Definition count_tx (t : awds_packet_statistic) : awds_packet_statistic :=
  let '(Stats tp tu tb tf tw lu lf fu ft fm fp tx) := t in
  Stats tp tu tb tf tw lu lf fu ft fm fp (incr tx).

(** [if(likely(statistics==1)) awds_stats.x++] *)
Definition count (g : awds_packet_statistic -> awds_packet_statistic) : K unit :=
  st ← gets statistics;
  if st =? 1 then modify (fun s => set_stats (g (awds_stats s)) s) else mret tt.

Definition awds_count_packet (skb : sk_buff) (t : awds_packet_statistic) :
    outcome awds_packet_statistic :=
  if skb_len skb <? Z.of_nat ETH_ALEN + 3 then Ok t else
  let t := count_total t in
  ty ← skb_byte skb 0;
  if ty =? PACKET_BEACON then Ok (count_beacon t)
  else if ty =? PACKET_FLOOD then
    let t := count_flood t in
    if AWDS_FLOODTYPE_OFFSET <=? skb_len skb then
      fty ← skb_byte skb AWDS_FLOODTYPE_OFFSET; Ok (count_flood_type fty t)
    else Ok t
  else if ty =? PACKET_UNICAST then Ok (count_unicast t)
  else if ty =? PACKET_FOREWARD then Ok (count_foreward t)
  else Ok t.

Definition awds_get_packet_type (skb : sk_buff) : outcome Z :=
  if skb_len skb <? Z.of_nat ETH_ALEN + 3 then Ok (-1) else skb_byte skb 0.

(** ** The routing table

    The table is the byte string user space has installed: entries of
    [dest] and [nexthop], six bytes each. *)

Definition entry_size : nat := 12.

Definition entry_dest (tbl : list Z) (i : Z) : outcome (list Z) :=
  if (0 <=? i) && ((i + 1) * Z.of_nat entry_size <=? Z.of_nat (length tbl))
  then Ok (slice (entry_size * Z.to_nat i) ETH_ALEN tbl) else Fail OutOfBounds.
Definition entry_nexthop (tbl : list Z) (i : Z) : outcome (list Z) :=
  if (0 <=? i) && ((i + 1) * Z.of_nat entry_size <=? Z.of_nat (length tbl))
  then Ok (slice (entry_size * Z.to_nat i + ETH_ALEN) ETH_ALEN tbl) else Fail OutOfBounds.

Fixpoint check_routing_loop (fuel : nat) (tbl : list Z) (dest : list Z) (head end_ : Z) :
    outcome (option Z) :=
  if head =? end_ then Ok None else
  match fuel with
  | O => Fail OutOfFuel
  | S fuel =>
      let mid := head + Z.quot (end_ - head) 2 in
      d ← entry_dest tbl mid;
      let cmp := memcmp d dest in
      if cmp =? 0 then Ok (Some mid)
      else if cmp <? 0 then check_routing_loop fuel tbl dest (mid + 1) end_
      else check_routing_loop fuel tbl dest head mid
  end.

(** The search of [__awds_check_routing] in a table of [count] entries. *)
Definition search_routing (tbl : option (list Z)) (count : Z) (skb : sk_buff) : outcome (option Z) :=
  if count =? 0 then Ok None else
  dest ← skb_read skb AWDS_DEST_OFFSET ETH_ALEN;
  match tbl with
  | Some t => check_routing_loop (Z.to_nat count) t dest 0 (s32 count)
  | None => Fail NullDeref
  end.

Section packets.
Context `{LinuxKernel}.

Definition __awds_check_routing (skb : sk_buff) : K (option Z) :=
  tbl ← gets awds_routing;
  count ← gets awds_routing_count;
  lift (search_routing tbl count skb).

Definition awds_check_routing (skb : sk_buff) : K (option Z) :=
  mutex_lock_global;;
  entry ← __awds_check_routing skb;
  mutex_unlock_global;;
  mret entry.

(** ** Sending *)

Definition awds_send (skb : sk_buff) : K Z :=
  up ← ask (fun t => dev_up t (skb_dev skb));
  if (up : bool) then
    err ← ask (fun t => dev_queue_xmit t skb);
    emit (CXmit skb);;
    mret (if 0 <? err then net_xmit_errno err else err)
  else emit (CKfreeSkb skb);; mret (- ENETDOWN).

(** The edits of the frame in [__awds_do_retransmit]: TTL, Ethernet source and
    destination, next hop.  [None] when the TTL has run out. *)
Definition retransmit_frame (skb : sk_buff) (entry_nexthop : outcome (list Z)) :
    outcome (option sk_buff) :=
  ttl ← skb_byte skb AWDS_TTL_OFFSET;
  let ttl := u8 (ttl - 1) in
  if ttl =? 0 then Ok None else
  skb ← skb_write skb AWDS_TTL_OFFSET [ttl];
  own ← skb_read skb (- Z.of_nat ETH_HLEN) ETH_ALEN;
  skb ← skb_write skb (- Z.of_nat ETH_ALEN - 2) own;
  nexthop ← entry_nexthop;
  skb ← skb_write skb (- Z.of_nat ETH_HLEN) nexthop;
  skb ← skb_write skb AWDS_NEXTHOP_OFFSET nexthop;
  skb ← skb_push skb ETH_HLEN;
  Ok (Some skb).

(** The result and the buffer as the function leaves it. *)
Definition __awds_do_retransmit (skb : sk_buff) (entry : Z) : K (Z * sk_buff) :=
  tbl ← gets awds_routing;
  frame ← lift (retransmit_frame skb (t ← of_option NullDeref tbl; entry_nexthop t entry));
  match frame with
  | None => mret (- EINVAL, skb)
  | Some skb => err ← awds_send skb; mret (err, skb)
  end.

Definition awds_do_retransmit (skb : sk_buff) (entry : Z) : K (Z * sk_buff) :=
  mutex_lock_global;;
  r ← __awds_do_retransmit skb entry;
  mutex_unlock_global;;
  mret r.

(** ** The table of unicast sources *)

Definition uc_set_prev (p : ptr) (u : awds_uc_dest_table) : awds_uc_dest_table :=
  UcDest p (uc_next u) (uc_mac u) (uc_mac_string u) (uc_time u).
Definition uc_set_next (p : ptr) (u : awds_uc_dest_table) : awds_uc_dest_table :=
  UcDest (uc_prev u) p (uc_mac u) (uc_mac_string u) (uc_time u).
Definition uc_set_time (t : Z) (u : awds_uc_dest_table) : awds_uc_dest_table :=
  UcDest (uc_prev u) (uc_next u) (uc_mac u) (uc_mac_string u) t.

(** [while(sk->table->prev)] *)
Fixpoint rewind_loop (fuel : nat) (sk : ptr) : K unit :=
  match fuel with
  | O => fail OutOfFuel
  | S fuel =>
      k ← load sk;
      u ← load (sk_table k);
      match uc_prev u with
      | None => mret tt
      | Some _ => update sk (set_table (uc_prev u));; rewind_loop fuel sk
      end
  end.

(** A fresh element; its members are assigned before they are read. *)
Definition uc_fresh : awds_uc_dest_table := UcDest null null [] [] 0.

Definition awds_instert_unicast_table (sk : ptr) (skb : sk_buff) : K unit :=
  k ← load sk;
  ok ← match sk_table k with
       | Some _ =>
           n ← gets (fun s => size (h_uc s));
           rewind_loop (S n) sk;;
           k ← load sk;
           p ← kmalloc uc_fresh;
           update (sk_table k) (uc_set_prev p);;
           match p with
           | Some _ => update p (uc_set_next (sk_table k));; update sk (set_table p);; mret true
           | None => mret false
           end
       | None =>
           p ← kmalloc uc_fresh;
           update sk (set_table p);;
           match p with
           | Some _ => update p (uc_set_next null);; mret true
           | None => mret false
           end
       end;
  if (ok : bool) then
    k ← load sk;
    mac ← lift (skb_read skb (Z.of_nat AWDS_HLEN) ETH_ALEN);
    now ← ask current_time_sec;
    update (sk_table k) (fun u => UcDest null (uc_next u) mac (print_mac mac) now)
  else mret tt.

Definition uc_expired (now : Z) (u : awds_uc_dest_table) : bool :=
  0 <? now - uc_time u - MAX_AWDS_UC_INTERVAL.

(** [while(tbl)] of [awds_check_unicast_table]: the element found, or null. *)
Fixpoint uc_search_loop (fuel : nat) (tbl : ptr) (mac : list Z) : K ptr :=
  match tbl with
  | None => mret null
  | Some _ =>
      match fuel with
      | O => fail OutOfFuel
      | S fuel =>
          u ← load tbl;
          if memcmp (uc_mac u) mac =? 0 then mret tbl else
          now ← ask current_time_sec;
          if uc_expired now u then
            match uc_prev u with Some _ => update (uc_prev u) (uc_set_next (uc_next u)) | None => mret tt end;;
            match uc_next u with Some _ => update (uc_next u) (uc_set_prev (uc_prev u)) | None => mret tt end;;
            kfree (A := awds_uc_dest_table) tbl;;
            uc_search_loop fuel (uc_next u) mac
          else uc_search_loop fuel (uc_next u) mac
      end
  end.

Definition awds_check_unicast_table (sk : ptr) (skb : sk_buff) : K bool :=
  k ← load sk;
  if skb_len skb <? Z.of_nat AWDS_HLEN + Z.of_nat ETH_ALEN then mret false else
  mac ← lift (skb_read skb (Z.of_nat AWDS_HLEN) ETH_ALEN);
  n ← gets (fun s => size (h_uc s));
  tbl ← uc_search_loop (S n) (sk_table k) mac;
  match tbl with
  | Some _ =>
      u ← load tbl;
      now ← ask current_time_sec;
      if uc_expired now u then update tbl (uc_set_time now);; mret false else mret true
  | None => awds_instert_unicast_table sk skb;; mret false
  end.

(** ** Local delivery *)

Definition __awds_do_local_retransmit (skb : sk_buff) : K (Z * sk_buff) :=
  hw ← lift (skb_read skb (Z.of_nat AWDS_HLEN) ETH_ALEN);
  odev ← ask (fun t => dev_getbyhwaddr t hw);
  match odev with
  | Some dev =>
      emit (CDevHold dev);;
      let skb1 := skb_pull skb AWDS_HLEN in
      let '(proto, skb2) := eth_type_trans skb1 dev in
      let skb3 := SkBuff (skb_buf skb2) (skb_off skb2) dev proto in
      err ← ask (fun t => netif_rx_ni t skb3);
      emit (CNetifRx skb3);;
      emit (CDevPut dev);;
      if err =? 0 then count count_local;; mret (err, skb3)
      else
        count count_local_failed;;
        skb4 ← lift (skb_push skb3 AWDS_HLEN);
        mret (err, SkBuff (skb_buf skb4) (skb_off skb4) (skb_dev skb) (skb_protocol skb))
  | None => mret (- ENODEV, skb)
  end.

Definition awds_do_local_retransmit (skb : sk_buff) : K (Z * sk_buff) :=
  mutex_lock_global;;
  r ← __awds_do_local_retransmit skb;
  mutex_unlock_global;;
  mret r.

(** ** The packet handler *)

(** Hand the packet to user space, or free it. *)
Definition queue_to_user (sk : ptr) (skb : sk_buff) : K Z :=
  match sk with
  | None => fail NullDeref
  | Some l =>
      err ← ask (fun t => sock_queue_rcv_skb t l skb);
      emit (CQueueRcv l skb);;
      if err =? 0 then
        update sk (fun k => Sock (sk_ifcount k) (sk_interf k) (sk_table k) (sk_err k)
                              (sk_shutdown k) (sk_rcvtimeo k) (sk_receive_queue k ++ [skb]));;
        emit (CWakeUp l);; mret 0
      else emit (CKfreeSkb skb);; mret 0
  end.

(** Local delivery of a packet for this node: [(true, _)] when it is done. *)
Definition deliver_local (self : Z) (sk : ptr) (skb : sk_buff) : K (bool * sk_buff) :=
  cfg ← gets configuration;
  if (self =? 0) && negb (Z.land cfg AWDS_LOCAL_CONFIG =? 0) then
    known ← awds_check_unicast_table sk skb;
    if (known : bool) then
      r ← __awds_do_local_retransmit skb; mret (bool_decide (fst r = 0), snd r)
    else mret (false, skb)
  else mret (false, skb).

(** Forwarding of a packet for another node. *)
Definition forward (self : Z) (skb : sk_buff) : K (bool * sk_buff) :=
  entry ← __awds_check_routing skb;
  cfg ← gets configuration;
  match entry with
  | Some entry =>
      if negb (self =? 0) && negb (Z.land cfg AWDS_FORWARD_CONFIG =? 0) then
        r ← __awds_do_retransmit skb entry;
        if fst r =? 0 then count count_forwarded;; mret (true, snd r) else mret (false, snd r)
      else mret (false, skb)
  | None => mret (false, skb)
  end.

Definition awds_packet_rcv (skb : sk_buff) (dev : Z) : K Z :=
  if negb (skb_protocol skb =? ETH_P_AWDS) then mret 0 else
  instance ← __awds_find_instance_by_dev (skb_dev skb);
  match instance with
  | None => emit (CKfreeSkb skb);; mret 0
  | Some _ =>
      st ← gets statistics;
      (if st =? 1 then
         t ← gets awds_stats; t' ← lift (awds_count_packet skb t); modify (set_stats t')
       else mret tt);;
      i ← load instance;
      ty ← lift (awds_get_packet_type skb);
      if ty =? PACKET_UNICAST then
        interface ← awds_find_interface instance dev;
        f ← load interface;
        a ← load (if_addr f);
        dest ← lift (skb_read skb AWDS_DEST_OFFSET ETH_ALEN);
        let self := memcmp (sa_addr a) dest in
        r ← deliver_local self (inst_sock i) skb;
        if fst r : bool then mret 0 else
        r ← forward self (snd r);
        if fst r : bool then mret 0 else queue_to_user (inst_sock i) (snd r)
      else queue_to_user (inst_sock i) skb
  end.

End packets.
