(* ===== verification/KSocket.v ===== *)
(** * The kernel module: the socket interface

    [ioctl], [poll], [sendmsg], [recvmsg] of PF_AWDS sockets.  User memory is read
    and written through the interface [LinuxKernel]; an [int] in it is four bytes,
    least significant first, as on the i386 the module's user space is specialised
    for. *)

From S2P Require Import Prelude Bytes KState KInstance KForward.

(** ** [ioctl] numbers *)

Definition _IOC_NRBITS : Z := 8.
Definition _IOC (dir type nr size : Z) : Z :=
  Z.lor (Z.lor (Z.shiftl dir 30) (Z.shiftl type 8)) (Z.lor nr (Z.shiftl size 16)).
Definition _IOC_DIR (cmd : Z) : Z := Z.land (Z.shiftr cmd 30) 3.
Definition _IOC_TYPE (cmd : Z) : Z := Z.land (Z.shiftr cmd 8) 255.
Definition _IOC_NR (cmd : Z) : Z := Z.land cmd 255.
Definition _IOC_SIZE (cmd : Z) : Z := Z.land (Z.shiftr cmd 16) 16383.
Definition _IOC_WRITE : Z := 1.
Definition _IOC_READ : Z := 2.

Definition AIOCSRTTBL : Z := _IOC _IOC_WRITE AWDS_IOC_MAGIC 0 4.
Definition AIOCSCFGNR : Z := _IOC _IOC_WRITE AWDS_IOC_MAGIC 1 4.
Definition AIOCGCFGNR : Z := _IOC _IOC_READ AWDS_IOC_MAGIC 2 4.

(** An [int] and a [short] in memory. *)
Definition int_of_bytes (bs : list Z) : Z := s32 (be_dec (rev bs)).
Definition short_bytes (v : Z) : list Z := rev (be_enc 2 (u16 v)).

Section socket.
Context `{LinuxKernel}.

Definition user_read (addr : Z) (n : nat) : K (Z * list Z) :=
  r ← ask (fun t => copy_from_user t addr n); emit (CCopyFrom addr n);; mret r.

(** The two checks in front of the [switch]. *)
Definition ioctl_checks (cmd arg : Z) : K Z :=
  if (_IOC_TYPE cmd =? AWDS_IOC_MAGIC) && (AWDS_IOC_MAX_NR <? _IOC_NR cmd) then mret (- ENOTTY) else
  ok ← ask (fun t => access_ok t arg (_IOC_SIZE cmd));
  if negb (Z.land (_IOC_DIR cmd) _IOC_READ =? 0) || negb (Z.land (_IOC_DIR cmd) _IOC_WRITE =? 0)
  then mret (if (ok : bool) then 0 else - EFAULT) else mret 0.

Definition ioctl_set_config (arg : Z) : K Z :=
  r ← user_read arg 4;
  if negb (fst r =? 0) then mret (fst r) else
  let data := int_of_bytes (snd r) in
  cfg ← gets configuration;
  (if data =? cfg then mret tt else modify (set_configuration (swrap 16 data)));;
  mret 0.

Definition ioctl_get_config (arg : Z) : K Z :=
  cfg ← gets configuration;
  err ← ask (fun t => copy_to_user t arg (short_bytes cfg));
  emit (CCopyTo arg (short_bytes cfg));;
  mret err.

(** The new table of [data] bytes, under the mutex. *)
Definition replace_table (arg data : Z) : K Z :=
  mutex_lock_global;;
  modify (set_routing None);;                    (* kfree of the old table *)
  mem ← ask (fun t => kmalloc_bytes t (Z.to_nat data));
  emit CKmalloc;;
  match mem with
  | None => mutex_unlock_global;; mret (- ENOMEM)
  | Some junk =>
      modify (set_routing (Some junk));;
      r ← user_read (arg + 4) (Z.to_nat data);
      modify (set_routing (Some (snd r)));;
      if negb (fst r =? 0) then mutex_unlock_global;; mret 0 else
      modify (set_routing_count (Z.quot data (Z.of_nat entry_size)));;
      mutex_unlock_global;;
      mret 0
  end.

Definition ioctl_set_table (arg : Z) : K Z :=
  r ← user_read arg 4;
  if negb (fst r =? 0) then mret (fst r) else
  let data := int_of_bytes (snd r) in
  if (0 <? data) && (Z.rem data (Z.of_nat entry_size) =? 0) then replace_table arg data else mret 0.

Definition awds_socket_ioctl (cmd arg : Z) : K Z :=
  err ← ioctl_checks cmd arg;
  if negb (err =? 0) then mret err else
  if cmd =? AIOCSCFGNR then ioctl_set_config arg
  else if cmd =? AIOCGCFGNR then ioctl_get_config arg
  else if cmd =? AIOCSRTTBL then ioctl_set_table arg
  else mutex_unlock_global;; mret (- ENOIOCTLCMD).

(** ** Receiving *)

(** Sleeping: the time left and the state other contexts leave behind. *)
Variable schedule_timeout : kstate -> Z -> Z * kstate.

Definition sleep (timeo : Z) : K Z := fun s => Ok (schedule_timeout s timeo).

(** [sock_error] reads and clears the pending error. *)
Definition sock_error (sk : ptr) : K Z :=
  k ← load sk;
  update sk (fun k => Sock (sk_ifcount k) (sk_interf k) (sk_table k) 0
                        (sk_shutdown k) (sk_rcvtimeo k) (sk_receive_queue k));;
  mret (- sk_err k).

(** The result, the caller's [*err] and the remaining time. *)
Definition wait_for_packet (sk : ptr) (err timeo : Z) : K (Z * Z * Z) :=
  error ← sock_error sk;
  if negb (error =? 0) then mret (error, error, timeo) else
  k ← load sk;
  match sk_receive_queue k with
  | _ :: _ => mret (error, err, timeo)
  | [] =>
      if sk_shutdown k then mret (1, 0, timeo) else
      intr ← ask signal_pending;
      if (intr : bool) then let e := sock_intr_errno timeo in mret (e, e, timeo) else
      timeo' ← sleep timeo; mret (0, err, timeo')
  end.

Definition skb_dequeue (sk : ptr) : K (option sk_buff) :=
  k ← load sk;
  match sk_receive_queue k with
  | [] => mret None
  | skb :: q =>
      update sk (fun k => Sock (sk_ifcount k) (sk_interf k) (sk_table k) (sk_err k)
                            (sk_shutdown k) (sk_rcvtimeo k) q);;
      mret (Some skb)
  end.

(** The [do ... while] loop of [awds_socket_peek_skb]. *)
Fixpoint peek_loop (fuel : nat) (sk : ptr) (err timeo : Z) : K (option sk_buff * Z) :=
  match fuel with
  | O => fail OutOfFuel
  | S fuel =>
      skb ← skb_dequeue sk;
      match skb with
      | Some skb => mret (Some skb, err)
      | None =>
          if timeo =? 0 then mret (None, - EAGAIN) else
          w ← wait_for_packet sk err timeo;
          let '(r, err, timeo) := w : Z * Z * Z in
          if r =? 0 then peek_loop fuel sk err timeo else mret (None, err)
      end
  end.

Definition awds_socket_peek_skb (fuel : nat) (sk : ptr) (dontwait : bool) (err : Z) :
    K (option sk_buff * Z) :=
  error ← sock_error sk;
  if negb (error =? 0) then mret (None, error) else
  k ← load sk;
  peek_loop fuel sk err (if dontwait then 0 else sk_rcvtimeo k).

(** What [recvmsg] reports to its caller besides the result. *)
Record msg_out := MsgOut { msg_name : option sockaddr_awds; msg_trunc : bool }.

Definition awds_socket_recvmsg (fuel : nat) (sk : ptr) (total_len : Z)
    (dontwait trunc : bool) : K (Z * msg_out) :=
  instance ← awds_find_instance_by_sock sk;
  k ← load sk;
  if sk_ifcount k =? 0 then mret (- EINVAL, MsgOut None false) else
  p ← awds_socket_peek_skb fuel sk dontwait 0;
  match p : option sk_buff * Z, instance with
  | (Some skb, _), Some _ =>
      interface ← awds_find_interface instance (skb_dev skb);
      name ← match interface with
             | Some _ => f ← load interface; a ← load (if_addr f); mret (Some a)
             | None => mret None
             end;
      let len := skb_len skb in
      let copied := if len <? total_len then len else total_len in
      err ← ask (fun t => skb_copy_datagram_iovec t skb copied);
      emit (CDatagram skb copied);;
      emit (CKfreeSkb skb);;
      let out := MsgOut name (total_len <? len) in
      if negb (err =? 0) then mret (err, out) else
      mret (if trunc then len else copied, out)
  | (_, err), _ => mret (err, MsgOut None false)
  end.

(** ** Sending and polling *)

(** [skb_reserve] moves the start and the end of the (empty) data area. *)
Definition skb_reserve (skb : sk_buff) (n : nat) : sk_buff :=
  SkBuff (skb_buf skb ++ replicate n 0) (skb_off skb + n) (skb_dev skb) (skb_protocol skb).

Definition awds_socket_sendmsg (name : option sockaddr_awds) (total_len : nat) : K Z :=
  match name with
  | None => mret (- EINVAL)
  | Some addr =>
      if negb (sa_family addr =? PF_AWDS) then mret (- EINVAL) else
      odev ← ask (fun t => dev_get_by_index t (sa_ifindex addr));
      emit (CDevGet (sa_ifindex addr));;
      match odev with
      | None => mret (- ENXIO)
      | Some dev =>
          r ← ask (fun t => sock_alloc_send_skb t (total_len + reserved_space dev));
          emit (CAllocSkb (total_len + reserved_space dev));;
          match r with
          | inl err => emit (CDevPut dev);; mret err
          | inr skb =>
              let skb := skb_reserve skb (reserved_space dev) in
              let '(err, skb) := dev_hard_header skb dev ETH_P_AWDS (sa_addr addr) (Z.of_nat total_len) in
              if err <? 0 then emit (CKfreeSkb skb);; emit (CDevPut dev);; mret err else
              c ← ask (fun t => memcpy_fromiovec t total_len);
              (* [skb_put] *)
              let skb := skb_with_buf skb (skb_buf skb ++ snd c) in
              if fst c <? 0 then emit (CKfreeSkb skb);; emit (CDevPut dev);; mret (fst c) else
              err ← awds_send (SkBuff (skb_buf skb) (skb_off skb) dev ETH_P_AWDS);
              emit (CDevPut dev);;
              if negb (err =? 0) then mret err else
              count count_tx;; mret (Z.of_nat total_len)
          end
      end
  end.

Definition POLLIN : Z := 1.
Definition POLLOUT : Z := 4.
Definition POLLERR : Z := 8.
Definition POLLRDNORM : Z := 64.
Definition POLLWRNORM : Z := 256.
Definition POLLWRBAND : Z := 512.

(** [error_queue] and [writeable] are the state of the socket layer. *)
Definition awds_socket_poll (sk : ptr) (error_queue_empty writeable : bool) : K Z :=
  k ← load sk;
  let m1 := if negb (sk_err k =? 0) || negb error_queue_empty then POLLERR else 0 in
  let m2 := if negb (bool_decide (sk_receive_queue k = [])) || sk_shutdown k
            then Z.lor m1 (Z.lor POLLIN POLLRDNORM) else m1 in
  mret (if writeable then Z.lor m2 (Z.lor (Z.lor POLLOUT POLLWRNORM) POLLWRBAND) else m2).

End socket.
