(* ===== verification/KRouteThms.v ===== *)
(** * The kernel module: correctness of the forwarding path

    The routing table as the list of its entries, and the theorems on the binary
    search, the retransmitted frame and the statistics. *)

From S2P Require Import Prelude Bytes KState KInstance KForward.

(** ** The table as a list of entries *)

Definition table_of (es : list (list Z * list Z)) : list Z :=
  concat (map (fun e => e.1 ++ e.2) es).

Definition mac_ok (m : list Z) : Prop := length m = ETH_ALEN /\ bytes m.
Definition entry_ok (e : list Z * list Z) : Prop := mac_ok e.1 /\ mac_ok e.2.

(** Strictly ascending destinations, in the order of [memcmp]. *)
Definition table_sorted (es : list (list Z * list Z)) : Prop :=
  forall i j e f, (i < j)%nat -> es !! i = Some e -> es !! j = Some f -> be_dec e.1 < be_dec f.1.

Lemma entry_ok_length e : entry_ok e -> length (e.1 ++ e.2) = entry_size.
Proof. intros [[L1 _] [L2 _]]. rewrite length_app, L1, L2. done. Qed.

Lemma table_length es :
  Forall entry_ok es -> length (table_of es) = (entry_size * length es)%nat.
Proof.
  induction 1 as [|e es He Hes IH]; [done|].
  unfold table_of in *. cbn [map concat]. rewrite length_app, IH, entry_ok_length by done.
  cbn [length]. lia.
Qed.

Lemma table_entry es i e :
  Forall entry_ok es -> es !! i = Some e ->
  slice (entry_size * i) entry_size (table_of es) = e.1 ++ e.2.
Proof.
  intros Hes. revert i. induction Hes as [|x es Hx Hes IH]; intros i Hi; [done|].
  unfold table_of. cbn [map concat]. fold (table_of es).
  destruct i as [|i].
  - injection Hi as ->. unfold slice. rewrite Nat.mul_0_r, drop_0.
    rewrite <- (entry_ok_length e Hx). apply take_app_length.
  - unfold slice. rewrite drop_app_ge by (rewrite entry_ok_length by done; lia).
    rewrite entry_ok_length by done.
    replace (entry_size * S i - entry_size)%nat with (entry_size * i)%nat by lia.
    by apply IH.
Qed.

Lemma slice_slice {A} o n o' n' (l : list A) :
  (o' + n' <= n)%nat -> slice o' n' (slice o n l) = slice (o + o') n' l.
Proof.
  intros. apply list_eq. intros i. unfold slice. destruct (decide (i < n')%nat).
  - rewrite !lookup_take_lt, !lookup_drop, lookup_take_lt, lookup_drop by lia. f_equal. lia.
  - rewrite !lookup_take_ge by lia. done.
Qed.

Lemma entry_bounds es i e :
  Forall entry_ok es -> es !! i = Some e ->
  ((0 <=? Z.of_nat i) && ((Z.of_nat i + 1) * Z.of_nat entry_size <=? Z.of_nat (length (table_of es)))) = true.
Proof.
  intros Hes Hi. rewrite table_length by done. apply lookup_lt_Some in Hi.
  apply andb_true_intro. split; apply Z.leb_le; unfold entry_size; lia.
Qed.

Lemma entry_dest_ok es i e :
  Forall entry_ok es -> es !! i = Some e -> entry_dest (table_of es) (Z.of_nat i) = Ok e.1.
Proof.
  intros Hes Hi. unfold entry_dest. rewrite (entry_bounds es i e) by done.
  pose proof (table_entry es i e Hes Hi) as T.
  assert (entry_ok e) as [[L1 _] _] by (by eapply Forall_lookup_1).
  apply (f_equal (slice 0 6)) in T. rewrite slice_slice in T by (unfold entry_size; lia).
  rewrite Nat.add_0_r in T. rewrite Nat2Z.id. unfold ETH_ALEN in *. rewrite T.
  unfold slice. rewrite drop_0, <- L1, take_app_length. done.
Qed.

Lemma entry_nexthop_ok es i e :
  Forall entry_ok es -> es !! i = Some e -> entry_nexthop (table_of es) (Z.of_nat i) = Ok e.2.
Proof.
  intros Hes Hi. unfold entry_nexthop. rewrite (entry_bounds es i e) by done.
  pose proof (table_entry es i e Hes Hi) as T.
  assert (entry_ok e) as [[L1 _] [L2 _]] by (by eapply Forall_lookup_1).
  apply (f_equal (slice 6 6)) in T. rewrite slice_slice in T by (unfold entry_size; lia).
  rewrite Nat2Z.id. unfold ETH_ALEN in *. rewrite T.
  unfold slice. rewrite <- L1, drop_app_length, L1, take_ge by lia. done.
Qed.

(** ** The binary search *)

Section search.
Context (es : list (list Z * list Z)) (dest : list Z).
Hypothesis Hes : Forall entry_ok es.
Hypothesis Hsorted : table_sorted es.
Hypothesis Hdest : mac_ok dest.

(** Everything before [lo] is smaller than [dest] and everything from [hi] on
    is larger. *)
Definition search_inv (lo hi : nat) : Prop :=
  (lo <= hi <= length es)%nat /\
  (forall i e, (i < lo)%nat -> es !! i = Some e -> be_dec e.1 < be_dec dest) /\
  (forall i e, (hi <= i)%nat -> es !! i = Some e -> be_dec dest < be_dec e.1).

(** The result: the position of [dest], if it is in the table. *)
Definition is_result (r : option Z) : Prop :=
  match r with
  | Some z => exists i e, z = Z.of_nat i /\ es !! i = Some e /\ e.1 = dest
  | None => forall e, e ∈ es -> e.1 <> dest
  end.

Lemma search_inv_mid lo hi i e :
  search_inv lo hi -> (lo <= i < hi)%nat -> es !! i = Some e ->
  (be_dec e.1 < be_dec dest -> search_inv (S i) hi) /\
  (be_dec dest < be_dec e.1 -> search_inv lo i).
Proof.
  intros (B & L & R) Hi He. split; intros Hlt; (split; [lia|split]).
  - intros j f Hj Hf. destruct (decide (j = i)) as [->|]; [congruence|].
    pose proof (Hsorted j i f e ltac:(lia) Hf He). lia.
  - exact R.
  - exact L.
  - intros j f Hj Hf. destruct (decide (j = i)) as [->|]; [congruence|].
    pose proof (Hsorted i j e f ltac:(lia) He Hf). lia.
Qed.

Lemma search_inv_none lo : search_inv lo lo -> is_result None.
Proof.
  intros (_ & L & R) e He Heq. apply list_elem_of_lookup in He as [i He].
  destruct (decide (i < lo)%nat) as [Hi|Hi].
  - specialize (L i e Hi He). rewrite Heq in L. lia.
  - specialize (R i e ltac:(lia) He). rewrite Heq in R. lia.
Qed.

Lemma check_routing_loop_spec fuel lo hi :
  search_inv lo hi -> (hi - lo <= fuel)%nat ->
  exists r, check_routing_loop fuel (table_of es) dest (Z.of_nat lo) (Z.of_nat hi) = Ok r /\ is_result r.
Proof.
  revert lo hi. induction fuel as [|fuel IH]; intros lo hi Hinv Hf; cbn [check_routing_loop];
    pose proof Hinv as (B & _ & _).
  - assert (lo = hi) as <- by lia. rewrite Z.eqb_refl. eauto using search_inv_none.
  - destruct (Z.eqb_spec (Z.of_nat lo) (Z.of_nat hi)) as [E|E].
    { assert (lo = hi) as <- by lia. eauto using search_inv_none. }
    set (m := (lo + (hi - lo) / 2)%nat).
    assert (lo <= m < hi)%nat as Hm.
    { subst m. pose proof (Nat.div_lt (hi - lo) 2 ltac:(lia) ltac:(lia)). lia. }
    replace (Z.of_nat lo + _) with (Z.of_nat m)
      by (subst m; rewrite Z.quot_div_nonneg, Nat2Z.inj_add, Nat2Z.inj_div, Nat2Z.inj_sub by lia; done).
    destruct (lookup_lt_is_Some_2 es m ltac:(lia)) as [e He].
    rewrite (entry_dest_ok es m e) by done. cbn [mbind outcome_bind].
    assert (entry_ok e) as [[L1 B1] _] by (by eapply Forall_lookup_1).
    destruct Hdest as [Ld Bd].
    pose proof (memcmp_spec e.1 dest B1 Bd ltac:(congruence)) as C.
    destruct (search_inv_mid lo hi m e Hinv Hm He) as [Hl Hr].
    destruct (Z.eqb_spec (memcmp e.1 dest) 0) as [C0|C0].
    + exists (Some (Z.of_nat m)). split; [done|]. exists m, e. repeat split; [done|].
      rewrite C0 in C. symmetry in C. apply Z.compare_eq_iff in C.
      by apply (be_dec_inj (e.1) dest); try done; congruence.
    + destruct (Z.ltb_spec (memcmp e.1 dest) 0) as [C1|C1].
      * rewrite (proj2 (Z.compare_lt_iff _ _) C1) in C. symmetry in C.
        rewrite Z.compare_lt_iff in C.
        replace (Z.of_nat m + 1) with (Z.of_nat (S m)) by lia. apply IH; [auto|lia].
      * rewrite (proj2 (Z.compare_gt_iff _ _)) in C by lia. symmetry in C.
        rewrite Z.compare_gt_iff in C. apply IH; [auto|lia].
Qed.
End search.

(** The destination field of a packet. *)
Definition dest_of (skb : sk_buff) : list Z := slice 9 ETH_ALEN (skb_data skb).

Lemma dest_of_ok skb : bytes (skb_buf skb) -> 15 <= skb_len skb -> mac_ok (dest_of skb).
Proof.
  intros Hb Hl. unfold skb_len in Hl. split.
  - apply slice_length. unfold skb_data. rewrite length_drop. unfold ETH_ALEN. lia.
  - by apply Forall_slice, Forall_drop.
Qed.

(** The state holds the table [es]. *)
Definition has_table (s : kstate) (es : list (list Z * list Z)) : Prop :=
  awds_routing s = Some (table_of es) /\ awds_routing_count s = Z.of_nat (length es) /\
  Forall entry_ok es /\ table_sorted es /\ Z.of_nat (length es) < 2 ^ 31.

Section thms.
Context `{LinuxKernel}.

Lemma check_routing_ok s es skb :
  has_table s es -> bytes (skb_buf skb) -> 15 <= skb_len skb ->
  exists r, __awds_check_routing skb s = Ok (r, s) /\ is_result es (dest_of skb) r.
Proof.
  intros (Ht & Hc & He & Hs & Hb) Hby Hl.
  unfold __awds_check_routing, gets, lift, mbind, M_bind. cbn. rewrite Ht, Hc.
  unfold search_routing.
  destruct (Z.eqb_spec (Z.of_nat (length es)) 0) as [E|E].
  - exists None. split; [done|]. destruct es; [|cbn in E; lia]. intros e Hin.
    by apply elem_of_nil in Hin.
  - rewrite skb_read_data by (done || unfold ETH_ALEN, AWDS_DEST_OFFSET; lia). cbn [mbind outcome_bind].
    rewrite swrap_id by lia.
    destruct (check_routing_loop_spec es (dest_of skb) He Hs (dest_of_ok skb Hby Hl)
                (length es) 0 (length es)) as (r & Hr & Hres); [|lia|].
    { split; [lia|split]; [intros; lia|]. intros i e Hi Hlk.
      apply lookup_lt_Some in Hlk. lia. }
    exists r. split; [|done]. rewrite Nat2Z.id. change (Z.to_nat AWDS_DEST_OFFSET) with 9%nat.
    fold (dest_of skb). change 0 with (Z.of_nat 0). by rewrite Hr.
Qed.
End thms.

(** ** The retransmitted frame *)

(** What a forwarder may change: position and value of each byte of the new
    frame, from the old one. *)
Definition forwarded_byte (buf nexthop : list Z) (off : nat) (i : nat) : option Z :=
  if decide (off - 14 <= i < off - 8)%nat then nexthop !! (i - (off - 14))%nat          (* Ethernet destination *)
  else if decide (off - 8 <= i < off - 2)%nat then buf !! (i - 6)%nat                    (* Ethernet source *)
  else if decide (off + 15 <= i < off + 21)%nat then nexthop !! (i - (off + 15))%nat     (* next hop *)
  else if decide (i = off + 21)%nat then (fun t => u8 (t - 1)) <$> buf !! i              (* TTL *)
  else buf !! i.

Lemma retransmit_frame_spec skb nexthop t :
  (14 <= skb_off skb)%nat -> 22 <= skb_len skb -> length nexthop = ETH_ALEN ->
  skb_data skb !! 21%nat = Some t ->
  (u8 (t - 1) = 0 -> retransmit_frame skb (Ok nexthop) = Ok None) /\
  (u8 (t - 1) <> 0 -> exists skb',
     retransmit_frame skb (Ok nexthop) = Ok (Some skb') /\
     skb_off skb' = (skb_off skb - 14)%nat /\ skb_dev skb' = skb_dev skb /\
     length (skb_buf skb') = length (skb_buf skb) /\
     forall i, skb_buf skb' !! i = forwarded_byte (skb_buf skb) nexthop (skb_off skb) i).
Proof.
  intros Ho Hl Hn Ht. unfold skb_len in Hl. destruct skb as [buf off dev proto].
  cbn [skb_buf skb_off skb_dev skb_protocol] in *. unfold skb_data in Ht. cbn in Ht.
  unfold ETH_ALEN in Hn. unfold retransmit_frame.
  rewrite (skb_byte_data (SkBuff buf off dev proto)) by (unfold skb_len; cbn; unfold AWDS_TTL_OFFSET; lia).
  unfold byte_at, skb_data. cbn [skb_buf skb_off]. change (Z.to_nat AWDS_TTL_OFFSET) with 21%nat.
  rewrite Ht. cbn [mbind outcome_bind default from_option id].
  split; intros Hz.
  { by rewrite (proj2 (Z.eqb_eq _ _) Hz). }
  rewrite (proj2 (Z.eqb_neq _ _) Hz).
  rewrite lookup_drop in Ht. unfold ETH_HLEN, ETH_ALEN, AWDS_TTL_OFFSET, AWDS_NEXTHOP_OFFSET.
  set (buf1 := splice (off + 21) [u8 (t - 1)] buf).
  assert (length buf1 = length buf) as L1 by (apply splice_length; cbn; lia).
  set (buf2 := splice (off - 8) (slice (off - 14) 6 buf1) buf1).
  assert (length (slice (off - 14) 6 buf1) = 6%nat) as Ls by (apply slice_length; lia).
  assert (length buf2 = length buf) as L2 by (unfold buf2; rewrite splice_length by lia; done).
  set (buf3 := splice (off - 14) nexthop buf2).
  assert (length buf3 = length buf) as L3 by (unfold buf3; rewrite splice_length by lia; done).
  set (buf4 := splice (off + 15) nexthop buf3).
  assert (length buf4 = length buf) as L4 by (unfold buf4; rewrite splice_length by lia; done).
  exists (SkBuff buf4 (off - 14) dev proto).
  cbn [skb_buf skb_off skb_dev]. split; [|repeat split; [done|]].
  - rewrite skb_write_ok by (cbn; lia). cbn [mbind outcome_bind skb_with_buf skb_buf skb_off].
    replace (Z.to_nat (Z.of_nat off + 21)) with (off + 21)%nat by lia. fold buf1.
    rewrite skb_read_ok by (cbn; lia). cbn [mbind outcome_bind skb_with_buf skb_buf skb_off].
    replace (Z.to_nat (Z.of_nat off + - Z.of_nat 14)) with (off - 14)%nat by lia.
    rewrite skb_write_ok by (cbn; lia). cbn [mbind outcome_bind skb_with_buf skb_buf skb_off].
    replace (Z.to_nat (Z.of_nat off + (- Z.of_nat 6 - 2))) with (off - 8)%nat by lia. fold buf2.
    rewrite skb_write_ok by (cbn; lia). cbn [mbind outcome_bind skb_with_buf skb_buf skb_off].
    replace (Z.to_nat (Z.of_nat off + - Z.of_nat 14)) with (off - 14)%nat by lia. fold buf3.
    rewrite skb_write_ok by (cbn; lia). cbn [mbind outcome_bind skb_with_buf skb_buf skb_off].
    replace (Z.to_nat (Z.of_nat off + 15)) with (off + 15)%nat by lia. fold buf4.
    unfold skb_push, skb_with_off, skb_with_buf. cbn [skb_off skb_buf skb_dev skb_protocol].
    rewrite (proj2 (Nat.leb_le 14 off)) by lia. done.
  - intros i. unfold forwarded_byte, buf4. rewrite splice_lookup by lia.
    unfold buf3. rewrite splice_lookup by lia. unfold buf2. rewrite splice_lookup, Ls by lia.
    rewrite Hn. repeat case_decide; try lia; try done.
    + rewrite slice_lookup by lia. unfold buf1. rewrite splice_lookup by (cbn; lia).
      cbn [length]. case_decide; [lia|]. f_equal. lia.
    + unfold buf1. rewrite splice_lookup by (cbn; lia). cbn [length].
      case_decide; [|lia]. subst i. rewrite Nat.sub_diag, Ht. done.
    + unfold buf1. rewrite splice_lookup by (cbn; lia). cbn [length]. case_decide; [lia|done].
Qed.

(** ** The search, as a claim *)

(** The binary search of [__awds_check_routing] is correct and total: on a
    sorted table and a packet that reaches the destination field it ends,
    changes nothing, and returns the entry whose destination is that of the
    packet, with its next hop, or null when the table has no such entry. *)
Theorem routing_search_correct `{LinuxKernel} s es skb :
  has_table s es -> bytes (skb_buf skb) -> 15 <= skb_len skb ->
  exists r, __awds_check_routing skb s = Ok (r, s) /\
    match r with
    | Some z => exists i nh, z = Z.of_nat i /\ es !! i = Some (dest_of skb, nh) /\
                             entry_nexthop (table_of es) z = Ok nh
    | None => dest_of skb ∉ es.*1
    end.
Proof.
  intros Ht Hb Hl. destruct (check_routing_ok s es skb Ht Hb Hl) as (r & Hr & Hres).
  exists r. split; [done|]. pose proof Ht as (_ & _ & Hok & _). destruct r as [z|]; cbn in Hres.
  - destruct Hres as (i & [d nh] & -> & Hi & Hd). cbn in Hd. subst d. exists i, nh. repeat split; try done.
    by rewrite (entry_nexthop_ok es i _ Hok Hi).
  - intros (e & He & Hin)%list_elem_of_fmap. by apply (Hres e).
Qed.

Definition example_routes : list (list Z * list Z) :=
  [([2;0;0;0;0;1], [2;0;0;0;0;4]); ([2;0;0;0;0;9], [2;0;0;0;0;5]); ([2;0;0;0;1;0], [2;0;0;0;0;4])].

Lemma example_routes_ok : Forall entry_ok example_routes /\ table_sorted example_routes.
Proof.
  split.
  - repeat (apply Forall_cons_2 || apply Forall_nil_2); split; (split; [done|]);
      repeat (apply Forall_cons_2 || apply Forall_nil_2); unfold is_byte; lia.
  - intros i j e f Hij Hi Hj. destruct i as [|[|[|i]]], j as [|[|[|j]]]; cbn in Hi, Hj; try lia; try done;
      injection Hi as <-; injection Hj as <-; done.
Qed.

Definition example_table_state : kstate :=
  set_routing_count 3 (set_routing (Some (table_of example_routes)) kstate0).
Definition example_skb : sk_buff :=
  SkBuff ([2; 2;0;0;0;0;8; 0;1; 2;0;0;0;0;9]) 0 1 ETH_P_AWDS.

Lemma routing_search_correct_witness :
  exists r, __awds_check_routing example_skb example_table_state = Ok (r, example_table_state) /\
    match r with
    | Some z => exists i nh, z = Z.of_nat i /\ example_routes !! i = Some (dest_of example_skb, nh) /\
                             entry_nexthop (table_of example_routes) z = Ok nh
    | None => dest_of example_skb ∉ example_routes.*1
    end.
Proof.
  apply (routing_search_correct (H := linux_sim (fun _ _ => [])) example_table_state example_routes example_skb).
  - destruct example_routes_ok. repeat split; done.
  - repeat (apply Forall_cons_2 || apply Forall_nil_2); unfold is_byte; lia.
  - done.
Defined.

(** ** Statistics *)

(** The total of received packets is the sum of the four types (modulo the
    width of the counters). *)
Definition stats_balanced (t : awds_packet_statistic) : Prop :=
  (rx_total_packets t - (rx_total_beacon t + rx_total_flood t + rx_total_unicast t + rx_total_foreward t))
    mod 2 ^ 32 = 0.

Lemma incr_cong a b : (incr a - b) mod 2 ^ 32 = (a + 1 - b) mod 2 ^ 32.
Proof. unfold incr, wrap. by rewrite Zminus_mod_idemp_l. Qed.

Lemma incr_cong_r a b c : (a - (incr b + c)) mod 2 ^ 32 = (a - (b + 1 + c)) mod 2 ^ 32.
Proof.
  unfold incr, wrap. rewrite (Zminus_mod a (_ + c)), Zplus_mod_idemp_l, <- Zminus_mod. done.
Qed.

(** Counting one packet in the total and in one type keeps the balance. *)
Lemma stats_balanced_count a b c d e :
  (a - (b + c + d + e)) mod 2 ^ 32 = 0 -> (incr a - (incr b + c + d + e)) mod 2 ^ 32 = 0.
Proof.
  intros Hz. rewrite incr_cong. replace (incr b + c + d + e) with (incr b + (c + d + e)) by lia.
  rewrite incr_cong_r. rewrite <- Hz. f_equal. lia.
Qed.

(** Every received packet that is long enough and has one of the four types
    is counted once in the total and once in its type: the counting never
    fails and keeps the total equal to the sum of the types, modulo 2^32. *)
Theorem count_packet_balanced skb t ty :
  18 <= skb_len skb -> skb_data skb !! 0%nat = Some ty -> 0 <= ty <= 3 -> stats_balanced t ->
  exists t', awds_count_packet skb t = Ok t' /\ stats_balanced t' /\
    rx_total_packets t' = incr (rx_total_packets t).
Proof.
  intros Hl Hty Hr Hbal. unfold awds_count_packet.
  rewrite (proj2 (Z.ltb_ge (skb_len skb) _)) by (unfold ETH_ALEN; lia).
  rewrite (skb_byte_data skb 0) by lia. unfold byte_at. change (Z.to_nat 0) with 0%nat. rewrite Hty.
  cbn [mbind outcome_bind default from_option id].
  rewrite (proj2 (Z.leb_le AWDS_FLOODTYPE_OFFSET _)) by (unfold AWDS_FLOODTYPE_OFFSET; lia).
  rewrite skb_byte_data by (unfold AWDS_FLOODTYPE_OFFSET; lia).
  destruct t as [tp tu tb tf tw lu lf fu ft fm fp tx]. unfold stats_balanced in *. cbn in Hbal |- *.
  assert (ty = 0 \/ ty = 1 \/ ty = 2 \/ ty = 3) as [-> | [-> | [-> | ->]]] by lia; cbn.
  - eexists. split; [reflexivity|]. cbn. split; [|done]. by apply stats_balanced_count.
  - eexists. split; [reflexivity|]. unfold count_flood_type.
    repeat case_match; cbn; (split; [|done]);
      (replace (tb + incr tf + tu + tw) with (incr tf + tb + tu + tw) by lia);
      apply stats_balanced_count; rewrite <- Hbal; f_equal; lia.
  - eexists. split; [reflexivity|]. cbn. split; [|done].
    replace (tb + tf + incr tu + tw) with (incr tu + tb + tf + tw) by lia.
    apply stats_balanced_count; rewrite <- Hbal; f_equal; lia.
  - eexists. split; [reflexivity|]. cbn. split; [|done].
    replace (tb + tf + tu + incr tw) with (incr tw + tb + tf + tu) by lia.
    apply stats_balanced_count; rewrite <- Hbal; f_equal; lia.
Qed.

Definition flood_skb : sk_buff := SkBuff (1 :: replicate 17 0) 0 1 ETH_P_AWDS.

Lemma count_packet_balanced_witness :
  exists t', awds_count_packet flood_skb awds_stats0 = Ok t' /\ stats_balanced t' /\
    rx_total_packets t' = incr (rx_total_packets awds_stats0).
Proof. apply (count_packet_balanced flood_skb awds_stats0 1); [done|done|lia|done]. Defined.

(** A flood packet of 17 bytes passes the length check, and the byte the
    counting reads lies behind it. *)
Lemma count_packet_reads_past_end : forall t,
  awds_count_packet (SkBuff (1 :: replicate 16 0) 0 1 ETH_P_AWDS) t = Fail OutOfBounds.
Proof. done. Qed.

(** A packet with TTL 0 is not discarded: it is sent with TTL 255. *)
Lemma retransmit_ttl_zero skb nexthop :
  (14 <= skb_off skb)%nat -> 22 <= skb_len skb -> length nexthop = ETH_ALEN ->
  skb_data skb !! 21%nat = Some 0 ->
  exists skb', retransmit_frame skb (Ok nexthop) = Ok (Some skb') /\
    skb_buf skb' !! (skb_off skb + 21)%nat = Some 255.
Proof.
  intros Ho Hl Hn Ht. destruct (retransmit_frame_spec skb nexthop 0 Ho Hl Hn Ht) as [_ Hf].
  destruct (Hf ltac:(done)) as (skb' & Hr & _ & _ & _ & Hb). exists skb'. split; [done|].
  rewrite Hb. unfold forwarded_byte. repeat (case_decide; [lia|]). case_decide; [|lia].
  unfold skb_data in Ht. rewrite lookup_drop in Ht. by rewrite Ht.
Qed.
