(* ===== verification/KBindThms.v ===== *)
(** * The kernel module: instances and interfaces are a registry of bindings

    The array of instances, the sockets and the linked lists of interfaces
    represent a list of [binding]s.  [bind] refines an operation on that list,
    in every outcome: success, each error, and the case that leaves the lock of
    the instance held. *)

From S2P Require Import Prelude Bytes KState KInstance.

(** ** The registry *)

Record bound_if := BoundIf { bi_loc : positive; bi_dev : Z; bi_addr : sockaddr_awds }.

Record binding := Binding {
  b_loc : positive;               (* the instance *)
  b_sock : positive;
  b_ifs : list bound_if;
  b_held : bool;                  (* [instance->lock] is held for ever *)
}.

(** A doubly linked list of interfaces. *)
Fixpoint if_list (h : gmap positive awds_interface) (ha : gmap positive sockaddr_awds)
    (prev : ptr) (ifs : list bound_if) : Prop :=
  match ifs with
  | [] => True
  | b :: rest =>
      (exists la idx, h !! bi_loc b = Some (Interface (bi_loc <$> head rest) prev idx (Some (bi_dev b)) (Some la)) /\
                      ha !! la = Some (bi_addr b)) /\
      if_list h ha (Some (bi_loc b)) rest
  end.

Definition sock_repr (s : kstate) (b : binding) : Prop :=
  exists k, h_sock s !! b_sock b = Some k /\
    sk_ifcount k = Z.of_nat (length (b_ifs b)) /\
    sk_interf k = bi_loc <$> head (b_ifs b) /\
    if_list (h_if s) (h_addr s) null (b_ifs b).

Definition if_locs (R : list binding) : list positive := R ≫= (fun b => bi_loc <$> b_ifs b).

Record registry (s : kstate) (R : list binding) : Prop := {
  reg_array : awds_instances s = (Some ∘ b_loc <$> R) ++ replicate (4 - length R) null;
  reg_bound : (length R <= 4)%nat;
  reg_index : awds_instance_index s = Z.of_nat (length R) - 1;
  reg_inst : forall i b, R !! i = Some b ->
    h_inst s !! b_loc b = Some (Instance (Z.of_nat i) (Some (b_sock b)) (b_held b));
  reg_sock : forall b, b ∈ R -> sock_repr s b;
  reg_locs : NoDup (b_loc <$> R);
  reg_socks : NoDup (b_sock <$> R);
  reg_ifs : NoDup (if_locs R);
  reg_devs : forall b, b ∈ R -> NoDup (bi_dev <$> b_ifs b);
  reg_free : forall sk k, h_sock s !! sk = Some k -> sk ∉ b_sock <$> R -> sk_ifcount k = 0;
  reg_fresh_inst : forall l, is_Some (h_inst s !! l) -> (l < next_loc s)%positive;
  reg_fresh_if : forall l, is_Some (h_if s !! l) -> (l < next_loc s)%positive;
  reg_fresh_addr : forall l, is_Some (h_addr s !! l) -> (l < next_loc s)%positive;
}.

(** ** Generic lemmas *)

Lemma keys_size {A} (h : gmap positive A) (ls : list positive) :
  NoDup ls -> (forall l, l ∈ ls -> is_Some (h !! l)) -> (length ls <= size h)%nat.
Proof.
  intros Hnd Hin. rewrite <- size_dom, <- (size_list_to_set (C := gset positive) ls Hnd).
  apply subseteq_size. intros l Hl. apply elem_of_list_to_set in Hl. by apply elem_of_dom, Hin.
Qed.

Lemma if_list_is_Some h ha prev ifs l :
  if_list h ha prev ifs -> l ∈ bi_loc <$> ifs -> is_Some (h !! l).
Proof.
  revert prev. induction ifs as [|b ifs IH]; intros prev Hl Hin; [by apply elem_of_nil in Hin|].
  cbn in Hl. destruct Hl as [(la & idx & Hb & _) Hr]. cbn in Hin.
  apply elem_of_cons in Hin as [->|Hin]; eauto.
Qed.

Lemma NoDup_if_locs R b : NoDup (if_locs R) -> b ∈ R -> NoDup (bi_loc <$> b_ifs b).
Proof.
  intros Hnd Hin. apply list_elem_of_split in Hin as (R1 & R2 & ->).
  unfold if_locs in Hnd. rewrite bind_app, bind_cons in Hnd.
  apply NoDup_app in Hnd as (_ & _ & Hnd). by apply NoDup_app in Hnd as (Hnd & _ & _).
Qed.

Lemma registry_if_bound s R b :
  registry s R -> b ∈ R -> (length (b_ifs b) <= size (h_if s))%nat.
Proof.
  intros Hreg Hin. rewrite <- (length_fmap bi_loc). apply keys_size.
  - eapply NoDup_if_locs; [apply Hreg|done].
  - destruct (reg_sock _ _ Hreg b Hin) as (k & _ & _ & _ & Hl). intros l. by eapply if_list_is_Some.
Qed.

Lemma alter_as_insert {A} (g : A -> A) (m : gmap positive A) i x :
  m !! i = Some x -> alter g i m = <[i := g x]> m.
Proof.
  intros Hx. apply map_eq. intros j. destruct (decide (i = j)) as [<-|Hn].
  - by rewrite lookup_alter_eq, lookup_insert_eq, Hx.
  - by rewrite lookup_alter_ne, lookup_insert_ne.
Qed.

(** The states during an operation differ from the represented one in the
    mutexes and the trace only. *)
Lemma set_heap_inst_id s l (i : awds_instance) :
  h_inst s !! l = Some i -> set_heap (<[l := i]> (h_inst s)) s = s.
Proof. intros Hl. destruct s. cbn in *. by rewrite insert_id. Qed.

Section bind.
Context `{LinuxKernel}.

Definition find_dev (dev : Z) (ifs : list bound_if) : option bound_if :=
  snd <$> list_find (fun b => bi_dev b = dev) ifs.

Lemma find_interface_loop_spec fuel ifs prev dev s :
  if_list (h_if s) (h_addr s) prev ifs -> (length ifs <= fuel)%nat ->
  find_interface_loop fuel (bi_loc <$> head ifs) dev s = Ok (bi_loc <$> find_dev dev ifs, s).
Proof.
  revert prev fuel. induction ifs as [|b ifs IH]; intros prev fuel Hl Hf; cbn in Hf.
  - by destruct fuel.
  - destruct fuel as [|fuel]; [lia|]. cbn in Hl. destruct Hl as [(la & idx & Hb & Ha) Hr].
    cbn. unfold mbind, M_bind, load. cbn. rewrite Hb. cbn.
    unfold find_dev. cbn. case_decide as D; case_decide as D'; try congruence; try done.
    erewrite IH by (done || lia). unfold find_dev.
    destruct (list_find (fun b0 => bi_dev b0 = dev) ifs) as [[? ?]|]; done.
Qed.

(** The part of the state one instance owns. *)
Record owns (s : kstate) (il sk : positive) (n : Z) (held : bool) (k : awds_sock)
    (ifs : list bound_if) : Prop := {
  own_inst : h_inst s !! il = Some (Instance n (Some sk) held);
  own_sock : h_sock s !! sk = Some k;
  own_count : sk_ifcount k = Z.of_nat (length ifs);
  own_head : sk_interf k = bi_loc <$> head ifs;
  own_list : if_list (h_if s) (h_addr s) null ifs;
  own_nodup : NoDup (bi_loc <$> ifs);
}.

Lemma owns_size s il sk n held k ifs : owns s il sk n held k ifs -> (length ifs <= size (h_if s))%nat.
Proof.
  intros Ho. rewrite <- (length_fmap bi_loc). apply keys_size; [apply Ho|].
  intros l. eapply if_list_is_Some, Ho.
Qed.

(** The search under the lock of the instance leaves the state as it was. *)
Lemma awds_find_interface_spec s il sk n k ifs dev :
  owns s il sk n false k ifs ->
  awds_find_interface (Some il) dev s = Ok (bi_loc <$> find_dev dev ifs, s).
Proof.
  intros Ho. pose proof (owns_size _ _ _ _ _ _ _ Ho) as Hsz.
  destruct Ho as [Hinst Hk _ Hhd Hl _].
  unfold awds_find_interface. kstep. unfold __awds_find_interface.
  rewrite (K_bind_ok _ _ _ (bi_loc <$> find_dev dev ifs)
             (set_heap (<[il := Instance n (Some sk) true]> (h_inst s)) s)).
  - kstep. cbn. f_equal. f_equal. destruct s. cbn in *. rewrite insert_insert_eq. by rewrite insert_id.
  - kstep. cbn [inst_lock inst_sock]. kstep. kstep. rewrite Hhd.
    eapply find_interface_loop_spec; [exact Hl|cbn; lia].
Qed.

Lemma awds_find_interface_held s il sk n k ifs dev :
  owns s il sk n true k ifs -> awds_find_interface (Some il) dev s = Fail Deadlock.
Proof.
  intros Ho. unfold awds_find_interface. apply K_bind_fail. eapply mutex_lock_inst_held, Ho.
Qed.
End bind.

(** ** Linked lists *)

Lemma if_list_frame h h' ha ha' prev ifs :
  (forall l, l ∈ bi_loc <$> ifs -> h' !! l = h !! l) -> (forall l a, ha !! l = Some a -> ha' !! l = Some a) ->
  if_list h ha prev ifs -> if_list h' ha' prev ifs.
Proof.
  intros Hh Ha. revert prev Hh. induction ifs as [|b ifs IH]; intros prev Hh Hl; [done|].
  cbn in Hl |- *. destruct Hl as [(la & idx & Hb & Hba) Hr]. split.
  - exists la, idx. split; [|auto]. rewrite Hh by (cbn; apply elem_of_cons; auto). done.
  - apply IH; [|done]. intros l Hin. apply Hh. cbn. apply elem_of_cons. auto.
Qed.

(** The last element of a list and its predecessor pointer. *)
Definition if_last (ifs : list bound_if) : ptr := bi_loc <$> last ifs.

Lemma if_list_last h ha prev ifs b :
  if_list h ha prev (ifs ++ [b]) ->
  exists la idx, h !! bi_loc b = Some (Interface null (if decide (ifs = []) then prev else if_last ifs) idx (Some (bi_dev b)) (Some la)) /\
                 ha !! la = Some (bi_addr b).
Proof.
  revert prev. induction ifs as [|c ifs IH]; intros prev Hl.
  - cbn in Hl. destruct Hl as [(la & idx & Hb & Ha) _]. eauto.
  - cbn [app if_list] in Hl. destruct Hl as [_ Hr]. apply IH in Hr as (la & idx & Hb & Ha).
    exists la, idx. split; [|done]. rewrite Hb. do 2 f_equal.
    destruct ifs as [|d ifs]; [done|]. cbn [decide]. unfold if_last. by rewrite last_cons_cons.
Qed.

Lemma if_list_extend h ha prev ifs b l d a la num f :
  if_list h ha prev (ifs ++ [b]) ->
  NoDup (bi_loc <$> ifs ++ [b]) -> l ∉ bi_loc <$> ifs ++ [b] -> ha !! la = None ->
  h !! bi_loc b = Some f ->
  if_list (<[l := Interface null (Some (bi_loc b)) num (Some d) (Some la)]>
             (<[bi_loc b := if_set_next (Some l) f]> h))
          (<[la := a]> ha) prev (ifs ++ [b; BoundIf l d a]).
Proof.
  revert prev. induction ifs as [|c ifs IH]; intros prev Hl Hnd Hf Hla Hb.
  - cbn in Hl, Hnd, Hf |- *. destruct Hl as [(lb & idx & Hb' & Hba) _].
    assert (l <> bi_loc b) by (intros ->; apply Hf, elem_of_cons; auto).
    rewrite Hb in Hb'. injection Hb' as ->. split; [|split; [|done]].
    + exists lb, idx. rewrite lookup_insert_ne, lookup_insert_eq by done. split; [done|].
      rewrite lookup_insert_ne by (intros ->; congruence). done.
    + exists la, num. by rewrite !lookup_insert_eq.
  - cbn [app if_list] in Hl |- *. destruct Hl as [(lc & idx & Hc & Hca) Hr].
    cbn [app fmap list_fmap] in Hnd, Hf. apply NoDup_cons in Hnd as [Hcn Hnd].
    apply not_elem_of_cons in Hf as [Hlc Hf]. split; [|by apply IH].
    exists lc, idx. split.
    + rewrite lookup_insert_ne by done. rewrite lookup_insert_ne.
      2:{ intros E. apply Hcn. rewrite <- E, fmap_app. apply elem_of_app. right. cbn. apply elem_of_cons. auto. }
      rewrite Hc. do 2 f_equal. by destruct ifs.
    + rewrite lookup_insert_ne by (intros ->; congruence). done.
Qed.

(** ** Adding and removing an interface *)

Abbreviation with_if := (set_heap (A := awds_interface)).
Abbreviation with_sock := (set_heap (A := awds_sock)).
Abbreviation with_inst := (set_heap (A := awds_instance)).

Section add.
Context `{LinuxKernel}.

Lemma add_interface_loop_spec fuel ifs b prev l num s :
  if_list (h_if s) (h_addr s) prev (ifs ++ [b]) -> (length ifs < fuel)%nat ->
  l ∉ bi_loc <$> ifs ++ [b] ->
  add_interface_loop fuel (bi_loc <$> head (ifs ++ [b])) (Some l) num s =
    Ok (inr (Some (bi_loc b), num + Z.of_nat (length ifs)), s).
Proof.
  revert fuel prev num. induction ifs as [|c ifs IH]; intros fuel prev num Hl Hf Hn;
    (destruct fuel as [|fuel]; [cbn in Hf; lia|]); cbn [app if_list head fmap option_fmap option_map] in *.
  - destruct Hl as [(la & idx & Hb & _) _]. cbn [add_interface_loop]. kstep. cbn [if_next head fmap option_fmap option_map].
    unfold mret, M_ret. do 4 f_equal. cbn. lia.
  - destruct Hl as [(la & idx & Hb & _) Hr]. cbn [add_interface_loop]. kstep. cbn [if_next].
    apply not_elem_of_cons in Hn as [Hn1 Hn2].
    destruct (bi_loc <$> head (ifs ++ [b])) as [p|] eqn:E; [|by destruct ifs].
    rewrite decide_False by congruence.
    erewrite IH by (done || cbn in Hf; lia). do 4 f_equal. cbn [length]. lia.
Qed.

(** The state [__awds_add_interface] leaves: the new interface [l] is linked
    behind the last one. *)
Definition linked (s : kstate) (ifs : list bound_if) (l sk : positive) (k : awds_sock)
    (f0 : awds_interface) : kstate :=
  match last ifs with
  | None =>
      with_sock (<[sk := add_ifcount 1 (set_interf (Some l) k)]> (h_sock s))
        (with_if (<[l := if_set_index 0 f0]> (h_if s)) s)
  | Some b =>
      with_sock (<[sk := add_ifcount 1 k]> (h_sock s))
        (with_if (<[l := if_set_index (Z.of_nat (length ifs) - 1) (if_set_prev (Some (bi_loc b)) f0)]>
                    (alter (if_set_next (Some l)) (bi_loc b) (h_if s))) s)
  end.

Lemma __awds_add_interface_spec s il sk n k ifs l f0 :
  owns s il sk n true k ifs -> h_if s !! l = Some f0 -> l ∉ bi_loc <$> ifs ->
  __awds_add_interface (Some il) (Some l) s =
    Ok (Z.of_nat (length ifs - 1), linked s ifs l sk k f0).
Proof.
  intros Ho Hf Hn. pose proof (owns_size _ _ _ _ _ _ _ Ho) as Hsz.
  destruct Ho as [Hinst Hk _ Hhd Hl Hnd].
  unfold __awds_add_interface. kstep. cbn [inst_lock inst_sock]. kstep. rewrite Hhd. unfold linked.
  destruct ifs as [|b ifs _] using rev_ind.
  - cbn [head fmap option_fmap option_map last].
    erewrite K_bind_ok.
    2:{ kstep. reflexivity. }
    cbn beta iota. kstep. kstep. cbn. f_equal. f_equal. destruct s; cbn. by rewrite insert_insert_eq.
  - rewrite last_snoc, length_app. cbn [length].
    apply if_list_last in Hl as Hb. destruct Hb as (la & idx & Hb & _).
    assert (l <> bi_loc b) as Hlb.
    { intros ->. apply Hn. rewrite fmap_app. apply elem_of_app. right. cbn. apply elem_of_cons. auto. }
    destruct (bi_loc <$> head (ifs ++ [b])) as [p|] eqn:E; [|by destruct ifs].
    rewrite decide_False.
    2:{ intros [= ->]. apply Hn. destruct ifs; cbn in E |- *; injection E as <-; apply elem_of_cons; auto. }
    erewrite K_bind_ok.
    2:{ kstep. rewrite <- E. erewrite K_bind_ok.
        2:{ eapply add_interface_loop_spec; [exact Hl| |done]. rewrite length_app in Hsz. cbn in Hsz. lia. }
        cbn beta iota. kstep.
        erewrite K_bind_ok.
        2:{ eapply update_ok. cbn. rewrite lookup_insert_ne by done. exact Hf. }
        reflexivity. }
    cbn beta iota. kstep. kstep. cbn -[Z.of_nat]. rewrite (alter_as_insert _ _ _ _ Hb), insert_insert_eq.
    replace (length ifs + 1 - 1)%nat with (length ifs) by lia.
    replace (Z.of_nat (length ifs + 1) - 1) with (Z.of_nat (length ifs)) by lia. done.
Qed.
End add.

Lemma owns_lock s il sk n held held' k ifs :
  owns s il sk n held k ifs ->
  owns (with_inst (<[il := Instance n (Some sk) held']> (h_inst s)) s) il sk n held' k ifs.
Proof. intros []. constructor; cbn; try done. by rewrite lookup_insert_eq. Qed.

(** The state after the two allocations of [awds_create_interface]. *)
Definition allocated (s : kstate) (dev : Z) (addr : sockaddr_awds) : kstate :=
  KState (awds_instances s) (awds_instance_index s) (awds_instance_mutex s)
    (awds_routing s) (awds_routing_count s) (configuration s) (statistics s) (awds_stats s)
    (h_inst s)
    (<[next_loc s := Interface null null (sa_ifindex addr) (Some dev) (Some (Pos.succ (next_loc s)))]> (h_if s))
    (<[Pos.succ (next_loc s) := addr]> (h_addr s)) (h_sock s) (h_uc s)
    (Pos.succ (Pos.succ (next_loc s)))
    (CKmalloc :: CKmalloc :: CDevGet (sa_ifindex addr) :: trace s).

(** What the refused third interface leaves behind: the lock held, the
    allocated address leaked, everything else as before. *)
Definition refused (s : kstate) (il sk : positive) (n dev : Z) (addr : sockaddr_awds) : kstate :=
  KState (awds_instances s) (awds_instance_index s) (awds_instance_mutex s)
    (awds_routing s) (awds_routing_count s) (configuration s) (statistics s) (awds_stats s)
    (<[il := Instance n (Some sk) true]> (h_inst s)) (h_if s)
    (<[Pos.succ (next_loc s) := addr]> (h_addr s)) (h_sock s) (h_uc s)
    (Pos.succ (Pos.succ (next_loc s)))
    (CDevPut dev :: CKmalloc :: CKmalloc :: CDevGet (sa_ifindex addr) :: trace s).

Section create.
Context `{LinuxKernel}.

Lemma awds_add_interface_spec s il sk n k ifs l f0 :
  owns s il sk n false k ifs -> h_if s !! l = Some f0 -> l ∉ bi_loc <$> ifs ->
  awds_add_interface (Some il) (Some l) s = Ok (Z.of_nat (length ifs - 1), linked s ifs l sk k f0).
Proof.
  intros Ho Hf Hn. pose proof Ho as [Hinst _ _ _ _ _]. unfold awds_add_interface. kstep.
  erewrite K_bind_ok; [|eapply __awds_add_interface_spec; [by apply (owns_lock s il sk n false true)|done|done]].
  cbn beta iota. unfold linked. destruct (last ifs); kstep; cbn; do 2 f_equal; rewrite insert_insert_eq, insert_id; done.
Qed.

(** Removing the interface that was just linked. *)
Lemma release_linked s il sk n k ifs b l idx dev la :
  owns s il sk n false k (ifs ++ [b]) -> h_if s !! l = None ->
  let f0 := Interface null null idx (Some dev) (Some la) in
  let t := linked (with_if (<[l := f0]> (h_if s)) s) (ifs ++ [b]) l sk k f0 in
  awds_release_interface (Some il) (Some l) t =
    Ok (0, set_trace (CDevPut dev :: trace s) (with_inst (<[il := Instance n (Some sk) true]> (h_inst s)) s)).
Proof.
  intros Ho Hl f0 t. pose proof Ho as [Hinst Hk _ _ Hli _].
  apply if_list_last in Hli as (lb & idb & Hb & _).
  assert (l <> bi_loc b) as Hlb by (intros ->; congruence).
  subst t. unfold linked. rewrite last_snoc.
  erewrite alter_as_insert by (cbn; rewrite lookup_insert_ne by done; exact Hb).
  unfold awds_release_interface. kstep. unfold __awds_del_interface.
  erewrite K_bind_ok; [reflexivity|].
  kstep. cbn [inst_lock inst_sock]. kstep.
  cbn [if_prev if_next if_dev if_set_index if_set_prev f0].
  erewrite K_bind_ok.
  2:{ eapply update_ok. cbn. rewrite lookup_insert_ne, lookup_insert_eq by done. reflexivity. }
  cbn beta iota. kstep.
  erewrite K_bind_ok.
  2:{ eapply update_ok. cbn. rewrite lookup_insert_ne, lookup_insert_eq by done. reflexivity. }
  cbn beta iota. kstep. kstep. kstep.
  cbn. unfold mret, M_ret, set_trace. do 2 f_equal. destruct s; cbn in *. f_equal.
  - apply map_eq. intros j. destruct (decide (j = l)) as [->|Hj].
    { by rewrite lookup_delete_eq. }
    rewrite lookup_delete_ne, lookup_insert_ne by done.
    destruct (decide (j = bi_loc b)) as [->|Hjb].
    + rewrite lookup_insert_eq. cbn. symmetry. exact Hb.
    + rewrite !lookup_insert_ne by done. done.
  - rewrite insert_insert_eq. rewrite insert_id; [done|]. rewrite Hk. f_equal.
    destruct k. unfold add_ifcount. cbn. f_equal. lia.
Qed.
End create.

(** ** Attaching an interface *)

Inductive attach_kind :=
| NoDevice | Busy | InUse (dev : Z) | NoMemory (dev : Z) | Attached (dev : Z) | Refused (dev : Z).

Section attach.
Context `{LinuxKernel}.

(** What the answers of Linux after the calls [t] make of an attempt to attach
    the device [idx] to an instance that has the devices [devs]. *)
Definition attach_result (t : list kcall) (idx : Z) (held : bool) (devs : list Z) : attach_kind :=
  match dev_get_by_index t idx with
  | None => NoDevice
  | Some dev =>
      if held then Busy
      else if decide (dev ∈ devs) then InUse dev
      else if kmalloc_ok (CDevGet idx :: t) then
        if kmalloc_ok (CKmalloc :: CDevGet idx :: t) then
          if (length devs <? 2)%nat then Attached dev else Refused dev
        else NoMemory dev
      else NoMemory dev
  end.

Lemma find_dev_some dev ifs : is_Some (find_dev dev ifs) <-> dev ∈ bi_dev <$> ifs.
Proof.
  unfold find_dev. rewrite fmap_is_Some, list_elem_of_fmap. split.
  - intros [[i b] Hb]. apply list_find_Some in Hb as (Hb & <- & _).
    exists b. split; [done|]. by eapply list_elem_of_lookup_2.
  - intros (b & -> & Hb). by eapply list_find_elem_of.
Qed.

Lemma kmalloc_yes {A} `{Heap A} (a : A) s :
  kmalloc_ok (trace s) = true -> kmalloc a s = new_obj a (set_trace (CKmalloc :: trace s) s).
Proof. intros E. unfold kmalloc, ask, gets, emit, modify, mbind, M_bind. by rewrite E. Qed.

Lemma kmalloc_no {A} `{Heap A} (a : A) s :
  kmalloc_ok (trace s) = false -> kmalloc a s = Ok (null, set_trace (CKmalloc :: trace s) s).
Proof. intros E. unfold kmalloc, ask, gets, emit, modify, mbind, M_bind. by rewrite E. Qed.

Lemma owns_set_trace s t il sk n held k ifs :
  owns s il sk n held k ifs -> owns (set_trace t s) il sk n held k ifs.
Proof. intros []. by constructor. Qed.

Lemma owns_allocated s dev addr il sk n held k ifs :
  owns s il sk n held k ifs -> h_if s !! next_loc s = None -> h_addr s !! Pos.succ (next_loc s) = None ->
  owns (allocated s dev addr) il sk n held k ifs /\ next_loc s ∉ bi_loc <$> ifs.
Proof.
  intros [Hi Hk Hc Hh Hl Hn] Hf Ha.
  assert (next_loc s ∉ bi_loc <$> ifs) as Hnotin.
  { intros Hin. eapply if_list_is_Some in Hl; [|exact Hin]. rewrite Hf in Hl. by destruct Hl. }
  split; [|done]. constructor; cbn; try done.
  eapply if_list_frame; [..|exact Hl].
  - intros l Hin. rewrite lookup_insert_ne; [done|congruence].
  - intros l a Hla. rewrite lookup_insert_ne; [done|congruence].
Qed.

Definition fresh_interface (s : kstate) (dev : Z) (addr : sockaddr_awds) : awds_interface :=
  Interface null null (sa_ifindex addr) (Some dev) (Some (Pos.succ (next_loc s))).

Definition attach_post (s : kstate) (il sk : positive) (n : Z) (k : awds_sock) (ifs : list bound_if)
    (addr : sockaddr_awds) (a : attach_kind) (o : outcome (Z * kstate)) : Prop :=
  match a with
  | Busy => o = Fail Deadlock
  | NoDevice => exists t, o = Ok (- EAWDSINVAL, set_trace t s)
  | InUse _ => exists t, o = Ok (- EADDRINUSE, set_trace t s)
  | NoMemory _ => exists t nl, o = Ok (- ENOBUFS, set_next_loc nl (set_trace t s)) /\ (next_loc s <= nl)%positive
  | Attached dev => o = Ok (0, linked (allocated s dev addr) ifs (next_loc s) sk k (fresh_interface s dev addr))
  | Refused dev => o = Ok (Z.of_nat (length ifs - 1), refused s il sk n dev addr)
  end.

Lemma awds_create_interface_spec s il sk n held k ifs addr :
  owns s il sk n held k ifs -> h_if s !! next_loc s = None -> h_addr s !! Pos.succ (next_loc s) = None ->
  attach_post s il sk n k ifs addr
    (attach_result (trace s) (sa_ifindex addr) held (bi_dev <$> ifs))
    (awds_create_interface (Some il) addr s).
Proof.
  intros Ho Hf Ha. unfold awds_create_interface, attach_result.
  kstep. kstep. destruct (dev_get_by_index (trace s) (sa_ifindex addr)) as [dev|]; [|eexists; reflexivity].
  apply (owns_set_trace _ (CDevGet (sa_ifindex addr) :: trace s)) in Ho as Ho1.
  destruct held.
  { apply K_bind_fail. by eapply awds_find_interface_held. }
  erewrite K_bind_ok by (by eapply awds_find_interface_spec). cbn beta.
  case_decide as Hd.
  { apply find_dev_some in Hd as [b ->]. cbn [fmap option_fmap option_map]. kstep. eexists. reflexivity. }
  destruct (find_dev dev ifs) as [b|] eqn:Efd; [exfalso; apply Hd, find_dev_some; by rewrite Efd|].
  cbn [fmap option_fmap option_map].
  destruct (kmalloc_ok (CDevGet (sa_ifindex addr) :: trace s)) eqn:K1.
  2:{ rewrite (K_bind_ok _ _ _ _ _ (kmalloc_no _ (set_trace _ s) K1)). kstep.
      exists (CDevPut dev :: CKmalloc :: CDevGet (sa_ifindex addr) :: trace s), (next_loc s).
      split; [reflexivity|lia]. }
  rewrite (K_bind_ok _ _ _ _ _ (kmalloc_yes _ (set_trace _ s) K1)). cbn beta iota.
  destruct (kmalloc_ok (CKmalloc :: CDevGet (sa_ifindex addr) :: trace s)) eqn:K2.
  2:{ erewrite K_bind_ok by (by apply kmalloc_no). cbn beta iota. kstep. kstep.
      exists (CDevPut dev :: CKmalloc :: CKmalloc :: CDevGet (sa_ifindex addr) :: trace s), (Pos.succ (next_loc s)).
      split; [|lia]. unfold mret, M_ret. do 2 f_equal.
      destruct s; cbn in *. unfold set_trace, set_next_loc. cbn. f_equal.
      rewrite delete_insert_eq. by apply delete_id. }
  erewrite K_bind_ok by (by apply kmalloc_yes). cbn beta iota. kstep.
  match goal with |- attach_post _ _ _ _ _ _ _ _ (_ ?st) => replace st with (allocated s dev addr) end.
  2:{ unfold allocated. cbn. by rewrite insert_insert_eq. }
  destruct (owns_allocated s dev addr il sk n false k ifs Ho Hf Ha) as [Ho2 Hni].
  erewrite K_bind_ok.
  2:{ eapply awds_add_interface_spec; [exact Ho2| |exact Hni]. cbn. by rewrite lookup_insert_eq. }
  cbn beta. fold (fresh_interface s dev addr). rewrite length_fmap.
  destruct (Nat.ltb_spec (length ifs) 2) as [Hlt|Hge].
  - replace (length ifs - 1)%nat with 0%nat by lia. rewrite decide_True by done.
    cbn [attach_post]. kstep. done.
  - rewrite decide_False by lia. cbn [attach_post].
    destruct ifs as [|b ifs _] using rev_ind; [cbn in Hge; lia|].
    set (s0 := KState (awds_instances s) (awds_instance_index s) (awds_instance_mutex s)
      (awds_routing s) (awds_routing_count s) (configuration s) (statistics s) (awds_stats s)
      (h_inst s) (h_if s) (<[Pos.succ (next_loc s) := addr]> (h_addr s)) (h_sock s) (h_uc s)
      (Pos.succ (Pos.succ (next_loc s))) (CKmalloc :: CKmalloc :: CDevGet (sa_ifindex addr) :: trace s)).
    assert (owns s0 il sk n false k (ifs ++ [b])) as Ho3.
    { destruct Ho as [? ? ? ? Hl ?]. constructor; try done. eapply if_list_frame; [done| |exact Hl].
      intros l a Hla. cbn. rewrite lookup_insert_ne; [done|congruence]. }
    erewrite K_bind_ok; [|exact (release_linked s0 il sk n k ifs b (next_loc s) _ dev _ Ho3 Hf)].
    done.
Qed.
End attach.

(** ** The registry *)

Lemma registry_owns s R i b :
  registry s R -> R !! i = Some b ->
  exists k, owns s (b_loc b) (b_sock b) (Z.of_nat i) (b_held b) k (b_ifs b).
Proof.
  intros Hr Hi. assert (b ∈ R) as Hin by (by eapply list_elem_of_lookup_2).
  destruct (reg_sock _ _ Hr b Hin) as (k & Hk & Hc & Hh & Hl). exists k. constructor; try done.
  - by apply Hr.
  - eapply NoDup_if_locs; [apply Hr|done].
Qed.

Lemma registry_fresh s R :
  registry s R ->
  h_inst s !! next_loc s = None /\ h_if s !! next_loc s = None /\
  h_addr s !! next_loc s = None /\ h_addr s !! Pos.succ (next_loc s) = None.
Proof.
  intros Hr. repeat split; apply eq_None_not_Some; intros Hs; apply Hr in Hs; lia.
Qed.

(** Only these fields matter. *)
Lemma registry_ext s s' R :
  registry s R ->
  awds_instances s' = awds_instances s -> awds_instance_index s' = awds_instance_index s ->
  h_inst s' = h_inst s -> h_if s' = h_if s -> h_addr s' = h_addr s -> h_sock s' = h_sock s ->
  (next_loc s <= next_loc s')%positive -> registry s' R.
Proof.
  intros [] E1 E2 E3 E4 E5 E6 Hn. constructor; rewrite ?E1, ?E2, ?E3, ?E4, ?E5, ?E6; try done.
  - intros b Hb. destruct (reg_sock0 b Hb) as (k & ? & ? & ? & ?). exists k. by rewrite E4, E5, E6.
  - intros l Hl. apply reg_fresh_inst0 in Hl. lia.
  - intros l Hl. apply reg_fresh_if0 in Hl. lia.
  - intros l Hl. apply reg_fresh_addr0 in Hl. lia.
Qed.

Ltac reg_ext := eapply registry_ext; [eassumption | first [reflexivity | cbn; lia] ..].

Lemma if_locs_elem R l : l ∈ if_locs R <-> exists b, b ∈ R /\ l ∈ bi_loc <$> b_ifs b.
Proof. unfold if_locs. rewrite list_elem_of_bind. naive_solver. Qed.

Lemma registry_if_live s R l : registry s R -> l ∈ if_locs R -> is_Some (h_if s !! l).
Proof.
  intros Hr (b & Hb & Hl)%if_locs_elem. destruct (reg_sock _ _ Hr b Hb) as (k & _ & _ & _ & Hli).
  by eapply if_list_is_Some.
Qed.

Lemma if_locs_disjoint R i j b c l :
  NoDup (if_locs R) -> R !! i = Some b -> R !! j = Some c -> i <> j ->
  l ∈ bi_loc <$> b_ifs b -> l ∈ bi_loc <$> b_ifs c -> False.
Proof.
  intros Hnd Hi Hj Hne Hb Hc. pose proof (take_drop_middle R i b Hi) as HR.
  rewrite <- HR in Hnd. unfold if_locs in Hnd. rewrite bind_app, bind_cons in Hnd.
  apply NoDup_app in Hnd as (_ & Hd1 & Hnd). apply NoDup_app in Hnd as (_ & Hd2 & _).
  destruct (decide (j < i)%nat) as [Hlt|Hge].
  - apply (Hd1 l).
    + apply (if_locs_elem (take i R)). exists c. split; [|done].
      apply list_elem_of_lookup. exists j. by rewrite lookup_take_lt.
    + apply elem_of_app. auto.
  - apply (Hd2 l Hb). apply (if_locs_elem (drop (S i) R)). exists c. split; [|done].
    apply list_elem_of_lookup. exists (j - S i)%nat. rewrite lookup_drop. by replace (S i + (j - S i))%nat with j by lia.
Qed.

Lemma if_locs_insert R i b b' ls :
  R !! i = Some b -> bi_loc <$> b_ifs b' = (bi_loc <$> b_ifs b) ++ ls ->
  if_locs (<[i := b']> R) ≡ₚ ls ++ if_locs R.
Proof.
  intros Hi Hb'. rewrite <- (take_drop_middle R i b Hi) at 2.
  rewrite insert_take_drop by (by eapply lookup_lt_Some).
  unfold if_locs. rewrite !bind_app, !bind_cons, Hb'. solve_Permutation.
Qed.

(** Replacing one binding. *)
Lemma registry_update s s' R i b b' k' ls :
  registry s R -> R !! i = Some b -> b_loc b' = b_loc b -> b_sock b' = b_sock b ->
  awds_instances s' = awds_instances s -> awds_instance_index s' = awds_instance_index s ->
  h_inst s' = <[b_loc b := Instance (Z.of_nat i) (Some (b_sock b)) (b_held b')]> (h_inst s) ->
  h_sock s' = <[b_sock b := k']> (h_sock s) -> sock_repr s' b' ->
  (forall l, l ∉ bi_loc <$> b_ifs b -> l ∉ ls -> h_if s' !! l = h_if s !! l) ->
  (forall l a, h_addr s !! l = Some a -> h_addr s' !! l = Some a) ->
  bi_loc <$> b_ifs b' = (bi_loc <$> b_ifs b) ++ ls -> NoDup ls -> (forall l, l ∈ ls -> h_if s !! l = None) ->
  NoDup (bi_dev <$> b_ifs b') ->
  (next_loc s <= next_loc s')%positive ->
  (forall l, is_Some (h_if s' !! l) -> (l < next_loc s')%positive) ->
  (forall l, is_Some (h_addr s' !! l) -> (l < next_loc s')%positive) ->
  registry s' (<[i := b']> R).
Proof.
  intros Hr Hi Hbl Hbs E1 E2 E3 E4 Hsr Fif Faddr Hifs Hls Hlsf Hdev Hnl Ff Fa.
  pose proof (lookup_lt_Some _ _ _ Hi) as Hlt.
  pose proof (list_fmap_insert b_loc R i b') as Lf. pose proof (list_fmap_insert b_sock R i b') as Sf.
  rewrite (list_insert_id (b_loc <$> R)) in Lf by (rewrite list_lookup_fmap, Hi; cbn; by rewrite Hbl).
  rewrite (list_insert_id (b_sock <$> R)) in Sf by (rewrite list_lookup_fmap, Hi; cbn; by rewrite Hbs).
  pose proof (reg_locs _ _ Hr) as Hnl'. pose proof (reg_socks _ _ Hr) as Hns.
  assert (forall j c, R !! j = Some c -> j <> i -> b_loc c <> b_loc b /\ b_sock c <> b_sock b) as Hdist.
  { intros j c Hj Hne. split; intros He; apply Hne.
    - eapply (NoDup_lookup _ _ _ _ Hnl'); rewrite list_lookup_fmap; [by rewrite Hj|rewrite Hi; cbn; by rewrite He].
    - eapply (NoDup_lookup _ _ _ _ Hns); rewrite list_lookup_fmap; [by rewrite Hj|rewrite Hi; cbn; by rewrite He]. }
  constructor; rewrite ?length_insert, ?Lf, ?Sf; try (rewrite ?E1, ?E2; apply Hr || done).
  - rewrite E1, (reg_array _ _ Hr). f_equal. rewrite !list_fmap_compose. by rewrite Lf.
  - intros j c Hj. rewrite E3. destruct (decide (j = i)) as [->|Hne].
    + rewrite list_lookup_insert_eq in Hj by done. injection Hj as <-.
      by rewrite Hbl, lookup_insert_eq, Hbs.
    + rewrite list_lookup_insert_ne in Hj by done. destruct (Hdist j c Hj Hne) as [Hd _].
      rewrite lookup_insert_ne by done. by apply Hr.
  - intros c Hc. apply list_elem_of_lookup in Hc as [j Hj]. destruct (decide (j = i)) as [->|Hne].
    + rewrite list_lookup_insert_eq in Hj by done. by injection Hj as <-.
    + rewrite list_lookup_insert_ne in Hj by done. destruct (Hdist j c Hj Hne) as [_ Hd].
      assert (c ∈ R) as HcR by (by eapply list_elem_of_lookup_2).
      destruct (reg_sock _ _ Hr c HcR) as (k & Hk & Hc & Hh & Hl).
      exists k. rewrite E4, lookup_insert_ne by done. repeat split; try done.
      eapply if_list_frame; [|exact Faddr|exact Hl]. intros l Hin. apply Fif.
      * intros Hb. by apply (if_locs_disjoint R i j b c l (reg_ifs _ _ Hr) Hi Hj).
      * intros Hin'. apply Hlsf in Hin'. eapply if_list_is_Some in Hl; [|exact Hin].
        rewrite Hin' in Hl. by destruct Hl.
  - rewrite if_locs_insert by done. apply NoDup_app. split; [done|]. split; [|apply Hr].
    intros l Hin Hin'. apply Hlsf in Hin. apply (registry_if_live s R l Hr) in Hin'. rewrite Hin in Hin'. by destruct Hin'.
  - intros c Hc. apply list_elem_of_lookup in Hc as [j Hj]. destruct (decide (j = i)) as [->|Hne].
    + rewrite list_lookup_insert_eq in Hj by done. by injection Hj as <-.
    + rewrite list_lookup_insert_ne in Hj by done. eapply Hr. by eapply list_elem_of_lookup_2.
  - intros sk k Hk Hsk. rewrite E4 in Hk. rewrite lookup_insert_ne in Hk; [by eapply Hr|].
    intros <-. apply Hsk. apply list_elem_of_lookup. exists i. rewrite list_lookup_fmap, Hi. done.
  - intros l Hl. rewrite E3 in Hl. destruct (decide (l = b_loc b)) as [->|Hne].
    + enough (b_loc b < next_loc s)%positive by lia. apply (reg_fresh_inst _ _ Hr).
      rewrite (reg_inst _ _ Hr i b Hi). by eexists.
    + rewrite lookup_insert_ne in Hl by done. apply (reg_fresh_inst _ _ Hr) in Hl. lia.
Qed.

Lemma lookup_insert_fresh {A} (m : gmap positive A) l x (nl : positive) j :
  (forall l, is_Some (m !! l) -> (l < nl)%positive) -> (l < nl)%positive ->
  is_Some (<[l := x]> m !! j) -> (j < nl)%positive.
Proof.
  intros Hm Hl Hj. destruct (decide (l = j)) as [<-|Hn]; [done|].
  rewrite lookup_insert_ne in Hj by done. auto.
Qed.

(** The list of interfaces after [linked]. *)
Lemma linked_list s dev addr il sk n held k ifs :
  owns s il sk n held k ifs -> h_if s !! next_loc s = None -> h_addr s !! Pos.succ (next_loc s) = None ->
  let s' := linked (allocated s dev addr) ifs (next_loc s) sk k (fresh_interface s dev addr) in
  exists k', h_sock s' = <[sk := k']> (h_sock s) /\
    sk_ifcount k' = Z.of_nat (length ifs) + 1 /\
    sk_interf k' = bi_loc <$> head (ifs ++ [BoundIf (next_loc s) dev addr]) /\
    if_list (h_if s') (h_addr s') null (ifs ++ [BoundIf (next_loc s) dev addr]) /\
    (forall l, l ∉ bi_loc <$> ifs -> l ∉ [next_loc s] -> h_if s' !! l = h_if s !! l).
Proof.
  intros Ho Hf Ha s'. destruct (owns_allocated s dev addr il sk n held k ifs Ho Hf Ha) as [[Hi Hk Hc Hh Hl Hn] Hni].
  subst s'. unfold linked. destruct ifs as [|b ifs _] using rev_ind.
  - cbn. exists (add_ifcount 1 (set_interf (Some (next_loc s)) k)). split; [done|].
    cbn in Hc |- *. split; [lia|]. split; [done|]. split.
    + split; [|done]. exists (Pos.succ (next_loc s)), 0. by rewrite !lookup_insert_eq.
    + intros l _ Hne. apply not_elem_of_cons in Hne as [Hne _]. rewrite !lookup_insert_ne by done. done.
  - rewrite last_snoc. cbn [h_sock h_if h_addr set_heap heap_of heap_sock heap_if allocated].
    exists (add_ifcount 1 k). split; [done|].
    split; [cbn; lia|]. split; [cbn; rewrite Hh; by destruct ifs|].
    pose proof (own_list _ _ _ _ _ _ _ Ho) as Hl0. apply if_list_last in Hl0 as Hb.
    destruct Hb as (lb & idx & Hb & _).
    assert (next_loc s <> bi_loc b) as Hnb by congruence.
    erewrite alter_as_insert by (rewrite lookup_insert_ne by done; exact Hb). split.
    + rewrite <- app_assoc. cbn [app].
      eapply if_list_frame; [| |exact (if_list_extend _ _ null ifs b (next_loc s) dev addr (Pos.succ (next_loc s))
                    (Z.of_nat (length (ifs ++ [b])) - 1) _ Hl0 Hn Hni Ha Hb)]; [|done].
      intros l _. destruct (decide (next_loc s = l)) as [<-|Hne]; [by rewrite !lookup_insert_eq|].
      rewrite !(lookup_insert_ne _ (next_loc s)) by done.
      destruct (decide (bi_loc b = l)) as [<-|Hne2]; [by rewrite !lookup_insert_eq|].
      rewrite !lookup_insert_ne by done. done.
    + intros l Hnin Hne. apply not_elem_of_cons in Hne as [Hne _].
      rewrite lookup_insert_ne by done. rewrite lookup_insert_ne.
      * by rewrite lookup_insert_ne.
      * intros <-. apply Hnin. rewrite fmap_app. apply elem_of_app. right. cbn. apply elem_of_cons. auto.
Qed.

Definition with_ifs (b : binding) (ifs : list bound_if) : binding :=
  Binding (b_loc b) (b_sock b) ifs (b_held b).
Definition with_held (b : binding) : binding :=
  Binding (b_loc b) (b_sock b) (b_ifs b) true.

Lemma linked_rest s dev addr ifs sk k :
  let s' := linked (allocated s dev addr) ifs (next_loc s) sk k (fresh_interface s dev addr) in
  awds_instances s' = awds_instances s /\ awds_instance_index s' = awds_instance_index s /\
  awds_instance_mutex s' = awds_instance_mutex s /\ h_inst s' = h_inst s /\
  h_addr s' = <[Pos.succ (next_loc s) := addr]> (h_addr s) /\
  next_loc s' = Pos.succ (Pos.succ (next_loc s)).
Proof. unfold linked. by destruct (last ifs). Qed.

Lemma registry_attached s R i b k dev addr :
  registry s R -> R !! i = Some b ->
  owns s (b_loc b) (b_sock b) (Z.of_nat i) (b_held b) k (b_ifs b) -> dev ∉ bi_dev <$> b_ifs b ->
  registry (linked (allocated s dev addr) (b_ifs b) (next_loc s) (b_sock b) k (fresh_interface s dev addr))
    (<[i := with_ifs b (b_ifs b ++ [BoundIf (next_loc s) dev addr])]> R).
Proof.
  intros Hr Hi Ho Hd. destruct (registry_fresh s R Hr) as (_ & Hf & _ & Ha).
  destruct (linked_list s dev addr _ _ _ _ k _ Ho Hf Ha) as (k' & E & Hc & Hh & Hl & Hfr).
  destruct (linked_rest s dev addr (b_ifs b) (b_sock b) k) as (R1 & R2 & _ & R4 & R5 & R6).
  set (s' := linked _ _ _ _ _ _) in *.
  assert (forall l a, h_addr s !! l = Some a -> h_addr s' !! l = Some a) as Hadd.
  { intros l a Hla. rewrite R5, lookup_insert_ne; [done|congruence]. }
  eapply (registry_update s s' R i b _ k' [next_loc s]); try done.
  - rewrite R4. cbn. rewrite insert_id; [done|]. by apply Hr.
  - exists k'. cbn. rewrite E, lookup_insert_eq. repeat split; try done.
    rewrite Hc, length_app. cbn. lia.
  - cbn. by rewrite fmap_app.
  - apply NoDup_singleton.
  - intros l ->%list_elem_of_singleton. done.
  - cbn. rewrite fmap_app. apply NoDup_app. split; [eapply Hr; by eapply list_elem_of_lookup_2|].
    split; [|apply NoDup_singleton]. intros x Hx ->%list_elem_of_singleton. done.
  - rewrite R6. lia.
  - intros l Hs. destruct (decide (l ∈ bi_loc <$> b_ifs b)) as [Hin|Hnin].
    { eapply if_list_is_Some in Hin; [|apply Ho]. apply (reg_fresh_if _ _ Hr) in Hin. rewrite R6. lia. }
    destruct (decide (l = next_loc s)) as [->|Hne]; [rewrite R6; lia|].
    rewrite Hfr in Hs; [|done|by rewrite list_elem_of_singleton].
    apply (reg_fresh_if _ _ Hr) in Hs. rewrite R6. lia.
  - intros l Hs. rewrite R5 in Hs. rewrite R6. eapply lookup_insert_fresh; [| |exact Hs]; [|lia].
    intros j Hj. apply (reg_fresh_addr _ _ Hr) in Hj. lia.
Qed.

Lemma registry_refused s R i b dev addr :
  registry s R -> R !! i = Some b ->
  registry (refused s (b_loc b) (b_sock b) (Z.of_nat i) dev addr) (<[i := with_held b]> R).
Proof.
  intros Hr Hi. destruct (registry_fresh s R Hr) as (_ & Hf & _ & Ha).
  destruct (registry_owns s R i b Hr Hi) as [k Ho].
  assert (forall l a, h_addr s !! l = Some a -> <[Pos.succ (next_loc s) := addr]> (h_addr s) !! l = Some a) as Hadd.
  { intros l a Hla. rewrite lookup_insert_ne; [done|congruence]. }
  eapply (registry_update s _ R i b _ k []); try done.
  - cbn. symmetry. apply insert_id, Ho.
  - exists k. destruct Ho. repeat split; try done. by eapply if_list_frame.
  - cbn. by rewrite app_nil_r.
  - apply NoDup_nil_2.
  - intros l Hl. by apply elem_of_nil in Hl.
  - cbn. eapply Hr. by eapply list_elem_of_lookup_2.
  - cbn. lia.
  - cbn. intros l Hl. apply (reg_fresh_if _ _ Hr) in Hl. lia.
  - cbn. intros l Hs. eapply lookup_insert_fresh; [| |exact Hs]; [|lia].
    intros j Hj. apply (reg_fresh_addr _ _ Hr) in Hj. lia.
Qed.

(** ** Finding the instance of a socket *)

Lemma instances_at_ok s R i b :
  registry s R -> R !! i = Some b -> instances_at (Z.of_nat i) s = Ok (Some (b_loc b), s).
Proof.
  intros Hr Hi. unfold instances_at. rewrite (proj2 (Z.leb_le 0 _)) by lia.
  rewrite (reg_array _ _ Hr), Nat2Z.id, lookup_app_l, list_lookup_fmap, Hi; [done|].
  rewrite length_fmap. by eapply lookup_lt_Some.
Qed.

Lemma find_index_loop_spec s R sk R1 R2 :
  registry s R -> R = R1 ++ R2 ->
  find_index_loop (length R2) (Z.of_nat (length R1)) (Some sk) s =
    Ok (match list_find (fun b => b_sock b = sk) R2 with
        | Some (i, _) => Z.of_nat (length R1) + Z.of_nat i
        | None => - EAWDSMISSING
        end, s).
Proof.
  intros Hr. revert R1. induction R2 as [|b R2 IH]; intros R1 HR; [done|].
  cbn [length find_index_loop].
  assert (R !! length R1 = Some b) as Hb by (subst R; by apply list_lookup_middle).
  erewrite K_bind_ok by (by eapply instances_at_ok). cbn beta.
  erewrite K_bind_ok by (eapply load_ok; by eapply Hr). cbn [inst_sock list_find].
  destruct (decide (b_sock b = sk)) as [Hs|Hs].
  - rewrite decide_True by congruence. unfold mret, M_ret. do 2 f_equal. lia.
  - rewrite decide_False by congruence.
    replace (Z.of_nat (length R1) + 1) with (Z.of_nat (length (R1 ++ [b]))) by (rewrite length_app; cbn; lia).
    rewrite IH by (subst R; by rewrite <- app_assoc). rewrite length_app. cbn [length].
    destruct (list_find (fun b0 => b_sock b0 = sk) R2) as [[j c]|]; [|done].
    cbn -[Z.of_nat]. f_equal. f_equal. lia.
Qed.

Lemma find_instance_by_sock_spec s R sk :
  registry s R -> awds_instance_mutex s = true ->
  __awds_find_instance_by_sock (Some sk) s =
    Ok ((fun ib => b_loc ib.2) <$> list_find (fun b => b_sock b = sk) R, s).
Proof.
  intros Hr Hm. unfold __awds_find_instance_by_sock, __awds_find_instance_index_by_sock.
  kstep. rewrite Hm.
  erewrite K_bind_ok.
  2:{ kstep. rewrite Hm. kstep. rewrite (reg_index _ _ Hr).
      replace (Z.to_nat _) with (length R) by lia. by apply (find_index_loop_spec s R sk [] R). }
  cbn beta. destruct (list_find (fun b => b_sock b = sk) R) as [[i b]|] eqn:E; [|done].
  apply list_find_Some in E as (E & _ & _). cbn [length]. rewrite Z.add_0_l.
  destruct (Z.eqb_spec (Z.of_nat i) (- EAWDSMISSING)) as [Hz|_]; [unfold EAWDSMISSING in Hz; lia|].
  by eapply instances_at_ok.
Qed.

(** ** [bind] *)

Section bind_spec.
Context `{LinuxKernel}.

Definition attach_code (a : attach_kind) (n : nat) : Z :=
  match a with
  | NoDevice => - EAWDSINVAL
  | InUse _ => - EADDRINUSE
  | NoMemory _ => - ENOBUFS
  | Attached _ => 0
  | Refused _ => Z.of_nat (n - 1)
  | Busy => 0
  end.

(** The binding after an attempt. *)
Definition attached_binding (a : attach_kind) (l : positive) (addr : sockaddr_awds) (b : binding) : binding :=
  match a with
  | Attached dev => with_ifs b (b_ifs b ++ [BoundIf l dev addr])
  | Refused _ => with_held b
  | _ => b
  end.

Lemma bind_existing s R i b addr :
  registry s R -> R !! i = Some b ->
  let a := attach_result (trace s) (sa_ifindex addr) (b_held b) (bi_dev <$> b_ifs b) in
  match a with
  | Busy => awds_create_interface (Some (b_loc b)) addr s = Fail Deadlock
  | _ => exists s',
      awds_create_interface (Some (b_loc b)) addr s = Ok (attach_code a (length (b_ifs b)), s') /\
      registry s' (<[i := attached_binding a (next_loc s) addr b]> R) /\
      awds_instance_mutex s' = awds_instance_mutex s
  end.
Proof.
  intros Hr Hi a. destruct (registry_owns s R i b Hr Hi) as [k Ho].
  destruct (registry_fresh s R Hr) as (_ & Hf & _ & Ha).
  pose proof (awds_create_interface_spec s _ _ _ _ k _ addr Ho Hf Ha) as Hp.
  fold a in Hp. destruct a as [| |dev|dev|dev|dev] eqn:Ea; cbn [attach_post attached_binding] in *;
    rewrite ?(list_insert_id R i b Hi).
  - destruct Hp as [t ->]. eexists. split; [done|]. split; [reg_ext|done].
  - exact Hp.
  - destruct Hp as [t ->]. eexists. split; [done|]. split; [reg_ext|done].
  - destruct Hp as (t & nl & -> & Hle). eexists. split; [done|]. split; [reg_ext|done].
  - rewrite Hp. eexists. split; [done|]. split; [|apply linked_rest].
    apply registry_attached; try done.
    subst a. unfold attach_result in Ea. repeat case_match; congruence.
  - rewrite Hp. eexists. split; [done|]. split; [by apply registry_refused|done].
Qed.

(** A new instance in the state before its interface is created. *)
Definition with_new_instance (s : kstate) (sk : positive) (k : awds_sock) : kstate :=
  KState (awds_instances s) (awds_instance_index s) (awds_instance_mutex s)
    (awds_routing s) (awds_routing_count s) (configuration s) (statistics s) (awds_stats s)
    (<[next_loc s := Instance (-1) (Some sk) false]> (h_inst s)) (h_if s) (h_addr s)
    (<[sk := set_table null (set_interf null k)]> (h_sock s)) (h_uc s)
    (Pos.succ (next_loc s)) (CKmalloc :: trace s).

(** The same state as the assignments of [__awds_create_instance] build it. *)
Lemma with_new_instance_eq s sk k :
  with_new_instance s sk k =
    with_sock (<[sk := set_table null (set_interf null k)]> (<[sk := set_interf null k]> (h_sock s)))
      (set_next_loc (Pos.succ (next_loc s))
        (with_inst (<[next_loc s := Instance (-1) (Some sk) false]> (h_inst s)) (set_trace (CKmalloc :: trace s) s))).
Proof. unfold with_new_instance. cbn. by rewrite insert_insert_eq. Qed.

(** Sockets outside the registry may change as long as they count no interface. *)
Lemma registry_free_sock s s' R sk k :
  registry s R -> sk ∉ b_sock <$> R -> sk_ifcount k = 0 ->
  awds_instances s' = awds_instances s -> awds_instance_index s' = awds_instance_index s ->
  h_inst s' = h_inst s -> h_if s' = h_if s -> h_addr s' = h_addr s ->
  h_sock s' = <[sk := k]> (h_sock s) -> (next_loc s <= next_loc s')%positive -> registry s' R.
Proof.
  intros [] Hsk Hk E1 E2 E3 E4 E5 E6 Hn. constructor; rewrite ?E1, ?E2, ?E3, ?E4, ?E5, ?E6; try done.
  - intros b Hb. destruct (reg_sock0 b Hb) as (k0 & ? & ? & ? & ?). exists k0. rewrite E4, E5, E6.
    rewrite lookup_insert_ne; [done|]. intros ->. apply Hsk. by apply list_elem_of_fmap_2.
  - intros sk0 k0 Hk0 Hn0. destruct (decide (sk = sk0)) as [<-|Hne].
    + rewrite lookup_insert_eq in Hk0. by injection Hk0 as <-.
    + rewrite lookup_insert_ne in Hk0 by done. eauto.
  - intros l Hl. apply reg_fresh_inst0 in Hl. lia.
  - intros l Hl. apply reg_fresh_if0 in Hl. lia.
  - intros l Hl. apply reg_fresh_addr0 in Hl. lia.
Qed.

Lemma owns_new_instance s R sk k :
  registry s R -> h_sock s !! sk = Some k -> sk ∉ b_sock <$> R ->
  owns (with_new_instance s sk k) (next_loc s) sk (-1) false (set_table null (set_interf null k)) [] /\
  h_if (with_new_instance s sk k) !! next_loc (with_new_instance s sk k) = None /\
  h_addr (with_new_instance s sk k) !! Pos.succ (next_loc (with_new_instance s sk k)) = None.
Proof.
  intros Hr Hk Hn. split; [|split; cbn].
  - constructor; cbn; try done; try apply lookup_insert_eq.
    + by eapply Hr.
    + apply NoDup_nil_2.
  - apply eq_None_not_Some. intros Hs. apply Hr in Hs. lia.
  - apply eq_None_not_Some. intros Hs. apply Hr in Hs. lia.
Qed.
End bind_spec.

(** Appending a binding. *)
Lemma registry_append s s' R b k' :
  registry s R -> (length R < 4)%nat ->
  awds_instances s' = <[length R := Some (b_loc b)]> (awds_instances s) ->
  awds_instance_index s' = Z.of_nat (length R) ->
  h_inst s' = <[b_loc b := Instance (Z.of_nat (length R)) (Some (b_sock b)) (b_held b)]> (h_inst s) ->
  h_inst s !! b_loc b = None ->
  h_sock s' = <[b_sock b := k']> (h_sock s) -> b_sock b ∉ b_sock <$> R -> sock_repr s' b ->
  (forall l, l ∉ bi_loc <$> b_ifs b -> h_if s' !! l = h_if s !! l) ->
  (forall l, l ∈ bi_loc <$> b_ifs b -> h_if s !! l = None) ->
  (forall l a, h_addr s !! l = Some a -> h_addr s' !! l = Some a) ->
  NoDup (bi_loc <$> b_ifs b) -> NoDup (bi_dev <$> b_ifs b) ->
  (forall l, is_Some (h_inst s' !! l) -> (l < next_loc s')%positive) ->
  (forall l, is_Some (h_if s' !! l) -> (l < next_loc s')%positive) ->
  (forall l, is_Some (h_addr s' !! l) -> (l < next_loc s')%positive) ->
  registry s' (R ++ [b]).
Proof.
  intros Hr Hlt E1 E2 E3 Hbl E4 Hbs Hsr Fif Hnew Faddr Hnd Hdv Fi Ff Fa.
  assert (forall c, c ∈ R -> b_loc c <> b_loc b) as Hloc.
  { intros c (i & Hi)%list_elem_of_lookup He. pose proof (reg_inst _ _ Hr i c Hi) as X. congruence. }
  constructor; rewrite ?length_app, ?fmap_app; cbn [length fmap list_fmap]; try done.
  - rewrite E1, (reg_array _ _ Hr). rewrite <- (Nat.add_0_r (length R)) at 1.
    rewrite <- (length_fmap (Some ∘ b_loc) R) at 1. rewrite insert_app_r.
    rewrite <- app_assoc. f_equal. replace (4 - length R)%nat with (S (4 - (length R + 1))) by lia. done.
  - lia.
  - lia.
  - intros i c Hi. rewrite E3. apply lookup_snoc_Some in Hi as [[Hi Hc]|[-> <-]].
    + rewrite lookup_insert_ne; [by apply Hr|]. intros He. symmetry in He. revert He. apply Hloc. by eapply list_elem_of_lookup_2.
    + by rewrite lookup_insert_eq.
  - intros c [Hc|Hc]%elem_of_app.
    + destruct (reg_sock _ _ Hr c Hc) as (k & Hk & Hcnt & Hh & Hl). exists k.
      rewrite E4, lookup_insert_ne by (intros He; apply Hbs; rewrite He; by apply list_elem_of_fmap_2).
      repeat split; try done. eapply if_list_frame; [|exact Faddr|exact Hl].
      intros l Hin. apply Fif. intros Hin'. apply Hnew in Hin'.
      eapply if_list_is_Some in Hl; [|exact Hin]. rewrite Hin' in Hl. by destruct Hl.
    + by apply list_elem_of_singleton in Hc as ->.
  - apply NoDup_app. split; [apply Hr|]. split; [|apply NoDup_singleton].
    intros l (c & -> & Hc)%list_elem_of_fmap Hin%list_elem_of_singleton. by apply (Hloc c).
  - apply NoDup_app. split; [apply Hr|]. split; [|apply NoDup_singleton].
    intros l Hin Hin'%list_elem_of_singleton. congruence.
  - unfold if_locs. rewrite bind_app. cbn. rewrite app_nil_r. apply NoDup_app.
    split; [apply Hr|]. split; [|done]. intros l Hin Hin'. apply Hnew in Hin'.
    apply (registry_if_live s R l Hr) in Hin. rewrite Hin' in Hin. by destruct Hin.
  - intros c [Hc|Hc]%elem_of_app; [by apply Hr|]. by apply list_elem_of_singleton in Hc as ->.
  - intros sk k Hk Hn. rewrite E4 in Hk. apply not_elem_of_app in Hn as [Hn Hn2].
    rewrite lookup_insert_ne in Hk; [by eapply Hr|]. intros <-. apply Hn2, list_elem_of_singleton. done.
Qed.

Section create_instance.
Context `{LinuxKernel}.

Lemma add_instance_loop_spec rounds cur s (p q : ptr) :
  (rounds = 0%nat \/ instances_at cur s = Ok (q, s)) -> q <> p ->
  add_instance_loop rounds cur p s = Ok (false, s).
Proof.
  intros Hq Hne. induction rounds as [|rounds IH]; [done|]. destruct Hq as [|Hq]; [done|].
  cbn [add_instance_loop]. erewrite K_bind_ok by exact Hq. cbn beta.
  rewrite decide_False by done. auto.
Qed.

(** The state after [__awds_add_instance]. *)
Definition registered (s : kstate) (l : positive) (i : awds_instance) : kstate :=
  KState (<[Z.to_nat (awds_instance_index s + 1) := Some l]> (awds_instances s)) (awds_instance_index s + 1)
    (awds_instance_mutex s) (awds_routing s) (awds_routing_count s) (configuration s) (statistics s) (awds_stats s)
    (<[l := Instance (awds_instance_index s + 1) (inst_sock i) (inst_lock i)]> (h_inst s)) (h_if s) (h_addr s) (h_sock s) (h_uc s)
    (next_loc s) (trace s).

Lemma __awds_add_instance_spec s l i (R : list binding) :
  awds_instances s = (Some ∘ b_loc <$> R) ++ replicate (4 - length R) null ->
  awds_instance_index s = Z.of_nat (length R) - 1 -> (length R < 4)%nat ->
  (forall b, b ∈ R -> b_loc b <> l) -> awds_instance_mutex s = true -> h_inst s !! l = Some i ->
  __awds_add_instance (Some l) s = Ok (0, registered s l i).
Proof.
  intros Ha Hx Hlt Hne Hm Hi. unfold __awds_add_instance. kstep. rewrite Hm. kstep.
  erewrite K_bind_ok.
  2:{ destruct R as [|b R _] using rev_ind.
      - eapply (add_instance_loop_spec _ _ _ _ null); [|done]. left. rewrite Hx. done.
      - eapply (add_instance_loop_spec _ _ _ _ (Some (b_loc b))).
        + right. unfold instances_at. rewrite Hx, length_app. cbn [length].
          rewrite (proj2 (Z.leb_le 0 _)) by lia.
          replace (Z.to_nat _) with (length (Some ∘ b_loc <$> R)) by (rewrite length_fmap; lia).
          rewrite Ha, fmap_app, <- app_assoc. cbn [fmap list_fmap app]. by rewrite list_lookup_middle.
        + intros [= He]. apply (Hne b); [|done]. apply elem_of_app. right. by apply list_elem_of_singleton. }
  cbn beta iota. destruct (Z.eqb_spec (awds_instance_index s) MAX_AWDS_INDEX) as [E|_].
  { unfold MAX_AWDS_INDEX, MAX_AWDS_COUNT in E. lia. }
  kstep. kstep. unfold instances_put.
  erewrite K_bind_ok.
  2:{ cbn. rewrite Ha at 1. rewrite length_app, length_fmap, length_replicate.
      rewrite (proj2 (Z.leb_le 0 _)), (proj2 (Z.ltb_lt _ _)) by lia. reflexivity. }
  done.
Qed.
End create_instance.

Section bind_theorem.
Context `{LinuxKernel}.

(** The abstract effect of binding a socket that has no instance yet. *)
Definition bind_new_result (t : list kcall) (l sk : positive) (addr : sockaddr_awds)
    (R : list binding) : Z * list binding :=
  if (4 <=? length R)%nat then (- ENOBUFS, R)
  else if kmalloc_ok t then
    match attach_result (CKmalloc :: t) (sa_ifindex addr) false [] with
    | Attached dev => (0, R ++ [Binding l sk [BoundIf (Pos.succ l) dev addr] false])
    | a => (attach_code a 0, R)
    end
  else (- ENOBUFS, R).

Lemma attach_result_empty t idx :
  match attach_result t idx false [] with
  | Busy | InUse _ | Refused _ => False | _ => True end.
Proof. unfold attach_result. repeat (case_match; try done). Qed.

(** The instance of a failed attempt is freed again. *)
Lemma discard_instance s R sk k t nl :
  registry s R -> h_sock s !! sk = Some k -> sk ∉ b_sock <$> R -> (Pos.succ (next_loc s) <= nl)%positive ->
  let s1 := set_next_loc nl (set_trace t (with_new_instance s sk k)) in
  exists s', kfree (A := awds_instance) (Some (next_loc s)) s1 = Ok (tt, s') /\
    registry s' R /\ awds_instance_mutex s' = awds_instance_mutex s.
Proof.
  intros Hr Hk Hn Hnl s1. destruct (registry_fresh s R Hr) as (Hi & _).
  eexists. split; [eapply kfree_ok; cbn; apply lookup_insert_eq|]. split; [|done].
  eapply (registry_free_sock s _ R sk (set_table null (set_interf null k)) Hr Hn); cbn; try done; [by eapply Hr| |lia].
  rewrite delete_insert_eq. by apply delete_id.
Qed.

(** The new instance takes the next slot of the array. *)
Lemma registry_new_instance s R sk k dev addr :
  registry s R -> h_sock s !! sk = Some k -> sk ∉ b_sock <$> R -> (length R < 4)%nat ->
  let s1 := with_new_instance s sk k in
  let k1 := set_table null (set_interf null k) in
  let s2 := linked (allocated s1 dev addr) [] (next_loc s1) sk k1 (fresh_interface s1 dev addr) in
  registry (registered s2 (next_loc s) (Instance (-1) (Some sk) false))
    (R ++ [Binding (next_loc s) sk [BoundIf (Pos.succ (next_loc s)) dev addr] false]).
Proof.
  intros Hr Hk Hn Hlt s1 k1 s2. destruct (registry_fresh s R Hr) as (Hi & _ & _ & Ha).
  assert (h_if s !! Pos.succ (next_loc s) = None) as Hf.
  { apply eq_None_not_Some. intros Hs. apply Hr in Hs. lia. }
  assert (h_addr s !! Pos.succ (Pos.succ (next_loc s)) = None) as Ha2.
  { apply eq_None_not_Some. intros Hs. apply Hr in Hs. lia. }
  pose proof (reg_index _ _ Hr) as Hx.
  eapply (registry_append s _ R _ (add_ifcount 1 (set_interf (Some (Pos.succ (next_loc s))) k1))); cbn; try done.
  - f_equal. lia.
  - lia.
  - rewrite insert_insert_eq. do 2 f_equal. lia.
  - by rewrite insert_insert_eq.
  - eexists. cbn. rewrite lookup_insert_eq. split; [done|]. cbn.
    rewrite (reg_free _ _ Hr sk k Hk Hn). split; [done|]. split; [done|]. split; [|done].
    exists (Pos.succ (Pos.succ (next_loc s))), 0. by rewrite !lookup_insert_eq.
  - intros l Hl. apply not_elem_of_cons in Hl as [Hl _]. rewrite !lookup_insert_ne by done. done.
  - intros l ->%list_elem_of_singleton. done.
  - intros l a Hla. rewrite lookup_insert_ne; [done|congruence].
  - apply NoDup_singleton.
  - apply NoDup_singleton.
  - intros l Hs. rewrite insert_insert_eq in Hs. eapply lookup_insert_fresh; [| |exact Hs]; [|lia].
    intros j Hj. apply (reg_fresh_inst _ _ Hr) in Hj. lia.
  - intros l Hs. rewrite insert_insert_eq in Hs. eapply lookup_insert_fresh; [| |exact Hs]; [|lia].
    intros j Hj. apply (reg_fresh_if _ _ Hr) in Hj. lia.
  - intros l Hs. eapply lookup_insert_fresh; [| |exact Hs]; [|lia].
    intros j Hj. apply (reg_fresh_addr _ _ Hr) in Hj. lia.
Qed.

Lemma bind_new s R sk k addr :
  registry s R -> awds_instance_mutex s = true -> h_sock s !! sk = Some k -> sk ∉ b_sock <$> R ->
  let '(r, R') := bind_new_result (trace s) (next_loc s) sk addr R in
  exists s', __awds_create_instance (Some sk) (Some addr) s = Ok (r, s') /\ registry s' R' /\
             awds_instance_mutex s' = true.
Proof.
  intros Hr Hm Hk Hn. unfold bind_new_result, __awds_create_instance. kstep.
  rewrite (reg_index _ _ Hr). pose proof (reg_bound _ _ Hr) as Hb.
  destruct (Nat.leb_spec 4 (length R)) as [Hge|Hlt].
  { rewrite (proj2 (Z.leb_le _ _)) by (unfold MAX_AWDS_INDEX, MAX_AWDS_COUNT; lia).
    eexists. split; [reflexivity|]. split; [|done]. eapply registry_ext; try done.
    cbn. rewrite (reg_index _ _ Hr). unfold MAX_AWDS_INDEX, MAX_AWDS_COUNT. lia. }
  rewrite (proj2 (Z.leb_gt _ _)) by (unfold MAX_AWDS_INDEX, MAX_AWDS_COUNT; lia).
  destruct (kmalloc_ok (trace s)) eqn:K0.
  2:{ erewrite K_bind_ok by (by apply kmalloc_no). eexists. split; [reflexivity|]. split; [reg_ext|done]. }
  erewrite K_bind_ok by (by apply kmalloc_yes). cbn beta iota.
  kstep. kstep.
  set (s1 := with_new_instance s sk k).
  match goal with |- context [mbind ?f ?m ?st] => replace st with s1 by apply with_new_instance_eq end.
  destruct (owns_new_instance s R sk k Hr Hk Hn) as (Ho & Hf & Ha).
  pose proof (awds_create_interface_spec s1 (next_loc s) sk (-1) false _ [] addr Ho Hf Ha) as Hp.
  cbn [fmap list_fmap] in Hp. change (trace s1) with (CKmalloc :: trace s) in Hp.
  pose proof (attach_result_empty (CKmalloc :: trace s) (sa_ifindex addr)) as Hemp.
  destruct (attach_result (CKmalloc :: trace s) (sa_ifindex addr) false []) as [| |dev|dev|dev|dev];
    try done; cbn [attach_post attach_code] in *; clear Hemp.
  - destruct Hp as [t Hp]. erewrite K_bind_ok by exact Hp. cbn beta iota.
    destruct (discard_instance s R sk k t (Pos.succ (next_loc s)) Hr Hk Hn ltac:(lia)) as (s' & Hfree & Hr' & Hm').
    exists s'. rewrite Hm' in *. split; [|done]. change (- EAWDSINVAL =? 0) with false. cbn iota.
    erewrite K_bind_ok by exact Hfree. done.
  - destruct Hp as (t & nl & Hp & Hle). erewrite K_bind_ok by exact Hp. cbn beta iota.
    destruct (discard_instance s R sk k t nl Hr Hk Hn ltac:(subst s1; cbn in Hle; lia)) as (s' & Hfree & Hr' & Hm').
    exists s'. rewrite Hm' in *. split; [|done]. change (- ENOBUFS =? 0) with false. cbn iota.
    erewrite K_bind_ok by exact Hfree. done.
  - erewrite K_bind_ok by exact Hp. cbn beta iota. change (0 =? 0) with true. cbn iota.
    eexists. split; [|split; [by apply (registry_new_instance s R sk k dev addr Hr Hk Hn Hlt)|]]; [|done].
    erewrite K_bind_ok; [reflexivity|]. erewrite K_bind_ok; [reflexivity|].
    apply (__awds_add_instance_spec _ _ _ R); try done; try apply Hr.
    + intros b HbR He. change (b_loc b = next_loc s) in He. destruct (registry_fresh s R Hr) as (Hi & _).
      apply list_elem_of_lookup in HbR as [i HbR]. rewrite <- He, (reg_inst _ _ Hr i b HbR) in Hi. done.
    + cbn. apply lookup_insert_eq.
Qed.

(** The abstract effect of [bind]: result code and new registry, or a deadlock. *)
Definition bind_result (t : list kcall) (l sk : positive) (addr : sockaddr_awds)
    (R : list binding) : outcome (Z * list binding) :=
  match list_find (fun b => b_sock b = sk) R with
  | Some (i, b) =>
      match attach_result t (sa_ifindex addr) (b_held b) (bi_dev <$> b_ifs b) with
      | Busy => Fail Deadlock
      | a => Ok (attach_code a (length (b_ifs b)), <[i := attached_binding a l addr b]> R)
      end
  | None => Ok (bind_new_result t l sk addr R)
  end.

Lemma registry_mutex s R v : registry s R -> registry (set_mutex v s) R.
Proof. intros Hr. reg_ext. Qed.

Lemma bind_refines s R sk addr :
  registry s R -> awds_instance_mutex s = false -> is_Some (h_sock s !! sk) ->
  match bind_result (trace s) (next_loc s) sk addr R with
  | Fail f => awds_socket_bind (Some sk) addr s = Fail f
  | Ok (r, R') => exists s', awds_socket_bind (Some sk) addr s = Ok (r, s') /\
                    registry s' R' /\ awds_instance_mutex s' = false
  end.
Proof.
  intros Hr Hm [k Hk]. apply (registry_mutex s R true) in Hr as Hr1.
  unfold bind_result, awds_socket_bind.
  erewrite K_bind_ok by (unfold mutex_lock_global; by rewrite Hm). cbn beta.
  erewrite K_bind_ok by (by apply (find_instance_by_sock_spec (set_mutex true s) R)). cbn beta.
  destruct (list_find (fun b => b_sock b = sk) R) as [[i b]|] eqn:E; cbn [fmap option_fmap option_map snd].
  - apply list_find_Some in E as (Hi & _ & _).
    pose proof (bind_existing (set_mutex true s) R i b addr Hr1 Hi) as Hb. cbn zeta in Hb.
    change (trace (set_mutex true s)) with (trace s) in Hb.
    change (next_loc (set_mutex true s)) with (next_loc s) in Hb.
    destruct (attach_result (trace s) _ _ _); [|by apply K_bind_fail|..];
      destruct Hb as (s' & Hb & Hr' & Hm'); erewrite K_bind_ok by exact Hb; cbn beta;
      exists (set_mutex false s'); (split; [|split; [by apply registry_mutex|done]]);
      (erewrite K_bind_ok; [reflexivity|]); unfold mutex_unlock_global; by rewrite Hm'.
  - assert (sk ∉ b_sock <$> R) as Hn.
    { intros (b & -> & Hb)%list_elem_of_fmap. apply list_find_None in E.
      rewrite Forall_forall in E. by apply (E b). }
    pose proof (bind_new (set_mutex true s) R sk k addr Hr1 eq_refl Hk Hn) as Hb.
    change (trace (set_mutex true s)) with (trace s) in Hb.
    change (next_loc (set_mutex true s)) with (next_loc s) in Hb.
    destruct (bind_new_result _ _ _ _ _) as [r R'] eqn:Eb.
    destruct Hb as (s' & Hb & Hr' & Hm'). erewrite K_bind_ok by exact Hb. cbn beta.
    exists (set_mutex false s'). split; [|split; [by apply registry_mutex|done]].
    erewrite K_bind_ok; [reflexivity|]. unfold mutex_unlock_global; by rewrite Hm'.
Qed.
(** C10. [bind] refines the registry: from every state that represents the
    registry [R], with the instance mutex free, binding a live socket gives the
    result code of the specification [bind_result] and a state that represents
    the new registry, with the mutex free again; it deadlocks exactly when the
    specification says so, i.e. when the lock of the instance is still held. *)
Theorem bind_refines_registry s R sk addr :
  registry s R -> awds_instance_mutex s = false -> is_Some (h_sock s !! sk) ->
  match bind_result (trace s) (next_loc s) sk addr R with
  | Fail f => awds_socket_bind (Some sk) addr s = Fail f
  | Ok (r, R') => exists s', awds_socket_bind (Some sk) addr s = Ok (r, s') /\
                    registry s' R' /\ awds_instance_mutex s' = false
  end.
Proof. apply bind_refines. Qed.
End bind_theorem.

(** ** Examples *)

Definition no_user : Z -> nat -> list Z := fun _ _ => [].

(** The state after loading the module and creating one socket. *)
Definition one_socket : kstate :=
  KState (replicate 4 null) (-1) false None 0 3 1 awds_stats0
    ∅ ∅ ∅ {[1%positive := Sock 0 null null 0 false 0 []]} ∅ 2 [CSkAlloc].

Lemma one_socket_registry : registry one_socket [].
Proof.
  constructor; try done; try apply NoDup_nil_2;
    try (intros b Hb; by apply elem_of_nil in Hb);
    try (cbn; intros l [x Hx]; by rewrite lookup_empty in Hx).
  { cbn. lia. }
  cbn. intros sk k Hk _. apply lookup_singleton_Some in Hk as [_ <-]. done.
Qed.

Definition some_mac (n : Z) : list Z := [2; 0; 0; 0; 0; n].

Lemma bind_refines_registry_witness :
  exists s', awds_socket_bind (H := linux_sim no_user) (Some 1%positive) (SockAddr 32 3 (some_mac 1)) one_socket = Ok (0, s') /\
    registry s' [Binding 2 1 [BoundIf 3 3 (SockAddr 32 3 (some_mac 1))] false] /\
    awds_instance_mutex s' = false.
Proof.
  exact (bind_refines_registry (H := linux_sim no_user) one_socket [] 1%positive (SockAddr 32 3 (some_mac 1))
           one_socket_registry eq_refl ltac:(by eexists)).
Defined.
