(* ===== verification/KPacketThms.v ===== *)
(** * The kernel module: the packet handler

    [awds_packet_rcv] end to end on the registry of [KBindThms] and the routing
    table of [KRouteThms]: when it forwards and what it sends, and what it does
    when the instance mutex is not held. *)

From S2P Require Import Prelude Bytes KState KInstance KForward KRouteThms KBindThms.

(** The binding that receives the packets of a device. *)
Definition serves (dev : Z) (b : binding) : Prop := is_Some (find_dev dev (b_ifs b)).
#[export] Instance serves_dec dev b : Decision (serves dev b).
Proof. unfold serves. apply _. Defined.

Section rcv.
Context `{LinuxKernel}.

Lemma find_by_dev_loop_spec s R dev R1 R2 :
  registry s R -> R = R1 ++ R2 -> Forall (fun b => b_held b = false) R2 ->
  find_by_dev_loop (length R2) (Z.of_nat (length R1)) dev s =
    Ok ((fun ib => b_loc ib.2) <$> list_find (serves dev) R2, s).
Proof.
  intros Hr. revert R1. induction R2 as [|b R2 IH]; intros R1 HR Hh; [done|].
  apply Forall_cons in Hh as [Hb Hh]. cbn [length find_by_dev_loop list_find].
  assert (R !! length R1 = Some b) as Hi by (subst R; by apply list_lookup_middle).
  erewrite K_bind_ok by (by eapply instances_at_ok). cbn beta.
  destruct (registry_owns s R _ b Hr Hi) as [k Ho]. rewrite Hb in Ho.
  erewrite K_bind_ok by (by eapply awds_find_interface_spec). cbn beta.
  destruct (find_dev dev (b_ifs b)) as [f|] eqn:E.
  - rewrite decide_True by (unfold serves; rewrite E; by eexists). by eapply instances_at_ok.
  - rewrite decide_False by (unfold serves; rewrite E; by intros []). cbn [fmap option_fmap option_map].
    replace (Z.of_nat (length R1) + 1) with (Z.of_nat (length (R1 ++ [b]))) by (rewrite length_app; cbn; lia).
    rewrite IH by (done || (subst R; by rewrite <- app_assoc)).
    by destruct (list_find (serves dev) R2) as [[? ?]|].
Qed.

Lemma find_instance_by_dev_spec s R dev :
  registry s R -> awds_instance_mutex s = true -> Forall (fun b => b_held b = false) R ->
  __awds_find_instance_by_dev dev s = Ok ((fun ib => b_loc ib.2) <$> list_find (serves dev) R, s).
Proof.
  intros Hr Hm Hh. unfold __awds_find_instance_by_dev. kstep. rewrite Hm. kstep.
  rewrite (reg_index _ _ Hr). replace (Z.to_nat _) with (length R) by lia.
  by apply (find_by_dev_loop_spec s R dev [] R).
Qed.

(** The packet handler takes no lock (its [mutex_lock] is commented out),
    and the search for the instance gives up unless the instance mutex is held:
    whenever no other context holds the mutex, every AWDS packet is freed,
    whatever instances are bound. *)
Theorem packet_rcv_drops_without_mutex skb dev s :
  awds_instance_mutex s = false -> skb_protocol skb = ETH_P_AWDS ->
  awds_packet_rcv skb dev s = Ok (0, set_trace (CKfreeSkb skb :: trace s) s).
Proof.
  intros Hm Hp. unfold awds_packet_rcv, __awds_find_instance_by_dev. rewrite Hp, Z.eqb_refl. cbn [negb].
  erewrite K_bind_ok; [|kstep; rewrite Hm; reflexivity]. done.
Qed.

(** ** Forwarding *)

(** The type of a long enough packet is its first byte. *)
Lemma packet_type_ok skb ty :
  22 <= skb_len skb -> skb_data skb !! 0%nat = Some ty -> awds_get_packet_type skb = Ok ty.
Proof.
  intros Hl Ht. unfold awds_get_packet_type. rewrite (proj2 (Z.ltb_ge (skb_len skb) _)) by (unfold ETH_ALEN; lia).
  rewrite (skb_byte_data skb 0) by lia. unfold byte_at. change (Z.to_nat 0) with 0%nat. by rewrite Ht.
Qed.

Lemma count_unicast_packet skb t :
  22 <= skb_len skb -> skb_data skb !! 0%nat = Some PACKET_UNICAST ->
  awds_count_packet skb t = Ok (count_unicast (count_total t)).
Proof.
  intros Hl Ht. unfold awds_count_packet. rewrite (proj2 (Z.ltb_ge (skb_len skb) _)) by (unfold ETH_ALEN; lia).
  rewrite (skb_byte_data skb 0) by lia. unfold byte_at. change (Z.to_nat 0) with 0%nat. by rewrite Ht.
Qed.

Lemma memcmp_ne a d : mac_ok a -> mac_ok d -> a <> d -> memcmp a d <> 0.
Proof.
  intros [La Ba] [Ld Bd] Hne He. apply Hne, be_dec_inj; try done; [congruence|].
  pose proof (memcmp_spec a d Ba Bd ltac:(congruence)) as X. rewrite He in X.
  symmetry in X. by apply Z.compare_eq_iff.
Qed.

Lemma if_list_found h ha prev ifs dev b :
  if_list h ha prev ifs -> find_dev dev ifs = Some b ->
  exists f la, h !! bi_loc b = Some f /\ if_addr f = Some la /\ ha !! la = Some (bi_addr b).
Proof.
  revert prev. induction ifs as [|c ifs IH]; intros prev Hl Hf; [done|].
  cbn in Hl. destruct Hl as [(la & idx & Hc & Ha) Hr]. unfold find_dev in *. cbn in Hf.
  case_decide.
  - injection Hf as <-. eauto 10.
  - eapply IH; [exact Hr|]. by destruct (list_find _ ifs) as [[? ?]|].
Qed.

(** The forwarding step on a state that holds a table with an entry for the
    destination. *)
Lemma forward_ok s es j nh skb t self :
  has_table s es -> es !! j = Some (dest_of skb, nh) ->
  bytes (skb_buf skb) -> 22 <= skb_len skb -> (14 <= skb_off skb)%nat ->
  skb_data skb !! 21%nat = Some t -> u8 (t - 1) <> 0 -> self <> 0 ->
  Z.land (configuration s) AWDS_FORWARD_CONFIG <> 0 -> statistics s = 1 ->
  (forall tr, dev_up tr (skb_dev skb) = true) -> (forall tr f, dev_queue_xmit tr f = 0) ->
  exists skb' s',
    forward self skb s = Ok ((true, skb'), s') /\
    retransmit_frame skb (Ok nh) = Ok (Some skb') /\
    trace s' = CXmit skb' :: trace s /\ awds_stats s' = count_forwarded (awds_stats s).
Proof.
  intros Ht He Hb Hl Ho Httl Hz Hs Hc Hst Hup Hx.
  destruct (check_routing_ok s es skb Ht Hb ltac:(lia)) as (r & Hr & Hres).
  pose proof Ht as (Htb & _ & Hok & Hsort & _).
  assert (exists i, r = Some (Z.of_nat i) /\ es !! i = Some (dest_of skb, nh)) as (i & -> & Hi).
  { destruct r as [z|]; cbn in Hres.
    - destruct Hres as (i & e & -> & Hi & Hd). exists i. split; [done|].
      destruct (Nat.lt_total i j) as [Hij|[->|Hij]]; [|congruence|].
      + pose proof (Hsort i j e _ Hij Hi He) as X. rewrite Hd in X. by apply Z.lt_irrefl in X.
      + pose proof (Hsort j i _ e Hij He Hi) as X. rewrite Hd in X. by apply Z.lt_irrefl in X.
    - exfalso. apply (Hres (dest_of skb, nh)); [by eapply list_elem_of_lookup_2|done]. }
  assert (mac_ok nh) as [Ln _] by (apply (Forall_lookup_1 _ _ _ _ Hok He)).
  destruct (retransmit_frame_spec skb nh t Ho Hl Ln Httl) as [_ Hf].
  destruct (Hf Hz) as (skb' & Hframe & _ & Hdev & _ & _).
  exists skb'. unfold forward. erewrite K_bind_ok by exact Hr. cbn beta. kstep.
  rewrite (proj2 (Z.eqb_neq _ _) Hs), (proj2 (Z.eqb_neq _ _) Hc). cbn [negb andb]. cbn iota.
  eexists. split; [|split; [exact Hframe|]].
  { erewrite K_bind_ok.
    2:{ unfold __awds_do_retransmit. kstep. rewrite Htb.
        cbn [of_option]. rewrite (outcome_ret_bind (table_of es)), (entry_nexthop_ok es i _ Hok Hi). cbn [snd].
        rewrite Hframe. kstep.
        erewrite K_bind_ok.
        2:{ unfold awds_send. kstep. rewrite Hdev, Hup. kstep. rewrite Hx. kstep. reflexivity. }
        reflexivity. }
    cbn beta iota zeta. cbn [fst snd].
    change ((if 0 <? 0 then net_xmit_errno 0 else 0) =? 0) with true. cbn iota.
    erewrite K_bind_ok; [reflexivity|]. unfold count. kstep. cbn. rewrite Hst. reflexivity. }
  done.
Qed.

End rcv.

(** ** Examples *)

Lemma packet_rcv_drops_without_mutex_witness :
  awds_packet_rcv (H := linux_sim no_user) (SkBuff [] 0 3 ETH_P_AWDS) 3 one_socket =
    Ok (0, set_trace [CKfreeSkb (SkBuff [] 0 3 ETH_P_AWDS); CSkAlloc] one_socket).
Proof. exact (packet_rcv_drops_without_mutex (H := linux_sim no_user) (SkBuff [] 0 3 ETH_P_AWDS) 3 one_socket eq_refl eq_refl). Defined.

Lemma some_mac_ok n : is_byte n -> mac_ok (some_mac n).
Proof.
  intros Hn. split; [done|]. repeat (apply Forall_cons_2 || apply Forall_nil_2); unfold is_byte in *; lia.
Qed.

Definition own_addr : sockaddr_awds := SockAddr 32 3 (some_mac 1).
Definition two_routes : list (list Z * list Z) :=
  [(some_mac 7, some_mac 4); (some_mac 9, some_mac 5)].

(** One socket bound to device 3, the mutex held by another context, and a
    table of two routes. *)
Definition forwarding_state : kstate :=
  KState [Some 2%positive; null; null; null] 0 true (Some (table_of two_routes)) 2 3 1 awds_stats0
    {[2%positive := Instance 0 (Some 1%positive) false]}
    {[3%positive := Interface null null 0 (Some 3) (Some 4%positive)]}
    {[4%positive := own_addr]}
    {[1%positive := Sock 1 (Some 3%positive) null 0 false 0 []]} ∅ 5 [].

Definition forwarding_bindings : list binding := [Binding 2 1 [BoundIf 3 3 own_addr] false].

Lemma forwarding_registry : registry forwarding_state forwarding_bindings.
Proof.
  constructor; try done; try apply NoDup_singleton;
    try (cbn; intros l [x Hx]; by apply lookup_singleton_Some in Hx as [<- _]).
  - cbn. lia.
  - intros i b Hb. destruct i as [|i]; [|by destruct i]. by injection Hb as <-.
  - intros b ->%list_elem_of_singleton. eexists. split; [reflexivity|]. repeat split.
    by exists 4%positive, 0.
  - intros b ->%list_elem_of_singleton. apply NoDup_singleton.
  - cbn. intros sk k Hk Hn. apply lookup_singleton_Some in Hk as [<- _]. set_solver.
Qed.

(** A unicast packet of 30 bytes for node 9 with TTL 20. *)
Definition unicast_skb : sk_buff :=
  SkBuff (some_mac 1 ++ some_mac 8 ++ [131; 52] ++
          [2] ++ some_mac 8 ++ [0; 1] ++ some_mac 9 ++ some_mac 1 ++ [20; 0] ++ [1; 2; 3; 4; 5; 6; 7])
    14 3 ETH_P_AWDS.

Lemma two_routes_table : has_table forwarding_state two_routes.
Proof.
  split; [done|]. split; [done|]. split; [|split; [|done]].
  - repeat (apply Forall_cons_2 || apply Forall_nil_2); split; apply some_mac_ok; unfold is_byte; lia.
  - intros i j e f Hij Hi Hj. destruct i as [|[|i]], j as [|[|j]]; cbn in Hi, Hj; try lia; try done.
    injection Hi as <-. injection Hj as <-. done.
Qed.

