(* ===== verification/KSocketThms.v ===== *)
(** * The kernel module: theorems on the socket interface

    Installing a routing table through [ioctl], the receive queue, closing a
    bound socket, and what a third interface does to an instance. *)

From S2P Require Import Prelude Bytes KState KInstance KForward KSocket KRouteThms KBindThms KPacketThms.

(** ** [ioctl] *)

(** The four bytes of a length in user memory. *)
Definition int_bytes (n : Z) : list Z := rev (be_enc 4 n).

Lemma int_of_int_bytes n : 0 <= n < 2 ^ 31 -> int_of_bytes (int_bytes n) = n.
Proof.
  intros Hn. unfold int_of_bytes, int_bytes. rewrite rev_involutive, be_dec_enc_id.
  - apply swrap_id; lia.
  - change (256 ^ Z.of_nat 4) with (2 ^ 32). lia.
Qed.

(** The command that installs a table, as the checks and the [switch] see it. *)
Lemma cmd_nr : (_IOC_TYPE AIOCSRTTBL =? AWDS_IOC_MAGIC) && (AWDS_IOC_MAX_NR <? _IOC_NR AIOCSRTTBL) = false.
Proof. reflexivity. Qed.
Lemma cmd_dir :
  negb (Z.land (_IOC_DIR AIOCSRTTBL) _IOC_READ =? 0) || negb (Z.land (_IOC_DIR AIOCSRTTBL) _IOC_WRITE =? 0) = true.
Proof. reflexivity. Qed.
Lemma cmd_set : (AIOCSRTTBL =? AIOCSCFGNR) = false.
Proof. reflexivity. Qed.
Lemma cmd_get : (AIOCSRTTBL =? AIOCGCFGNR) = false.
Proof. reflexivity. Qed.

Section socket_thms.
Context `{LinuxKernel}.

Lemma ioctl_dispatch_table s arg :
  (forall t a n, access_ok t a n = true) -> awds_socket_ioctl AIOCSRTTBL arg s = ioctl_set_table arg s.
Proof.
  intros Hacc. unfold awds_socket_ioctl.
  rewrite (K_bind_ok _ _ _ 0 s).
  - by rewrite (Z.eqb_refl 0), cmd_set, cmd_get, (Z.eqb_refl AIOCSRTTBL).
  - unfold ioctl_checks. rewrite cmd_nr. unfold ask, gets, mbind, M_bind. by rewrite Hacc, cmd_dir.
Qed.

Lemma user_read_ok s addr n r bs :
  copy_from_user (trace s) addr n = (r, bs) ->
  user_read addr n s = Ok ((r, bs), set_trace (CCopyFrom addr n :: trace s) s).
Proof. intros Hu. unfold user_read, ask, gets, emit, modify, mbind, M_bind. by rewrite Hu. Qed.

(** The state with a new table. *)
Definition table_installed (s : kstate) (tbl : list Z) (count : Z) (t : list kcall) : kstate :=
  KState (awds_instances s) (awds_instance_index s) false (Some tbl) count
    (configuration s) (statistics s) (awds_stats s)
    (h_inst s) (h_if s) (h_addr s) (h_sock s) (h_uc s) (next_loc s) t.

Lemma replace_table_ok s arg data tbl :
  awds_instance_mutex s = false -> (forall t n, is_Some (kmalloc_bytes t n)) ->
  (forall t, copy_from_user t (arg + 4) (Z.to_nat data) = (0, tbl)) ->
  exists t, replace_table arg data s = Ok (0, table_installed s tbl (Z.quot data 12) t).
Proof.
  intros Hm Hmal Hu2. destruct s as [ins idx mu rt rc cfg st sts hi hf ha hs hu nl tr]. cbn in Hm. subst mu.
  unfold replace_table, table_installed, mutex_lock_global, mutex_unlock_global, modify, ask, gets, emit, mbind, M_bind, mret, M_ret.
  cbn. destruct (Hmal tr (Z.to_nat data)) as [junk Hj]. rewrite Hj.
  cbn. unfold user_read, ask, gets, emit, modify, mbind, M_bind, mret, M_ret. cbn. rewrite Hu2. cbn.
  eexists. reflexivity.
Qed.

Lemma ioctl_set_table_ok s arg data :
  0 < data < 2 ^ 31 -> Z.rem data 12 = 0 ->
  copy_from_user (trace s) arg 4 = (0, int_bytes data) ->
  ioctl_set_table arg s = replace_table arg data (set_trace (CCopyFrom arg 4 :: trace s) s).
Proof.
  intros Hd Hrem Hu1. unfold ioctl_set_table.
  rewrite (K_bind_ok _ _ _ _ _ (user_read_ok s arg 4 0 (int_bytes data) Hu1)).
  cbn [fst snd]. rewrite int_of_int_bytes by lia. rewrite (Z.eqb_refl 0).
  rewrite (proj2 (Z.ltb_lt 0 data)) by lia.
  change (Z.of_nat entry_size) with 12. by rewrite Hrem.
Qed.

Lemma ioctl_installs s es arg :
  Forall entry_ok es -> table_sorted es -> es <> [] -> Z.of_nat (length es) * 12 < 2 ^ 31 ->
  awds_instance_mutex s = false ->
  (forall t a n, access_ok t a n = true) -> (forall t n, is_Some (kmalloc_bytes t n)) ->
  (forall t, copy_from_user t arg 4 = (0, int_bytes (Z.of_nat (length es) * 12))) ->
  (forall t, copy_from_user t (arg + 4) (12 * length es) = (0, table_of es)) ->
  exists s', awds_socket_ioctl AIOCSRTTBL arg s = Ok (0, s') /\ has_table s' es /\
    awds_instance_mutex s' = false /\ awds_instances s' = awds_instances s /\
    h_inst s' = h_inst s /\ h_sock s' = h_sock s /\ awds_stats s' = awds_stats s.
Proof.
  intros Hok Hsort Hne Hlen Hm Hacc Hmal Hu1 Hu2.
  assert (0 < Z.of_nat (length es)) as Hpos by (destruct es; [done|]; cbn [length]; lia).
  rewrite ioctl_dispatch_table, (ioctl_set_table_ok s arg (Z.of_nat (length es) * 12)); try done;
    [|lia|by apply Z.rem_mul].
  destruct (replace_table_ok (set_trace (CCopyFrom arg 4 :: trace s) s) arg (Z.of_nat (length es) * 12) (table_of es))
    as [t Ht]; try done.
  { by replace (Z.to_nat (Z.of_nat (length es) * 12)) with (12 * length es)%nat by lia. }
  rewrite Z.quot_mul in Ht by done.
  eexists. split; [exact Ht|]. split; [|done].
  split; [done|]. split; [done|]. split; [done|]. split; [done|]. lia.
Qed.

(** Installing a table: when user memory holds the length and the bytes of
    a sorted list of entries, [ioctl(AIOCSRTTBL)] returns 0, releases the mutex
    and leaves the kernel with exactly that table, ready for the search; the
    instances, sockets and statistics are untouched. *)
Theorem ioctl_installs_table s es arg :
  Forall entry_ok es -> table_sorted es -> es <> [] -> Z.of_nat (length es) * 12 < 2 ^ 31 ->
  awds_instance_mutex s = false ->
  (forall t a n, access_ok t a n = true) -> (forall t n, is_Some (kmalloc_bytes t n)) ->
  (forall t, copy_from_user t arg 4 = (0, int_bytes (Z.of_nat (length es) * 12))) ->
  (forall t, copy_from_user t (arg + 4) (12 * length es) = (0, table_of es)) ->
  exists s', awds_socket_ioctl AIOCSRTTBL arg s = Ok (0, s') /\ has_table s' es /\
    awds_instance_mutex s' = false /\ awds_instances s' = awds_instances s /\
    h_inst s' = h_inst s /\ h_sock s' = h_sock s /\ awds_stats s' = awds_stats s.
Proof. apply ioctl_installs. Qed.

(** The table search on a state without the guard of [ioctl]: an unknown
    command releases the mutex nobody has taken. *)
Lemma ioctl_unknown_command s cmd arg :
  _IOC_TYPE cmd <> AWDS_IOC_MAGIC \/ _IOC_NR cmd <= AWDS_IOC_MAX_NR ->
  cmd <> AIOCSCFGNR -> cmd <> AIOCGCFGNR -> cmd <> AIOCSRTTBL ->
  awds_instance_mutex s = false -> (forall t a n, access_ok t a n = true) ->
  awds_socket_ioctl cmd arg s = Fail BadUnlock.
Proof.
  intros Hc H1 H2 H3 Hm Hacc. unfold awds_socket_ioctl.
  erewrite K_bind_ok.
  2:{ unfold ioctl_checks.
      replace ((_IOC_TYPE cmd =? AWDS_IOC_MAGIC) && (AWDS_IOC_MAX_NR <? _IOC_NR cmd)) with false.
      2:{ symmetry. apply andb_false_iff. destruct Hc; [left; by apply Z.eqb_neq|right; by apply Z.ltb_ge]. }
      cbn iota. kstep. rewrite Hacc. destruct (_ || _); reflexivity. }
  cbn beta. change (negb (0 =? 0)) with false. cbn iota.
  rewrite (proj2 (Z.eqb_neq _ _) H1), (proj2 (Z.eqb_neq _ _) H2), (proj2 (Z.eqb_neq _ _) H3).
  apply K_bind_fail. unfold mutex_unlock_global. by rewrite Hm.
Qed.

(** ** The receive queue *)

Definition with_queue (q : list sk_buff) (k : awds_sock) : awds_sock :=
  Sock (sk_ifcount k) (sk_interf k) (sk_table k) (sk_err k) (sk_shutdown k) (sk_rcvtimeo k) q.

(** The receive queue of a socket is first in, first out: what the packet
    handler queues is what [awds_socket_peek_skb] returns, in the same order,
    one packet per call, and a call with [MSG_DONTWAIT] on an empty queue
    returns -EAGAIN and changes nothing. *)
Theorem receive_queue_fifo sched s l k skbs fuel dontwait :
  h_sock s !! l = Some k -> sk_err k = 0 -> sk_receive_queue k = skbs -> (0 < fuel)%nat ->
  match skbs with
  | skb :: q =>
      awds_socket_peek_skb sched fuel (Some l) dontwait 0 s =
        Ok ((Some skb, 0), with_sock (<[l := with_queue q k]> (h_sock s)) s)
  | [] => awds_socket_peek_skb sched fuel (Some l) true 0 s = Ok ((None, - EAGAIN), s)
  end /\
  forall skb, (forall t, sock_queue_rcv_skb t l skb = 0) ->
    exists s', queue_to_user (Some l) skb s = Ok (0, s') /\
      h_sock s' = <[l := with_queue (skbs ++ [skb]) k]> (h_sock s).
Proof.
  intros Hk He Hq Hf. destruct fuel as [|fuel]; [lia|].
  assert (Sock (sk_ifcount k) (sk_interf k) (sk_table k) 0 (sk_shutdown k) (sk_rcvtimeo k) (sk_receive_queue k) = k)
    as Heta by (rewrite <- He; by destruct k).
  assert (sock_error (Some l) s = Ok (0, s)) as Herr.
  { unfold sock_error. kstep. kstep. rewrite He, Heta, insert_id by done. by destruct s. }
  split.
  - destruct skbs as [|skb q]; unfold awds_socket_peek_skb; erewrite K_bind_ok by exact Herr; cbn beta;
      rewrite (Z.eqb_refl 0); cbn [negb]; cbn iota; kstep; cbn [peek_loop].
    + erewrite K_bind_ok; [|unfold skb_dequeue; kstep; rewrite Hq; reflexivity]. done.
    + erewrite K_bind_ok; [|unfold skb_dequeue; kstep; rewrite Hq; cbn iota; kstep; reflexivity]. done.
  - intros skb Hr. unfold queue_to_user. kstep. rewrite Hr. kstep. change (0 =? 0) with true. cbn iota.
    kstep. kstep. eexists. split; [reflexivity|]. cbn. by rewrite Hq.
Qed.

(** ** A third interface *)

(** The binding of a socket in the registry. *)
Lemma list_find_sock R i b :
  NoDup (b_sock <$> R) -> R !! i = Some b -> list_find (fun c => b_sock c = b_sock b) R = Some (i, b).
Proof.
  intros Hnd Hi. apply list_find_Some. repeat split; try done.
  intros j c Hj Hlt He. assert (j = i) as ->; [|lia].
  eapply (NoDup_lookup _ _ _ _ Hnd); rewrite list_lookup_fmap; [by rewrite Hj|rewrite Hi; cbn; by rewrite He].
Qed.

(** An instance takes two interfaces.  Binding a socket that has two or more
    to a further, free device fails with a positive code although memory and
    device are there, and it leaves the lock of the instance held: every later
    [bind] of the socket to an existing device waits for ever. *)
Theorem third_interface_blocks s R i b addr :
  registry s R -> awds_instance_mutex s = false -> R !! i = Some b -> b_held b = false ->
  (2 <= length (b_ifs b))%nat ->
  (forall t, dev_get_by_index t (sa_ifindex addr) = Some (sa_ifindex addr)) ->
  sa_ifindex addr ∉ bi_dev <$> b_ifs b -> (forall t, kmalloc_ok t = true) ->
  exists s', awds_socket_bind (Some (b_sock b)) addr s = Ok (Z.of_nat (length (b_ifs b)) - 1, s') /\
    registry s' (<[i := with_held b]> R) /\
    forall addr', (forall t, is_Some (dev_get_by_index t (sa_ifindex addr'))) ->
      awds_socket_bind (Some (b_sock b)) addr' s' = Fail Deadlock.
Proof.
  intros Hr Hm Hi Hh Hlen Hdev Hnew Hmal.
  assert (is_Some (h_sock s !! b_sock b)) as Hs.
  { destruct (registry_owns s R i b Hr Hi) as [k Ho]. exists k. apply Ho. }
  pose proof (bind_refines s R (b_sock b) addr Hr Hm Hs) as H1.
  unfold bind_result in H1. rewrite (list_find_sock R i b (reg_socks _ _ Hr) Hi) in H1.
  assert (attach_result (trace s) (sa_ifindex addr) (b_held b) (bi_dev <$> b_ifs b) = Refused (sa_ifindex addr)) as Ha.
  { unfold attach_result. rewrite Hdev, Hh, decide_False, !Hmal, length_fmap by done.
    by rewrite (proj2 (Nat.ltb_ge _ _) Hlen). }
  rewrite Ha in H1. destruct H1 as (s' & Hb & Hr' & Hm'). cbn [attached_binding] in Hr'.
  exists s'. split; [rewrite Hb; cbn [attach_code]; do 2 f_equal; lia|]. split; [done|].
  intros addr' Hdev'.
  assert ((<[i := with_held b]> R) !! i = Some (with_held b)) as Hi'
    by (apply list_lookup_insert_eq; by eapply lookup_lt_Some).
  assert (is_Some (h_sock s' !! b_sock b)) as Hs'.
  { destruct (registry_owns s' _ i _ Hr' Hi') as [k Ho]. exists k. apply Ho. }
  pose proof (bind_refines s' _ (b_sock b) addr' Hr' Hm' Hs') as H2.
  unfold bind_result in H2. cbn [attached_binding] in H2.
  pose proof (list_find_sock _ i (with_held b) (reg_socks _ _ Hr') Hi') as Hf.
  change (b_sock (with_held b)) with (b_sock b) in Hf. rewrite Hf in H2. cbn [b_held with_held] in H2.
  unfold attach_result in H2. destruct (Hdev' (trace s')) as [d Hd]. rewrite Hd in H2. done.
Qed.

(** ** Closing a bound socket *)

(** Releasing the first interface of a list frees it. *)
Lemma release_head s il sk n k f fs :
  h_inst s !! il = Some (Instance n (Some sk) false) -> h_sock s !! sk = Some k ->
  if_list (h_if s) (h_addr s) null (f :: fs) -> NoDup (bi_loc <$> f :: fs) ->
  exists s', awds_release_interface (Some il) (Some (bi_loc f)) s = Ok (0, s') /\ h_if s' !! bi_loc f = None.
Proof.
  intros Hinst Hk Hl Hnd. cbn [if_list] in Hl. destruct Hl as [(la & idx & Hf & _) Hl].
  unfold awds_release_interface. kstep. unfold __awds_del_interface.
  destruct fs as [|g fs].
  - eexists. split.
    + erewrite K_bind_ok; [reflexivity|].
      kstep. cbn [inst_lock inst_sock]. kstep. cbn [if_prev if_next if_dev head fmap option_fmap option_map].
      kstep. kstep. kstep. kstep. kstep. kstep. reflexivity.
    + cbn. apply lookup_delete_eq.
  - cbn [if_list] in Hl. destruct Hl as [(lb & idg & Hg & _) _].
    assert (bi_loc f <> bi_loc g) as Hfg.
    { cbn in Hnd. apply NoDup_cons in Hnd as [Hn _]. intros He. apply Hn. rewrite He. apply elem_of_cons. auto. }
    eexists. split.
    + erewrite K_bind_ok; [reflexivity|].
      kstep. cbn [inst_lock inst_sock]. kstep. cbn [if_prev if_next if_dev head fmap option_fmap option_map].
      kstep. kstep. erewrite K_bind_ok; [|eapply update_ok; cbn; rewrite lookup_insert_ne by done; exact Hf]. cbn beta.
      kstep. kstep. kstep. reflexivity.
    + cbn. apply lookup_delete_eq.
Qed.

(** Closing a bound socket is a use after free: for every instance with an
    interface, [awds_socket_release] reads the [next] member of the interface
    it has just freed. *)
Theorem release_uses_freed_interface s R i b :
  registry s R -> awds_instance_mutex s = false -> R !! i = Some b -> b_held b = false -> b_ifs b <> [] ->
  awds_socket_release (Some (b_sock b)) s = Fail UseAfterFree.
Proof.
  intros Hr Hm Hi Hh Hne. apply (registry_mutex s R true) in Hr as Hr1.
  destruct (registry_owns _ R i b Hr1 Hi) as [k Ho]. rewrite Hh in Ho.
  unfold awds_socket_release.
  erewrite K_bind_ok by (unfold mutex_lock_global; by rewrite Hm). cbn beta.
  erewrite K_bind_ok by (by apply (find_instance_by_sock_spec (set_mutex true s) R)). cbn beta.
  rewrite (list_find_sock R i b (reg_socks _ _ Hr) Hi). cbn [fmap option_fmap option_map snd].
  apply K_bind_fail, K_bind_fail. unfold __awds_release_instance.
  destruct (b_ifs b) as [|f fs]; [done|]. destruct Ho as [Hinst Hk _ Hhd Hl Hnd].
  kstep. change (awds_instance_mutex (set_mutex true s)) with true. cbn iota.
  kstep. cbn [inst_sock]. kstep. kstep. kstep. rewrite Hhd.
  apply K_bind_fail. cbn [release_instance_loop head fmap option_fmap option_map].
  set (s1 := with_sock _ _).
  destruct (release_head s1 (b_loc b) (b_sock b) (Z.of_nat i) (set_interf null k) f fs) as (s' & Hrel & Hnone);
    try done.
  { cbn. apply lookup_insert_eq. }
  erewrite K_bind_ok by exact Hrel. cbn beta. change (0 =? 0) with true. cbn iota.
  apply K_bind_fail. unfold load. cbn. by rewrite Hnone.
Qed.
End socket_thms.

(** ** Examples *)

(** User memory with a table of two routes at address 100. *)
Definition user_table (a : Z) (n : nat) : list Z :=
  if a =? 100 then int_bytes 24 else table_of two_routes.

Lemma ioctl_installs_table_witness :
  exists s', awds_socket_ioctl (H := linux_sim user_table) AIOCSRTTBL 100 one_socket = Ok (0, s') /\
    has_table s' two_routes /\ awds_instance_mutex s' = false /\
    awds_instances s' = awds_instances one_socket /\ h_inst s' = h_inst one_socket /\
    h_sock s' = h_sock one_socket /\ awds_stats s' = awds_stats one_socket.
Proof.
  pose proof two_routes_table as (_ & _ & Hok & Hs & _).
  apply (ioctl_installs_table (H := linux_sim user_table) one_socket two_routes 100); try done.
Defined.

Lemma receive_queue_fifo_witness :
  awds_socket_peek_skb (H := linux_sim no_user) (fun s t => (0, s)) 1 (Some 1%positive) true 0 one_socket = Ok ((None, - EAGAIN), one_socket) /\
  forall skb, (forall t, sock_queue_rcv_skb (LinuxKernel := linux_sim no_user) t 1%positive skb = 0) ->
    exists s', queue_to_user (H := linux_sim no_user) (Some 1%positive) skb one_socket = Ok (0, s') /\
      h_sock s' = <[1%positive := with_queue ([] ++ [skb]) (Sock 0 null null 0 false 0 [])]> (h_sock one_socket).
Proof.
  exact (receive_queue_fifo (H := linux_sim no_user) (fun s t => (0, s)) one_socket 1%positive (Sock 0 null null 0 false 0 []) []
           1 true eq_refl eq_refl eq_refl ltac:(lia)).
Defined.

(** One socket with two interfaces. *)
Definition two_interfaces : kstate :=
  KState [Some 2%positive; null; null; null] 0 false None 0 3 1 awds_stats0
    {[2%positive := Instance 0 (Some 1%positive) false]}
    (<[5%positive := Interface null (Some 3%positive) 0 (Some 4) (Some 6%positive)]>
       {[3%positive := Interface (Some 5%positive) null 0 (Some 3) (Some 4%positive)]})
    (<[6%positive := own_addr]> {[4%positive := own_addr]})
    {[1%positive := Sock 2 (Some 3%positive) null 0 false 0 []]} ∅ 7 [].

Definition two_binding : binding := Binding 2 1 [BoundIf 3 3 own_addr; BoundIf 5 4 own_addr] false.

Lemma two_interfaces_registry : registry two_interfaces [two_binding].
Proof.
  constructor; try done; try apply NoDup_singleton;
    try (cbn; intros l [x Hx]; by apply lookup_singleton_Some in Hx as [<- _]).
  - cbn. lia.
  - intros i b Hb. destruct i as [|i]; [|by destruct i]. by injection Hb as <-.
  - intros b ->%list_elem_of_singleton. eexists. split; [reflexivity|]. repeat split.
    + by exists 4%positive, 0.
    + by exists 6%positive, 0.
  - repeat constructor; set_solver.
  - intros b ->%list_elem_of_singleton. repeat constructor; set_solver.
  - cbn. intros sk k Hk Hn. apply lookup_singleton_Some in Hk as [<- _]. set_solver.
  - cbn. intros l Hl. eapply lookup_insert_fresh; [| |exact Hl]; [|lia].
    intros j [x Hx]. by apply lookup_singleton_Some in Hx as [<- _].
  - cbn. intros l Hl. eapply lookup_insert_fresh; [| |exact Hl]; [|lia].
    intros j [x Hx]. by apply lookup_singleton_Some in Hx as [<- _].
Qed.

Lemma third_interface_blocks_witness :
  exists s', awds_socket_bind (H := linux_sim no_user) (Some 1%positive) (SockAddr 32 5 (some_mac 1)) two_interfaces = Ok (1, s') /\
    registry s' [with_held two_binding] /\
    forall addr', (forall t, is_Some (dev_get_by_index (LinuxKernel := linux_sim no_user) t (sa_ifindex addr'))) ->
      awds_socket_bind (H := linux_sim no_user) (Some 1%positive) addr' s' = Fail Deadlock.
Proof.
  apply (third_interface_blocks (H := linux_sim no_user) two_interfaces [two_binding] 0 two_binding
           (SockAddr 32 5 (some_mac 1)) two_interfaces_registry); try done.
  cbn. set_solver.
Defined.

Lemma release_uses_freed_interface_witness :
  awds_socket_release (Some 1%positive) two_interfaces = Fail UseAfterFree.
Proof.
  exact (release_uses_freed_interface two_interfaces [two_binding] 0 two_binding
           two_interfaces_registry eq_refl eq_refl eq_refl ltac:(done)).
Defined.
