(* ===== verification/Topology.v ===== *)
(** * The topology and its routes

    [Topology.cc], [awds/Topology.h] and [awds/Metric.h]: the adjacency list of
    the network, how topology packets change it, expiry of nodes and links, and
    the routes computed from it.

    A [std::map] is a list of its elements in key order.  A [LinkQuality *] is
    the node whose vector holds the link, the generation of that vector and the
    index; [feed] replaces the vector of a node, so a pointer of an old
    generation dangles.  Calls to observers, to the metric's node table and to
    the kernel are recorded in [events]; the renderings are in [TopoText], the
    lists of observers in [Observers]. *)

From S2P Require Import Prelude Bytes NodeId Packet.

(** ** Data *)

Record lptr := Lptr { p_node : Z; p_gen : nat; p_idx : nat }.

Record LinkQuality := LQ {
  counterpart : option lptr;
  neighbor : Z;
  quality : Z;
  metric_weight : Z;
}.

Definition LinkQuality_new : LinkQuality := LQ None AbstractID6.mk_default 0 0.

Record NDescr := mkNDescr {
  linklist : list LinkQuality;
  generation : nat;
  nextHop : Z;
  prevHop : Z;
  nodeValidity : Z;
  edgeValidity : Z;
  distance : Z;
  index : Z;
  nodeName : list Z;
}.

(** Members without an initialiser start as 0. *)
Definition NDescr_new : NDescr :=
  mkNDescr [] 0 AbstractID6.mk_default AbstractID6.mk_default 0 0 0 0 [].

Abbreviation AdjList := (list (Z * NDescr)).

Definition set_linklist v d := mkNDescr v (generation d) (nextHop d) (prevHop d) (nodeValidity d) (edgeValidity d) (distance d) (index d) (nodeName d).
Definition set_nextHop v d := mkNDescr (linklist d) (generation d) v (prevHop d) (nodeValidity d) (edgeValidity d) (distance d) (index d) (nodeName d).
Definition set_route dist prev d := mkNDescr (linklist d) (generation d) (nextHop d) prev (nodeValidity d) (edgeValidity d) dist (index d) (nodeName d).
Definition set_distance v d := mkNDescr (linklist d) (generation d) (nextHop d) (prevHop d) (nodeValidity d) (edgeValidity d) v (index d) (nodeName d).
Definition set_validity nv ev d := mkNDescr (linklist d) (generation d) (nextHop d) (prevHop d) nv ev (distance d) (index d) (nodeName d).
Definition set_index v d := mkNDescr (linklist d) (generation d) (nextHop d) (prevHop d) (nodeValidity d) (edgeValidity d) (distance d) v (nodeName d).
Definition set_nodeName v d := mkNDescr (linklist d) (generation d) (nextHop d) (prevHop d) (nodeValidity d) (edgeValidity d) (distance d) (index d) v.
(** [old_linklist.swap(linklist); linklist.resize(n)] *)
Definition new_vector v d := mkNDescr v (S (generation d)) (nextHop d) (prevHop d) (nodeValidity d) (edgeValidity d) (distance d) (index d) (nodeName d).

Definition update_nodeValidity (new_v : Z) (d : NDescr) : NDescr :=
  if nodeValidity d <? new_v then set_validity new_v (edgeValidity d) d else d.

Definition set_counterpart_field c l := LQ c (neighbor l) (quality l) (metric_weight l).
Definition set_weight w l := LQ (counterpart l) (neighbor l) (quality l) w.

(** ** [std::map<NodeId, NDescr>] *)

Fixpoint al_find (k : Z) (a : AdjList) : option NDescr :=
  match a with
  | [] => None
  | (k', d) :: a => if k =? k' then Some d else al_find k a
  end.

(** Insertion of an absent key. *)
Fixpoint al_insert (k : Z) (d : NDescr) (a : AdjList) : AdjList :=
  match a with
  | [] => [(k, d)]
  | (k', d') :: a' => if k <? k' then (k, d) :: a else (k', d') :: al_insert k d a'
  end.

Definition al_modify (k : Z) (f : NDescr -> NDescr) (a : AdjList) : AdjList :=
  map (fun kd => if kd.1 =? k then (kd.1, f kd.2) else kd) a.

Definition al_erase (k : Z) (a : AdjList) : AdjList := filter (fun kd => kd.1 <> k) a.

(** [adjList[k]] *)
Definition al_index (k : Z) (a : AdjList) : NDescr * AdjList :=
  match al_find k a with
  | Some d => (d, a)
  | None => (NDescr_new, al_insert k NDescr_new a)
  end.

(** [AdjList::enumerateNodes] *)
Definition enumerateNodes (a : AdjList) : AdjList :=
  imap (fun i kd => (kd.1, set_index (Z.of_nat i) kd.2)) a.

(** [AdjList::find(from, to)] *)
Definition al_find_link (from to : Z) (a : AdjList) : bool :=
  match al_find from a with
  | Some d => bool_decide (Exists (fun l => neighbor l = to) (linklist d))
  | None => false
  end.

(** ** Links *)

Definition link_at (p : lptr) (a : AdjList) : outcome LinkQuality :=
  match al_find (p_node p) a with
  | Some d =>
      if (generation d =? p_gen p)%nat then of_option UseAfterFree (linklist d !! p_idx p)
      else Fail UseAfterFree
  | None => Fail UseAfterFree
  end.

Definition link_modify (p : lptr) (f : LinkQuality -> LinkQuality) (a : AdjList) : outcome AdjList :=
  l ← link_at p a;
  Ok (al_modify (p_node p) (fun d => set_linklist (<[p_idx p := f l]> (linklist d)) d) a).

(** [this->set_counterpart(lq)] *)
Definition set_counterpart (this : lptr) (lq : option lptr) (a : AdjList) : outcome AdjList :=
  a ← match lq with
      | Some q => link_modify q (set_counterpart_field (Some this)) a
      | None => Ok a
      end;
  link_modify this (set_counterpart_field lq) a.

Definition remove_reference (this : lptr) (a : AdjList) : outcome AdjList :=
  l ← link_at this a;
  match counterpart l with
  | Some q =>
      a ← link_modify q (set_counterpart_field None) a;
      link_modify this (set_counterpart_field None) a
  | None => Ok a
  end.

Definition get_qualities (this : lptr) (a : AdjList) : outcome (option (Z * Z)) :=
  l ← link_at this a;
  match counterpart l with
  | Some q => b ← link_at q a; Ok (Some (quality l, quality b))
  | None => Ok None
  end.

Definition set_metric_weight (this : lptr) (mw : Z) (a : AdjList) : outcome AdjList :=
  a ← link_modify this (set_weight mw) a;
  l ← link_at this a;
  match counterpart l with
  | Some q => link_modify q (set_weight mw) a
  | None => Ok a
  end.

(** [std::lower_bound] on the sorted link list: the first link whose neighbour
    is not smaller. *)
Definition lower_bound (id : Z) (ll : list LinkQuality) : nat :=
  match list_find (fun l => id <= neighbor l) ll with Some (i, _) => i | None => length ll end.

Definition findLinkQuality (id : Z) (d : NDescr) : option nat :=
  let i := lower_bound id (linklist d) in
  match linklist d !! i with
  | Some l => if neighbor l =? id then Some i else None
  | None => None
  end.

(** ** The metric

    The virtual functions of a metric; the base class is the hop count. *)

Class Metric := {
  my_calculate : Z -> Z -> outcome Z;
}.

Definition hop_count : Metric := {| my_calculate _ _ := Ok 1 |}.

Definition uint32_max : Z := 2 ^ 32 - 1.

Definition calculate `{Metric} (it : lptr) (a : AdjList) : outcome AdjList :=
  fb ← get_qualities it a;
  mw ← match fb with Some (f, b) => my_calculate f b | None => Ok uint32_max end;
  set_metric_weight it (Z.min mw (uint32_max / 1024)) a.

(** ** State *)

Inductive tevent :=
| NodesChanged | NodeAdded (id : Z) | NodeRemoved (id : Z)
| LinksChanged | LinkAdded (from to : Z) | LinkRemoved (from to : Z)
| MetricBegin | MetricEnd | MetricAdd (id : Z) | MetricDel (id : Z)
| KernelTable (data : list Z).

Record RTopology := mkTopo {
  adjList : AdjList;
  dirty : bool;
  locked : bool;
  myNodeId : Z;
  has_xml : bool;            (* [newXmlTopologyDelta] is registered *)
  has_linkObserver : bool;
  has_kernel : bool;         (* ["linuxbasic_cb"] is in the repository *)
  events : list tevent;      (* newest first *)
}.

Definition set_adj v s := mkTopo v (dirty s) (locked s) (myNodeId s) (has_xml s) (has_linkObserver s) (has_kernel s) (events s).
Definition set_dirty v s := mkTopo (adjList s) v (locked s) (myNodeId s) (has_xml s) (has_linkObserver s) (has_kernel s) (events s).
Definition setLocked v s := mkTopo (adjList s) (dirty s) v (myNodeId s) (has_xml s) (has_linkObserver s) (has_kernel s) (events s).
Definition set_events v s := mkTopo (adjList s) (dirty s) (locked s) (myNodeId s) (has_xml s) (has_linkObserver s) (has_kernel s) v.

Abbreviation T := (M RTopology).

Definition notify (e : tevent) : T unit := modify (fun s => set_events (e :: events s) s).
Definition on_adj (f : AdjList -> outcome AdjList) : T unit :=
  a ← gets adjList; a ← lift (f a); modify (set_adj a).

Definition getNumNodes (s : RTopology) : Z := Z.of_nat (length (adjList s)).
Definition hasNode (node : Z) (s : RTopology) : bool := bool_decide (is_Some (al_find node (adjList s))).
Definition hasLink (from to : Z) (s : RTopology) : bool := al_find_link from to (adjList s).

(** [std::sort]: a permutation in which no element is followed by one that has
    to stand before it; the order of equivalent elements is not specified.
    [dist_comp] puts the larger distance first. *)
Class StdSort := {
  std_sort : (Z -> Z) -> list Z -> list Z;
  std_sort_perm : forall key l, std_sort key l ≡ₚ l;
  std_sort_desc : forall key l i j a b, (i < j)%nat ->
    std_sort key l !! i = Some a -> std_sort key l !! j = Some b -> key b <= key a;
}.

(** ** Routes *)

Section routes.
Context `{StdSort}.

Definition unsigned_max : Z := 2 ^ 32 - 1.

Definition dist_of (a : AdjList) (k : Z) : Z :=
  match al_find k a with Some d => distance d | None => 0 end.

Definition init_routes (me : Z) (a : AdjList) : AdjList :=
  map (fun kd =>
    let d := set_nextHop me kd.2 in
    (kd.1, if kd.1 =? me then set_route 0 me d else set_distance unsigned_max d)) a.

(** The links [ll] of [nearest], one after the other. *)
Fixpoint relax (nearest : Z) (ll : list LinkQuality) (a : AdjList) : outcome AdjList :=
  match ll with
  | [] => Ok a
  | l :: ll =>
      if dist_of a nearest =? unsigned_max then Ok a else
      match al_find (neighbor l) a with
      | None => relax nearest ll a
      | Some neigh =>
          _ ← cassert (0 <? metric_weight l);
          let newDist := u32 (dist_of a nearest + metric_weight l) in
          relax nearest ll
            (if newDist <? distance neigh
             then al_modify (neighbor l) (set_route newDist nearest) a else a)
      end
  end.

(** [while(!todo.empty())]: every round removes one node. *)
Fixpoint dijkstra_loop (rounds : nat) (todo : list Z) (a : AdjList) : outcome AdjList :=
  match todo with
  | [] => Ok a
  | _ =>
      match rounds with
      | O => Fail OutOfFuel
      | S rounds =>
          let sorted := std_sort (dist_of a) todo in
          match last sorted, head sorted with
          | Some nearest, Some front =>
              _ ← cassert (dist_of a nearest <=? dist_of a front);
              d ← of_option NullDeref (al_find nearest a);
              a ← relax nearest (linklist d) a;
              dijkstra_loop rounds (removelast sorted) a
          | _, _ => Fail OutOfBounds
          end
      end
  end.

Fixpoint calcNextHop (fuel : nat) (me id : Z) (a : AdjList) : outcome AdjList :=
  match fuel with
  | O => Fail OutOfFuel
  | S fuel =>
      let '(d, a) := al_index id a in
      if distance d =? unsigned_max then Ok (al_modify id (set_nextHop me) a)
      else if negb (nextHop d =? me) then Ok a
      else if prevHop d =? me then Ok (al_modify id (set_nextHop id) a)
      else
        let '(p, a) := al_index (prevHop d) a in
        _ ← cassert (distance p <=? distance d);
        a ← calcNextHop fuel me (prevHop d) a;
        let '(p, a) := al_index (prevHop d) a in
        Ok (al_modify id (set_nextHop (nextHop p)) a)
  end.

Fixpoint calcNextHops (fuel : nat) (me : Z) (ids : list Z) (a : AdjList) : outcome AdjList :=
  match ids with
  | [] => Ok a
  | id :: ids => a ← calcNextHop fuel me id a; calcNextHops fuel me ids a
  end.

(** The adjacency list after [calcRoutes]. *)
Definition routes (me : Z) (a : AdjList) : outcome AdjList :=
  _ ← cassert (bool_decide (is_Some (al_find me a)));
  let a := init_routes me a in
  a ← dijkstra_loop (length a) (a.*1) a;
  calcNextHops (S (length a)) me (a.*1) a.

Definition calcRoutes : T unit :=
  me ← gets myNodeId;
  on_adj (routes me);;
  modify (set_dirty false).

(** ** Expiry *)

(** The links of node [k]: every reference from outside is removed. *)
Fixpoint remove_references (k : Z) (gen : nat) (idx : list nat) (a : AdjList) : outcome AdjList :=
  match idx with
  | [] => Ok a
  | i :: idx => a ← remove_reference (Lptr k gen i) a; remove_references k gen idx a
  end.

Definition notify_links_removed (from : Z) (ll : list LinkQuality) : T unit :=
  foldr (fun l m => notify (LinkRemoved from (neighbor l));; m) (mret tt) ll.

(** The loop over the nodes [ks], in key order. *)
Fixpoint remove_old_loop (t : Z) (ks : list Z) (removed : bool) (nextTimeout : Z) : T (bool * Z) :=
  match ks with
  | [] => mret (removed, nextTimeout)
  | k :: ks =>
      a ← gets adjList;
      d ← lift (of_option UseAfterFree (al_find k a));
      removed ←
        (if edgeValidity d <=? t then
           on_adj (remove_references k (generation d) (seq 0 (length (linklist d))));;
           x ← gets has_xml; lo ← gets has_linkObserver;
           (if (x || lo : bool) then notify_links_removed k (linklist d) else mret tt);;
           on_adj (fun a => Ok (al_modify k (set_linklist []) a));;
           mret true
         else mret removed);
      if nodeValidity d <=? t then
        on_adj (fun a => Ok (al_erase k a));;
        notify (NodeRemoved k);;
        remove_old_loop t ks true nextTimeout
      else remove_old_loop t ks removed (if nodeValidity d <? nextTimeout then nodeValidity d else nextTimeout)
  end.

Definition removeOldNodes `{Gea} (t : Z) : T Z :=
  a ← gets adjList;
  lift (cassert (negb (bool_decide (a = []))));;
  let nextTimeout := t + duration 31415 10 in
  l ← gets locked;
  if (l : bool) then mret nextTimeout else
  r ← remove_old_loop t (a.*1) false nextTimeout;
  x ← gets has_xml;
  (if (x && fst r : bool) then notify NodesChanged;; notify LinksChanged else mret tt);;
  mret (snd r).

(** The timer handler: the result is the time of its next call. *)
Definition cleanup_nodes `{Gea} (t : Z) : T Z := removeOldNodes t.

Definition doInvalidate (t me : Z) (kd : Z * NDescr) : Z * NDescr :=
  if kd.1 =? me then kd else (kd.1, set_validity t t kd.2).

(** [now] is [AbsTime::now()], [t] the time of the current event. *)
Definition reset `{Gea} (now t : Z) : T unit :=
  modify (set_dirty true);;
  me ← gets myNodeId;
  on_adj (fun a => Ok (map (doInvalidate now me) a));;
  _nextTimeout ← removeOldNodes t;
  mret tt.

(** ** The table for the kernel *)

Definition int_le (n : Z) : list Z := rev (be_enc 4 n).

Fixpoint table_loop (c : nat) (a : AdjList) (data : list Z) : list Z :=
  match a with
  | [] => data
  | (k, d) :: a =>
      let data := AbstractID6.toArray k (4 + c * 6) data in
      let data := AbstractID6.toArray (nextHop d) (4 + (c + 1) * 6) data in
      table_loop (c + 2) a data
  end.

(** [topology_data]; memory of [new] that is not written stays arbitrary ([fill]). *)
Definition topology_data (fill : Z) (a : AdjList) : list Z :=
  let node_count := length a in
  let total_bytes := (node_count * 2 * 6)%nat in
  table_loop 0 a (splice 0 (int_le (Z.of_nat total_bytes)) (replicate (4 + total_bytes) fill)).

Definition updateTopology `{Gea} (t : Z) : T unit :=
  _nextTimeout ← removeOldNodes t;
  calcRoutes;;
  a ← gets adjList;
  hk ← gets has_kernel;
  if (hk : bool) then notify (KernelTable (topology_data 0 a)) else mret tt.

(** [nextHop] is the caller's variable, which keeps its value when the
    destination is unknown. *)
Definition getNextHop `{Gea} (t dest nexthop : Z) : T (Z * bool) :=
  dt ← gets dirty;
  (if (dt : bool) then updateTopology t else mret tt);;
  a ← gets adjList;
  me ← gets myNodeId;
  let nh := match al_find dest a with Some d => nextHop d | None => nexthop end in
  mret (nh, bool_decide (is_Some (al_find dest a)) && negb (nh =? me)).

End routes.

(** ** New information *)

Section feed.
Context `{Gea, Metric, StdSort}.

Definition getNodeEntry (id t : Z) : T unit :=
  a ← gets adjList;
  match al_find id a with
  | Some _ => mret tt
  | None =>
      let v := t + duration 1 10 in
      modify (set_adj (al_insert id (set_validity v v NDescr_new) a));;
      notify NodesChanged;;
      notify (NodeAdded id)
  end.

(** The parsed links, and the variable [node] after the loop.  An unordered
    neighbour ends the loop with a shorter list. *)
Fixpoint parse_links (n : nat) (addr : nat) (node : Z) (acc : list LinkQuality) (buf : list Z) :
    outcome (list LinkQuality * Z) :=
  match n with
  | O => Ok (acc, node)
  | S n =>
      let node := AbstractID6.fromArray addr buf in
      let q := fromArray 2 (addr + 6) buf in
      _ ← cassert (negb (q =? 0));
      if match last acc with Some l => node <=? neighbor l | None => false end
      then Ok (acc, node)
      else parse_links n (addr + 8) node (acc ++ [LQ None node q 0]) buf
  end.

(** The counterpart of the link to [nb] from [src]: the link of [nb] to [src]. *)
Definition find_counterpart (nb src : Z) (a : AdjList) : option lptr :=
  match al_find nb a with
  | Some d => Lptr nb (generation d) <$> findLinkQuality src d
  | None => None
  end.

(** Connect the new link [i] of [src]. *)
Definition connect (src : Z) (gen i : nat) (nb newValidity t : Z) : T unit :=
  getNodeEntry nb t;;
  on_adj (fun a => Ok (al_modify nb (update_nodeValidity newValidity) a));;
  on_adj (fun a => set_counterpart (Lptr src gen i) (find_counterpart nb src a) a).

(** The loop that compares the new with the old links: [new] are the links from
    index [i] on.  [node] is the variable left over from parsing. *)
Fixpoint merge_loop (fuel : nat) (src : Z) (gen i : nat) (new old : list LinkQuality)
    (node newValidity t : Z) (changed : bool) : T bool :=
  match new, old with
  | [], [] => mret changed
  | _, _ =>
      match fuel with
      | O => fail OutOfFuel
      | S fuel =>
          me ← gets myNodeId;
          match new, old with
          | n :: new', o :: old' =>
              if neighbor n =? neighbor o then
                connect src gen i (neighbor n) newValidity t;;
                on_adj (calculate (Lptr src gen i));;
                (if quality n =? quality o then mret tt else modify (set_dirty true));;
                merge_loop fuel src gen (S i) new' old' node newValidity t changed
              else if neighbor n <? neighbor o then
                connect src gen i (neighbor n) newValidity t;;
                notify (LinkAdded src (neighbor n));;
                modify (set_dirty true);;
                on_adj (calculate (Lptr src gen i));;
                (if src =? me then notify (MetricAdd node) else mret tt);;
                merge_loop fuel src gen (S i) new' old node newValidity t true
              else
                getNodeEntry (neighbor o) t;;
                on_adj (fun a => match find_counterpart (neighbor o) src a with
                                 | Some q => set_counterpart q None a | None => Ok a end);;
                notify (LinkRemoved src (neighbor o));;
                modify (set_dirty true);;
                (if src =? me then notify (MetricDel node) else mret tt);;
                merge_loop fuel src gen i new old' node newValidity t true
          | n :: new', [] =>
              connect src gen i (neighbor n) newValidity t;;
              notify (LinkAdded src (neighbor n));;
              modify (set_dirty true);;
              on_adj (calculate (Lptr src gen i));;
              (if src =? me then notify (MetricAdd node) else mret tt);;
              merge_loop fuel src gen (S i) new' [] node newValidity t true
          | [], o :: old' =>
              getNodeEntry (neighbor o) t;;
              on_adj (fun a => match find_counterpart (neighbor o) src a with
                               | Some q => set_counterpart q None a | None => Ok a end);;
              notify (LinkRemoved src (neighbor o));;
              modify (set_dirty true);;
              (if src =? me then notify (MetricDel node) else mret tt);;
              merge_loop fuel src gen i [] old' node newValidity t true
          | [], [] => mret changed
          end
      end
  end.

(** A C string: the bytes before the first 0. *)
Fixpoint c_string (l : list Z) : list Z :=
  match l with
  | [] => []
  | b :: l => if b =? 0 then [] else b :: c_string l
  end.

(** The name at [addr], if the packet reaches that far. *)
Definition parse_name (p : BasePacket) (addr : nat) (d : NDescr) : NDescr :=
  if Z.of_nat addr <? size p then
    let namelen := Nat.min 32 (Z.to_nat (get_byte addr p)) in
    set_nodeName (c_string (slice (S addr) namelen (buffer p))) d
  else d.

Definition feed (p : BasePacket) (t : Z) : T unit :=
  l ← gets locked;
  if (l : bool) then mret tt else
  if size p <? Z.of_nat TopoPacket.OffsetLinks + 1 then mret tt else
  let src := SrcPacket.getSrc p in
  let n := Z.to_nat (TopoPacket.getNumLinks p) in
  getNodeEntry src t;;
  lift (cassert (0 <? TopoPacket.getValidity p));;
  let newValidity := t + TopoPacket.getValidity p in
  a ← gets adjList;
  d ← lift (of_option UseAfterFree (al_find src a));
  let old := linklist d in
  on_adj (fun a => Ok (al_modify src (fun d =>
    let d := update_nodeValidity newValidity d in
    new_vector (replicate n LinkQuality_new) (set_validity (nodeValidity d) newValidity d)) a));;
  if size p <? Z.of_nat (TopoPacket.OffsetLinks + n * 8) then mret tt else
  me ← gets myNodeId;
  (if src =? me then notify MetricBegin else mret tt);;
  pl ← lift (parse_links n TopoPacket.OffsetLinks AbstractID6.mk_default [] (buffer p));
  let '(new, node) := pl : list LinkQuality * Z in
  on_adj (fun a => Ok (al_modify src (set_linklist new) a));;
  lift (cassert (length new =? n)%nat);;
  changed ← merge_loop (length new + length old) src (S (generation d)) 0 new old node newValidity t false;
  (if src =? me then notify MetricEnd else mret tt);;
  on_adj (fun a => Ok (al_modify src (parse_name p (TopoPacket.OffsetLinks + n * 8)) a));;
  (if (changed : bool) then notify LinksChanged else mret tt);;
  dt ← gets dirty;
  if (dt : bool) then updateTopology t else mret tt.

(** The constructor: only the own node, valid for five intervals. *)
Definition RTopology_new (id t : Z) (xml lo hk : bool) : RTopology :=
  let v := t + duration (5 * 1000) 1000 in
  mkTopo [(id, set_validity v v NDescr_new)] true false id xml lo hk [].

End feed.
