(* ===== verification/RoutesThms.v ===== *)
(** * Correctness of the routes

    [calcRoutes] computes shortest paths: distances, predecessors and next hops
    are those of the weighted graph of the adjacency list, for networks of up to
    1024 stations with the weights [Metric::calculate] stores. *)

From S2P Require Import Prelude Bytes NodeId Packet Topology.

(** ** The adjacency list as a map *)

Lemma al_find_modify k k' f a :
  al_find k (al_modify k' f a) = if decide (k = k') then f <$> al_find k a else al_find k a.
Proof.
  induction a as [|[j d] a IH]; cbn [al_modify map al_find fst snd]; [by case_decide|].
  unfold al_modify in IH. destruct (Z.eqb_spec j k') as [->|Hj].
  - destruct (Z.eqb_spec k k') as [->|Hk]; [by rewrite decide_True|].
    rewrite IH, !decide_False by done. done.
  - destruct (Z.eqb_spec k j) as [->|Hk]; [by rewrite decide_False|]. exact IH.
Qed.

Lemma al_keys_modify k f a : (al_modify k f a).*1 = a.*1.
Proof.
  induction a as [|[j d] a IH]; cbn; [done|]. f_equal; [by destruct (j =? k)|exact IH].
Qed.

Lemma al_find_is_Some k a : is_Some (al_find k a) <-> k ∈ a.*1.
Proof.
  induction a as [|[j d] a IH]; cbn.
  - split; [by intros []|by intros ?%elem_of_nil].
  - rewrite elem_of_cons, <- IH. destruct (Z.eqb_spec k j) as [->|Hk]; naive_solver.
Qed.

Definition prev_of (a : AdjList) (k : Z) : Z :=
  match al_find k a with Some d => prevHop d | None => 0 end.
Definition next_of (a : AdjList) (k : Z) : Z :=
  match al_find k a with Some d => nextHop d | None => 0 end.
Definition links_of (a : AdjList) (k : Z) : list LinkQuality :=
  match al_find k a with Some d => linklist d | None => [] end.

Section modify_views.
Context (a : AdjList) (k : Z) (Hk : k ∈ a.*1).

Lemma dist_route x p v : dist_of (al_modify k (set_route x p) a) v = if decide (v = k) then x else dist_of a v.
Proof.
  unfold dist_of. rewrite al_find_modify. case_decide; [|done]. subst v.
  apply al_find_is_Some in Hk as [d Hd]. by rewrite Hd.
Qed.
Lemma prev_route x p v : prev_of (al_modify k (set_route x p) a) v = if decide (v = k) then p else prev_of a v.
Proof.
  unfold prev_of. rewrite al_find_modify. case_decide; [|done]. subst v.
  apply al_find_is_Some in Hk as [d Hd]. by rewrite Hd.
Qed.
Lemma next_next h v : next_of (al_modify k (set_nextHop h) a) v = if decide (v = k) then h else next_of a v.
Proof.
  unfold next_of. rewrite al_find_modify. case_decide; [|done]. subst v.
  apply al_find_is_Some in Hk as [d Hd]. by rewrite Hd.
Qed.
End modify_views.

Lemma next_route a k x p v : next_of (al_modify k (set_route x p) a) v = next_of a v.
Proof. unfold next_of. rewrite al_find_modify. case_decide; [|done]. by destruct (al_find v a). Qed.
Lemma links_route a k x p v : links_of (al_modify k (set_route x p) a) v = links_of a v.
Proof. unfold links_of. rewrite al_find_modify. case_decide; [|done]. by destruct (al_find v a). Qed.
Lemma dist_next a k h v : dist_of (al_modify k (set_nextHop h) a) v = dist_of a v.
Proof. unfold dist_of. rewrite al_find_modify. case_decide; [|done]. by destruct (al_find v a). Qed.
Lemma prev_next a k h v : prev_of (al_modify k (set_nextHop h) a) v = prev_of a v.
Proof. unfold prev_of. rewrite al_find_modify. case_decide; [|done]. by destruct (al_find v a). Qed.
Lemma links_next a k h v : links_of (al_modify k (set_nextHop h) a) v = links_of a v.
Proof. unfold links_of. rewrite al_find_modify. case_decide; [|done]. by destruct (al_find v a). Qed.

(** ** The graph *)

Section graph.
Context (V : list Z) (g : Z -> list LinkQuality).

(** A link between two known stations. *)
Definition edge (u v c : Z) : Prop :=
  u ∈ V /\ v ∈ V /\ exists l, l ∈ g u /\ neighbor l = v /\ metric_weight l = c.

Inductive path (u : Z) : Z -> Z -> Prop :=
| path_refl : u ∈ V -> path u u 0
| path_snoc v w d c : path u v d -> edge v w c -> path u w (d + c).

Definition shortest (u v d : Z) : Prop := path u v d /\ forall d', path u v d' -> d <= d'.

Lemma path_in u v d : path u v d -> v ∈ V.
Proof. destruct 1 as [|? ? ? ? ? He]; [done|]. apply He. Qed.

Lemma path_cons u v w c d : edge u v c -> path v w d -> path u w (c + d).
Proof.
  intros He. induction 1 as [Hv|x y d c' _ IH Hxy].
  - replace (c + 0) with (0 + c) by lia. eapply path_snoc; [|exact He]. apply path_refl, He.
  - replace (c + (d + c')) with (c + d + c') by lia. by eapply path_snoc.
Qed.

(** ** Dijkstra's algorithm *)

Context (me W : Z).
Hypothesis HV : NoDup V.
Hypothesis Hme : me ∈ V.
Hypothesis Hw : forall u l, u ∈ V -> l ∈ g u -> neighbor l ∈ V -> 0 < metric_weight l <= W.
Hypothesis Hsmall : W * Z.of_nat (length V) < unsigned_max.
Hypothesis HW : 0 <= W.

(** [todo] are the nodes still to visit; [rl u] are the links of [u] that have
    been relaxed. *)
Record routes_inv (todo : list Z) (rl : Z -> list LinkQuality) (a : AdjList) : Prop := {
  ri_keys : a.*1 = V;
  ri_links : forall v, v ∈ V -> links_of a v = g v;
  ri_next : forall v, v ∈ V -> next_of a v = me;
  ri_me : dist_of a me = 0 /\ prev_of a me = me;
  ri_range : forall v, v ∈ V -> 0 <= dist_of a v <= unsigned_max;
  ri_bound : forall v, v ∈ V -> dist_of a v < unsigned_max ->
    dist_of a v <= W * (Z.of_nat (length V) - Z.of_nat (length todo));
  ri_prev : forall v, v ∈ V -> v <> me -> dist_of a v < unsigned_max ->
    (prev_of a v ∉ todo) /\ dist_of a (prev_of a v) < unsigned_max /\
    (exists c, edge (prev_of a v) v c /\ dist_of a (prev_of a v) + c = dist_of a v);
  ri_sound : forall v, v ∈ V -> (dist_of a v < unsigned_max) -> path me v (dist_of a v);
  ri_order : forall u v, u ∈ V -> u ∉ todo -> v ∈ todo -> dist_of a u <= dist_of a v;
  ri_relaxed : forall u l, u ∈ V -> u ∉ todo -> dist_of a u < unsigned_max -> l ∈ rl u -> neighbor l ∈ V ->
    dist_of a (neighbor l) < unsigned_max /\ dist_of a (neighbor l) <= dist_of a u + metric_weight l;
}.

(** A shorter distance for a node that is still to visit. *)
Lemma routes_inv_improve todo rl a u v c :
  routes_inv todo rl a -> todo ⊆ V -> u ∉ todo -> v ∈ todo -> edge u v c -> 0 < c ->
  (forall x, x ∈ V -> x ∉ todo -> dist_of a x <= dist_of a u) ->
  dist_of a u < unsigned_max -> dist_of a u + c < dist_of a v ->
  dist_of a u + c <= W * (Z.of_nat (length V) - Z.of_nat (length todo)) ->
  routes_inv todo rl (al_modify v (set_route (dist_of a u + c) u) a).
Proof.
  intros Hi Hsub Hu Hv He Hc Hmax Hdu Hlt Hb. pose proof He as (HuV & HvV & _).
  assert (v ∈ a.*1) as Hva by (by rewrite (ri_keys _ _ _ Hi)).
  assert (u <> v) as Huv by (intros ->; done).
  pose proof (ri_range _ _ _ Hi v HvV) as Rv. pose proof (ri_range _ _ _ Hi u HuV) as Ru.
  assert (v <> me) as Hvm by (intros ->; pose proof (ri_me _ _ _ Hi) as [? _]; lia).
  constructor.
  - rewrite al_keys_modify. apply Hi.
  - intros x Hx. rewrite links_route. by apply Hi.
  - intros x Hx. rewrite next_route. by apply Hi.
  - rewrite dist_route, prev_route, !decide_False by done. apply Hi.
  - intros x Hx. rewrite dist_route by done. case_decide; [lia|by apply Hi].
  - intros x Hx. rewrite dist_route by done. case_decide; [lia|by apply Hi].
  - intros x Hx Hxm. rewrite prev_route, dist_route by done. case_decide as Hxv.
    + subst x. intros _. rewrite dist_route, decide_False by done. eauto 10.
    + intros Hd. destruct (ri_prev _ _ _ Hi x Hx Hxm Hd) as (Hp & Hpd & c' & Hpe & Hpc).
      rewrite dist_route, decide_False by (done || (intros Heq; rewrite Heq in Hp; done)). eauto 10.
  - intros x Hx. rewrite dist_route by done. case_decide as Hxv.
    + subst x. intros _. eapply path_snoc; [|exact He]. by apply Hi.
    + by apply Hi.
  - intros x y Hx Hxt Hy. rewrite !dist_route by done.
    rewrite (decide_False (P := x = v)) by (intros ->; done). case_decide.
    + specialize (Hmax x Hx Hxt). lia.
    + by apply Hi.
  - intros x l Hx Hxt. rewrite !dist_route by done.
    rewrite (decide_False (P := x = v)) by (intros ->; done). intros Hd Hl Hn.
    destruct (ri_relaxed _ _ _ Hi x l Hx Hxt Hd Hl Hn). case_decide as Hnv; [rewrite Hnv in *; lia|done].
Qed.

Definition upd_rl (rl : Z -> list LinkQuality) (u : Z) (ls : list LinkQuality) : Z -> list LinkQuality :=
  fun x => if decide (x = u) then ls else rl x.

(** One more link of the visited node counts as relaxed. *)
Lemma routes_inv_relaxed todo rl a u done l :
  routes_inv todo (upd_rl rl u done) a ->
  (dist_of a u < unsigned_max -> neighbor l ∈ V ->
    dist_of a (neighbor l) < unsigned_max /\ dist_of a (neighbor l) <= dist_of a u + metric_weight l) ->
  routes_inv todo (upd_rl rl u (done ++ [l])) a.
Proof.
  intros Hi Hl. constructor; try apply Hi. intros x k Hx Hxt Hd Hk Hn. unfold upd_rl in Hk.
  case_decide as Hxu.
  - subst x. apply elem_of_app in Hk as [Hk|Hk%list_elem_of_singleton].
    + eapply Hi; try done. unfold upd_rl. by rewrite decide_True.
    + subst k. auto.
  - eapply Hi; try done. unfold upd_rl. by rewrite decide_False.
Qed.

Lemma relax_spec todo rl u ll : forall done a,
  routes_inv todo (upd_rl rl u done) a -> todo ⊆ V -> u ∈ V -> u ∉ todo -> g u = done ++ ll ->
  (forall x, x ∈ V -> x ∉ todo -> dist_of a x <= dist_of a u) ->
  (dist_of a u < unsigned_max -> dist_of a u + W <= W * (Z.of_nat (length V) - Z.of_nat (length todo))) ->
  exists a', relax u ll a = Ok a' /\ routes_inv todo (upd_rl rl u (g u)) a'.
Proof.
  induction ll as [|l ll IH]; intros done a Hi Hsub Hu Hut Hg Hmax Hb.
  - exists a. split; [done|]. rewrite app_nil_r in Hg. by rewrite Hg.
  - cbn [relax]. destruct (Z.eqb_spec (dist_of a u) unsigned_max) as [Em|Em].
    { exists a. split; [done|]. constructor; try apply Hi. intros x k Hx Hxt Hd Hk Hn.
      unfold upd_rl in Hk. case_decide as Hxu; [subst x; lia|].
      eapply Hi; try done. unfold upd_rl. by rewrite decide_False. }
    pose proof (ri_range _ _ _ Hi u Hu) as Ru.
    assert (g u = (done ++ [l]) ++ ll) as Hg' by (by rewrite <- app_assoc).
    destruct (al_find (neighbor l) a) as [neigh|] eqn:En.
    2:{ apply IH with (done := done ++ [l]); try done. apply routes_inv_relaxed; [done|]. intros _ Hn.
        rewrite <- (ri_keys _ _ _ Hi) in Hn. apply al_find_is_Some in Hn as [? Hn]. congruence. }
    assert (neighbor l ∈ V) as HnV.
    { rewrite <- (ri_keys _ _ _ Hi). apply al_find_is_Some. by rewrite En. }
    assert (l ∈ g u) as Hlg by (rewrite Hg; apply elem_of_app; right; apply elem_of_cons; auto).
    destruct (Hw u l Hu Hlg HnV) as [Hc HcW]. rewrite (proj2 (Z.ltb_lt _ _) Hc). cbn [cassert mbind outcome_bind].
    assert (dist_of a (neighbor l) = distance neigh) as Hdn by (unfold dist_of; by rewrite En).
    specialize (Hb ltac:(lia)).
    assert (dist_of a u + metric_weight l < unsigned_max) as Hno.
    { unfold unsigned_max in *. nia. }
    rewrite wrap_id by (unfold in_width, unsigned_max in *; lia).
    assert (edge u (neighbor l) (metric_weight l)) as He by (split; [done|split; [done|eauto]]).
    destruct (Z.ltb_spec (dist_of a u + metric_weight l) (distance neigh)) as [Hlt|Hge].
    + assert (neighbor l ∈ todo) as Hnt.
      { destruct (decide (neighbor l ∈ todo)) as [|Hn]; [done|]. specialize (Hmax _ HnV Hn). lia. }
      assert (u <> neighbor l) as Hun by (intros ->; done).
      assert (neighbor l ∈ a.*1) as Hna by (by rewrite (ri_keys _ _ _ Hi)).
      assert (dist_of (al_modify (neighbor l) (set_route (dist_of a u + metric_weight l) u) a) u = dist_of a u) as Hdu
        by (by rewrite dist_route, decide_False).
      apply IH with (done := done ++ [l]); try done.
      * apply routes_inv_relaxed.
        -- apply routes_inv_improve; try done; lia.
        -- intros _ _. rewrite Hdu, dist_route, decide_True by done. lia.
      * intros x Hx Hxt. rewrite Hdu, dist_route by done. rewrite decide_False by (intros ->; done). auto.
      * rewrite Hdu. auto.
    + apply IH with (done := done ++ [l]); try done. apply routes_inv_relaxed; [done|]. lia.
Qed.

(** ** The loop over the nodes *)

Context `{StdSort}.

Lemma sorted_split key todo :
  todo <> [] -> exists rest u, std_sort key todo = rest ++ [u] /\ todo ≡ₚ rest ++ [u] /\
    (forall x, x ∈ rest -> key u <= key x).
Proof.
  intros Hne. destruct (std_sort key todo) as [|u rest _] eqn:E using rev_ind.
  - pose proof (std_sort_perm key todo) as P. rewrite E in P. symmetry in P.
    by apply Permutation_nil_r in P.
  - exists rest, u. split; [done|]. split; [by rewrite <- E, std_sort_perm|].
    intros x Hx. apply list_elem_of_lookup in Hx as [i Hi].
    eapply (std_sort_desc key todo i (length rest)); rewrite ?E.
    + by eapply lookup_lt_Some.
    + rewrite lookup_app_l by (by eapply lookup_lt_Some). exact Hi.
    + by rewrite list_lookup_middle.
Qed.

(** Removing the nearest node from the work list. *)
Lemma routes_inv_visit todo rest u a :
  routes_inv todo g a -> todo ≡ₚ rest ++ [u] -> NoDup todo -> todo ⊆ V ->
  (forall x, x ∈ rest -> dist_of a u <= dist_of a x) ->
  routes_inv rest (upd_rl g u []) a /\ (u ∈ V) /\ (u ∉ rest) /\ NoDup rest /\ (rest ⊆ V) /\
  (forall x, x ∈ V -> x ∉ rest -> dist_of a x <= dist_of a u) /\
  (dist_of a u < unsigned_max -> dist_of a u + W <= W * (Z.of_nat (length V) - Z.of_nat (length rest))).
Proof.
  intros Hi Hp Hnd Hsub Hmin.
  assert (length todo = S (length rest)) as Hlen by (rewrite Hp, length_app; cbn; lia).
  assert (forall x, x ∈ todo <-> x ∈ rest \/ x = u) as Hin.
  { intros x. rewrite Hp, elem_of_app, list_elem_of_singleton. done. }
  assert (u ∈ todo) as Hut by (apply Hin; auto). assert (u ∈ V) as HuV by (by apply Hsub).
  rewrite Hp in Hnd. apply NoDup_app in Hnd as (Hnr & Hd & _).
  assert (u ∉ rest) as Hur by (intros Hx; apply (Hd u Hx), list_elem_of_singleton; done).
  assert (forall x, x ∉ rest -> x <> u -> x ∉ todo) as Hout by (intros x H1 H2 [?|?]%Hin; done).
  split; [|split; [done|split; [done|split; [done|split]]]].
  - constructor; try apply Hi.
    + intros v Hv Hdv. pose proof (ri_bound _ _ _ Hi v Hv Hdv). nia.
    + intros v Hv Hvm Hdv. destruct (ri_prev _ _ _ Hi v Hv Hvm Hdv) as (Hpt & Hr). split; [|done].
      intros Hx. apply Hpt, Hin. auto.
    + intros x y Hx Hxr Hy. destruct (decide (x = u)) as [->|Hxu]; [auto|].
      eapply Hi; [done|by apply Hout|apply Hin; auto].
    + intros x l Hx Hxr Hdx Hl Hn. unfold upd_rl in Hl. case_decide as Hxu; [by apply elem_of_nil in Hl|].
      eapply Hi; try done. by apply Hout.
  - intros x Hx. apply Hsub, Hin. auto.
  - split.
    + intros x Hx Hxr. destruct (decide (x = u)) as [->|Hxu]; [done|].
      eapply Hi; [done|by apply Hout|done].
    + intros Hd'. pose proof (ri_bound _ _ _ Hi u HuV Hd'). nia.
Qed.

Lemma routes_inv_ext todo rl rl' a :
  (forall x, rl x = rl' x) -> routes_inv todo rl a -> routes_inv todo rl' a.
Proof. intros He Hi. constructor; try apply Hi. intros u l ?? ? Hl. eapply Hi; try done. by rewrite He. Qed.

Lemma dijkstra_loop_spec rounds : forall todo a,
  routes_inv todo g a -> NoDup todo -> todo ⊆ V -> (length todo <= rounds)%nat ->
  exists a', dijkstra_loop rounds todo a = Ok a' /\ routes_inv [] g a'.
Proof.
  induction rounds as [|rounds IH]; intros todo a Hi Hnd Hsub Hr.
  { destruct todo; [|cbn in Hr; lia]. exists a. done. }
  destruct (decide (todo = [])) as [->|Hne]; [exists a; done|].
  destruct (sorted_split (dist_of a) todo Hne) as (rest & u & Hs & Hp & Hmin).
  destruct (routes_inv_visit todo rest u a Hi Hp Hnd Hsub Hmin) as (Hi' & Hu & Hur & Hnr & Hsr & Hmax & Hb).
  assert (length todo = S (length rest)) as Hlen by (rewrite Hp, length_app; cbn; lia).
  destruct todo as [|t0 todo']; [done|]. cbn [dijkstra_loop]. cbn zeta.
  rewrite Hs, last_snoc.
  assert (exists front, head (rest ++ [u]) = Some front /\ dist_of a u <= dist_of a front) as (front & -> & Hf).
  { destruct rest as [|f rest']; [exists u; split; [done|lia]|]. exists f. split; [done|].
    apply Hmin, elem_of_cons. auto. }
  rewrite (proj2 (Z.leb_le _ _) Hf). cbn [cassert mbind outcome_bind].
  assert (is_Some (al_find u a)) as [d Hd] by (apply al_find_is_Some; by rewrite (ri_keys _ _ _ Hi)).
  rewrite Hd. cbn [of_option mbind outcome_bind].
  assert (linklist d = g u) as Hl.
  { rewrite <- (ri_links _ _ _ Hi u Hu). unfold links_of. by rewrite Hd. }
  rewrite Hl.
  destruct (relax_spec rest g u (g u) [] a Hi' Hsr Hu Hur eq_refl Hmax Hb) as (a' & Ha' & Hi'').
  rewrite Ha'. cbn [mbind outcome_bind]. rewrite removelast_last.
  apply IH; try done; [|lia]. eapply routes_inv_ext; [|exact Hi''].
  intros x. unfold upd_rl. by case_decide; subst.
Qed.

(** Every path is at least as long as the distance. *)
Lemma routes_inv_complete a v d :
  routes_inv [] g a -> path me v d -> dist_of a v < unsigned_max /\ dist_of a v <= d.
Proof.
  intros Hi. induction 1 as [|v w d c Hp [IH1 IH2] He].
  - pose proof (ri_me _ _ _ Hi) as [-> _]. unfold unsigned_max. lia.
  - destruct He as (Hv & Hw' & l & Hl & Hn & Hc). subst w c.
    destruct (ri_relaxed _ _ _ Hi v l Hv ltac:(by intros ?%elem_of_nil) IH1 Hl Hw'). lia.
Qed.

(** ** Next hops *)

Section hops.
Context (a0 : AdjList) (H0 : routes_inv [] g a0).

(** [h] is the first station after this node on a shortest path to [v]. *)
Definition first_hop (v h : Z) : Prop :=
  h <> me /\ exists c, edge me h c /\ path h v (dist_of a0 v - c).

Record hops_inv (a : AdjList) : Prop := {
  hi_keys : a.*1 = V;
  hi_dist : forall v, dist_of a v = dist_of a0 v;
  hi_prev : forall v, prev_of a v = prev_of a0 v;
  hi_links : forall v, links_of a v = links_of a0 v;
  hi_next : forall v, v ∈ V -> next_of a v = me \/
    (v <> me /\ dist_of a0 v < unsigned_max /\ first_hop v (next_of a v));
}.

(** The next hop of [v] is final. *)
Definition settled (a : AdjList) (v : Z) : Prop :=
  v = me \/ dist_of a0 v = unsigned_max \/ next_of a v <> me.

Lemma hops_inv_set a id h :
  hops_inv a -> id ∈ V -> (h = me \/ (id <> me /\ dist_of a0 id < unsigned_max /\ first_hop id h)) ->
  hops_inv (al_modify id (set_nextHop h) a).
Proof.
  intros Hi Hid Hh. constructor.
  - rewrite al_keys_modify. apply Hi.
  - intros v. rewrite dist_next. apply Hi.
  - intros v. rewrite prev_next. apply Hi.
  - intros v. rewrite links_next. apply Hi.
  - intros v Hv. rewrite next_next by (by rewrite (hi_keys _ Hi)). case_decide as Hvi; [by subst v|by apply Hi].
Qed.

(** How many nodes are nearer. *)
Definition rank (v : Z) : nat := length (filter (fun w => dist_of a0 w < dist_of a0 v) V).

Lemma filter_length_lt (P Q : Z -> Prop) `{forall x, Decision (P x)} `{forall x, Decision (Q x)} y l :
  (forall x, P x -> Q x) -> y ∈ l -> Q y -> ~ P y -> (length (filter P l) < length (filter Q l))%nat.
Proof.
  intros HPQ Hy HQ HP.
  assert (forall l', (length (filter P l') <= length (filter Q l'))%nat) as Hle.
  { induction l' as [|x l' IH]; [done|]. rewrite !filter_cons. repeat case_decide; cbn; try lia. exfalso; auto. }
  induction l as [|x l IH]; [by apply elem_of_nil in Hy|]. rewrite !filter_cons.
  apply elem_of_cons in Hy as [<-|Hy].
  - rewrite decide_False, decide_True by done. cbn. specialize (Hle l). lia.
  - specialize (IH Hy). repeat case_decide; cbn; try lia. exfalso; auto.
Qed.

Lemma prev_facts v :
  v ∈ V -> v <> me -> dist_of a0 v < unsigned_max ->
  let p := prev_of a0 v in
  p ∈ V /\ dist_of a0 p < unsigned_max /\ (rank p < rank v)%nat /\
  exists c, edge p v c /\ dist_of a0 p + c = dist_of a0 v /\ 0 < c.
Proof.
  intros Hv Hvm Hd p. destruct (ri_prev _ _ _ H0 v Hv Hvm Hd) as (_ & Hpd & c & He & Hc).
  pose proof He as (Hp & _ & l & Hl & Hn & Hcl).
  assert (0 < c) by (subst c; apply (Hw (prev_of a0 v) l); [done|done|by rewrite Hn]).
  split; [done|]. split; [done|]. split; [|eauto 10].
  unfold rank. apply filter_length_lt with (y := p); subst p; try done; lia.
Qed.

Lemma calcNextHop_spec fuel : forall id a,
  hops_inv a -> id ∈ V -> (rank id < fuel)%nat ->
  exists a', calcNextHop fuel me id a = Ok a' /\ hops_inv a' /\ settled a' id /\
    (forall v, v ∈ V -> settled a v -> settled a' v).
Proof.
  induction fuel as [|fuel IH]; intros id a Hi Hid Hr; [lia|]. cbn [calcNextHop].
  assert (is_Some (al_find id a)) as [d Hd] by (apply al_find_is_Some; by rewrite (hi_keys _ Hi)).
  unfold al_index at 1. rewrite Hd.
  assert (distance d = dist_of a0 id) as Ed by (rewrite <- (hi_dist _ Hi); unfold dist_of; by rewrite Hd).
  assert (prevHop d = prev_of a0 id) as Ep by (rewrite <- (hi_prev _ Hi); unfold prev_of; by rewrite Hd).
  assert (nextHop d = next_of a id) as En by (unfold next_of; by rewrite Hd).
  assert (id ∈ a.*1) as Hida by (by rewrite (hi_keys _ Hi)).
  rewrite Ed, Ep, En. pose proof (ri_range _ _ _ H0 id Hid) as Rid.
  destruct (Z.eqb_spec (dist_of a0 id) unsigned_max) as [Em|Em].
  { eexists. split; [done|]. split; [apply hops_inv_set; auto|]. split; [unfold settled; auto|].
    intros v Hv Hs. unfold settled in *. rewrite next_next by done. case_decide; naive_solver. }
  destruct (Z.eqb_spec (next_of a id) me) as [Enm|Enm]; cbn [negb].
  2:{ exists a. split; [done|]. split; [done|]. split; [unfold settled; auto|auto]. }
  assert (forall h, (h = me -> id = me) -> forall v, v ∈ V ->
            settled a v -> settled (al_modify id (set_nextHop h) a) v) as Hmono.
  { intros h Hh v Hv Hs. unfold settled in *. rewrite next_next by done. case_decide; [subst v|done].
    destruct (decide (id = me)); [auto|]. right. right. auto. }
  destruct (Z.eqb_spec (prev_of a0 id) me) as [Epm|Epm].
  { eexists. split; [done|]. split; [|split; [|apply Hmono; auto]].
    - apply hops_inv_set; try done. destruct (decide (id = me)) as [|Hne]; [auto|right].
      split; [done|]. split; [lia|]. split; [done|].
      destruct (prev_facts id Hid Hne ltac:(lia)) as (_ & _ & _ & c & He & Hc & _). rewrite Epm in He, Hc.
      exists c. split; [done|]. pose proof (ri_me _ _ _ H0) as [Hz _].
      replace (dist_of a0 id - c) with 0 by lia. by apply path_refl.
    - unfold settled. rewrite next_next, decide_True by done. destruct (decide (id = me)); auto. }
  assert (id <> me) as Hne by (intros ->; pose proof (ri_me _ _ _ H0) as [_ ?]; done).
  destruct (prev_facts id Hid Hne ltac:(lia)) as (HpV & Hpd & Hrank & c & He & Hc & Hc0).
  set (p := prev_of a0 id) in *.
  assert (is_Some (al_find p a)) as [dp Hdp] by (apply al_find_is_Some; by rewrite (hi_keys _ Hi)).
  unfold al_index at 1. rewrite Hdp.
  assert (distance dp = dist_of a0 p) as -> by (rewrite <- (hi_dist _ Hi); unfold dist_of; by rewrite Hdp).
  rewrite (proj2 (Z.leb_le _ _)) by lia. cbn [cassert mbind outcome_bind].
  destruct (IH p a Hi HpV ltac:(lia)) as (a' & -> & Hi' & Hsp & Hm'). cbn [mbind outcome_bind].
  assert (is_Some (al_find p a')) as [dp' Hdp'] by (apply al_find_is_Some; by rewrite (hi_keys _ Hi')).
  unfold al_index. rewrite Hdp'.
  assert (nextHop dp' = next_of a' p) as -> by (unfold next_of; by rewrite Hdp').
  destruct Hsp as [?|[?|Hsp]]; [done|lia|].
  destruct (hi_next _ Hi' p HpV) as [|(_ & _ & Hh & c0 & He0 & Hp0)]; [done|].
  assert (first_hop id (next_of a' p)) as Hfirst.
  { split; [done|]. exists c0. split; [done|].
    replace (dist_of a0 id - c0) with (dist_of a0 p - c0 + c) by lia. by eapply path_snoc. }
  assert (id ∈ a'.*1) as Hida' by (by rewrite (hi_keys _ Hi')).
  eexists. split; [done|]. split; [|split].
  - apply hops_inv_set; try done. right. split; [done|]. split; [lia|done].
  - unfold settled. rewrite next_next, decide_True by done. auto.
  - intros v Hv Hs. apply Hm' in Hs; [|done]. unfold settled in *. rewrite next_next by done.
    case_decide; [auto|done].
Qed.

Lemma calcNextHops_spec fuel ids : forall a,
  hops_inv a -> ids ⊆ V -> (forall v, (rank v < fuel)%nat) ->
  exists a', calcNextHops fuel me ids a = Ok a' /\ hops_inv a' /\
    (forall v, v ∈ V -> (v ∈ ids \/ settled a v) -> settled a' v).
Proof.
  induction ids as [|id ids IH]; intros a Hi Hsub Hr; cbn [calcNextHops].
  - exists a. split; [done|]. split; [done|]. intros v Hv [?%elem_of_nil|?]; done.
  - assert (id ∈ V) as Hid by (apply Hsub, elem_of_cons; auto).
    destruct (calcNextHop_spec fuel id a Hi Hid (Hr id)) as (a1 & -> & Hi1 & Hs1 & Hm1).
    cbn [mbind outcome_bind].
    destruct (IH a1 Hi1 ltac:(intros x Hx; apply Hsub, elem_of_cons; auto) Hr) as (a2 & Ha2 & Hi2 & Hs2).
    exists a2. split; [done|]. split; [done|]. intros v Hv [[->|Hin]%elem_of_cons|Hs]; auto.
Qed.
End hops.
End graph.

(** ** [calcRoutes] *)

Lemma al_find_init me a k :
  al_find k (init_routes me a) =
    (fun d => if k =? me then set_route 0 me (set_nextHop me d) else set_distance unsigned_max (set_nextHop me d))
      <$> al_find k a.
Proof.
  induction a as [|[j d] a IH]; cbn; [done|]. destruct (Z.eqb_spec k j) as [->|Hk]; [done|]. exact IH.
Qed.

Lemma keys_init me a : (init_routes me a).*1 = a.*1.
Proof. unfold init_routes. rewrite <- list_fmap_compose. by induction a as [|? ? IH]; cbn; [|f_equal]. Qed.

Section init_views.
Context (me : Z) (a : AdjList) (v : Z) (Hv : v ∈ a.*1).

Lemma dist_init : dist_of (init_routes me a) v = if v =? me then 0 else unsigned_max.
Proof.
  unfold dist_of. rewrite al_find_init. apply al_find_is_Some in Hv as [d ->]. cbn. by destruct (v =? me).
Qed.
Lemma next_init : next_of (init_routes me a) v = me.
Proof.
  unfold next_of. rewrite al_find_init. apply al_find_is_Some in Hv as [d ->]. cbn. by destruct (v =? me).
Qed.
Lemma prev_init : v = me -> prev_of (init_routes me a) v = me.
Proof.
  intros E. unfold prev_of. rewrite al_find_init. apply al_find_is_Some in Hv as [d ->]. cbn.
  by rewrite (proj2 (Z.eqb_eq v me) E).
Qed.
End init_views.

Lemma links_init me a v : links_of (init_routes me a) v = links_of a v.
Proof. unfold links_of. rewrite al_find_init. destruct (al_find v a); cbn; [|done]. by destruct (v =? me). Qed.

Lemma routes_inv_init me W a :
  NoDup a.*1 -> me ∈ a.*1 ->
  routes_inv (a.*1) (links_of a) me W (a.*1) (links_of a) (init_routes me a).
Proof.
  intros Hnd Hme. constructor.
  - apply keys_init.
  - intros v _. apply links_init.
  - intros v Hv. by apply next_init.
  - rewrite dist_init, prev_init, Z.eqb_refl by done. done.
  - intros v Hv. rewrite dist_init by done. unfold unsigned_max. case_match; lia.
  - intros v Hv. rewrite dist_init by done. case_match; lia.
  - intros v Hv Hvm. rewrite dist_init by done. rewrite (proj2 (Z.eqb_neq v me)) by done. lia.
  - intros v Hv. rewrite dist_init by done. destruct (Z.eqb_spec v me) as [->|]; [|lia].
    intros _. by apply path_refl.
  - intros u v Hu Hu'. done.
  - intros u l Hu Hu'. done.
Qed.

(** The weights [Metric::calculate] stores on links between known stations. *)
Definition weights_ok (a : AdjList) : Prop :=
  forall u l, u ∈ a.*1 -> l ∈ links_of a u -> neighbor l ∈ a.*1 -> 0 < metric_weight l <= uint32_max / 1024.

(** What the routes have to be. *)
Definition routes_spec (me : Z) (a a' : AdjList) : Prop :=
  a'.*1 = a.*1 /\ (forall v, links_of a' v = links_of a v) /\
  forall v, v ∈ a.*1 ->
    (forall d, path (a.*1) (links_of a) me v d ->
       shortest (a.*1) (links_of a) me v (dist_of a' v) /\
       (v <> me -> next_of a' v <> me /\
          exists c, edge (a.*1) (links_of a) me (next_of a' v) c /\
                    path (a.*1) (links_of a) (next_of a' v) v (dist_of a' v - c))) /\
    ((forall d, ~ path (a.*1) (links_of a) me v d) ->
       dist_of a' v = unsigned_max /\ next_of a' v = me).

Lemma routes_correct `{StdSort} me a :
  NoDup a.*1 -> me ∈ a.*1 -> (length a <= 1024)%nat -> weights_ok a ->
  exists a', routes me a = Ok a' /\ routes_spec me a a'.
Proof.
  intros Hnd Hme Hlen Hw. set (V := a.*1). set (g := links_of a). set (W := uint32_max / 1024).
  assert (W * Z.of_nat (length V) < unsigned_max) as Hsmall.
  { subst V. rewrite length_fmap. change W with 4194303. unfold unsigned_max. lia. }
  assert (0 <= W) as HW by done.
  unfold routes. rewrite bool_decide_eq_true_2 by (by apply al_find_is_Some). cbn [cassert mbind outcome_bind].
  assert (length (init_routes me a) = length V) as Hli by (subst V; by rewrite <- (keys_init me a), length_fmap).
  destruct (dijkstra_loop_spec V g me W Hw Hsmall HW (length (init_routes me a)) V (init_routes me a))
    as (a1 & Ha1 & Hi1); try done.
  { by apply routes_inv_init. }
  { lia. }
  rewrite keys_init. fold V. rewrite Ha1. cbn [mbind outcome_bind].
  assert (hops_inv V g me a1 a1) as Hh1.
  { constructor; try done; [apply Hi1|]. intros v Hv. left. by apply Hi1. }
  destruct (calcNextHops_spec V g me W Hw a1 Hi1 (S (length a1)) (a1.*1) a1 Hh1) as (a2 & Ha2 & Hi2 & Hs2).
  { by rewrite (ri_keys _ _ _ _ _ _ _ Hi1). }
  { intros v. unfold rank. rewrite <- (length_fmap fst a1), (ri_keys _ _ _ _ _ _ _ Hi1).
    pose proof (length_filter (fun w => dist_of a1 w < dist_of a1 v) V). lia. }
  exists a2. split; [done|]. split; [apply Hi2|]. split.
  { intros v. rewrite (hi_links _ _ _ _ _ Hi2).
    destruct (decide (v ∈ V)) as [Hv|Hv]; [by apply Hi1|].
    unfold links_of. destruct (al_find v a1) eqn:E1.
    - exfalso. apply Hv. rewrite <- (ri_keys _ _ _ _ _ _ _ Hi1). apply al_find_is_Some. by rewrite E1.
    - destruct (al_find v a) eqn:E2; [|done]. exfalso. apply Hv, al_find_is_Some. by rewrite E2. }
  intros v Hv. rewrite !(hi_dist _ _ _ _ _ Hi2). split.
  - intros d Hp. destruct (routes_inv_complete V g me W a1 v d Hi1 Hp) as [Hlt _]. split.
    + split; [by apply Hi1|]. intros d' Hp'. by apply (routes_inv_complete V g me W a1 v d' Hi1).
    + intros Hvm. assert (settled me a1 a2 v) as [?|[?|Hn]].
      { apply Hs2; [done|]. left. by rewrite (ri_keys _ _ _ _ _ _ _ Hi1). }
      * done.
      * lia.
      * destruct (hi_next _ _ _ _ _ Hi2 v Hv) as [|(_ & _ & Hf)]; [done|]. exact Hf.
  - intros Hno. pose proof (ri_range _ _ _ _ _ _ _ Hi1 v Hv) as R.
    assert (dist_of a1 v = unsigned_max) as E.
    { destruct (decide (dist_of a1 v < unsigned_max)) as [Hlt|]; [|lia].
      exfalso. eapply Hno. by apply Hi1. }
    split; [done|]. destruct (hi_next _ _ _ _ _ Hi2 v Hv) as [|(_ & Hlt & _)]; [done|lia].
Qed.

(** C1. [calcRoutes] computes shortest paths.  For a network of at most 1024
    stations with the weights of [Metric::calculate], from every adjacency list
    that contains this node, for every behaviour of [std::sort], it ends without
    a failed assertion and without overflow of the 32-bit distances: every
    reachable station has the length of a shortest path as its distance, and as
    its next hop a neighbour of this node that begins a shortest path; every
    other station has the distance "unreachable" and no next hop.  Keys and links
    stay as they were. *)
Theorem calcRoutes_shortest_paths `{StdSort} s :
  NoDup (adjList s).*1 -> myNodeId s ∈ (adjList s).*1 -> (length (adjList s) <= 1024)%nat ->
  weights_ok (adjList s) ->
  exists s', calcRoutes s = Ok (tt, s') /\ routes_spec (myNodeId s) (adjList s) (adjList s') /\
    dirty s' = false /\ events s' = events s.
Proof.
  intros Hnd Hme Hlen Hw. destruct (routes_correct (myNodeId s) (adjList s) Hnd Hme Hlen Hw) as (a' & Ha & Hspec).
  exists (set_dirty false (set_adj a' s)). split; [|done].
  unfold calcRoutes, on_adj, gets, modify, lift, mbind, M_bind. by rewrite Ha.
Qed.

(** ** Examples *)

(** Merge sort is one admissible [std::sort]. *)
Definition desc (key : Z -> Z) (a b : Z) : Prop := key b <= key a.
#[export] Instance desc_dec key a b : Decision (desc key a b).
Proof. unfold desc. apply _. Defined.

Lemma StronglySorted_lookup_2 {A} (R : relation A) l i j x y :
  StronglySorted R l -> (i < j)%nat -> l !! i = Some x -> l !! j = Some y -> R x y.
Proof.
  intros Hs. revert i j. induction Hs as [|z l Hs IH Hz]; intros i j Hij Hi Hj; [done|].
  destruct i as [|i], j as [|j]; try lia; cbn in Hi, Hj.
  - injection Hi as <-. rewrite Forall_forall in Hz. apply Hz. by eapply list_elem_of_lookup_2.
  - eapply IH; [|exact Hi|exact Hj]. lia.
Qed.

Definition merge_std_sort : StdSort.
Proof.
  refine {| std_sort key l := merge_sort (desc key) l |}.
  - intros key l. apply merge_sort_Permutation.
  - intros key l i j a b Hij Hi Hj.
    refine (StronglySorted_lookup_2 (desc key) (merge_sort (desc key) l) i j a b _ Hij Hi Hj).
    apply StronglySorted_merge_sort; unfold desc.
    + intros x y z. lia.
    + intros x y. lia.
Defined.

(** Four stations: 1 reaches 2 directly only by an expensive link, and 4 not at all. *)
Definition example_topology : RTopology :=
  let node ls := set_linklist ls NDescr_new in
  mkTopo [(1, node [LQ None 2 10 100; LQ None 3 10 1]); (2, node []);
          (3, node [LQ None 2 10 5]); (4, node [LQ None 1 10 1])]
    true false 1 false false false [].

(** [weights_ok] as a computation. *)
Definition weights_okb (a : AdjList) : bool :=
  forallb (fun kd => forallb (fun l => (0 <? metric_weight l) && (metric_weight l <=? 4194303)) (linklist kd.2)) a.

Lemma weights_okb_ok a : weights_okb a = true -> weights_ok a.
Proof.
  intros Hb u l Hu Hl _. change (uint32_max / 1024) with 4194303.
  unfold weights_okb in Hb. unfold links_of in Hl. destruct (al_find u a) as [d|] eqn:E; [|by apply elem_of_nil in Hl].
  clear Hu. induction a as [|[k d'] a IH]; cbn in *; [done|].
  apply andb_prop in Hb as [Hd Ha]. destruct (u =? k); [|by apply IH].
  injection E as ->. rewrite forallb_forall in Hd. apply list_elem_of_In in Hl.
  specialize (Hd l Hl). lia.
Qed.

Lemma calcRoutes_shortest_paths_witness :
  exists s', calcRoutes (H := merge_std_sort) example_topology = Ok (tt, s') /\
    routes_spec 1 (adjList example_topology) (adjList s') /\ dirty s' = false /\ events s' = [].
Proof.
  apply (calcRoutes_shortest_paths (H := merge_std_sort) example_topology).
  - apply (bool_decide_unpack _). vm_compute. done.
  - apply (bool_decide_unpack _). vm_compute. done.
  - cbn. lia.
  - by apply weights_okb_ok.
Defined.

(** The route to station 2 goes over 3. *)
Lemma example_route :
  (s ← calcRoutes (H := merge_std_sort) example_topology; Ok (next_of (adjList s.2) 2, dist_of (adjList s.2) 2))
  = Ok (3, 6).
Proof. vm_compute. reflexivity. Qed.
