(* ===== verification/TableThms.v ===== *)
(** * From the daemon's topology to the kernel's table

    [RTopology::updateTopology] serialises the next hops, [ioctl(AIOCSRTTBL)]
    installs them, and the kernel searches them for every packet.  The theorems
    connect the three: the kernel finds, for every destination, the next hop the
    daemon has computed. *)

From S2P Require Import Prelude Bytes NodeId Packet Topology RoutesThms.
From S2P Require Import KState KInstance KForward KSocket KRouteThms KBindThms KPacketThms KSocketThms.

(** ** The serialised table *)

Definition entries (a : AdjList) : list (list Z * list Z) :=
  map (fun kd => (be_enc 6 kd.1, be_enc 6 (nextHop kd.2))) a.

Lemma entries_ok a : Forall entry_ok (entries a).
Proof.
  induction a as [|kd a IH]; cbn [entries map]; [constructor|].
  apply Forall_cons_2; [|exact IH]. split; (split; [apply be_enc_length|apply be_enc_bytes]).
Qed.

Lemma length_entries a : length (entries a) = length a.
Proof. apply length_map. Qed.

Lemma splice_app_end (pre bs rest : list Z) :
  (length bs <= length rest)%nat ->
  splice (length pre) bs (pre ++ rest) = pre ++ bs ++ drop (length bs) rest.
Proof.
  intros Hl. unfold splice. rewrite take_app_length. do 2 f_equal.
  rewrite drop_app_ge by lia. f_equal. lia.
Qed.

Lemma table_loop_spec a : forall c pre rest,
  length pre = (4 + c * 6)%nat -> length rest = (12 * length a)%nat ->
  table_loop c a (pre ++ rest) = pre ++ table_of (entries a).
Proof.
  induction a as [|[k d] a IH]; intros c pre rest Hp Hr; cbn [table_loop length] in *.
  - destruct rest; [done|cbn in Hr; lia].
  - rewrite <- Hp. rewrite (AbstractID6.id6_toArray_spec k) by (rewrite length_app; lia).
    rewrite splice_app_end by (rewrite be_enc_length; lia). rewrite be_enc_length.
    rewrite app_assoc.
    assert (length (pre ++ be_enc 6 k) = 4 + (c + 1) * 6)%nat as Hp1 by (rewrite length_app, be_enc_length; lia).
    rewrite <- Hp1, AbstractID6.id6_toArray_spec by (rewrite !length_app, length_drop, be_enc_length; lia).
    rewrite splice_app_end by (rewrite be_enc_length, length_drop; lia). rewrite be_enc_length, drop_drop.
    rewrite app_assoc, (IH (c + 2)%nat).
    + unfold entries, table_of. cbn [map concat fst snd]. by rewrite <- !app_assoc.
    + rewrite !length_app, !be_enc_length. lia.
    + rewrite length_drop. lia.
Qed.

Lemma topology_data_eq fill a :
  topology_data fill a = int_le (Z.of_nat (length a) * 12) ++ table_of (entries a).
Proof.
  unfold topology_data. cbn zeta.
  replace (length a * 2 * 6)%nat with (12 * length a)%nat by lia.
  rewrite replicate_add.
  assert (forall rest, splice 0 (int_le (Z.of_nat (12 * length a))) (replicate 4 fill ++ rest) =
            int_le (Z.of_nat (12 * length a)) ++ rest) as ->.
  { intros rest. unfold splice. rewrite take_0. done. }
  rewrite table_loop_spec by (rewrite ?length_replicate; done).
  do 2 f_equal. lia.
Qed.

(** ** The keys of the map are in the order of [memcmp] *)

Definition al_sorted (a : AdjList) : Prop :=
  forall i j x y, (i < j)%nat -> a.*1 !! i = Some x -> a.*1 !! j = Some y -> x < y.

Definition ids_ok (a : AdjList) : Prop :=
  forall k d, (k, d) ∈ a -> in_width 48 k /\ in_width 48 (nextHop d).

Lemma be_dec_id k : in_width 48 k -> be_dec (be_enc 6 k) = k.
Proof. intros Hk. apply be_dec_enc_id. change (256 ^ Z.of_nat 6) with (2 ^ 48). exact Hk. Qed.

Lemma entries_sorted a : al_sorted a -> ids_ok a -> table_sorted (entries a).
Proof.
  intros Hs Hok i j e f Hij Hi Hj. unfold entries in Hi, Hj.
  rewrite list_lookup_fmap in Hi, Hj.
  apply fmap_Some in Hi as ([k d] & Ei & ->). apply fmap_Some in Hj as ([k' d'] & Ej & ->). cbn [fst snd].
  rewrite !be_dec_id by (eapply Hok; by eapply list_elem_of_lookup_2).
  eapply Hs; [exact Hij|rewrite list_lookup_fmap, Ei; done|rewrite list_lookup_fmap, Ej; done].
Qed.

Lemma al_find_lookup a i k d : al_sorted a -> a !! i = Some (k, d) -> al_find k a = Some d.
Proof.
  intros Hs. revert i. induction a as [|[k0 d0] a IH]; intros i Hi; [done|]. cbn [al_find].
  destruct i as [|i].
  - injection Hi as -> ->. by rewrite Z.eqb_refl.
  - cbn in Hi. destruct (Z.eqb_spec k k0) as [->|_].
    + exfalso. assert (a.*1 !! i = Some k0) as X by (rewrite list_lookup_fmap; apply fmap_Some; by exists (k0, d)).
      pose proof (Hs 0%nat (S i) k0 k0 ltac:(lia) eq_refl X). lia.
    + apply (IH) with (i := i); [|exact Hi]. intros m n x y Hmn Hm Hn. apply (Hs (S m) (S n)); [lia|done|done].
Qed.

Lemma al_find_elem k d a : al_find k a = Some d -> (k, d) ∈ a.
Proof.
  induction a as [|[k0 d0] a IH]; cbn; [done|]. destruct (Z.eqb_spec k k0) as [->|_]; intros Hf.
  - injection Hf as ->. apply elem_of_cons. auto.
  - apply elem_of_cons. auto.
Qed.

(** User memory at [arg] holds [data]. *)
Definition user_holds `{LinuxKernel} (arg : Z) (data : list Z) : Prop :=
  forall t off n, (off + n <= length data)%nat ->
    copy_from_user t (arg + Z.of_nat off) n = (0, slice off n data).

(** C7. The kernel forwards as the daemon has decided.  When the kernel installs
    the table that [updateTopology] serialises, its search finds, for the
    destination of any packet, exactly the next hop that the topology holds for
    that station, and nothing when the station is unknown. *)
Theorem kernel_table_agrees `{LinuxKernel} a fill arg s :
  al_sorted a -> ids_ok a -> a <> [] -> Z.of_nat (length a) * 12 < 2 ^ 31 ->
  awds_instance_mutex s = false ->
  (forall t x n, access_ok t x n = true) -> (forall t n, is_Some (kmalloc_bytes t n)) ->
  user_holds arg (topology_data fill a) ->
  exists s', awds_socket_ioctl AIOCSRTTBL arg s = Ok (0, s') /\
    forall skb, bytes (skb_buf skb) -> 15 <= skb_len skb ->
      exists r, __awds_check_routing skb s' = Ok (r, s') /\
        match al_find (be_dec (KRouteThms.dest_of skb)) a with
        | Some d => exists z tbl, r = Some z /\ awds_routing s' = Some tbl /\
                      entry_nexthop tbl z = Ok (be_enc 6 (nextHop d))
        | None => r = None
        end.
Proof.
  intros Hs Hok Hne Hlen Hm Hacc Hmal Hu. rewrite topology_data_eq in Hu.
  assert (length (int_le (Z.of_nat (length a) * 12)) = 4%nat) as L4 by done.
  assert (length (table_of (entries a)) = (12 * length a)%nat) as Lt
    by (rewrite table_length by apply entries_ok; by rewrite length_entries).
  destruct (ioctl_installs s (entries a) arg) as (s' & Hio & Ht & _).
  - apply entries_ok.
  - by apply entries_sorted.
  - destruct a; done.
  - by rewrite length_entries.
  - done.
  - done.
  - done.
  - intros t. rewrite length_entries. specialize (Hu t 0%nat 4%nat).
    rewrite Z.add_0_r in Hu. rewrite Hu by (rewrite length_app; lia). done.
  - intros t. rewrite length_entries. specialize (Hu t 4%nat (12 * length a)%nat).
    change (arg + Z.of_nat 4) with (arg + 4) in Hu. rewrite Hu by (rewrite length_app; lia). f_equal.
    change (slice 4) with (slice (A := Z) (length (int_le (Z.of_nat (length a) * 12)))).
    unfold slice. rewrite drop_app_length. apply take_ge. lia.
  - exists s'. split; [done|]. intros skb Hb Hl.
    destruct (check_routing_ok s' (entries a) skb Ht Hb Hl) as (r & Hr & Hres). exists r. split; [done|].
    destruct (dest_of_ok skb Hb Hl) as [Ld Bd]. pose proof Ht as (Htb & _).
    destruct r as [z|]; cbn [is_result] in Hres.
    + destruct Hres as (i & e & -> & Hi & Hd). pose proof Hi as Hi'. unfold entries in Hi'.
      rewrite list_lookup_fmap in Hi'. apply fmap_Some in Hi' as ([k d] & Ea & ->). cbn [fst] in Hd.
      rewrite <- Hd, be_dec_id by (eapply Hok; by eapply list_elem_of_lookup_2).
      rewrite (al_find_lookup a i k d Hs Ea). exists (Z.of_nat i), (table_of (entries a)).
      split; [done|]. split; [done|]. by rewrite (entry_nexthop_ok _ i _ (entries_ok a) Hi).
    + destruct (al_find (be_dec (KRouteThms.dest_of skb)) a) as [d|] eqn:Ef; [|done]. exfalso.
      apply al_find_elem in Ef.
      apply (Hres (be_enc 6 (be_dec (KRouteThms.dest_of skb)), be_enc 6 (nextHop d))).
      * unfold entries. apply list_elem_of_fmap. eexists. split; [|exact Ef]. done.
      * cbn [fst]. unfold ETH_ALEN in Ld. rewrite <- Ld at 1. by apply be_enc_dec.
Qed.

(** ** Example *)

(** Two stations; the packets for 9 go over 5. *)
Definition small_adj : AdjList :=
  [(7, set_nextHop 7 NDescr_new); (9, set_nextHop 5 NDescr_new)].

Definition small_user (a : Z) (n : nat) : list Z :=
  slice (Z.to_nat (a - 100)) n (topology_data 0 small_adj).

Lemma kernel_table_agrees_witness :
  exists s', awds_socket_ioctl (H := linux_sim small_user) AIOCSRTTBL 100 one_socket = Ok (0, s') /\
    forall skb, bytes (skb_buf skb) -> 15 <= skb_len skb ->
      exists r, __awds_check_routing skb s' = Ok (r, s') /\
        match al_find (be_dec (KRouteThms.dest_of skb)) small_adj with
        | Some d => exists z tbl, r = Some z /\ awds_routing s' = Some tbl /\
                      entry_nexthop tbl z = Ok (be_enc 6 (nextHop d))
        | None => r = None
        end.
Proof.
  apply (kernel_table_agrees (H := linux_sim small_user) small_adj 0 100 one_socket); try done.
  - intros i j x y Hij Hi Hj. destruct i as [|[|i]], j as [|[|j]]; cbn in Hi, Hj; try lia; try done.
    injection Hi as <-. injection Hj as <-. lia.
  - intros k d Hin. unfold small_adj in Hin.
    apply elem_of_cons in Hin as [[= -> ->]|Hin]; [split; done|].
    apply list_elem_of_singleton in Hin as [= -> ->]. split; done.
  - intros t off n Hl. cbn [copy_from_user linux_sim]. f_equal. unfold small_user. do 2 f_equal. lia.
Defined.
