(* ===== verification/Ccm.v ===== *)
(** * CCM: authenticated encryption

    [crypto/gladman/ccm.c]: the counter and CBC-MAC mode the crypto unit uses,
    for messages below 2^32 bytes (no [LONG_MESSAGES]).  The block cipher AES is
    the interface [AES].  A buffer is a list of bytes; [x ^= y] on a byte or on
    a 32-bit word is the operation [xor_at].  Counters are natural numbers: the
    packets of the daemon are far shorter than 2^32 - 16 bytes, so the 32-bit
    counters of the source do not wrap around.

    [CCM_encrypt] and [CCM_decrypt] choose a path by the addresses of the buffer
    and of the context, so both addresses are arguments. *)

From S2P Require Import Prelude Bytes.

Definition AES_BLOCK_SIZE : nat := 16.

Definition CCM_ok : Z := 0.
Definition CCM_bad_key : Z := -1.
Definition CCM_bad_auth_field_length : Z := -2.
Definition CCM_bad_auth_data_length : Z := -3.
Definition CCM_auth_failure : Z := -4.
Definition CCM_msg_length_error : Z := -5.

(** AES as [ccm.c] uses it: one block in, one block out. *)
Class AES := {
  aes_ctx : Type;
  aes_encrypt_key : list Z -> nat -> aes_ctx;
  aes_encrypt : aes_ctx -> list Z -> list Z;
  aes_encrypt_length : forall k b, length b = 16%nat -> length (aes_encrypt k b) = 16%nat;
}.

(** [x] with the bytes [src] xored in from offset [off] on. *)
Definition xor_at (off : nat) (src x : list Z) : list Z :=
  imap (fun i v => if (off <=? i)%nat then match src !! (i - off)%nat with
                                           | Some y => Z.lxor v y | None => v end else v) x.

Section ccm.
Context `{AES}.

Record CCM_ctx := mkCtx {
  blk : list Z;
  cbc : list Z;
  sii : list Z;
  af_len : nat;
  md_len : nat;
  cnt : nat;
  aes : aes_ctx;
}.

Definition set_blk v x := mkCtx v (cbc x) (sii x) (af_len x) (md_len x) (cnt x) (aes x).
Definition set_cbc v x := mkCtx (blk x) v (sii x) (af_len x) (md_len x) (cnt x) (aes x).
Definition set_sii v x := mkCtx (blk x) (cbc x) v (af_len x) (md_len x) (cnt x) (aes x).
Definition set_cnt v x := mkCtx (blk x) (cbc x) (sii x) (af_len x) (md_len x) v (aes x).

(** The switch falls through from the high to the low bytes. *)
Definition set_ctr (v : Z) (b : list Z) : list Z :=
  let put i sh (l : list Z) := <[i := u8 (Z.shiftr v sh)]> l in
  let t := byte_at b 0 in
  if t =? 3 then put 15%nat 0 (put 14%nat 8 (put 13%nat 16 (put 12%nat 24 b)))
  else if t =? 2 then put 15%nat 0 (put 14%nat 8 (put 13%nat 16 b))
  else if t =? 1 then put 15%nat 0 (put 14%nat 8 b)
  else b.

(** [!++b[i] && !++b[i-1] && ...] over [n] bytes; the last one is only incremented. *)
Fixpoint inc_bytes (n i : nat) (b : list Z) : list Z :=
  match n with
  | O => b
  | S n =>
      let v := u8 (byte_at b i + 1) in
      let b := <[i := v]> b in
      if v =? 0 then inc_bytes n (i - 1) b else b
  end.

Definition inc_ctr (b : list Z) : list Z :=
  let t := byte_at b 0 in
  if t =? 3 then inc_bytes 4 15 b else if t =? 2 then inc_bytes 3 15 b
  else if t =? 1 then inc_bytes 2 15 b else b.

(** ** [CCM_init] *)

(** [for(cnt = 0; cnt < 16 - blk[0] - 2; ++cnt) blk[cnt + 1] = nonce[cnt]] *)
Definition nonce_length (l0 : Z) : nat := Z.to_nat (16 - l0 - 2).
Definition put_nonce (nonce b : list Z) : list Z :=
  splice 1 (take (nonce_length (byte_at b 0)) nonce) b.

(** The CBC over the additional data, [c] bytes of which are done. *)
Fixpoint auth_loop (c : nat) (auth : list Z) (k : aes_ctx) (x : list Z) : list Z :=
  match auth with
  | [] => x
  | a :: auth =>
      let x := xor_at ((c + 2) mod 16) [a] x in
      let c := S c in
      let x := if ((c + 2) mod 16 =? 0)%nat || bool_decide (auth = []) then aes_encrypt k x else x in
      auth_loop c auth k x
  end.

(** [blk[0]], the size of the length field less one. *)
Definition length_code (n : Z) : Z :=
  if negb (Z.land n 0xff000000 =? 0) then 3 else if negb (Z.land n 0xffff0000 =? 0) then 2 else 1.

(** [blk0] is the indeterminate content of the context's block. *)
Definition CCM_init (key : list Z) (key_len : nat) (nonce auth : list Z) (msg_len auth_field_len : nat)
    (blk0 : list Z) : Z + CCM_ctx :=
  if negb ((key_len =? 16) || (key_len =? 24) || (key_len =? 32))%nat then inl CCM_bad_key else
  let k := aes_encrypt_key key key_len in
  if (auth_field_len <? 2)%nat || (16 <? auth_field_len)%nat || Nat.odd auth_field_len
  then inl CCM_bad_auth_field_length else
  let ad_len := length auth in
  if 65536 - 256 <=? Z.of_nat ad_len then inl CCM_bad_auth_data_length else
  let b := <[0%nat := length_code (Z.of_nat msg_len)]> blk0 in
  let b := set_ctr (Z.of_nat msg_len) (put_nonce nonce b) in
  let c := <[0%nat := Z.lor (byte_at b 0)
               ((if (0 <? ad_len)%nat then 0x40 else 0) + Z.shiftl (Z.of_nat auth_field_len - 2) 2)]> b in
  let b := set_ctr 1 b in
  let c := aes_encrypt k c in
  let s := aes_encrypt k b in
  let c := if (0 <? ad_len)%nat
           then auth_loop 0 auth k (xor_at 0 [u8 (Z.shiftr (Z.of_nat ad_len) 8); u8 (Z.of_nat ad_len)] c) else c in
  inr (mkCtx b c s auth_field_len msg_len 0 k).

(** ** The loops of [CCM_encrypt] and [CCM_decrypt] *)

(** [cbc] and message from the positions [b] and [c]: [n] bytes at once, 1 for
    the byte loops and 4 for the word loops. *)
Definition enc_xor (n c b : nat) (m : list Z) (x : CCM_ctx) : outcome (list Z * CCM_ctx) :=
  if (c + n <=? length m)%nat && (b + n <=? 16)%nat then
    let w := slice c n m in
    Ok (xor_at c (slice b n (sii x)) m, set_cbc (xor_at b w (cbc x)) x)
  else Fail OutOfBounds.

Definition dec_xor (n c b : nat) (m : list Z) (x : CCM_ctx) : outcome (list Z * CCM_ctx) :=
  if (c + n <=? length m)%nat && (b + n <=? 16)%nat then
    let m := xor_at c (slice b n (sii x)) m in
    Ok (m, set_cbc (xor_at b (slice c n m) (cbc x)) x)
  else Fail OutOfBounds.

(** A full block: next counter block, next CBC block. *)
Definition next_block (x : CCM_ctx) : CCM_ctx :=
  let x := set_blk (inc_ctr (blk x)) x in
  let x := set_sii (aes_encrypt (aes x) (blk x)) x in
  set_cbc (aes_encrypt (aes x) (cbc x)) x.

Section loops.
Variable step_xor : nat -> nat -> nat -> list Z -> CCM_ctx -> outcome (list Z * CCM_ctx).

(** Position in the message, position in the block, buffer, context. *)
Definition lstate : Type := nat * nat * list Z * CCM_ctx.

(** [while(!aligned(mbuf + cnt) && cnt < len && b_pos < 16)] *)
Fixpoint align_loop (fuel : nat) (addr : Z) (len : nat) (s : lstate) : outcome lstate :=
  let '(c, b, m, x) := s in
  if negb ((addr + Z.of_nat c) mod 4 =? 0) && (c <? len)%nat && (b <? 16)%nat then
    match fuel with
    | O => Fail OutOfFuel
    | S fuel => r ← step_xor 1 c b m x; align_loop fuel addr len (S c, S b, fst r, snd r)
    end
  else Ok s.

(** [while(b_pos < 4 && cnt + 4 < len)]; [b] counts words. *)
Fixpoint word_loop (fuel : nat) (len : nat) (s : lstate) : outcome lstate :=
  let '(c, b, m, x) := s in
  if (b <? 4)%nat && (c + 4 <? len)%nat then
    match fuel with
    | O => Fail OutOfFuel
    | S fuel => r ← step_xor 4 c (4 * b) m x; word_loop fuel len ((c + 4)%nat, S b, fst r, snd r)
    end
  else Ok s.

(** [while(cnt + 16 < len)] with four words per round. *)
Fixpoint block_loop (fuel : nat) (len : nat) (s : lstate) : outcome lstate :=
  let '(c, b, m, x) := s in
  if (c + 16 <? len)%nat then
    match fuel with
    | O => Fail OutOfFuel
    | S fuel =>
        r ← step_xor 4 c 0 m x;
        r ← step_xor 4 (c + 4) 4 (fst r) (snd r);
        r ← step_xor 4 (c + 8) 8 (fst r) (snd r);
        r ← step_xor 4 (c + 12) 12 (fst r) (snd r);
        block_loop fuel len ((c + 16)%nat, b, fst r, next_block (snd r))
    end
  else Ok s.

(** The path for a buffer with the alignment of the context. *)
Definition aligned_path (addr : Z) (len : nat) (s : lstate) : outcome lstate :=
  s ← align_loop 16 addr len s;
  let '(c, b, m, x) := s : lstate in
  let b := (b / 4)%nat in
  s ← (if (b =? 0)%nat then Ok (c, b, m, x) else
       s ← word_loop 4 len (c, b, m, x);
       let '(c, b, m, x) := s : lstate in
       Ok (if (b =? 4)%nat then (c, 0%nat, m, next_block x) else (c, b, m, x)));
  block_loop len len s.

(** The inner loop of the byte path: fill the block. *)
Fixpoint fill_loop (fuel : nat) (s : lstate) : outcome lstate :=
  let '(c, b, m, x) := s in
  if (b <? 16)%nat then
    match fuel with
    | O => Fail OutOfFuel
    | S fuel => r ← step_xor 1 c b m x; fill_loop fuel (S c, S b, fst r, snd r)
    end
  else Ok s.

(** [while(cnt + 16 < len)] with one byte per step ([CCM_encrypt] only). *)
Fixpoint byte_block_loop (fuel : nat) (len : nat) (s : lstate) : outcome lstate :=
  let '(c, b, m, x) := s in
  if (c + 16 <? len)%nat then
    match fuel with
    | O => Fail OutOfFuel
    | S fuel =>
        s ← fill_loop 16 s;
        let '(c, _, m, x) := s : lstate in
        byte_block_loop fuel len (c, 0%nat, m, next_block x)
    end
  else Ok s.

(** [while(cnt < len)] *)
Fixpoint byte_loop (n : nat) (s : lstate) : outcome lstate :=
  match n with
  | O => Ok s
  | S n =>
      let '(c, b, m, x) := s in
      r ← step_xor 1 c b m x;
      byte_loop n (if (S b =? 16)%nat then (S c, 0%nat, fst r, next_block (snd r))
                   else (S c, S b, fst r, snd r))
  end.
End loops.

(** The authentication value at the end of the message. *)
Definition final_block (b : nat) (x : CCM_ctx) : CCM_ctx :=
  let x := if (b =? 0)%nat then x else set_cbc (aes_encrypt (aes x) (cbc x)) x in
  let x := set_blk (set_ctr 0 (blk x)) x in
  set_sii (aes_encrypt (aes x) (blk x)) x.

Definition auth_value (x : CCM_ctx) : list Z := take (af_len x) (zip_with Z.lxor (cbc x) (sii x)).

(** [ctx->cnt & AES_BLOCK_SIZE] *)
Definition start_pos (x : CCM_ctx) : nat := Z.to_nat (Z.land (Z.of_nat (cnt x)) 16).

Definition same_alignment (addr blk_addr : Z) : bool := Z.land (addr - blk_addr) 3 =? 0.

(** The result, the buffer and the context. *)
Definition CCM_encrypt (addr blk_addr : Z) (m : list Z) (len : nat) (x : CCM_ctx) :
    outcome (Z * list Z * CCM_ctx) :=
  if (md_len x <? cnt x + len)%nat then Ok (CCM_msg_length_error, m, x) else
  let s := (0%nat, start_pos x, m, x) in
  s ← (if same_alignment addr blk_addr then aligned_path enc_xor addr len s else Ok s);
  s ← byte_block_loop enc_xor len len s;
  let '(c, _, _, _) := s : lstate in
  s ← byte_loop enc_xor (len - c) s;
  let '(c, b, m, x) := s : lstate in
  let x := set_cnt (cnt x + c) x in
  if (cnt x =? md_len x)%nat then
    let x := final_block b x in
    if (c + af_len x <=? length m)%nat
    then Ok (Z.of_nat (c + af_len x), splice c (auth_value x) m, x) else Fail OutOfBounds
  else Ok (Z.of_nat c, m, x).

Definition CCM_decrypt (addr blk_addr : Z) (m : list Z) (len : nat) (x : CCM_ctx) :
    outcome (Z * list Z * CCM_ctx) :=
  if (md_len x <? cnt x + len)%nat && negb (cnt x + len =? md_len x + af_len x)%nat
  then Ok (CCM_msg_length_error, m, x) else
  let len := if (md_len x <? cnt x + len)%nat then (md_len x - cnt x)%nat else len in
  let s := (0%nat, start_pos x, m, x) in
  s ← (if same_alignment addr blk_addr then aligned_path dec_xor addr len s else Ok s);
  let '(c, _, _, _) := s : lstate in
  s ← byte_loop dec_xor (len - c) s;
  let '(c, b, m, x) := s : lstate in
  let x := set_cnt (cnt x + c) x in
  if (cnt x =? md_len x)%nat then
    let x := final_block b x in
    if (c + af_len x <=? length m)%nat then
      if bool_decide (slice c (af_len x) m = auth_value x) then Ok (Z.of_nat c, m, x)
      else Ok (CCM_auth_failure, splice 0 (replicate (c + af_len x) 0) m, x)
    else Fail OutOfBounds
  else Ok (Z.of_nat c, m, x).

(** The result and the message buffer. *)
Definition CCM_mode (addr blk_addr : Z) (blk0 key : list Z) (key_len : nat) (nonce auth m : list Z)
    (msg_len auth_field_len : nat) (ed_flag : bool) : outcome (Z * list Z) :=
  match CCM_init key key_len nonce auth msg_len auth_field_len blk0 with
  | inl ec => Ok (ec, m)
  | inr x =>
      r ← (if ed_flag then CCM_decrypt addr blk_addr m (msg_len + auth_field_len) x
           else CCM_encrypt addr blk_addr m msg_len x);
      Ok (fst r)
  end.
End ccm.
