(* ===== verification/CcmThms.v ===== *)
(** * CCM computes RFC 3610

    [CCM_mode] of [crypto/gladman/ccm.c] against a reference definition of
    counter mode with CBC-MAC as RFC 3610 describes it: the word loops and the
    byte loops are the same byte-by-byte encryption, encryption yields the
    cipher text and the authentication value of the RFC, decryption returns the
    plain text exactly when the authentication value fits and a cleared buffer
    otherwise, and decryption undoes encryption.

    The context is aligned to a word ([blk_addr mod 4 = 0]), as its 32-bit
    members require; the message buffer may have any address. *)

From S2P Require Import Prelude Bytes Ccm.

(** ** [xor_at] *)

Lemma xor_at_length off src x : length (xor_at off src x) = length x.
Proof. unfold xor_at. apply length_imap. Qed.

Lemma xor_at_one i a x : xor_at i [a] x = alter (fun v => Z.lxor v a) i x.
Proof.
  apply list_eq. intros j. unfold xor_at. rewrite list_lookup_imap.
  destruct (decide (j = i)) as [->|Hne].
  - rewrite list_lookup_alter_eq, Nat.leb_refl, Nat.sub_diag. done.
  - rewrite list_lookup_alter_ne by done. destruct (x !! j); [|done]. cbn.
    destruct (Nat.leb_spec i j); [|done].
    by destruct (j - i)%nat as [|[]] eqn:E; [lia|..].
Qed.

Lemma xor_at_nil off x : xor_at off [] x = x.
Proof.
  apply list_eq. intros j. unfold xor_at. rewrite list_lookup_imap.
  destruct (x !! j); [|done]. cbn. by destruct (off <=? j)%nat.
Qed.

Lemma xor_at_cons off a src x : xor_at off (a :: src) x = xor_at (S off) src (xor_at off [a] x).
Proof.
  apply list_eq. intros j. unfold xor_at. rewrite !list_lookup_imap.
  destruct (x !! j); [|done]. cbn [fmap option_fmap option_map]. f_equal.
  destruct (Nat.leb_spec off j), (Nat.leb_spec (S off) j); try lia.
  - replace (j - off)%nat with (S (j - S off)) by lia. cbn. done.
  - by replace (j - off)%nat with 0%nat by lia.
Qed.

Lemma xor_at_lookup_lt off src x j : (j < off)%nat -> xor_at off src x !! j = x !! j.
Proof.
  intros. unfold xor_at. rewrite list_lookup_imap. destruct (x !! j); [|done]. cbn.
  by destruct (Nat.leb_spec off j); [lia|].
Qed.

Lemma xor_at_lookup_at i a x v : x !! i = Some v -> xor_at i [a] x !! i = Some (Z.lxor v a).
Proof. intros E. by rewrite xor_at_one, list_lookup_alter_eq, E. Qed.

Lemma slice_xor_at_after c n k src x :
  (length src + c <= k)%nat -> slice k n (xor_at c src x) = slice k n x.
Proof.
  intros Hk. apply list_eq. intros i. unfold slice.
  destruct (decide (i < n)%nat); [|by rewrite !lookup_take_ge by lia].
  rewrite !lookup_take_lt, !lookup_drop by done. unfold xor_at. rewrite list_lookup_imap.
  destruct (x !! _); [|done]. cbn. destruct (Nat.leb_spec c (k + i)); [|done].
  by rewrite lookup_ge_None_2 by lia.
Qed.

Lemma slice_one {A} c (m : list A) v : m !! c = Some v -> slice c 1 m = [v].
Proof. intros E. rewrite (slice_cons _ _ _ _ E). unfold slice. by rewrite take_0. Qed.

(** ** The reference: RFC 3610 *)

Module Rfc3610.
(** Zero-padded blocks of 16 bytes. *)
Definition pad16 (l : list Z) : list Z := l ++ replicate (16 - length l) 0.
Definition blocks (d : list Z) : list (list Z) :=
  (fun i => pad16 (slice (16 * i) 16 d)) <$> seq 0 ((length d + 15) / 16).

(** The length field has the fewest bytes, at least two, that hold the length. *)
Definition field_length (n : nat) : nat :=
  if Z.of_nat n <? 2 ^ 16 then 2%nat else if Z.of_nat n <? 2 ^ 24 then 3%nat else 4%nat.

Section rfc.
(** The block cipher under the key, the size of the length field, the nonce. *)
Context (E : list Z -> list Z) (L : nat) (nonce : list Z).

Definition cbc_mac (X : list Z) (bs : list (list Z)) : list Z :=
  foldl (fun X B => E (zip_with Z.lxor X B)) X bs.

Definition A_block (i : Z) : list Z := (Z.of_nat L - 1) :: take (15 - L) nonce ++ be_enc L i.
Definition S_block (i : Z) : list Z := E (A_block i).

Definition B_0 (n M : nat) (adata : bool) : list Z :=
  ((if adata then 64 else 0) + 8 * ((Z.of_nat M - 2) / 2) + (Z.of_nat L - 1)) ::
  take (15 - L) nonce ++ be_enc L (Z.of_nat n).

Definition auth_string (a : list Z) : list Z :=
  match a with [] => [] | _ => be_enc 2 (Z.of_nat (length a)) ++ a end.

Definition mac (M : nat) (a m : list Z) : list Z :=
  cbc_mac (replicate 16 0)
    (B_0 (length m) M (negb (bool_decide (a = []))) :: blocks (auth_string a) ++ blocks m).

(** The message under the key stream [S_1 S_2 ...], starting at byte [c]. *)
Definition ctr_from (c : nat) (m : list Z) : list Z :=
  imap (fun j v => Z.lxor v (byte_at (S_block (1 + Z.of_nat ((c + j) / 16))) ((c + j) mod 16))) m.
Definition ctr : list Z -> list Z := ctr_from 0.

Definition tag (M : nat) (a m : list Z) : list Z :=
  take M (zip_with Z.lxor (mac M a m) (S_block 0)).
End rfc.
End Rfc3610.
Import Rfc3610.

Lemma field_length_cases n :
  field_length n = 2%nat \/ field_length n = 3%nat \/ field_length n = 4%nat.
Proof. unfold field_length. repeat case_match; auto. Qed.

Lemma ctr_from_cons E L nonce c v m :
  ctr_from E L nonce c (v :: m) =
    Z.lxor v (byte_at (S_block E L nonce (1 + Z.of_nat (c / 16))) (c mod 16)) ::
    ctr_from E L nonce (S c) m.
Proof.
  unfold ctr_from. rewrite imap_cons, Nat.add_0_r. f_equal.
  apply imap_ext. intros i y _. cbn. by replace (c + S i)%nat with (S (c + i)) by lia.
Qed.

Lemma ctr_from_length E L nonce c m : length (ctr_from E L nonce c m) = length m.
Proof. apply length_imap. Qed.

Lemma ctr_from_involutive E L nonce c m : ctr_from E L nonce c (ctr_from E L nonce c m) = m.
Proof.
  revert c. induction m as [|v m IH]; intros c; [done|].
  rewrite !ctr_from_cons, IH. f_equal. by rewrite Z.lxor_assoc, Z.lxor_nilpotent, Z.lxor_0_r.
Qed.

(** ** CBC-MAC one byte at a time *)

Section absorb.
Context (E : list Z -> list Z) (E_length : forall b, length b = 16%nat -> length (E b) = 16%nat).
Implicit Types X l : list Z.

Fixpoint absorb (p : nat) X l : nat * list Z :=
  match l with
  | [] => (p, X)
  | a :: l =>
      let X := alter (fun v => Z.lxor v a) p X in
      if (S p =? 16)%nat then absorb 0 (E X) l else absorb (S p) X l
  end.

Definition flush (r : nat * list Z) : list Z := if (fst r =? 0)%nat then snd r else E (snd r).

Lemma absorb_app p X l1 l2 :
  absorb p X (l1 ++ l2) = absorb (fst (absorb p X l1)) (snd (absorb p X l1)) l2.
Proof. revert p X. induction l1 as [|a l1 IH]; intros p X; [done|]. cbn. by case_match. Qed.

Lemma absorb_short p X l :
  (p + length l < 16)%nat -> absorb p X l = ((p + length l)%nat, xor_at p l X).
Proof.
  revert p X. induction l as [|a l IH]; intros p X Hl; cbn [absorb length] in *.
  - by rewrite xor_at_nil, Nat.add_0_r.
  - rewrite (proj2 (Nat.eqb_neq (S p) 16)) by lia.
    rewrite IH, xor_at_cons, xor_at_one by lia. f_equal. lia.
Qed.

Lemma absorb_full p X l :
  l <> [] -> (p + length l = 16)%nat -> absorb p X l = (0%nat, E (xor_at p l X)).
Proof.
  revert p X. induction l as [|a l IH]; intros p X Hne Hl; cbn [absorb length] in *; [done|].
  rewrite xor_at_cons, xor_at_one. destruct l as [|a' l].
  - by rewrite (proj2 (Nat.eqb_eq (S p) 16)), xor_at_nil by (cbn in Hl; lia).
  - rewrite (proj2 (Nat.eqb_neq (S p) 16)) by (cbn in Hl; lia). apply IH; [done|cbn in *; lia].
Qed.

Lemma absorb_pos p X l : (p < 16)%nat -> fst (absorb p X l) = ((p + length l) mod 16)%nat.
Proof.
  revert p X. induction l as [|a l IH]; intros p X Hp; cbn [absorb length fst].
  - by rewrite Nat.add_0_r, Nat.mod_small.
  - destruct (Nat.eqb_spec (S p) 16) as [Hs|].
    + rewrite IH by lia. replace (p + S (length l))%nat with (0 + length l + 1 * 16)%nat by lia.
      by rewrite Nat.Div0.mod_add.
    + rewrite IH by lia. f_equal. lia.
Qed.

Lemma absorb_length p X l : length X = 16%nat -> length (snd (absorb p X l)) = 16%nat.
Proof.
  revert p X. induction l as [|a l IH]; intros p X HX; cbn [absorb snd]; [done|].
  case_match; apply IH; rewrite ?E_length; rewrite ?length_alter; done.
Qed.

Lemma xor_at_pad l X :
  length X = 16%nat -> (length l <= 16)%nat -> xor_at 0 l X = zip_with Z.lxor X (pad16 l).
Proof.
  intros HX Hl. apply list_eq. intros i. unfold xor_at, pad16.
  rewrite list_lookup_imap, lookup_zip_with. destruct (X !! i) as [v|] eqn:Ev; [|done].
  cbn. apply lookup_lt_Some in Ev. rewrite Nat.sub_0_r.
  destruct (decide (i < length l)%nat) as [Hi|].
  - rewrite lookup_app_l by done. apply lookup_lt_is_Some_2 in Hi as [y ->]. done.
  - rewrite lookup_app_r, lookup_replicate_2 by lia. rewrite (lookup_ge_None_2 l) by lia.
    cbn. by rewrite Z.lxor_0_r.
Qed.

Lemma cbc_mac_length X bs :
  length X = 16%nat -> Forall (fun B => length B = 16%nat) bs -> length (cbc_mac E X bs) = 16%nat.
Proof.
  intros HX HB. revert X HX. induction HB as [|B bs HB1 HB IH]; intros X HX; [done|].
  unfold cbc_mac. cbn [foldl]. apply IH, E_length. rewrite length_zip_with. lia.
Qed.

Lemma blocks_length d : Forall (fun B => length B = 16%nat) (blocks d).
Proof.
  unfold blocks. apply Forall_fmap, Forall_true. intros i. unfold compose, pad16.
  rewrite length_app, length_replicate. unfold slice.
  pose proof (length_take (drop (16 * i) d) 16). lia.
Qed.

Lemma blocks_long l1 l2 : length l1 = 16%nat -> blocks (l1 ++ l2) = l1 :: blocks l2.
Proof.
  intros Hl. unfold blocks. rewrite length_app, Hl.
  replace ((16 + length l2 + 15) / 16)%nat with (S ((length l2 + 15) / 16))
    by (rewrite <- Nat.add_assoc, <- (Nat.div_add_l 1 16) by lia; f_equal; lia).
  rewrite <- cons_seq. cbn [fmap list_fmap]. f_equal.
  - unfold pad16, slice. rewrite drop_0, <- Hl, take_app_length, Hl. cbn. apply app_nil_r.
  - rewrite <- fmap_S_seq, <- list_fmap_compose. apply list_fmap_ext. intros i x _.
    unfold compose, slice. f_equal. f_equal. rewrite drop_app_ge by lia. f_equal. lia.
Qed.

Lemma blocks_short l : l <> [] -> (length l < 16)%nat -> blocks l = [pad16 l].
Proof.
  intros Hne Hl. unfold blocks. destruct l as [|a l]; [done|]. cbn [length] in *.
  replace ((S (length l) + 15) / 16)%nat with 1%nat
    by (apply (Nat.div_unique _ _ _ (length l)); lia).
  cbn [seq fmap list_fmap]. unfold slice. rewrite drop_0, take_ge by (cbn; lia). done.
Qed.

(** Bytes absorbed one at a time are the blocks of the CBC-MAC. *)
Lemma absorb_blocks X l : length X = 16%nat -> flush (absorb 0 X l) = cbc_mac E X (blocks l).
Proof.
  remember (length l) as n eqn:Hn. revert X l Hn.
  induction n as [n IH] using lt_wf_ind. intros X l Hn HX.
  destruct (decide (16 <= n)%nat).
  - rewrite <- (take_drop 16 l).
    assert (length (take 16 l) = 16%nat) as H16 by (rewrite length_take; lia).
    rewrite absorb_app, (absorb_full 0 X (take 16 l)) by (done || (intros Hz; by rewrite Hz in H16)).
    cbn [fst snd]. rewrite (IH (length (drop 16 l))), blocks_long;
      [|done|rewrite length_drop; lia|done|rewrite E_length; rewrite ?xor_at_length; done].
    unfold cbc_mac. cbn [foldl]. rewrite xor_at_pad by (done || lia). do 3 f_equal.
    unfold pad16. by rewrite H16, app_nil_r.
  - destruct (decide (l = [])) as [->|Hne]; [done|].
    rewrite absorb_short, blocks_short by (done || lia). unfold flush. cbn [fst snd Nat.add].
    destruct (Nat.eqb_spec (length l) 0) as [Hz|]; [by apply nil_length_inv in Hz|].
    cbn. by rewrite xor_at_pad by (done || lia).
Qed.
End absorb.

Section ccm.
Context `{AES}.
Implicit Types (m : list Z) (x : CCM_ctx) (c b n k : nat).

(** ** One byte at a time *)

Definition ctx_ok (x : CCM_ctx) : Prop :=
  length (blk x) = 16%nat /\ length (cbc x) = 16%nat /\ length (sii x) = 16%nat.

(** The laws of [enc_xor] and [dec_xor] the loops rely on: several bytes at
    once are the bytes one by one, and the context keeps its shape. *)
Record step_laws (step : nat -> nat -> nat -> list Z -> CCM_ctx -> outcome (list Z * CCM_ctx)) := {
  step_split : forall n c b m x, ctx_ok x -> (c + S n <= length m)%nat -> (b + S n <= 16)%nat ->
    step (S n) c b m x = (r ← step 1%nat c b m x; step n (S c) (S b) (fst r) (snd r));
  step_zero : forall c b m x, (c <= length m)%nat -> (b <= 16)%nat -> step 0%nat c b m x = Ok (m, x);
  step_one : forall c b m x, ctx_ok x -> (c < length m)%nat -> (b < 16)%nat ->
    exists m' x', step 1%nat c b m x = Ok (m', x') /\ ctx_ok x' /\ length m' = length m;
}.

Lemma set_cbc_twice v w (x : CCM_ctx) : set_cbc v (set_cbc w x) = set_cbc v x.
Proof. done. Qed.

Lemma set_cbc_id (x : CCM_ctx) : set_cbc (cbc x) x = x.
Proof. by destruct x. Qed.

Lemma ctx_ok_cbc v x : ctx_ok x -> length v = 16%nat -> ctx_ok (set_cbc v x).
Proof. intros (?&?&?) ?. done. Qed.

(** What one byte does. *)
Lemma enc_xor_one c b m x v s :
  (b < 16)%nat -> m !! c = Some v -> sii x !! b = Some s ->
  enc_xor 1 c b m x = Ok (<[c := Z.lxor v s]> m, set_cbc (alter (fun y => Z.lxor y v) b (cbc x)) x).
Proof.
  intros Hb Hv Hs. unfold enc_xor. pose proof (lookup_lt_Some _ _ _ Hv).
  rewrite (proj2 (Nat.leb_le _ _)), (proj2 (Nat.leb_le (b + 1) 16)) by lia. cbn [andb].
  rewrite (slice_one _ _ _ Hs), (slice_one _ _ _ Hv), !xor_at_one. do 2 f_equal.
  apply list_eq. intros j. destruct (decide (j = c)) as [->|].
  - by rewrite list_lookup_alter_eq, Hv, list_lookup_insert_eq.
  - by rewrite list_lookup_alter_ne, list_lookup_insert_ne.
Qed.

Lemma dec_xor_one c b m x v s :
  (b < 16)%nat -> m !! c = Some v -> sii x !! b = Some s ->
  dec_xor 1 c b m x =
    Ok (<[c := Z.lxor v s]> m, set_cbc (alter (fun y => Z.lxor y (Z.lxor v s)) b (cbc x)) x).
Proof.
  intros Hb Hv Hs. unfold dec_xor. pose proof (lookup_lt_Some _ _ _ Hv).
  rewrite (proj2 (Nat.leb_le _ _)), (proj2 (Nat.leb_le (b + 1) 16)) by lia. cbn [andb].
  rewrite (slice_one _ _ _ Hs).
  rewrite (slice_one c (xor_at c [s] m) (Z.lxor v s)) by (by apply xor_at_lookup_at).
  rewrite !xor_at_one. do 2 f_equal.
  apply list_eq. intros j. destruct (decide (j = c)) as [->|].
  - by rewrite list_lookup_alter_eq, Hv, list_lookup_insert_eq.
  - by rewrite list_lookup_alter_ne, list_lookup_insert_ne.
Qed.

Lemma step_lookups c b m x :
  ctx_ok x -> (c < length m)%nat -> (b < 16)%nat ->
  exists v s, m !! c = Some v /\ sii x !! b = Some s.
Proof.
  intros (_ & _ & Hs) Hc Hb.
  destruct (lookup_lt_is_Some_2 m c Hc) as [v Hv].
  destruct (lookup_lt_is_Some_2 (sii x) b) as [s Es]; [lia|]. eauto.
Qed.

Lemma guard_true c n b (m : list Z) :
  (c + n <= length m)%nat -> (b + n <= 16)%nat ->
  (c + n <=? length m)%nat && (b + n <=? 16)%nat = true.
Proof. intros. by rewrite !(proj2 (Nat.leb_le _ _)) by lia. Qed.

Lemma enc_laws : step_laws enc_xor.
Proof.
  split.
  - intros n c b m x Hx Hc Hb.
    destruct (step_lookups c b m x) as (v & s & Hv & Hs); [done|lia|lia|].
    unfold enc_xor. rewrite !guard_true by lia.
    rewrite outcome_ret_bind. cbn [fst snd].
    rewrite !guard_true by (rewrite ?xor_at_length; lia).
    rewrite (slice_cons _ _ _ _ Hv), (slice_cons _ _ _ _ Hs), (slice_one _ _ _ Hs), (slice_one _ _ _ Hv).
    rewrite (xor_at_cons c), (xor_at_cons b), set_cbc_twice.
    by rewrite slice_xor_at_after by (cbn; lia).
  - intros c b m x Hc Hb. unfold enc_xor. rewrite guard_true by lia.
    unfold slice. by rewrite !take_0, !xor_at_nil, set_cbc_id.
  - intros c b m x Hx Hc Hb.
    destruct (step_lookups c b m x) as (v & s & Hv & Hs); [done..|].
    rewrite (enc_xor_one _ _ _ _ _ _ Hb Hv Hs). do 2 eexists. split; [done|].
    rewrite length_insert. split; [|done]. destruct Hx as (?&?&?).
    apply ctx_ok_cbc; [done|]. by rewrite length_alter.
Qed.

Lemma dec_laws : step_laws dec_xor.
Proof.
  split.
  - intros n c b m x Hx Hc Hb.
    destruct (step_lookups c b m x) as (v & s & Hv & Hs); [done|lia|lia|].
    unfold dec_xor. rewrite !guard_true by lia.
    rewrite outcome_ret_bind. cbn [fst snd].
    rewrite !guard_true by (rewrite ?xor_at_length; lia).
    rewrite (slice_cons _ _ _ _ Hs), (slice_one _ _ _ Hs), (xor_at_cons c).
    assert (xor_at c [s] m !! c = Some (Z.lxor v s)) as Hc1 by (by apply xor_at_lookup_at).
    rewrite (slice_one _ _ _ Hc1).
    erewrite slice_cons by (rewrite xor_at_lookup_lt by lia; exact Hc1).
    by rewrite (xor_at_cons b), set_cbc_twice.
  - intros c b m x Hc Hb. unfold dec_xor. rewrite guard_true by lia.
    unfold slice. by rewrite !take_0, !xor_at_nil, set_cbc_id.
  - intros c b m x Hx Hc Hb.
    destruct (step_lookups c b m x) as (v & s & Hv & Hs); [done..|].
    rewrite (dec_xor_one _ _ _ _ _ _ Hb Hv Hs). do 2 eexists. split; [done|].
    rewrite length_insert. split; [|done]. destruct Hx as (?&?&?).
    apply ctx_ok_cbc; [done|]. by rewrite length_alter.
Qed.

(** ** The word loops and the byte loops do the same *)

Lemma next_block_ok x : ctx_ok x -> ctx_ok (next_block x).
Proof.
  intros (Hb & Hc & Hs). unfold next_block, ctx_ok. cbn.
  assert (forall n i (l : list Z), length (inc_bytes n i l) = length l) as Hi.
  { induction n as [|n IH]; intros; cbn; [done|]. case_match; rewrite ?IH; apply length_insert. }
  assert (length (inc_ctr (blk x)) = 16%nat) as Hl.
  { unfold inc_ctr. repeat case_match; rewrite ?Hi; done. }
  split_and!; [done|..]; apply aes_encrypt_length; done.
Qed.

Section steps.
Context (step : nat -> nat -> nat -> list Z -> CCM_ctx -> outcome (list Z * CCM_ctx)).
Context (L : step_laws step).

Lemma step_total n c b m x :
  ctx_ok x -> (c + n <= length m)%nat -> (b + n <= 16)%nat ->
  exists m' x', step n c b m x = Ok (m', x') /\ ctx_ok x' /\ length m' = length m.
Proof.
  revert c b m x. induction n as [|n IH]; intros c b m x Hx Hc Hb.
  - rewrite (step_zero _ L) by lia. eauto.
  - rewrite (step_split _ L n) by (done || lia).
    destruct (step_one _ L c b m x) as (m1 & x1 & -> & Hx1 & Hm1); [done|lia|lia|].
    rewrite outcome_ret_bind. cbn [fst snd]. rewrite <- Hm1. apply IH; [done|lia|lia].
Qed.

Lemma step_plus n k c b m x :
  ctx_ok x -> (c + (n + k) <= length m)%nat -> (b + (n + k) <= 16)%nat ->
  step (n + k) c b m x = (r ← step n c b m x; step k (c + n) (b + n) (fst r) (snd r)).
Proof.
  revert c b m x. induction n as [|n IH]; intros c b m x Hx Hc Hb.
  - rewrite (step_zero _ L) by lia. rewrite outcome_ret_bind. cbn. by rewrite !Nat.add_0_r.
  - cbn [Nat.add]. rewrite (step_split _ L (n + k)), (step_split _ L n) by (done || lia).
    destruct (step_one _ L c b m x) as (m1 & x1 & -> & Hx1 & Hm1); [done|lia|lia|].
    rewrite !outcome_ret_bind. cbn [fst snd]. rewrite IH by (done || lia).
    by rewrite !Nat.add_succ_r.
Qed.

Definition finish c b (r : list Z * CCM_ctx) : lstate :=
  if (b =? 16)%nat then (c, 0%nat, fst r, next_block (snd r)) else (c, b, fst r, snd r).

Lemma byte_loop_step n c b m x :
  ctx_ok x -> (b < 16)%nat -> (c + n <= length m)%nat -> (b + n <= 16)%nat ->
  byte_loop step n (c, b, m, x) = (r ← step n c b m x; Ok (finish (c + n) (b + n) r)).
Proof.
  revert c b m x. induction n as [|n IH]; intros c b m x Hx Hlt Hc Hb.
  - rewrite (step_zero _ L) by lia. rewrite outcome_ret_bind, !Nat.add_0_r. unfold finish.
    by rewrite (proj2 (Nat.eqb_neq b 16)) by lia.
  - cbn [byte_loop]. rewrite (step_split _ L n) by (done || lia).
    destruct (step_one _ L c b m x) as (m1 & x1 & -> & Hx1 & Hm1); [done|lia|lia|].
    rewrite !outcome_ret_bind. cbn [fst snd].
    replace (c + S n)%nat with (S c + n)%nat by lia. replace (b + S n)%nat with (S b + n)%nat by lia.
    destruct (Nat.eqb_spec (S b) 16) as [E|E].
    + assert (n = 0%nat) as -> by lia. rewrite (step_zero _ L) by lia.
      rewrite outcome_ret_bind, !Nat.add_0_r. unfold finish. by rewrite E.
    + rewrite IH by (done || lia). done.
Qed.

Lemma byte_loop_plus n k s :
  byte_loop step (n + k) s = (s' ← byte_loop step n s; byte_loop step k s').
Proof.
  revert s. induction n as [|n IH]; intros [[[c b] m] x]; [done|].
  cbn [Nat.add byte_loop]. destruct (step 1 c b m x) as [[m' x']|f]; [|done].
  rewrite !outcome_ret_bind. apply IH.
Qed.

(** One round of a loop over whole blocks. *)
Lemma full_block c m x :
  ctx_ok x -> (c + 16 <= length m)%nat ->
  exists m' x', step 16 c 0 m x = Ok (m', x') /\ ctx_ok (next_block x') /\ length m' = length m /\
    byte_loop step 16 (c, 0%nat, m, x) = Ok ((c + 16)%nat, 0%nat, m', next_block x').
Proof.
  intros Hx Hc. destruct (step_total 16 c 0 m x) as (m' & x' & E & Hx' & Hm'); [done|lia|lia|].
  exists m', x'. split_and!; [done|by apply next_block_ok|done|].
  rewrite byte_loop_step by (done || lia). by rewrite E.
Qed.

Lemma block_loop_bytes fuel len c m x :
  ctx_ok x -> (len <= length m)%nat -> (c <= len)%nat -> (len <= c + fuel)%nat ->
  exists c' m' x', block_loop step fuel len (c, 0%nat, m, x) = Ok (c', 0%nat, m', x') /\
    ctx_ok x' /\ length m' = length m /\ (c <= c' <= len)%nat /\ (len <= c' + 16)%nat /\
    byte_loop step (c' - c) (c, 0%nat, m, x) = Ok (c', 0%nat, m', x').
Proof.
  revert c m x. induction fuel as [|fuel IH]; intros c m x Hx Hm Hc Hf; cbn [block_loop].
  - rewrite (proj2 (Nat.ltb_ge _ _)) by lia.
    eexists _, _, _. split; [done|]. rewrite Nat.sub_diag. split_and!; done || lia.
  - destruct (Nat.ltb_spec (c + 16) len) as [Hlt|].
    2: { eexists _, _, _. split; [done|]. rewrite Nat.sub_diag. split_and!; done || lia. }
    destruct (full_block c m x) as (m1 & x1 & E & Hx1 & Hm1 & Eb); [done|lia|].
    assert (forall B (K : _ -> outcome B), (r ← step 4 c 0 m x; r ← step 4 (c + 4) 4 (fst r) (snd r);
              r ← step 4 (c + 8) 8 (fst r) (snd r); r ← step 4 (c + 12) 12 (fst r) (snd r); K r) =
              K (m1, x1)) as ->.
    { intros B K. revert E.
      rewrite (step_plus 4 12) by (done || lia).
      destruct (step_total 4 c 0 m x) as (m2 & x2 & -> & Hx2 & Hm2); [done|lia|lia|].
      rewrite !outcome_ret_bind. cbn [fst snd Nat.add].
      rewrite (step_plus 4 8) by (done || lia).
      destruct (step_total 4 (c + 4) 4 m2 x2) as (m3 & x3 & -> & Hx3 & Hm3); [done|lia|lia|].
      rewrite !outcome_ret_bind. cbn [fst snd Nat.add]. rewrite <- Nat.add_assoc. cbn [Nat.add].
      rewrite (step_plus 4 4) by (done || lia).
      destruct (step_total 4 (c + 8) 8 m3 x3) as (m4 & x4 & -> & Hx4 & Hm4); [done|lia|lia|].
      rewrite !outcome_ret_bind. cbn [fst snd Nat.add]. rewrite <- Nat.add_assoc. cbn [Nat.add].
      intros ->. done. }
    destruct (IH (c + 16)%nat m1 (next_block x1)) as (c' & m' & x' & E' & Hx' & Hm' & Hc' & Hl' & Eb');
      [done|lia..|].
    exists c', m', x'. cbn [fst snd]. split_and!; [done|done|lia..|].
    replace (c' - c)%nat with (16 + (c' - (c + 16)))%nat by lia.
    by rewrite byte_loop_plus, Eb, outcome_ret_bind.
Qed.

Lemma fill_loop_step fuel c b m x :
  ctx_ok x -> (fuel + b = 16)%nat -> (c + fuel <= length m)%nat ->
  fill_loop step fuel (c, b, m, x) =
    (r ← step fuel c b m x; Ok ((c + fuel)%nat, 16%nat, fst r, snd r)).
Proof.
  revert c b m x. induction fuel as [|fuel IH]; intros c b m x Hx Hb Hc; cbn [fill_loop].
  - assert (b = 16%nat) as -> by lia. rewrite (step_zero _ L) by lia.
    rewrite outcome_ret_bind, Nat.add_0_r. done.
  - rewrite (proj2 (Nat.ltb_lt b 16)), (step_split _ L fuel) by (done || lia).
    destruct (step_one _ L c b m x) as (m1 & x1 & -> & Hx1 & Hm1); [done|lia|lia|].
    rewrite !outcome_ret_bind. cbn [fst snd]. rewrite IH by (done || lia).
    by rewrite Nat.add_succ_r.
Qed.

Lemma byte_block_loop_bytes fuel len c m x :
  ctx_ok x -> (len <= length m)%nat -> (c <= len)%nat -> (len <= c + fuel)%nat ->
  exists c' m' x', byte_block_loop step fuel len (c, 0%nat, m, x) = Ok (c', 0%nat, m', x') /\
    (c <= c' <= len)%nat /\
    byte_loop step (c' - c) (c, 0%nat, m, x) = Ok (c', 0%nat, m', x').
Proof.
  revert c m x. induction fuel as [|fuel IH]; intros c m x Hx Hm Hc Hf; cbn [byte_block_loop].
  - rewrite (proj2 (Nat.ltb_ge _ _)) by lia.
    eexists _, _, _. split; [done|]. rewrite Nat.sub_diag. split_and!; done || lia.
  - destruct (Nat.ltb_spec (c + 16) len) as [Hlt|].
    2: { eexists _, _, _. split; [done|]. rewrite Nat.sub_diag. split_and!; done || lia. }
    destruct (full_block c m x) as (m1 & x1 & E & Hx1 & Hm1 & Eb); [done|lia|].
    rewrite fill_loop_step, E by (done || lia). rewrite !outcome_ret_bind. cbn [fst snd].
    destruct (IH (c + 16)%nat m1 (next_block x1)) as (c' & m' & x' & E' & Hc' & Eb'); [done|lia..|].
    exists c', m', x'. split_and!; [done|lia..|].
    replace (c' - c)%nat with (16 + (c' - (c + 16)))%nat by lia.
    by rewrite byte_loop_plus, Eb, outcome_ret_bind.
Qed.

(** The path for an aligned buffer: the context is aligned, so the first loop
    does nothing and the block position stays zero. *)
Lemma aligned_path_bytes addr len m x :
  addr mod 4 = 0 -> ctx_ok x -> (len <= length m)%nat ->
  exists c' m' x', aligned_path step addr len (0%nat, 0%nat, m, x) = Ok (c', 0%nat, m', x') /\
    ctx_ok x' /\ length m' = length m /\ (c' <= len)%nat /\
    byte_loop step c' (0%nat, 0%nat, m, x) = Ok (c', 0%nat, m', x').
Proof.
  intros Ha Hx Hm. unfold aligned_path. cbn [align_loop]. rewrite Z.add_0_r, Ha. cbn [Z.eqb negb andb].
  rewrite outcome_ret_bind. change (0 / 4)%nat with 0%nat. cbn [Nat.eqb]. rewrite outcome_ret_bind.
  destruct (block_loop_bytes len len 0 m x) as (c' & m' & x' & E & ? & ? & ? & ? & Eb); [done|lia..|].
  rewrite Nat.sub_0_r in Eb. exists c', m', x'. split_and!; done || lia.
Qed.
End steps.

Lemma same_alignment_mod addr blk_addr :
  blk_addr mod 4 = 0 -> same_alignment addr blk_addr = true -> addr mod 4 = 0.
Proof.
  intros Hb Hs. apply Z.eqb_eq in Hs. change 3 with (Z.ones 2) in Hs.
  rewrite Z.land_ones in Hs by lia. change (2 ^ 2) with 4 in Hs.
  Z.div_mod_to_equations. lia.
Qed.

(** ** Counter blocks *)

Lemma inc_bytes_be n pre v suf :
  inc_bytes n (length pre + n - 1) (pre ++ be_enc n v ++ suf) = pre ++ be_enc n (v + 1) ++ suf.
Proof.
  revert v suf. induction n as [|n IH]; intros v suf; [done|].
  cbn [inc_bytes be_enc]. replace (length pre + S n - 1)%nat with (length pre + n)%nat by lia.
  assert (forall z w : Z, pre ++ (be_enc n w ++ [z]) ++ suf = (pre ++ be_enc n w) ++ z :: suf) as Hap.
  { intros. by rewrite <- !app_assoc. }
  assert (forall w, length (pre ++ be_enc n w) = (length pre + n)%nat) as Hln.
  { intros. by rewrite length_app, be_enc_length. }
  assert (byte_at (pre ++ (be_enc n (v / 256) ++ [v mod 256]) ++ suf) (length pre + n) = v mod 256) as ->.
  { unfold byte_at. rewrite Hap, <- (Hln (v / 256)), list_lookup_middle; done. }
  assert (u8 (v mod 256 + 1) = (v + 1) mod 256) as Hu.
  { unfold wrap. change (2 ^ 8) with 256. by rewrite Zplus_mod_idemp_l. }
  assert (forall z, <[(length pre + n)%nat := z]> (pre ++ (be_enc n (v / 256) ++ [v mod 256]) ++ suf) =
            (pre ++ be_enc n (v / 256)) ++ z :: suf) as Hins.
  { intros z. rewrite Hap, insert_app_r_alt by (rewrite Hln; lia). by rewrite Hln, Nat.sub_diag. }
  rewrite Hu, Hins.
  pose proof (Z.div_mod v 256). pose proof (Z.mod_pos_bound v 256).
  assert ((v + 1) / 256 = if (v + 1) mod 256 =? 0 then v / 256 + 1 else v / 256) as Hd.
  { destruct (Z.eqb_spec ((v + 1) mod 256) 0); Z.div_mod_to_equations; lia. }
  rewrite Hap, Hd. destruct (Z.eqb_spec ((v + 1) mod 256) 0) as [->|].
  - by rewrite <- !app_assoc, IH.
  - done.
Qed.

Section counter.
Context (L : nat) (nonce : list Z) (HL : L = 2%nat \/ L = 3%nat \/ L = 4%nat).
Context (Hn : (13 <= length nonce)%nat).

Lemma A_block_length i : length (A_block L nonce i) = 16%nat.
Proof. unfold A_block. cbn. rewrite length_app, length_take, be_enc_length. lia. Qed.

Lemma inc_ctr_A i : inc_ctr (A_block L nonce i) = A_block L nonce (i + 1).
Proof.
  pose proof (inc_bytes_be L ((Z.of_nat L - 1) :: take (15 - L) nonce) i []) as Hi.
  rewrite !app_nil_r in Hi. unfold A_block. rewrite !app_comm_cons, <- Hi.
  cbn [length]. rewrite length_take, Nat.min_l by lia.
  destruct HL as [-> | [-> | ->]]; done.
Qed.

(** Any block with the right first byte and nonce takes the counter value. *)
Lemma set_ctr_block v (t : list Z) :
  length t = L ->
  set_ctr v ((Z.of_nat L - 1) :: take (15 - L) nonce ++ t) = A_block L nonce v.
Proof.
  intros Ht. unfold A_block, set_ctr, wrap. rewrite !Z.shiftr_div_pow2 by lia.
  set (q := take (15 - L) nonce).
  assert (length q = 15 - L)%nat as Hq by (unfold q; rewrite length_take; lia).
  clearbody q. clear Hn.
  destruct HL as [-> | [-> | ->]].
  1: destruct t as [|t1 [|t2 [|]]]; try done.
  2: destruct t as [|t1 [|t2 [|t3 [|]]]]; try done.
  3: destruct t as [|t1 [|t2 [|t3 [|t4 [|]]]]]; try done.
  all: repeat (destruct q as [|? q]; [done|]); destruct q; [|done].
  all: cbn [byte_at lookup list_lookup default from_option app insert list_insert Z.of_nat Z.eqb
            be_enc Z.sub Pos.of_succ_nat Pos.succ Z.add Z.opp Z.pos_sub Pos.pred_double Pos.eqb].
  all: rewrite ?Z.div_div by lia; change (2 ^ 0) with 1; rewrite Z.div_1_r; done.
Qed.
End counter.

(** ** The loops compute counter mode and the CBC-MAC *)

Section data.
Context (k : aes_ctx) (L : nat) (nonce : list Z) (af md : nat).
Context (HL : L = 2%nat \/ L = 3%nat \/ L = 4%nat) (Hn : (13 <= length nonce)%nat).
Let E := aes_encrypt k.

(** The context after [c] bytes. *)
Definition ctx_at (c : nat) (X : list Z) : CCM_ctx :=
  mkCtx (A_block L nonce (1 + Z.of_nat (c / 16))) X
        (S_block E L nonce (1 + Z.of_nat (c / 16))) af md 0 k.

Lemma S_block_length i : length (S_block E L nonce i) = 16%nat.
Proof. apply aes_encrypt_length, A_block_length; done. Qed.

Lemma next_block_at c X :
  ((S c) mod 16 = 0)%nat -> next_block (ctx_at c X) = ctx_at (S c) (E X).
Proof.
  intros Hc. unfold next_block, ctx_at, set_cbc, set_sii, set_blk.
  cbn [blk cbc sii aes af_len md_len cnt]. rewrite inc_ctr_A by done.
  replace (1 + Z.of_nat (S c / 16)) with (1 + Z.of_nat (c / 16) + 1); [done|].
  pose proof (Nat.div_mod (S c) 16); pose proof (Nat.div_mod c 16);
    pose proof (Nat.mod_upper_bound c 16); lia.
Qed.

Lemma ctx_at_same_block c X : ((S c) mod 16 <> 0)%nat -> ctx_at (S c) X = ctx_at c X.
Proof.
  intros Hc. unfold ctx_at.
  replace (S c / 16)%nat with (c / 16)%nat; [done|].
  pose proof (Nat.div_mod (S c) 16). pose proof (Nat.div_mod c 16).
  pose proof (Nat.mod_upper_bound (S c) 16). pose proof (Nat.mod_upper_bound c 16). lia.
Qed.

Definition xor_step (dec : bool) := if dec then dec_xor else enc_xor.

(** What enters the CBC-MAC: the plain text. *)
Definition plain (dec : bool) (c : nat) (l : list Z) : list Z :=
  if dec then ctr_from E L nonce c l else l.

Lemma xor_step_one dec c pre v post X :
  length pre = c -> length X = 16%nat ->
  let o := Z.lxor v (byte_at (S_block E L nonce (1 + Z.of_nat (c / 16))) (c mod 16)) in
  xor_step dec 1 c (c mod 16) (pre ++ v :: post) (ctx_at c X) =
    Ok (pre ++ o :: post,
        ctx_at c (alter (fun y => Z.lxor y (if dec then o else v)) (c mod 16)%nat X)).
Proof.
  intros Hc HX o. pose proof (Nat.mod_upper_bound c 16 ltac:(lia)) as Hb.
  assert ((pre ++ v :: post) !! c = Some v) as Hv by (rewrite <- Hc; by apply list_lookup_middle).
  assert (exists s, sii (ctx_at c X) !! (c mod 16)%nat = Some s) as [s Hs].
  { apply lookup_lt_is_Some_2. unfold ctx_at. cbn [sii]. by rewrite S_block_length. }
  assert (o = Z.lxor v s) as Ho. { unfold o, byte_at. unfold ctx_at in Hs. cbn [sii] in Hs. by rewrite Hs. }
  assert (forall w, <[c := w]> (pre ++ v :: post) = pre ++ w :: post) as Hins.
  { intros w. rewrite insert_app_r_alt by lia. by rewrite Hc, Nat.sub_diag. }
  destruct dec; unfold xor_step.
  - rewrite (dec_xor_one _ _ _ _ _ _ Hb Hv Hs), Hins, <- Ho. done.
  - rewrite (enc_xor_one _ _ _ _ _ _ Hb Hv Hs), Hins, <- Ho. done.
Qed.

Lemma byte_loop_data dec c pre l post X :
  length pre = c -> length X = 16%nat ->
  byte_loop (xor_step dec) (length l) (c, (c mod 16)%nat, pre ++ l ++ post, ctx_at c X) =
    Ok ((c + length l)%nat, ((c + length l) mod 16)%nat, pre ++ ctr_from E L nonce c l ++ post,
        ctx_at (c + length l) (snd (absorb E (c mod 16) X (plain dec c l)))).
Proof.
  revert c pre X. induction l as [|v l IH]; intros c pre X Hc HX.
  - cbn [length byte_loop]. rewrite Nat.add_0_r. by destruct dec.
  - cbn [length byte_loop]. change ((v :: l) ++ post) with (v :: (l ++ post)).
    rewrite xor_step_one by done. rewrite outcome_ret_bind. cbn [fst snd].
    rewrite ctr_from_cons.
    set (o := Z.lxor v (byte_at (S_block E L nonce (1 + Z.of_nat (c / 16))) (c mod 16))).
    assert (plain dec c (v :: l) = (if dec then o else v) :: plain dec (S c) l) as ->.
    { destruct dec; [|done]. cbn [plain]. by rewrite ctr_from_cons. }
    cbn [absorb]. set (X1 := alter _ _ X).
    assert (length X1 = 16%nat) as HX1 by (unfold X1; by rewrite length_alter).
    replace (c + S (length l))%nat with (S c + length l)%nat by lia.
    replace (pre ++ (o :: ctr_from E L nonce (S c) l) ++ post)
      with ((pre ++ [o]) ++ ctr_from E L nonce (S c) l ++ post) by (by rewrite <- app_assoc).
    replace (pre ++ o :: l ++ post) with ((pre ++ [o]) ++ l ++ post) by (by rewrite <- app_assoc).
    assert (length (pre ++ [o]) = S c) as Hc' by (rewrite length_app; cbn; lia).
    pose proof (Nat.mod_upper_bound c 16 ltac:(lia)) as Hb.
    assert ((S c) mod 16 = if (S (c mod 16) =? 16)%nat then 0 else S (c mod 16))%nat as Hm.
    { pose proof (Nat.div_mod c 16 ltac:(lia)).
      destruct (Nat.eqb_spec (S (c mod 16)) 16).
      - symmetry. apply (Nat.mod_unique _ _ (S (c / 16))); lia.
      - symmetry. apply (Nat.mod_unique _ _ (c / 16)); lia. }
    destruct (Nat.eqb_spec (S (c mod 16)) 16) as [E16|E16].
    + rewrite next_block_at by exact Hm.
      pose proof (IH (S c) (pre ++ [o]) (E X1) Hc' (aes_encrypt_length k X1 HX1)) as IH'.
      rewrite Hm in IH'. exact IH'.
    + pose proof (IH (S c) (pre ++ [o]) X1 Hc' HX1) as IH'.
      rewrite Hm, ctx_at_same_block in IH' by lia. exact IH'.
Qed.
End data.

(** ** [CCM_init] *)

Lemma land_mask_zero (a b n : Z) :
  0 <= a -> 0 <= b -> 0 <= n < 2 ^ (a + b) ->
  (Z.land n (Z.shiftl (Z.ones b) a) =? 0) = (n <? 2 ^ a).
Proof.
  intros Ha Hb Hn.
  assert (Z.land n (Z.shiftl (Z.ones b) a) = n / 2 ^ a * 2 ^ a) as ->.
  { rewrite <- Z.shiftl_mul_pow2, <- Z.shiftr_div_pow2 by lia.
    apply Z.bits_inj'. intros i Hi. rewrite Z.land_spec.
    destruct (Z.lt_ge_cases i a).
    - rewrite !Z.shiftl_spec_low by lia. apply andb_false_r.
    - rewrite !Z.shiftl_spec, Z.shiftr_spec, Z.sub_add by lia.
      destruct (Z.lt_ge_cases (i - a) b).
      + rewrite Z.ones_spec_low by lia. apply andb_true_r.
      + rewrite Z.ones_spec_high, andb_false_r by lia. symmetry.
        rewrite <- (Z.mod_small n (2 ^ (a + b))) by lia. apply Z.mod_pow2_bits_high. lia. }
  destruct (Z.ltb_spec n (2 ^ a)).
  - rewrite Z.div_small by lia. done.
  - apply Z.eqb_neq. assert (0 < n / 2 ^ a) by (apply Z.div_str_pos; lia). nia.
Qed.

Lemma length_code_spec n :
  Z.of_nat n < 2 ^ 32 -> length_code (Z.of_nat n) = Z.of_nat (field_length n) - 1.
Proof.
  intros Hn. unfold length_code, field_length.
  change 0xff000000 with (Z.shiftl (Z.ones 8) 24). change 0xffff0000 with (Z.shiftl (Z.ones 16) 16).
  rewrite (land_mask_zero 24 8), (land_mask_zero 16 16) by lia.
  destruct (Z.ltb_spec (Z.of_nat n) (2 ^ 24)), (Z.ltb_spec (Z.of_nat n) (2 ^ 16)); cbn; lia.
Qed.

(** The flags of [B_0]: the parts do not overlap. *)
Lemma flags_sum (L M : nat) (adata : bool) :
  L = 2%nat \/ L = 3%nat \/ L = 4%nat -> (2 <= M <= 16)%nat -> Nat.odd M = false ->
  Z.lor (Z.of_nat L - 1) ((if adata then 0x40 else 0) + Z.shiftl (Z.of_nat M - 2) 2) =
    (if adata then 64 else 0) + 8 * ((Z.of_nat M - 2) / 2) + (Z.of_nat L - 1).
Proof.
  intros HL HM Ho.
  assert (M ∈ seq 2 15) as Hin by (apply elem_of_seq; lia).
  destruct HL as [-> | [-> | ->]]; destruct adata; cbn in Hin; set_unfold in Hin;
    repeat (destruct Hin as [->|Hin]; [done|]); done.
Qed.

Lemma zip_xor_zero n l : (length l <= n)%nat -> zip_with Z.lxor (replicate n 0) l = l.
Proof.
  revert l. induction n as [|n IH]; intros [|v l] Hl; cbn in *; try done; [lia|].
  by rewrite Z.lxor_0_l, IH by lia.
Qed.

Lemma auth_loop_absorb c auth (k : aes_ctx) X :
  auth <> [] ->
  auth_loop c auth k X =
    flush (aes_encrypt k) (absorb (aes_encrypt k) ((c + 2) mod 16) X auth).
Proof.
  revert c X. induction auth as [|a auth IH]; intros c X Hne; [done|]. clear Hne.
  cbn [auth_loop absorb]. rewrite xor_at_one. set (X1 := alter _ _ X).
  pose proof (Nat.mod_upper_bound (c + 2) 16 ltac:(lia)) as Hb.
  assert ((S c + 2) mod 16 = if (S ((c + 2) mod 16) =? 16)%nat then 0 else S ((c + 2) mod 16))%nat as Hm.
  { pose proof (Nat.div_mod (c + 2) 16 ltac:(lia)).
    destruct (Nat.eqb_spec (S ((c + 2) mod 16)) 16).
    - symmetry. apply (Nat.mod_unique _ _ (S ((c + 2) / 16))); lia.
    - symmetry. apply (Nat.mod_unique _ _ ((c + 2) / 16)); lia. }
  destruct (decide (auth = [])) as [->|Hne].
  - rewrite bool_decide_true, orb_true_r by done. cbn [auth_loop absorb].
    by destruct (S ((c + 2) mod 16) =? 16)%nat.
  - rewrite bool_decide_false, orb_false_r, IH, Hm by done.
    by destruct (Nat.eqb_spec (S ((c + 2) mod 16)) 16).
Qed.

Lemma auth_part (k : aes_ctx) auth X :
  length X = 16%nat ->
  (if (0 <? length auth)%nat
   then auth_loop 0 auth k (xor_at 0 [u8 (Z.shiftr (Z.of_nat (length auth)) 8); u8 (Z.of_nat (length auth))] X)
   else X) = cbc_mac (aes_encrypt k) X (blocks (auth_string auth)).
Proof.
  intros HX. destruct auth as [|a auth]; [done|].
  change (0 <? length (a :: auth))%nat with true. cbn iota.
  rewrite auth_loop_absorb by done. change ((0 + 2) mod 16)%nat with 2%nat.
  unfold auth_string. rewrite <- absorb_blocks by (apply aes_encrypt_length || done).
  rewrite absorb_app, (absorb_short _ 0) by (rewrite be_enc_length; lia).
  cbn [fst snd]. rewrite be_enc_length. do 3 f_equal.
  cbn [be_enc app]. unfold wrap. rewrite Z.shiftr_div_pow2 by lia. done.
Qed.

Lemma cbc_mac_app (E : list Z -> list Z) X l1 l2 :
  cbc_mac E X (l1 ++ l2) = cbc_mac E (cbc_mac E X l1) l2.
Proof. apply foldl_app. Qed.

(** Parameters [CCM_init] accepts, a nonce that is long enough, a context
    aligned to a word. *)
Record ccm_params (key_len : nat) (nonce auth : list Z) (M : nat) (blk0 : list Z) (blk_addr : Z) : Prop := {
  cp_key : (key_len = 16 \/ key_len = 24 \/ key_len = 32)%nat;
  cp_field : (2 <= M <= 16)%nat /\ Nat.odd M = false;
  cp_auth : Z.of_nat (length auth) < 65536 - 256;
  cp_nonce : (13 <= length nonce)%nat;
  cp_blk : length blk0 = 16%nat;
  cp_align : blk_addr mod 4 = 0;
}.

Section mode.
Context (key : list Z) (key_len : nat) (nonce auth : list Z) (M : nat) (blk0 : list Z) (blk_addr : Z).
Context (HP : ccm_params key_len nonce auth M blk0 blk_addr).
Let k := aes_encrypt_key key key_len.
Let E := aes_encrypt k.

Lemma put_nonce_block n L :
  L = field_length n -> Z.of_nat n < 2 ^ 32 ->
  exists t, length t = L /\
    put_nonce nonce (<[0%nat := length_code (Z.of_nat n)]> blk0) =
      (Z.of_nat L - 1) :: take (15 - L) nonce ++ t.
Proof.
  intros -> Hn. rewrite length_code_spec by done. pose proof (cp_blk _ _ _ _ _ _ HP) as Hb.
  pose proof (cp_nonce _ _ _ _ _ _ HP) as Hno. pose proof (field_length_cases n) as HL.
  set (L := field_length n) in *. clearbody L. destruct blk0 as [|b0 bs]; [done|].
  unfold put_nonce, splice, nonce_length, byte_at. cbn [insert list_insert lookup list_lookup default from_option].
  change (id (Z.of_nat L - 1)) with (Z.of_nat L - 1).
  replace (Z.to_nat (16 - (Z.of_nat L - 1) - 2)) with (15 - L)%nat by lia.
  exists (drop (length (take (15 - L) nonce)) bs). split; [|done].
  cbn [length] in Hb. rewrite length_drop, length_take. lia.
Qed.

Definition init_cbc (n : nat) : list Z :=
  cbc_mac E (replicate 16 0)
    (B_0 (field_length n) nonce n M (negb (bool_decide (auth = []))) :: blocks (auth_string auth)).

Lemma CCM_init_ok n :
  Z.of_nat n < 2 ^ 32 ->
  CCM_init key key_len nonce auth n M blk0 = inr (ctx_at k (field_length n) nonce M n 0 (init_cbc n)).
Proof.
  intros Hn. destruct HP as [Hk [HM Ho] Ha Hno Hb _]. unfold CCM_init.
  assert (negb ((key_len =? 16) || (key_len =? 24) || (key_len =? 32))%nat = false) as ->
    by (destruct Hk as [-> | [-> | ->]]; done).
  rewrite (proj2 (Nat.ltb_ge M 2)), (proj2 (Nat.ltb_ge 16 M)), Ho by lia. cbn [orb].
  rewrite (proj2 (Z.leb_gt (65536 - 256) _)) by lia.
  destruct (put_nonce_block n _ eq_refl Hn) as (t & Ht & ->).
  pose proof (field_length_cases n) as HL. set (L := field_length n) in *.
  rewrite set_ctr_block by done.
  assert (set_ctr 1 (A_block L nonce (Z.of_nat n)) = A_block L nonce 1) as ->.
  { unfold A_block at 1. by rewrite set_ctr_block by (done || apply be_enc_length). }
  f_equal. unfold ctx_at. f_equal. fold k. rewrite auth_part.
  2: { apply aes_encrypt_length. rewrite length_insert. by apply A_block_length. }
  unfold init_cbc. change (?a :: ?l) with ([a] ++ l). rewrite cbc_mac_app. f_equal.
  unfold cbc_mac. cbn [foldl]. fold E. rewrite zip_xor_zero.
  2: { unfold B_0. cbn [length]. rewrite length_app, length_take, be_enc_length. lia. }
  f_equal. unfold A_block, B_0. cbn [insert list_insert byte_at lookup list_lookup default from_option].
  f_equal. change (id ?z) with z. rewrite <- flags_sum by done. by destruct auth.
Qed.

Lemma B_0_length n n1 adata : length (B_0 (field_length n) nonce n1 M adata) = 16%nat.
Proof.
  pose proof (field_length_cases n). pose proof (cp_nonce _ _ _ _ _ _ HP).
  unfold B_0. cbn [length]. rewrite length_app, length_take, be_enc_length. lia.
Qed.

Lemma init_cbc_length n : length (init_cbc n) = 16%nat.
Proof.
  apply cbc_mac_length; [apply aes_encrypt_length|done|].
  apply Forall_cons_2; [apply B_0_length|apply blocks_length].
Qed.

(** The choice of the path does not matter. *)
Lemma enc_paths {B} addr len m x (K : lstate -> outcome B) :
  ctx_ok x -> (len <= length m)%nat ->
  (s ← (if same_alignment addr blk_addr then aligned_path enc_xor addr len (0%nat, 0%nat, m, x)
        else Ok (0%nat, 0%nat, m, x));
   s ← byte_block_loop enc_xor len len s;
   let '(c, _, _, _) := s : lstate in
   s ← byte_loop enc_xor (len - c) s; K s) = (s ← byte_loop enc_xor len (0%nat, 0%nat, m, x); K s).
Proof.
  intros Hx Hm.
  assert (exists c' m' x', (if same_alignment addr blk_addr
            then aligned_path enc_xor addr len (0%nat, 0%nat, m, x) else Ok (0%nat, 0%nat, m, x)) =
            Ok (c', 0%nat, m', x') /\ ctx_ok x' /\ length m' = length m /\ (c' <= len)%nat /\
            byte_loop enc_xor c' (0%nat, 0%nat, m, x) = Ok (c', 0%nat, m', x'))
    as (c1 & m1 & x1 & -> & Hx1 & Hm1 & Hc1 & E1).
  { destruct (same_alignment addr blk_addr) eqn:Ha.
    - apply (aligned_path_bytes _ enc_laws); [|done..].
      by apply (same_alignment_mod addr blk_addr), Ha; apply (cp_align _ _ _ _ _ _ HP).
    - exists 0%nat, m, x. split_and!; done || lia. }
  rewrite outcome_ret_bind.
  destruct (byte_block_loop_bytes _ enc_laws len len c1 m1 x1) as (c2 & m2 & x2 & -> & Hc2 & E2);
    [done|lia..|].
  rewrite outcome_ret_bind. replace len with (c1 + ((c2 - c1) + (len - c2)))%nat at 2 by lia.
  by rewrite !byte_loop_plus, E1, outcome_ret_bind, byte_loop_plus, E2, outcome_ret_bind.
Qed.

Lemma dec_paths {B} addr len m x (K : lstate -> outcome B) :
  ctx_ok x -> (len <= length m)%nat ->
  (s ← (if same_alignment addr blk_addr then aligned_path dec_xor addr len (0%nat, 0%nat, m, x)
        else Ok (0%nat, 0%nat, m, x));
   let '(c, _, _, _) := s : lstate in
   s ← byte_loop dec_xor (len - c) s; K s) = (s ← byte_loop dec_xor len (0%nat, 0%nat, m, x); K s).
Proof.
  intros Hx Hm. destruct (same_alignment addr blk_addr) eqn:Ha.
  - destruct (aligned_path_bytes _ dec_laws addr len m x) as (c & m1 & x1 & -> & Hx1 & Hm1 & Hc & E1);
      [|done..|].
    { by apply (same_alignment_mod addr blk_addr), Ha; apply (cp_align _ _ _ _ _ _ HP). }
    rewrite outcome_ret_bind. replace len with (c + (len - c))%nat at 2 by lia.
    by rewrite byte_loop_plus, E1.
  - by rewrite outcome_ret_bind, Nat.sub_0_r.
Qed.

(** The end of the message: the authentication value. *)
Lemma final_tag n m :
  n = length m -> Z.of_nat n < 2 ^ 32 ->
  let L := field_length n in
  let x := ctx_at k L nonce M n n (snd (absorb E 0 (init_cbc n) m)) in
  auth_value (final_block (n mod 16) (set_cnt (cnt x + n) x)) = tag E L nonce M auth m.
Proof.
  intros -> Hn L x. pose proof (cp_nonce _ _ _ _ _ _ HP) as Hno.
  assert (mac E L nonce M auth m = if (length m mod 16 =? 0)%nat then cbc x else E (cbc x)) as HT.
  { unfold mac. change (?a :: ?l1 ++ ?l2) with ((a :: l1) ++ l2). rewrite cbc_mac_app.
    change (cbc_mac E _ (_ :: _)) with (init_cbc (length m)).
    rewrite <- absorb_blocks by (apply aes_encrypt_length || apply init_cbc_length).
    unfold flush. by rewrite absorb_pos by lia. }
  assert (S_block E L nonce 0 = E (set_ctr 0 (blk x))) as HS.
  { unfold S_block. f_equal. symmetry.
    apply set_ctr_block; [apply field_length_cases|done|apply be_enc_length]. }
  unfold tag. rewrite HT, HS. unfold auth_value, final_block.
  by destruct (length m mod 16 =? 0)%nat.
Qed.

Lemma ctx_at_ok n c X : length X = 16%nat -> ctx_ok (ctx_at k (field_length n) nonce M n c X).
Proof.
  intros HX. pose proof (cp_nonce _ _ _ _ _ _ HP). unfold ctx_ok, ctx_at. cbn [blk cbc sii].
  pose proof (field_length_cases n).
  split_and!; [by apply A_block_length|done|by apply S_block_length].
Qed.

Lemma tag_length n m : length (tag E (field_length n) nonce M auth m) = M.
Proof.
  pose proof (cp_nonce _ _ _ _ _ _ HP). destruct (cp_field _ _ _ _ _ _ HP).
  unfold tag. rewrite length_take, length_zip_with.
  rewrite (S_block_length k) by (done || apply field_length_cases).
  assert (length (mac E (field_length n) nonce M auth m) = 16%nat); [|lia].
  apply cbc_mac_length; [apply aes_encrypt_length|done|].
  apply Forall_cons_2; [apply B_0_length|apply Forall_app_2; apply blocks_length].
Qed.

Lemma encrypt_result addr m rest :
  Z.of_nat (length m) < 2 ^ 32 -> (M <= length rest)%nat ->
  let L := field_length (length m) in
  CCM_mode addr blk_addr blk0 key key_len nonce auth (m ++ rest) (length m) M false =
    Ok (Z.of_nat (length m + M), ctr E L nonce m ++ tag E L nonce M auth m ++ drop M rest).
Proof.
  intros Hn Hr L. pose proof (field_length_cases (length m)) as HL.
  pose proof (cp_nonce _ _ _ _ _ _ HP) as Hno.
  unfold CCM_mode. rewrite CCM_init_ok by done. fold L. unfold CCM_encrypt.
  change (cnt (ctx_at k L nonce M (length m) 0 (init_cbc (length m)))) with 0%nat.
  change (md_len (ctx_at k L nonce M (length m) 0 (init_cbc (length m)))) with (length m).
  rewrite (proj2 (Nat.ltb_ge (length m) _)) by lia.
  change (start_pos _) with 0%nat.
  rewrite enc_paths by (rewrite ?length_app; try apply ctx_at_ok; try apply init_cbc_length; lia).
  pose proof (byte_loop_data k L nonce M (length m) HL Hno false 0 [] m rest (init_cbc (length m)) eq_refl
                (init_cbc_length _)) as Hd.
  cbn [app xor_step Nat.add plain] in Hd. change (0 mod 16)%nat with 0%nat in Hd. fold E in Hd.
  rewrite Hd, outcome_ret_bind. clear Hd.
  set (x := ctx_at k L nonce M (length m) (length m) _).
  change (cnt (set_cnt (cnt x + length m) x)) with (length m).
  change (md_len (set_cnt (cnt x + length m) x)) with (length m). rewrite Nat.eqb_refl.
  assert (af_len (final_block (length m mod 16) (set_cnt (cnt x + length m) x)) = M) as ->
    by (unfold final_block; by destruct (_ =? _)%nat).
  rewrite length_app, ctr_from_length, (proj2 (Nat.leb_le _ _)) by lia.
  pose proof (final_tag (length m) m eq_refl Hn) as Ht. cbv zeta in Ht. fold L in Ht. fold x in Ht.
  rewrite outcome_ret_bind. cbn [fst]. rewrite Ht. do 2 f_equal.
  pose proof (tag_length (length m) m) as Htl. fold L in Htl.
  unfold splice. rewrite Htl.
  rewrite take_app_length' by (symmetry; apply ctr_from_length). do 2 f_equal.
  rewrite drop_app_ge, ctr_from_length by (rewrite ctr_from_length; lia). f_equal. lia.
Qed.

Lemma decrypt_result addr d t rest :
  Z.of_nat (length d) < 2 ^ 32 -> length t = M ->
  let L := field_length (length d) in
  let p := ctr E L nonce d in
  CCM_mode addr blk_addr blk0 key key_len nonce auth (d ++ t ++ rest) (length d) M true =
    Ok (if bool_decide (t = tag E L nonce M auth p) then (Z.of_nat (length d), p ++ t ++ rest)
        else (CCM_auth_failure, replicate (length d + M) 0 ++ rest)).
Proof.
  intros Hn Ht L p. pose proof (field_length_cases (length d)) as HL.
  pose proof (cp_nonce _ _ _ _ _ _ HP) as Hno. destruct (cp_field _ _ _ _ _ _ HP) as [HM _].
  unfold CCM_mode. rewrite CCM_init_ok by done. fold L. unfold CCM_decrypt.
  change (cnt (ctx_at k L nonce M (length d) 0 (init_cbc (length d)))) with 0%nat.
  change (md_len (ctx_at k L nonce M (length d) 0 (init_cbc (length d)))) with (length d).
  change (af_len (ctx_at k L nonce M (length d) 0 (init_cbc (length d)))) with M.
  rewrite (proj2 (Nat.ltb_lt (length d) _)) by lia. rewrite Nat.eqb_refl. cbn [negb andb].
  rewrite Nat.sub_0_r. change (start_pos _) with 0%nat.
  rewrite dec_paths by (rewrite ?length_app; try apply ctx_at_ok; try apply init_cbc_length; lia).
  pose proof (byte_loop_data k L nonce M (length d) HL Hno true 0 [] d (t ++ rest) (init_cbc (length d))
                eq_refl (init_cbc_length _)) as Hd.
  cbn [app xor_step Nat.add plain] in Hd. change (0 mod 16)%nat with 0%nat in Hd. fold E in Hd.
  fold (ctr E L nonce) in Hd. fold p in Hd. rewrite Hd, outcome_ret_bind. clear Hd.
  set (x := ctx_at k L nonce M (length d) (length d) _).
  change (cnt (set_cnt (cnt x + length d) x)) with (length d).
  change (md_len (set_cnt (cnt x + length d) x)) with (length d). rewrite Nat.eqb_refl.
  assert (af_len (final_block (length d mod 16) (set_cnt (cnt x + length d) x)) = M) as ->
    by (unfold final_block; by destruct (_ =? _)%nat).
  assert (length p = length d) as Hp by apply ctr_from_length.
  rewrite !length_app, (proj2 (Nat.leb_le _ _)) by lia.
  pose proof (final_tag (length d) p (eq_sym Hp) Hn) as Hg. cbv zeta in Hg. fold L in Hg. fold x in Hg.
  rewrite Hg. unfold slice. rewrite drop_app_length', take_app_length' by done.
  case_bool_decide as Heq; rewrite outcome_ret_bind; cbn [fst]; [done|]. do 2 f_equal.
  unfold splice. rewrite take_0, length_replicate. cbn [app Nat.add]. f_equal.
  rewrite app_assoc, drop_app_length'; [done|]. rewrite length_app. lia.
Qed.
End mode.
End ccm.

(** ** The properties *)

(** A block function for the witnesses. *)
Definition toy_aes : AES.
Proof.
  refine {| aes_ctx := list Z; aes_encrypt_key key n := take n key;
            aes_encrypt k b := imap (fun i v => (5 * v + Z.of_nat i + byte_at k i) mod 256) (reverse b) |}.
  intros k b Hb. by rewrite length_imap, length_reverse.
Defined.

(** [CCM_mode] is RFC 3610.  Encryption of the message [m] in a buffer with
    room for the authentication field leaves the message under the key stream,
    followed by the authentication value, and returns the number of bytes
    written.  Decryption of [d] and [t] returns the plain text if [t] is the
    authentication value of that plain text; otherwise it returns
    [CCM_auth_failure] and clears message and field.  This holds for every
    address of the buffer, so for the word loops and the byte loops. *)
Theorem ccm_mode_rfc3610 `{AES} key key_len nonce auth M blk0 blk_addr addr :
  ccm_params key_len nonce auth M blk0 blk_addr ->
  let E := aes_encrypt (aes_encrypt_key key key_len) in
  (forall m rest, Z.of_nat (length m) < 2 ^ 32 -> (M <= length rest)%nat ->
     let L := field_length (length m) in
     CCM_mode addr blk_addr blk0 key key_len nonce auth (m ++ rest) (length m) M false =
       Ok (Z.of_nat (length m + M), ctr E L nonce m ++ tag E L nonce M auth m ++ drop M rest)) /\
  (forall d t rest, Z.of_nat (length d) < 2 ^ 32 -> length t = M ->
     let L := field_length (length d) in
     let p := ctr E L nonce d in
     CCM_mode addr blk_addr blk0 key key_len nonce auth (d ++ t ++ rest) (length d) M true =
       Ok (if bool_decide (t = tag E L nonce M auth p) then (Z.of_nat (length d), p ++ t ++ rest)
           else (CCM_auth_failure, replicate (length d + M) 0 ++ rest))).
Proof.
  intros HP E. split; intros.
  - by apply encrypt_result.
  - by apply decrypt_result.
Qed.

Definition ex_nonce : list Z := [1;2;3;4;5;6;7;8;9;10;11;12;13].
Definition ex_msg : list Z := [104;101;108;108;111;32;109;101;115;104;32;110;101;116;119;111;114;107;33].

Lemma ex_params (blk_addr : Z) : blk_addr mod 4 = 0 -> ccm_params 16 ex_nonce [7; 8; 9] 4 (replicate 16 0) blk_addr.
Proof. intros Ha. split; cbn; auto; lia || done. Defined.

(** A forged field is refused, with the buffer cleared. *)
Lemma ccm_mode_rfc3610_witness :
  @CCM_mode toy_aes 3 8 (replicate 16 0) (replicate 16 42) 16 ex_nonce [7; 8; 9]
    (ex_msg ++ [0; 0; 0; 0]) 19 4 true = Ok (CCM_auth_failure, replicate 23 0).
Proof.
  etransitivity;
    [refine (proj2 (@ccm_mode_rfc3610 toy_aes (replicate 16 42) 16 ex_nonce [7; 8; 9] 4 (replicate 16 0) 8 3
               (ex_params 8 eq_refl)) ex_msg [0; 0; 0; 0] [] _ _); reflexivity|].
  vm_compute. reflexivity.
Defined.

(** Decryption undoes encryption: for the same key, nonce and additional
    data, [CCM_mode] with the flag for decryption accepts what [CCM_mode]
    produced, returns the length of the message and restores the message.  The
    two buffers and contexts may have different addresses. *)
Theorem ccm_roundtrip `{AES} key key_len nonce auth M blk0 blk_addr addr blk0' blk_addr' addr' m rest buf r :
  ccm_params key_len nonce auth M blk0 blk_addr ->
  ccm_params key_len nonce auth M blk0' blk_addr' ->
  Z.of_nat (length m) < 2 ^ 32 -> (M <= length rest)%nat ->
  CCM_mode addr blk_addr blk0 key key_len nonce auth (m ++ rest) (length m) M false = Ok (r, buf) ->
  exists t, r = Z.of_nat (length m + M) /\ length t = M /\
    CCM_mode addr' blk_addr' blk0' key key_len nonce auth buf (length m) M true =
      Ok (Z.of_nat (length m), m ++ t ++ drop M rest).
Proof.
  intros HP HP' Hn Hr. rewrite (encrypt_result _ _ _ _ _ _ _ HP) by done. intros [= <- <-].
  set (E := aes_encrypt _). set (L := field_length _).
  assert (length (ctr E L nonce m) = length m) as Hc by apply ctr_from_length.
  exists (tag E L nonce M auth m).
  assert (length (tag E L nonce M auth m) = M) as Ht by (eapply tag_length; exact HP).
  split_and!; [done..|]. rewrite <- Hc.
  rewrite (decrypt_result _ _ _ _ _ _ _ HP') by (rewrite ?Hc; done).
  rewrite Hc. fold E. fold L.
  assert (ctr E L nonce (ctr E L nonce m) = m) as -> by apply ctr_from_involutive.
  by rewrite bool_decide_true.
Qed.

Lemma ccm_roundtrip_witness : exists buf t,
  @CCM_mode toy_aes 4 8 (replicate 16 0) (replicate 16 42) 16 ex_nonce [7; 8; 9]
    (ex_msg ++ replicate 4 0) 19 4 false = Ok (23, buf) /\
  @CCM_mode toy_aes 3 12 (replicate 16 0) (replicate 16 42) 16 ex_nonce [7; 8; 9] buf 19 4 true =
    Ok (19, ex_msg ++ t ++ []).
Proof.
  destruct (@CCM_mode toy_aes 4 8 (replicate 16 0) (replicate 16 42) 16 ex_nonce [7; 8; 9]
    (ex_msg ++ replicate 4 0) 19 4 false) as [[r buf]|] eqn:E; [|vm_compute in E; discriminate E].
  destruct (@ccm_roundtrip toy_aes (replicate 16 42) 16 ex_nonce [7; 8; 9] 4 (replicate 16 0) 8 4
              (replicate 16 0) 12 3 ex_msg (replicate 4 0) buf r (ex_params 8 eq_refl) (ex_params 12 eq_refl))
    as (t & Hr & _ & Hd); [reflexivity|cbn; lia|exact E|].
  subst r. exists buf, t. split; [reflexivity|exact Hd].
Defined.

(** The block position of a second call: [CCM_encrypt] takes
    [ctx->cnt & AES_BLOCK_SIZE], which is 16 and not 0 after a call that encrypted
    exactly one block; on the byte path the next byte is then written behind
    [ctx->cbc]. *)
Theorem second_call_out_of_bounds `{AES} addr blk_addr v rest x :
  cnt x = 16%nat -> (17 <= md_len x)%nat -> same_alignment addr blk_addr = false ->
  CCM_encrypt addr blk_addr (v :: rest) 1 x = Fail OutOfBounds.
Proof.
  intros Hc Hm Ha. unfold CCM_encrypt. rewrite Ha, Hc, (proj2 (Nat.ltb_ge _ _)) by lia.
  assert (start_pos x = 16%nat) as -> by (unfold start_pos; by rewrite Hc). done.
Qed.

Lemma second_call_out_of_bounds_witness : exists x,
  match @CCM_init toy_aes (replicate 16 42) 16 ex_nonce [] 17 4 (replicate 16 0) with
  | inl _ => None
  | inr x0 => match CCM_encrypt 1 0 (replicate 16 7) 16 x0 with
              | Ok (_, _, x1) => Some x1
              | Fail _ => None
              end
  end = Some x /\ CCM_encrypt 1 0 [5] 1 x = Fail OutOfBounds.
Proof.
  eexists. split; [vm_compute; reflexivity|].
  apply (@second_call_out_of_bounds toy_aes); [reflexivity|vm_compute; lia|reflexivity].
Defined.
