(* ===== verification/Aes.v ===== *)
(** * Aes: the block cipher of the crypto module

    [crypto/gladman/aes.h], [aesopt.h], [aeskey.c] and [aescrypt.c] in the
    configuration they are compiled in: fixed tables ([FIXED_TABLES], so [gen_tabs]
    is empty), four tables for every round and for the key schedule, full
    unrolling, byte access to blocks ([SAFE_IO]), and no decryption
    ([AES_DECRYPT] is not defined; CCM does not need it).

    A word is an integer of 32 bits.  The byte order of the words follows the
    machine ([PLATFORM_BYTE_ORDER]); everything is defined for both orders.
    [byte_at] reads a cell of an array, of bytes or of words. *)

From S2P Require Import Prelude.

Module Gladman.

Definition N_COLS : nat := 4.
Definition KS_LENGTH : nat := 64.
Definition WPOLY : Z := 0x011b.

Inductive order := AES_LITTLE_ENDIAN | AES_BIG_ENDIAN.

Record aes_encrypt_ctx := mkCtx { k_sch : list Z; n_rnd : Z }.

(** ** Tables *)

Definition sb_data : list Z :=
  [0x63; 0x7c; 0x77; 0x7b; 0xf2; 0x6b; 0x6f; 0xc5; 0x30; 0x01; 0x67; 0x2b; 0xfe; 0xd7; 0xab; 0x76;
   0xca; 0x82; 0xc9; 0x7d; 0xfa; 0x59; 0x47; 0xf0; 0xad; 0xd4; 0xa2; 0xaf; 0x9c; 0xa4; 0x72; 0xc0;
   0xb7; 0xfd; 0x93; 0x26; 0x36; 0x3f; 0xf7; 0xcc; 0x34; 0xa5; 0xe5; 0xf1; 0x71; 0xd8; 0x31; 0x15;
   0x04; 0xc7; 0x23; 0xc3; 0x18; 0x96; 0x05; 0x9a; 0x07; 0x12; 0x80; 0xe2; 0xeb; 0x27; 0xb2; 0x75;
   0x09; 0x83; 0x2c; 0x1a; 0x1b; 0x6e; 0x5a; 0xa0; 0x52; 0x3b; 0xd6; 0xb3; 0x29; 0xe3; 0x2f; 0x84;
   0x53; 0xd1; 0x00; 0xed; 0x20; 0xfc; 0xb1; 0x5b; 0x6a; 0xcb; 0xbe; 0x39; 0x4a; 0x4c; 0x58; 0xcf;
   0xd0; 0xef; 0xaa; 0xfb; 0x43; 0x4d; 0x33; 0x85; 0x45; 0xf9; 0x02; 0x7f; 0x50; 0x3c; 0x9f; 0xa8;
   0x51; 0xa3; 0x40; 0x8f; 0x92; 0x9d; 0x38; 0xf5; 0xbc; 0xb6; 0xda; 0x21; 0x10; 0xff; 0xf3; 0xd2;
   0xcd; 0x0c; 0x13; 0xec; 0x5f; 0x97; 0x44; 0x17; 0xc4; 0xa7; 0x7e; 0x3d; 0x64; 0x5d; 0x19; 0x73;
   0x60; 0x81; 0x4f; 0xdc; 0x22; 0x2a; 0x90; 0x88; 0x46; 0xee; 0xb8; 0x14; 0xde; 0x5e; 0x0b; 0xdb;
   0xe0; 0x32; 0x3a; 0x0a; 0x49; 0x06; 0x24; 0x5c; 0xc2; 0xd3; 0xac; 0x62; 0x91; 0x95; 0xe4; 0x79;
   0xe7; 0xc8; 0x37; 0x6d; 0x8d; 0xd5; 0x4e; 0xa9; 0x6c; 0x56; 0xf4; 0xea; 0x65; 0x7a; 0xae; 0x08;
   0xba; 0x78; 0x25; 0x2e; 0x1c; 0xa6; 0xb4; 0xc6; 0xe8; 0xdd; 0x74; 0x1f; 0x4b; 0xbd; 0x8b; 0x8a;
   0x70; 0x3e; 0xb5; 0x66; 0x48; 0x03; 0xf6; 0x0e; 0x61; 0x35; 0x57; 0xb9; 0x86; 0xc1; 0x1d; 0x9e;
   0xe1; 0xf8; 0x98; 0x11; 0x69; 0xd9; 0x8e; 0x94; 0x9b; 0x1e; 0x87; 0xe9; 0xce; 0x55; 0x28; 0xdf;
   0x8c; 0xa1; 0x89; 0x0d; 0xbf; 0xe6; 0x42; 0x68; 0x41; 0x99; 0x2d; 0x0f; 0xb0; 0x54; 0xbb; 0x16].

(** [x] times [{02}] and [{03}] *)
Definition f2 (x : Z) : Z := Z.lxor (Z.shiftl x 1) (Z.land (Z.shiftr x 7) 1 * WPOLY).
Definition f3 (x : Z) : Z := Z.lxor (f2 x) x.

Section words.
Context (o : order).

Definition bytes2word (b0 b1 b2 b3 : Z) : Z :=
  match o with
  | AES_LITTLE_ENDIAN => Z.lor (Z.lor (Z.lor (u32 (Z.shiftl b3 24)) (u32 (Z.shiftl b2 16))) (u32 (Z.shiftl b1 8))) b0
  | AES_BIG_ENDIAN => Z.lor (Z.lor (Z.lor (u32 (Z.shiftl b0 24)) (u32 (Z.shiftl b1 16))) (u32 (Z.shiftl b2 8))) b3
  end.
Definition bval (x : Z) (n : nat) : Z :=
  match o with
  | AES_LITTLE_ENDIAN => u8 (Z.shiftr x (8 * Z.of_nat n))
  | AES_BIG_ENDIAN => u8 (Z.shiftr x (24 - 8 * Z.of_nat n))
  end.

(** [word_in] and [word_out] with [SAFE_IO] *)
Definition word_in (x : list Z) (c : nat) : Z :=
  bytes2word (byte_at x (4 * c)) (byte_at x (4 * c + 1)) (byte_at x (4 * c + 2)) (byte_at x (4 * c + 3)).
Definition word_out (x : list Z) (c : nat) (v : Z) : list Z :=
  <[(4 * c + 3)%nat := bval v 3]> (<[(4 * c + 2)%nat := bval v 2]> (<[(4 * c + 1)%nat := bval v 1]> (<[(4 * c)%nat := bval v 0]> x))).

Definition w0 (p : Z) : Z := bytes2word p 0 0 0.
Definition w1 (p : Z) : Z := bytes2word 0 p 0 0.
Definition w2 (p : Z) : Z := bytes2word 0 0 p 0.
Definition w3 (p : Z) : Z := bytes2word 0 0 0 p.
Definition u0 (p : Z) : Z := bytes2word (f2 p) p p (f3 p).
Definition u1 (p : Z) : Z := bytes2word (f3 p) (f2 p) p p.
Definition u2 (p : Z) : Z := bytes2word p (f3 p) (f2 p) p.
Definition u3 (p : Z) : Z := bytes2word p p (f3 p) (f2 p).

Definition t_rc : list Z := w0 <$> [0x01; 0x02; 0x04; 0x08; 0x10; 0x20; 0x40; 0x80; 0x1b; 0x36].

(** [d_4] *)
Definition d_4 (b : list Z) (v0 v1 v2 v3 : Z -> Z) : list (list Z) := [v0 <$> b; v1 <$> b; v2 <$> b; v3 <$> b].
Definition t_fn : list (list Z) := d_4 sb_data u0 u1 u2 u3.
Definition t_fl : list (list Z) := d_4 sb_data w0 w1 w2 w3.

Definition cell (tab : list (list Z)) (i : nat) (b : Z) : Z := byte_at (default [] (tab !! i)) (Z.to_nat b).

Definition four_tables {X} (x : X) (tab : list (list Z)) (vf : X -> nat -> nat -> Z) (rf : nat -> nat -> nat) (c : nat) : Z :=
  Z.lxor (Z.lxor (Z.lxor (cell tab 0 (bval (vf x 0%nat c) (rf 0%nat c))) (cell tab 1 (bval (vf x 1%nat c) (rf 1%nat c))))
                 (cell tab 2 (bval (vf x 2%nat c) (rf 2%nat c)))) (cell tab 3 (bval (vf x 3%nat c) (rf 3%nat c))).

Definition vf1 (x : Z) (r c : nat) : Z := x.
Definition rf1 (r c : nat) : nat := r.
Definition rf2 (r c : nat) : nat := Nat.land (8 + r - c) 3.
Definition ls_box (x : Z) (c : nat) : Z := four_tables x t_fl vf1 rf2 c.

(** ** The key schedule

    A cycle takes the schedule and the last words [ss] and gives the new ones. *)

Definition rc (i : nat) : Z := byte_at t_rc i.

Definition word_ins (x : list Z) (n : nat) : list Z := word_in x <$> seq 0 n.

Definition ke4 (k : list Z) (i : nat) (ss : list Z) : list Z * list Z :=
  let s := byte_at ss in
  let s0 := Z.lxor (s 0%nat) (Z.lxor (ls_box (s 3%nat) 3) (rc i)) in
  let k := <[(4 * i + 4)%nat := s0]> k in
  let s1 := Z.lxor (s 1%nat) s0 in let k := <[(4 * i + 5)%nat := s1]> k in
  let s2 := Z.lxor (s 2%nat) s1 in let k := <[(4 * i + 6)%nat := s2]> k in
  let s3 := Z.lxor (s 3%nat) s2 in let k := <[(4 * i + 7)%nat := s3]> k in
  (k, [s0; s1; s2; s3]).
Definition kel4 := ke4.

Definition kel6 (k : list Z) (i : nat) (ss : list Z) : list Z * list Z :=
  let s := byte_at ss in
  let s0 := Z.lxor (s 0%nat) (Z.lxor (ls_box (s 5%nat) 3) (rc i)) in
  let k := <[(6 * i + 6)%nat := s0]> k in
  let s1 := Z.lxor (s 1%nat) s0 in let k := <[(6 * i + 7)%nat := s1]> k in
  let s2 := Z.lxor (s 2%nat) s1 in let k := <[(6 * i + 8)%nat := s2]> k in
  let s3 := Z.lxor (s 3%nat) s2 in let k := <[(6 * i + 9)%nat := s3]> k in
  (k, [s0; s1; s2; s3; s 4%nat; s 5%nat]).

Definition ke6 (k : list Z) (i : nat) (ss : list Z) : list Z * list Z :=
  let '(k, ss) := kel6 k i ss in
  let s := byte_at ss in
  let s4 := Z.lxor (s 4%nat) (s 3%nat) in let k := <[(6 * i + 10)%nat := s4]> k in
  let s5 := Z.lxor (s 5%nat) s4 in let k := <[(6 * i + 11)%nat := s5]> k in
  (k, [s 0%nat; s 1%nat; s 2%nat; s 3%nat; s4; s5]).

Definition kel8 (k : list Z) (i : nat) (ss : list Z) : list Z * list Z :=
  let s := byte_at ss in
  let s0 := Z.lxor (s 0%nat) (Z.lxor (ls_box (s 7%nat) 3) (rc i)) in
  let k := <[(8 * i + 8)%nat := s0]> k in
  let s1 := Z.lxor (s 1%nat) s0 in let k := <[(8 * i + 9)%nat := s1]> k in
  let s2 := Z.lxor (s 2%nat) s1 in let k := <[(8 * i + 10)%nat := s2]> k in
  let s3 := Z.lxor (s 3%nat) s2 in let k := <[(8 * i + 11)%nat := s3]> k in
  (k, [s0; s1; s2; s3; s 4%nat; s 5%nat; s 6%nat; s 7%nat]).

Definition ke8 (k : list Z) (i : nat) (ss : list Z) : list Z * list Z :=
  let '(k, ss) := kel8 k i ss in
  let s := byte_at ss in
  let s4 := Z.lxor (s 4%nat) (ls_box (s 3%nat) 0) in let k := <[(8 * i + 12)%nat := s4]> k in
  let s5 := Z.lxor (s 5%nat) s4 in let k := <[(8 * i + 13)%nat := s5]> k in
  let s6 := Z.lxor (s 6%nat) s5 in let k := <[(8 * i + 14)%nat := s6]> k in
  let s7 := Z.lxor (s 7%nat) s6 in let k := <[(8 * i + 15)%nat := s7]> k in
  (k, [s 0%nat; s 1%nat; s 2%nat; s 3%nat; s4; s5; s6; s7]).

(** The cycles [0], ..., [n - 1] one after the other. *)
Definition cycles (ke : list Z -> nat -> list Z -> list Z * list Z) (n : nat) (kss : list Z * list Z) : list Z * list Z :=
  foldl (fun kss i => ke kss.1 i kss.2) kss (seq 0 n).

Definition aes_encrypt_key128 (in_key : list Z) (cx : aes_encrypt_ctx) : aes_encrypt_ctx :=
  let ss := word_ins in_key 4 in
  let '(k, ss) := cycles ke4 9 (splice 0 ss (k_sch cx), ss) in
  mkCtx (kel4 k 9 ss).1 10.
Definition aes_encrypt_key192 (in_key : list Z) (cx : aes_encrypt_ctx) : aes_encrypt_ctx :=
  let ss := word_ins in_key 6 in
  let '(k, ss) := cycles ke6 7 (splice 0 ss (k_sch cx), ss) in
  mkCtx (kel6 k 7 ss).1 12.
Definition aes_encrypt_key256 (in_key : list Z) (cx : aes_encrypt_ctx) : aes_encrypt_ctx :=
  let ss := word_ins in_key 8 in
  let '(k, ss) := cycles ke8 6 (splice 0 ss (k_sch cx), ss) in
  mkCtx (kel8 k 6 ss).1 14.

(** Other lengths leave the context as it was. *)
Definition aes_encrypt_key (in_key : list Z) (key_len : Z) (cx : aes_encrypt_ctx) : aes_encrypt_ctx :=
  if (key_len =? 16) || (key_len =? 128) then aes_encrypt_key128 in_key cx
  else if (key_len =? 24) || (key_len =? 192) then aes_encrypt_key192 in_key cx
  else if (key_len =? 32) || (key_len =? 256) then aes_encrypt_key256 in_key cx
  else cx.

(** ** Encryption of a block *)

Definition state_in (x k : list Z) : list Z := (fun c => Z.lxor (word_in x c) (byte_at k c)) <$> seq 0 N_COLS.
Definition state_out (y x : list Z) : list Z := foldl (fun y c => word_out y c (byte_at x c)) y (seq 0 N_COLS).
(** [kp] is the position of the round key in the schedule. *)
Definition round (rm : list Z -> list Z -> nat -> nat -> Z) (x k : list Z) (kp : nat) : list Z := rm x k kp <$> seq 0 N_COLS.

Definition fwd_var (x : list Z) (r c : nat) : Z :=
  let s := byte_at x in
  match r with
  | 0 => match c with 0 => s 0 | 1 => s 1 | 2 => s 2 | _ => s 3 end
  | 1 => match c with 0 => s 1 | 1 => s 2 | 2 => s 3 | _ => s 0 end
  | 2 => match c with 0 => s 2 | 1 => s 3 | 2 => s 0 | _ => s 1 end
  | _ => match c with 0 => s 3 | 1 => s 0 | 2 => s 1 | _ => s 2 end
  end%nat.
Definition fwd_rnd (x k : list Z) (kp c : nat) : Z := Z.lxor (byte_at k (kp + c)) (four_tables x t_fn fwd_var rf1 c).
Definition fwd_lrnd (x k : list Z) (kp c : nat) : Z := Z.lxor (byte_at k (kp + c)) (four_tables x t_fl fwd_var rf1 c).

(** The rounds of the [switch], which falls through from 14 to 12 to 10.  [b] are
    the words of the state, whichever of the two arrays holds them. *)
Definition rounds14 (k : list Z) (kp : nat) (b : list Z) : list Z :=
  let b := round fwd_rnd b k (kp - 4 * N_COLS) in
  round fwd_rnd b k (kp - 3 * N_COLS).
Definition rounds12 (k : list Z) (kp : nat) (b : list Z) : list Z :=
  let b := round fwd_rnd b k (kp - 2 * N_COLS) in
  round fwd_rnd b k (kp - N_COLS).
Definition rounds10 (k : list Z) (kp : nat) (b : list Z) : list Z :=
  let b := round fwd_rnd b k kp in
  let b := round fwd_rnd b k (kp + N_COLS) in
  let b := round fwd_rnd b k (kp + 2 * N_COLS) in
  let b := round fwd_rnd b k (kp + 3 * N_COLS) in
  let b := round fwd_rnd b k (kp + 4 * N_COLS) in
  let b := round fwd_rnd b k (kp + 5 * N_COLS) in
  let b := round fwd_rnd b k (kp + 6 * N_COLS) in
  let b := round fwd_rnd b k (kp + 7 * N_COLS) in
  let b := round fwd_rnd b k (kp + 8 * N_COLS) in
  round fwd_lrnd b k (kp + 9 * N_COLS).

Definition aes_encrypt (in_blk out_blk : list Z) (cx : aes_encrypt_ctx) : list Z :=
  let k := k_sch cx in
  let b0 := state_in in_blk k in
  let kp := (Z.to_nat (n_rnd cx - 9) * N_COLS)%nat in
  let b0 :=
    if n_rnd cx =? 14 then rounds10 k kp (rounds12 k kp (rounds14 k kp b0))
    else if n_rnd cx =? 12 then rounds10 k kp (rounds12 k kp b0)
    else if n_rnd cx =? 10 then rounds10 k kp b0
    else b0 in
  state_out out_blk b0.

End words.
End Gladman.
