(* ===== verification/AesSpec.v ===== *)
(** * AesSpec: the standard FIPS 197

    The cipher as the standard describes it, on bytes, with the field of 256
    elements; the reference for [Aes].  Nothing here models code. *)

From S2P Require Import Prelude.

Module FIPS197.

(** ** The field: polynomials over bits modulo x^8 + x^4 + x^3 + x + 1 *)

Definition xtime (a : Z) : Z := Z.lxor (u8 (Z.shiftl a 1)) (if Z.testbit a 7 then 0x1b else 0).

(** [a * b]: the sum of the multiples [a * x^i] for the bits [i] of [b]. *)
Fixpoint gmul_loop (n : nat) (a b : Z) : Z :=
  match n with
  | O => 0
  | S n => Z.lxor (if Z.odd b then a else 0) (gmul_loop n (xtime a) (Z.shiftr b 1))
  end.
Definition gmul : Z -> Z -> Z := gmul_loop 8.

Definition all_bytes : list Z := Z.of_nat <$> seq 0 256.

(** The multiplicative inverse; 0 has none and is mapped to itself. *)
Definition ginv (a : Z) : Z := default 0 (snd <$> list_find (fun x => gmul a x = 1) all_bytes).

(** ** Bytes, words of four bytes, states of four columns *)

Definition bit (b : Z) (i : nat) : bool := Z.testbit b (Z.of_nat (i mod 8)).
Definition of_bits (f : nat -> bool) : Z :=
  foldr (fun i v => if f i then Z.setbit v (Z.of_nat i) else v) 0 (seq 0 8).
Definition affine (b : Z) : Z :=
  of_bits (fun i => xorb (bit b i) (xorb (bit b (i + 4)) (xorb (bit b (i + 5)) (xorb (bit b (i + 6))
                      (xorb (bit b (i + 7)) (bit 0x63 i)))))).
Definition SBox (b : Z) : Z := affine (ginv b).

Definition xor_word : list Z -> list Z -> list Z := zip_with Z.lxor.
Definition SubWord (w : list Z) : list Z := SBox <$> w.
Definition RotWord (w : list Z) : list Z := drop 1 w ++ take 1 w.
Definition Rcon (i : nat) : list Z := [Nat.iter (i - 1) xtime 1; 0; 0; 0].

(** The byte in row [r] and column [c]. *)
Definition cell (s : list (list Z)) (r c : nat) : Z := byte_at (default [] (s !! c)) r.
Definition tabulate (f : nat -> nat -> Z) : list (list Z) := (fun c => (fun r => f r c) <$> seq 0 4) <$> seq 0 4.

Definition SubBytes (s : list (list Z)) : list (list Z) := SubWord <$> s.
Definition ShiftRows (s : list (list Z)) : list (list Z) := tabulate (fun r c => cell s r ((c + r) mod 4)).
Definition MixColumns (s : list (list Z)) : list (list Z) :=
  tabulate (fun r c => Z.lxor (gmul 2 (cell s r c)) (Z.lxor (gmul 3 (cell s ((r + 1) mod 4) c))
                         (Z.lxor (cell s ((r + 2) mod 4) c) (cell s ((r + 3) mod 4) c)))).
Definition AddRoundKey (k s : list (list Z)) : list (list Z) := zip_with xor_word k s.

(** ** Key expansion *)

Definition next_word (Nk i : nat) (w : list (list Z)) : list Z :=
  let temp := default [] (w !! (i - 1)%nat) in
  let temp := if (i mod Nk =? 0)%nat then xor_word (SubWord (RotWord temp)) (Rcon (i / Nk))
              else if (6 <? Nk)%nat && (i mod Nk =? 4)%nat then SubWord temp else temp in
  xor_word (default [] (w !! (i - Nk)%nat)) temp.

(** [n] more words. *)
Fixpoint expand (Nk n : nat) (w : list (list Z)) : list (list Z) :=
  match n with O => w | S n => expand Nk n (w ++ [next_word Nk (length w) w]) end.

Definition columns (n : nat) (x : list Z) : list (list Z) := (fun c => slice (4 * c) 4 x) <$> seq 0 n.

Definition KeyExpansion (Nk Nr : nat) (key : list Z) : list (list Z) :=
  expand Nk (4 * (Nr + 1) - Nk) (columns Nk key).

(** ** The cipher *)

Definition RoundKey (w : list (list Z)) (i : nat) : list (list Z) := slice (4 * i) 4 w.

Definition Round (w : list (list Z)) (s : list (list Z)) (i : nat) : list (list Z) :=
  AddRoundKey (RoundKey w i) (MixColumns (ShiftRows (SubBytes s))).

Definition Cipher (Nr : nat) (w : list (list Z)) (block : list Z) : list Z :=
  let s := AddRoundKey (RoundKey w 0) (columns 4 block) in
  let s := foldl (Round w) s (seq 1 (Nr - 1)) in
  mjoin (AddRoundKey (RoundKey w Nr) (ShiftRows (SubBytes s))).

(** AES with a key of 4, 6 or 8 words. *)
Definition AES_encrypt (key block : list Z) : list Z :=
  let Nk := (length key / 4)%nat in
  let Nr := (Nk + 6)%nat in
  Cipher Nr (KeyExpansion Nk Nr key) block.

End FIPS197.
