(* ===== verification/AesThms.v ===== *)
(** * AesThms: the cipher is AES

    The table-driven cipher of [Aes] computes the cipher of FIPS 197, for every key
    length and both byte orders; it is an instance of the interface CCM uses. *)

From S2P Require Import Prelude Bytes NodeId Packet Aes AesSpec Ccm.
Import Gladman.

(** ** Words and their bytes *)

Lemma byte_testbit b i : is_byte b -> 8 <= i -> Z.testbit b i = false.
Proof.
  intros Hb Hi. destruct (Z.eq_dec b 0) as [->|H0]; [apply Z.testbit_0_l|].
  apply Z.bits_above_log2; [apply Hb|]. assert (Z.log2 b < 8); [|lia]. apply Z.log2_lt_pow2; destruct Hb; lia.
Qed.

Lemma lxor_byte a b : is_byte a -> is_byte b -> is_byte (Z.lxor a b).
Proof.
  intros Ha Hb. assert (0 <= Z.lxor a b) as H0 by (apply Z.lxor_nonneg; destruct Ha, Hb; lia). split; [done|].
  destruct (Z_lt_le_dec (Z.lxor a b) 256) as [|Hge]; [done|]. exfalso.
  assert (8 <= Z.log2 (Z.lxor a b)) as Hl by (change 8 with (Z.log2 256); by apply Z.log2_le_mono).
  pose proof (Z.bit_log2 (Z.lxor a b) ltac:(lia)) as Hbit.
  by rewrite Z.lxor_spec, !byte_testbit in Hbit.
Qed.

(** A word from its bytes, the least significant one first. *)
Definition pack (b0 b1 b2 b3 : Z) : Z := b0 + 256 * b1 + 65536 * b2 + 16777216 * b3.

Lemma pack_bits b0 b1 b2 b3 i :
  is_byte b0 -> is_byte b1 -> is_byte b2 -> is_byte b3 -> 0 <= i ->
  Z.testbit (pack b0 b1 b2 b3) i =
    Z.testbit b0 i || Z.testbit b1 (i - 8) || Z.testbit b2 (i - 16) || Z.testbit b3 (i - 24).
Proof.
  intros H0 H1 H2 H3 Hi.
  assert (pack b0 b1 b2 b3 = Z.lor (Z.lor (Z.lor (Z.shiftl b3 24) (Z.shiftl b2 16)) (Z.shiftl b1 8)) b0) as ->.
  { rewrite !Z.shiftl_mul_pow2 by lia. unfold is_byte in *.
    replace (Z.lor (b3 * 2 ^ 24) (b2 * 2 ^ 16)) with ((b3 * 2 ^ 8 + b2) * 2 ^ 16).
    2: { rewrite <- (lor_pack 8) by (unfold in_width; lia). rewrite <- !Z.shiftl_mul_pow2 by lia.
         rewrite Z.shiftl_lor, Z.shiftl_shiftl by lia. done. }
    replace (Z.lor ((b3 * 2 ^ 8 + b2) * 2 ^ 16) (b1 * 2 ^ 8)) with (((b3 * 2 ^ 8 + b2) * 2 ^ 8 + b1) * 2 ^ 8).
    2: { rewrite <- (lor_pack 8) by (unfold in_width; lia). rewrite <- !Z.shiftl_mul_pow2 by lia.
         rewrite Z.shiftl_lor, Z.shiftl_shiftl by lia. done. }
    rewrite lor_pack by (unfold in_width; lia). unfold pack. lia. }
  rewrite !Z.lor_spec, !Z.shiftl_spec by lia.
  destruct (Z.testbit b0 i), (Z.testbit b1 (i - 8)), (Z.testbit b2 (i - 16)), (Z.testbit b3 (i - 24)); done.
Qed.

Lemma pack_lxor a0 a1 a2 a3 b0 b1 b2 b3 :
  bytes [a0; a1; a2; a3] -> bytes [b0; b1; b2; b3] ->
  Z.lxor (pack a0 a1 a2 a3) (pack b0 b1 b2 b3) = pack (Z.lxor a0 b0) (Z.lxor a1 b1) (Z.lxor a2 b2) (Z.lxor a3 b3).
Proof.
  rewrite !Forall_cons. intros (A0 & A1 & A2 & A3 & _) (B0 & B1 & B2 & B3 & _).
  apply Z.bits_inj'. intros i Hi. rewrite Z.lxor_spec, !pack_bits by (done || by apply lxor_byte). rewrite !Z.lxor_spec.
  assert (forall b j, is_byte b -> j < 0 \/ 8 <= j -> Z.testbit b j = false) as Hout.
  { intros b j Hb [Hj|Hj]; [by apply Z.testbit_neg_r|by apply byte_testbit]. }
  destruct (Z_lt_le_dec i 8); [|destruct (Z_lt_le_dec i 16); [|destruct (Z_lt_le_dec i 24)]].
  - rewrite !(Hout _ (i - 8)), !(Hout _ (i - 16)), !(Hout _ (i - 24)) by (done || lia). rewrite !orb_false_r. done.
  - rewrite !(Hout _ i), !(Hout _ (i - 16)), !(Hout _ (i - 24)) by (done || lia). by rewrite !orb_false_r.
  - rewrite !(Hout _ i), !(Hout _ (i - 8)), !(Hout _ (i - 24)) by (done || lia). by rewrite !orb_false_r.
  - rewrite !(Hout _ i), !(Hout _ (i - 8)), !(Hout _ (i - 16)) by (done || lia). done.
Qed.

Lemma pack_byte b0 b1 b2 b3 n :
  bytes [b0; b1; b2; b3] -> (n < 4)%nat ->
  u8 (Z.shiftr (pack b0 b1 b2 b3) (8 * Z.of_nat n)) = byte_at [b0; b1; b2; b3] n.
Proof.
  rewrite !Forall_cons. intros (H0 & H1 & H2 & H3 & _) Hn. rewrite Z.shiftr_div_pow2 by lia. unfold pack, wrap, is_byte in *.
  destruct n as [|[|[|[|n]]]]; [..|lia]; cbn -[Z.div Z.modulo Z.pow Z.mul Z.add]; Z.div_mod_to_equations; lia.
Qed.

(** ** Both byte orders *)

Section order.
Context (o : order).

(** The word of a column. *)
Definition word (w : list Z) : Z := bytes2word o (byte_at w 0) (byte_at w 1) (byte_at w 2) (byte_at w 3).

Definition is_word (w : list Z) : Prop := length w = 4%nat /\ bytes w.

Lemma is_word_inv w : is_word w -> exists b0 b1 b2 b3, w = [b0; b1; b2; b3] /\ bytes [b0; b1; b2; b3].
Proof.
  intros [Hl Hb]. destruct w as [|b0 [|b1 [|b2 [|b3 [|]]]]]; try discriminate. by exists b0, b1, b2, b3.
Qed.

Lemma bytes2word_pack b0 b1 b2 b3 :
  bytes [b0; b1; b2; b3] ->
  bytes2word o b0 b1 b2 b3 = match o with AES_LITTLE_ENDIAN => pack b0 b1 b2 b3 | AES_BIG_ENDIAN => pack b3 b2 b1 b0 end.
Proof.
  rewrite !Forall_cons. intros (H0 & H1 & H2 & H3 & _).
  assert (forall b n, is_byte b -> 0 <= n <= 24 -> u32 (Z.shiftl b n) = Z.shiftl b n) as Hw.
  { intros b n Hb Hn. apply wrap_id. unfold in_width, is_byte in *. rewrite Z.shiftl_mul_pow2 by lia.
    assert (2 ^ n <= 2 ^ 24) by (apply Z.pow_le_mono_r; lia). assert (0 < 2 ^ n) by (apply Z.pow_pos_nonneg; lia).
    change (2 ^ 32) with (256 * 2 ^ 24). nia. }
  unfold bytes2word. destruct o; rewrite !Hw by (done || lia); apply Z.bits_inj'; intros i Hi;
    rewrite pack_bits, !Z.lor_spec, !Z.shiftl_spec by (done || lia).
  - by destruct (Z.testbit b0 i), (Z.testbit b1 (i - 8)), (Z.testbit b2 (i - 16)), (Z.testbit b3 (i - 24)).
  - by destruct (Z.testbit b3 i), (Z.testbit b2 (i - 8)), (Z.testbit b1 (i - 16)), (Z.testbit b0 (i - 24)).
Qed.

Lemma bval_word w n : is_word w -> (n < 4)%nat -> bval o (word w) n = byte_at w n.
Proof.
  intros (b0 & b1 & b2 & b3 & -> & Hb)%is_word_inv Hn. unfold word. cbn [byte_at]. rewrite bytes2word_pack by exact Hb.
  assert (bytes [b3; b2; b1; b0]) as Hb' by (rewrite !Forall_cons in *; tauto).
  unfold bval. destruct o; [by apply pack_byte|].
  replace (24 - 8 * Z.of_nat n) with (8 * Z.of_nat (3 - n)) by lia. rewrite pack_byte by (done || lia).
  destruct n as [|[|[|[|]]]]; [done..|lia].
Qed.

Lemma word_xor a b : is_word a -> is_word b -> Z.lxor (word a) (word b) = word (FIPS197.xor_word a b).
Proof.
  intros (a0 & a1 & a2 & a3 & -> & Ha)%is_word_inv (b0 & b1 & b2 & b3 & -> & Hb)%is_word_inv.
  unfold word. cbn [FIPS197.xor_word zip_with].
  change (Z.lxor (bytes2word o a0 a1 a2 a3) (bytes2word o b0 b1 b2 b3)
          = bytes2word o (Z.lxor a0 b0) (Z.lxor a1 b1) (Z.lxor a2 b2) (Z.lxor a3 b3)).
  assert (bytes [a3; a2; a1; a0] /\ bytes [b3; b2; b1; b0]) as [] by (rewrite !Forall_cons in *; tauto).
  assert (bytes [Z.lxor a0 b0; Z.lxor a1 b1; Z.lxor a2 b2; Z.lxor a3 b3]) as Hx
    by (rewrite !Forall_cons in *; repeat split; try apply lxor_byte; tauto).
  rewrite !bytes2word_pack by done. by destruct o; rewrite pack_lxor.
Qed.

Lemma xor_is_word a b : is_word a -> is_word b -> is_word (FIPS197.xor_word a b).
Proof.
  intros (a0 & a1 & a2 & a3 & -> & Ha)%is_word_inv (b0 & b1 & b2 & b3 & -> & Hb)%is_word_inv.
  split; [done|]. cbn [FIPS197.xor_word zip_with]. rewrite !Forall_cons in *. repeat split; try apply lxor_byte; tauto.
Qed.

(** ** Tables *)

Lemma sbox_table b : is_byte b -> byte_at sb_data (Z.to_nat b) = FIPS197.SBox b.
Proof.
  intros Hb. pose proof (byte_forall (fun b => byte_at sb_data (Z.to_nat b) =? FIPS197.SBox b) b) as C.
  apply Z.eqb_eq, C; [by vm_compute|done].
Qed.

Lemma sbox_byte b : is_byte b -> is_byte (FIPS197.SBox b).
Proof.
  intros Hb. pose proof (byte_forall (fun b => (0 <=? byte_at sb_data (Z.to_nat b)) && (byte_at sb_data (Z.to_nat b) <? 256)) b) as C.
  rewrite <- sbox_table by done. cbn beta in C. unfold is_byte. specialize (C ltac:(by vm_compute) Hb). lia.
Qed.

Lemma times_table p :
  is_byte p -> (f2 p = FIPS197.gmul 2 p /\ f3 p = FIPS197.gmul 3 p) /\ is_byte (FIPS197.gmul 2 p) /\ is_byte (FIPS197.gmul 3 p).
Proof.
  intros Hp. pose proof (byte_forall (fun p => (f2 p =? FIPS197.gmul 2 p) && (f3 p =? FIPS197.gmul 3 p) &&
    ((0 <=? FIPS197.gmul 2 p) && (FIPS197.gmul 2 p <? 256)) && ((0 <=? FIPS197.gmul 3 p) && (FIPS197.gmul 3 p <? 256))) p) as C.
  cbn beta in C. specialize (C ltac:(by vm_compute) Hp). unfold is_byte. lia.
Qed.

Lemma cell_table v0 v1 v2 v3 i b : is_byte b -> (i < 4)%nat ->
  cell (d_4 sb_data v0 v1 v2 v3) i b =
    (match i with 0%nat => v0 | 1%nat => v1 | 2%nat => v2 | _ => v3 end) (FIPS197.SBox b).
Proof.
  intros Hb Hi. rewrite <- sbox_table by done. unfold cell.
  assert (forall v : Z -> Z, byte_at (v <$> sb_data) (Z.to_nat b) = v (byte_at sb_data (Z.to_nat b))) as Hv.
  { intros v. destruct (lookup_lt_is_Some_2 sb_data (Z.to_nat b)) as [x Hx].
    { unfold is_byte in Hb. change (length sb_data) with 256%nat. lia. }
    unfold byte_at. by rewrite list_lookup_fmap, Hx. }
  destruct i as [|[|[|[|i]]]]; [apply Hv..|lia].
Qed.

(** ** Columns of the state *)

Definition mix (a : list Z) : list Z :=
  (fun r => Z.lxor (FIPS197.gmul 2 (byte_at a r)) (Z.lxor (FIPS197.gmul 3 (byte_at a ((r + 1) mod 4)))
              (Z.lxor (byte_at a ((r + 2) mod 4)) (byte_at a ((r + 3) mod 4))))) <$> seq 0 4.

Lemma word_xor4 a b c d : is_word a -> is_word b -> is_word c -> is_word d ->
  Z.lxor (Z.lxor (Z.lxor (word a) (word b)) (word c)) (word d) =
  word (FIPS197.xor_word (FIPS197.xor_word (FIPS197.xor_word a b) c) d).
Proof. intros. by rewrite !word_xor by (repeat apply xor_is_word; done). Qed.

Ltac lxor_tac := apply Z.bits_inj'; intros ? _; rewrite !Z.lxor_spec; repeat destruct (Z.testbit _ _); reflexivity.

Lemma mix_tables p0 p1 p2 p3 : bytes [p0; p1; p2; p3] ->
  Z.lxor (Z.lxor (Z.lxor (u0 o p0) (u1 o p1)) (u2 o p2)) (u3 o p3) = word (mix [p0; p1; p2; p3]) /\
  is_word (mix [p0; p1; p2; p3]).
Proof.
  rewrite !Forall_cons. intros (H0 & H1 & H2 & H3 & _).
  destruct (times_table _ H0) as ([A0 B0] & C0 & D0), (times_table _ H1) as ([A1 B1] & C1 & D1),
    (times_table _ H2) as ([A2 B2] & C2 & D2), (times_table _ H3) as ([A3 B3] & C3 & D3).
  unfold u0, u1, u2, u3. rewrite A0, A1, A2, A3, B0, B1, B2, B3.
  assert (forall a b c d, is_byte a -> is_byte b -> is_byte c -> is_byte d -> is_word [a; b; c; d]) as Hw
    by (intros; split; [done|]; by rewrite !Forall_cons).
  split; [|split; [done|]; cbn -[FIPS197.gmul Z.lxor]; rewrite !Forall_cons; repeat split; repeat (assumption || apply lxor_byte || apply Forall_nil_2)].
  etransitivity; [apply (word_xor4 [_; _; _; _] [_; _; _; _] [_; _; _; _] [_; _; _; _]); by apply Hw|].
  f_equal. unfold FIPS197.xor_word, mix. cbn [zip_with seq fmap list_fmap].
  change (byte_at [p0; p1; p2; p3] ?r) with (byte_at [p0; p1; p2; p3] r).
  f_equal; [lxor_tac|]. f_equal; [lxor_tac|]. f_equal; [lxor_tac|]. f_equal. lxor_tac.
Qed.

Lemma sub_tables p0 p1 p2 p3 : bytes [p0; p1; p2; p3] ->
  Z.lxor (Z.lxor (Z.lxor (w0 o p0) (w1 o p1)) (w2 o p2)) (w3 o p3) = word [p0; p1; p2; p3].
Proof.
  rewrite !Forall_cons. intros (H0 & H1 & H2 & H3 & _). unfold w0, w1, w2, w3.
  assert (is_byte 0) as Hz by (split; lia).
  etransitivity; [apply (word_xor4 [p0; 0; 0; 0] [0; p1; 0; 0] [0; 0; p2; 0] [0; 0; 0; p3]); split; try done; by rewrite !Forall_cons|].
  f_equal. cbn [FIPS197.xor_word zip_with]. unfold FIPS197.xor_word. cbn [zip_with]. by rewrite !Z.lxor_0_r, !Z.lxor_0_l.
Qed.

(** ** Rounds *)

Definition is_state (s : list (list Z)) : Prop := length s = 4%nat /\ Forall is_word s.

Lemma is_state_inv s : is_state s -> exists a b c d, s = [a; b; c; d] /\ is_word a /\ is_word b /\ is_word c /\ is_word d.
Proof.
  intros [Hl Hw]. destruct s as [|a [|b [|c [|d [|]]]]]; try discriminate.
  rewrite !Forall_cons in Hw. exists a, b, c, d. tauto.
Qed.

Lemma state_words s c : is_state s -> (c < 4)%nat -> is_word (default [] (s !! c)).
Proof. intros (w0 & w1 & w2 & w3 & -> & H0 & H1 & H2 & H3)%is_state_inv Hc. by destruct c as [|[|[|[|]]]]; [..|lia]. Qed.

Lemma word_byte w r : is_word w -> (r < 4)%nat -> is_byte (byte_at w r).
Proof.
  intros [Hl Hb] Hr. destruct (lookup_lt_is_Some_2 w r) as [x Hx]; [lia|]. unfold byte_at. rewrite Hx.
  by eapply (Forall_lookup_1 is_byte).
Qed.

(** What ends up in column [c] after [ShiftRows]. *)
Definition shifted (s : list (list Z)) (c : nat) : list Z :=
  (fun r => FIPS197.SBox (FIPS197.cell s r ((c + r) mod 4))) <$> seq 0 4.

Lemma mod4 n : (n mod 4 < 4)%nat.
Proof. apply Nat.mod_upper_bound. lia. Qed.

Lemma cell_byte s r c : is_state s -> (r < 4)%nat -> (c < 4)%nat -> is_byte (FIPS197.cell s r c).
Proof. intros Hs Hr Hc. apply word_byte; [by apply state_words|done]. Qed.

Lemma shifted_word s c : is_state s -> is_word (shifted s c).
Proof.
  intros Hs. split; [done|]. unfold shifted. apply Forall_fmap, Forall_forall. intros r Hr%elem_of_seq.
  refine (sbox_byte _ (cell_byte _ _ _ Hs _ (mod4 _))). lia.
Qed.

Lemma fwd_var_word s r c : is_state s -> (r < 4)%nat -> (c < 4)%nat ->
  fwd_var (word <$> s) r c = word (default [] (s !! ((c + r) mod 4)%nat)).
Proof.
  intros (w0 & w1 & w2 & w3 & -> & _)%is_state_inv Hr Hc.
  destruct r as [|[|[|[|]]]]; [..|lia]; (destruct c as [|[|[|[|]]]]; [reflexivity..|lia]).
Qed.

Lemma four_tables_ok {X} (x : X) v0 v1 v2 v3 vf rf c b0 b1 b2 b3 :
  bytes [b0; b1; b2; b3] -> (forall r, (r < 4)%nat -> bval o (vf x r c) (rf r c) = byte_at [b0; b1; b2; b3] r) ->
  four_tables o x (d_4 sb_data v0 v1 v2 v3) vf rf c =
    Z.lxor (Z.lxor (Z.lxor (v0 (FIPS197.SBox b0)) (v1 (FIPS197.SBox b1))) (v2 (FIPS197.SBox b2))) (v3 (FIPS197.SBox b3)).
Proof.
  rewrite !Forall_cons. intros (H0 & H1 & H2 & H3 & _) Hr. unfold four_tables. rewrite !Hr by lia.
  rewrite !cell_table by (try done; lia). done.
Qed.

Lemma byte_at_cells s c r : (r < 4)%nat ->
  byte_at [FIPS197.cell s 0 ((c + 0) mod 4); FIPS197.cell s 1 ((c + 1) mod 4); FIPS197.cell s 2 ((c + 2) mod 4);
           FIPS197.cell s 3 ((c + 3) mod 4)] r = FIPS197.cell s r ((c + r) mod 4).
Proof. intros Hr. destruct r as [|[|[|[|]]]]; [reflexivity..|lia]. Qed.

Lemma round_column v0 v1 v2 v3 s c : is_state s -> (c < 4)%nat ->
  exists p0 p1 p2 p3, shifted s c = [p0; p1; p2; p3] /\ bytes [p0; p1; p2; p3] /\
    four_tables o (word <$> s) (d_4 sb_data v0 v1 v2 v3) fwd_var rf1 c = Z.lxor (Z.lxor (Z.lxor (v0 p0) (v1 p1)) (v2 p2)) (v3 p3).
Proof.
  intros Hs Hc. do 4 eexists. split; [reflexivity|]. split; [exact (proj2 (shifted_word s c Hs))|].
  apply four_tables_ok.
  - repeat (apply Forall_cons_2; [apply cell_byte; [exact Hs|lia|apply mod4]|]). apply Forall_nil_2.
  - intros r Hr. rewrite fwd_var_word by done. unfold rf1. rewrite bval_word; [|by apply state_words, mod4|done].
    by rewrite byte_at_cells.
Qed.

Lemma round_columns s : is_state s ->
  FIPS197.MixColumns (FIPS197.ShiftRows (FIPS197.SubBytes s)) = (fun c => mix (shifted s c)) <$> seq 0 4 /\
  FIPS197.ShiftRows (FIPS197.SubBytes s) = shifted s <$> seq 0 4.
Proof.
  intros (w0 & w1 & w2 & w3 & -> & (a0 & a1 & a2 & a3 & -> & _)%is_word_inv & (b0 & b1 & b2 & b3 & -> & _)%is_word_inv &
    (c0 & c1 & c2 & c3 & -> & _)%is_word_inv & (d0 & d1 & d2 & d3 & -> & _)%is_word_inv)%is_state_inv.
  split; reflexivity.
Qed.

(** The round key at [kp] in the schedule. *)
Definition key_at (k : list Z) (kp : nat) (rk : list (list Z)) : Prop := is_state rk /\ slice kp 4 k = word <$> rk.

Lemma key_word k kp rk c : key_at k kp rk -> (c < 4)%nat -> byte_at k (kp + c) = word (default [] (rk !! c)).
Proof.
  intros [Hs Hk] Hc. assert (byte_at (slice kp 4 k) c = byte_at k (kp + c)) as <-.
  { unfold byte_at. by rewrite slice_lookup. }
  rewrite Hk. apply is_state_inv in Hs as (w0 & w1 & w2 & w3 & -> & _).
  destruct c as [|[|[|[|]]]]; [reflexivity..|lia].
Qed.

(** A round whose columns [f c] are computed by [g c], before the key is added. *)
Lemma round_key rm x k kp rk (f : nat -> list Z) (g : nat -> Z) :
  key_at k kp rk -> (forall c, (c < 4)%nat -> rm x k kp c = Z.lxor (byte_at k (kp + c)) (g c)) ->
  (forall c, (c < 4)%nat -> g c = word (f c) /\ is_word (f c)) ->
  round rm x k kp = word <$> FIPS197.AddRoundKey rk (f <$> seq 0 4) /\ is_state (FIPS197.AddRoundKey rk (f <$> seq 0 4)).
Proof.
  intros Hk Hrm Hg. assert (forall c, (c < 4)%nat -> rm x k kp c = word (FIPS197.xor_word (default [] (rk !! c)) (f c))) as Hc.
  { intros c Hc. destruct (Hg c Hc) as [E Hw]. rewrite Hrm, (key_word k kp rk), E by done.
    apply word_xor; [|done]. apply state_words; [apply Hk|done]. }
  unfold round. cbn [seq fmap list_fmap]. change (seq 0 N_COLS) with [0; 1; 2; 3]%nat. cbn [fmap list_fmap].
  rewrite !Hc by lia. destruct Hk as [Hs _]. destruct (is_state_inv _ Hs) as (r0 & r1 & r2 & r3 & -> & R0 & R1 & R2 & R3).
  split; [reflexivity|]. split; [reflexivity|]. cbn [FIPS197.AddRoundKey zip_with].
  destruct (Hg 0%nat ltac:(lia)), (Hg 1%nat ltac:(lia)), (Hg 2%nat ltac:(lia)), (Hg 3%nat ltac:(lia)).
  repeat (apply Forall_cons_2; [by apply xor_is_word|]). apply Forall_nil_2.
Qed.

Lemma round_fwd s k kp rk : is_state s -> key_at k kp rk ->
  let s' := FIPS197.AddRoundKey rk (FIPS197.MixColumns (FIPS197.ShiftRows (FIPS197.SubBytes s))) in
  round (fwd_rnd o) (word <$> s) k kp = word <$> s' /\ is_state s'.
Proof.
  intros Hs Hk. rewrite (proj1 (round_columns s Hs)).
  apply (round_key _ _ _ _ _ _ (four_tables o (word <$> s) (t_fn o) fwd_var rf1)); [done|by intros|]. intros c Hc. unfold t_fn.
  destruct (round_column (u0 o) (u1 o) (u2 o) (u3 o) s c Hs Hc) as (p0 & p1 & p2 & p3 & -> & Hb & ->). by apply mix_tables.
Qed.

Lemma round_last s k kp rk : is_state s -> key_at k kp rk ->
  let s' := FIPS197.AddRoundKey rk (FIPS197.ShiftRows (FIPS197.SubBytes s)) in
  round (fwd_lrnd o) (word <$> s) k kp = word <$> s' /\ is_state s'.
Proof.
  intros Hs Hk. rewrite (proj2 (round_columns s Hs)).
  apply (round_key _ _ _ _ _ _ (four_tables o (word <$> s) (t_fl o) fwd_var rf1)); [done|by intros|]. intros c Hc. unfold t_fl.
  destruct (round_column (w0 o) (w1 o) (w2 o) (w3 o) s c Hs Hc) as (p0 & p1 & p2 & p3 & -> & Hb & ->).
  split; [by apply sub_tables|done].
Qed.

(** ** A block *)

Lemma word_in_slice x c : word_in o x c = word (slice (4 * c) 4 x).
Proof.
  unfold word_in, word. assert (forall i, (i < 4)%nat -> byte_at (slice (4 * c) 4 x) i = byte_at x (4 * c + i)) as E
    by (intros i Hi; unfold byte_at; by rewrite slice_lookup).
  rewrite !E, Nat.add_0_r by lia. done.
Qed.

Lemma slice_is_word x c : bytes x -> (4 * c + 4 <= length x)%nat -> is_word (slice (4 * c) 4 x).
Proof. intros Hb Hl. split; [by apply slice_length|by apply Forall_slice]. Qed.

Lemma state_in_ok block k rk : length block = 16%nat -> bytes block -> key_at k 0 rk ->
  let s := FIPS197.AddRoundKey rk (FIPS197.columns 4 block) in
  state_in o block k = word <$> s /\ is_state s.
Proof.
  intros Hl Hb Hk.
  destruct (round_key (fun x k kp c => Z.lxor (byte_at k (kp + c)) (word_in o x c)) block k 0 rk
              (fun c => slice (4 * c) 4 block) (word_in o block) Hk) as [E Hs].
  - done.
  - intros c Hc. split; [apply word_in_slice|]. apply slice_is_word; [done|lia].
  - split; [|exact Hs]. etransitivity; [|exact E]. unfold state_in, round. apply list_fmap_ext. intros _ c _. by rewrite Z.lxor_comm.
Qed.

Lemma state_out_ok out s : length out = 16%nat -> is_state s -> state_out o out (word <$> s) = mjoin s.
Proof.
  intros Hl (a & b & c & d & -> & Ha & Hb & Hc & Hd)%is_state_inv.
  do 17 (destruct out as [|? out]; try discriminate Hl). clear Hl.
  unfold state_out. change (seq 0 N_COLS) with [0; 1; 2; 3]%nat. cbn [foldl fmap list_fmap].
  change (byte_at [word a; word b; word c; word d] 0) with (word a). change (byte_at [word a; word b; word c; word d] 1) with (word b).
  change (byte_at [word a; word b; word c; word d] 2) with (word c). change (byte_at [word a; word b; word c; word d] 3) with (word d).
  unfold word_out. rewrite !bval_word by (done || lia).
  destruct (is_word_inv _ Ha) as (? & ? & ? & ? & -> & _), (is_word_inv _ Hb) as (? & ? & ? & ? & -> & _),
    (is_word_inv _ Hc) as (? & ? & ? & ? & -> & _), (is_word_inv _ Hd) as (? & ? & ? & ? & -> & _). reflexivity.
Qed.

(** The schedule of the code holds the words [w] of the standard. *)
Record schedule (k : list Z) (Nr : nat) (w : list (list Z)) : Prop := {
  sc_length : length w = (4 * (Nr + 1))%nat;
  sc_words : Forall is_word w;
  sc_cells : take (4 * (Nr + 1)) k = word <$> w;
}.

Lemma schedule_key k Nr w i kp : schedule k Nr w -> (i <= Nr)%nat -> kp = (4 * i)%nat -> key_at k kp (FIPS197.RoundKey w i).
Proof.
  intros [Hl Hw Hc] Hi ->. split; [split|].
  - apply slice_length. lia.
  - by apply Forall_slice.
  - unfold FIPS197.RoundKey, slice. rewrite fmap_take, fmap_drop, <- Hc, skipn_firstn_comm, take_take. f_equal. lia.
Qed.

Lemma one_round k Nr w i kp s : schedule k Nr w -> (i <= Nr)%nat -> kp = (4 * i)%nat -> is_state s ->
  round (fwd_rnd o) (word <$> s) k kp = word <$> FIPS197.Round w s i /\ is_state (FIPS197.Round w s i).
Proof. intros Hk Hi -> Hs. by apply round_fwd; [|eapply schedule_key]. Qed.

Definition last_round (w : list (list Z)) (s : list (list Z)) (i : nat) : list (list Z) :=
  FIPS197.AddRoundKey (FIPS197.RoundKey w i) (FIPS197.ShiftRows (FIPS197.SubBytes s)).

Lemma rounds_ok k Nr w n j s : schedule k Nr w -> (j + n <= Nr + 1)%nat -> is_state s ->
  let s' := foldl (FIPS197.Round w) s (seq j n) in
  foldl (fun b i => round (fwd_rnd o) b k (4 * i)) (word <$> s) (seq j n) = word <$> s' /\ is_state s'.
Proof.
  intros Hk. revert j s. induction n as [|n IH]; intros j s Hj Hs; [done|]. cbn [seq foldl].
  destruct (one_round k Nr w j _ s Hk ltac:(lia) eq_refl Hs) as [-> Hs']. apply IH; [lia|done].
Qed.

Lemma rounds10_ok k Nr w j kp s : schedule k Nr w -> (j + 9 = Nr)%nat -> kp = (4 * j)%nat -> is_state s ->
  let s' := last_round w (foldl (FIPS197.Round w) s (seq j 9)) Nr in
  rounds10 o k kp (word <$> s) = word <$> s' /\ is_state s'.
Proof.
  intros Hk Hj -> Hs. destruct (rounds_ok k Nr w 9 j s Hk ltac:(lia) Hs) as [E Hs']. cbv zeta.
  destruct (round_last _ k (4 * Nr) _ Hs' (schedule_key _ _ _ Nr _ Hk ltac:(lia) eq_refl)) as [El Hl].
  split; [|exact Hl]. etransitivity; [|exact El]. rewrite <- E.
  unfold rounds10, N_COLS. cbn [seq foldl]. repeat (f_equal; try lia).
Qed.

Lemma two_rounds_ok k Nr w j a b s : schedule k Nr w -> (j + 2 <= Nr + 1)%nat -> a = (4 * j)%nat -> b = (4 * (j + 1))%nat -> is_state s ->
  let s' := foldl (FIPS197.Round w) s (seq j 2) in
  round (fwd_rnd o) (round (fwd_rnd o) (word <$> s) k a) k b = word <$> s' /\ is_state s'.
Proof.
  intros Hk Hj -> -> Hs. destruct (rounds_ok k Nr w 2 j s Hk Hj Hs) as [E Hs']. cbn [seq foldl] in E.
  by rewrite Nat.add_1_r.
Qed.

Lemma aes_encrypt_ok k Nr w block out :
  Nr ∈ [10; 12; 14]%nat -> length block = 16%nat -> bytes block -> length out = 16%nat -> schedule k Nr w ->
  aes_encrypt o block out (mkCtx k (Z.of_nat Nr)) = FIPS197.Cipher Nr w block.
Proof.
  intros HN Hl Hb Ho Hk. destruct (state_in_ok block k _ Hl Hb (schedule_key _ _ _ 0 0 Hk ltac:(lia) eq_refl)) as [E0 Hs0].
  unfold aes_encrypt. cbn [k_sch n_rnd]. rewrite E0. clear E0. unfold FIPS197.Cipher.
  set (s0 := FIPS197.AddRoundKey (FIPS197.RoundKey w 0) (FIPS197.columns 4 block)) in *.
  enough (exists s', (if Z.of_nat Nr =? 14 then _ else _) = word <$> s' /\ is_state s' /\
            s' = last_round w (foldl (FIPS197.Round w) s0 (seq 1 (Nr - 1))) Nr) as (s' & -> & Hs' & ->) by by apply state_out_ok.
  rewrite !elem_of_cons, elem_of_nil in HN. destruct HN as [->|[->|[->|[]]]]; cbn [Z.eqb Z.of_nat Pos.of_succ_nat Pos.succ Pos.eqb].
  - destruct (rounds10_ok k 10 w 1 4 s0 Hk eq_refl eq_refl Hs0) as [E Hs]. eexists. split; [exact E|]. by split.
  - unfold rounds12. destruct (two_rounds_ok k 12 w 1 4 8 s0 Hk ltac:(lia) eq_refl eq_refl Hs0) as [E1 H1].
    destruct (rounds10_ok k 12 w 3 12 _ Hk eq_refl eq_refl H1) as [E Hs]. eexists. split; [|split; [exact Hs|reflexivity]].
    rewrite <- E, <- E1. reflexivity.
  - unfold rounds14, rounds12. destruct (two_rounds_ok k 14 w 1 4 8 s0 Hk ltac:(lia) eq_refl eq_refl Hs0) as [E1 H1].
    destruct (two_rounds_ok k 14 w 3 12 16 _ Hk ltac:(lia) eq_refl eq_refl H1) as [E2 H2].
    destruct (rounds10_ok k 14 w 5 20 _ Hk eq_refl eq_refl H2) as [E Hs]. eexists. split; [|split; [exact Hs|reflexivity]].
    rewrite <- E, <- E2, <- E1. reflexivity.
Qed.

(** ** The key schedule *)

Lemma sub_is_word w : is_word w -> is_word (FIPS197.SubWord w).
Proof.
  intros [Hl Hb]. split; [by unfold FIPS197.SubWord; rewrite length_fmap|]. apply Forall_fmap.
  by eapply Forall_impl; [|intros b; apply sbox_byte].
Qed.

Lemma rot_is_word w : is_word w -> is_word (FIPS197.RotWord w).
Proof.
  intros (a & b & c & d & -> & H)%is_word_inv. split; [done|]. cbn [FIPS197.RotWord drop take app].
  rewrite !Forall_cons in *. tauto.
Qed.

Lemma ls_box_rot w : is_word w -> ls_box o (word w) 3 = word (FIPS197.SubWord (FIPS197.RotWord w)).
Proof.
  intros Hw. pose proof (sub_is_word _ (rot_is_word _ Hw)) as [_ Hs]. pose proof (rot_is_word _ Hw) as [_ Hr].
  assert (forall r, (r < 4)%nat -> bval o (vf1 (word w) r 3) (rf2 r 3) = byte_at w (rf2 r 3)) as Hv.
  { intros r Hr4. apply bval_word; [done|]. destruct r as [|[|[|[|]]]]; [vm_compute; lia..|lia]. }
  apply is_word_inv in Hw as (a & b & c & d & -> & H). unfold ls_box, t_fl.
  rewrite (four_tables_ok _ _ _ _ _ _ _ _ b c d a); [by apply (sub_tables _ _ _ _ Hs)|done|].
  intros r Hr4. rewrite Hv by done. destruct r as [|[|[|[|]]]]; [reflexivity..|lia].
Qed.

Lemma ls_box_sub w : is_word w -> ls_box o (word w) 0 = word (FIPS197.SubWord w).
Proof.
  intros Hw. pose proof (sub_is_word _ Hw) as [_ Hs].
  assert (forall r, (r < 4)%nat -> bval o (vf1 (word w) r 0) (rf2 r 0) = byte_at w (rf2 r 0)) as Hv.
  { intros r Hr4. apply bval_word; [done|]. destruct r as [|[|[|[|]]]]; [vm_compute; lia..|lia]. }
  apply is_word_inv in Hw as (a & b & c & d & -> & H). unfold ls_box, t_fl.
  rewrite (four_tables_ok _ _ _ _ _ _ _ _ a b c d); [by apply (sub_tables _ _ _ _ Hs)|done|].
  intros r Hr4. rewrite Hv by done. destruct r as [|[|[|[|]]]]; [reflexivity..|lia].
Qed.

Lemma rcon_table i : (i < 10)%nat -> rc o i = word (FIPS197.Rcon (S i)) /\ is_word (FIPS197.Rcon (S i)).
Proof.
  intros Hi. do 10 (destruct i as [|i]; [split; [unfold word; destruct o; reflexivity|split; [done|apply (bool_decide_unpack _); by vm_compute]]|]). lia.
Qed.

(** The cells [k] begin with the words [ws]. *)
Record holds (k : list Z) (ws : list (list Z)) : Prop := {
  ho_words : Forall is_word ws;
  ho_cells : take (length ws) k = word <$> ws;
  ho_length : length k = KS_LENGTH;
}.

Lemma holds_snoc k ws x n : holds k ws -> n = length ws -> (n < KS_LENGTH)%nat -> is_word x -> holds (<[n := word x]> k) (ws ++ [x]).
Proof.
  intros [Hw Hc Hl] -> Hn Hx. split; [by apply Forall_app_2; [|apply Forall_singleton]| |by rewrite length_insert].
  rewrite length_app, Nat.add_1_r, fmap_app, <- Hc, (take_S_r _ _ (word x)) by (apply list_lookup_insert_eq; lia).
  by rewrite take_insert_ge by lia.
Qed.

Lemma expand_add Nk n m w : FIPS197.expand Nk (n + m) w = FIPS197.expand Nk m (FIPS197.expand Nk n w).
Proof. revert w. induction n as [|n IH]; intros w; [done|]. apply IH. Qed.

(** The next word, [m] words into a cycle. *)
Lemma next_first Nk j ws a z : (0 < Nk)%nat -> length ws = (Nk * S j)%nat ->
  ws !! (length ws - Nk)%nat = Some a -> ws !! (length ws - 1)%nat = Some z ->
  FIPS197.next_word Nk (length ws) ws = FIPS197.xor_word a (FIPS197.xor_word (FIPS197.SubWord (FIPS197.RotWord z)) (FIPS197.Rcon (S j))).
Proof.
  intros HN Hl Ha Hz. unfold FIPS197.next_word. rewrite Ha, Hz, Hl. cbn [default].
  rewrite Nat.mul_comm, Nat.Div0.mod_mul, Nat.div_mul by lia. done.
Qed.

Lemma next_other Nk j m ws a z : (0 < m < Nk)%nat -> length ws = (Nk * S j + m)%nat -> (m <> 4 \/ Nk <= 6)%nat ->
  ws !! (length ws - Nk)%nat = Some a -> ws !! (length ws - 1)%nat = Some z ->
  FIPS197.next_word Nk (length ws) ws = FIPS197.xor_word a z.
Proof.
  intros Hm Hl Hc Ha Hz. unfold FIPS197.next_word. rewrite Ha, Hz. cbn [default].
  assert (length ws mod Nk = m)%nat as -> by (rewrite Hl, Nat.add_comm, Nat.mul_comm, Nat.Div0.mod_add; apply Nat.mod_small; lia).
  rewrite (proj2 (Nat.eqb_neq m 0)) by lia. destruct (Nat.ltb_spec 6 Nk), (Nat.eqb_spec m 4); cbn [andb]; (done || lia).
Qed.

Lemma next_middle Nk j ws a z : (6 < Nk)%nat -> length ws = (Nk * S j + 4)%nat ->
  ws !! (length ws - Nk)%nat = Some a -> ws !! (length ws - 1)%nat = Some z ->
  FIPS197.next_word Nk (length ws) ws = FIPS197.xor_word a (FIPS197.SubWord z).
Proof.
  intros HN Hl Ha Hz. unfold FIPS197.next_word. rewrite Ha, Hz. cbn [default].
  assert (length ws mod Nk = 4)%nat as -> by (rewrite Hl, Nat.add_comm, Nat.mul_comm, Nat.Div0.mod_add; apply Nat.mod_small; lia).
  rewrite (proj2 (Nat.ltb_lt 6 Nk)) by lia. done.
Qed.

(** The words before the last full cycle [old], and the words [new] of the next. *)
Section cycle.
Context (Nk j : nat) (pre old : list (list Z)).
Hypothesis HN : (4 <= Nk)%nat.
Hypothesis Hpre : length pre = (Nk * j)%nat.
Hypothesis Hold : length old = Nk.

Lemma expand_look n new a z : (length new < Nk)%nat -> old !! length new = Some a -> last (old ++ new) = Some z ->
  forall x, (forall ws, length ws = (Nk * S j + length new)%nat -> ws !! (length ws - Nk)%nat = Some a -> ws !! (length ws - 1)%nat = Some z ->
     FIPS197.next_word Nk (length ws) ws = x) ->
  FIPS197.expand Nk (S n) (pre ++ old ++ new) = FIPS197.expand Nk n (pre ++ old ++ new ++ [x]).
Proof.
  intros Hm Ha Hz x Hx. cbn [FIPS197.expand]. rewrite (Hx (pre ++ old ++ new)).
  - by rewrite <- !(assoc_L (++)).
  - rewrite !length_app. lia.
  - rewrite !length_app, lookup_app_r, lookup_app_l by lia. rewrite <- Ha. f_equal. lia.
  - rewrite last_lookup in Hz. rewrite !length_app in *. rewrite lookup_app_r by lia. rewrite <- Hz. f_equal. lia.
Qed.

Lemma expand_first n a z : old !! 0%nat = Some a -> last old = Some z ->
  FIPS197.expand Nk (S n) (pre ++ old ++ []) =
    FIPS197.expand Nk n (pre ++ old ++ [FIPS197.xor_word a (FIPS197.xor_word (FIPS197.SubWord (FIPS197.RotWord z)) (FIPS197.Rcon (S j)))]).
Proof.
  intros Ha Hz. refine (expand_look n [] a z _ Ha _ _ _); cbn [length]; [lia|by rewrite app_nil_r|].
  intros ws Hl H1 H2. apply next_first; [lia..|done|done].
Qed.

Lemma expand_other n new y a z : old !! S (length new) = Some a -> z = y -> (length new < Nk - 1)%nat -> (length new <> 3 \/ Nk <= 6)%nat ->
  FIPS197.expand Nk (S n) (pre ++ old ++ new ++ [y]) = FIPS197.expand Nk n (pre ++ old ++ (new ++ [y]) ++ [FIPS197.xor_word a z]).
Proof.
  intros Ha -> Hm Hc. refine (expand_look n (new ++ [y]) a y _ _ _ _ _); rewrite ?length_app; cbn [length]; [lia|by rewrite Nat.add_1_r|by rewrite assoc_L, last_snoc by apply _|].
  intros ws Hl H1 H2. apply (next_other Nk j (length new + 1)); [lia..|done|done].
Qed.

Lemma expand_middle n new y a : old !! S (length new) = Some a -> length new = 3%nat -> (6 < Nk)%nat ->
  FIPS197.expand Nk (S n) (pre ++ old ++ new ++ [y]) =
    FIPS197.expand Nk n (pre ++ old ++ (new ++ [y]) ++ [FIPS197.xor_word a (FIPS197.SubWord y)]).
Proof.
  intros Ha Hm Hc. refine (expand_look n (new ++ [y]) a y _ _ _ _ _); rewrite ?length_app; cbn [length]; [lia|by rewrite Nat.add_1_r|by rewrite assoc_L, last_snoc by apply _|].
  intros ws Hl H1 H2. apply (next_middle Nk j); [lia..|done|done].
Qed.
End cycle.

Lemma holds_push k pre old new x n : holds k (pre ++ old ++ new) -> n = (length pre + length old + length new)%nat ->
  (n < KS_LENGTH)%nat -> is_word x -> holds (<[n := word x]> k) (pre ++ old ++ (new ++ [x])).
Proof. intros Hh Hn Hl Hx. rewrite !(assoc_L (++)), <- (assoc_L (++) pre). apply holds_snoc; [done|rewrite !length_app; lia|done..]. Qed.

Lemma first_value a z j : is_word a -> is_word z -> (j < 10)%nat ->
  let x := FIPS197.xor_word a (FIPS197.xor_word (FIPS197.SubWord (FIPS197.RotWord z)) (FIPS197.Rcon (S j))) in
  Z.lxor (word a) (Z.lxor (ls_box o (word z) 3) (rc o j)) = word x /\ is_word x.
Proof.
  intros Ha Hz Hj. destruct (rcon_table j Hj) as [-> Hr]. pose proof (sub_is_word _ (rot_is_word _ Hz)) as Hs.
  rewrite ls_box_rot, word_xor by done. rewrite word_xor by (done || by apply xor_is_word).
  split; [done|]. by apply xor_is_word; [|apply xor_is_word].
Qed.

(** A cycle of the code against the standard: [m] words are added. *)
Definition cycle_ok (ke : list Z -> nat -> list Z -> list Z * list Z) (Nk m : nat) : Prop :=
  forall j pre old k, (j < 10)%nat -> (Nk * j + Nk + m <= KS_LENGTH)%nat -> length pre = (Nk * j)%nat -> length old = Nk ->
  holds k (pre ++ old) -> exists new, length new = m /\ FIPS197.expand Nk m (pre ++ old) = pre ++ old ++ new /\
    holds (ke k j (word <$> old)).1 (pre ++ old ++ new) /\ (ke k j (word <$> old)).2 = word <$> new ++ drop m old.

Ltac word_tac := repeat (assumption || apply xor_is_word || apply sub_is_word).

(** The first four words of a cycle, written to the cells [n], ..., [n + 3]. *)
Definition put4 (k : list Z) (n : nat) (s0 s1 s2 s3 : Z) : list Z :=
  <[(n + 3)%nat := s3]> (<[(n + 2)%nat := s2]> (<[(n + 1)%nat := s1]> (<[n := s0]> k))).

Lemma first_four Nk j pre a b c d l z k :
  (j < 10)%nat -> (Nk * j + Nk + 4 <= KS_LENGTH)%nat -> length pre = (Nk * j)%nat -> length (a :: b :: c :: d :: l) = Nk ->
  last (a :: b :: c :: d :: l) = Some z -> holds k (pre ++ a :: b :: c :: d :: l) ->
  let s0 := Z.lxor (word a) (Z.lxor (ls_box o (word z) 3) (rc o j)) in
  let s1 := Z.lxor (word b) s0 in let s2 := Z.lxor (word c) s1 in let s3 := Z.lxor (word d) s2 in
  exists x0 x1 x2 x3, Forall is_word [x0; x1; x2; x3] /\ [s0; s1; s2; s3] = word <$> [x0; x1; x2; x3] /\
    FIPS197.expand Nk 4 (pre ++ a :: b :: c :: d :: l) = pre ++ (a :: b :: c :: d :: l) ++ [x0; x1; x2; x3] /\
    holds (put4 k (Nk * j + Nk) s0 s1 s2 s3) (pre ++ (a :: b :: c :: d :: l) ++ [x0; x1; x2; x3]).
Proof.
  intros Hj Hks Hp Ho Hz Hh s0 s1 s2 s3. pose proof (ho_words _ _ Hh) as Hw. rewrite Forall_app in Hw. destruct Hw as [_ Hw].
  assert (is_word z) as Hzw by (apply last_Some_elem_of in Hz; by eapply (Forall_forall is_word)).
  rewrite !Forall_cons in Hw. destruct Hw as (Ha & Hb & Hc & Hd & _). assert (4 <= Nk)%nat as HN by (rewrite <- Ho; cbn [length]; lia).
  destruct (first_value a z j Ha Hzw Hj) as [E0 H0]. set (x0 := FIPS197.xor_word a _) in *. fold s0 in E0.
  set (x1 := FIPS197.xor_word b x0). assert (is_word x1) as H1 by word_tac.
  assert (s1 = word x1) as E1 by (unfold s1; rewrite E0; by apply word_xor).
  set (x2 := FIPS197.xor_word c x1). assert (is_word x2) as H2 by word_tac.
  assert (s2 = word x2) as E2 by (unfold s2; rewrite E1; by apply word_xor).
  set (x3 := FIPS197.xor_word d x2). assert (is_word x3) as H3 by word_tac.
  assert (s3 = word x3) as E3 by (unfold s3; rewrite E2; by apply word_xor).
  clearbody s0 s1 s2 s3. subst s0 s1 s2 s3. set (old := a :: b :: c :: d :: l) in *.
  exists x0, x1, x2, x3. split; [by repeat apply Forall_cons_2|]. split; [done|]. split.
  - rewrite <- (app_nil_r old) at 1.
    etransitivity; [exact (expand_first Nk j pre old HN Hp Ho 3 a z eq_refl Hz)|].
    etransitivity; [exact (expand_other Nk j pre old HN Hp Ho 2 [] x0 b x0 eq_refl eq_refl ltac:(cbn; lia) ltac:(cbn; lia))|].
    etransitivity; [exact (expand_other Nk j pre old HN Hp Ho 1 [x0] x1 c x1 eq_refl eq_refl ltac:(cbn; lia) ltac:(cbn; lia))|].
    exact (expand_other Nk j pre old HN Hp Ho 0 [x0; x1] x2 d x2 eq_refl eq_refl ltac:(cbn; lia) ltac:(cbn; lia)).
  - apply (holds_push _ _ _ [x0; x1; x2] x3); [|cbn [length]; lia|lia|done].
    apply (holds_push _ _ _ [x0; x1] x2); [|cbn [length]; lia|lia|done].
    apply (holds_push _ _ _ [x0] x1); [|cbn [length]; lia|lia|done].
    apply (holds_push _ _ _ [] x0); [by rewrite app_nil_r|cbn [length]; lia|lia|done].
Qed.

(** The same cells, counted from the start of the cycle. *)
Lemma holds_eq k k' ws : holds k ws -> k = k' -> holds k' ws.
Proof. by intros Hk <-. Qed.
Ltac cells H := apply (holds_eq _ _ _ H); unfold put4; cbn [fst kel6 kel8 ke4]; repeat (f_equal; try lia).

Lemma cycle4 : cycle_ok (ke4 o) 4 4.
Proof.
  intros j pre old k Hj Hks Hp Ho Hh. destruct old as [|a [|b [|c [|d [|]]]]]; try discriminate Ho.
  destruct (first_four 4 j pre a b c d [] d k Hj Hks Hp Ho eq_refl Hh) as (x0 & x1 & x2 & x3 & _ & E & Hx & Hk).
  exists [x0; x1; x2; x3]. split; [done|]. split; [exact Hx|]. split; [|exact E]. cells Hk.
Qed.

Lemma cycle6_first : cycle_ok (kel6 o) 6 4.
Proof.
  intros j pre old k Hj Hks Hp Ho Hh. destruct old as [|a [|b [|c [|d [|e [|f [|]]]]]]]; try discriminate Ho.
  destruct (first_four 6 j pre a b c d [e; f] f k Hj Hks Hp Ho eq_refl Hh) as (x0 & x1 & x2 & x3 & _ & E & Hx & Hk).
  exists [x0; x1; x2; x3]. split; [done|]. split; [exact Hx|]. split; [cells Hk|].
  injection E as E0 E1 E2 E3. cbn [kel6 snd fmap list_fmap app drop]. by rewrite <- E0, <- E1, <- E2, <- E3.
Qed.

Lemma cycle8_first : cycle_ok (kel8 o) 8 4.
Proof.
  intros j pre old k Hj Hks Hp Ho Hh. destruct old as [|a [|b [|c [|d [|e [|f [|g [|h [|]]]]]]]]]; try discriminate Ho.
  destruct (first_four 8 j pre a b c d [e; f; g; h] h k Hj Hks Hp Ho eq_refl Hh) as (x0 & x1 & x2 & x3 & _ & E & Hx & Hk).
  exists [x0; x1; x2; x3]. split; [done|]. split; [exact Hx|]. split; [cells Hk|].
  injection E as E0 E1 E2 E3. cbn [kel8 snd fmap list_fmap app drop]. by rewrite <- E0, <- E1, <- E2, <- E3.
Qed.

Lemma cycle6 : cycle_ok (ke6 o) 6 6.
Proof.
  intros j pre old k Hj Hks Hp Ho Hh. destruct (cycle6_first j pre old k Hj ltac:(lia) Hp Ho Hh) as (new & Hn & Hx & Hk & Hs).
  unfold ke6. destruct (kel6 o k j (word <$> old)) as [k1 ss]. cbn [fst snd] in *. subst ss.
  pose proof (ho_words _ _ Hk) as Hw.
  destruct old as [|a [|b [|c [|d [|e [|f [|]]]]]]]; try discriminate Ho. destruct new as [|x0 [|x1 [|x2 [|x3 [|]]]]]; try discriminate Hn.
  rewrite !Forall_app, !Forall_cons in Hw. destruct Hw as (_ & (_ & _ & _ & _ & He & Hf & _) & (_ & _ & _ & H3 & _)).
  set (x4 := FIPS197.xor_word e x3). assert (is_word x4) as H4 by word_tac.
  set (x5 := FIPS197.xor_word f x4). assert (is_word x5) as H5 by word_tac.
  exists [x0; x1; x2; x3; x4; x5]. split; [done|]. cbn [app drop fmap list_fmap]. cbv zeta. 
  change (byte_at [word x0; word x1; word x2; word x3; word e; word f] 4) with (word e).
  change (byte_at [word x0; word x1; word x2; word x3; word e; word f] 5) with (word f).
  change (byte_at [word x0; word x1; word x2; word x3; word e; word f] 3) with (word x3).
  rewrite (word_xor e x3) by done. fold x4. rewrite (word_xor f x4) by done. fold x5. split; [|split; [|done]].
  - change 6%nat with (4 + 2)%nat at 2. rewrite expand_add, Hx.
    etransitivity; [exact (expand_other 6 j pre _ ltac:(lia) Hp Ho 1 [x0; x1; x2] x3 e x3 eq_refl eq_refl ltac:(cbn; lia) ltac:(cbn; lia))|].
    exact (expand_other 6 j pre _ ltac:(lia) Hp Ho 0 [x0; x1; x2; x3] x4 f x4 eq_refl eq_refl ltac:(cbn; lia) ltac:(cbn; lia)).
  - cbn [fst]. apply (holds_push _ pre [a; b; c; d; e; f] [x0; x1; x2; x3; x4] x5); [|cbn [length]; lia|lia|done].
    apply (holds_push _ pre [a; b; c; d; e; f] [x0; x1; x2; x3] x4); [exact Hk|cbn [length]; lia|lia|done].
Qed.

Lemma cycle8 : cycle_ok (ke8 o) 8 8.
Proof.
  intros j pre old k Hj Hks Hp Ho Hh. destruct (cycle8_first j pre old k Hj ltac:(lia) Hp Ho Hh) as (new & Hn & Hx & Hk & Hs).
  unfold ke8. destruct (kel8 o k j (word <$> old)) as [k1 ss]. cbn [fst snd] in *. subst ss.
  pose proof (ho_words _ _ Hk) as Hw.
  destruct old as [|a [|b [|c [|d [|e [|f [|g [|h [|]]]]]]]]]; try discriminate Ho. destruct new as [|x0 [|x1 [|x2 [|x3 [|]]]]]; try discriminate Hn.
  rewrite !Forall_app, !Forall_cons in Hw. destruct Hw as (_ & (_ & _ & _ & _ & He & Hf & Hg & Hh' & _) & (_ & _ & _ & H3 & _)).
  set (x4 := FIPS197.xor_word e (FIPS197.SubWord x3)). assert (is_word x4) as H4 by word_tac.
  set (x5 := FIPS197.xor_word f x4). assert (is_word x5) as H5 by word_tac.
  set (x6 := FIPS197.xor_word g x5). assert (is_word x6) as H6 by word_tac.
  set (x7 := FIPS197.xor_word h x6). assert (is_word x7) as H7 by word_tac.
  exists [x0; x1; x2; x3; x4; x5; x6; x7]. split; [done|]. cbn [app drop fmap list_fmap]. cbv zeta.
  change (byte_at (_ :: _ :: _ :: _ :: word e :: _) 4) with (word e). change (byte_at (_ :: _ :: _ :: word x3 :: _) 3) with (word x3).
  change (byte_at (_ :: _ :: _ :: _ :: _ :: word f :: _) 5) with (word f).
  change (byte_at (_ :: _ :: _ :: _ :: _ :: _ :: word g :: _) 6) with (word g).
  change (byte_at (_ :: _ :: _ :: _ :: _ :: _ :: _ :: word h :: _) 7) with (word h).
  rewrite ls_box_sub, (word_xor e) by (done || by apply sub_is_word). fold x4. rewrite (word_xor f x4) by done. fold x5.
  rewrite (word_xor g x5) by done. fold x6. rewrite (word_xor h x6) by done. fold x7. set (old := [a; b; c; d; e; f; g; h]) in *.
  split; [|split; [|done]].
  - change 8%nat with (4 + 4)%nat at 2. rewrite expand_add, Hx.
    etransitivity; [exact (expand_middle 8 j pre old ltac:(lia) Hp Ho 3 [x0; x1; x2] x3 e eq_refl eq_refl ltac:(lia))|].
    etransitivity; [exact (expand_other 8 j pre old ltac:(lia) Hp Ho 2 [x0; x1; x2; x3] x4 f x4 eq_refl eq_refl ltac:(cbn; lia) ltac:(cbn; lia))|].
    etransitivity; [exact (expand_other 8 j pre old ltac:(lia) Hp Ho 1 [x0; x1; x2; x3; x4] x5 g x5 eq_refl eq_refl ltac:(cbn; lia) ltac:(cbn; lia))|].
    exact (expand_other 8 j pre old ltac:(lia) Hp Ho 0 [x0; x1; x2; x3; x4; x5] x6 h x6 eq_refl eq_refl ltac:(cbn; lia) ltac:(cbn; lia)).
  - cbn [fst]. apply (holds_push _ pre old [x0; x1; x2; x3; x4; x5; x6] x7); [|cbn [length]; lia|lia|done].
    apply (holds_push _ pre old [x0; x1; x2; x3; x4; x5] x6); [|cbn [length]; lia|lia|done].
    apply (holds_push _ pre old [x0; x1; x2; x3; x4] x5); [|cbn [length]; lia|lia|done].
    apply (holds_push _ pre old [x0; x1; x2; x3] x4); [exact Hk|cbn [length]; lia|lia|done].
Qed.

Lemma cycles_ok ke Nk n k ws : cycle_ok ke Nk Nk -> (n <= 9)%nat -> (Nk * n + Nk <= KS_LENGTH)%nat -> length ws = Nk -> holds k ws ->
  exists pre old, length pre = (Nk * n)%nat /\ length old = Nk /\ FIPS197.expand Nk (Nk * n) ws = pre ++ old /\
    holds (cycles ke n (k, word <$> ws)).1 (pre ++ old) /\ (cycles ke n (k, word <$> ws)).2 = word <$> old.
Proof.
  intros Hke Hn Hks Hl Hh. induction n as [|n IH].
  { exists [], ws. rewrite Nat.mul_0_r. done. }
  destruct IH as (pre & old & Hp & Ho & Hx & Hk & Hs); [lia..|].
  assert (cycles ke (S n) (k, word <$> ws) = ke (cycles ke n (k, word <$> ws)).1 n (cycles ke n (k, word <$> ws)).2) as ->.
  { unfold cycles. by rewrite seq_S, foldl_app. }
  destruct (Hke n pre old _ ltac:(lia) ltac:(lia) Hp Ho Hk) as (new & Hn' & Hx' & Hk' & Hs'). rewrite <- Hs in Hk', Hs'.
  exists (pre ++ old), new. split_and!.
  - rewrite length_app. lia.
  - done.
  - replace (Nk * S n)%nat with (Nk * n + Nk)%nat by lia. by rewrite expand_add, Hx, Hx', (assoc_L (++)).
  - by rewrite <- (assoc_L (++)).
  - by rewrite Hs', drop_ge, app_nil_r by lia.
Qed.

Lemma key_words Nk key k : (4 * Nk = length key)%nat -> bytes key -> (Nk <= KS_LENGTH)%nat -> length k = KS_LENGTH ->
  word_ins o key Nk = word <$> FIPS197.columns Nk key /\ length (FIPS197.columns Nk key) = Nk /\
  holds (splice 0 (word_ins o key Nk) k) (FIPS197.columns Nk key).
Proof.
  intros Hl Hb HN Hk. assert (word_ins o key Nk = word <$> FIPS197.columns Nk key) as E.
  { unfold word_ins, FIPS197.columns. rewrite <- list_fmap_compose. apply list_fmap_ext. intros _ c _. apply word_in_slice. }
  assert (length (FIPS197.columns Nk key) = Nk) as Hc by (unfold FIPS197.columns; by rewrite length_fmap, length_seq).
  split; [done|]. split; [done|]. split.
  - apply Forall_fmap, Forall_forall. intros c Hin%elem_of_seq. apply slice_is_word; [done|lia].
  - rewrite Hc, E. unfold splice. rewrite take_0. cbn [app]. rewrite take_app_length'; [done|]. by rewrite length_fmap.
  - rewrite splice_length; [done|]. rewrite E, length_fmap. lia.
Qed.

Lemma last_cycle ke kel Nk Nr n m key k : cycle_ok ke Nk Nk -> cycle_ok kel Nk m ->
  (n <= 9)%nat -> (4 * (Nr + 1) = Nk * n + Nk + m)%nat -> (Nk * n + Nk + m <= KS_LENGTH)%nat ->
  (4 * Nk = length key)%nat -> bytes key -> length k = KS_LENGTH ->
  let kss := cycles ke n (splice 0 (word_ins o key Nk) k, word_ins o key Nk) in
  schedule (kel kss.1 n kss.2).1 Nr (FIPS197.KeyExpansion Nk Nr key).
Proof.
  intros Hke Hkel Hn HNr Hks Hl Hb Hk kss. destruct (key_words Nk key k Hl Hb ltac:(lia) Hk) as (E & Hc & Hh).
  destruct (cycles_ok ke Nk n _ _ Hke Hn ltac:(lia) Hc Hh) as (pre & old & Hp & Ho & Hx & Hk' & Hs). rewrite <- E in Hk', Hs.
  fold kss in Hk', Hs. destruct (Hkel n pre old _ ltac:(lia) ltac:(lia) Hp Ho Hk') as (new & Hm & Hx' & Hk2 & _). rewrite <- Hs in Hk2.
  assert (FIPS197.KeyExpansion Nk Nr key = pre ++ old ++ new) as ->.
  { unfold FIPS197.KeyExpansion. replace (4 * (Nr + 1) - Nk)%nat with (Nk * n + m)%nat by lia. by rewrite expand_add, Hx. }
  assert (length (pre ++ old ++ new) = (4 * (Nr + 1))%nat) as Hlen by (rewrite !length_app; lia).
  destruct Hk2 as [H1 H2 H3]. split; [done|done|]. by rewrite Hlen in H2.
Qed.

Lemma encrypt_key_ok key cx : length key ∈ [16; 24; 32]%nat -> bytes key -> length (k_sch cx) = KS_LENGTH ->
  let Nr := (length key / 4 + 6)%nat in exists k,
  aes_encrypt_key o key (Z.of_nat (length key)) cx = mkCtx k (Z.of_nat Nr) /\
  schedule k Nr (FIPS197.KeyExpansion (length key / 4) Nr key).
Proof.
  intros Hl Hb Hk. cbv zeta. rewrite !elem_of_cons, elem_of_nil in Hl. unfold aes_encrypt_key.
  destruct Hl as [Hl|[Hl|[Hl|[]]]]; rewrite Hl; cbn [Z.of_nat Pos.of_succ_nat Pos.succ Z.eqb Pos.eqb orb].
  - pose proof (last_cycle (ke4 o) (kel4 o) 4 10 9 4 key _ cycle4 cycle4 ltac:(lia) eq_refl ltac:(unfold KS_LENGTH; lia) ltac:(lia) Hb Hk) as Hs.
    eexists. split; [|exact Hs]. unfold aes_encrypt_key128. by destruct (cycles _ _ _).
  - pose proof (last_cycle (ke6 o) (kel6 o) 6 12 7 4 key _ cycle6 cycle6_first ltac:(lia) eq_refl ltac:(unfold KS_LENGTH; lia) ltac:(lia) Hb Hk) as Hs.
    eexists. split; [|exact Hs]. unfold aes_encrypt_key192. by destruct (cycles _ _ _).
  - pose proof (last_cycle (ke8 o) (kel8 o) 8 14 6 4 key _ cycle8 cycle8_first ltac:(lia) eq_refl ltac:(unfold KS_LENGTH; lia) ltac:(lia) Hb Hk) as Hs.
    eexists. split; [|exact Hs]. unfold aes_encrypt_key256. by destruct (cycles _ _ _).
Qed.

End order.

(** C6. The table-driven cipher is AES.  For both byte orders, every key of 16, 24
    or 32 bytes, every block, and whatever was in the context and in the output
    buffer before, setting up the key and encrypting the block gives the cipher
    text of FIPS 197: S-box, row shift, column mix and key expansion of the
    standard are what the tables and the unrolled rounds compute. *)
Theorem aes_encrypt_fips197 (o : order) (key block out : list Z) (cx : aes_encrypt_ctx) :
  length key ∈ [16; 24; 32]%nat -> bytes key -> length block = 16%nat -> bytes block ->
  length (k_sch cx) = KS_LENGTH -> length out = 16%nat ->
  Gladman.aes_encrypt o block out (Gladman.aes_encrypt_key o key (Z.of_nat (length key)) cx) = FIPS197.AES_encrypt key block.
Proof.
  intros Hl Hb Hbl Hbb Hk Ho. destruct (encrypt_key_ok o key cx Hl Hb Hk) as (k & -> & Hs).
  apply (aes_encrypt_ok o k _ _ block out); try done.
  rewrite !elem_of_cons, elem_of_nil in *. destruct Hl as [->|[->|[->|[]]]]; vm_compute; tauto.
Qed.

(** The key and the block of the standard's appendix. *)
Definition ex_key : list Z := Z.of_nat <$> seq 0 16.
Definition ex_block : list Z := (fun i => Z.of_nat i * 17) <$> seq 0 16.

Lemma aes_encrypt_fips197_witness :
  Gladman.aes_encrypt AES_LITTLE_ENDIAN ex_block (replicate 16 0)
    (Gladman.aes_encrypt_key AES_LITTLE_ENDIAN ex_key (Z.of_nat (length ex_key)) (mkCtx (replicate 64 0) 0)) =
  [0x69; 0xc4; 0xe0; 0xd8; 0x6a; 0x7b; 0x04; 0x30; 0xd8; 0xcd; 0xb7; 0x80; 0x70; 0xb4; 0xc5; 0x5a].
Proof.
  rewrite (aes_encrypt_fips197 AES_LITTLE_ENDIAN ex_key ex_block).
  - vm_compute. reflexivity.
  - apply (bool_decide_unpack _). by vm_compute.
  - apply (bool_decide_unpack _). by vm_compute.
  - reflexivity.
  - apply (bool_decide_unpack _). by vm_compute.
  - reflexivity.
  - reflexivity.
Defined.

(** ** The block cipher of CCM *)

Lemma state_out_length o out x : length (state_out o out x) = length out.
Proof. unfold state_out. change (seq 0 N_COLS) with [0; 1; 2; 3]%nat. cbn [foldl]. unfold word_out. by rewrite !length_insert. Qed.

Lemma state_out_bytes o out x : bytes out -> bytes (state_out o out x).
Proof.
  intros Hb. assert (forall v n, is_byte (bval o v n)) as Hv by (intros v n; unfold bval; destruct o; apply u8_byte).
  unfold state_out. change (seq 0 N_COLS) with [0; 1; 2; 3]%nat. cbn [foldl]. unfold word_out. by repeat apply Forall_insert.
Qed.

(** [ccm.c] encrypts a block in place, with the context it has set up before. *)
Definition gladman_aes (o : order) : AES.
Proof.
  refine {| aes_ctx := aes_encrypt_ctx;
            Ccm.aes_encrypt_key key n := Gladman.aes_encrypt_key o key (Z.of_nat n) (mkCtx (replicate KS_LENGTH 0) 0);
            Ccm.aes_encrypt k b := Gladman.aes_encrypt o b b k |}.
  intros k b Hb. unfold Gladman.aes_encrypt. by rewrite state_out_length.
Defined.
