(* ===== verification/AesCcmThms.v ===== *)
(** * AesCcmThms: the crypto module computes AES-CCM

    [ccm.c] on top of [aeskey.c] and [aescrypt.c]: counter mode with CBC-MAC of
    RFC 3610 with the cipher of FIPS 197. *)

From S2P Require Import Prelude Bytes Aes AesSpec Ccm CcmThms AesThms.
Import Rfc3610.

(** ** RFC 3610 uses the cipher on blocks of 16 bytes only *)

Definition block16 (b : list Z) : Prop := length b = 16%nat /\ bytes b.

Section ext.
Context (E E' : list Z -> list Z) (agree : forall b, block16 b -> E b = E' b) (closed : forall b, block16 b -> block16 (E' b)).

Lemma zip_block X B : block16 X -> block16 B -> block16 (zip_with Z.lxor X B).
Proof.
  intros [HX1 HX2] [HB1 HB2]. split; [rewrite length_zip_with; lia|]. clear HX1 HB1. revert B HB2.
  induction HX2 as [|x X Hx HX IH]; intros B HB; [constructor|]. destruct HB as [|b B Hb HB]; [constructor|].
  cbn [zip_with]. apply Forall_cons_2; [by apply lxor_byte|by apply IH].
Qed.

Lemma cbc_mac_ext X bs : block16 X -> Forall block16 bs -> cbc_mac E X bs = cbc_mac E' X bs /\ block16 (cbc_mac E' X bs).
Proof.
  intros HX Hbs. revert X HX. induction Hbs as [|b bs Hb Hbs IH]; intros X HX; [done|]. cbn [cbc_mac foldl].
  pose proof (zip_block X b HX Hb) as Hz. rewrite agree by done. by apply IH, closed.
Qed.

Lemma blocks_block d : bytes d -> Forall block16 (blocks d).
Proof.
  intros Hd. apply Forall_fmap, Forall_forall. intros i _. unfold compose, pad16.
  assert (length (slice (16 * i) 16 d) <= 16)%nat by (unfold slice; rewrite length_take; lia). split.
  - rewrite length_app, length_replicate. lia.
  - apply Forall_app_2; [by apply Forall_slice|]. apply Forall_replicate. split; lia.
Qed.

Section message.
Context (n : nat) (nonce : list Z) (Hn : (13 <= length nonce)%nat) (Hb : bytes nonce).
Abbreviation L := (field_length n).

Lemma A_block_block i : block16 (A_block L nonce i).
Proof.
  pose proof (field_length_cases n) as HL. split; [by apply A_block_length|]. unfold A_block.
  apply Forall_cons_2; [split; lia|]. apply Forall_app_2; [by apply Forall_take|apply be_enc_bytes].
Qed.

Lemma S_block_ext i : S_block E L nonce i = S_block E' L nonce i.
Proof. apply agree, A_block_block. Qed.

Lemma ctr_ext m : ctr E L nonce m = ctr E' L nonce m.
Proof. unfold ctr, ctr_from. apply imap_ext. intros j v _. by rewrite S_block_ext. Qed.

Lemma B_0_block n1 M adata : (2 <= M <= 16)%nat -> block16 (B_0 L nonce n1 M adata).
Proof.
  intros HM. pose proof (field_length_cases n) as HL. split.
  - unfold B_0. cbn [length]. rewrite length_app, length_take, be_enc_length. lia.
  - unfold B_0. apply Forall_cons_2; [|apply Forall_app_2; [by apply Forall_take|apply be_enc_bytes]].
    assert (0 <= (Z.of_nat M - 2) / 2 <= 7) by (split; [apply Z.div_pos; lia|apply Z.div_le_upper_bound; lia]).
    destruct adata; split; lia.
Qed.

Lemma tag_ext M a m : (2 <= M <= 16)%nat -> bytes a -> bytes m -> tag E L nonce M a m = tag E' L nonce M a m.
Proof.
  intros HM Ha Hm. unfold tag, mac. rewrite S_block_ext. do 2 f_equal. apply cbc_mac_ext.
  - split; [apply length_replicate|]. apply Forall_replicate. split; lia.
  - apply Forall_cons_2; [by apply B_0_block|]. apply Forall_app_2; apply blocks_block; [|done].
    unfold auth_string. destruct a; [done|]. apply Forall_app_2; [apply be_enc_bytes|done].
Qed.

Lemma ctr_bytes m : (forall i, bytes (S_block E' L nonce i)) -> bytes m -> bytes (ctr E' L nonce m).
Proof.
  intros HS Hm. apply Forall_lookup_2. intros j v Hv. unfold ctr, ctr_from in Hv.
  apply list_lookup_imap_Some in Hv as (x & Hx & ->). apply lxor_byte; [by eapply (Forall_lookup_1 is_byte)|].
  unfold byte_at. destruct (S_block E' L nonce _ !! _) eqn:Es; [|change (is_byte 0); split; lia]. by eapply (Forall_lookup_1 is_byte); [apply HS|].
Qed.
End message.
End ext.

(** ** The cipher of the module *)

Section module.
Context (o : Gladman.order) (key : list Z).
Hypothesis Hkey : length key ∈ [16; 24; 32]%nat.
Hypothesis Hbytes : bytes key.

Definition module_cipher : list Z -> list Z :=
  @aes_encrypt (gladman_aes o) (@aes_encrypt_key (gladman_aes o) key (length key)).

Lemma module_cipher_ok b : block16 b -> module_cipher b = FIPS197.AES_encrypt key b.
Proof.
  intros [Hl Hb]. unfold module_cipher. cbn [aes_encrypt aes_encrypt_key gladman_aes].
  destruct (encrypt_key_ok o key (Gladman.mkCtx (replicate Gladman.KS_LENGTH 0) 0) Hkey Hbytes (length_replicate _ _)) as (k & -> & Hs).
  apply (aes_encrypt_ok o k _ _ b b); try done.
  rewrite !elem_of_cons, elem_of_nil in *. destruct Hkey as [->|[->|[->|[]]]]; vm_compute; tauto.
Qed.

Lemma module_cipher_block b : block16 b -> block16 (FIPS197.AES_encrypt key b).
Proof.
  intros Hb. rewrite <- module_cipher_ok by done. split; [by apply (@aes_encrypt_length (gladman_aes o)), Hb|].
  apply state_out_bytes, Hb.
Qed.

Lemma module_tag n nonce M a m : (13 <= length nonce)%nat -> bytes nonce -> (2 <= M <= 16)%nat -> bytes a -> bytes m ->
  tag module_cipher (field_length n) nonce M a m = tag (FIPS197.AES_encrypt key) (field_length n) nonce M a m.
Proof. intros. by apply tag_ext; [apply module_cipher_ok|apply module_cipher_block|..]. Qed.

Lemma module_ctr n nonce m : (13 <= length nonce)%nat -> bytes nonce ->
  ctr module_cipher (field_length n) nonce m = ctr (FIPS197.AES_encrypt key) (field_length n) nonce m.
Proof. intros. by apply ctr_ext; [apply module_cipher_ok|..]. Qed.

Lemma module_ctr_bytes n nonce m : (13 <= length nonce)%nat -> bytes nonce -> bytes m ->
  bytes (ctr (FIPS197.AES_encrypt key) (field_length n) nonce m).
Proof. intros Hn Hb Hm. apply ctr_bytes; [by assumption..|intros i|by assumption]. exact (proj2 (module_cipher_block _ (A_block_block n nonce Hn Hb _))). Qed.
End module.


