(* ===== verification/CryptoUnit.v ===== *)
(** * The crypto unit

    [crypto/AesCcmCryptoUnit.cc]: signing and verifying, encrypting and
    decrypting packets with CCM, and the replay protection by the counter [iv]
    at the front of the nonce block.

    A packet is a buffer of bytes; the pointers [data], [noncep] and those of
    the [MemoryBlock]s are offsets into it (all callers pass blocks of the packet
    itself).  [addr] is the address of the buffer, [blk_addr] and [blk0] the
    address and the indeterminate content of the context [CCM_mode] creates. *)

From S2P Require Import Prelude Bytes NodeId Ccm.

(** [memcpy] from and to a buffer. *)
Definition mem_read (off n : nat) (buf : list Z) : outcome (list Z) :=
  if (off + n <=? length buf)%nat then Ok (slice off n buf) else Fail OutOfBounds.
Definition mem_write (off : nat) (bs buf : list Z) : outcome (list Z) :=
  if (off + length bs <=? length buf)%nat then Ok (splice off bs buf) else Fail OutOfBounds.

Record MemoryBlock := mkBlock { p : nat; size : nat }.

Record AesCcmCryptoUnit := mkUnit {
  key : list Z;
  nonce : list Z;
  lastIv : Z;
  ivMap : gmap NodeId Z;
}.

Definition set_lastIv v u := mkUnit (key u) (nonce u) v (ivMap u).
Definition set_ivMap v u := mkUnit (key u) (nonce u) (lastIv u) v.

(** The constructor: [random] are the 16 bytes of [getRandomByte], [key0] the
    indeterminate key. *)
Definition AesCcmCryptoUnit_new (key0 random : list Z) : AesCcmCryptoUnit :=
  mkUnit key0 (take 16 random) 0 ∅.

Definition setKey (k : list Z) (u : AesCcmCryptoUnit) : AesCcmCryptoUnit :=
  mkUnit (take 16 k) (nonce u) (lastIv u) (ivMap u).

Definition storeNonce (noncep : nat) (buf : list Z) (u : AesCcmCryptoUnit) :
    outcome (list Z * AesCcmCryptoUnit) :=
  buf ← mem_write (noncep + 8) (take 8 (nonce u)) buf;
  let u := set_lastIv (u64 (lastIv u + 1)) u in
  if negb (noncep + 8 <=? length buf)%nat then Fail OutOfBounds else
  let buf := toArray 8 (lastIv u) noncep buf in
  _ ← cassert (fromArray 8 noncep buf =? lastIv u);
  Ok (buf, u).

(** The saved bytes and the buffer with the areas cleared. *)
Fixpoint saveNonsignArea (sg : list MemoryBlock) (buf : list Z) : outcome (list Z * list Z) :=
  match sg with
  | [] => Ok ([], buf)
  | nonsign :: sg =>
      store ← mem_read (p nonsign) (size nonsign) buf;
      buf ← mem_write (p nonsign) (replicate (size nonsign) 0) buf;
      r ← saveNonsignArea sg buf;
      Ok (store ++ fst r, snd r)
  end.

Fixpoint restoreNonsignArea (store : list Z) (sg : list MemoryBlock) (buf : list Z) : outcome (list Z) :=
  match sg with
  | [] => Ok buf
  | nonsign :: sg =>
      bs ← mem_read 0 (size nonsign) store;
      buf ← mem_write (p nonsign) bs buf;
      restoreNonsignArea (drop (size nonsign) store) sg buf
  end.

Section unit.
Context `{AES}.
Variables (addr blk_addr : Z) (blk0 : list Z).

(** [CCM_mode(key, 16, noncep, auth, ad_len, msg, msg_len, 16, ed_flag)] on the packet. *)
Definition ccm_on (u : AesCcmCryptoUnit) (noncep : nat) (auth : list Z) (msg msg_len : nat) (ed_flag : bool)
    (buf : list Z) : outcome (Z * list Z) :=
  r ← CCM_mode (addr + Z.of_nat msg) blk_addr blk0 (key u) 16 (drop noncep buf) auth
        (drop msg buf) msg_len 16 ed_flag;
  Ok (fst r, take msg buf ++ snd r).

(** The part [sign] and [verifySignature] share: the non-signed areas saved,
    CCM over an empty message with the packet as additional data, the areas
    restored. *)
Definition mac_packet (u : AesCcmCryptoUnit) (data data_len : nat) (sg : option (list MemoryBlock))
    (ed_flag : bool) (buf : list Z) : outcome (Z * list Z) :=
  let noncep := (data + data_len)%nat in
  r ← (match sg with None => Ok ([], buf) | Some sg => saveNonsignArea sg buf end);
  let '(store, buf) := r : list Z * list Z in
  auth ← mem_read data (data_len + 16) buf;
  r ← ccm_on u noncep auth (noncep + 16) 0 ed_flag buf;
  let '(ret, buf) := r : Z * list Z in
  buf ← (match sg with None => Ok buf | Some sg => restoreNonsignArea store sg buf end);
  Ok (ret, buf).

Definition sign (data data_len : nat) (sg : option (list MemoryBlock)) (buf : list Z) (u : AesCcmCryptoUnit) :
    outcome (list Z * AesCcmCryptoUnit) :=
  r ← storeNonce (data + data_len) buf u;
  let '(buf, u) := r : list Z * AesCcmCryptoUnit in
  r ← mac_packet u data data_len sg false buf;
  Ok (snd r, u).

Definition verifyNonce (src : NodeId) (noncep : nat) (buf : list Z) (u : AesCcmCryptoUnit) :
    outcome (bool * AesCcmCryptoUnit) :=
  if negb (noncep + 8 <=? length buf)%nat then Fail OutOfBounds else
  let iv := fromArray 8 noncep buf in
  let m := match ivMap u !! src with
           | None => <[src := u64 (iv - 1)]> (ivMap u)
           | Some _ => ivMap u
           end in
  let second := default 0 (m !! src) in
  if iv <=? second then Ok (false, set_ivMap m u)
  else
    let u := set_ivMap (<[src := iv]> m) u in
    Ok (true, if lastIv u <? iv then set_lastIv iv u else u).

(** The verdict, the packet, the unit. *)
Definition verifySignature (src : NodeId) (data data_len : nat) (sg : option (list MemoryBlock))
    (buf : list Z) (u : AesCcmCryptoUnit) : outcome (bool * list Z * AesCcmCryptoUnit) :=
  r ← mac_packet u data data_len sg true buf;
  let '(ret, buf) := r : Z * list Z in
  v ← verifyNonce src (data + data_len) buf u;
  let '(ok, u) := v : bool * AesCcmCryptoUnit in
  if negb ok then Ok (false, buf, u) else Ok (0 <=? ret, buf, u).

(** The extra blocks are copied behind the nonce block. *)
Fixpoint append_blocks (auth_end : nat) (sg : list MemoryBlock) (buf : list Z) : outcome (nat * list Z) :=
  match sg with
  | [] => Ok (auth_end, buf)
  | b :: sg =>
      bs ← mem_read (p b) (size b) buf;
      buf ← mem_write auth_end bs buf;
      append_blocks (auth_end + size b) sg buf
  end.

Definition crypt (isDecrypt : bool) (data data_len : nat) (sg : option (list MemoryBlock)) (buf : list Z)
    (u : AesCcmCryptoUnit) : outcome (bool * list Z) :=
  let noncep := (data + data_len + 16)%nat in
  r ← append_blocks (noncep + 16) (default [] sg) buf;
  let '(auth_end, buf) := r : nat * list Z in
  auth ← mem_read noncep (auth_end - noncep) buf;
  r ← ccm_on u noncep auth data data_len isDecrypt buf;
  Ok (0 <=? fst r, snd r).

Definition encrypt (data data_len : nat) (sg : option (list MemoryBlock)) (buf : list Z) (u : AesCcmCryptoUnit) :
    outcome (list Z * AesCcmCryptoUnit) :=
  r ← storeNonce (data + data_len + 16) buf u;
  let '(buf, u) := r : list Z * AesCcmCryptoUnit in
  r ← crypt false data data_len sg buf u;
  Ok (snd r, u).

Definition decrypt (data data_len : nat) (sg : option (list MemoryBlock)) (buf : list Z) (u : AesCcmCryptoUnit) :
    outcome (bool * list Z) := crypt true data data_len sg buf u.

Definition decryptDupDetect (src : NodeId) (data data_len : nat) (sg : option (list MemoryBlock))
    (buf : list Z) (u : AesCcmCryptoUnit) : outcome (bool * list Z * AesCcmCryptoUnit) :=
  r ← decrypt data data_len sg buf u;
  let '(ret, buf) := r : bool * list Z in
  if negb ret then Ok (false, buf, u) else
  v ← verifyNonce src (data + data_len + 16) buf u;
  Ok (fst v, buf, snd v).
End unit.

(** [getRandomByte]: one [read] that returns [ret] bytes writes them at [cdest];
    the pointer then moves by the number of bytes still missing. *)
Fixpoint getRandomByte_loop (fuel : nat) (reads : list (list Z)) (cdest num : nat) (dest : list Z) :
    outcome (list Z) :=
  match num, fuel with
  | O, _ => Ok dest
  | S _, O => Fail OutOfFuel
  | S _, S fuel =>
      match reads with
      | [] => Fail OutOfFuel
      | bs :: reads =>
          let bs := take num bs in
          dest ← mem_write cdest bs dest;
          let num := (num - length bs)%nat in
          getRandomByte_loop fuel reads (cdest + num) num dest
      end
  end.

Definition getRandomByte (reads : list (list Z)) (num : nat) (dest : list Z) : outcome (list Z) :=
  getRandomByte_loop (length reads) reads 0 num dest.
