(* ===== verification/CryptoThms.v ===== *)
(** * The crypto unit: authenticity and replay protection

    A signed packet verifies at every station with the key whatever happened to
    the areas excluded from the signature; an encrypted packet decrypts to what
    was encrypted; over any sequence of operations of a unit the counters
    accepted from one source increase strictly.  The last theorem shows the
    limit of the replay protection: a packet that fails the verification still
    moves the counter. *)

From S2P Require Import Prelude Bytes NodeId Ccm CcmThms CryptoUnit.
Import Rfc3610.

(** ** Areas of a buffer *)

Definition covered (sg : list MemoryBlock) (i : nat) : Prop :=
  Exists (fun b => (p b <= i < p b + size b)%nat) sg.
#[export] Instance covered_dec sg i : Decision (covered sg i).
Proof. unfold covered. apply _. Defined.

Definition inside (lo hi : nat) (sg : list MemoryBlock) : Prop :=
  Forall (fun b => (lo <= p b /\ p b + size b <= hi)%nat) sg.
#[export] Instance inside_dec lo hi sg : Decision (inside lo hi sg).
Proof. unfold inside. apply _. Defined.

Definition disjoint_from (b : MemoryBlock) (sg : list MemoryBlock) : Prop :=
  Forall (fun c => (p b + size b <= p c \/ p c + size c <= p b)%nat) sg.

Fixpoint areas_disjoint (sg : list MemoryBlock) : Prop :=
  match sg with [] => True | b :: sg => disjoint_from b sg /\ areas_disjoint sg end.

(** [dst] with the areas overwritten from [src]. *)
Fixpoint copy_areas (sg : list MemoryBlock) (src dst : list Z) : list Z :=
  match sg with
  | [] => dst
  | b :: sg => copy_areas sg src (splice (p b) (slice (p b) (size b) src) dst)
  end.

Definition zeroed (sg : list MemoryBlock) (buf : list Z) : list Z :=
  copy_areas sg (replicate (length buf) 0) buf.

Definition stored (sg : list MemoryBlock) (buf : list Z) : list Z :=
  mjoin ((fun b => slice (p b) (size b) buf) <$> sg).

Lemma covered_cons b sg i :
  covered (b :: sg) i <-> (p b <= i < p b + size b)%nat \/ covered sg i.
Proof. apply Exists_cons. Qed.

Lemma inside_covered lo hi sg i : inside lo hi sg -> covered sg i -> (lo <= i < hi)%nat.
Proof.
  intros Hi Hc. apply Exists_exists in Hc as (b & Hb & Hr).
  apply (proj1 (Forall_forall _ _) Hi) in Hb. lia.
Qed.

Lemma copy_areas_length sg src dst n :
  length src = n -> length dst = n -> inside 0 n sg -> length (copy_areas sg src dst) = n.
Proof.
  intros Hs Hd Hi. revert dst Hd. induction Hi as [|b sg Hb Hi IH]; intros dst Hd; [done|]. cbn.
  apply IH. rewrite splice_length; [done|]. rewrite slice_length by lia. lia.
Qed.

Lemma copy_areas_lookup sg src dst n i :
  length src = n -> length dst = n -> inside 0 n sg ->
  copy_areas sg src dst !! i = if decide (covered sg i) then src !! i else dst !! i.
Proof.
  intros Hs Hd Hi. revert dst Hd. induction Hi as [|b sg Hb Hi IH]; intros dst Hd.
  - cbn. destruct (decide (covered [] i)) as [Hc|]; [by apply Exists_nil in Hc|done].
  - cbn. assert (length (slice (p b) (size b) src) = size b) as Hl by (apply slice_length; lia).
    rewrite IH by (rewrite splice_length; lia).
    destruct (decide (covered sg i)) as [Hc|Hc].
    + rewrite decide_True; [done|]. apply covered_cons. by right.
    + rewrite splice_lookup, Hl by lia. destruct (decide (p b <= i < p b + size b)%nat).
      * rewrite decide_True by (apply covered_cons; by left).
        rewrite slice_lookup by lia. f_equal. lia.
      * rewrite decide_False; [done|]. rewrite covered_cons. tauto.
Qed.

Lemma zeroed_length sg buf : inside 0 (length buf) sg -> length (zeroed sg buf) = length buf.
Proof. intros. apply copy_areas_length; [apply length_replicate|done..]. Qed.

(** Equal outside the areas: equal once the areas are cleared. *)
Lemma zeroed_eq sg buf buf' :
  length buf = length buf' -> inside 0 (length buf) sg ->
  (forall i, ~ covered sg i -> buf !! i = buf' !! i) -> zeroed sg buf = zeroed sg buf'.
Proof.
  intros Hl Hi He. apply list_eq. intros i. unfold zeroed.
  rewrite !(copy_areas_lookup _ _ _ (length buf)) by (rewrite ?length_replicate; congruence).
  rewrite Hl. case_decide; [done|auto].
Qed.

Lemma zeroed_drop sg buf lo hi k :
  inside lo hi sg -> (hi <= k)%nat -> (hi <= length buf)%nat -> drop k (zeroed sg buf) = drop k buf.
Proof.
  intros Hi Hk Hl. apply list_eq. intros i. rewrite !lookup_drop. unfold zeroed.
  rewrite (copy_areas_lookup _ _ _ (length buf)); [|by rewrite length_replicate|done|].
  2: { eapply Forall_impl; [exact Hi|]. cbn. lia. }
  rewrite decide_False; [done|]. intros Hc. apply (inside_covered _ _ _ _ Hi) in Hc. lia.
Qed.

Lemma replicate_slice off n k : (off + n <= k)%nat -> slice off n (replicate k 0) = replicate n 0.
Proof. intros. unfold slice. rewrite drop_replicate, take_replicate. f_equal. lia. Qed.

Lemma slice_prefix (l1 l2 : list Z) n : length l1 = n -> slice 0 n (l1 ++ l2) = l1.
Proof. intros. unfold slice. by rewrite drop_0, take_app_length'. Qed.

Lemma mem_read_ok off n buf : (off + n <= length buf)%nat -> mem_read off n buf = Ok (slice off n buf).
Proof. intros. unfold mem_read. by rewrite (proj2 (Nat.leb_le _ _)). Qed.

Lemma mem_write_ok off bs buf :
  (off + length bs <= length buf)%nat -> mem_write off bs buf = Ok (splice off bs buf).
Proof. intros. unfold mem_write. by rewrite (proj2 (Nat.leb_le _ _)). Qed.

Lemma stored_other b sg bs buf :
  (p b + length bs <= length buf)%nat -> length bs = size b -> disjoint_from b sg ->
  stored sg (splice (p b) bs buf) = stored sg buf.
Proof.
  intros Hl Hs Hd. unfold stored. f_equal. apply list_fmap_ext. intros i c Hc.
  apply (Forall_lookup_1 _ _ _ _ Hd) in Hc. apply slice_splice_disjoint; lia.
Qed.

Lemma save_ok sg buf :
  inside 0 (length buf) sg -> areas_disjoint sg ->
  saveNonsignArea sg buf = Ok (stored sg buf, zeroed sg buf).
Proof.
  intros Hi. revert buf Hi. induction sg as [|b sg IH]; intros buf Hi Hd; [done|].
  apply Forall_cons in Hi as [Hb Hi]. destruct Hd as [Hdb Hd]. cbn [saveNonsignArea].
  rewrite mem_read_ok, outcome_ret_bind by lia.
  rewrite mem_write_ok, outcome_ret_bind by (rewrite length_replicate; lia).
  assert (length (splice (p b) (replicate (size b) 0) buf) = length buf) as Hl
    by (apply splice_length; rewrite length_replicate; lia).
  rewrite IH by (rewrite ?Hl; done). rewrite outcome_ret_bind. cbn [fst snd].
  rewrite stored_other by (rewrite ?length_replicate; done || lia).
  unfold zeroed. cbn [copy_areas]. rewrite Hl. by rewrite replicate_slice by lia.
Qed.

Lemma restore_ok sg src dst :
  length src = length dst -> inside 0 (length dst) sg ->
  restoreNonsignArea (stored sg src) sg dst = Ok (copy_areas sg src dst).
Proof.
  intros Hs Hi. revert dst Hs Hi. induction sg as [|b sg IH]; intros dst Hs Hi; [done|].
  apply Forall_cons in Hi as [Hb Hi]. cbn [restoreNonsignArea].
  change (stored (b :: sg) src) with (slice (p b) (size b) src ++ stored sg src).
  assert (length (slice (p b) (size b) src) = size b) as Hl by (apply slice_length; lia).
  rewrite mem_read_ok, outcome_ret_bind by (rewrite length_app; lia).
  rewrite slice_prefix by done.
  rewrite mem_write_ok, outcome_ret_bind by lia. rewrite drop_app_length' by done.
  assert (length (splice (p b) (slice (p b) (size b) src) dst) = length dst) as Hl'
    by (apply splice_length; lia).
  cbn [copy_areas]. apply IH; rewrite Hl'; done.
Qed.

(** Writing behind the areas between saving and restoring them. *)
Lemma restore_after_write sg buf off bs hi :
  inside 0 hi sg -> (hi <= off)%nat -> (off + length bs <= length buf)%nat ->
  copy_areas sg buf (splice off bs (zeroed sg buf)) = splice off bs buf.
Proof.
  intros Hi Hh Hl. assert (inside 0 (length buf) sg) as Hin.
  { eapply Forall_impl; [exact Hi|]. cbn. lia. }
  pose proof (zeroed_length _ _ Hin) as Hz. apply list_eq. intros i.
  rewrite (copy_areas_lookup _ _ _ (length buf)) by (rewrite ?splice_length; done || lia).
  rewrite !splice_lookup by lia. case_decide as Hc.
  - apply (inside_covered _ _ _ _ Hi) in Hc. by rewrite decide_False by lia.
  - case_decide; [done|]. unfold zeroed.
    rewrite (copy_areas_lookup _ _ _ (length buf)) by (rewrite ?length_replicate; done).
    by rewrite decide_False.
Qed.

Section unit.
Context `{AES}.
Implicit Types (u : AesCcmCryptoUnit) (buf : list Z) (sg : list MemoryBlock).

Definition cipher u : list Z -> list Z := aes_encrypt (aes_encrypt_key (key u) 16).

(** The authentication value of a packet: over the packet and its nonce block
    with the excluded areas cleared. *)
Definition packet_tag u (data data_len : nat) sg buf : list Z :=
  let a := slice data (data_len + 16) (zeroed sg buf) in
  tag (cipher u) (field_length 0) (drop data_len a) 16 a [].

(** CCM reads at most 13 bytes of the nonce block. *)
Lemma nonce_prefix (nonce nonce' : list Z) k :
  take 13 nonce = take 13 nonce' -> (k <= 13)%nat -> take k nonce = take k nonce'.
Proof.
  intros Hn Hk. apply (f_equal (take k)) in Hn. rewrite !take_take in Hn.
  by replace (k `min` 13)%nat with k in Hn by lia.
Qed.

Lemma A_block_nonce L nonce nonce' i :
  take 13 nonce = take 13 nonce' -> (2 <= L)%nat -> A_block L nonce i = A_block L nonce' i.
Proof. intros Hn HL. unfold A_block. by rewrite (nonce_prefix nonce nonce') by (done || lia). Qed.

Lemma tag_nonce_gen E L nonce nonce' M a m :
  take 13 nonce = take 13 nonce' -> (2 <= L)%nat -> tag E L nonce M a m = tag E L nonce' M a m.
Proof.
  intros Hn HL. unfold tag, mac, B_0, S_block. rewrite (A_block_nonce L nonce nonce') by done.
  by rewrite (nonce_prefix nonce nonce') by (done || lia).
Qed.

Lemma ctr_nonce E L nonce nonce' m :
  take 13 nonce = take 13 nonce' -> (2 <= L)%nat -> ctr E L nonce m = ctr E L nonce' m.
Proof.
  intros Hn HL. apply imap_ext. intros i v _. unfold S_block.
  by rewrite (A_block_nonce L nonce nonce') by done.
Qed.

Lemma tag_nonce E nonce nonce' M a m :
  take 13 nonce = take 13 nonce' -> tag E (field_length 0) nonce M a m = tag E (field_length 0) nonce' M a m.
Proof. intros Hn. apply tag_nonce_gen; [done|]. change (field_length 0) with 2%nat. lia. Qed.

Lemma nonce_in_packet data data_len (z : list Z) :
  take 13 (drop (data + data_len) z) = take 13 (drop data_len (slice data (data_len + 16) z)).
Proof.
  unfold slice. rewrite <- drop_drop, skipn_firstn_comm.
  replace (data_len + 16 - data_len)%nat with 16%nat by lia. by rewrite take_take.
Qed.

(** Room for the two crypto blocks, excluded areas inside the packet. *)
Record packet_ok (data data_len : nat) sg buf : Prop := {
  pk_room : (data + data_len + 32 <= length buf)%nat;
  pk_len : Z.of_nat (data_len + 16) < 65536 - 256;
  pk_areas : inside data (data + data_len) sg;
  pk_disjoint : areas_disjoint sg;
}.

Definition ctx_place (blk0 : list Z) (blk_addr : Z) : Prop := length blk0 = 16%nat /\ blk_addr mod 4 = 0.

Lemma packet_areas data data_len sg buf n :
  packet_ok data data_len sg buf -> (data + data_len <= n)%nat -> inside 0 n sg.
Proof. intros Hp Hn. eapply Forall_impl; [apply (pk_areas _ _ _ _ Hp)|]. cbn. lia. Qed.

Lemma packet_inside data data_len sg buf :
  packet_ok data data_len sg buf -> inside 0 (length buf) sg.
Proof. intros Hp. eapply packet_areas; [exact Hp|]. pose proof (pk_room _ _ _ _ Hp). lia. Qed.

Lemma packet_params data data_len sg buf blk0 blk_addr :
  packet_ok data data_len sg buf -> ctx_place blk0 blk_addr ->
  ccm_params 16 (drop (data + data_len) (zeroed sg buf)) (slice data (data_len + 16) (zeroed sg buf)) 16
    blk0 blk_addr.
Proof.
  intros Hp [Hb Ha]. pose proof (pk_room _ _ _ _ Hp). pose proof (pk_len _ _ _ _ Hp).
  pose proof (zeroed_length sg buf (packet_inside _ _ _ _ Hp)) as Hz.
  split; [auto|split; [lia|done]| | |done|done].
  - rewrite slice_length by (rewrite Hz; lia). done.
  - rewrite length_drop, Hz. lia.
Qed.

Lemma packet_tag_length u data data_len sg buf :
  packet_ok data data_len sg buf -> length (packet_tag u data data_len sg buf) = 16%nat.
Proof.
  intros Hp. unfold packet_tag. erewrite tag_nonce by (symmetry; apply nonce_in_packet).
  eapply tag_length. apply (packet_params _ _ _ _ (replicate 16 0) 0 Hp). by split.
Qed.

Lemma splice_at_drop {A} off (bs l : list A) n :
  length bs = n -> take off l ++ bs ++ drop n (drop off l) = splice off bs l.
Proof. intros <-. unfold splice. by rewrite drop_drop. Qed.

Lemma mac_none addr blk_addr blk0 u data data_len f buf :
  mac_packet addr blk_addr blk0 u data data_len None f buf =
  mac_packet addr blk_addr blk0 u data data_len (Some []) f buf.
Proof. done. Qed.

Lemma mac_sign addr blk_addr blk0 u data data_len sg buf :
  packet_ok data data_len sg buf -> ctx_place blk0 blk_addr ->
  mac_packet addr blk_addr blk0 u data data_len (Some sg) false buf =
    Ok (16, splice (data + data_len + 16) (packet_tag u data data_len sg buf) buf).
Proof.
  intros Hp Hc. pose proof (packet_tag_length u _ _ _ _ Hp) as Ht.
  pose proof (pk_room _ _ _ _ Hp) as Hr. pose proof (pk_disjoint _ _ _ _ Hp) as Hd.
  pose proof (packet_inside _ _ _ _ Hp) as Hin.
  pose proof (zeroed_length _ _ Hin) as Hz.
  unfold mac_packet. rewrite save_ok, outcome_ret_bind by done.
  rewrite mem_read_ok, outcome_ret_bind by lia. unfold ccm_on.
  pose proof (encrypt_result (key u) 16 _ _ 16 blk0 blk_addr (packet_params _ _ _ _ _ _ Hp Hc)
    (addr + Z.of_nat (data + data_len + 16)) [] (drop (data + data_len + 16) (zeroed sg buf))) as He.
  cbv zeta in He. change (length []) with 0%nat in He. cbn [app] in He.
  rewrite He by (rewrite ?length_drop; lia). rewrite !outcome_ret_bind. cbn [fst snd].
  change (ctr _ _ _ []) with (@nil Z). cbn [app].
  rewrite (tag_nonce _ _ _ _ _ _ (nonce_in_packet data data_len (zeroed sg buf))).
  fold (cipher u). fold (packet_tag u data data_len sg buf). rewrite splice_at_drop by done.
  rewrite restore_ok by (rewrite ?splice_length; rewrite ?Hz, ?Ht; done || lia).
  rewrite outcome_ret_bind.
  rewrite (restore_after_write _ _ _ _ (data + data_len)) by (lia || by eapply packet_areas).
  done.
Qed.

Lemma mac_verify addr blk_addr blk0 u data data_len sg buf :
  packet_ok data data_len sg buf -> ctx_place blk0 blk_addr ->
  mac_packet addr blk_addr blk0 u data data_len (Some sg) true buf =
    Ok (if bool_decide (slice (data + data_len + 16) 16 buf = packet_tag u data data_len sg buf) then (0, buf)
        else (CCM_auth_failure, splice (data + data_len + 16) (replicate 16 0) buf)).
Proof.
  intros Hp Hc. pose proof (pk_room _ _ _ _ Hp) as Hr. pose proof (pk_disjoint _ _ _ _ Hp) as Hd.
  pose proof (packet_inside _ _ _ _ Hp) as Hin. pose proof (zeroed_length _ _ Hin) as Hz.
  set (q := (data + data_len + 16)%nat). set (z := zeroed sg buf) in *.
  assert (drop q z = drop q buf) as Hq.
  { eapply zeroed_drop; [apply (pk_areas _ _ _ _ Hp)|lia..]. }
  assert (slice q 16 z = slice q 16 buf) as Hs by (unfold slice; by rewrite Hq).
  assert (length (slice q 16 buf) = 16%nat) as Hl by (apply slice_length; lia).
  unfold mac_packet. rewrite save_ok, outcome_ret_bind by done. fold z.
  rewrite mem_read_ok, outcome_ret_bind by lia. unfold ccm_on. fold q.
  pose proof (decrypt_result (key u) 16 _ _ 16 blk0 blk_addr (packet_params _ _ _ _ _ _ Hp Hc)
    (addr + Z.of_nat q) [] (slice q 16 buf) (drop 16 (drop q z))) as He.
  cbv zeta in He. change (length []) with 0%nat in He. cbn [app] in He. fold z in He.
  assert (slice q 16 buf ++ drop 16 (drop q z) = drop q z) as Hsp
    by (rewrite <- Hs; unfold slice; apply take_drop).
  rewrite Hsp in He. rewrite He by done. rewrite !outcome_ret_bind. clear He.
  change (ctr _ _ _ []) with (@nil Z). cbn [app].
  rewrite (tag_nonce _ _ _ _ _ _ (nonce_in_packet data data_len z)).
  fold (cipher u). change (tag (cipher u) _ _ 16 _ []) with (packet_tag u data data_len sg buf).
  assert (forall w, (length w <= 16)%nat ->
            restoreNonsignArea (stored sg buf) sg (splice q w z) = Ok (splice q w buf)) as Hres.
  { intros w Hw'. rewrite restore_ok by (rewrite ?splice_length; rewrite ?Hz; done || lia).
    unfold z. by rewrite (restore_after_write _ _ _ _ (data + data_len)) by (lia || by eapply packet_areas). }
  case_bool_decide as Ht; cbn [fst snd].
  - rewrite take_drop, <- (splice_nil q z), Hres by (cbn; lia). by rewrite splice_nil.
  - rewrite splice_at_drop, Hres by (rewrite ?length_replicate; lia). done.
Qed.

(** ** The counter *)

Definition fresh u (src : NodeId) (iv : Z) : Prop :=
  match ivMap u !! src with None => iv <> 0 | Some old => old < iv end.
#[global] Instance fresh_dec u src iv : Decision (fresh u src iv).
Proof. unfold fresh. destruct (ivMap u !! src); apply _. Defined.

(** The unit after an attempt with the counter [iv]. *)
Definition after_nonce u (src : NodeId) (iv : Z) : AesCcmCryptoUnit :=
  if decide (fresh u src iv) then
    mkUnit (key u) (nonce u) (Z.max (lastIv u) iv) (<[src := iv]> (ivMap u))
  else match ivMap u !! src with
       | None => set_ivMap (<[src := u64 (iv - 1)]> (ivMap u)) u
       | Some _ => u
       end.

Lemma verifyNonce_spec u src noncep buf :
  (noncep + 8 <= length buf)%nat ->
  let iv := fromArray 8 noncep buf in 0 <= iv < 2 ^ 64 ->
  verifyNonce src noncep buf u = Ok (bool_decide (fresh u src iv), after_nonce u src iv).
Proof.
  intros Hl iv Hiv. unfold verifyNonce. rewrite (proj2 (Nat.leb_le _ _)) by done. cbn [negb]. fold iv.
  unfold after_nonce.
  assert (forall w v, (if lastIv w <? v then set_lastIv v w else w) =
            mkUnit (key w) (nonce w) (Z.max (lastIv w) v) (ivMap w)) as Hmax.
  { intros [a b c d] v. unfold set_lastIv. cbn. destruct (Z.ltb_spec c v); f_equal; lia. }
  destruct (ivMap u !! src) as [old|] eqn:E; cbn [from_option default].
  - rewrite E. cbn [from_option id default].
    destruct (Z.leb_spec iv old).
    + rewrite bool_decide_false, decide_False by (unfold fresh; rewrite E; lia). by destruct u.
    + rewrite bool_decide_true, decide_True by (unfold fresh; rewrite E; lia). by rewrite Hmax.
  - rewrite lookup_insert_eq. cbn [from_option id default]. unfold wrap.
    destruct (decide (iv = 0)) as [E0|E0].
    + rewrite E0. change ((0 - 1) mod 2 ^ 64) with (2 ^ 64 - 1). cbn [Z.leb].
      rewrite (proj2 (Z.leb_le 0 (2 ^ 64 - 1))) by lia.
      rewrite bool_decide_false, decide_False by (unfold fresh; rewrite E; lia). done.
    + rewrite Z.mod_small, (proj2 (Z.leb_gt iv (iv - 1))) by lia.
      rewrite bool_decide_true, decide_True by (unfold fresh; rewrite E; lia). rewrite Hmax. cbn [set_ivMap ivMap key nonce lastIv].
      by rewrite insert_insert_eq.
Qed.

(** ** Storing the nonce block *)

Definition unit_ok u : Prop := length (nonce u) = 16%nat /\ bytes (nonce u).

Definition next_iv u : Z := u64 (lastIv u + 1).

Definition nonce_block u : list Z := be_enc 8 (next_iv u) ++ take 8 (nonce u).

Lemma nonce_block_length u : unit_ok u -> length (nonce_block u) = 16%nat.
Proof. intros [Hn _]. unfold nonce_block. rewrite length_app, be_enc_length, length_take. lia. Qed.

Lemma nonce_block_bytes u : unit_ok u -> bytes (nonce_block u).
Proof. intros [_ Hb]. apply Forall_app_2; [apply be_enc_bytes|by apply Forall_take]. Qed.

Lemma next_iv_range u : 0 <= next_iv u < 2 ^ 64.
Proof. apply wrap_range. lia. Qed.

Lemma splice_adjacent off (l1 l2 buf : list Z) :
  (off + length l1 + length l2 <= length buf)%nat ->
  splice off l1 (splice (off + length l1) l2 buf) = splice off (l1 ++ l2) buf.
Proof.
  intros Hl. apply list_eq. intros i.
  rewrite !splice_lookup by (rewrite ?splice_length, ?length_app; lia).
  rewrite length_app. repeat case_decide; try lia; try done.
  - by rewrite lookup_app_l by lia.
  - rewrite lookup_app_r by lia. f_equal. lia.
Qed.

Lemma storeNonce_ok u noncep buf :
  unit_ok u -> bytes buf -> (noncep + 16 <= length buf)%nat ->
  storeNonce noncep buf u = Ok (splice noncep (nonce_block u) buf, set_lastIv (next_iv u) u).
Proof.
  intros [Hn Hb] Hbuf Hl. unfold storeNonce.
  assert (length (take 8 (nonce u)) = 8%nat) as H8 by (rewrite length_take; lia).
  rewrite mem_write_ok, outcome_ret_bind by lia.
  rewrite splice_length, (proj2 (Nat.leb_le _ _)) by lia. cbn [negb].
  change (lastIv (set_lastIv _ _)) with (next_iv u).
  rewrite fromArray_toArray_same.
  - change (256 ^ Z.of_nat 8) with (2 ^ 64). pose proof (next_iv_range u).
    rewrite Z.mod_small, Z.eqb_refl by lia. change (cassert true) with (Ok tt).
    rewrite outcome_ret_bind. do 2 f_equal.
    rewrite toArray_spec by (rewrite splice_length; lia).
    pose proof (splice_adjacent noncep (be_enc 8 (next_iv u)) (take 8 (nonce u)) buf) as Ha.
    rewrite be_enc_length in Ha. apply Ha. lia.
  - rewrite splice_length; lia.
  - apply Forall_splice; [by apply Forall_take|done].
Qed.

Lemma nonce_iv u noncep buf :
  unit_ok u -> bytes buf -> (noncep + 16 <= length buf)%nat ->
  fromArray 8 noncep (splice noncep (nonce_block u) buf) = next_iv u.
Proof.
  intros Hu Hb Hl. pose proof (nonce_block_length u Hu) as H16.
  rewrite fromArray_spec.
  - assert (slice noncep 8 (splice noncep (nonce_block u) buf) = be_enc 8 (next_iv u)) as ->.
    { apply list_eq. intros i. destruct (decide (i < 8)%nat).
      - rewrite slice_lookup, splice_lookup, decide_True by lia. unfold nonce_block.
        rewrite lookup_app_l by (rewrite be_enc_length; lia). f_equal. lia.
      - rewrite !lookup_ge_None_2; rewrite ?be_enc_length; try lia; [done|].
        unfold slice. rewrite length_take. lia. }
    pose proof (next_iv_range u). by apply be_dec_enc_id.
  - rewrite splice_length; lia.
  - apply Forall_splice; [by apply nonce_block_bytes|done].
Qed.

(** The authentication value depends on the signed bytes only. *)
Lemma packet_tag_agree u u' data data_len sg buf buf' :
  key u = key u' -> packet_ok data data_len sg buf -> packet_ok data data_len sg buf' ->
  (forall i, (i < data + data_len + 16)%nat -> ~ covered sg i -> buf !! i = buf' !! i) ->
  packet_tag u data data_len sg buf = packet_tag u' data data_len sg buf'.
Proof.
  intros Hk Hp Hp' He. unfold packet_tag, cipher. rewrite Hk.
  pose proof (packet_inside _ _ _ _ Hp). pose proof (packet_inside _ _ _ _ Hp').
  pose proof (pk_room _ _ _ _ Hp). pose proof (pk_room _ _ _ _ Hp').
  assert (slice data (data_len + 16) (zeroed sg buf) = slice data (data_len + 16) (zeroed sg buf')) as ->;
    [|done].
  apply list_eq. intros i. destruct (decide (i < data_len + 16)%nat) as [Hi|Hi].
  - rewrite !slice_lookup by done. unfold zeroed.
    rewrite (copy_areas_lookup sg _ buf (length buf)), (copy_areas_lookup sg _ buf' (length buf'))
      by (rewrite ?length_replicate; done).
    case_decide; [|apply He; [lia|done]]. rewrite !lookup_replicate_2 by lia. done.
  - rewrite !lookup_ge_None_2; [done|unfold slice; rewrite length_take; lia..].
Qed.

Lemma packet_ok_length data data_len sg buf buf' :
  packet_ok data data_len sg buf -> length buf' = length buf -> packet_ok data data_len sg buf'.
Proof. intros [] Hl. split; rewrite ?Hl; done. Qed.

Lemma sign_ok addr blk_addr blk0 data data_len (sg : option (list MemoryBlock)) buf u :
  unit_ok u -> bytes buf -> packet_ok data data_len (default [] sg) buf -> ctx_place blk0 blk_addr ->
  let q := (data + data_len)%nat in
  let buf1 := splice q (nonce_block u) buf in
  sign addr blk_addr blk0 data data_len sg buf u =
    Ok (splice (q + 16) (packet_tag u data data_len (default [] sg) buf1) buf1, set_lastIv (next_iv u) u).
Proof.
  intros Hu Hb Hp Hc q buf1. pose proof (nonce_block_length u Hu) as H16.
  pose proof (pk_room _ _ _ _ Hp). unfold sign.
  rewrite storeNonce_ok, outcome_ret_bind by (done || lia). fold q. fold buf1.
  assert (packet_ok data data_len (default [] sg) buf1) as Hp1.
  { eapply packet_ok_length; [exact Hp|]. unfold buf1. rewrite splice_length; lia. }
  assert (mac_packet addr blk_addr blk0 (set_lastIv (next_iv u) u) data data_len sg false buf1 =
          mac_packet addr blk_addr blk0 (set_lastIv (next_iv u) u) data data_len (Some (default [] sg)) false buf1)
    as -> by (destruct sg; [done|apply mac_none]).
  rewrite mac_sign by done. rewrite outcome_ret_bind. cbn [snd].
  by rewrite (packet_tag_agree _ u _ _ _ buf1 buf1).
Qed.

Lemma verify_ok addr blk_addr blk0 src data data_len (sg : option (list MemoryBlock)) buf u :
  bytes buf -> packet_ok data data_len (default [] sg) buf -> ctx_place blk0 blk_addr ->
  let q := (data + data_len)%nat in
  let iv := fromArray 8 q buf in
  let good := bool_decide (slice (q + 16) 16 buf = packet_tag u data data_len (default [] sg) buf) in
  verifySignature addr blk_addr blk0 src data data_len sg buf u =
    Ok (bool_decide (fresh u src iv) && good,
        if good then buf else splice (q + 16) (replicate 16 0) buf, after_nonce u src iv).
Proof.
  intros Hb Hp Hc q iv good. pose proof (pk_room _ _ _ _ Hp). unfold verifySignature.
  assert (mac_packet addr blk_addr blk0 u data data_len sg true buf =
          mac_packet addr blk_addr blk0 u data data_len (Some (default [] sg)) true buf)
    as -> by (destruct sg; [done|apply mac_none]).
  rewrite mac_verify, outcome_ret_bind by done. fold q. fold good.
  set (buf' := if good then buf else _).
  assert ((if good then (0, buf) else (CCM_auth_failure, splice (q + 16) (replicate 16 0) buf)) =
          (if good then 0 else CCM_auth_failure, buf')) as -> by (unfold buf'; by destruct good).
  assert (length buf' = length buf) as Hl.
  { unfold buf'. destruct good; [done|]. rewrite splice_length; rewrite ?length_replicate; lia. }
  assert (fromArray 8 q buf' = iv) as Hiv.
  { unfold iv. rewrite !fromArray_spec by (lia || done ||
      (unfold buf'; destruct good; [done|apply Forall_splice; [by apply Forall_replicate|done]])).
    f_equal. unfold buf'. destruct good; [done|].
    apply slice_splice_disjoint; rewrite ?length_replicate; lia. }
  rewrite verifyNonce_spec, Hiv; [|lia|rewrite Hiv; apply (fromArray_range 8 q buf); [lia|done]].
  rewrite outcome_ret_bind. destruct (bool_decide (fresh u src iv)); [|done]. by destruct good.
Qed.

(** ** Encryption *)

Lemma splice_app_r (l1 l2 bs : list Z) :
  (length bs <= length l2)%nat -> splice (length l1) bs (l1 ++ l2) = l1 ++ bs ++ drop (length bs) l2.
Proof.
  intros Hl. unfold splice. rewrite take_app_length. do 2 f_equal.
  rewrite drop_app_ge by lia. f_equal. lia.
Qed.

Lemma stored_prefix sg (l1 l2 : list Z) : inside 0 (length l1) sg -> stored sg (l1 ++ l2) = stored sg l1.
Proof.
  intros Hi. unfold stored. f_equal. apply list_fmap_ext. intros i b Hb.
  apply (Forall_lookup_1 _ _ _ _ Hi) in Hb. unfold slice.
  rewrite drop_app_le, take_app_le by (rewrite ?length_drop; lia). done.
Qed.

(** The blocks appended behind the nonce block. *)
Lemma append_blocks_ok sg (hd l1 l2 : list Z) :
  inside 0 (length hd) sg -> (length (stored sg hd) <= length l2)%nat ->
  append_blocks (length (hd ++ l1)) sg (hd ++ l1 ++ l2) =
    Ok (length (hd ++ l1 ++ stored sg hd), hd ++ l1 ++ stored sg hd ++ drop (length (stored sg hd)) l2).
Proof.
  intros Hi. revert l1 l2. induction Hi as [|b sg Hb Hi IH]; intros l1 l2 Hl.
  - cbn. by rewrite app_nil_r.
  - change (stored (b :: sg) hd) with (slice (p b) (size b) hd ++ stored sg hd) in *.
    set (w := slice (p b) (size b) hd) in *.
    assert (length w = size b) as Hw by (apply slice_length; lia).
    assert (slice (p b) (size b) (hd ++ l1 ++ l2) = w) as Hsl.
    { unfold w, slice. rewrite drop_app_le, take_app_le by (rewrite ?length_drop; lia). done. }
    rewrite length_app in Hl. cbn [append_blocks].
    rewrite mem_read_ok, outcome_ret_bind, Hsl by (rewrite !length_app; lia).
    rewrite mem_write_ok, outcome_ret_bind by (rewrite !length_app; lia).
    rewrite (app_assoc hd l1 l2), splice_app_r, <- (app_assoc hd) by lia.
    rewrite (app_assoc l1 w), <- Hw.
    replace (length (hd ++ l1) + length w)%nat with (length (hd ++ l1 ++ w)) by (rewrite !length_app; lia).
    rewrite IH by (rewrite length_drop; lia). by rewrite <- !app_assoc, drop_drop, <- length_app.
Qed.

(** A packet that is encrypted: header, message, the two crypto blocks, room. *)
Section crypt.
Context (addr blk_addr : Z) (blk0 : list Z) u (sg : option (list MemoryBlock)) (hd : list Z).
Let areas := default [] sg.
Let auth (n : list Z) : list Z := n ++ stored areas hd.
Context (Hc : ctx_place blk0 blk_addr) (Hi : inside 0 (length hd) areas).
Context (Ha : Z.of_nat (16 + length (stored areas hd)) < 65536 - 256).

Definition body_tag (n m : list Z) : list Z := tag (cipher u) (field_length (length m)) n 16 (auth n) m.
Definition body_ctr (n m : list Z) : list Z := ctr (cipher u) (field_length (length m)) n m.

Lemma crypt_setup f m t n r :
  length t = 16%nat -> length n = 16%nat -> (length (stored areas hd) <= length r)%nat ->
  let r' := stored areas hd ++ drop (length (stored areas hd)) r in
  crypt addr blk_addr blk0 f (length hd) (length m) sg (hd ++ m ++ t ++ n ++ r) u =
    (x ← CCM_mode (addr + Z.of_nat (length hd)) blk_addr blk0 (key u) 16 (n ++ r') (auth n)
           (m ++ t ++ n ++ r') (length m) 16 f;
     Ok (0 <=? fst x, hd ++ snd x)).
Proof.
  intros Ht Hn Hr r'. unfold crypt. fold areas.
  replace (length hd + length m + 16 + 16)%nat with (length (hd ++ m ++ t ++ n)) by (rewrite !length_app; lia).
  pose proof (append_blocks_ok areas hd (m ++ t ++ n) r Hi Hr) as E. rewrite <- !app_assoc in E.
  rewrite E, outcome_ret_bind. fold r'.
  replace (hd ++ m ++ t ++ n ++ r') with ((hd ++ m ++ t) ++ n ++ r') by (by rewrite <- !app_assoc).
  replace (length hd + length m + 16)%nat with (length (hd ++ m ++ t)) by (rewrite !length_app; lia).
  rewrite mem_read_ok, outcome_ret_bind by (unfold r'; rewrite !length_app; lia).
  assert (slice (length (hd ++ m ++ t)) (length (hd ++ m ++ t ++ n ++ stored areas hd) - length (hd ++ m ++ t))
            ((hd ++ m ++ t) ++ n ++ r') = auth n) as ->.
  { unfold slice, auth, r'. rewrite drop_app_length, (app_assoc n). apply take_app_length'.
    rewrite !length_app. lia. }
  unfold ccm_on. rewrite drop_app_length, <- !app_assoc, drop_app_length, take_app_length.
  by destruct (CCM_mode _ _ _ _ _ _ _ _ _ _ _).
Qed.

Lemma crypt_params (n r : list Z) :
  length n = 16%nat -> ccm_params 16 (n ++ r) (auth n) 16 blk0 blk_addr.
Proof.
  intros Hn. destruct Hc. split; [auto|split; [lia|done]| | |done|done].
  - unfold auth. rewrite length_app, Hn. done.
  - rewrite length_app. lia.
Qed.

Lemma nonce_head (n r : list Z) : length n = 16%nat -> take 13 (n ++ r) = take 13 n.
Proof. intros. rewrite take_app_le by lia. done. Qed.

Lemma field_length_ge m : (2 <= field_length m)%nat.
Proof. pose proof (field_length_cases m). lia. Qed.

Lemma crypt_enc m t n r :
  length t = 16%nat -> length n = 16%nat -> (length (stored areas hd) <= length r)%nat ->
  Z.of_nat (length m) < 2 ^ 32 ->
  crypt addr blk_addr blk0 false (length hd) (length m) sg (hd ++ m ++ t ++ n ++ r) u =
    Ok (true, hd ++ body_ctr n m ++ body_tag n m ++ n ++
              stored areas hd ++ drop (length (stored areas hd)) r).
Proof.
  intros Ht Hn Hr Hm. rewrite crypt_setup by done. set (r' := stored areas hd ++ drop (length (stored areas hd)) r).
  pose proof (encrypt_result (key u) 16 _ _ 16 blk0 blk_addr (crypt_params n r' Hn)
    (addr + Z.of_nat (length hd)) m (t ++ n ++ r') Hm) as E. cbv zeta in E.
  rewrite E, outcome_ret_bind by (rewrite length_app; lia). cbn [fst snd].
  rewrite (tag_nonce_gen _ _ (n ++ r') n), (ctr_nonce _ _ (n ++ r') n)
    by (by apply nonce_head || apply field_length_ge).
  rewrite drop_app_length' by done. by rewrite (proj2 (Z.leb_le 0 _)) by lia.
Qed.

Lemma crypt_dec m n r :
  length n = 16%nat -> (length (stored areas hd) <= length r)%nat -> Z.of_nat (length m) < 2 ^ 32 ->
  crypt addr blk_addr blk0 true (length hd) (length m) sg
    (hd ++ body_ctr n m ++ body_tag n m ++ n ++ r) u =
    Ok (true, hd ++ m ++ body_tag n m ++ n ++ stored areas hd ++ drop (length (stored areas hd)) r).
Proof.
  intros Hn Hr Hm.
  assert (length (body_ctr n m) = length m) as Hl by apply ctr_from_length.
  assert (length (body_tag n m) = 16%nat) as Ht.
  { eapply tag_length. pose proof (crypt_params n [] Hn) as HP. rewrite app_nil_r in HP. exact HP. }
  rewrite <- Hl at 1. rewrite crypt_setup by done. set (r' := stored areas hd ++ drop (length (stored areas hd)) r).
  pose proof (decrypt_result (key u) 16 _ _ 16 blk0 blk_addr (crypt_params n r' Hn)
    (addr + Z.of_nat (length hd)) (body_ctr n m) (body_tag n m) (n ++ r')) as E. cbv zeta in E.
  rewrite E by (rewrite ?Hl; done). rewrite outcome_ret_bind, Hl.
  rewrite (ctr_nonce _ _ (n ++ r') n) by (by apply nonce_head || apply field_length_ge).
  fold (cipher u).
  assert (ctr (cipher u) (field_length (length m)) n (body_ctr n m) = m) as -> by apply ctr_from_involutive.
  rewrite (tag_nonce_gen _ _ (n ++ r') n) by (by apply nonce_head || apply field_length_ge).
  fold (body_tag n m). rewrite bool_decide_true by done. cbn [fst snd].
  by rewrite (proj2 (Z.leb_le 0 _)) by lia.
Qed.
End crypt.

(** The counter read back from the nonce block, whatever surrounds it. *)
Lemma fromArray_ext sz off (a : list Z) off' (b : list Z) :
  (forall i, (i < sz)%nat -> byte_at a (off + i) = byte_at b (off' + i)) ->
  fromArray sz off a = fromArray sz off' b.
Proof.
  intros Hb. unfold fromArray. generalize (8 * Z.of_nat sz) as w. intros w.
  assert (forall n i d, (i + n <= sz)%nat -> fromArray_loop w n i d off a = fromArray_loop w n i d off' b) as Hl;
    [|by apply Hl].
  induction n as [|n IH]; intros i d Hn; cbn [fromArray_loop]; [done|].
  rewrite (Hb i) by lia. apply IH. lia.
Qed.

Lemma nonce_iv_at u (l1 l2 : list Z) :
  unit_ok u -> fromArray 8 (length l1) (l1 ++ nonce_block u ++ l2) = next_iv u.
Proof.
  intros Hu. pose proof (nonce_block_length u Hu) as H16.
  rewrite <- (nonce_iv u 0 (replicate 16 0) Hu) by (done || by apply Forall_replicate).
  apply fromArray_ext. intros i Hi. unfold byte_at. f_equal.
  rewrite lookup_app_r, splice_lookup, decide_True by (rewrite ?length_replicate; lia).
  rewrite lookup_app_l by lia. f_equal. lia.
Qed.

Lemma decryptDup_ok addr blk_addr blk0 u u' src (sg : option (list MemoryBlock)) (hd m r : list Z) :
  let areas := default [] sg in
  let t := body_tag u' sg hd (nonce_block u) m in
  ctx_place blk0 blk_addr -> inside 0 (length hd) areas ->
  Z.of_nat (16 + length (stored areas hd)) < 65536 - 256 -> unit_ok u ->
  (length (stored areas hd) <= length r)%nat -> Z.of_nat (length m) < 2 ^ 32 ->
  decryptDupDetect addr blk_addr blk0 src (length hd) (length m) sg
    (hd ++ body_ctr u' (nonce_block u) m ++ t ++ nonce_block u ++ r) u' =
    Ok (bool_decide (fresh u' src (next_iv u)),
        hd ++ m ++ t ++ nonce_block u ++ stored areas hd ++ drop (length (stored areas hd)) r,
        after_nonce u' src (next_iv u)).
Proof.
  intros areas t Hc Hi Ha Hu Hr Hm. pose proof (nonce_block_length u Hu) as H16.
  unfold decryptDupDetect, decrypt. rewrite crypt_dec by done. rewrite outcome_ret_bind. cbn [negb].
  fold t. fold areas. set (r' := stored areas hd ++ _).
  assert (length t = 16%nat) as Ht.
  { eapply tag_length. pose proof (crypt_params blk_addr blk0 sg hd Hc Ha (nonce_block u) [] H16) as HP.
    rewrite app_nil_r in HP. exact HP. }
  replace (hd ++ m ++ t ++ nonce_block u ++ r') with ((hd ++ m ++ t) ++ nonce_block u ++ r')
    by (by rewrite <- !app_assoc).
  replace (length hd + length m + 16)%nat with (length (hd ++ m ++ t)) by (rewrite !length_app; lia).
  rewrite verifyNonce_spec; rewrite ?nonce_iv_at by done; [done| |apply next_iv_range].
  rewrite !length_app, H16. lia.
Qed.

(** ** Sequences of operations *)

(** The calls of a unit's interface, each with the place of the packet and of
    the context of [CCM_mode]. *)
Inductive event :=
| Sign (place : Z * Z * list Z) (data data_len : nat) (sg : option (list MemoryBlock)) (buf : list Z)
| Verify (place : Z * Z * list Z) (src : NodeId) (data data_len : nat) (sg : option (list MemoryBlock)) (buf : list Z)
| Encrypt (place : Z * Z * list Z) (data data_len : nat) (sg : option (list MemoryBlock)) (buf : list Z)
| DecryptDup (place : Z * Z * list Z) (src : NodeId) (data data_len : nat) (sg : option (list MemoryBlock)) (buf : list Z).

(** The source and the counter of the packet, if it is accepted. *)
Definition do_event (e : event) u : outcome (option (NodeId * Z) * AesCcmCryptoUnit) :=
  match e with
  | Sign (a, ba, b0) data len sg buf => r ← sign a ba b0 data len sg buf u; Ok (None, snd r)
  | Encrypt (a, ba, b0) data len sg buf => r ← encrypt a ba b0 data len sg buf u; Ok (None, snd r)
  | Verify (a, ba, b0) src data len sg buf =>
      r ← verifySignature a ba b0 src data len sg buf u;
      let '(v, buf, u) := r : bool * list Z * AesCcmCryptoUnit in
      Ok (if v then Some (src, fromArray 8 (data + len) buf) else None, u)
  | DecryptDup (a, ba, b0) src data len sg buf =>
      r ← decryptDupDetect a ba b0 src data len sg buf u;
      let '(v, buf, u) := r : bool * list Z * AesCcmCryptoUnit in
      Ok (if v then Some (src, fromArray 8 (data + len + 16) buf) else None, u)
  end.

(** The packets accepted over a sequence of calls, in order. *)
Fixpoint run (es : list event) u : outcome (list (NodeId * Z) * AesCcmCryptoUnit) :=
  match es with
  | [] => Ok ([], u)
  | e :: es =>
      r ← do_event e u;
      let '(acc, u) := r : option (NodeId * Z) * AesCcmCryptoUnit in
      r ← run es u;
      Ok (option_list acc ++ fst r, snd r)
  end.

(** The counters of the map only grow. *)
Definition ivs_grow u u' : Prop :=
  forall s m, ivMap u !! s = Some m -> exists m', ivMap u' !! s = Some m' /\ m <= m'.

Definition accepts u u' (acc : option (NodeId * Z)) : Prop :=
  ivs_grow u u' /\
  match acc with
  | None => True
  | Some (src, iv) => ivMap u' !! src = Some iv /\ (forall old, ivMap u !! src = Some old -> old < iv)
  end.

#[local] Instance ivs_grow_refl : Reflexive ivs_grow.
Proof. intros u s m E. exists m. split; [done|lia]. Qed.
#[local] Instance ivs_grow_trans : Transitive ivs_grow.
Proof.
  intros u1 u2 u3 H12 H23 s m E. apply H12 in E as (m' & E & ?). apply H23 in E as (m'' & E & ?).
  exists m''. split; [done|lia].
Qed.

Lemma verifyNonce_accepts src noncep buf u v u' :
  verifyNonce src noncep buf u = Ok (v, u') ->
  accepts u u' (if v then Some (src, fromArray 8 noncep buf) else None).
Proof.
  unfold verifyNonce. case_match; [done|]. set (iv := fromArray 8 noncep buf). clearbody iv.
  set (m := match ivMap u !! src with Some _ => _ | None => _ end).
  assert (forall s x, ivMap u !! s = Some x -> m !! s = Some x) as Hm.
  { intros s x E. unfold m. destruct (ivMap u !! src) eqn:Es; [done|].
    rewrite lookup_insert_ne; [done|]. intros ->. congruence. }
  destruct (Z.leb_spec iv (default 0 (m !! src))) as [Hle|Hgt]; intros [= <- <-].
  - split; [|done]. intros s x E. exists x. split; [by apply Hm|lia].
  - assert (forall (c : bool) w, ivMap (if c then set_lastIv iv w else w) = ivMap w) as Hw
      by (by intros []).
    split.
    + intros s x E. rewrite Hw. cbn. apply Hm in E. destruct (decide (s = src)) as [->|].
      * rewrite lookup_insert_eq. rewrite E in Hgt. cbn in Hgt. exists iv. split; [done|lia].
      * rewrite lookup_insert_ne by done. exists x. split; [done|lia].
    + rewrite Hw. cbn. rewrite lookup_insert_eq. split; [done|].
      intros old E. apply Hm in E. rewrite E in Hgt. done.
Qed.

Lemma storeNonce_ivMap noncep buf u r : storeNonce noncep buf u = Ok r -> ivMap (snd r) = ivMap u.
Proof.
  unfold storeNonce. intros E. apply outcome_bind_ok in E as (b1 & _ & E). case_match; [done|].
  apply outcome_bind_ok in E as (? & _ & E). by injection E as <-.
Qed.

Lemma do_event_accepts e u acc u' : do_event e u = Ok (acc, u') -> accepts u u' acc.
Proof.
  destruct e as [[[a ba] b0] data len sg buf|[[a ba] b0] src data len sg buf
                |[[a ba] b0] data len sg buf|[[a ba] b0] src data len sg buf]; cbn [do_event]; intros E;
    apply outcome_bind_ok in E as (r & E & Er).
  - injection Er as <- <-. unfold sign in E. apply outcome_bind_ok in E as ([b1 u1] & E1 & E).
    apply outcome_bind_ok in E as (? & _ & E). injection E as <-.
    apply storeNonce_ivMap in E1. cbn in *. split; [|done]. intros s m Es. exists m. rewrite E1. split; [done|lia].
  - destruct r as [[v b] u1]. injection Er as <- <-. unfold verifySignature in E.
    apply outcome_bind_ok in E as ([ret b1] & _ & E). apply outcome_bind_ok in E as ([ok u2] & E2 & E).
    apply verifyNonce_accepts in E2. destruct ok; cbn [negb] in E; injection E as <- <- <-; [|done].
    destruct (0 <=? ret); [done|]. by destruct E2.
  - injection Er as <- <-. unfold encrypt in E. apply outcome_bind_ok in E as ([b1 u1] & E1 & E).
    apply outcome_bind_ok in E as (? & _ & E). injection E as <-.
    apply storeNonce_ivMap in E1. cbn in *. split; [|done]. intros s m Es. exists m. rewrite E1. split; [done|lia].
  - destruct r as [[v b] u1]. injection Er as <- <-. unfold decryptDupDetect in E.
    apply outcome_bind_ok in E as ([ret b1] & _ & E). destruct ret; cbn [negb] in E.
    + apply outcome_bind_ok in E as ([ok u2] & E2 & E). injection E as <- <- <-.
      by apply verifyNonce_accepts in E2.
    + injection E as <- <- <-. by split.
Qed.

Lemma run_increasing es u log u' :
  run es u = Ok (log, u') ->
  ivs_grow u u' /\
  (forall i s a, log !! i = Some (s, a) -> forall old, ivMap u !! s = Some old -> old < a) /\
  (forall i j s a b, (i < j)%nat -> log !! i = Some (s, a) -> log !! j = Some (s, b) -> a < b).
Proof.
  revert u log u'. induction es as [|e es IH]; intros u log u' E; cbn [run] in E.
  - injection E as <- <-. split_and!; [done|intros i ? ? Hi; by rewrite lookup_nil in Hi|].
    intros i j ? ? ? ? Hi. by rewrite lookup_nil in Hi.
  - apply outcome_bind_ok in E as ([acc u1] & E1 & E). apply outcome_bind_ok in E as ([log1 u2] & E2 & E).
    injection E as <- <-. cbn [fst snd]. apply do_event_accepts in E1 as [Hg Ha].
    apply IH in E2 as (Hg2 & Hold & Hinc).
    assert (forall i s a, log1 !! i = Some (s, a) -> forall old, ivMap u !! s = Some old -> old < a) as Hold1.
    { intros i s a Hi old Ho. apply Hg in Ho as (m & Hm & ?). pose proof (Hold i s a Hi m Hm). lia. }
    split; [by etransitivity|].
    destruct acc as [[src iv]|]; cbn [option_list app]; [|done]. destruct Ha as [Hnew Hlt].
    split.
    + intros [|i] s a Hi; cbn in Hi; [|by eapply Hold1]. injection Hi as -> ->. done.
    + intros [|i] [|j] s a b Hij Hi Hj; cbn in Hi, Hj; try lia; [|eapply Hinc; [|done..]; lia].
      injection Hi as -> ->. by apply (Hold j s b Hj).
Qed.
End unit.

(** ** The properties *)

(** C20. A signed packet verifies: [sign] changes only the two crypto blocks
    behind the packet, and a station with the same key accepts the packet if its
    counter is fresh, even if the areas excluded from the signature (the last hop
    and the TTL of a flooded packet) were changed on the way.  The packet is
    left as it was received. *)
Theorem signed_packet_verifies `{AES} addr blk_addr blk0 addr' blk_addr' blk0' data data_len
    (sg : option (list MemoryBlock)) buf u u' src :
  unit_ok u -> bytes buf -> packet_ok data data_len (default [] sg) buf ->
  ctx_place blk0 blk_addr -> ctx_place blk0' blk_addr' -> key u' = key u ->
  exists signed, sign addr blk_addr blk0 data data_len sg buf u = Ok (signed, set_lastIv (next_iv u) u) /\
    length signed = length buf /\
    (forall i, (i < data + data_len \/ data + data_len + 32 <= i)%nat -> signed !! i = buf !! i) /\
    forall received, length received = length signed -> bytes received ->
      (forall i, ~ covered (default [] sg) i -> received !! i = signed !! i) ->
      verifySignature addr' blk_addr' blk0' src data data_len sg received u' =
        Ok (bool_decide (fresh u' src (next_iv u)), received, after_nonce u' src (next_iv u)).
Proof.
  intros Hu Hb Hp Hc Hc' Hk. rewrite sign_ok by done. set (q := (data + data_len)%nat).
  set (b1 := splice q (nonce_block u) buf). set (t := packet_tag u data data_len (default [] sg) b1).
  pose proof (pk_room _ _ _ _ Hp) as Hr. pose proof (nonce_block_length u Hu) as H16.
  assert (length b1 = length buf) as Hb1 by (apply splice_length; lia).
  assert (packet_ok data data_len (default [] sg) b1) as Hp1 by (by eapply packet_ok_length).
  assert (length t = 16%nat) as Ht by (by apply packet_tag_length).
  assert (length (splice (q + 16) t b1) = length buf) as Hl by (rewrite splice_length; lia).
  eexists. split; [done|]. split; [done|]. split.
  - intros i Hi. rewrite splice_lookup, decide_False by lia.
    unfold b1. by rewrite splice_lookup, decide_False by lia.
  - intros received Hlr Hbr Her. rewrite Hl in Hlr.
    assert (packet_ok data data_len (default [] sg) received) as Hpr
      by exact (packet_ok_length _ _ _ _ _ Hp Hlr).
    assert (forall i, (q <= i)%nat -> ~ covered (default [] sg) i) as Hnc.
    { intros i Hi Hcov. apply (inside_covered _ _ _ _ (pk_areas _ _ _ _ Hp)) in Hcov. lia. }
    rewrite verify_ok by done. fold q.
    assert (fromArray 8 q received = next_iv u) as ->.
    { rewrite <- (nonce_iv u q buf) by (done || lia). fold b1.
      rewrite !fromArray_spec by (done || lia ||
        (unfold b1; apply Forall_splice; [by apply nonce_block_bytes|done])).
      f_equal. apply list_eq. intros i. destruct (decide (i < 8)%nat).
      - rewrite !slice_lookup by lia. rewrite Her by (apply Hnc; lia).
        by rewrite splice_lookup, decide_False by lia.
      - rewrite !lookup_ge_None_2; [done|unfold slice; rewrite length_take; lia..]. }
    assert (slice (q + 16) 16 received = packet_tag u' data data_len (default [] sg) received) as Hgood.
    { rewrite (packet_tag_agree u' u _ _ _ received b1); [|done..|].
      - fold t. rewrite <- (slice_splice_same (q + 16) t b1), Ht by lia.
        apply list_eq. intros i. destruct (decide (i < 16)%nat).
        + rewrite !slice_lookup by lia. apply Her, Hnc. lia.
        + rewrite !lookup_ge_None_2; [done|unfold slice; rewrite length_take; lia..].
      - intros i Hi Hcov. rewrite Her by done. by rewrite splice_lookup, decide_False by lia. }
    by rewrite (bool_decide_true _ Hgood), andb_true_r.
Qed.

Definition ex_unit (id : Z) : AesCcmCryptoUnit := mkUnit (replicate 16 42) (replicate 16 id) 5 ∅.

(** A packet of 12 bytes, the bytes 9 and 10 excluded. *)
Lemma signed_packet_verifies_witness : exists signed,
  @sign toy_aes 0 0 (replicate 16 0) 0 12 (Some [mkBlock 9 2]) (replicate 44 1) (ex_unit 1) =
    Ok (signed, set_lastIv 6 (ex_unit 1)) /\
  @verifySignature toy_aes 3 8 (replicate 16 9) 77 0 12 (Some [mkBlock 9 2]) (<[9%nat := 2]> signed) (ex_unit 2) =
    Ok (true, <[9%nat := 2]> signed, after_nonce (ex_unit 2) 77 6).
Proof.
  destruct (@signed_packet_verifies toy_aes 0 0 (replicate 16 0) 3 8 (replicate 16 9) 0 12 (Some [mkBlock 9 2])
    (replicate 44 1) (ex_unit 1) (ex_unit 2) 77) as (signed & Hs & Hl & _ & Hv).
  - by split; [|apply Forall_replicate].
  - by apply Forall_replicate.
  - split; [cbn; lia|lia| |by repeat constructor]. apply (bool_decide_unpack _). by vm_compute.
  - done.
  - done.
  - done.
  - exists signed. split; [exact Hs|].
    apply (Hv (<[9%nat := 2]> signed)).
    + apply length_insert.
    + vm_compute in Hs. injection Hs as <-. apply (bool_decide_unpack _). by vm_compute.
    + intros i Hi. rewrite list_lookup_insert_ne; [done|]. intros <-. apply Hi. left. cbn. lia.
Defined.



(** C16. Replay protection: over every sequence of calls of a unit (signing,
    verifying, encrypting, decrypting, in any order and with any packets) the
    counters of the packets accepted from one source increase strictly, so no
    packet is accepted twice. *)
Theorem accepted_counters_increase `{AES} es u log u' i j src a b :
  run es u = Ok (log, u') -> (i < j)%nat ->
  log !! i = Some (src, a) -> log !! j = Some (src, b) -> a < b.
Proof. intros E. eapply run_increasing; exact E. Qed.

Definition ex_packet (n : nat) : list Z :=
  match @sign toy_aes 0 0 (replicate 16 0) 0 12 None (replicate 44 1) (set_lastIv (Z.of_nat n) (ex_unit 1)) with
  | Ok r => fst r | Fail _ => [] end.

Definition ex_events : list event :=
  (fun n => Verify (0, 0, replicate 16 0) 77 0 12 None (ex_packet n)) <$> [1; 1; 3; 2]%nat.

(** Of the counters 2, 2, 4, 3 the second and the last are refused. *)
Lemma accepted_counters_increase_witness :
  (exists u', @run toy_aes ex_events (ex_unit 2) = Ok ([(77, 2); (77, 4)], u')) /\ 2 < 4.
Proof.
  assert (exists u', @run toy_aes ex_events (ex_unit 2) = Ok ([(77, 2); (77, 4)], u')) as [u' E].
  { eexists. vm_compute. reflexivity. }
  split; [by exists u'|].
  apply (@accepted_counters_increase toy_aes ex_events (ex_unit 2) _ u' 0 1 77 2 4 E); [lia|reflexivity|reflexivity].
Defined.

(** C32. A forged packet silences a source: [verifySignature] refuses a packet
    with a wrong authentication value but stores its counter, and from then on
    refuses every packet of that source whose counter is not larger, however
    authentic. *)
Theorem forged_packet_blocks_source `{AES} addr blk_addr blk0 data data_len sg forged u src buf :
  bytes forged -> packet_ok data data_len (default [] sg) forged -> ctx_place blk0 blk_addr ->
  bytes buf -> packet_ok data data_len (default [] sg) buf ->
  let q := (data + data_len)%nat in
  slice (q + 16) 16 forged <> packet_tag u data data_len (default [] sg) forged ->
  fresh u src (fromArray 8 q forged) -> fromArray 8 q buf <= fromArray 8 q forged ->
  exists b1 u1, verifySignature addr blk_addr blk0 src data data_len sg forged u = Ok (false, b1, u1) /\
    exists b2 u2, verifySignature addr blk_addr blk0 src data data_len sg buf u1 = Ok (false, b2, u2).
Proof.
  intros Hbf Hpf Hc Hb Hp q Ht Hfr Hle. rewrite verify_ok by done. fold q.
  rewrite (bool_decide_false _ Ht), andb_false_r. eexists _, _. split; [done|].
  rewrite verify_ok by done. fold q. rewrite bool_decide_false; [eexists _, _; done|].
  unfold after_nonce. rewrite decide_True by done. unfold fresh. cbn [ivMap].
  rewrite lookup_insert_eq. lia.
Qed.

Definition ex_forged : list Z := replicate 12 1 ++ replicate 8 255 ++ replicate 24 0.

Lemma forged_packet_blocks_source_witness : exists b1 u1,
  @verifySignature toy_aes 0 0 (replicate 16 0) 77 0 12 None ex_forged (ex_unit 2) = Ok (false, b1, u1) /\
  exists b2 u2, @verifySignature toy_aes 0 0 (replicate 16 0) 77 0 12 None (ex_packet 1) u1 = Ok (false, b2, u2).
Proof.
  apply (@forged_packet_blocks_source toy_aes 0 0 (replicate 16 0) 0 12 None ex_forged (ex_unit 2) 77 (ex_packet 1)).
  - apply (bool_decide_unpack _). by vm_compute.
  - split; [cbn; lia|lia|constructor|done].
  - done.
  - apply (bool_decide_unpack _). by vm_compute.
  - split; [vm_compute; lia|lia|constructor|done].
  - vm_compute. discriminate.
  - apply (bool_decide_unpack _). by vm_compute.
  - vm_compute. discriminate.
Defined.

(** After a short [read] of less than half of the bytes, [getRandomByte]
    continues at the wrong place and writes behind the end of the buffer. *)
Theorem short_read_overruns (a b dest : list Z) (n : nat) :
  length dest = n -> (0 < length a)%nat -> (2 * length a < n)%nat -> length b = (n - length a)%nat ->
  getRandomByte [a; b] n dest = Fail OutOfBounds.
Proof.
  intros Hd H0 Ha Hb. unfold getRandomByte. cbn [length].
  destruct n as [|n]; [lia|]. cbn [getRandomByte_loop].
  rewrite take_ge, mem_write_ok, outcome_ret_bind by lia.
  destruct (S n - length a)%nat as [|k] eqn:Ek; [lia|]. cbn [getRandomByte_loop].
  rewrite take_ge by lia. unfold mem_write.
  by rewrite splice_length, (proj2 (Nat.leb_gt _ _)) by lia.
Qed.

Lemma short_read_overruns_witness :
  getRandomByte [replicate 4 1; replicate 12 2] 16 (replicate 16 0) = Fail OutOfBounds.
Proof. apply (short_read_overruns (replicate 4 1) (replicate 12 2) (replicate 16 0) 16); cbn; lia. Defined.
