(* ===== verification/Neighbors.v ===== *)
(** * Neighbors: beacons and the neighbour table

    [awds/settings.h], [awds/NodeDescr.h], [beacon.cc], and the neighbour table of
    [AwdsRouting] ([awds/AwdsRouting.h], [AwdsRouting.cc]): the descriptors of the
    stations beacons were received from, sorted by identifier, the reference
    counts of the two-hop neighbours, and the beacon packets they point to.

    The array [neighbors] of 40 cells is the list of its first [numNeigh] cells.
    Packets live in a heap with the reference counts of [BasePacket], so sharing,
    release and use after release are those of the source.  [now] is
    [GEA.lastEventTime]. *)

From S2P Require Import Prelude Bytes NodeId Packet.

(** ** Settings *)

Definition BEACON_INTERVAL : Z := 1400.
Definition TOPO_INTERVAL : Z := 1000.
Definition NR_BEACON_TRIGGER_FAIL : Z := 8.
Definition MaxNeighbors : nat := 40.

(** ** [NodeDescr] *)

Record NodeDescr := mkDescr {
  id : NodeId;
  lastBeacon : option Z;     (* address of a packet *)
  lastBeaconTime : Z;
  beaconInterval : Z;
  linkValidity : Z;
  beaconHist : Z;            (* 32 bits *)
  active : bool;
  mpr : bool;
}.

Definition NodeDescr_new : NodeDescr := mkDescr 0 None 0 0 0 0 false false.

Definition set_linkValidity v d := mkDescr (id d) (lastBeacon d) (lastBeaconTime d) (beaconInterval d) v (beaconHist d) (active d) (mpr d).
Definition set_hist v d := mkDescr (id d) (lastBeacon d) (lastBeaconTime d) (beaconInterval d) (linkValidity d) v (active d) (mpr d).
Definition set_active v d := mkDescr (id d) (lastBeacon d) (lastBeaconTime d) (beaconInterval d) (linkValidity d) (beaconHist d) v (mpr d).
Definition set_mpr v d := mkDescr (id d) (lastBeacon d) (lastBeaconTime d) (beaconInterval d) (linkValidity d) (beaconHist d) (active d) v.
Definition set_last q t iv d := mkDescr (id d) q t iv (linkValidity d) (beaconHist d) (active d) (mpr d).

Definition init (i : NodeId) (q t : Z) (d : NodeDescr) : NodeDescr :=
  mkDescr i (Some q) t (beaconInterval d) (linkValidity d) 0 false true.

Definition isGood (d : NodeDescr) : bool := active d.

(** Whether the node became active, and the descriptor. *)
Definition updateActive (d : NodeDescr) : bool * NodeDescr :=
  let d := set_linkValidity (lastBeaconTime d + beaconInterval d * NR_BEACON_TRIGGER_FAIL) d in
  let last12received := 0xFFF00000 <? beaconHist d in
  if negb (active d) && last12received then (true, set_active true d) else (false, d).

Definition updateInactive (now : Z) (d : NodeDescr) : bool * NodeDescr :=
  let lastBeacon2old := linkValidity d <=? now in
  if active d && lastBeacon2old then (true, set_active false d) else (false, d).

Definition isExpired (now : Z) (d : NodeDescr) : bool :=
  negb (active d) && (lastBeaconTime d + beaconInterval d * 32 <? now).

(** [do { ++n; } while (0 != (x = x & (x-1)))] *)
Fixpoint quality_loop (fuel : nat) (x n : Z) : outcome Z :=
  match fuel with
  | O => Fail OutOfFuel
  | S fuel =>
      let n := u8 (n + 1) in
      let x := Z.land x (u32 (x - 1)) in
      if x =? 0 then Ok n else quality_loop fuel x n
  end.

Definition quality (d : NodeDescr) : outcome Z :=
  let x := beaconHist d in
  n ← (if x =? 0 then Ok 0 else quality_loop 32 x 0);
  _ ← cassert (0 <? n);
  Ok n.

(** ** The neighbour list of a beacon *)

(** The node identifier number [m] of the list; the index may be negative. *)
Definition neigh_at (m : Z) (buf : list Z) : outcome NodeId :=
  let off := Z.of_nat Beacon.OffsetLNeigh + m * 6 in
  if (0 <=? off) && (off + 6 <=? Z.of_nat (length buf))
  then Ok (AbstractID6.fromArray (Z.to_nat off) buf) else Fail OutOfBounds.

(** [while (a != b)] *)
Fixpoint hasNeighBinsearch (fuel : nat) (a b : Z) (i : NodeId) (buf : list Z) : outcome bool :=
  if a =? b then Ok false else
  match fuel with
  | O => Fail OutOfFuel
  | S fuel =>
      let m := Z.quot (a + b) 2 in
      mId ← neigh_at m buf;
      if mId =? i then Ok true
      else if mId <? i then hasNeighBinsearch fuel (m + 1) b i buf
      else hasNeighBinsearch fuel a m i buf
  end.

(** The counters are at most 127, so 255 rounds are more than the search of a
    sorted list takes. *)
Definition search_fuel : nat := 255.

Definition hasMpr (i : NodeId) (p : BasePacket) : outcome bool :=
  hasNeighBinsearch search_fuel 0 (Beacon.getNumMpr p) i (buffer p).
Definition hasNoMpr (i : NodeId) (p : BasePacket) : outcome bool :=
  let a := Beacon.getNumMpr p in
  hasNeighBinsearch search_fuel a (a + Beacon.getNumNoMpr p) i (buffer p).
Definition hasNeigh (i : NodeId) (p : BasePacket) : outcome bool :=
  b ← hasMpr i p; if (b : bool) then Ok true else hasNoMpr i p.

(** The loops of [setNeigh]: the identifiers of the selected neighbours from
    [addr] on; the number of them and the end. *)
Fixpoint put_neigh (sel : NodeDescr -> bool) (ns : list NodeDescr) (addr : nat) (n : Z) (buf : list Z) :
    outcome (nat * Z * list Z) :=
  match ns with
  | [] => Ok (addr, n, buf)
  | d :: ns =>
      if sel d then
        if (addr + 6 <=? length buf)%nat
        then put_neigh sel ns (addr + 6) (n + 1) (AbstractID6.toArray (id d) addr buf)
        else Fail OutOfBounds
      else put_neigh sel ns addr n buf
  end.

Definition setNeigh (ns : list NodeDescr) (p : BasePacket) : outcome BasePacket :=
  r ← put_neigh (fun d => isGood d && mpr d) ns Beacon.OffsetLNeigh 0 (buffer p);
  let '(addr, numMpr, buf) := r : nat * Z * list Z in
  r ← put_neigh (fun d => isGood d && negb (mpr d)) ns addr 0 buf;
  let '(_, numNoMpr, buf) := r : nat * Z * list Z in
  let p := Beacon.setNumNoMpr numNoMpr (Beacon.setNumMpr numMpr (set_buffer buf p)) in
  Ok (set_size (Z.of_nat Beacon.OffsetLNeigh + (numMpr + numNoMpr) * 6) p).

(** ** Two-hop neighbours *)

Record Hop2RefCount := mkHop2 { stat : Z; dyn : Z }.    (* [short] *)
Abbreviation Hop2List := (gmap NodeId Hop2RefCount).

Definition s16_inc (v : Z) : Z := swrap 16 (v + 1).
Definition s16_dec (v : Z) : Z := swrap 16 (v - 1).

(** The identifiers a loop [for (i = 0; i < n; ++i)] over the list reads. *)
Fixpoint read_ids (n : nat) (m : Z) (buf : list Z) : outcome (list NodeId) :=
  match n with
  | O => Ok []
  | S n => i ← neigh_at m buf; l ← read_ids n (m + 1) buf; Ok (i :: l)
  end.

Definition list_ids (p : BasePacket) : outcome (list NodeId) :=
  read_ids (Z.to_nat (Beacon.getNumNoMpr p + Beacon.getNumMpr p)) 0 (buffer p).

(** The constructor [Hop2RefCount(1)] leaves [dyn] indeterminate. *)
Definition add_one (n2hop : NodeId) (h : Hop2List) : Hop2List :=
  match h !! n2hop with
  | None => <[n2hop := mkHop2 1 0]> h
  | Some c => <[n2hop := mkHop2 (s16_inc (stat c)) (dyn c)]> h
  end.

Definition add2Hop (p : BasePacket) (h : Hop2List) : outcome Hop2List :=
  l ← list_ids p; Ok (foldl (fun h i => add_one i h) h l).

Definition remove_one (n2hop : NodeId) (h : Hop2List) : outcome Hop2List :=
  match h !! n2hop with
  | None => Fail AssertFail
  | Some c =>
      let s := s16_dec (stat c) in
      Ok (if s =? 0 then delete n2hop h else <[n2hop := mkHop2 s (dyn c)]> h)
  end.

Fixpoint remove_all (l : list NodeId) (h : Hop2List) : outcome Hop2List :=
  match l with [] => Ok h | i :: l => h ← remove_one i h; remove_all l h end.

Definition remove2Hop (p : BasePacket) (h : Hop2List) : outcome Hop2List :=
  l ← list_ids p; remove_all l h.

(** The calculation of multipoint relays is disabled by an early return. *)
Definition tryRemoveFromMpr (p : BasePacket) (h : Hop2List) : bool := true.

(** ** The neighbour table *)

Record nstate := mkN {
  packets : gmap Z BasePacket;     (* live packets by address *)
  neighbors : list NodeDescr;
  hop2list : Hop2List;
  linkFail : option Z;             (* the time [linkFailBlocker] waits for *)
  fired : list (Z * Z * Z);        (* send callbacks called by [unref] *)
}.

Definition set_packets v s := mkN v (neighbors s) (hop2list s) (linkFail s) (fired s).
Definition set_neighbors v s := mkN (packets s) v (hop2list s) (linkFail s) (fired s).
Definition set_hop2list v s := mkN (packets s) (neighbors s) v (linkFail s) (fired s).
Definition set_linkFail v s := mkN (packets s) (neighbors s) (hop2list s) v (fired s).
Definition set_fired v s := mkN (packets s) (neighbors s) (hop2list s) (linkFail s) v.

Abbreviation N := (M nstate).

Definition load (q : Z) : N BasePacket := s ← gets packets; lift (of_option UseAfterFree (s !! q)).
Definition store (q : Z) (p : BasePacket) : N unit := modify (fun s => set_packets (<[q := p]> (packets s)) s).

Definition ref_packet (q : Z) : N unit := p ← load q; store q (snd (ref p)).
Definition unref_packet (q : Z) : N unit :=
  p ← load q; r ← lift (unref p);
  match snd r with
  | Alive p => store q p
  | Deleted f => modify (fun s => set_fired (option_list f ++ fired s) (set_packets (delete q (packets s)) s))
  end.

(** The wrapper [Beacon] around a packet marks it as a beacon. *)
Definition as_beacon (q : Z) : N BasePacket := p ← load q; store q (Beacon.mk p);; mret (Beacon.mk p).

Definition last_beacon (d : NodeDescr) : N BasePacket :=
  q ← lift (of_option NullDeref (lastBeacon d)); as_beacon q.

(** [isBidiGood]: the neighbour is active and lists this station. *)
Definition isBidiGood (myId : NodeId) (d : NodeDescr) : N bool :=
  match lastBeacon d with
  | None => mret false
  | Some q => b ← as_beacon q; h ← lift (hasNeigh myId b); mret (if (h : bool) then isGood d else false)
  end.

(** The binary search of [findNeigh]; [-a - 1] if there is no such neighbour. *)
Fixpoint findNeigh_loop (fuel : nat) (a b : nat) (i : NodeId) (ns : list NodeDescr) : outcome Z :=
  if (a =? b)%nat then Ok (- Z.of_nat a - 1) else
  match fuel with
  | O => Fail OutOfFuel
  | S fuel =>
      let m := ((a + b) / 2)%nat in
      d ← of_option OutOfBounds (ns !! m);
      if id d =? i then Ok (Z.of_nat m)
      else if id d <? i then findNeigh_loop fuel (m + 1) b i ns
      else findNeigh_loop fuel a m i ns
  end.

Definition findNeigh (i : NodeId) (ns : list NodeDescr) : outcome Z :=
  findNeigh_loop (length ns) 0 (length ns) i ns.

(** The index [findNeigh] encodes: [Some] of a neighbour or the place for a new one. *)
Definition on_neigh (idx : nat) (f : NodeDescr -> NodeDescr) : N unit :=
  modify (fun s => set_neighbors (alter f idx (neighbors s)) s).
Definition nth_neigh (idx : nat) : N NodeDescr :=
  ns ← gets neighbors; lift (of_option OutOfBounds (ns !! idx)).

Definition shiftr32 (x k : Z) : outcome Z := if k <? 32 then Ok (Z.shiftr x k) else Fail BadShift.

Section table.
Context `{Gea}.

(** The second half of [refreshNeigh]: the history, the last beacon and the
    state of the neighbour in cell [i]. *)
Definition record_beacon (i : nat) (q now : Z) (beacon : BasePacket) : N unit :=
  d ← nth_neigh i;
  last ← last_beacon d;
  let lostBeacon := u8 (SrcPacket.getSeq beacon - SrcPacket.getSeq last) in
  hist ← lift (shiftr32 (beaconHist d) lostBeacon);
  on_neigh i (set_hist (Z.lor hist 0x80000000));;
  ql ← lift (of_option NullDeref (lastBeacon d));
  unref_packet ql;;
  on_neigh i (set_last (Some q) now (Beacon.getPeriod beacon));;
  ref_packet q;;
  d ← nth_neigh i;
  let '(became, d) := updateActive d in
  on_neigh i (fun _ => d);;
  lf ← gets linkFail;
  if became && bool_decide (lf = None) then modify (set_linkFail (Some (linkValidity d))) else mret tt.

Definition refreshNeigh (q : Z) (now : Z) : N bool :=
  p ← load q;
  lift (cassert (bool_decide (getType p = PacketTypeBeacon)));;
  beacon ← as_beacon q;
  let src := SrcPacket.getSrc beacon in
  ns ← gets neighbors;
  idx ← lift (findNeigh src ns);
  if (idx <? 0) && (length ns =? MaxNeighbors)%nat then mret false else
  lift (cassert (length ns <? MaxNeighbors)%nat);;
  let is_new := idx <? 0 in
  let i := Z.to_nat (if is_new then - idx - 1 else idx) in
  (if is_new then
     modify (set_neighbors (take i ns ++ init src q now (default NodeDescr_new (ns !! i)) :: drop i ns));;
     lift (cassert (length ns + 1 <=? MaxNeighbors)%nat);;
     ref_packet q;;
     h ← gets hop2list; h ← lift (add2Hop beacon h); modify (set_hop2list h)
   else
     d ← nth_neigh i;
     bLast ← last_beacon d;
     h ← gets hop2list; h ← lift (remove2Hop bLast h); h ← lift (add2Hop beacon h);
     modify (set_hop2list h));;
  record_beacon i q now beacon;;
  mret is_new.

Definition removeOldNeigh (now : Z) : N unit :=
  modify (fun s => set_neighbors (filter (fun d => isExpired now d = false) (neighbors s)) s);;
  ns ← gets neighbors;
  lift (cassert (length ns <=? MaxNeighbors)%nat).

(** The loop of [checkLinkFailure]: [topoChanged || node.updateInactive()] does
    not call [updateInactive] once a change was found. *)
Fixpoint check_loop (now : Z) (ns done : list NodeDescr) (changed : bool) (minv : option Z) :
    outcome (list NodeDescr * bool * option Z) :=
  match ns with
  | [] => Ok (reverse done, changed, minv)
  | d :: ns =>
      let '(changed, d) := if changed then (true, d) else updateInactive now d in
      if active d then
        _ ← cassert (now <? linkValidity d);
        check_loop now ns (d :: done) changed
          (match minv with
           | Some m => if linkValidity d <? m then Some (linkValidity d) else minv
           | None => Some (linkValidity d)
           end)
      else check_loop now ns (d :: done) changed minv
  end.

(** [checkLinkFailure] runs when its blocker fires; the result tells whether a
    topology packet is sent. *)
Definition checkLinkFailure (now : Z) : N bool :=
  modify (set_linkFail None);;
  ns ← gets neighbors;
  r ← lift (check_loop now ns [] false None);
  let '(ns, topoChanged, minv) := r : list NodeDescr * bool * option Z in
  modify (set_neighbors ns);;
  (match minv with Some t => modify (set_linkFail (Some t)) | None => mret tt end);;
  removeOldNeigh now;;
  mret topoChanged.

Definition stat2dyn (h : Hop2List) : Hop2List := (fun c => mkHop2 (stat c) (stat c)) <$> h.

Fixpoint calc_mpr_loop (ns done : list NodeDescr) : N (list NodeDescr) :=
  match ns with
  | [] => mret (reverse done)
  | d :: ns =>
      b ← last_beacon d; h ← gets hop2list;
      calc_mpr_loop ns (set_mpr (tryRemoveFromMpr b h) d :: done)
  end.

Definition calcMpr : N unit :=
  modify (fun s => set_hop2list (stat2dyn (hop2list s)) s);;
  ns ← gets neighbors; ns ← calc_mpr_loop ns []; modify (set_neighbors ns).

(** The destructor releases the beacons of the table. *)
Fixpoint release_beacons (ns : list NodeDescr) : N unit :=
  match ns with
  | [] => mret tt
  | d :: ns => q ← lift (of_option NullDeref (lastBeacon d)); unref_packet q;; release_beacons ns
  end.
End table.
