(* ===== verification/NeighborThms.v ===== *)
(** * Beacons and the neighbour table: correctness

    The neighbour list a station puts into its beacon is the one its neighbours
    find in it; the table stays sorted, its beacons alive and the two-hop
    reference counts exact under [refreshNeigh]; a neighbour becomes active with
    its 13th beacon in a row.  The remaining theorems show where the code leaves
    this contract: a malformed beacon makes the search loop for ever, a full
    table aborts, two links that fail together abort, and expired neighbours
    leave their two-hop counts behind. *)

From S2P Require Import Prelude Bytes NodeId Packet Neighbors.

(** ** The neighbour list of a beacon *)

Definition sorted_ids (l : list NodeId) : Prop := StronglySorted Z.lt l.

Lemma sorted_lookup_lt l i j x y :
  sorted_ids l -> l !! i = Some x -> l !! j = Some y -> (i < j)%nat -> x < y.
Proof.
  intros Hs. revert i j. induction Hs as [|z l Hs IH Hz]; intros i j Hi Hj Hij; [done|].
  destruct j as [|j]; [lia|]. destruct i as [|i]; cbn in *.
  - injection Hi as ->. by eapply (Forall_lookup_1 _ _ _ _ Hz).
  - eapply IH; [done..|lia].
Qed.

(** A part of the list in the buffer: the identifiers [l] from number [a] on. *)
Definition ids_in (a : Z) (l : list NodeId) (buf : list Z) : Prop :=
  forall k i, l !! k = Some i -> neigh_at (a + Z.of_nat k) buf = Ok i.

Lemma binsearch_spec fuel a l x buf :
  0 <= a -> sorted_ids l -> ids_in a l buf -> (length l <= fuel)%nat ->
  hasNeighBinsearch fuel a (a + Z.of_nat (length l)) x buf = Ok (bool_decide (x ∈ l)).
Proof.
  revert a l. induction fuel as [|fuel IH]; intros a l Ha Hs Hi Hf.
  - assert (l = []) as -> by (apply nil_length_inv; lia). cbn. rewrite Z.add_0_r, Z.eqb_refl.
    by rewrite bool_decide_false by set_solver.
  - cbn [hasNeighBinsearch]. destruct (Z.eqb_spec a (a + Z.of_nat (length l))) as [E|E].
    { assert (l = []) as -> by (apply nil_length_inv; lia). by rewrite bool_decide_false by set_solver. }
    set (k := (length l / 2)%nat).
    assert (k < length l)%nat as Hk by (apply Nat.div_lt; lia).
    assert (Z.quot (a + (a + Z.of_nat (length l))) 2 = a + Z.of_nat k) as ->.
    { rewrite Z.quot_div_nonneg by lia. unfold k. rewrite Nat2Z.inj_div.
      replace (a + (a + Z.of_nat (length l))) with (a * 2 + Z.of_nat (length l)) by lia.
      rewrite Z.div_add_l by lia. done. }
    destruct (lookup_lt_is_Some_2 l k Hk) as [m Hm]. rewrite (Hi _ _ Hm), outcome_ret_bind.
    destruct (Z.eqb_spec m x) as [->|Hne].
    { rewrite bool_decide_true; [done|]. by eapply list_elem_of_lookup_2. }
    destruct (Z.ltb_spec m x) as [Hlt|Hge].
    + replace (a + Z.of_nat (length l)) with ((a + Z.of_nat k + 1) + Z.of_nat (length (drop (S k) l)))
        by (rewrite length_drop; lia).
      rewrite IH; [|lia| | |rewrite length_drop; lia].
      * f_equal. apply bool_decide_ext. split.
        -- intros Hin. rewrite <- (take_drop (S k) l). apply elem_of_app. by right.
        -- intros Hin. apply list_elem_of_lookup in Hin as [j Hj].
           assert (S k <= j)%nat as Hj'.
           { destruct (decide (j < k)%nat).
             - pose proof (sorted_lookup_lt l j k x m Hs Hj Hm). lia.
             - destruct (decide (j = k)) as [->|]; [congruence|lia]. }
           apply (list_elem_of_lookup_2 _ (j - S k)). rewrite lookup_drop. rewrite <- Hj. f_equal. lia.
      * apply (StronglySorted_app_1_r _ (take (S k) l)). by rewrite take_drop.
      * intros j y Hj. rewrite lookup_drop in Hj. rewrite <- (Hi _ _ Hj). f_equal. lia.
    + replace (a + Z.of_nat k) with (a + Z.of_nat (length (take k l))) by (rewrite length_take; lia).
      rewrite IH; [|lia| | |rewrite length_take; lia].
      * f_equal. apply bool_decide_ext. split.
        -- intros Hin. rewrite <- (take_drop k l). apply elem_of_app. by left.
        -- intros Hin. apply list_elem_of_lookup in Hin as [j Hj].
           assert (j < k)%nat as Hj'.
           { destruct (decide (k < j)%nat).
             - pose proof (sorted_lookup_lt l k j m x Hs Hm Hj). lia.
             - destruct (decide (j = k)) as [->|]; [congruence|lia]. }
           apply (list_elem_of_lookup_2 _ j). by rewrite lookup_take_lt.
      * apply (StronglySorted_app_1_l _ _ (drop k l)). by rewrite take_drop.
      * intros j y Hj. apply lookup_take_Some in Hj as [Hj _]. by apply Hi.
Qed.

(** Encoded identifiers. *)
Definition enc_ids (l : list NodeId) : list Z := mjoin (be_enc 6 <$> l).

Lemma enc_ids_length l : length (enc_ids l) = (6 * length l)%nat.
Proof.
  induction l as [|x l IH]; [done|]. change (enc_ids (x :: l)) with (be_enc 6 x ++ enc_ids l).
  rewrite length_app, be_enc_length, IH. cbn [length]. lia.
Qed.

Lemma enc_ids_app l1 l2 : enc_ids (l1 ++ l2) = enc_ids l1 ++ enc_ids l2.
Proof. unfold enc_ids. by rewrite fmap_app, join_app. Qed.

Lemma enc_ids_bytes l : bytes (enc_ids l).
Proof. induction l; [constructor|]. apply Forall_app_2; [apply be_enc_bytes|done]. Qed.

Lemma enc_ids_slice l k i : l !! k = Some i -> slice (6 * k) 6 (enc_ids l) = be_enc 6 i.
Proof.
  intros E. rewrite <- (take_drop_middle l k i E). apply lookup_lt_Some in E.
  rewrite enc_ids_app. unfold slice.
  rewrite drop_app_ge by (rewrite enc_ids_length, length_take; lia).
  rewrite enc_ids_length, length_take.
  replace (6 * k - 6 * (k `min` length l))%nat with 0%nat by lia.
  change (enc_ids (i :: drop (S k) l)) with (be_enc 6 i ++ enc_ids (drop (S k) l)).
  rewrite drop_0. by rewrite take_app_length' by (by rewrite be_enc_length).
Qed.

Lemma ids_in_enc (a : nat) l buf :
  bytes buf -> (Beacon.OffsetLNeigh + a * 6 + 6 * length l <= length buf)%nat -> Forall (in_width 48) l ->
  slice (Beacon.OffsetLNeigh + a * 6) (6 * length l) buf = enc_ids l -> ids_in (Z.of_nat a) l buf.
Proof.
  intros Hb Hlen Hw He k i Hk. pose proof (lookup_lt_Some _ _ _ Hk) as Hlt. unfold neigh_at.
  rewrite (proj2 (Z.leb_le 0 _)), (proj2 (Z.leb_le _ (Z.of_nat (length buf)))) by lia. cbn [andb].
  replace (Z.to_nat _) with (Beacon.OffsetLNeigh + a * 6 + 6 * k)%nat by lia.
  f_equal. rewrite AbstractID6.id6_fromArray_spec by (done || lia).
  apply (Forall_lookup_1 _ _ _ _ Hw) in Hk as Hi.
  rewrite <- (be_dec_enc_id 6 i) by exact Hi. f_equal.
  rewrite <- (enc_ids_slice _ _ _ Hk), <- He.
  apply list_eq. intros j. destruct (decide (j < 6)%nat).
  - rewrite !slice_lookup by lia. f_equal. lia.
  - rewrite !lookup_ge_None_2; [done|unfold slice; rewrite length_take; lia..].
Qed.

Definition sel_ids (sel : NodeDescr -> bool) (ns : list NodeDescr) : list NodeId :=
  id <$> filter (fun d => sel d = true) ns.

Lemma put_neigh_ok sel ns addr n buf :
  (addr + 6 * length (sel_ids sel ns) <= length buf)%nat ->
  put_neigh sel ns addr n buf =
    Ok ((addr + 6 * length (sel_ids sel ns))%nat, n + Z.of_nat (length (sel_ids sel ns)),
        splice addr (enc_ids (sel_ids sel ns)) buf).
Proof.
  revert addr n buf. induction ns as [|d ns IH]; intros addr n buf Hl.
  - unfold sel_ids. cbn. rewrite splice_nil, Nat.add_0_r, Z.add_0_r. done.
  - cbn [put_neigh]. unfold sel_ids in *. rewrite filter_cons in *.
    destruct (sel d) eqn:Es.
    + rewrite decide_True in * by done. cbn [fmap list_fmap length] in *.
      rewrite (proj2 (Nat.leb_le _ _)) by lia.
      rewrite AbstractID6.id6_toArray_spec by lia.
      rewrite IH by (rewrite splice_length; rewrite ?be_enc_length; lia).
      change (enc_ids (?x :: ?l)) with (be_enc 6 x ++ enc_ids l).
      pose proof (splice_splice_adjacent addr (be_enc 6 (id d))
        (enc_ids (id <$> filter (fun d => sel d = true) ns)) buf) as Ha.
      rewrite be_enc_length, enc_ids_length in Ha. rewrite Ha by lia.
      do 3 f_equal; lia.
    + rewrite decide_False in * by congruence. by apply IH.
Qed.

Definition mpr_sel (d : NodeDescr) : bool := isGood d && mpr d.
Definition nompr_sel (d : NodeDescr) : bool := isGood d && negb (mpr d).

Lemma sel_ids_sorted sel ns : sorted_ids (id <$> ns) -> sorted_ids (sel_ids sel ns).
Proof.
  unfold sel_ids, sorted_ids. induction ns as [|d ns IH]; intros Hs; [done|].
  cbn [fmap list_fmap] in Hs. apply StronglySorted_inv in Hs as [Hs Hd]. rewrite filter_cons.
  case_decide; [|by apply IH]. cbn [fmap list_fmap]. constructor; [by apply IH|].
  apply Forall_forall. intros x Hx. apply list_elem_of_fmap in Hx as (e & -> & He).
  apply list_elem_of_filter in He as [_ He]. rewrite Forall_forall in Hd.
  apply Hd, list_elem_of_fmap. eauto.
Qed.

Lemma elem_of_sel_ids sel ns x : x ∈ sel_ids sel ns <-> exists d, d ∈ ns /\ id d = x /\ sel d = true.
Proof.
  unfold sel_ids. rewrite list_elem_of_fmap. setoid_rewrite list_elem_of_filter. firstorder.
Qed.

Lemma sel_ids_split ns :
  (length (sel_ids mpr_sel ns) + length (sel_ids nompr_sel ns) <= length ns)%nat.
Proof.
  unfold sel_ids. rewrite !length_fmap. induction ns as [|d ns IH]; [done|]. rewrite !filter_cons.
  unfold mpr_sel, nompr_sel in *. destruct (isGood d), (mpr d); cbn [andb negb];
    rewrite ?(decide_True (P := true = true)), ?(decide_False (P := false = true)) by done; cbn [length]; lia.
Qed.

Lemma set_byte_wf off v p : wf_packet p -> (off < MaxSize)%nat -> wf_packet (set_byte off v p).
Proof.
  intros [Hl Hb] Ho. split; cbn.
  - by rewrite length_insert.
  - apply Forall_insert; [done|apply u8_byte].
Qed.

Lemma slice_set_byte off v p k n :
  wf_packet p -> (off < k)%nat -> (off < MaxSize)%nat ->
  slice k n (buffer (set_byte off v p)) = slice k n (buffer p).
Proof.
  intros [Hl Hb] Hk Ho. cbn [set_byte upd set_buffer buffer]. rewrite insert_splice by lia.
  apply slice_splice_disjoint; cbn; lia.
Qed.

Lemma get_set_byte_ne off off' v p : off <> off' -> get_byte off (set_byte off' v p) = get_byte off p.
Proof. intros Hne. unfold get_byte, byte_at. cbn. by rewrite list_lookup_insert_ne. Qed.

Lemma s8_small n : 0 <= n < 128 -> s8 (u8 n) = n.
Proof. intros Hn. rewrite swrap_wrap by lia. by apply swrap_id. Qed.

(** The packet [setNeigh] produces. *)
Lemma setNeigh_ok ns p :
  wf_packet p -> (length ns <= MaxNeighbors)%nat -> Forall (in_width 48) (id <$> ns) ->
  let l1 := sel_ids mpr_sel ns in
  let l2 := sel_ids nompr_sel ns in
  exists p', setNeigh ns p = Ok p' /\ wf_packet p' /\
    Beacon.getNumMpr p' = Z.of_nat (length l1) /\ Beacon.getNumNoMpr p' = Z.of_nat (length l2) /\
    ids_in 0 l1 (buffer p') /\ ids_in (Z.of_nat (length l1)) l2 (buffer p') /\
    size p' = 13 + 6 * Z.of_nat (length l1 + length l2).
Proof.
  intros [Hl Hb] Hn Hw l1 l2. pose proof (sel_ids_split ns) as Hsp. fold l1 l2 in Hsp.
  assert (Forall (in_width 48) l1 /\ Forall (in_width 48) l2) as [Hw1 Hw2].
  { split; apply Forall_forall; intros x Hx; apply elem_of_sel_ids in Hx as (d & Hd & <- & _);
      apply (proj1 (Forall_forall _ _) Hw), list_elem_of_fmap; eauto. }
  unfold MaxNeighbors in Hn. change Beacon.OffsetLNeigh with 13%nat.
  assert (MaxSize = 4096%nat) as HM by reflexivity.
  unfold setNeigh. fold mpr_sel nompr_sel. change Beacon.OffsetLNeigh with 13%nat.
  rewrite put_neigh_ok by (fold l1; lia). fold l1. rewrite outcome_ret_bind.
  rewrite put_neigh_ok by (fold l2; rewrite splice_length; rewrite ?enc_ids_length; lia).
  fold l2. rewrite outcome_ret_bind.
  assert (splice (13 + 6 * length l1) (enc_ids l2) (splice 13 (enc_ids l1) (buffer p)) =
          splice 13 (enc_ids (l1 ++ l2)) (buffer p)) as ->.
  { rewrite enc_ids_app. rewrite <- (enc_ids_length l1) at 1. apply splice_splice_adjacent.
    rewrite !enc_ids_length. lia. }
  set (q := set_buffer (splice 13 (enc_ids (l1 ++ l2)) (buffer p)) p).
  assert (length (enc_ids (l1 ++ l2)) = 6 * (length l1 + length l2))%nat as Hel
    by (rewrite enc_ids_length, length_app; done).
  assert (wf_packet q) as Hq.
  { apply (upd_splice_wf 13); [by split|apply enc_ids_bytes|lia]. }
  eexists. split; [done|]. rewrite !Z.add_0_l.
  set (n1 := Z.of_nat (length l1)). set (n2 := Z.of_nat (length l2)).
  assert (wf_packet (Beacon.setNumMpr n1 q)) as Hq1 by (apply set_byte_wf; [done|change (12 < MaxSize)%nat; lia]).
  assert (wf_packet (Beacon.setNumNoMpr n2 (Beacon.setNumMpr n1 q))) as Hq2
    by (apply set_byte_wf; [done|change (11 < MaxSize)%nat; lia]).
  set (p' := set_size _ _).
  assert (wf_packet p') as Hp' by (split; [apply (wf_length _ Hq2)|apply (wf_bytes _ Hq2)]).
  assert (forall k m, (13 <= k)%nat -> slice k m (buffer p') = slice k m (buffer q)) as Hsl.
  { intros k m Hk. change (buffer p') with (buffer (set_byte 11 n2 (set_byte 12 n1 q))).
    by rewrite !slice_set_byte by (done || lia || by apply set_byte_wf). }
  assert (slice 13 (6 * (length l1 + length l2)) (buffer q) = enc_ids (l1 ++ l2)) as Hall.
  { unfold q. cbn [set_buffer buffer]. rewrite <- Hel. apply slice_splice_same. lia. }
  split_and!; [done| | | | |].
  - change (Beacon.getNumMpr p') with (s8 (get_byte 12 (set_byte 11 n2 (set_byte 12 n1 q)))).
    rewrite get_set_byte_ne, get_set_byte by (done || lia). apply s8_small. lia.
  - change (Beacon.getNumNoMpr p') with (s8 (get_byte 11 (set_byte 11 n2 (set_byte 12 n1 q)))).
    rewrite get_set_byte by (done || lia). apply s8_small. lia.
  - apply (ids_in_enc 0); [apply Hp'|change Beacon.OffsetLNeigh with 13%nat; rewrite (wf_length _ Hp'); lia|done|].
    rewrite Nat.mul_0_l, Nat.add_0_r. change Beacon.OffsetLNeigh with 13%nat. rewrite Hsl by lia.
    rewrite enc_ids_app in Hall. transitivity (take (6 * length l1) (enc_ids l1 ++ enc_ids l2)).
    + rewrite <- Hall. unfold slice. rewrite take_take. f_equal. lia.
    + apply take_app_length'. by rewrite enc_ids_length.
  - apply (ids_in_enc (length l1)); [apply Hp'|change Beacon.OffsetLNeigh with 13%nat; rewrite (wf_length _ Hp'); lia|done|].
    change Beacon.OffsetLNeigh with 13%nat. rewrite Hsl by lia.
    rewrite enc_ids_app in Hall. transitivity (drop (6 * length l1) (enc_ids l1 ++ enc_ids l2)).
    + rewrite <- Hall. unfold slice. rewrite skipn_firstn_comm, drop_drop.
      replace (6 * (length l1 + length l2) - 6 * length l1)%nat with (6 * length l2)%nat by lia.
      do 2 f_equal. lia.
    + apply drop_app_length'. by rewrite enc_ids_length.
  - unfold p'. cbn [size set_size]. lia.
Qed.

Lemma elem_of_good ns x :
  x ∈ sel_ids isGood ns <-> x ∈ sel_ids mpr_sel ns \/ x ∈ sel_ids nompr_sel ns.
Proof.
  rewrite !elem_of_sel_ids. unfold mpr_sel, nompr_sel. split.
  - intros (d & Hd & Hx & Hg). destruct (mpr d) eqn:E.
    + left. exists d. by rewrite Hg, E.
    + right. exists d. by rewrite Hg, E.
  - intros [(d & Hd & Hx & Hg)|(d & Hd & Hx & Hg)]; apply andb_true_iff in Hg as [Hg _]; by exists d.
Qed.

Lemma setNeigh_lists (ns : list NodeDescr) (p : BasePacket) :
  wf_packet p -> (length ns <= MaxNeighbors)%nat -> Forall (in_width 48) (id <$> ns) ->
  sorted_ids (id <$> ns) ->
  exists p', setNeigh ns p = Ok p' /\ wf_packet p' /\
    forall i, hasMpr i p' = Ok (bool_decide (i ∈ sel_ids mpr_sel ns)) /\
              hasNoMpr i p' = Ok (bool_decide (i ∈ sel_ids nompr_sel ns)) /\
              hasNeigh i p' = Ok (bool_decide (i ∈ sel_ids isGood ns)).
Proof.
  intros Hp Hn Hw Hs. destruct (setNeigh_ok ns p Hp Hn Hw) as (p' & E & Hp' & Hn1 & Hn2 & Hi1 & Hi2 & _).
  exists p'. split; [done|]. split; [done|]. intros i.
  pose proof (sel_ids_split ns) as Hsp. unfold MaxNeighbors in Hn.
  assert (hasMpr i p' = Ok (bool_decide (i ∈ sel_ids mpr_sel ns))) as H1.
  { unfold hasMpr. rewrite Hn1. rewrite <- (Z.add_0_l (Z.of_nat _)).
    apply binsearch_spec; [lia|by apply sel_ids_sorted|done|unfold search_fuel; lia]. }
  assert (hasNoMpr i p' = Ok (bool_decide (i ∈ sel_ids nompr_sel ns))) as H2.
  { unfold hasNoMpr. rewrite Hn1, Hn2.
    apply binsearch_spec; [lia|by apply sel_ids_sorted|done|unfold search_fuel; lia]. }
  split_and!; [done..|]. unfold hasNeigh. rewrite H1, outcome_ret_bind, H2.
  destruct (bool_decide_reflect (i ∈ sel_ids mpr_sel ns)) as [D1|D1].
  - rewrite (bool_decide_true (i ∈ sel_ids isGood ns)); [done|]. apply elem_of_good. by left.
  - f_equal. apply bool_decide_ext. rewrite elem_of_good. tauto.
Qed.

(** C33. A beacon tells the truth: the receiver of the beacon [setNeigh] fills
    finds a station as relay ([hasMpr]), as non-relay ([hasNoMpr]) or at all
    ([hasNeigh]) exactly if it is an active neighbour marked that way. *)
Theorem beacon_lists_neighbours (ns : list NodeDescr) (p : BasePacket) :
  wf_packet p -> (length ns <= MaxNeighbors)%nat -> Forall (in_width 48) (id <$> ns) ->
  sorted_ids (id <$> ns) ->
  exists p', setNeigh ns p = Ok p' /\ wf_packet p' /\
    forall i, hasMpr i p' = Ok (bool_decide (i ∈ sel_ids mpr_sel ns)) /\
              hasNoMpr i p' = Ok (bool_decide (i ∈ sel_ids nompr_sel ns)) /\
              hasNeigh i p' = Ok (bool_decide (i ∈ sel_ids isGood ns)).
Proof. apply setNeigh_lists. Qed.

Definition ex_descr (i : Z) (a m : bool) : NodeDescr := mkDescr i None 0 0 0 0 a m.

Lemma beacon_lists_neighbours_witness :
  exists p', setNeigh [ex_descr 3 true true; ex_descr 5 false true; ex_descr 9 true false] BasePacket_new = Ok p' /\
    hasMpr 3 p' = Ok true /\ hasNoMpr 9 p' = Ok true /\ hasNeigh 5 p' = Ok false.
Proof.
  destruct (beacon_lists_neighbours [ex_descr 3 true true; ex_descr 5 false true; ex_descr 9 true false] BasePacket_new)
    as (p' & E & _ & H).
  - apply BasePacket_new_wf.
  - cbn. unfold MaxNeighbors. lia.
  - cbn. repeat apply Forall_cons_2; try apply Forall_nil_2; unfold in_width; lia.
  - cbn. unfold sorted_ids. repeat constructor.
  - exists p'. destruct (H 3) as (H3 & _ & _). destruct (H 9) as (_ & H9 & _). destruct (H 5) as (_ & _ & H5).
    split; [exact E|]. split; [exact H3|]. split; [exact H9|exact H5].
Defined.


Definition ex_malformed : BasePacket := Beacon.setNumMpr 255 BasePacket_new.


(** ** [findNeigh] *)

(** The place of [i] in a sorted table: before it smaller, from it larger. *)
Definition place (i : NodeId) (ns : list NodeDescr) (k : nat) : Prop :=
  (k <= length ns)%nat /\
  (forall j d, ns !! j = Some d -> (j < k)%nat -> id d < i) /\
  (forall j d, ns !! j = Some d -> (k <= j)%nat -> i < id d).

Lemma ns_lookup_lt (ns : list NodeDescr) j k d e :
  sorted_ids (id <$> ns) -> ns !! j = Some d -> ns !! k = Some e -> (j < k)%nat -> id d < id e.
Proof.
  intros Hs Hj Hk. apply (sorted_lookup_lt _ _ _ _ _ Hs); rewrite list_lookup_fmap; [by rewrite Hj|by rewrite Hk].
Qed.

Lemma findNeigh_loop_ok fuel a b i ns :
  sorted_ids (id <$> ns) -> (a <= b <= length ns)%nat -> (b - a <= fuel)%nat ->
  (forall j d, ns !! j = Some d -> (j < a)%nat -> id d < i) ->
  (forall j d, ns !! j = Some d -> (b <= j)%nat -> i < id d) ->
  (exists k d, findNeigh_loop fuel a b i ns = Ok (Z.of_nat k) /\ ns !! k = Some d /\ id d = i) \/
  (exists k, findNeigh_loop fuel a b i ns = Ok (- Z.of_nat k - 1) /\ place i ns k).
Proof.
  intros Hs. revert a b. induction fuel as [|fuel IH]; intros a b Hab Hf Hlo Hhi.
  - assert (a = b) as <- by lia. right. exists a. cbn. rewrite Nat.eqb_refl.
    split; [done|]. split; [lia|]. by split.
  - cbn [findNeigh_loop]. destruct (Nat.eqb_spec a b) as [<-|Hne].
    { right. exists a. split; [done|]. split; [lia|]. by split. }
    set (m := ((a + b) / 2)%nat).
    assert (a <= m < b)%nat as Hm.
    { unfold m. split; [apply Nat.div_le_lower_bound; lia|apply Nat.Div0.div_lt_upper_bound; lia]. }
    destruct (lookup_lt_is_Some_2 ns m) as [d Hd]; [lia|]. rewrite Hd. cbn [of_option].
    rewrite outcome_ret_bind. destruct (Z.eqb_spec (id d) i) as [E|E].
    { left. eauto. }
    destruct (Z.ltb_spec (id d) i).
    + apply IH; [lia|lia| |done]. intros j e Hj Hlt. destruct (decide (j = m)) as [->|]; [congruence|].
      pose proof (ns_lookup_lt ns j m e d Hs Hj Hd). lia.
    + apply IH; [lia|lia|done|]. intros j e Hj Hge. destruct (decide (j = m)) as [->|].
      * rewrite Hd in Hj. injection Hj as <-. lia.
      * pose proof (ns_lookup_lt ns m j d e Hs Hd Hj). lia.
Qed.

Lemma findNeigh_ok i ns :
  sorted_ids (id <$> ns) ->
  (exists k d, findNeigh i ns = Ok (Z.of_nat k) /\ ns !! k = Some d /\ id d = i) \/
  (exists k, findNeigh i ns = Ok (- Z.of_nat k - 1) /\ place i ns k).
Proof.
  intros Hs. apply findNeigh_loop_ok; [done|lia|lia| |].
  - intros; lia.
  - intros j d Hj Hge. apply lookup_lt_Some in Hj. lia.
Qed.

Lemma place_sorted i ns k d :
  sorted_ids (id <$> ns) -> place i ns k -> id d = i ->
  sorted_ids (id <$> (take k ns ++ d :: drop k ns)).
Proof.
  intros Hs (Hk & Hlo & Hhi) Hd. rewrite <- (take_drop k ns) in Hs.
  rewrite fmap_app in *. cbn [fmap list_fmap]. unfold sorted_ids in *.
  apply StronglySorted_app in Hs as (Hc & H1 & H2). apply StronglySorted_app.
  assert (Forall (Z.lt (id d)) (id <$> drop k ns)) as Hdr.
  { apply Forall_fmap, Forall_lookup. intros j e Hj. rewrite lookup_drop in Hj.
    cbn. rewrite Hd. eapply Hhi; [exact Hj|lia]. }
  split_and!.
  - intros x y Hx Hy. apply elem_of_cons in Hy as [->|Hy]; [|by apply Hc].
    apply list_elem_of_fmap in Hx as (e & -> & He). apply list_elem_of_lookup in He as [j Hj].
    apply lookup_take_Some in Hj as [Hj Hlt]. rewrite Hd. by eapply Hlo.
  - done.
  - by constructor.
Qed.

Lemma elem_split {A} k (l : list A) x : x ∈ l <-> x ∈ take k l ++ drop k l.
Proof. by rewrite take_drop. Qed.

(** ** Two-hop reference counts *)

Definition occ (i : NodeId) (l : list NodeId) : Z := Z.of_nat (length (filter (fun x => x = i) l)).

Lemma occ_app i l1 l2 : occ i (l1 ++ l2) = occ i l1 + occ i l2.
Proof. unfold occ. rewrite filter_app, length_app. lia. Qed.

Lemma occ_cons i x l : occ i (x :: l) = (if decide (x = i) then 1 else 0) + occ i l.
Proof. unfold occ. rewrite filter_cons. case_decide; cbn [length]; lia. Qed.

Lemma occ_bound i l : 0 <= occ i l <= Z.of_nat (length l).
Proof. unfold occ. pose proof (length_filter (fun x => x = i) l). lia. Qed.

Lemma occ_split k (ls : list (list NodeId)) i :
  occ i (mjoin ls) = occ i (mjoin (take k ls)) + occ i (mjoin (drop k ls)).
Proof. by rewrite <- occ_app, <- join_app, take_drop. Qed.

Lemma occ_insert k (ls : list (list NodeId)) l i :
  occ i (mjoin (take k ls ++ l :: drop k ls)) =
    occ i (mjoin (take k ls)) + occ i l + occ i (mjoin (drop k ls)).
Proof.
  rewrite join_app, occ_app. change (mjoin (l :: drop k ls)) with (l ++ mjoin (drop k ls)).
  rewrite occ_app. lia.
Qed.

(** The map holds the counts [f], and an entry exactly where they are positive. *)
Definition counts (h : Hop2List) (f : NodeId -> Z) : Prop :=
  forall i, match h !! i with None => f i = 0 | Some c => stat c = f i /\ 0 < f i end.

Lemma counts_ext h f g : counts h f -> (forall i, f i = g i) -> counts h g.
Proof. intros Hc E i. specialize (Hc i). rewrite <- E. done. Qed.

Lemma counts_nonneg h f i : counts h f -> 0 <= f i.
Proof. intros Hc. specialize (Hc i). destruct (h !! i); lia. Qed.

Lemma add_one_counts h f x :
  counts h f -> f x + 1 < 32768 -> counts (add_one x h) (fun i => f i + if decide (x = i) then 1 else 0).
Proof.
  intros Hc Hx i. unfold add_one. pose proof (Hc x) as Cx. pose proof (Hc i) as Ci.
  destruct (h !! x) as [c|] eqn:E; case_decide as D.
  - subst i. rewrite lookup_insert_eq. cbn [stat]. unfold s16_inc. rewrite swrap_id by lia. lia.
  - rewrite lookup_insert_ne by done. by rewrite Z.add_0_r.
  - subst i. rewrite lookup_insert_eq. cbn [stat]. lia.
  - rewrite lookup_insert_ne by done. by rewrite Z.add_0_r.
Qed.

Lemma add_all_counts h f l :
  counts h f -> (forall i, f i + occ i l < 32768) ->
  counts (foldl (fun h i => add_one i h) h l) (fun i => f i + occ i l).
Proof.
  revert h f. induction l as [|x l IH]; intros h f Hc Hb; cbn [foldl].
  - eapply counts_ext; [exact Hc|]. intros i. unfold occ. cbn. lia.
  - eapply counts_ext.
    + apply IH; [apply add_one_counts; [exact Hc|]|].
      * specialize (Hb x). rewrite occ_cons, decide_True in Hb by done. pose proof (occ_bound x l). lia.
      * intros i. specialize (Hb i). rewrite occ_cons in Hb. cbn. lia.
    + intros i. rewrite occ_cons. cbn. lia.
Qed.

Lemma remove_one_counts h f x :
  counts h f -> 0 < f x -> f x < 32768 -> exists h', remove_one x h = Ok h' /\
    counts h' (fun i => f i - if decide (x = i) then 1 else 0).
Proof.
  intros Hc H0 Hx. unfold remove_one. pose proof (Hc x) as Cx.
  destruct (h !! x) as [c|] eqn:E; [|lia]. destruct Cx as [Cx _].
  assert (s16_dec (stat c) = f x - 1) as -> by (unfold s16_dec; rewrite swrap_id by lia; lia).
  eexists. split; [done|]. intros i. pose proof (Hc i) as Ci.
  destruct (Z.eqb_spec (f x - 1) 0); case_decide as D.
  - subst i. rewrite lookup_delete_eq. lia.
  - rewrite lookup_delete_ne by done. by rewrite Z.sub_0_r.
  - subst i. rewrite lookup_insert_eq. cbn [stat]. lia.
  - rewrite lookup_insert_ne by done. by rewrite Z.sub_0_r.
Qed.

Lemma remove_all_counts h f l :
  counts h f -> (forall i, occ i l <= f i < 32768) ->
  exists h', remove_all l h = Ok h' /\ counts h' (fun i => f i - occ i l).
Proof.
  revert h f. induction l as [|x l IH]; intros h f Hc Hb; cbn [remove_all].
  - eexists. split; [done|]. eapply counts_ext; [exact Hc|]. intros i. unfold occ. cbn. lia.
  - pose proof (Hb x) as Hbx. rewrite occ_cons, decide_True in Hbx by done. pose proof (occ_bound x l).
    destruct (remove_one_counts h f x Hc) as (h1 & -> & H1); [lia|lia|]. rewrite outcome_ret_bind.
    destruct (IH h1 _ H1) as (h2 & -> & H2).
    { intros i. specialize (Hb i). rewrite occ_cons in Hb. case_decide; lia. }
    eexists. split; [done|]. eapply counts_ext; [exact H2|]. intros i. rewrite occ_cons. cbn. lia.
Qed.

(** ** Packets of the table *)

Definition beacon_ok (b : BasePacket) : Prop := wf_packet b /\ getType b = PacketTypeBeacon.

Lemma mk_beacon_id b : beacon_ok b -> Beacon.mk b = b.
Proof.
  intros [Hw Ht]. pose proof (get_byte_wf 0 b Hw MaxSize_pos) as Hb0.
  destruct Hw as [Hl Hby]. unfold Beacon.mk, setType, set_byte, upd, set_buffer.
  assert (u8 (Z.lor (Z.land (get_byte 0 b) (Z.lnot 3)) (PacketType_num PacketTypeBeacon)) = get_byte 0 b) as E.
  { unfold getType in Ht. revert Hb0 Ht. generalize (get_byte 0 b). intros v Hv Ht.
    assert (forallb (fun v => negb (bool_decide (PacketType_of_num (Z.land v 3) = PacketTypeBeacon)) ||
      (u8 (Z.lor (Z.land v (Z.lnot 3)) (PacketType_num PacketTypeBeacon)) =? v)) byte_values = true) as Hall
      by (by vm_compute).
    rewrite forallb_forall in Hall. specialize (Hall v).
    rewrite <- list_elem_of_In in Hall. specialize (Hall (byte_values_complete v Hv)). cbn beta in Hall.
    rewrite bool_decide_true in Hall by done. by apply Z.eqb_eq in Hall. }
  rewrite E. unfold get_byte, byte_at in *. destruct (buffer b) as [|x l] eqn:Eb.
  { cbn in Hl. pose proof MaxSize_pos. lia. }
  destruct b as [bf sz rc c d]. cbn in *. by subst bf.
Qed.

Lemma s8_range v : -128 <= s8 v < 128.
Proof.
  unfold swrap, wrap. change (2 ^ 8) with 256. change (2 ^ (8 - 1)) with 128.
  pose proof (Z.mod_pos_bound v 256). destruct (Z.ltb_spec (v mod 256) 128); lia.
Qed.

Lemma read_ids_ok n m buf :
  0 <= m -> 13 + (m + Z.of_nat n) * 6 <= Z.of_nat (length buf) ->
  exists l, read_ids n m buf = Ok l /\ length l = n.
Proof.
  revert m. induction n as [|n IH]; intros m Hm Hl; cbn [read_ids]; [by eexists|].
  unfold neigh_at. change (Z.of_nat Beacon.OffsetLNeigh) with 13.
  rewrite (proj2 (Z.leb_le 0 _)), (proj2 (Z.leb_le _ (Z.of_nat (length buf)))) by lia. cbn [andb].
  rewrite outcome_ret_bind. destruct (IH (m + 1)) as (l & -> & Hll); [lia|lia|].
  rewrite outcome_ret_bind. eexists. split; [done|]. cbn. lia.
Qed.

Lemma list_ids_ok b : wf_packet b -> exists l, list_ids b = Ok l /\ (length l <= 254)%nat.
Proof.
  intros [Hl _]. unfold list_ids, Beacon.getNumNoMpr, Beacon.getNumMpr.
  pose proof (s8_range (get_byte Beacon.OffsetNumNoMpr b)).
  pose proof (s8_range (get_byte Beacon.OffsetNumMpr b)).
  destruct (read_ids_ok (Z.to_nat (s8 (get_byte Beacon.OffsetNumNoMpr b) + s8 (get_byte Beacon.OffsetNumMpr b))) 0 (buffer b))
    as (l & E & Hll); [lia|rewrite Hl; unfold MaxSize; lia|].
  exists l. split; [done|]. lia.
Qed.

(** A descriptor whose beacon is alive and lists [l]. *)
Definition desc_ok (pk : gmap Z BasePacket) (d : NodeDescr) (l : list NodeId) : Prop :=
  exists q b, lastBeacon d = Some q /\ pk !! q = Some b /\ beacon_ok b /\ 1 <= refcount b /\
    SrcPacket.getSrc b = id d /\ list_ids b = Ok l.

(** The invariant of the table.  [leak] are the counts neighbours left behind
    when they were removed. *)
Record table_inv (leak : NodeId -> Z) (s : nstate) : Prop := {
  ti_sorted : sorted_ids (id <$> neighbors s);
  ti_length : (length (neighbors s) <= MaxNeighbors)%nat;
  ti_beacons : exists ls, Forall2 (desc_ok (packets s)) (neighbors s) ls /\
    counts (hop2list s) (fun i => leak i + occ i (mjoin ls));
}.

Definition set_rc (n : Z) (b : BasePacket) : BasePacket := set_refcount n b.

Lemma beacon_ok_rc n b : beacon_ok b -> beacon_ok (set_rc n b).
Proof. intros [[Hl Hb] Ht]. split; [by split|done]. Qed.

Lemma load_packet_ok q s p : packets s !! q = Some p -> load q s = Ok (p, s).
Proof. intros E. unfold load, mbind, M_bind, gets, lift, of_option. by rewrite E. Qed.

Lemma as_beacon_ok q s p : packets s !! q = Some p -> beacon_ok p -> as_beacon q s = Ok (p, s).
Proof.
  intros E Hb. unfold as_beacon. mcall load_packet_ok. rewrite mk_beacon_id by done.
  unfold mbind, M_bind, store, modify, mret, M_ret. do 2 f_equal. destruct s. unfold set_packets. cbn in *.
  by rewrite insert_id.
Qed.

Lemma ref_packet_ok q s p :
  packets s !! q = Some p ->
  ref_packet q s = Ok (tt, set_packets (<[q := set_rc (refcount p + 1) p]> (packets s)) s).
Proof. intros E. unfold ref_packet. by mcall load_packet_ok. Qed.

Definition unref_heap (q : Z) (p : BasePacket) (pk : gmap Z BasePacket) : gmap Z BasePacket :=
  if refcount p =? 1 then delete q pk else <[q := set_rc (refcount p - 1) p]> pk.

Lemma unref_packet_ok q s p :
  packets s !! q = Some p -> 1 <= refcount p ->
  exists fd, unref_packet q s = Ok (tt, set_fired fd (set_packets (unref_heap q p (packets s)) s)).
Proof.
  intros E Hr. unfold unref_packet. mcall load_packet_ok. unfold unref, unref_heap.
  rewrite (proj2 (Z.ltb_lt 0 (refcount p))) by lia. change (cassert true) with (Ok tt).
  rewrite outcome_ret_bind. destruct (Z.eqb_spec (refcount p - 1) 0).
  - mlift. cbn [snd]. rewrite (proj2 (Z.eqb_eq (refcount p) 1)) by lia. eexists. by unfold modify.
  - mlift. cbn [snd]. rewrite (proj2 (Z.eqb_neq (refcount p) 1)) by lia. exists (fired s). by destruct s.
Qed.

(** ** [refreshNeigh] *)

Lemma alter_insert {A} (f : A -> A) i (l : list A) x : l !! i = Some x -> alter f i l = <[i := f x]> l.
Proof.
  intros E. apply list_eq. intros j. destruct (decide (j = i)) as [->|].
  - rewrite list_lookup_alter_eq, E, list_lookup_insert_eq; [done|]. by eapply lookup_lt_Some.
  - by rewrite list_lookup_alter_ne, list_lookup_insert_ne.
Qed.

Lemma on_neigh_ok i f s d :
  neighbors s !! i = Some d ->
  on_neigh i f s = Ok (tt, set_neighbors (<[i := f d]> (neighbors s)) s).
Proof. intros E. unfold on_neigh, modify. by rewrite (alter_insert _ _ _ _ E). Qed.

Lemma nth_neigh_ok i s d : neighbors s !! i = Some d -> nth_neigh i s = Ok (d, s).
Proof. intros E. unfold nth_neigh, mbind, M_bind, gets, lift, of_option. by rewrite E. Qed.

Section refresh.
Context `{Gea}.

(** The descriptor after a beacon: [lost] beacons since the last one. *)
Definition heard (q now period lost : Z) (d : NodeDescr) : NodeDescr :=
  snd (updateActive (set_last (Some q) now period
         (set_hist (Z.lor (Z.shiftr (beaconHist d) lost) 0x80000000) d))).

Lemma record_beacon_ok i q now p s d ql b :
  neighbors s !! i = Some d -> lastBeacon d = Some ql -> packets s !! ql = Some b -> beacon_ok b ->
  1 <= refcount b -> is_Some (unref_heap ql b (packets s) !! q) ->
  let lost := u8 (SrcPacket.getSeq p - SrcPacket.getSeq b) in lost < 32 ->
  exists s' p1, record_beacon i q now p s = Ok (tt, s') /\
    neighbors s' = <[i := heard q now (Beacon.getPeriod p) lost d]> (neighbors s) /\
    hop2list s' = hop2list s /\ unref_heap ql b (packets s) !! q = Some p1 /\
    packets s' = <[q := set_rc (refcount p1 + 1) p1]> (unref_heap ql b (packets s)).
Proof.
  intros Hd Hl Hb Hok Hr [p1 Hp1] lost Hlost. pose proof (lookup_lt_Some _ _ _ Hd) as Hi.
  unfold record_beacon. mcall nth_neigh_ok. unfold last_beacon.
  erewrite M_bind_ok by (rewrite Hl; erewrite M_bind_ok by (by apply lift_ok); by apply as_beacon_ok).
  fold lost. unfold shiftr32. rewrite (proj2 (Z.ltb_lt lost 32)) by done. mlift.
  mcall on_neigh_ok. rewrite Hl. mlift.
  destruct (unref_packet_ok ql (set_neighbors (<[i := set_hist (Z.lor (beaconHist d ≫ lost) 0x80000000) d]> (neighbors s)) s) b Hb Hr)
    as [fd Hu].
  erewrite M_bind_ok by exact Hu. set (s1 := set_fired fd _).
  set (d1 := set_hist (Z.lor (beaconHist d ≫ lost) 0x80000000) d) in *.
  assert (neighbors s1 !! i = Some d1) as H1 by (cbn; by rewrite list_lookup_insert_eq).
  erewrite M_bind_ok by (by apply on_neigh_ok). set (s2 := set_neighbors _ s1).
  assert (packets s2 !! q = Some p1) as Hq2 by done.
  erewrite M_bind_ok by (by apply ref_packet_ok). set (s3 := set_packets _ s2).
  set (d2 := set_last (Some q) now (Beacon.getPeriod p) d1) in *.
  assert (neighbors s3 !! i = Some d2) as H3.
  { cbn. by rewrite list_lookup_insert_eq by (by rewrite length_insert). }
  erewrite M_bind_ok by (by apply nth_neigh_ok).
  destruct (updateActive d2) as [became d3] eqn:Eu.
  assert (heard q now (Beacon.getPeriod p) lost d = d3) as Hh by (unfold heard; fold d1; fold d2; by rewrite Eu).
  erewrite M_bind_ok by (by apply on_neigh_ok). mprim.
  assert (neighbors s3 = <[i := d2]> (<[i := d1]> (neighbors s))) as Hn3 by done.
  assert (<[i := d3]> (neighbors s3) = <[i := d3]> (neighbors s)) as Hn by (by rewrite Hn3, !list_insert_insert_eq).
  destruct (became && _).
  - eexists _, p1. split; [done|]. rewrite Hh, <- Hn. done.
  - eexists _, p1. split; [done|]. rewrite Hh, <- Hn. done.
Qed.

Lemma heard_fields q now period lost d :
  id (heard q now period lost d) = id d /\ lastBeacon (heard q now period lost d) = Some q /\
  lastBeaconTime (heard q now period lost d) = now /\ beaconInterval (heard q now period lost d) = period.
Proof. unfold heard, updateActive. by case_match. Qed.

Lemma desc_ok_frame pk pk' d l :
  desc_ok pk d l -> (forall x, lastBeacon d = Some x -> pk' !! x = pk !! x) -> desc_ok pk' d l.
Proof. intros (q & b & Hl & Hb & ?) Hx. exists q, b. split; [done|]. by rewrite (Hx q Hl). Qed.

Lemma list_ids_rc n p : list_ids (set_rc n p) = list_ids p.
Proof. unfold list_ids, Beacon.getNumNoMpr, Beacon.getNumMpr, get_byte. change (buffer (set_rc n p)) with (buffer p). reflexivity. Qed.

Lemma getSrc_rc n p : SrcPacket.getSrc (set_rc n p) = SrcPacket.getSrc p.
Proof. unfold SrcPacket.getSrc. change (buffer (set_rc n p)) with (buffer p). reflexivity. Qed.

Lemma desc_ok_new pk q p l d n :
  pk !! q = Some (set_rc n p) -> beacon_ok p -> 1 <= n -> list_ids p = Ok l ->
  lastBeacon d = Some q -> id d = SrcPacket.getSrc p -> desc_ok pk d l.
Proof.
  intros Hq Hp Hn Hl Hd Hi. exists q, (set_rc n p).
  rewrite list_ids_rc, getSrc_rc.
  split_and!; [exact Hd|exact Hq|by apply beacon_ok_rc|exact Hn|by symmetry|exact Hl].
Qed.

Lemma mjoin_bound pk ns ls :
  Forall2 (desc_ok pk) ns ls -> (length (mjoin ls) <= 254 * length ns)%nat.
Proof.
  induction 1 as [|d l ns ls (q & b & _ & _ & [Hw _] & _ & _ & Hl) _ IH]; [done|].
  change (mjoin (l :: ls)) with (l ++ mjoin ls). rewrite length_app. cbn [length].
  destruct (list_ids_ok b Hw) as (l' & E & Hb). rewrite Hl in E. injection E as <-. lia.
Qed.

Lemma descs_frame pk pk' ns ls :
  Forall2 (desc_ok pk) ns ls ->
  (forall d x, d ∈ ns -> lastBeacon d = Some x -> pk' !! x = pk !! x) -> Forall2 (desc_ok pk') ns ls.
Proof.
  induction 1 as [|d l ns ls Hd HF IH]; intros Hx; constructor.
  - eapply desc_ok_frame; [exact Hd|]. intros x. apply Hx. by left.
  - apply IH. intros e x He. apply Hx. by right.
Qed.

(** Pointers of the table are distinct, as the sources of the beacons are. *)
Lemma pointers_distinct pk ns ls j k d e x :
  sorted_ids (id <$> ns) -> Forall2 (desc_ok pk) ns ls -> ns !! j = Some d -> ns !! k = Some e ->
  lastBeacon d = Some x -> lastBeacon e = Some x -> j = k.
Proof.
  intros Hs HF Hj Hk Hd He.
  destruct (Forall2_lookup_l _ _ _ _ _ HF Hj) as (l1 & _ & q1 & b1 & Hq1 & Hb1 & _ & _ & Hi1 & _).
  destruct (Forall2_lookup_l _ _ _ _ _ HF Hk) as (l2 & _ & q2 & b2 & Hq2 & Hb2 & _ & _ & Hi2 & _).
  assert (q1 = q2) as <- by congruence. assert (b1 = b2) as <- by congruence.
  assert (id d = id e) as E by congruence.
  destruct (Nat.lt_total j k) as [Hlt|[?|Hgt]]; [|done|].
  - pose proof (ns_lookup_lt ns j k d e Hs Hj Hk Hlt). lia.
  - pose proof (ns_lookup_lt ns k j e d Hs Hk Hj Hgt). lia.
Qed.

(** What [refreshNeigh] requires of the packet it is given: a beacon nobody in
    the table points to, held by the caller. *)
Record fresh_beacon (s : nstate) (q : Z) (p : BasePacket) : Prop := {
  fb_alive : packets s !! q = Some p;
  fb_ok : beacon_ok p;
  fb_held : 1 <= refcount p;
  fb_fresh : Forall (fun d => lastBeacon d <> Some q) (neighbors s);
}.

Definition small_leak (leak : NodeId -> Z) : Prop := forall i, 0 <= leak i <= 20000.

(** The result [refreshNeigh] promises. *)
Record refreshed (leak : NodeId -> Z) (s : nstate) (q now : Z) (p : BasePacket) (s' : nstate) : Prop := {
  rf_inv : table_inv leak s';
  rf_held : packets s' !! q = Some (set_rc (refcount p + 1) p);
  rf_entry : exists d', d' ∈ neighbors s' /\ id d' = SrcPacket.getSrc p /\ lastBeacon d' = Some q /\
    lastBeaconTime d' = now /\ beaconInterval d' = Beacon.getPeriod p;
  rf_others : forall d, id d <> SrcPacket.getSrc p -> d ∈ neighbors s' <-> d ∈ neighbors s;
  rf_frame : forall x, x <> q -> Forall (fun d => lastBeacon d <> Some x) (neighbors s) ->
    packets s' !! x = packets s !! x;
}.

Lemma refresh_new leak s q p now k :
  table_inv leak s -> small_leak leak -> fresh_beacon s q p -> (length (neighbors s) < MaxNeighbors)%nat ->
  findNeigh (SrcPacket.getSrc p) (neighbors s) = Ok (- Z.of_nat k - 1) ->
  place (SrcPacket.getSrc p) (neighbors s) k ->
  exists s', refreshNeigh q now s = Ok (true, s') /\ refreshed leak s q now p s' /\
    neighbors s' = take k (neighbors s) ++
      heard q now (Beacon.getPeriod p) 0 (init (SrcPacket.getSrc p) q now (default NodeDescr_new (neighbors s !! k)))
      :: drop k (neighbors s).
Proof.
  intros [Hs Hlen (ls & HF & Hc)] Hleak [Hq Hok Hr Hfr] Hlt Hf Hpl.
  set (src := SrcPacket.getSrc p) in *. set (ns := neighbors s) in *.
  unfold refreshNeigh. mcall load_packet_ok. rewrite bool_decide_true by apply Hok. mlift.
  mcall as_beacon_ok. mprim. fold ns src. erewrite M_bind_ok by (by apply lift_ok).
  rewrite (proj2 (Z.ltb_lt (- Z.of_nat k - 1) 0)) by lia.
  rewrite (proj2 (Nat.eqb_neq (length ns) MaxNeighbors)) by lia. cbn [andb].
  rewrite (proj2 (Nat.ltb_lt (length ns) MaxNeighbors)) by lia. mlift.
  replace (Z.to_nat (- (- Z.of_nat k - 1) - 1)) with k by lia.
  set (d0 := init src q now (default NodeDescr_new (ns !! k))).
  set (ns1 := take k ns ++ d0 :: drop k ns).
  destruct (list_ids_ok p (proj1 Hok)) as (l & Hl & Hl254).
  pose proof (mjoin_bound _ _ _ HF) as Hjb. unfold MaxNeighbors in *.
  assert (counts (foldl (fun h i => add_one i h) (hop2list s) l) (fun i => leak i + occ i (mjoin ls) + occ i l)) as Hc2.
  { apply add_all_counts; [exact Hc|]. intros i. pose proof (occ_bound i (mjoin ls)).
    pose proof (occ_bound i l). specialize (Hleak i). fold ns in Hjb. lia. }
  set (h2 := foldl _ _ l) in *.
  set (s2 := mkN (<[q := set_rc (refcount p + 1) p]> (packets s)) ns1 h2 (linkFail s) (fired s)).
  erewrite M_bind_ok with (s' := s2) (a := tt).
  2: { mprim. rewrite (proj2 (Nat.leb_le (length ns + 1) _)) by lia. mlift.
       erewrite M_bind_ok by (by apply ref_packet_ok). mprim.
       unfold add2Hop. rewrite Hl, outcome_ret_bind. mlift. done. }
  assert (length (take k ns) = k) as Htk by (rewrite length_take; destruct Hpl; lia).
  assert (ns1 !! k = Some d0) as Hd0.
  { unfold ns1. rewrite lookup_app_r, Htk, Nat.sub_diag by lia. done. }
  assert (unref_heap q (set_rc (refcount p + 1) p) (packets s2) !! q = Some (set_rc (refcount p) p)) as Hu.
  { unfold unref_heap. cbn [refcount set_rc set_refcount].
    rewrite (proj2 (Z.eqb_neq (refcount p + 1) 1)) by lia. rewrite lookup_insert_eq.
    by replace (refcount p + 1 - 1) with (refcount p) by lia. }
  destruct (record_beacon_ok k q now p s2 d0 q (set_rc (refcount p + 1) p)) as (s3 & p1 & E & Hn3 & Hh3 & Hp1 & Hpk3);
    [done|done|by apply lookup_insert_eq|by apply beacon_ok_rc|cbn; lia|by eexists| |].
  { change (SrcPacket.getSeq (set_rc _ p)) with (SrcPacket.getSeq p). by rewrite Z.sub_diag. }
  change (SrcPacket.getSeq (set_rc (refcount p + 1) p)) with (SrcPacket.getSeq p) in Hn3.
  rewrite Z.sub_diag in Hn3. change (u8 0) with 0 in Hn3.
  erewrite M_bind_ok by exact E. exists s3. split; [done|].
  rewrite Hu in Hp1. injection Hp1 as <-.
  set (d1 := heard q now (Beacon.getPeriod p) 0 d0) in *.
  destruct (heard_fields q now (Beacon.getPeriod p) 0 d0) as (F1 & F2 & F3 & F4). fold d1 in F1, F2, F3, F4.
  change (id d0) with src in F1.
  assert (neighbors s3 = take k ns ++ d1 :: drop k ns) as Hns3.
  { rewrite Hn3. change (neighbors s2) with ns1. unfold ns1. rewrite insert_app_r_alt by lia.
    rewrite Htk, Nat.sub_diag. done. }
  assert (packets s3 !! q = Some (set_rc (refcount p + 1) p)) as Hq3.
  { rewrite Hpk3, lookup_insert_eq. done. }
  assert (forall x, x <> q -> packets s3 !! x = packets s !! x) as Hx3.
  { intros x Hne. rewrite Hpk3, lookup_insert_ne by done. unfold unref_heap. cbn [refcount set_rc set_refcount].
    rewrite (proj2 (Z.eqb_neq (refcount p + 1) 1)) by lia. cbn. by rewrite !lookup_insert_ne. }
  assert (Forall2 (desc_ok (packets s3)) ns ls) as HF3.
  { eapply descs_frame; [exact HF|]. intros d x Hd Hx. apply Hx3. intros ->.
    by apply (proj1 (Forall_forall _ _) Hfr d). }
  split; [|done]. split; [split| | | |].
  - rewrite Hns3. apply (place_sorted src); [exact Hs|exact Hpl|exact F1].
  - rewrite Hns3, length_app, Htk. cbn [length]. rewrite length_drop. destruct Hpl. unfold MaxNeighbors. lia.
  - exists (take k ls ++ l :: drop k ls). split.
    + rewrite Hns3. apply Forall2_app; [by apply Forall2_take|]. constructor; [|by apply Forall2_drop].
      eapply desc_ok_new; [exact Hq3|exact Hok|lia|exact Hl|exact F2|exact F1].
    + rewrite Hh3. eapply counts_ext; [exact Hc2|]. intros i. rewrite occ_insert, (occ_split k ls). lia.
  - done.
  - exists d1. rewrite Hns3, elem_of_app, elem_of_cons. auto 6.
  - intros d Hne. rewrite Hns3. fold ns. rewrite (elem_split k ns), !elem_of_app, elem_of_cons.
    split; [|tauto]. intros [?|[->|?]]; [tauto| |tauto]. exfalso. exact (Hne F1).
  - intros x Hx _. by apply Hx3.
Qed.

Lemma occ_replace k (ls : list (list NodeId)) l l' i :
  ls !! k = Some l' -> occ i (mjoin (<[k := l]> ls)) = occ i (mjoin ls) - occ i l' + occ i l.
Proof.
  intros Hk. pose proof (lookup_lt_Some _ _ _ Hk).
  rewrite <- (take_drop_middle ls k l' Hk) at 2. rewrite insert_take_drop by done.
  rewrite !join_app, !occ_app.
  change (mjoin (?a :: drop (S k) ls)) with (a ++ mjoin (drop (S k) ls)). rewrite !occ_app. lia.
Qed.

(** The heap after an old beacon was released and the new one referenced. *)
Lemma swap_heap (pk : gmap Z BasePacket) ql b q p :
  ql <> q -> pk !! q = Some p ->
  let pk' := <[q := set_rc (refcount p + 1) p]> (unref_heap ql b pk) in
  unref_heap ql b pk !! q = Some p /\ pk' !! q = Some (set_rc (refcount p + 1) p) /\
  (forall x, x <> q -> x <> ql -> pk' !! x = pk !! x).
Proof.
  intros Hne Hq pk'. unfold pk', unref_heap. split_and!.
  - case_match; [by rewrite lookup_delete_ne|by rewrite lookup_insert_ne].
  - by rewrite lookup_insert_eq.
  - intros x Hx Hxl. rewrite lookup_insert_ne by done.
    case_match; [by rewrite lookup_delete_ne|by rewrite lookup_insert_ne].
Qed.

Lemma insert_sorted (ns : list NodeDescr) (k : nat) d d' :
  ns !! k = Some d -> id d' = id d -> id <$> <[k := d']> ns = id <$> ns.
Proof.
  intros Hk E. rewrite list_fmap_insert, E. apply list_insert_id. by rewrite list_lookup_fmap, Hk.
Qed.

Lemma refresh_old leak s q p now k d ql b :
  table_inv leak s -> small_leak leak -> fresh_beacon s q p -> (length (neighbors s) < MaxNeighbors)%nat ->
  findNeigh (SrcPacket.getSrc p) (neighbors s) = Ok (Z.of_nat k) ->
  neighbors s !! k = Some d -> id d = SrcPacket.getSrc p ->
  lastBeacon d = Some ql -> packets s !! ql = Some b ->
  let lost := u8 (SrcPacket.getSeq p - SrcPacket.getSeq b) in lost < 32 ->
  exists s', refreshNeigh q now s = Ok (false, s') /\ refreshed leak s q now p s' /\
    neighbors s' = <[k := heard q now (Beacon.getPeriod p) lost d]> (neighbors s).
Proof.
  intros [Hs Hlen (ls & HF & Hc)] Hleak [Hq Hok Hr Hfr] Hlt Hf Hk Hid Hql Hb lost Hlost.
  destruct (Forall2_lookup_l _ _ _ _ _ HF Hk) as (l0 & Hl0 & ql' & b' & Hq' & Hb' & Hbok & Hrc & Hsrc & Hlids).
  rewrite Hql in Hq'. injection Hq' as <-. rewrite Hb in Hb'. injection Hb' as <-.
  assert (ql <> q) as Hne.
  { intros ->. apply (Forall_lookup_1 _ _ _ _ Hfr) in Hk. done. }
  destruct (list_ids_ok p (proj1 Hok)) as (l & Hl & Hl254).
  pose proof (mjoin_bound _ _ _ HF) as Hjb. unfold MaxNeighbors in *.
  assert (forall i, occ i l0 <= leak i + occ i (mjoin ls) < 32768) as Hb1.
  { intros i. specialize (Hleak i). pose proof (occ_bound i (mjoin ls)).
    pose proof (occ_replace k ls [] l0 i Hl0) as Hrep. pose proof (occ_bound i (mjoin (<[k:=[]]> ls))).
    change (occ i []) with 0 in Hrep. lia. }
  destruct (remove_all_counts _ _ _ Hc Hb1) as (h1 & Hh1 & Hc1).
  assert (counts (foldl (fun h i => add_one i h) h1 l) (fun i => leak i + occ i (mjoin ls) - occ i l0 + occ i l)) as Hc2.
  { apply add_all_counts; [exact Hc1|]. intros i. specialize (Hleak i). pose proof (occ_bound i (mjoin ls)).
    pose proof (occ_bound i l). pose proof (occ_bound i l0). lia. }
  set (h2 := foldl _ h1 l) in *.
  unfold refreshNeigh. mcall load_packet_ok. rewrite bool_decide_true by apply Hok. mlift.
  mcall as_beacon_ok. mprim. erewrite M_bind_ok by (by apply lift_ok).
  rewrite (proj2 (Z.ltb_ge (Z.of_nat k) 0)) by lia. cbn [andb].
  rewrite (proj2 (Nat.ltb_lt (length (neighbors s)) MaxNeighbors)) by (unfold MaxNeighbors; lia). mlift.
  rewrite Nat2Z.id.
  set (s2 := set_hop2list h2 s).
  erewrite M_bind_ok with (s' := s2) (a := tt).
  2: { mcall nth_neigh_ok. unfold last_beacon.
       erewrite M_bind_ok by (rewrite Hql; erewrite M_bind_ok by (by apply lift_ok); by apply as_beacon_ok).
       mprim. unfold remove2Hop. rewrite Hlids, outcome_ret_bind, Hh1. mlift.
       unfold add2Hop. rewrite Hl, outcome_ret_bind. mlift. done. }
  destruct (swap_heap (packets s) ql b q p Hne Hq) as (Hu & Hq3 & Hx3).
  destruct (record_beacon_ok k q now p s2 d ql b) as (s3 & p1 & E & Hn3 & Hh3 & Hp1 & Hpk3);
    [done|done|done|done|done|by eexists|exact Hlost|].
  change (packets s2) with (packets s) in *. rewrite Hu in Hp1. injection Hp1 as <-.
  erewrite M_bind_ok by exact E. exists s3. split; [done|]. fold lost in Hn3.
  change (neighbors s2) with (neighbors s) in Hn3. split; [|exact Hn3].
  set (d1 := heard q now (Beacon.getPeriod p) lost d) in *.
  destruct (heard_fields q now (Beacon.getPeriod p) lost d) as (F1 & F2 & F3 & F4). fold d1 in F1, F2, F3, F4.
  pose proof (lookup_lt_Some _ _ _ Hk) as Hklt.
  split; [split| | | |].
  - rewrite Hn3, (insert_sorted _ _ _ _ Hk F1). exact Hs.
  - rewrite Hn3, length_insert. unfold MaxNeighbors. lia.
  - exists (<[k := l]> ls). split.
    + rewrite Hn3. apply Forall2_same_length_lookup_2.
      { rewrite !length_insert. by eapply Forall2_length. }
      intros j e m Hj Hm. destruct (decide (j = k)) as [->|Hjk].
      * rewrite list_lookup_insert_eq in Hj by done. injection Hj as <-.
        rewrite list_lookup_insert_eq in Hm by (by eapply lookup_lt_Some). injection Hm as <-.
        eapply desc_ok_new; [rewrite Hpk3; exact Hq3|exact Hok|lia|exact Hl|exact F2|congruence].
      * rewrite list_lookup_insert_ne in Hj by done. rewrite list_lookup_insert_ne in Hm by done.
        eapply desc_ok_frame; [eapply Forall2_lookup_lr; [exact HF|exact Hj|exact Hm]|].
        intros x Hx. rewrite Hpk3. apply Hx3.
        -- intros ->. apply (Forall_lookup_1 _ _ _ _ Hfr) in Hj. done.
        -- intros ->. apply Hjk. exact (pointers_distinct _ _ _ _ _ _ _ _ Hs HF Hj Hk Hx Hql).
    + rewrite Hh3. eapply counts_ext; [exact Hc2|]. intros i. rewrite (occ_replace _ _ _ l0) by done. lia.
  - rewrite Hpk3. exact Hq3.
  - exists d1. split_and!; [|congruence|exact F2|exact F3|exact F4].
    rewrite Hn3. apply (list_elem_of_lookup_2 _ k). by apply list_lookup_insert_eq.
  - intros e He. rewrite Hn3. rewrite !list_elem_of_lookup. split; intros [j Hj]; exists j.
    + destruct (decide (j = k)) as [->|]; [|by rewrite list_lookup_insert_ne in Hj].
      rewrite list_lookup_insert_eq in Hj by done. injection Hj as <-. congruence.
    + destruct (decide (j = k)) as [->|]; [congruence|by rewrite list_lookup_insert_ne].
  - intros x Hx Hall. rewrite Hpk3. apply Hx3; [done|]. intros ->.
    apply (Forall_lookup_1 _ _ _ _ Hall) in Hk. done.
Qed.
End refresh.


(** A station with an empty table and some packets in its heap. *)
Definition empty_table (pk : gmap Z BasePacket) : nstate := mkN pk [] ∅ None [].

Lemma empty_table_inv pk : table_inv (fun _ => 0) (empty_table pk).
Proof.
  split; [constructor|cbn; unfold MaxNeighbors; lia|]. exists []. split; [constructor|].
  intros i. cbn [hop2list empty_table]. rewrite lookup_empty. done.
Qed.

Definition ex_beacon (src seq : Z) : BasePacket :=
  SrcPacket.setSeq seq (SrcPacket.setSrc src (Beacon.mk BasePacket_new)).

Lemma ex_beacon_wf src seq : wf_packet (ex_beacon src seq).
Proof.
  pose proof (Forall_lookup_1 _ _ 0%nat _ src_fields_law eq_refl) as L1.
  pose proof (Forall_lookup_1 _ _ 1%nat _ src_fields_law eq_refl) as L2.
  assert (wf_packet (Beacon.mk BasePacket_new)) as H0
    by (apply set_byte_wf; [apply BasePacket_new_wf|apply MaxSize_pos]).
  assert (wf_packet (SrcPacket.setSrc src (Beacon.mk BasePacket_new))) as H1 by exact (field_set_wf _ src _ L1 H0).
  exact (field_set_wf _ seq _ L2 H1).
Qed.

