(* ===== verification/LinkThms.v ===== *)
(** * Link state: activation, quality, failure

    When a neighbour becomes active, what its quality counts, and what the
    periodic check of the links does; with the situations in which the check and
    the table abort, and what the removal of expired neighbours leaves behind. *)

From S2P Require Import Prelude Bytes NodeId Packet Neighbors NeighborThms.

(** ** Activation *)

(** The history after [k] beacons in a row. *)
Definition full_history (k : nat) : Z := 2 ^ 32 - 2 ^ (32 - Z.of_nat k).

Lemma full_history_step k :
  (1 <= k <= 31)%nat -> Z.lor (Z.shiftr (full_history k) 1) 0x80000000 = full_history (S k).
Proof.
  intros Hk. assert (k ∈ seq 1 31) as Hin by (apply elem_of_seq; lia).
  assert (forallb (fun k => Z.lor (Z.shiftr (full_history k) 1) 0x80000000 =? full_history (S k)) (seq 1 31) = true)
    as Hall by (by vm_compute).
  rewrite forallb_forall in Hall. apply Z.eqb_eq, Hall. by apply list_elem_of_In.
Qed.

Lemma full_history_active k :
  (1 <= k <= 32)%nat -> (0xFFF00000 <? full_history k) = (13 <=? k)%nat.
Proof.
  intros Hk. assert (k ∈ seq 1 32) as Hin by (apply elem_of_seq; lia).
  assert (forallb (fun k => eqb (0xFFF00000 <? full_history k) (13 <=? k)%nat) (seq 1 32) = true)
    as Hall by (by vm_compute).
  rewrite forallb_forall in Hall. apply eqb_prop, Hall. by apply list_elem_of_In.
Qed.

Lemma consecutive_lost a b :
  0 <= a < 65536 -> b = (a + 1) mod 65536 -> u8 (b - a) = 1.
Proof.
  intros Ha ->. unfold wrap. change (2 ^ 8) with 256.
  destruct (Z.eq_dec a 65535) as [->|]; [done|]. rewrite (Z.mod_small (a + 1)) by lia.
  by replace (a + 1 - a) with 1 by lia.
Qed.

Section activation.
Context `{Gea}.

(** The beacons of a list of (address, time, packet), one after the other. *)
Fixpoint refresh_all (l : list (Z * Z * BasePacket)) : N unit :=
  match l with
  | [] => mret tt
  | (q, now, _) :: l => refreshNeigh q now;; refresh_all l
  end.

(** Beacons of [src] with consecutive sequence numbers from [n] on. *)
Fixpoint in_row (src n : Z) (l : list (Z * Z * BasePacket)) : Prop :=
  match l with
  | [] => True
  | (_, _, p) :: l => SrcPacket.getSrc p = src /\ SrcPacket.getSeq p = n mod 65536 /\ in_row src (n + 1) l
  end.

(** Packets that wait in the heap, each at an address of its own, none in the table. *)
Definition waiting (s : nstate) (l : list (Z * Z * BasePacket)) : Prop :=
  NoDup (l.*1.*1) /\ Forall (fun '(q, _, p) => fresh_beacon s q p) l.

Lemma heard_active q now period lost d :
  active (heard q now period lost d) =
    active d || (0xFFF00000 <? Z.lor (Z.shiftr (beaconHist d) lost) 0x80000000) /\
  beaconHist (heard q now period lost d) = Z.lor (Z.shiftr (beaconHist d) lost) 0x80000000.
Proof.
  unfold heard, updateActive. destruct d as [i lb t iv lv h a m]. cbn -[Z.lor Z.shiftr Z.ltb Z.mul].
  destruct a; [done|]. cbn [negb andb orb]. by destruct (0xFFF00000 <? _).
Qed.

Lemma waiting_step leak s q now p l s' d' :
  waiting s ((q, now, p) :: l) -> refreshed leak s q now p s' -> neighbors s' = [d'] ->
  lastBeacon d' = Some q -> waiting s' l.
Proof.
  intros [Hnd Hall] Hrf Hn' Hd'. cbn in Hnd. apply NoDup_cons in Hnd as [Hq Hnd].
  apply Forall_cons in Hall as [_ Hall]. split; [done|].
  apply Forall_forall. intros [[q1 t1] p1] Hin. rewrite Forall_forall in Hall.
  specialize (Hall _ Hin). cbn in Hall. destruct Hall as [Ha Hok Hr Hf].
  assert (q1 <> q) as Hne.
  { intros ->. apply Hq, list_elem_of_fmap. exists (q, t1). split; [done|].
    apply list_elem_of_fmap. by exists (q, t1, p1). }
  split; [by rewrite (rf_frame _ _ _ _ _ _ Hrf)|done|done|].
  rewrite Hn'. constructor; [|constructor]. congruence.
Qed.

(** The state of the table while the beacons of one station come in. *)
Record only_neighbour (s : nstate) (src last : Z) (k : nat) : Prop := {
  on_inv : table_inv (fun _ => 0) s;
  on_descr : exists d q b, neighbors s = [d] /\ id d = src /\ lastBeacon d = Some q /\
    packets s !! q = Some b /\ SrcPacket.getSeq b = last mod 65536 /\
    beaconHist d = full_history k /\ active d = (13 <=? k)%nat;
}.

Lemma getSeq_rc n p : SrcPacket.getSeq (set_rc n p) = SrcPacket.getSeq p.
Proof. unfold SrcPacket.getSeq. change (buffer (set_rc n p)) with (buffer p). reflexivity. Qed.

Lemma first_beacon s q now p src n l :
  table_inv (fun _ => 0) s -> neighbors s = [] -> waiting s ((q, now, p) :: l) ->
  SrcPacket.getSrc p = src -> SrcPacket.getSeq p = n mod 65536 ->
  exists s', refreshNeigh q now s = Ok (true, s') /\ only_neighbour s' src n 1 /\ waiting s' l.
Proof.
  intros Hti Hn Hw Hsrc Hseq. destruct Hw as [Hnd Hall] eqn:EW. clear EW.
  apply Forall_cons in Hall as [Hfb _].
  destruct (refresh_new (fun _ => 0) s q p now 0) as (s' & E & Hrf & Hn'); try done.
  - rewrite Hn. cbn. unfold MaxNeighbors. lia.
  - by rewrite Hn.
  - rewrite Hn. split; [cbn; lia|]. split; intros j d Hj; by rewrite lookup_nil in Hj.
  - rewrite Hn in Hn'. cbn [take drop app] in Hn'.
    destruct (heard_fields q now (Beacon.getPeriod p) 0 (init (SrcPacket.getSrc p) q now (default NodeDescr_new ([] !! 0%nat))))
      as (F1 & F2 & _).
    destruct (heard_active q now (Beacon.getPeriod p) 0 (init (SrcPacket.getSrc p) q now (default NodeDescr_new ([] !! 0%nat))))
      as (A1 & A2).
    set (d := heard _ _ _ _ _) in *.
    exists s'. split; [exact E|]. split; [split; [apply (rf_inv _ _ _ _ _ _ Hrf)|]|by eapply waiting_step].
    exists d, q, (set_rc (refcount p + 1) p).
    split_and!; [exact Hn'|rewrite F1; exact Hsrc|exact F2|apply (rf_held _ _ _ _ _ _ Hrf)| | |].
    + rewrite getSeq_rc. exact Hseq.
    + rewrite A2. done.
    + rewrite A1. done.
Qed.

Lemma next_beacon s q now p src n k l :
  only_neighbour s src n k -> (1 <= k <= 31)%nat -> waiting s ((q, now, p) :: l) ->
  SrcPacket.getSrc p = src -> SrcPacket.getSeq p = (n + 1) mod 65536 ->
  exists s', refreshNeigh q now s = Ok (false, s') /\ only_neighbour s' src (n + 1) (S k) /\ waiting s' l.
Proof.
  intros [Hti (d & ql & b & Hn & Hid & Hql & Hb & Hseqb & Hh & Hact)] Hk Hw Hsrc Hseq.
  destruct Hw as [Hnd Hall] eqn:EW. clear EW. apply Forall_cons in Hall as [Hfb _].
  assert (u8 (SrcPacket.getSeq p - SrcPacket.getSeq b) = 1) as Hlost.
  { apply consecutive_lost; [rewrite Hseqb; apply Z.mod_pos_bound; lia|].
    rewrite Hseq, Hseqb. by rewrite Zplus_mod_idemp_l. }
  assert (findNeigh (SrcPacket.getSrc p) (neighbors s) = Ok (Z.of_nat 0)) as Hf.
  { rewrite Hn, Hsrc. unfold findNeigh. cbn. by rewrite Hid, Z.eqb_refl. }
  destruct (refresh_old (fun _ => 0) s q p now 0 d ql b) as (s' & E & Hrf & Hn'); try done.
  - rewrite Hn. cbn. unfold MaxNeighbors. lia.
  - by rewrite Hn.
  - by rewrite Hid.
  - by rewrite Hlost.
  - rewrite Hlost, Hn in Hn'. cbn [insert list_insert] in Hn'.
    destruct (heard_fields q now (Beacon.getPeriod p) 1 d) as (F1 & F2 & _).
    destruct (heard_active q now (Beacon.getPeriod p) 1 d) as (A1 & A2).
    rewrite Hh, full_history_step in A1, A2 by done. rewrite full_history_active, Hact in A1 by lia.
    set (d' := heard _ _ _ _ _) in *.
    exists s'. split; [exact E|]. split; [split; [apply (rf_inv _ _ _ _ _ _ Hrf)|]|by eapply waiting_step].
    exists d', q, (set_rc (refcount p + 1) p).
    split_and!; [exact Hn'|rewrite F1; exact Hid|exact F2|apply (rf_held _ _ _ _ _ _ Hrf)| |exact A2|].
    + rewrite getSeq_rc. exact Hseq.
    + rewrite A1. destruct (Nat.leb_spec 13 k), (Nat.leb_spec 13 (S k)); lia || done.
Qed.

Lemma more_beacons l s src n k :
  only_neighbour s src n k -> (1 <= k)%nat -> (k + length l <= 32)%nat -> waiting s l -> in_row src (n + 1) l ->
  exists s', refresh_all l s = Ok (tt, s') /\ only_neighbour s' src (n + Z.of_nat (length l)) (k + length l).
Proof.
  revert s n k. induction l as [|[[q now] p] l IH]; intros s n k Hon Hk Hl Hw Hr.
  - exists s. split; [done|]. cbn. by rewrite Z.add_0_r, Nat.add_0_r.
  - destruct Hr as (Hsrc & Hseq & Hr). cbn [length] in Hl.
    destruct (next_beacon s q now p src n k l) as (s1 & E1 & Hon1 & Hw1); [done|lia|done..|].
    destruct (IH s1 (n + 1) (S k)) as (s2 & E2 & Hon2); [done|lia|lia|done..|].
    exists s2. split; [cbn [refresh_all]; by rewrite (M_bind_ok _ _ _ _ _ E1)|].
    cbn [length]. replace (n + Z.of_nat (S (length l))) with (n + 1 + Z.of_nat (length l)) by lia.
    by replace (k + S (length l))%nat with (S k + length l)%nat by lia.
Qed.
End activation.

(** C21. A new neighbour becomes active with its 13th beacon in a row: after
    between 1 and 32 beacons of one station with consecutive sequence numbers
    (across the wrap-around of the 16-bit counter) the station is the only
    neighbour, and it is active exactly if there were at least 13 of them. *)
Theorem active_after_13_beacons `{Gea} s src n (l : list (Z * Z * BasePacket)) :
  table_inv (fun _ => 0) s -> neighbors s = [] -> waiting s l -> in_row src n l ->
  (1 <= length l <= 32)%nat ->
  exists s' d, refresh_all l s = Ok (tt, s') /\ neighbors s' = [d] /\ id d = src /\
    active d = (13 <=? length l)%nat.
Proof.
  intros Hti Hn Hw Hr Hl. destruct l as [|[[q now] p] l]; [cbn in Hl; lia|].
  destruct Hr as (Hsrc & Hseq & Hr).
  destruct (first_beacon s q now p src n l) as (s1 & E1 & Hon1 & Hw1); [done..|].
  destruct (more_beacons l s1 src n 1) as (s2 & E2 & [_ (d & ? & ? & Hd & Hid & _ & _ & _ & _ & Hact)]);
    [done|lia|cbn in *; lia|done..|].
  exists s2, d. split; [cbn [refresh_all]; by rewrite (M_bind_ok _ _ _ _ _ E1)|]. done.
Qed.

(** 13 beacons across the wrap-around of the sequence number. *)
Definition ex_row (k : nat) : list (Z * Z * BasePacket) :=
  (fun j => (100 + Z.of_nat j, Z.of_nat j, ex_beacon 7 (65530 + Z.of_nat j))) <$> seq 0 k.
Definition ex_heap (l : list (Z * Z * BasePacket)) : gmap Z BasePacket :=
  list_to_map ((fun '(q, _, p) => (q, p)) <$> l).

Lemma ex_waiting k : waiting (empty_table (ex_heap (ex_row k))) (ex_row k).
Proof.
  assert (NoDup (ex_row k).*1.*1) as Hnd.
  { unfold ex_row. rewrite <- !list_fmap_compose. apply NoDup_fmap_2, NoDup_seq. intros a b. cbn. lia. }
  split; [exact Hnd|]. apply Forall_forall. intros [[q t] p] Hin.
  assert (p ∈ (fun j => ex_beacon 7 (65530 + Z.of_nat j)) <$> seq 0 k) as Hp.
  { unfold ex_row in Hin. apply list_elem_of_fmap in Hin as (j & [= -> -> ->] & Hj). apply list_elem_of_fmap. eauto. }
  split.
  - cbn. unfold ex_heap. apply elem_of_list_to_map_1.
    + rewrite <- list_fmap_compose. rewrite <- list_fmap_compose in Hnd.
      erewrite list_fmap_ext; [exact Hnd|]. intros i [[a b] c] _. done.
    + apply list_elem_of_fmap. by exists (q, t, p).
  - apply list_elem_of_fmap in Hp as (j & -> & _). split; [apply ex_beacon_wf|].
    unfold ex_beacon, getType. vm_compute. reflexivity.
  - apply list_elem_of_fmap in Hp as (j & -> & _). vm_compute. discriminate.
  - constructor.
Qed.

Lemma active_after_13_beacons_witness : exists s' d,
  refresh_all (H := gea_ns) (ex_row 13) (empty_table (ex_heap (ex_row 13))) = Ok (tt, s') /\
  neighbors s' = [d] /\ id d = 7 /\ active d = true.
Proof.
  apply (active_after_13_beacons (H := gea_ns) (empty_table (ex_heap (ex_row 13))) 7 65530 (ex_row 13)).
  - apply empty_table_inv.
  - reflexivity.
  - apply ex_waiting.
  - vm_compute. tauto.
  - cbn. lia.
Defined.

(** ** Quality *)

Fixpoint pos_ones (p : positive) : Z :=
  match p with xH => 1 | xO p => pos_ones p | xI p => pos_ones p + 1 end.
Definition ones_of (x : Z) : Z := match x with Zpos p => pos_ones p | _ => 0 end.

Lemma pos_ones_pos p : 1 <= pos_ones p.
Proof. induction p; cbn; lia. Qed.

Lemma ones_double x : ones_of (2 * x) = ones_of x.
Proof. by destruct x. Qed.

Lemma land_double a b : Z.land (2 * a) (2 * b + 1) = 2 * Z.land a b.
Proof.
  apply Z.bits_inj'. intros n Hn. rewrite Z.land_spec.
  destruct (Z.eq_dec n 0) as [->|].
  - by rewrite !Z.testbit_even_0.
  - replace n with (Z.succ (n - 1)) by lia. rewrite !Z.testbit_even_succ, Z.testbit_odd_succ by lia.
    by rewrite Z.land_spec.
Qed.

(** [x & (x - 1)] clears the lowest bit that is set. *)
Lemma clear_lowest p : let y := Z.land (Zpos p) (Zpos p - 1) in 0 <= y < Zpos p /\ ones_of y = pos_ones p - 1.
Proof.
  cbv zeta. induction p as [p IH|p IH|].
  - change (Zpos p~1) with (2 * Zpos p + 1). replace (2 * Zpos p + 1 - 1) with (2 * Zpos p) by lia.
    rewrite Z.land_comm, land_double, Z.land_diag. rewrite ones_double. cbn [pos_ones ones_of]. lia.
  - change (Zpos p~0) with (2 * Zpos p).
    replace (2 * Zpos p - 1) with (2 * (Zpos p - 1) + 1) by lia. rewrite land_double, ones_double.
    cbn [pos_ones]. lia.
  - split; [split; [discriminate|reflexivity]|reflexivity].
Qed.

Lemma quality_loop_ok fuel p n :
  pos_ones p <= Z.of_nat fuel -> 0 <= n -> n + pos_ones p < 256 -> Zpos p < 2 ^ 32 ->
  quality_loop fuel (Zpos p) n = Ok (n + pos_ones p).
Proof.
  revert p n. induction fuel as [|fuel IH]; intros p n Hf Hn Hb Hp; pose proof (pos_ones_pos p); [lia|].
  cbn [quality_loop]. rewrite (wrap_id 8 (n + 1)) by (unfold in_width; lia).
  rewrite (wrap_id 32 (Zpos p - 1)) by (unfold in_width; lia).
  destruct (clear_lowest p) as [Hy Ho]. destruct (Z.land (Zpos p) (Zpos p - 1)) as [|y|y] eqn:E; [| |lia].
  - cbn [Z.eqb]. cbn in Ho. f_equal. lia.
  - cbn [Z.eqb]. cbn in Ho. rewrite IH by lia. f_equal. lia.
Qed.

Lemma pos_ones_size p n : Zpos p < 2 ^ Z.of_nat n -> pos_ones p <= Z.of_nat n.
Proof.
  revert p. induction n as [|n IH]; intros p Hp; [cbn in Hp; lia|].
  rewrite Nat2Z.inj_succ, Z.pow_succ_r in Hp by lia.
  destruct p as [p|p|]; cbn [pos_ones]; [| |lia].
  - pose proof (IH p). lia.
  - pose proof (IH p). lia.
Qed.

(** [quality] is the number of beacons received among the last 32: for every
    32-bit history that is not empty it ends within 32 rounds with the number of
    bits set, which is between 1 and 32; for an empty history its assertion fails. *)
Theorem quality_counts_bits (d : NodeDescr) :
  0 <= beaconHist d < 2 ^ 32 ->
  quality d = (if beaconHist d =? 0 then Fail AssertFail else Ok (ones_of (beaconHist d))) /\
  (beaconHist d <> 0 -> 1 <= ones_of (beaconHist d) <= 32).
Proof.
  intros Hb. unfold quality. destruct (beaconHist d) as [|p|p]; [|cbn [Z.eqb]|lia].
  - split; [done|lia].
  - pose proof (pos_ones_size p 32 (proj2 Hb)). pose proof (pos_ones_pos p).
    split; [|cbn; lia]. rewrite quality_loop_ok by lia. rewrite outcome_ret_bind, Z.add_0_l.
    rewrite (proj2 (Z.ltb_lt 0 _)) by lia. done.
Qed.

Lemma quality_counts_bits_witness :
  quality (mkDescr 1 None 0 0 0 0xF0000001 false true) = Ok 5 /\ 1 <= 5 <= 32.
Proof.
  destruct (quality_counts_bits (mkDescr 1 None 0 0 0 0xF0000001 false true)) as [Hq Hr].
  - cbn. lia.
  - split; [exact Hq|]. apply Hr. discriminate.
Defined.

(** ** The check of the links *)

Definition failing (now : Z) (d : NodeDescr) : bool := active d && (linkValidity d <=? now).
Definition deactivate (now : Z) (d : NodeDescr) : NodeDescr := if failing now d then set_active false d else d.
Fixpoint num_failing (now : Z) (ns : list NodeDescr) : nat :=
  match ns with [] => 0 | d :: ns => (if failing now d then 1 else 0) + num_failing now ns end.

(** The earliest time a link of an active neighbour ends. *)
Definition min_opt (m : option Z) (v : Z) : option Z :=
  match m with Some x => Some (Z.min x v) | None => Some v end.
Definition live_min (m : option Z) (ns : list NodeDescr) : option Z :=
  foldl (fun m d => if active d then min_opt m (linkValidity d) else m) m ns.

Lemma min_opt_code m v :
  match m with Some x => if v <? x then Some v else m | None => Some v end = min_opt m v.
Proof. destruct m as [x|]; [|done]. cbn. destruct (Z.ltb_spec v x); f_equal; lia. Qed.

Lemma check_loop_changed now ns pre m :
  check_loop now ns pre true m =
    if (num_failing now ns =? 0)%nat then Ok (reverse pre ++ ns, true, live_min m ns) else Fail AssertFail.
Proof.
  revert pre m. induction ns as [|d ns IH]; intros pre m; cbn [check_loop].
  - cbn. by rewrite app_nil_r.
  - rewrite min_opt_code. cbn [live_min foldl num_failing]. fold (live_min m ns).
    unfold failing. destruct (active d) eqn:Ea; cbn [andb].
    + destruct (Z.ltb_spec now (linkValidity d)) as [Hlt|Hge].
      * rewrite (proj2 (Z.leb_gt _ _)) by done. change (cassert true) with (Ok tt).
        rewrite outcome_ret_bind, IH, reverse_cons, <- app_assoc. done.
      * rewrite (proj2 (Z.leb_le _ _)) by done. done.
    + rewrite IH, reverse_cons, <- app_assoc. done.
Qed.

Lemma none_failing now ns : num_failing now ns = 0%nat -> deactivate now <$> ns = ns.
Proof.
  induction ns as [|d ns IH]; intros Hn; [done|]. cbn [num_failing] in Hn. cbn [fmap list_fmap].
  rewrite IH by lia. unfold deactivate. by destruct (failing now d).
Qed.

Lemma check_loop_spec now ns pre m :
  check_loop now ns pre false m =
    if (num_failing now ns <=? 1)%nat
    then Ok (reverse pre ++ (deactivate now <$> ns), (0 <? num_failing now ns)%nat,
             live_min m (deactivate now <$> ns))
    else Fail AssertFail.
Proof.
  revert pre m. induction ns as [|d ns IH]; intros pre m; cbn [check_loop].
  - cbn. by rewrite app_nil_r.
  - unfold updateInactive. fold (failing now d). cbn [num_failing fmap list_fmap].
    destruct (failing now d) eqn:Ef.
    + cbn [active set_active]. rewrite check_loop_changed. unfold deactivate at 1 3. rewrite Ef.
      destruct (num_failing now ns) as [|k] eqn:Ek; [|done].
      rewrite none_failing, reverse_cons, <- app_assoc by done. done.
    + rewrite min_opt_code. unfold deactivate at 1 3. rewrite Ef. cbn [live_min foldl].
      unfold failing in Ef. destruct (active d) eqn:Ea; cbn [andb] in Ef.
      * apply Z.leb_gt in Ef. rewrite (proj2 (Z.ltb_lt _ _)) by done.
        change (cassert true) with (Ok tt). rewrite outcome_ret_bind, IH, reverse_cons, <- app_assoc. done.
      * rewrite IH, reverse_cons, <- app_assoc. done.
Qed.

(** The check of the links: if at most one active link has run out, the check
    marks it inactive, drops the expired neighbours, waits for the earliest end
    of the links that are left and reports whether a link failed.  If two active
    links have run out it aborts: once one failure is found the other neighbours
    are not updated any more, and the assertion that every active link is still
    valid fails. *)
Theorem link_check (s : nstate) (now : Z) :
  (length (neighbors s) <= MaxNeighbors)%nat ->
  let ns := deactivate now <$> neighbors s in
  checkLinkFailure now s =
    if (num_failing now (neighbors s) <=? 1)%nat
    then Ok ((0 <? num_failing now (neighbors s))%nat,
             mkN (packets s) (filter (fun d => isExpired now d = false) ns) (hop2list s)
                 (live_min None ns) (fired s))
    else Fail AssertFail.
Proof.
  intros Hl ns. unfold checkLinkFailure. mprim. mprim.
  change (neighbors (set_linkFail None s)) with (neighbors s).
  pose proof (check_loop_spec now (neighbors s) [] None) as E. cbn [reverse] in E.
  destruct (num_failing now (neighbors s) <=? 1)%nat.
  - erewrite M_bind_ok by (apply lift_ok; exact E). cbv beta iota. fold ns. mprim.
    assert (length (filter (fun d => isExpired now d = false) ns) <= MaxNeighbors)%nat as Hle.
    { pose proof (length_filter (fun d => isExpired now d = false) ns) as Hf. unfold ns in Hf at 2.
      rewrite length_fmap in Hf. lia. }
    destruct (live_min None ns) as [t|] eqn:El.
    + mprim. unfold removeOldNeigh. erewrite M_bind_ok.
      2: { mprim. mprim. apply lift_ok. cbn [neighbors set_neighbors set_linkFail].
           rewrite app_nil_l, (proj2 (Nat.leb_le _ _)) by exact Hle. reflexivity. }
      done.
    + mprim. unfold removeOldNeigh. erewrite M_bind_ok.
      2: { mprim. mprim. apply lift_ok. cbn [neighbors set_neighbors set_linkFail].
           rewrite app_nil_l, (proj2 (Nat.leb_le _ _)) by exact Hle. reflexivity. }
      done.
  - erewrite M_bind_fail; [done|]. unfold lift. by rewrite E.
Qed.

Definition ex_link (i until : Z) : NodeDescr := mkDescr i (Some i) 0 10 until 0xFFFFFFFF true true.
Definition ex_links (a b : Z) : nstate := mkN ∅ [ex_link 1 a; ex_link 2 b] ∅ (Some a) [].

(** One link runs out at time 80, the other at 90: checks at 80 and at 90. *)
Lemma link_check_witness :
  checkLinkFailure 80 (ex_links 80 90) =
    Ok (true, mkN ∅ [set_active false (ex_link 1 80); ex_link 2 90] ∅ (Some 90) []) /\
  checkLinkFailure 90 (ex_links 80 90) = Fail AssertFail.
Proof.
  split.
  - etransitivity; [apply (link_check (ex_links 80 90) 80); cbn; unfold MaxNeighbors; lia|reflexivity].
  - etransitivity; [apply (link_check (ex_links 80 90) 90); cbn; unfold MaxNeighbors; lia|reflexivity].
Defined.
