(* ===== verification/Metrics.v ===== *)
(** * Metrics: link qualities and link weights

    [awds/Metric.h] and [EtxMetric.cc].  A metric turns the descriptor of a
    neighbour into the 16-bit quality that is sent in topology packets, and the
    qualities of both directions of a link into its weight.  The second half is
    the class [Metric] of [Topology]; [LinkMeter] is the first half.  The ETX
    metric sends the share of lost beacons and weighs a link by the expected
    number of transmissions. *)

From S2P Require Import Prelude Packet Topology Neighbors NeighborThms LinkThms.

Definition max_quality : Z := 0xFFFF.

Class LinkMeter := { my_get_quality : NodeDescr -> outcome Z }.

Definition get_quality {L : LinkMeter} (d : NodeDescr) : outcome Z :=
  q ← my_get_quality d; Ok (Z.max (Z.min q max_quality) 1).

(** The base class sends the same quality for every neighbour. *)
Definition hop_count_meter : LinkMeter := {| my_get_quality _ := Ok 10 |}.

Module EtxMetric.
Definition scale : Z := 2048.

Definition my_get_quality (ndescr : NodeDescr) : outcome Z :=
  n ← Neighbors.quality ndescr;
  let q := u16 (32 - n) in
  Ok (u16 (q * (max_quality / 32))).

Definition my_calculate (forward backward : Z) : outcome Z :=
  let forward := forward / (max_quality / 32) in
  let backward := backward / (max_quality / 32) in
  let losses := u32 (u32 (32 - forward) * u32 (32 - backward)) in
  if losses =? 0 then Fail DivByZero else Ok (u32 (1024 * scale) / losses).

Definition meter : LinkMeter := {| Metrics.my_get_quality := my_get_quality |}.
Definition metric : Topology.Metric := {| Topology.my_calculate := my_calculate |}.
End EtxMetric.

(** ** Properties *)

(** The number of beacons received among the last 32. *)
Definition received (d : NodeDescr) : Z := ones_of (beaconHist d).

Lemma received_range d : 0 < beaconHist d < 2 ^ 32 -> 1 <= received d <= 32.
Proof.
  intros Hb. unfold received, ones_of. destruct (beaconHist d) as [|p|p]; [lia| |lia].
  pose proof (pos_ones_size p 32 (proj2 Hb)). pose proof (pos_ones_pos p). lia.
Qed.

Lemma quality_received d : 0 < beaconHist d < 2 ^ 32 -> Neighbors.quality d = Ok (received d).
Proof.
  intros Hb. pose proof (received_range d Hb) as Hr. revert Hr. unfold Neighbors.quality, received.
  destruct (beaconHist d) as [|p|p]; [lia| |lia]. cbn [Z.eqb ones_of]. intros Hr.
  pose proof (pos_ones_size p 32 (proj2 Hb)).
  rewrite quality_loop_ok by lia. rewrite outcome_ret_bind, Z.add_0_l.
  by rewrite (proj2 (Z.ltb_lt 0 _)) by lia.
Qed.

Lemma etx_quality d :
  0 < beaconHist d < 2 ^ 32 ->
  get_quality (L := EtxMetric.meter) d = Ok (Z.max ((32 - received d) * 2047) 1).
Proof.
  intros Hb. pose proof (received_range d Hb). unfold get_quality, my_get_quality. cbn [EtxMetric.meter].
  unfold EtxMetric.my_get_quality. rewrite quality_received, !outcome_ret_bind by done.
  change (max_quality / 32) with 2047.
  rewrite (wrap_id 16 (32 - received d)) by (unfold in_width; lia).
  rewrite wrap_id by (unfold in_width; lia). unfold max_quality. do 2 f_equal. lia.
Qed.

(** A quality below [32 * 2047] keeps the number of received beacons. *)
Lemma etx_level n : 1 <= n <= 32 -> Z.max ((32 - n) * 2047) 1 / 2047 = 32 - n.
Proof.
  intros Hn. destruct (decide (n = 32)) as [->|]; [done|].
  rewrite Z.max_l by lia. apply Z.div_mul. lia.
Qed.

(** C35. The ETX metric: for two neighbours that have received [nf] and [nb] of
    the last 32 beacons of each other, the qualities they send are 16-bit values
    that are not 0, as topology packets require, and the weight computed from
    them is [2048 * 32/nf * 32/nb] rounded down, the scaled expected number of
    transmissions; it lies between 2048 and 2^21, below the cap all weights have.
    If a received quality is 65504 or more, which no station sends, the
    computation divides by zero. *)
Theorem etx_weight (a b : NodeDescr) (bad q : Z) :
  0 < beaconHist a < 2 ^ 32 -> 0 < beaconHist b < 2 ^ 32 -> 65504 <= bad <= max_quality ->
  exists qa qb w,
    get_quality (L := EtxMetric.meter) a = Ok qa /\
    get_quality (L := EtxMetric.meter) b = Ok qb /\
    1 <= qa < 65504 /\ 1 <= qb < 65504 /\
    EtxMetric.my_calculate qa qb = Ok w /\
    w = 2048 * 32 * 32 / (received a * received b) /\
    2048 <= w <= 2 ^ 21 /\ w < Topology.uint32_max / 1024 /\
    EtxMetric.my_calculate bad q = Fail DivByZero.
Proof.
  intros Ha Hb Hbad. pose proof (received_range a Ha) as Ra. pose proof (received_range b Hb) as Rb.
  set (na := received a) in *. set (nb := received b) in *.
  exists (Z.max ((32 - na) * 2047) 1), (Z.max ((32 - nb) * 2047) 1), (2048 * 32 * 32 / (na * nb)).
  split_and!; try (by apply etx_quality); try lia.
  - unfold EtxMetric.my_calculate. change (max_quality / 32) with 2047.
    rewrite !etx_level by lia. replace (32 - (32 - na)) with na by lia. replace (32 - (32 - nb)) with nb by lia.
    rewrite (wrap_id 32 na), (wrap_id 32 nb), (wrap_id 32 (na * nb)) by (unfold in_width; nia).
    rewrite (proj2 (Z.eqb_neq _ 0)) by nia. done.
  - apply Z.div_le_lower_bound; nia.
  - apply Z.div_le_upper_bound; nia.
  - apply Z.div_lt_upper_bound; [nia|]. change (Topology.uint32_max / 1024) with 4194303. nia.
  - unfold EtxMetric.my_calculate. change (max_quality / 32) with 2047.
    replace (bad / 2047) with 32; [done|]. unfold max_quality in Hbad.
    apply (Z.div_unique _ _ _ (bad - 65504)); lia.
Qed.

Definition ex_descr (h : Z) : NodeDescr := mkDescr 7 (Some 1) 0 0 0 h true true.

Lemma etx_weight_witness :
  0 < beaconHist (ex_descr 0xFFFFFFFF) < 2 ^ 32 /\ 0 < beaconHist (ex_descr 0x80000000) < 2 ^ 32 /\
  exists qa qb w,
    get_quality (L := EtxMetric.meter) (ex_descr 0xFFFFFFFF) = Ok qa /\
    get_quality (L := EtxMetric.meter) (ex_descr 0x80000000) = Ok qb /\
    1 <= qa < 65504 /\ 1 <= qb < 65504 /\
    EtxMetric.my_calculate qa qb = Ok w /\
    w = 2048 * 32 * 32 / (received (ex_descr 0xFFFFFFFF) * received (ex_descr 0x80000000)) /\
    2048 <= w <= 2 ^ 21 /\ w < Topology.uint32_max / 1024 /\
    EtxMetric.my_calculate 0xFFFF 1 = Fail DivByZero.
Proof.
  split; [done|]. split; [done|].
  apply (etx_weight (ex_descr 0xFFFFFFFF) (ex_descr 0x80000000) 0xFFFF 1); unfold max_quality; cbn; lia.
Defined.
