(* ===== verification/SendQueue.v ===== *)
(** * SendQueue: the way of a packet to the device

    [SendQueue.cc], [awds/SendQueue.h], the sending half of [awds/basic.h] and the
    frames of [rawbasic.cc].  All three implementations of [basic] ([rawbasic.cc],
    [linuxbasic.cc], [udpBasic.cc]) send through a [SendQueue]: [send] puts a
    reference to the packet into the queue, and the packet is written when the
    device is ready.

    The queue shares the packets with the rest of the daemon, so it works on the
    heap of [Neighbors].  What a [write] returns is an argument; [sent] lists the
    frames that were written, newest first.  The calls of send callbacks are
    recorded in [fired], as those of [unref]. *)

From S2P Require Import Prelude Bytes NodeId Packet Neighbors.

Definition QUEUE_LENGTH : nat := 10.

Record sendq := mkQ {
  queue : list Z;                   (* addresses of packets, front first *)
  waiting : option Z;               (* the time [registerCallback] waits for *)
  sent : list (NodeId * list Z);    (* destination and bytes *)
}.

(** The heap with the packets, and the queue that refers to them. *)
Record iface := mkIface { heap : nstate; sendQueue : sendq }.

Definition set_heap v s := mkIface v (sendQueue s).
Definition set_sendQueue v s := mkIface (heap s) v.
Definition set_queue v q := mkQ v (waiting q) (sent q).
Definition set_waiting v q := mkQ (queue q) v (sent q).
Definition set_sent v q := mkQ (queue q) (waiting q) v.

Abbreviation Q := (M iface).
Definition on_heap {A} (m : N A) : Q A := zoom heap set_heap m.
Definition on_queue (f : sendq -> sendq) : Q unit := modify (fun s => set_sendQueue (f (sendQueue s)) s).

Section sendqueue.
Context `{Gea}.

Definition registerCallback (now : Z) : Q unit := on_queue (set_waiting (Some (now + duration 10 1))).

Definition enqueuePacket (q : Z) (high_prio : bool) (now : Z) : Q bool :=
  qs ← gets (fun s => queue (sendQueue s));
  if negb high_prio && (QUEUE_LENGTH <=? length qs)%nat then mret false else
  on_heap (ref_packet q);;
  on_queue (set_queue (if high_prio then q :: qs else qs ++ [q]));;
  qs ← gets (fun s => queue (sendQueue s));
  (if (length qs =? 1)%nat then registerCallback now else mret tt);;
  mret true.

(** [basic::doSend]: [ret] is the result of [write]. *)
Definition doSend (q ret : Z) : Q bool :=
  p ← on_heap (load q);
  (if size p <=? Z.of_nat MaxSize then mret tt else fail OutOfBounds);;
  (if 0 <=? ret then on_queue (fun x => set_sent ((dest p, slice 0 (Z.to_nat (size p)) (buffer p)) :: sent x) x)
   else mret tt);;
  on_heap (
    (match cb p with Some (c, d) => modify (fun s => set_fired ((c, d, ret) :: fired s) s) | None => mret tt end);;
    store q (set_cb None p));;
  mret (0 <=? ret).

(** The handler of the event: the device is ready or the time is over. *)
Definition xmit_cb (ready : bool) (ret now : Z) : Q unit :=
  on_queue (set_waiting None);;
  qs ← gets (fun s => queue (sendQueue s));
  lift (cassert (0 <? length qs)%nat);;
  (if (ready : bool) then
     q ← lift (of_option OutOfBounds (head qs));
     on_queue (set_queue (tail qs));;
     doSend q ret;;
     on_heap (unref_packet q)
   else mret tt);;
  qs ← gets (fun s => queue (sendQueue s));
  if (0 <? length qs)%nat then registerCallback now else mret tt.

End sendqueue.

(** ** Raw Ethernet frames ([rawbasic.cc]) *)

Module RawHandle.
Definition ETHERTYPE_AWDS : Z := 0x8334.
Definition header_len : Z := 14.        (* [sizeof(struct ether_header)] *)

(** [while (1)]: one byte more until the frame has at least 64 bytes and a
    multiple of four. *)
Fixpoint padding_loop (fuel : nat) (iov_len : Z) : outcome Z :=
  match fuel with
  | O => Fail OutOfFuel
  | S fuel =>
      let len := u32 (iov_len + header_len) in
      if (len <? 64) || negb (len mod 4 =? 0) then padding_loop fuel (iov_len + 1) else Ok iov_len
  end.

(** At most 64 rounds: the 50 bytes missing to 64, or 3 to a multiple of four. *)
Definition padding_fuel : nat := 64.

Definition iov_len (aggressivePadding : bool) (size : Z) : outcome Z :=
  if aggressivePadding then padding_loop padding_fuel (size + 4) else Ok size.

(** The bytes [writev] sends: the header and the buffer. *)
Definition write (aggressivePadding : bool) (MyId dest : NodeId) (buf : list Z) (size : Z) : outcome (list Z) :=
  n ← iov_len aggressivePadding size;
  if n <=? Z.of_nat (length buf) then
    Ok (AbstractID6.toArray dest 0 (replicate 6 0) ++ AbstractID6.toArray MyId 0 (replicate 6 0) ++
        be_enc 2 ETHERTYPE_AWDS ++ slice 0 (Z.to_nat n) buf)
  else Fail OutOfBounds.

(** [readv] filled the header and then the buffer of [size] bytes with a frame
    of at least 14 bytes: the result, the sender and the received bytes. *)
Definition read (frame : list Z) (size : nat) : Z * NodeId * list Z :=
  let ret := Z.min (Z.of_nat (length frame)) (header_len + Z.of_nat size) in
  let src := AbstractID6.fromArray 6 frame in
  if be_dec (slice 12 2 frame) =? ETHERTYPE_AWDS
  then (ret - header_len, src, slice 14 size frame)
  else (-2, src, slice 14 size frame).
End RawHandle.
