(* ===== verification/SendQueueThms.v ===== *)
(** * The send queue keeps its promises

    The interface between the daemon and the send queue as a state machine: parts
    of the daemon create packets, change them, send them and drop their
    references; the event loop calls the handler of the queue when the queue has
    asked for it.  In every reachable state no call can fail: packets in the queue
    are alive, and the queue waits for the device exactly if it is not empty. *)

From S2P Require Import Prelude Bytes NodeId Packet Neighbors NeighborThms SendQueue.

Section machine.
Context `{Gea}.

Definition fits (p : BasePacket) : Prop := 0 <= size p <= Z.of_nat MaxSize.

Definition on_packets (f : gmap Z BasePacket -> gmap Z BasePacket) (x : iface) : iface :=
  set_heap (set_packets (f (packets (heap x))) (heap x)) x.

(** A state is the interface with the number of references the rest of the daemon
    holds on each packet. *)
Definition hold (q v : Z) (ext : Z -> Z) : Z -> Z := fun k => if decide (k = q) then v else ext k.

Inductive qstep : iface * (Z -> Z) -> iface * (Z -> Z) -> Prop :=
| q_new x ext q p : packets (heap x) !! q = None -> refcount p = 1 -> fits p ->
    qstep (x, ext) (on_packets <[q := p]> x, hold q 1 ext)
| q_edit x ext q p p' : packets (heap x) !! q = Some p -> refcount p' = refcount p -> fits p' ->
    qstep (x, ext) (on_packets <[q := p']> x, ext)
| q_send x ext q hp now b x' : 1 <= ext q -> enqueuePacket q hp now x = Ok (b, x') -> qstep (x, ext) (x', ext)
| q_release x ext q x' : 1 <= ext q -> on_heap (unref_packet q) x = Ok (tt, x') ->
    qstep (x, ext) (x', hold q (ext q - 1) ext)
| q_xmit x ext ready ret now x' : waiting (sendQueue x) <> None -> xmit_cb ready ret now x = Ok (tt, x') ->
    qstep (x, ext) (x', ext).

Definition refs_ok (pk : gmap Z BasePacket) (qs : list Z) (ext : Z -> Z) (q : Z) : Prop :=
  0 <= ext q /\
  match pk !! q with
  | Some p => refcount p = ext q + occ q qs /\ 1 <= refcount p /\ fits p
  | None => ext q = 0 /\ occ q qs = 0
  end.

Record queue_inv (st : iface * (Z -> Z)) : Prop := {
  qi_waits : waiting (sendQueue st.1) = None <-> queue (sendQueue st.1) = [];
  qi_refs : forall q, refs_ok (packets (heap st.1)) (queue (sendQueue st.1)) st.2 q;
}.

(** ** What the calls do *)

Lemma refs_alive pk qs ext q : refs_ok pk qs ext q -> 1 <= ext q \/ q ∈ qs -> exists p, pk !! q = Some p /\ 1 <= refcount p /\ fits p.
Proof.
  intros [Hn Hr] Hq. destruct (pk !! q) as [p|]; [exists p; by destruct Hr as (_ & ? & ?)|]. destruct Hr as [He Ho], Hq as [Hq|Hq]; [lia|].
  apply list_elem_of_split in Hq as (l1 & l2 & ->). rewrite occ_app, occ_cons, decide_True in Ho by done.
  pose proof (occ_bound q l1). pose proof (occ_bound q l2). lia.
Qed.

Lemma enqueue_ok q hp now x p :
  packets (heap x) !! q = Some p ->
  let qs := queue (sendQueue x) in
  enqueuePacket q hp now x =
    if negb hp && (QUEUE_LENGTH <=? length qs)%nat then Ok (false, x)
    else Ok (true, mkIface (set_packets (<[q := set_rc (refcount p + 1) p]> (packets (heap x))) (heap x))
                     (mkQ (if hp then q :: qs else qs ++ [q])
                          (if bool_decide (qs = []) then Some (now + duration 10 1) else waiting (sendQueue x))
                          (sent (sendQueue x)))).
Proof.
  intros E qs. unfold enqueuePacket. mprim. fold qs. destruct (negb hp && _); [done|].
  erewrite M_bind_ok by (unfold on_heap, zoom; by rewrite (ref_packet_ok _ _ _ E)). mprim. mprim.
  cbn [sendQueue set_sendQueue set_heap queue set_queue].
  assert ((length (if hp then q :: qs else qs ++ [q]) =? 1)%nat = bool_decide (qs = [])) as ->.
  { destruct hp, qs as [|y l]; try done. cbn [length app]. rewrite length_app. cbn. by destruct l. }
  case_bool_decide; by destruct x as [? []].
Qed.

Lemma unref_iface q x p :
  packets (heap x) !! q = Some p -> 1 <= refcount p ->
  exists fd, on_heap (unref_packet q) x = Ok (tt, set_heap (set_fired fd (set_packets (unref_heap q p (packets (heap x))) (heap x))) x).
Proof. intros E Hr. destruct (unref_packet_ok q (heap x) p E Hr) as [fd Hu]. exists fd. unfold on_heap, zoom. by rewrite Hu. Qed.

(** The state after the handler has run: the first packet was sent and released. *)
Lemma xmit_ok ready ret now x q p qs :
  queue (sendQueue x) = q :: qs -> packets (heap x) !! q = Some p -> 1 <= refcount p -> fits p ->
  exists x', xmit_cb ready ret now x = Ok (tt, x') /\
    (waiting (sendQueue x') = None <-> queue (sendQueue x') = []) /\
    if (ready : bool) then queue (sendQueue x') = qs /\ packets (heap x') = unref_heap q (set_cb None p) (<[q := set_cb None p]> (packets (heap x)))
    else queue (sendQueue x') = q :: qs /\ packets (heap x') = packets (heap x).
Proof.
  intros Hq Hp Hr Hf. unfold xmit_cb. mprim. mprim. cbn [sendQueue set_sendQueue queue set_waiting]. rewrite Hq. mlift.
  destruct ready.
  2:{ mprim. mprim. cbn [sendQueue set_sendQueue queue set_waiting]. rewrite Hq. cbn. eexists. split; [reflexivity|]. cbn. by rewrite Hq. }
  assert (exists y fd, (q0 ← lift (of_option OutOfBounds (head (q :: qs))); on_queue (set_queue (tail (q :: qs)));; doSend q0 ret;; on_heap (unref_packet q0))
      (set_sendQueue (set_waiting None (sendQueue x)) x) =
      Ok (tt, mkIface (set_fired fd (set_packets (unref_heap q (set_cb None p) (<[q := set_cb None p]> (packets (heap x)))) (heap x))) y) /\
      queue y = qs /\ waiting y = None) as (y & fd & Ey & Hyq & Hyw).
  { mlift. mprim. cbn [tail]. set (x1 := set_sendQueue _ _). assert (heap x1 = heap x) as Hx1 by done.
    assert (exists x2 b fd, doSend q ret x1 = Ok (b, x2) /\ heap x2 = set_fired fd (set_packets (<[q := set_cb None p]> (packets (heap x))) (heap x)) /\
      queue (sendQueue x2) = qs /\ waiting (sendQueue x2) = None) as (x2 & b & fd & E2 & Hh & Hq2 & Hw2).
    { unfold doSend. erewrite M_bind_ok by (unfold on_heap, zoom; rewrite Hx1, (load_packet_ok _ _ _ Hp); reflexivity).
      destruct Hf as [_ Hf]. rewrite (proj2 (Z.leb_le (size p) _)) by done. mprim.
      destruct (0 <=? ret); mprim; (destruct (cb p) as [[c d]|]; [eexists _, _, ((c, d, ret) :: fired (heap x))|eexists _, _, (fired (heap x))]);
        (split; [reflexivity|]); (split; [by destruct (heap x)|split; reflexivity]). }
    erewrite M_bind_ok by exact E2.
    destruct (unref_iface q x2 (set_cb None p)) as [fd2 Hu].
    { rewrite Hh. cbn [packets set_fired set_packets]. apply lookup_insert_eq. } { done. }
    rewrite Hu, Hh. eexists (sendQueue x2), fd2. split; [|done]. destruct x2 as [h2 s2]. cbn in *. subst h2. by destruct (heap x). }
  erewrite M_bind_ok by exact Ey. mprim. cbn [sendQueue]. rewrite Hyq.
  destruct (0 <? length qs)%nat eqn:El.
  - eexists. split; [reflexivity|]. cbn. rewrite Hyq. split; [|done]. split; [done|]. intros ->. done.
  - eexists. split; [reflexivity|]. cbn. rewrite Hyq. split; [|done]. split; [|done]. intros _.
    destruct qs; [done|]. cbn in El. done.
Qed.

(** ** The invariant *)

Definition empty_iface : iface := mkIface (mkN ∅ [] ∅ None []) (mkQ [] None []).

Lemma occ_snoc q k qs : occ k (qs ++ [q]) = occ k (q :: qs).
Proof. rewrite occ_app, !occ_cons. unfold occ at 2. cbn. lia. Qed.

Lemma unref_refs q p pk qs ext k :
  pk !! q = Some p -> refcount p = ext q + occ q qs + 1 -> fits p ->
  (k <> q -> refs_ok pk qs ext k) -> 0 <= ext q -> refs_ok (unref_heap q p pk) qs ext k.
Proof.
  intros Hp Hrc Hf Hother He. pose proof (occ_bound q qs). unfold refs_ok, unref_heap.
  destruct (decide (k = q)) as [->|Hk].
  - split; [done|]. destruct (Z.eqb_spec (refcount p) 1).
    + rewrite lookup_delete_eq. lia.
    + rewrite lookup_insert_eq. cbn [refcount set_rc set_refcount]. split_and!; [lia|lia|exact Hf].
  - destruct (refcount p =? 1); rewrite ?lookup_delete_ne, ?lookup_insert_ne by done; by apply Hother.
Qed.

Lemma qstep_inv st st' : queue_inv st -> qstep st st' -> queue_inv st'.
Proof.
  intros [Hw Hr] Hs. destruct Hs as [x ext q p Hq Hrc Hf|x ext q p p' Hq Hrc Hf|x ext q hp now b x' He E|x ext q x' He E|x ext ready ret now x' Hwt E];
    cbn [fst snd] in *.
  - split; [done|]. intros k. specialize (Hr k). unfold refs_ok, hold in *. cbn [fst snd on_packets heap set_heap packets set_packets sendQueue].
    destruct (decide (k = q)) as [->|]; [|by rewrite lookup_insert_ne].
    rewrite Hq in Hr. rewrite lookup_insert_eq. split_and!; [lia|lia|lia|exact Hf].
  - split; [done|]. intros k. specialize (Hr k). unfold refs_ok in *. cbn [fst snd on_packets heap set_heap packets set_packets sendQueue].
    destruct (decide (k = q)) as [->|]; [|by rewrite lookup_insert_ne].
    rewrite Hq in Hr. rewrite lookup_insert_eq, Hrc. destruct Hr as (? & ? & ? & _). by split_and!.
  - destruct (refs_alive _ _ _ q (Hr q) (or_introl He)) as (p & Hp & Hrc & Hf).
    rewrite (enqueue_ok q hp now x p Hp) in E. cbv zeta in E. destruct (negb hp && _); injection E as <- <-; [by split|].
    split; cbn [fst snd sendQueue waiting queue heap packets set_packets].
    + case_bool_decide as D; [|rewrite Hw; destruct hp; [done|]; split; [done|by destruct (queue (sendQueue x))]].
      destruct hp; [done|]. split; [done|by destruct (queue (sendQueue x))].
    + intros k. specialize (Hr k). unfold refs_ok in *.
      assert (occ k (if hp then q :: queue (sendQueue x) else queue (sendQueue x) ++ [q]) = occ k (q :: queue (sendQueue x))) as ->
        by (destruct hp; [done|apply occ_snoc]).
      rewrite occ_cons. destruct (decide (q = k)) as [->|].
      * rewrite lookup_insert_eq. rewrite Hp in Hr. cbn [refcount set_rc set_refcount]. destruct Hr as (? & ? & ? & ?). split_and!; [lia..|exact Hf].
      * rewrite lookup_insert_ne by done. by rewrite Z.add_0_l.
  - destruct (refs_alive _ _ _ q (Hr q) (or_introl He)) as (p & Hp & Hrc & Hf).
    destruct (unref_iface q x p Hp Hrc) as [fd Hu]. rewrite E in Hu. injection Hu as ->.
    split; [done|]. intros k. cbn [fst snd heap set_heap set_fired packets set_packets sendQueue].
    pose proof (Hr q) as [_ Hrq]. rewrite Hp in Hrq.
    apply (unref_refs q p _ _ (hold q (ext q - 1) ext)); unfold hold; rewrite ?(decide_True (P := q = q)) by done; [done|lia|done| |lia].
    intros Hk. specialize (Hr k). unfold refs_ok in *. by rewrite decide_False.
  - destruct (queue (sendQueue x)) as [|q qs] eqn:Eq; [by rewrite Hw in Hwt|].
    destruct (refs_alive _ _ _ q (Hr q) (or_intror (list_elem_of_here q qs))) as (p & Hp & Hrc & Hf).
    destruct (xmit_ok ready ret now x q p qs Eq Hp Hrc Hf) as (x1 & E1 & Hw1 & H1). rewrite E in E1. injection E1 as <-.
    split; [done|]. cbn [fst snd]. intros k. destruct ready; destruct H1 as [-> ->]; [|apply Hr].
    pose proof (Hr q) as [Heq Hrq]. rewrite Hp, occ_cons, decide_True in Hrq by done.
    apply unref_refs; [apply lookup_insert_eq|cbn [refcount set_cb]; lia|exact Hf| |done].
    intros Hk. specialize (Hr k). unfold refs_ok in *. rewrite lookup_insert_ne by done.
    rewrite occ_cons, decide_False in Hr by done. by rewrite Z.add_0_l in Hr.
Qed.

(** C5. The send queue is safe and live.  In every state that is reached from an
    empty queue by creating, changing, sending and releasing packets and by the
    events of the device, every packet in the queue is alive and counted, and the
    queue waits for the device exactly if it is not empty.  So whoever holds a
    reference can send and release the packet, and the handler of the device
    event, when the event loop calls it, neither fails its assertion nor touches a
    packet that was deleted; no packet stays in the queue without the device being
    waited for. *)
Theorem send_queue_invariant st :
  rtc qstep (empty_iface, fun _ => 0) st ->
  queue_inv st /\
  (forall q hp now, 1 <= st.2 q -> exists b x', enqueuePacket q hp now st.1 = Ok (b, x')) /\
  (forall q, 1 <= st.2 q -> exists x', on_heap (unref_packet q) st.1 = Ok (tt, x')) /\
  (forall ready ret now, waiting (sendQueue st.1) <> None -> exists x', xmit_cb ready ret now st.1 = Ok (tt, x')).
Proof.
  intros Hrtc. assert (queue_inv st) as Hinv.
  { revert st Hrtc. apply rtc_ind_r; [|intros y z _ Hyz Hy; by eapply qstep_inv].
    split; [done|]. intros q. unfold refs_ok. cbn. by rewrite lookup_empty. }
  split; [done|]. destruct Hinv as [Hw Hr]. split_and!.
  - intros q hp now Hq. destruct (refs_alive _ _ _ q (Hr q) (or_introl Hq)) as (p & Hp & _).
    rewrite (enqueue_ok q hp now _ p Hp). cbv zeta. case_match; by eexists _, _.
  - intros q Hq. destruct (refs_alive _ _ _ q (Hr q) (or_introl Hq)) as (p & Hp & Hrc & _).
    destruct (unref_iface q _ p Hp Hrc) as [fd Hu]. by eexists.
  - intros ready ret now Hwt. destruct (queue (sendQueue st.1)) as [|q qs] eqn:Eq; [by rewrite Hw in Hwt|].
    destruct (refs_alive _ _ _ q (Hr q)) as (p & Hp & Hrc & Hf); [right; apply list_elem_of_here|].
    destruct (xmit_ok ready ret now _ q p qs Eq Hp Hrc Hf) as (x' & E & _). by exists x'.
Qed.
End machine.

(** A packet is created, sent and released by its owner; then the device is ready. *)
Definition ex_sent : iface :=
  match enqueuePacket (H := gea_ns) 5 false 0 (on_packets <[5 := BasePacket_new]> empty_iface) with
  | Ok (_, x) => x | Fail _ => empty_iface end.
Definition ex_released : iface := match on_heap (unref_packet 5) ex_sent with Ok (_, x) => x | Fail _ => empty_iface end.

Lemma send_queue_invariant_witness : exists x', xmit_cb (H := gea_ns) true 0 7 ex_released = Ok (tt, x').
Proof.
  apply (send_queue_invariant (H := gea_ns) (ex_released, hold 5 0 (hold 5 1 (fun _ => 0)))); [|vm_compute; discriminate].
  eapply rtc_l; [apply (q_new _ _ 5 BasePacket_new); [reflexivity|reflexivity|split; vm_compute; discriminate]|].
  eapply rtc_l; [apply (q_send _ _ 5 false 0 true ex_sent); [vm_compute; discriminate|vm_compute; reflexivity]|].
  eapply rtc_l; [apply (q_release _ _ 5 ex_released); [vm_compute; discriminate|vm_compute; reflexivity]|].
  apply rtc_refl.
Defined.
