(* ===== verification/Names.v ===== *)
(** * Names of stations

    The name functions of [Topology.cc] ([getNodeByName], [getNameOfNode],
    [getNameList], [dumpNextHops]).  A C string is the list of its characters
    without the terminating 0; characters are unsigned bytes.  The conversions of
    the C library are modelled as far as the sources use them: [sscanf] with
    ["%2X"] and [strtoul] with base 0. *)

From Stdlib Require Import Ascii String.
From S2P Require Import Prelude Bytes NodeId Packet Topology.

Local Open Scope string_scope.
Local Open Scope list_scope.
Local Open Scope Z_scope.

Definition str (s : string) : list Z := (fun c => Z.of_N (N_of_ascii c)) <$> list_ascii_of_string s.

(** ** Conversions of the C library *)

Definition isspace (c : Z) : bool := (c =? 32) || ((9 <=? c) && (c <=? 13)).
Definition isalnum (c : Z) : bool :=
  ((48 <=? c) && (c <=? 57)) || ((65 <=? c) && (c <=? 90)) || ((97 <=? c) && (c <=? 122)).

Fixpoint skip_spaces (l : list Z) : list Z :=
  match l with c :: l' => if isspace c then skip_spaces l' else l | [] => [] end.

Definition digit (base c : Z) : option Z :=
  let v := if (48 <=? c) && (c <=? 57) then c - 48
           else if (65 <=? c) && (c <=? 70) then c - 55
           else if (97 <=? c) && (c <=? 102) then c - 87 else 99 in
  if v <? base then Some v else None.

(** [sscanf(l, "%2X", &v)]: [None] unless one value was stored. *)
Definition scan_2X (l : list Z) : option Z :=
  match skip_spaces l with
  | [] => None
  | c :: l =>
      if (c =? 43) || (c =? 45) then
        v ← (d ← head l; digit 16 d); Some (u32 (if c =? 45 then - v else v))
      else
        v ← digit 16 c;
        Some (match (d ← head l; digit 16 d) with Some w => v * 16 + w | None => v end)
  end.

(** The number and the rest; [n] counts the digits. *)
Fixpoint read_digits (base v : Z) (n : nat) (l : list Z) : Z * nat * list Z :=
  match l with
  | [] => (v, n, [])
  | c :: l' => match digit base c with
               | Some w => read_digits base (v * base + w) (S n) l'
               | None => (v, n, l)
               end
  end.

(** [v = strtoul(name, &endptr, 0)]: [None] if [*endptr] is not 0 or no
    conversion was done. *)
Definition strtoul (name : list Z) : option Z :=
  let l := skip_spaces name in
  let '(neg, l) := match l with c :: l' => if c =? 45 then (true, l') else if c =? 43 then (false, l') else (false, l)
                   | [] => (false, []) end in
  let '(base, l) := match l with
    | c :: x :: d :: l' => if (c =? 48) && ((x =? 120) || (x =? 88)) && bool_decide (is_Some (digit 16 d))
                           then (16, d :: l') else if c =? 48 then (8, l) else (10, l)
    | c :: _ => if c =? 48 then (8, l) else (10, l)
    | [] => (10, [])
    end in
  let '(v, n, rest) := read_digits base 0 0 l in
  if (n =? 0)%nat || negb (bool_decide (rest = [])) then None
  else if 2 ^ 64 <=? v then Some (2 ^ 64 - 1) else Some (if neg then u64 (- v) else v).

(** [strncmp(a, b, 32) == 0] *)
Definition strncmp32 (a b : list Z) : bool := bool_decide (take 32 a = take 32 b).

(** ** Names in the topology *)

Fixpoint find_name (name : list Z) (a : AdjList) : option NodeId :=
  match a with
  | [] => None
  | (k, d) :: a => if strncmp32 name (nodeName d) then Some k else find_name name a
  end.

(** The six bytes of the 12 hexadecimal digits, until one cannot be read. *)
Fixpoint scan_mac (n : nat) (l : list Z) : option (list Z) :=
  match n with
  | O => Some []
  | S n => v ← scan_2X l; r ← scan_mac n (drop 2 l); Some (u8 v :: r)
  end.

Definition getNodeByName (name : list Z) (a : AdjList) : option NodeId :=
  match find_name name a with
  | Some k => Some k
  | None =>
      match (if (length name =? 12)%nat then scan_mac 6 name else None) with
      | Some mac => Some (AbstractID6.fromArray 0 mac)
      | None => AbstractID6.of_num <$> strtoul name
      end
  end.

(** Decimal digits, as [sprintf("%d")] prints them. *)
Fixpoint print_nat (fuel : nat) (v : Z) (acc : list Z) : list Z :=
  match fuel with
  | O => acc
  | S fuel => let acc := (48 + v mod 10) :: acc in if v <? 10 then acc else print_nat fuel (v / 10) acc
  end.
Definition print_int (v : Z) : list Z :=
  if v <? 0 then 45 :: print_nat 20 (- v) [] else print_nat 20 v [].

Definition plain : list Z := str "-+*?$%/()[]{}^;._".

(** A character of the name as it is shown; [(int)c] of a signed [char]. *)
Definition quote (c : Z) : list Z :=
  if (c <? 128) && isalnum c || bool_decide (c ∈ plain) then [c] else str "&#" ++ print_int (s8 c) ++ str ";".

(** The iterator of an absent node is dereferenced. *)
Definition getNameOfNode (id : NodeId) (a : AdjList) : outcome (list Z) :=
  d ← of_option OutOfBounds (al_find id a);
  let n := nodeName d in
  let ambiguous := bool_decide (n = []) ||
    bool_decide (Exists (fun kd => nodeName kd.2 = n /\ kd.1 <> id) a) in
  let ret := if ambiguous then n ++ str "[" ++ AbstractID6.print id ++ str "]" else n in
  Ok (mjoin (quote <$> ret)).

Definition getNameList (a : AdjList) : list Z :=
  mjoin ((fun kd => AbstractID6.print kd.1 ++ [9; 39] ++ nodeName kd.2 ++ [39; 10]) <$> a).

(** ** Printing and reading identifiers *)

Lemma hex_digit v : 0 <= v < 16 -> digit 16 (byte_at AbstractID6.hexnum (Z.to_nat v)) = Some v.
Proof.
  intros Hv. assert (forallb (fun n => bool_decide (digit 16 (byte_at AbstractID6.hexnum n) = Some (Z.of_nat n))) (seq 0 16) = true)
    as C by (vm_compute; done).
  rewrite forallb_forall in C. specialize (C (Z.to_nat v)). rewrite in_seq in C.
  apply bool_decide_eq_true in C; [|lia]. by rewrite C, Z2Nat.id by lia.
Qed.

Lemma hex_plain v : 0 <= v < 16 ->
  let c := byte_at AbstractID6.hexnum (Z.to_nat v) in isspace c = false /\ (c =? 43) || (c =? 45) = false.
Proof.
  intros Hv. assert (forallb (fun n => let c := byte_at AbstractID6.hexnum n in
    negb (isspace c) && negb ((c =? 43) || (c =? 45))) (seq 0 16) = true) as C by (vm_compute; done).
  rewrite forallb_forall in C. specialize (C (Z.to_nat v)). rewrite in_seq in C.
  specialize (C ltac:(lia)). cbn beta zeta in C. apply andb_true_iff in C as [C1 C2].
  by apply negb_true_iff in C1, C2.
Qed.

Definition hex_pair (x : Z) : list Z :=
  [byte_at AbstractID6.hexnum (Z.to_nat (x / 16)); byte_at AbstractID6.hexnum (Z.to_nat (x mod 16))].

Lemma scan_hex_pair x l : is_byte x -> scan_2X (hex_pair x ++ l) = Some x.
Proof.
  intros Hx. unfold is_byte in Hx.
  assert (0 <= x / 16 < 16) as H1 by (split; [apply Z.div_pos | apply Z.div_lt_upper_bound]; lia).
  assert (0 <= x mod 16 < 16) as H2 by (apply Z.mod_pos_bound; lia).
  destruct (hex_plain _ H1) as [Hs Hp].
  unfold scan_2X, hex_pair. cbn [app skip_spaces]. rewrite Hs, Hp, hex_digit by done. cbn [mbind option_bind head].
  rewrite hex_digit by done. f_equal. pose proof (Z.div_mod x 16). lia.
Qed.

Lemma scan_hex_pairs bs n : bytes bs -> length bs = n -> scan_mac n (mjoin (hex_pair <$> bs)) = Some bs.
Proof.
  revert bs. induction n as [|n IH]; intros [|x bs] Hb Hl; cbn in Hl; try lia; [done|].
  apply Forall_cons in Hb as [Hx Hb]. cbn [scan_mac fmap list_fmap mjoin list_join].
  rewrite scan_hex_pair by done. cbn [mbind option_bind].
  replace (drop 2 (hex_pair x ++ mjoin (hex_pair <$> bs))) with (mjoin (hex_pair <$> bs)) by done.
  rewrite IH by (done || lia). cbn. by rewrite wrap_id by (unfold in_width; unfold is_byte in Hx; lia).
Qed.

Lemma print_pairs d : AbstractID6.print d = mjoin (hex_pair <$> be_enc 6 d).
Proof. reflexivity. Qed.

(** The printed form of an identifier is understood as a name: if no station
    calls itself like that, looking up the 12 hexadecimal digits that are printed
    for an identifier gives the identifier, whatever the topology holds. *)
Theorem printed_id_is_found (id : NodeId) (a : AdjList) :
  AbstractID6.wf id -> find_name (AbstractID6.print id) a = None ->
  getNodeByName (AbstractID6.print id) a = Some id.
Proof.
  intros Hid Hn. unfold getNodeByName. rewrite Hn, print_pairs.
  assert (length (be_enc 6 id) = 6%nat) as Hl by apply be_enc_length.
  assert (length (mjoin (hex_pair <$> be_enc 6 id)) = 12%nat) as -> by reflexivity.
  rewrite scan_hex_pairs by (done || apply be_enc_bytes). cbn [Nat.eqb]. f_equal.
  rewrite AbstractID6.id6_fromArray_spec by (apply be_enc_bytes || rewrite Hl; lia).
  unfold slice. rewrite drop_0, take_ge by lia. apply be_dec_enc_id. exact Hid.
Qed.

Definition ex_named : AdjList := [(5, set_nodeName (str "gate") NDescr_new); (9, NDescr_new)].

Lemma printed_id_is_found_witness :
  AbstractID6.wf 0x0A12CF0041B0 /\ find_name (AbstractID6.print 0x0A12CF0041B0) ex_named = None /\
  getNodeByName (str "0A12CF0041B0") ex_named = Some 0x0A12CF0041B0.
Proof.
  split; [done|]. split; [done|].
  exact (printed_id_is_found 0x0A12CF0041B0 ex_named ltac:(done) ltac:(done)).
Defined.

(** ** Printed numbers are read back *)

Definition digits_value (a : Z) (ds : list Z) : Z := foldl (fun a d => a * 10 + d) a ds.

Lemma print_nat_digits f v acc : 0 <= v < 10 ^ Z.of_nat f -> f <> O ->
  exists ds, print_nat f v acc = ((fun d => 48 + d) <$> ds) ++ acc /\ Forall (fun d => 0 <= d < 10) ds /\ ds <> [] /\
    (length ds <= f)%nat /\ digits_value 0 ds = v.
Proof.
  revert v acc. induction f as [|f IH]; [done|]. intros v acc Hv _. cbn [print_nat].
  pose proof (Z.mod_pos_bound v 10 ltac:(lia)) as Hm. destruct (Z.ltb_spec v 10) as [Hs|Hs].
  - exists [v]. rewrite (Z.mod_small v 10) by lia. repeat split; [repeat constructor; lia|done|cbn; lia].
  - rewrite Nat2Z.inj_succ, Z.pow_succ_r in Hv by lia.
    assert (0 <= v / 10 < 10 ^ Z.of_nat f) as Hd by (split; [apply Z.div_pos; lia|apply Z.div_lt_upper_bound; lia]).
    assert (f <> O) as Hf. { intros ->. cbn in Hd. pose proof (Z.div_le_lower_bound v 10 1). lia. }
    destruct (IH (v / 10) ((48 + v mod 10) :: acc) Hd Hf) as (ds & -> & HF & Hn & Hl & Hval).
    exists (ds ++ [v mod 10]). rewrite fmap_app, <- app_assoc. split; [done|].
    split; [apply Forall_app_2; [done|by apply Forall_singleton]|]. split; [by destruct ds|]. rewrite length_app. cbn [length].
    split; [lia|]. unfold digits_value in *. rewrite foldl_app, Hval. cbn. pose proof (Z.div_mod v 10). lia.
Qed.

Lemma digit_of d : 0 <= d < 10 -> digit 10 (48 + d) = Some d.
Proof.
  intros Hd. unfold digit. rewrite (proj2 (Z.leb_le 48 (48 + d))), (proj2 (Z.leb_le (48 + d) 57)) by lia. cbn [andb].
  replace (48 + d - 48) with d by lia. by rewrite (proj2 (Z.ltb_lt d 10)) by lia.
Qed.

Lemma read_digits_digits ds a n c r : Forall (fun d => 0 <= d < 10) ds -> digit 10 c = None ->
  exists m, read_digits 10 a n (((fun d => 48 + d) <$> ds) ++ c :: r) = (digits_value a ds, m, c :: r) /\ (n + length ds = m)%nat.
Proof.
  intros HF Hc. revert a n. induction HF as [|d ds Hd HF IH]; intros a n; cbn [fmap list_fmap app read_digits].
  - rewrite Hc. exists n. split; [done|]. cbn. lia.
  - rewrite digit_of by done.
    destruct (IH (a * 10 + d) (S n)) as (m & -> & Hm). exists m. split; [done|]. cbn [length]. lia.
Qed.

Lemma read_digits_end ds a n : Forall (fun d => 0 <= d < 10) ds ->
  exists m, read_digits 10 a n ((fun d => 48 + d) <$> ds) = (digits_value a ds, m, []).
Proof.
  intros HF. revert a n. induction HF as [|d ds Hd HF IH]; intros a n; cbn [fmap list_fmap read_digits]; [by eexists|].
  rewrite digit_of by done. apply IH.
Qed.

(** [sscanf("%d")] without leading spaces. *)
Definition scan_d (l : list Z) : option (Z * list Z) :=
  let '(neg, l) := match l with 45 :: l => (true, l) | _ => (false, l) end in
  let '(v, n, r) := read_digits 10 0 0 l in
  if (n =? 0)%nat then None else Some (if neg then - v else v, r).

Lemma print_int_length v : - 2 ^ 31 <= v < 2 ^ 31 -> (length (print_int v) <= 21)%nat.
Proof.
  intros Hv. unfold print_int. destruct (Z.ltb_spec v 0).
  - destruct (print_nat_digits 20 (- v) []) as (ds & -> & _ & _ & Hl & _); [lia|done|].
    cbn [length]. rewrite app_nil_r, length_fmap. lia.
  - destruct (print_nat_digits 20 v []) as (ds & -> & _ & _ & Hl & _); [lia|done|]. rewrite app_nil_r, length_fmap. lia.
Qed.

Lemma scan_print v c r : - 2 ^ 31 <= v < 2 ^ 31 -> digit 10 c = None -> scan_d (print_int v ++ c :: r) = Some (v, c :: r).
Proof.
  intros Hv Hc. unfold scan_d, print_int. destruct (Z.ltb_spec v 0).
  - destruct (print_nat_digits 20 (- v) []) as (ds & -> & HF & Hn & _ & Hd); [lia|done|]. rewrite app_nil_r. cbn [app].
    destruct (read_digits_digits ds 0 0 c r HF Hc) as (m & -> & Hm).
    destruct m as [|m]; [by destruct ds|]. cbn [Nat.eqb]. rewrite Hd. by rewrite Z.opp_involutive.
  - destruct (print_nat_digits 20 v []) as (ds & -> & HF & Hn & _ & Hd); [lia|done|]. rewrite app_nil_r.
    destruct (read_digits_digits ds 0 0 c r HF Hc) as (m & Hr & Hm).
    assert (exists x l', ((fun d => 48 + d) <$> ds) ++ c :: r = x :: l' /\ x <> 45) as (x & l' & El & Hx).
    { destruct ds as [|d ds]; [done|]. inversion HF. eexists _, _. split; [done|]. lia. }
    rewrite El in *. assert ((match x :: l' with 45 :: l => (true, l) | _ => (false, x :: l') end) = (false, x :: l')) as ->.
    { clear -Hx. destruct x as [|p|p]; [done| |done]. repeat (destruct p as [p|p|]; try done). }
    rewrite Hr. destruct m as [|m]; [by destruct ds|]. cbn [Nat.eqb]. by rewrite Hd.
Qed.

