(* ===== verification/Filter.v ===== *)
(** * Filter: the firewall that filters by source

    [SrcFilter.cc], [awds/SrcFilter.h], [awds/Firewall.h].  The rules are a map
    from stations to verdicts with a default; [check_packet] is asked for every
    received packet.  [argv] is the list of the arguments as C strings; the
    pointer behind the last argument is null. *)

From Stdlib Require Import String.
From S2P Require Import Prelude Bytes NodeId Packet Topology Names.

Record SrcFilter := mkFilter { rules : gmap NodeId bool; default_policy : bool }.

Definition SrcFilter_new : SrcFilter := mkFilter ∅ true.

Definition check_packet (f : SrcFilter) (p : BasePacket) : bool :=
  let verdict src := default (default_policy f) (rules f !! src) in
  match getType p with
  | PacketTypeFlood => verdict (Flood.getLastHop (Flood.mk p))
  | PacketTypeBeacon => verdict (SrcPacket.getSrc p)
  | PacketTypeUnicast | PacketTypeForward => true
  end.

(** The parser: after a rule for the default policy or for an unknown host
    [continue] leaves [idx] at the rule, which is then looked at once more as an
    option.  [idx+1 <= argc] holds for every argument. *)
Fixpoint addRules_loop (fuel : nat) (idx : nat) (argv : list (list Z)) (a : AdjList) (f : SrcFilter) :
    outcome (Z * SrcFilter) :=
  if (length argv <=? idx)%nat then Ok (0, f) else
  match fuel with
  | O => Fail OutOfFuel
  | S fuel =>
      arg ← of_option NullDeref (argv !! idx);
      if bool_decide (arg = str "--rule"%string) && (idx + 1 <=? length argv)%nat then
        let idx := (idx + 1)%nat in
        arg ← of_option NullDeref (argv !! idx);
        match arg with
        | c :: host =>
            if (c =? 43) || (c =? 45) then
              let accept := c =? 43 in
              if bool_decide (host = str "default"%string)
              then addRules_loop fuel idx argv a (mkFilter (rules f) accept)
              else match getNodeByName host a with
                   | None => addRules_loop fuel idx argv a f
                   | Some id => addRules_loop fuel (idx + 1) argv a (mkFilter (<[id := accept]> (rules f)) (default_policy f))
                   end
            else Ok (1, f)
        | [] => Ok (1, f)
        end
      else addRules_loop fuel (idx + 1) argv a f
  end.

(** Every round moves [idx] forward. *)
Definition addRules (argv : list (list Z)) (a : AdjList) (f : SrcFilter) : outcome (Z * SrcFilter) :=
  addRules_loop (length argv) 1 argv a f.

(** The shell command: [argv[0]] is the name of the command. *)
Definition cmd_filter (argv : list (list Z)) (a : AdjList) (f : SrcFilter) : outcome (Z * SrcFilter) :=
  match argv !! 1%nat with
  | Some cmd => if bool_decide (cmd = str "show"%string) then Ok (0, f) else addRules (tail argv) a f
  | None => Ok (0, f)
  end.

(** ** Properties *)

(** A rule of the command line: the sign and the host it is for. *)
Definition rule : Type := bool * list Z.
Definition rule_text (r : rule) : list Z := (if r.1 then 43 else 45) :: r.2.
Definition rule_args (rs : list rule) : list (list Z) := mjoin ((fun r => [str "--rule"%string; rule_text r]) <$> rs).

(** What a rule means: it sets the default or the verdict for a station; a host
    nobody knows is skipped. *)
Definition apply_rule (a : AdjList) (f : SrcFilter) (r : rule) : SrcFilter :=
  if bool_decide (r.2 = str "default"%string) then mkFilter (rules f) r.1
  else match getNodeByName r.2 a with
       | Some id => mkFilter (<[id := r.1]> (rules f)) (default_policy f)
       | None => f
       end.

Lemma loop_end fuel idx argv a f : (length argv <= idx)%nat -> addRules_loop fuel idx argv a f = Ok (0, f).
Proof. intros Hl. by destruct fuel; cbn [addRules_loop]; rewrite (proj2 (Nat.leb_le _ _)). Qed.

Lemma loop_skip fuel idx argv a f arg :
  argv !! idx = Some arg -> arg <> str "--rule"%string ->
  addRules_loop (S fuel) idx argv a f = addRules_loop fuel (idx + 1) argv a f.
Proof.
  intros Ha Hn. pose proof (lookup_lt_Some _ _ _ Ha). cbn [addRules_loop].
  rewrite (proj2 (Nat.leb_gt _ _)), Ha by lia. cbn [of_option]. rewrite outcome_ret_bind.
  by rewrite bool_decide_eq_false_2.
Qed.

(** One rule takes at most two rounds. *)
Lemma loop_rule fuel idx argv a f r :
  argv !! idx = Some (str "--rule"%string) -> argv !! (idx + 1)%nat = Some (rule_text r) -> rule_text r <> str "--rule"%string ->
  exists fuel', (fuel <= fuel')%nat /\
    addRules_loop (S (S fuel)) idx argv a f = addRules_loop fuel' (idx + 2) argv a (apply_rule a f r).
Proof.
  intros H1 H2 Hn. pose proof (lookup_lt_Some _ _ _ H1).
  assert (forall n, addRules_loop (S n) idx argv a f =
    if bool_decide (r.2 = str "default"%string) then addRules_loop n (idx + 1) argv a (apply_rule a f r)
    else match getNodeByName r.2 a with
         | None => addRules_loop n (idx + 1) argv a (apply_rule a f r)
         | Some _ => addRules_loop n (idx + 2) argv a (apply_rule a f r) end) as E.
  { intros n. cbn [addRules_loop]. rewrite (proj2 (Nat.leb_gt _ _)), H1 by lia. cbn [of_option]. rewrite outcome_ret_bind.
    rewrite bool_decide_eq_true_2, (proj2 (Nat.leb_le _ _)) by (done || lia). cbn [andb].
    rewrite H2. cbn [of_option]. rewrite outcome_ret_bind. unfold rule_text, apply_rule.
    replace (((if r.1 then 43 else 45) =? 43) || ((if r.1 then 43 else 45) =? 45)) with true by (by destruct r.1).
    replace ((if r.1 then 43 else 45) =? 43) with r.1 by (by destruct r.1).
    case_bool_decide; [done|]. destruct (getNodeByName r.2 a); [|done]. by replace (idx + 1 + 1)%nat with (idx + 2)%nat by lia. }
  assert (forall f', addRules_loop (S fuel) (idx + 1) argv a f' = addRules_loop fuel (idx + 2) argv a f') as Es.
  { intros f'. rewrite (loop_skip _ _ _ _ _ _ H2) by done. by replace (idx + 1 + 1)%nat with (idx + 2)%nat by lia. }
  destruct (bool_decide (r.2 = _)) eqn:D; [exists fuel; split; [lia|]; by rewrite E, Es|].
  destruct (getNodeByName r.2 a) eqn:G; [exists (S fuel)|exists fuel]; (split; [lia|]); rewrite E; [done|apply Es].
Qed.

Definition no_option (rs : list rule) : Prop := Forall (fun r => rule_text r <> str "--rule"%string) rs.

Lemma length_rule_args rs : length (rule_args rs) = (2 * length rs)%nat.
Proof.
  induction rs as [|r rs IH]; [done|].
  change (rule_args (r :: rs)) with (str "--rule"%string :: rule_text r :: rule_args rs). cbn [length]. lia.
Qed.

Lemma loop_rules rs pre rest fuel a f :
  no_option rs -> (2 * length rs <= fuel)%nat ->
  exists fuel', (fuel - 2 * length rs <= fuel')%nat /\
    addRules_loop fuel (length pre) (pre ++ rule_args rs ++ rest) a f =
    addRules_loop fuel' (length pre + 2 * length rs) (pre ++ rule_args rs ++ rest) a (foldl (apply_rule a) f rs).
Proof.
  intros Hn. revert pre fuel f. induction Hn as [|r rs Hr Hn IH]; intros pre fuel f Hf; cbn [length] in *.
  { exists fuel. split; [lia|]. by rewrite Nat.add_0_r. }
  destruct fuel as [|[|fuel]]; [lia..|].
  set (argv := pre ++ rule_args (r :: rs) ++ rest).
  assert (argv = (pre ++ [str "--rule"%string; rule_text r]) ++ rule_args rs ++ rest) as Ha
    by (unfold argv; by rewrite <- app_assoc).
  destruct (loop_rule fuel (length pre) argv a f r) as (fuel1 & H1 & E1); [..|done|].
  { rewrite Ha, <- app_assoc, lookup_app_r by lia. by rewrite Nat.sub_diag. }
  { rewrite Ha, <- app_assoc, lookup_app_r by lia. by replace (length pre + 1 - length pre)%nat with 1%nat by lia. }
  destruct (IH (pre ++ [str "--rule"%string; rule_text r]) fuel1 (apply_rule a f r)) as (fuel' & H2 & E2); [lia|].
  exists fuel'. split; [lia|]. rewrite E1, <- Ha in *. rewrite length_app in E2. cbn [length] in E2. cbn [foldl].
  rewrite E2. f_equal. lia.
Qed.

Lemma loop_no_option fuel idx argv a f :
  Forall (fun x => x <> str "--rule"%string) argv -> (length argv <= idx + fuel)%nat -> addRules_loop fuel idx argv a f = Ok (0, f).
Proof.
  intros Hn. revert idx. induction fuel as [|fuel IH]; intros idx Hl; [apply loop_end; lia|].
  destruct (argv !! idx) as [arg|] eqn:Ha; [|by apply loop_end, lookup_ge_None].
  rewrite (loop_skip _ _ _ _ _ _ Ha); [apply IH; lia|]. by eapply Forall_lookup_1 in Hn.
Qed.

(** The verdict of a list of rules for a station: the last rule for it, else the
    last rule for the default, else the packet passes. *)
Definition last_rule (P : rule -> bool) (rs : list rule) : option bool :=
  foldl (fun acc r => if P r then Some r.1 else acc) None rs.
Definition is_default (r : rule) : bool := bool_decide (r.2 = str "default"%string).
Definition is_for (a : AdjList) (src : NodeId) (r : rule) : bool :=
  negb (is_default r) && bool_decide (getNodeByName r.2 a = Some src).
Definition verdict (a : AdjList) (rs : list rule) (src : NodeId) : bool :=
  default (default true (last_rule is_default rs)) (last_rule (is_for a src) rs).

(** The station a packet was heard from, as far as the packet tells. *)
Definition heard_from (p : BasePacket) : option NodeId :=
  match getType p with
  | PacketTypeFlood => Some (Flood.getLastHop (Flood.mk p))
  | PacketTypeBeacon => Some (SrcPacket.getSrc p)
  | PacketTypeUnicast | PacketTypeForward => None
  end.

Lemma check_heard f p :
  check_packet f p = match heard_from p with Some src => default (default_policy f) (rules f !! src) | None => true end.
Proof. unfold check_packet, heard_from. by destruct (getType p). Qed.

Lemma rules_verdict a rs src :
  let f := foldl (apply_rule a) SrcFilter_new rs in default (default_policy f) (rules f !! src) = verdict a rs src.
Proof.
  intros f. subst f. assert (let f := foldl (apply_rule a) SrcFilter_new rs in
    default_policy f = default true (last_rule is_default rs) /\ rules f !! src = last_rule (is_for a src) rs) as [-> ->]; [|done].
  induction rs as [|r rs [IH1 IH2]] using rev_ind; [done|]. unfold last_rule. rewrite !foldl_app. cbn [foldl].
  fold (last_rule is_default rs) (last_rule (is_for a src) rs). unfold is_for, apply_rule, is_default at 1 3.
  case_bool_decide as D; [by split|]. cbn [negb andb].
  destruct (getNodeByName r.2 a) as [i|]; [|by split]. cbn [default_policy rules]. split; [done|].
  case_bool_decide as E; [injection E as ->; apply lookup_insert_eq|]. rewrite lookup_insert_ne; [done|congruence].
Qed.

(** The parser of the filter rules does what the rules mean: started with a
    list of [--rule +host] and [--rule -host] options it returns 0 and applies the
    rules in their order, the last one for a station decides, and unknown hosts
    are skipped; a packet then passes exactly if the verdict for the station it was
    heard from says so.  An option [--rule] at the end of the line makes it
    dereference the null pointer behind the arguments; and the shell command, for
    which the help text announces rules without [--rule], ignores them. *)
Theorem filter_rules (prog : list Z) (rs : list rule) (a : AdjList) (f : SrcFilter) :
  no_option rs ->
  let f' := foldl (apply_rule a) f rs in
  addRules (prog :: rule_args rs) a f = Ok (0, f') /\
  addRules (prog :: rule_args rs ++ [str "--rule"%string]) a f = Fail NullDeref /\
  cmd_filter (prog :: (rule_text <$> rs)) a f = Ok (0, f) /\
  (forall p, check_packet (foldl (apply_rule a) SrcFilter_new rs) p =
     match heard_from p with Some src => verdict a rs src | None => true end).
Proof.
  intros Hn f'. split_and!.
  - unfold addRules. destruct (loop_rules rs [prog] [] (length (prog :: rule_args rs)) a f Hn) as (fuel & _ & E);
      [cbn [length]; rewrite length_rule_args; lia|].
    rewrite app_nil_r in E. cbn [length app] in *. rewrite E. apply loop_end. cbn [length]. rewrite length_rule_args. lia.
  - unfold addRules. set (argv := prog :: _). assert (length argv = 2 + 2 * length rs)%nat as Hlen.
    { unfold argv. cbn [length]. rewrite length_app, length_rule_args. cbn. lia. }
    destruct (loop_rules rs [prog] [str "--rule"%string] (length argv) a f Hn) as (fuel & Hf & E); [lia|].
    cbn [length app] in E. fold argv in E. rewrite E. destruct fuel as [|fuel]; [lia|]. cbn [addRules_loop].
    assert (argv !! (1 + 2 * length rs)%nat = Some (str "--rule"%string)) as Hl.
    { unfold argv. cbn [Nat.add]. change (prog :: ?l) with ([prog] ++ l). rewrite lookup_app_r by (cbn; lia). cbn [length].
      rewrite Nat.sub_succ, Nat.sub_0_r, lookup_app_r, length_rule_args, Nat.sub_diag by (rewrite length_rule_args; lia). done. }
    rewrite (proj2 (Nat.leb_gt _ _)), Hl by lia. cbn [of_option]. rewrite outcome_ret_bind, bool_decide_eq_true_2 by done.
    rewrite (proj2 (Nat.leb_le _ _)) by lia. cbn [andb]. rewrite lookup_ge_None_2 by lia. done.
  - unfold cmd_filter. destruct rs as [|r rs]; [done|]. cbn [fmap list_fmap lookup list_lookup].
    case_bool_decide; [done|]. unfold addRules. cbn [tail]. apply loop_no_option; [|lia].
    change (Forall (fun x => x <> str "--rule"%string) (rule_text <$> r :: rs)). by apply Forall_fmap.
  - intros p. rewrite check_heard. destruct (heard_from p) as [src|]; [|done]. by rewrite rules_verdict.
Qed.

Lemma filter_rules_witness :
  let rs := [(false, str "default"%string); (true, str "02AA00000001"%string)] in
  addRules (str "srcfilter"%string :: rule_args rs) [] SrcFilter_new = Ok (0, mkFilter {[0x02AA00000001 := true]} false) /\
  addRules (str "srcfilter"%string :: rule_args rs ++ [str "--rule"%string]) [] SrcFilter_new = Fail NullDeref.
Proof.
  intros rs. destruct (filter_rules (str "srcfilter"%string) rs [] SrcFilter_new) as (H1 & H2 & _); [|by split].
  by apply (bool_decide_unpack _).
Defined.
