(* ===== verification/Routing.v ===== *)
(** * Routing: the class [AwdsRouting]

    [AwdsRouting.cc], [awds/AwdsRouting.h] and [TopoPacket.cc]: reception of
    beacons, floods, unicast and flow packets, forwarding, the packets the station
    sends itself, its timers and its registries.  The state is a record with the
    components as parts: the packets and the neighbour table ([Neighbors]), the
    send queue ([SendQueue]), the topology ([Topology]), the flood history
    ([FloodHist]), the crypto unit ([CryptoUnit]) and the firewall ([Filter]).

    Protocols are registered as function pointers.  A function pointer is a
    number and [Handlers] says what the call does; it may change the state of the
    daemon and the state [U] of the modules that registered them.

    [now] is [GEA.lastEventTime].  The addresses that only matter for the
    alignment inside CCM are part of [Basic], with the broadcast address of the
    implementation of [basic]. *)

From S2P Require Import Prelude Bytes NodeId Isqrt FloodHist Ccm CryptoUnit Names Filter Topology SendQueue Neighbors Metrics Packet.

Class Basic := {
  BroadcastId : NodeId;
  buf_addr : Z -> Z;          (* where the buffer of a packet starts *)
  ccm_addr : Z;               (* the context [CCM_mode] creates, *)
  ccm_mem : list Z;           (* and what was there before *)
}.

Inductive PeriodType := Constant | Adaptive.

Record Periods := mkPeriods {
  topoPeriod_ms : Z;
  topoPeriodType : PeriodType;
  beaconPeriod : Z;
  nextBeacon : Z;
  beaconBlocker : option Z;   (* the times the blockers wait for *)
  blocker : option Z;
}.

Record Counters := mkCounters {
  beaconSeq : Z;              (* [u_int16_t] *)
  floodSeq : Z;
  unicastSeq : Z;
  newAddr : Z;                (* the address of the next [new BasePacket] *)
}.

Record Registers := mkRegisters {
  unicastRegister : gmap Z (Z * Z);
  broadcastRegister : gmap Z (Z * Z);
  flowReceiverMap : gmap Z (Z * Z);
  forwardingTable : gmap Z NodeId;
}.

Record AwdsRouting {U : Type} := mkRouting {
  net : iface;
  topology : RTopology;
  ownName : list Z;           (* the 32 cells of [topology->nodeName] *)
  floodHistory : FloodHistory;
  firewall : option SrcFilter;
  cryptoUnit : option AesCcmCryptoUnit;
  periods : Periods;
  counters : Counters;
  registers : Registers;
  modules : U;
}.
Arguments AwdsRouting U : clear implicits.

Section updates.
Context {U : Type}.
Implicit Type s : AwdsRouting U.
Definition set_net v s := mkRouting U v (topology s) (ownName s) (floodHistory s) (firewall s) (cryptoUnit s) (periods s) (counters s) (registers s) (modules s).
Definition set_topology v s := mkRouting U (net s) v (ownName s) (floodHistory s) (firewall s) (cryptoUnit s) (periods s) (counters s) (registers s) (modules s).
Definition set_floodHistory v s := mkRouting U (net s) (topology s) (ownName s) v (firewall s) (cryptoUnit s) (periods s) (counters s) (registers s) (modules s).
Definition set_cryptoUnit v s := mkRouting U (net s) (topology s) (ownName s) (floodHistory s) (firewall s) v (periods s) (counters s) (registers s) (modules s).
Definition set_periods v s := mkRouting U (net s) (topology s) (ownName s) (floodHistory s) (firewall s) (cryptoUnit s) v (counters s) (registers s) (modules s).
Definition set_counters v s := mkRouting U (net s) (topology s) (ownName s) (floodHistory s) (firewall s) (cryptoUnit s) (periods s) v (registers s) (modules s).
Definition set_registers v s := mkRouting U (net s) (topology s) (ownName s) (floodHistory s) (firewall s) (cryptoUnit s) (periods s) (counters s) v (modules s).
Definition set_modules v s := mkRouting U (net s) (topology s) (ownName s) (floodHistory s) (firewall s) (cryptoUnit s) (periods s) (counters s) (registers s) v.
End updates.

Definition set_topoPeriod v c := mkPeriods v (topoPeriodType c) (beaconPeriod c) (nextBeacon c) (beaconBlocker c) (blocker c).
Definition set_topoPeriodType v c := mkPeriods (topoPeriod_ms c) v (beaconPeriod c) (nextBeacon c) (beaconBlocker c) (blocker c).
Definition set_beaconPeriod v c := mkPeriods (topoPeriod_ms c) (topoPeriodType c) v (nextBeacon c) (beaconBlocker c) (blocker c).
Definition set_nextBeacon v b c := mkPeriods (topoPeriod_ms c) (topoPeriodType c) (beaconPeriod c) v b (blocker c).
Definition set_blocker v c := mkPeriods (topoPeriod_ms c) (topoPeriodType c) (beaconPeriod c) (nextBeacon c) (beaconBlocker c) v.

Abbreviation R U := (M (AwdsRouting U)).

(** What the registered function [cb] does when it is called with the packet at
    [q] and its [data]. *)
Class Handlers (U : Type) := { recv_callback : forall (cb data q now : Z), R U unit }.

Section routing.
Context `{Gea, Metric, LinkMeter, StdSort, AES, Basic} {U : Type} `{!Handlers U}.

(** ** Access to the parts *)

Definition on_net {A} (m : Q A) : R U A := zoom net set_net m.
Definition on_table {A} (m : N A) : R U A := on_net (on_heap m).
Definition on_topology {A} (m : T A) : R U A := zoom topology set_topology m.
Definition on_registers (f : Registers -> Registers) : R U unit := modify (fun s => set_registers (f (registers s)) s).
Definition on_periods (f : Periods -> Periods) : R U unit := modify (fun s => set_periods (f (periods s)) s).

Definition myNodeId : R U NodeId := gets (fun s => Topology.myNodeId (topology s)).
Definition table (s : AwdsRouting U) : nstate := heap (net s).

Definition peek (q : Z) : R U BasePacket := on_table (load q).
(** A method of a wrapper around the packet: its new content. *)
Definition upd_packet (q : Z) (f : BasePacket -> BasePacket) : R U BasePacket :=
  p ← peek q; on_table (store q (f p));; mret (f p).

(** [new BasePacket()]; the allocation does not fail. *)
Definition new_packet : R U Z :=
  c ← gets counters;
  let q := newAddr c in
  on_table (store q BasePacket_new);;
  modify (set_counters (mkCounters (beaconSeq c) (floodSeq c) (unicastSeq c) (q + 1)));;
  mret q.

Definition u16_inc (v : Z) : Z := u16 (v + 1).
Definition next_beaconSeq : R U Z :=
  c ← gets counters; modify (set_counters (mkCounters (u16_inc (beaconSeq c)) (floodSeq c) (unicastSeq c) (newAddr c)));; mret (beaconSeq c).
Definition next_floodSeq : R U Z :=
  c ← gets counters; modify (set_counters (mkCounters (beaconSeq c) (u16_inc (floodSeq c)) (unicastSeq c) (newAddr c)));; mret (floodSeq c).
Definition next_unicastSeq : R U Z :=
  c ← gets counters; modify (set_counters (mkCounters (beaconSeq c) (floodSeq c) (u16_inc (unicastSeq c)) (newAddr c)));; mret (unicastSeq c).

(** ** Signatures *)

(** [TTL] and last hop change on the way and are not signed. *)
Definition noSign : list MemoryBlock := [mkBlock Flood.OffsetLastHop 7].

(** [cryptoUnit->verifySignature(src, p->buffer, p->size - 32, sg)] if there is
    a crypto unit. *)
Definition verify (q : Z) (src : NodeId) (sg : option (list MemoryBlock)) : R U bool :=
  cu ← gets cryptoUnit;
  match cu with
  | None => mret true
  | Some u =>
      p ← peek q;
      r ← lift (verifySignature (buf_addr q) ccm_addr ccm_mem src 0 (Z.to_nat (u64 (size p - 32))) sg (buffer p) u);
      let '(ok, buf, u) := r : bool * list Z * AesCcmCryptoUnit in
      on_table (store q (set_buffer buf p));;
      modify (set_cryptoUnit (Some u));;
      mret ok
  end.

(** [cryptoUnit->sign(p->buffer, p->size, sg); p->size += 32] *)
Definition sign_packet (q : Z) (sg : option (list MemoryBlock)) : R U unit :=
  cu ← gets cryptoUnit;
  match cu with
  | None => mret tt
  | Some u =>
      p ← peek q;
      r ← lift (sign (buf_addr q) ccm_addr ccm_mem 0 (Z.to_nat (size p)) sg (buffer p) u);
      let '(buf, u) := r : list Z * AesCcmCryptoUnit in
      on_table (store q (set_size (size p + 32) (set_buffer buf p)));;
      modify (set_cryptoUnit (Some u))
  end.

(** [base->send(p, high_prio)] *)
Definition send (q : Z) (high_prio : bool) (now : Z) : R U bool := on_net (enqueuePacket q high_prio now).

(** ** Reception *)

Definition recv_beacon (q now : Z) : R U unit :=
  beacon ← on_table (as_beacon q);
  ok ← verify q (SrcPacket.getSrc beacon) None;
  if negb ok then mret tt else
  _ ← on_table (refreshNeigh q now);
  mret tt.

(** The packet is not repeated if the last hop lists this station among the
    neighbours that are no multipoint relays. *)
Definition not_relay (lastHop : NodeId) : R U bool :=
  ns ← gets (fun s => neighbors (table s));
  nIdx ← lift (findNeigh lastHop ns);
  if nIdx <? 0 then mret false else
  d ← lift (of_option OutOfBounds (ns !! Z.to_nat nIdx));
  b ← on_table (last_beacon d);
  me ← myNodeId;
  lift (hasNoMpr me b).

(** A flood that is new: [true] if it is to be repeated. *)
Definition deliver_flood (q now : Z) : R U bool :=
  flood ← peek q;
  if Flood.getFloodType flood =? FloodTypeTopo then
    topoPacket ← upd_packet q TopoPacket.mk;
    validPacket ← verify q (SrcPacket.getSrc topoPacket) (Some noSign);
    if negb validPacket then mret false else
    topoPacket ← peek q;
    on_topology (feed topoPacket now);;
    mret true
  else
    reg ← gets (fun s => broadcastRegister (registers s));
    (match reg !! Flood.getFloodType flood with
     | Some (c, d) => recv_callback c d q now
     | None => mret tt
     end);;
    mret true.

Definition recv_flood (q now : Z) : R U unit :=
  flood ← upd_packet q Flood.mk;
  let srcId := SrcPacket.getSrc flood in
  let srcSeq := SrcPacket.getSeq flood in
  h ← gets floodHistory;
  dup ← lift (contains srcId srcSeq h);
  if (dup : bool) then mret tt else
  modify (set_floodHistory (insert srcId srcSeq h));;
  if Flood.getTTL flood =? 0 then mret tt else
  valid ← deliver_flood q now;
  if negb valid then mret tt else
  flood ← peek q;
  stop ← not_relay (Flood.getLastHop flood);
  if (stop : bool) then mret tt else
  me ← myNodeId;
  flood ← upd_packet q (fun p => Flood.decrTTL (Flood.setLastHop me p));
  if Flood.getTTL flood =? 0 then mret tt else
  upd_packet q (setDest BroadcastId);;
  _ ← send q false now;
  mret tt.

(** [appendNode(myNodeId)] for a packet with the trace flag. *)
Definition trace (q : Z) : R U unit :=
  p ← peek q;
  t ← lift (SrcPacket.getTraceFlag p);
  if negb t then mret tt else
  me ← myNodeId;
  p ← upd_packet q UnicastPacket.mk;
  r ← lift (TraceUcPacket.appendNode me p);
  on_table (store q (snd r)).

Definition recv_unicast (q now : Z) : R U unit :=
  ucPacket ← upd_packet q (fun p => UnicastPacket.decrTTL (UnicastPacket.mk p));
  if UnicastPacket.getTTL ucPacket =? 0 then mret tt else
  me ← myNodeId;
  if negb (UnicastPacket.getNextHop ucPacket =? me) then mret tt else
  trace q;;
  ucPacket ← peek q;
  let dest := UnicastPacket.getUcDest ucPacket in
  if dest =? me then
    reg ← gets (fun s => unicastRegister (registers s));
    match reg !! UnicastPacket.getUcPacketType ucPacket with
    | Some (c, d) => recv_callback c d q now
    | None => mret tt
    end
  else
    r ← on_topology (getNextHop now dest AbstractID6.mk_default);
    let '(nextHop, found) := r : Z * bool in
    if negb found then mret tt else
    upd_packet q (fun p => setDest nextHop (UnicastPacket.setNextHop nextHop p));;
    _ ← send q false now;
    mret tt.

(** ** Flows *)

Definition sendFlowPacket (q now : Z) : R U Z :=
  p ← peek q;
  lift (cassert (bool_decide (getType p = PacketTypeForward)));;
  me ← myNodeId;
  reg ← gets registers;
  if FlowPacket.getFlowDest p =? me then
    match flowReceiverMap reg !! FlowPacket.getFlowType p with
    | Some (c, d) => recv_callback c d q now;; mret 0
    | None => mret 0
    end
  else
    match forwardingTable reg !! FlowPacket.getFlowId p with
    | None => mret (-1)
    | Some nextHop =>
        upd_packet q (setDest nextHop);;
        ok ← send q true now;
        mret (if (ok : bool) then 0 else -1)
    end.

Definition recv_packet (q now : Z) : R U unit :=
  p ← peek q;
  fw ← gets firewall;
  me ← myNodeId;
  if match fw with Some f => check_packet f p | None => true end && negb (SrcPacket.getSrc p =? me) then
    match getType p with
    | PacketTypeBeacon => recv_beacon q now
    | PacketTypeFlood => recv_flood q now
    | PacketTypeUnicast => recv_unicast q now
    | PacketTypeForward => _ ← sendFlowPacket q now; mret tt
    end
  else mret tt.

(** [basic::recv_data]: the device is ready and [read] returned [ret] with the
    bytes [data]. *)
Definition recv_data (ret : Z) (data : list Z) (now : Z) : R U unit :=
  q ← new_packet;
  p ← peek q;
  let '(ret, p) := receive ret data p in
  on_table (store q p);;
  (if 0 <? ret then recv_packet q now else mret tt);;
  on_table (unref_packet q).

End routing.
