(* ===== verification/Station.v ===== *)
(** * Station: what the station sends itself

    The second half of [AwdsRouting.cc] with [TopoPacket.cc]: new packets,
    sending, beacons and topology packets with their timers, the registries of
    protocols and flows, iteration over the topology, and the constructor. *)

From Stdlib Require Import Ascii String.
From S2P Require Import Prelude Bytes NodeId Isqrt FloodHist Ccm CryptoUnit Names Filter Topology SendQueue Neighbors Metrics Packet Routing.

(** ** The links of a topology packet ([TopoPacket::setNeigh]) *)

(** [strlen] of the 32 cells of [nodeName]. *)
Definition strlen32 (cells : list Z) : outcome nat :=
  let n := length (c_string cells) in
  if (n <? length cells)%nat then Ok n else Fail OutOfBounds.

Section links.
Context {L : LinkMeter}.

(** The neighbours with a good link in both directions, each with the quality
    the metric chooses.  The descriptors are those of the table; the buffer is
    the one of the new packet. *)
Fixpoint put_links (me : NodeId) (ns : list NodeDescr) (addr : nat) (n : Z) (buf : list Z) : N (nat * Z * list Z) :=
  match ns with
  | [] => mret (addr, n, buf)
  | d :: ns =>
      good ← isBidiGood me d;
      if (good : bool) then
        quality ← lift (get_quality d);
        if (addr + 8 <=? length buf)%nat then
          put_links me ns (addr + 8) (u8 (n + 1)) (toArray 2 quality (addr + 6) (AbstractID6.toArray (id d) addr buf))
        else fail OutOfBounds
      else put_links me ns addr n buf
  end.

Definition topo_setNeigh (me : NodeId) (name : list Z) (p : BasePacket) : N BasePacket :=
  ns ← gets neighbors;
  r ← put_links me ns TopoPacket.OffsetLinks 0 (buffer p);
  let '(addr, n, buf) := r : nat * Z * list Z in
  len ← lift (strlen32 name);
  let len := Nat.min len 32 in
  buf ← lift (mem_write addr (Z.of_nat len :: take len name) buf);
  let p := set_byte TopoPacket.OffsetNumLinks n (set_buffer buf p) in
  mret (set_size (Z.of_nat TopoPacket.OffsetLinks + 8 * n + Z.of_nat len + 1) p).
End links.

Section station.
Context `{Gea, Metric, LinkMeter, StdSort, AES, Basic} {U : Type} `{!Handlers U}.

(** ** New packets *)

Definition newFloodPacket (floodType : Z) : R U Z :=
  q ← new_packet; me ← myNodeId;
  upd_packet q (fun p => Flood.setTTL 32 (Flood.setFloodType floodType (Flood.setLastHop me (SrcPacket.setSrc me (Flood.mk p)))));;
  n ← next_floodSeq;
  upd_packet q (fun p => setDest BroadcastId (SrcPacket.setSeq n p));;
  mret q.

Definition newUnicastPacket (type : Z) : R U Z :=
  q ← new_packet; me ← myNodeId;
  p ← upd_packet q UnicastPacket.mk;
  p ← lift (SrcPacket.setTraceFlag false p);
  on_table (store q (UnicastPacket.setTTL 32 (UnicastPacket.setNextHop me (SrcPacket.setSrc me p))));;
  n ← next_unicastSeq;
  upd_packet q (fun p => UnicastPacket.setUcPacketType type (SrcPacket.setSeq n p));;
  mret q.

Definition newFlowPacket (flowid : Z) : R U Z :=
  q ← new_packet; me ← myNodeId;
  p ← upd_packet q (setType PacketTypeForward);
  p ← lift (SrcPacket.setTraceFlag false p);
  on_table (store q (FlowPacket.setFlowId flowid (SrcPacket.setSrc me p)));;
  mret q.

(** ** Sending *)

(** [recv_flood] and [recv_unicast] take back the additional hop. *)
Definition sendBroadcast (q now : Z) : R U unit :=
  upd_packet q (fun p => Flood.incTTL (Flood.mk p));; recv_flood q now.

Definition sendUnicast (q now : Z) : R U unit :=
  me ← myNodeId;
  upd_packet q (fun p => UnicastPacket.setNextHop me (UnicastPacket.incTTL (UnicastPacket.mk p)));;
  recv_unicast q now.

Definition sendUnicastVia (q : Z) (nextHop : NodeId) (now : Z) : R U unit :=
  ucPacket ← upd_packet q UnicastPacket.mk;
  if UnicastPacket.getTTL ucPacket =? 0 then mret tt else
  trace q;;
  upd_packet q (fun p => setDest nextHop (UnicastPacket.setNextHop nextHop p));;
  _ ← send q false now;
  mret tt.

(** ** Topology packets *)

Definition update_topoPeriod : R U unit :=
  c ← gets periods;
  match topoPeriodType c with
  | Constant => mret tt
  | Adaptive =>
      n ← gets (fun s => getNumNodes (topology s));
      newPeriod ← lift (adaptive_period n);
      on_periods (set_topoPeriod (s32 newPeriod))
  end.

Definition send_topo (now : Z) : R U unit :=
  q ← newFloodPacket FloodTypeTopo;
  p ← upd_packet q TopoPacket.mk;
  lift (cassert (Flood.getFloodType p =? FloodTypeTopo));;
  me ← myNodeId;
  name ← gets ownName;
  p ← on_table (topo_setNeigh me name p);
  on_table (store q p);;
  update_topoPeriod;;
  c ← gets periods;
  upd_packet q (TopoPacket.setValidity (3 * topoPeriod_ms c));;
  sign_packet q (Some noSign);;
  sendBroadcast q now;;
  on_table (unref_packet q).

(** The handler of the topology timer, called for the time [t]. *)
Definition send_periodic_topo (t now : Z) : R U unit :=
  send_topo now;;
  c ← gets periods;
  on_periods (set_blocker (Some (t + duration (topoPeriod_ms c) 1000))).

(** [checkLinkFailure] with the packet it sends. *)
Definition checkLinks (now : Z) : R U unit :=
  topoChanged ← on_table (checkLinkFailure now);
  if (topoChanged : bool) then send_topo now else mret tt.

(** ** Beacons *)

(** [while (nextBeacon <= now) nextBeacon += beaconPeriod] *)
Fixpoint next_loop (fuel : nat) (next period now : Z) : outcome Z :=
  if now <? next then Ok next else
  match fuel with
  | O => Fail OutOfFuel
  | S fuel => next_loop fuel (next + period) period now
  end.

(** Every round adds at least one unit of time if the period is positive. *)
Definition next_fuel (next now : Z) : nat := S (Z.to_nat (now - next)).

Definition send_beacon (now : Z) : R U unit :=
  on_table calcMpr;;
  q ← new_packet; me ← myNodeId;
  p ← upd_packet q (fun p => SrcPacket.setSrc me (Beacon.mk p));
  ns ← gets (fun s => neighbors (table s));
  p ← lift (setNeigh ns p);
  on_table (store q p);;
  n ← next_beaconSeq;
  c ← gets periods;
  upd_packet q (fun p => setDest BroadcastId (Beacon.setPeriod (beaconPeriod c) (SrcPacket.setSeq n p)));;
  sign_packet q None;;
  _ ← send q true now;
  on_table (unref_packet q);;
  c ← gets periods;
  next ← lift (next_loop (next_fuel (nextBeacon c) now) (nextBeacon c) (beaconPeriod c) now);
  on_periods (set_nextBeacon next (Some next)).

(** ** Registries *)

Definition registerUnicastProtocol (num cb data : Z) : R U unit :=
  on_registers (fun r => mkRegisters (<[num := (cb, data)]> (unicastRegister r)) (broadcastRegister r) (flowReceiverMap r) (forwardingTable r)).
Definition registerBroadcastProtocol (num cb data : Z) : R U unit :=
  on_registers (fun r => mkRegisters (unicastRegister r) (<[num := (cb, data)]> (broadcastRegister r)) (flowReceiverMap r) (forwardingTable r)).

Definition addForwardingRule (flowid : Z) (nextHop : NodeId) : R U Z :=
  r ← gets registers;
  if bool_decide (is_Some (forwardingTable r !! flowid)) then mret (-1) else
  on_registers (fun r => mkRegisters (unicastRegister r) (broadcastRegister r) (flowReceiverMap r) (<[flowid := nextHop]> (forwardingTable r)));;
  mret 0.

Definition delForwardingRule (flowid : Z) : R U Z :=
  r ← gets registers;
  if negb (bool_decide (is_Some (forwardingTable r !! flowid))) then mret (-1) else
  on_registers (fun r => mkRegisters (unicastRegister r) (broadcastRegister r) (flowReceiverMap r) (delete flowid (forwardingTable r)));;
  mret 0.

Definition addFlowReceiver (flowid cb data : Z) : R U Z :=
  r ← gets registers;
  if bool_decide (is_Some (flowReceiverMap r !! flowid)) then mret (-1) else
  on_registers (fun r => mkRegisters (unicastRegister r) (broadcastRegister r) (<[flowid := (cb, data)]> (flowReceiverMap r)) (forwardingTable r));;
  mret 0.

Definition delFlowReceiver (flowid : Z) : R U Z :=
  r ← gets registers;
  if negb (bool_decide (is_Some (flowReceiverMap r !! flowid))) then mret (-1) else
  on_registers (fun r => mkRegisters (unicastRegister r) (broadcastRegister r) (delete flowid (flowReceiverMap r)) (forwardingTable r));;
  mret 0.

(** ** Questions *)

Definition isReachable (i : NodeId) (now : Z) : R U bool :=
  r ← on_topology (getNextHop now i AbstractID6.mk_default); mret (snd r).

Definition hasNeighbor (i : NodeId) : R U bool :=
  ns ← gets (fun s => neighbors (table s)); idx ← lift (findNeigh i ns); mret (0 <=? idx).

Definition getMTU : Z :=
  let max := UnicastPacket.UnicastPacketEnd in
  let max := if (max <? Flood.FloodHeaderEnd)%nat then Flood.FloodHeaderEnd else max in
  2000 - Z.of_nat max.

(** The constructor.  [mem] is the memory of the flood history; the blockers wait
    for the first beacon after 1 ms and for the first topology packet. *)
Definition AwdsRouting_new (MyId t : Z) (name : list Z) (mem : list Entry) (xml lo hk : bool) (u : U) : AwdsRouting U :=
  let next := t + duration 1 1000 in
  mkRouting U (mkIface (mkN ∅ [] ∅ None []) (mkQ [] None []))
    (RTopology_new MyId t xml lo hk) name (FloodHistory_new mem) None None
    (mkPeriods TOPO_INTERVAL Adaptive (duration BEACON_INTERVAL 1000) next (Some next) (Some (t + duration TOPO_INTERVAL 1000)))
    (mkCounters 0 0 0 1) (mkRegisters ∅ ∅ ∅ ∅) u.

End station.

(** [foreachNode] and [foreachEdge]: the functor with its data [D]; the result
    of the functor ends the iteration if it is not 0. *)
Fixpoint foreachNode {D} (f : D -> NodeId -> Z * D) (data : D) (a : AdjList) (ret : Z) : Z * D :=
  match a with
  | [] => (ret, data)
  | (k, _) :: a =>
      let '(ret2, data) := f data k in
      if negb (ret2 =? 0) then (ret2, data) else foreachNode f data a (ret + 1)
  end.

Fixpoint foreach_links {D} (f : D -> NodeId -> NodeId -> Z * D) (data : D) (k : NodeId) (ll : list LinkQuality) : Z * D :=
  match ll with
  | [] => (0, data)
  | l :: ll =>
      let '(ret2, data) := f data k (neighbor l) in
      if negb (ret2 =? 0) then (ret2, data) else foreach_links f data k ll
  end.

(** [ret] is not initialised: the caller gets what was in memory, plus the
    number of stations. *)
Fixpoint foreachEdge {D} (f : D -> NodeId -> NodeId -> Z * D) (data : D) (a : AdjList) (ret : Z) : Z * D :=
  match a with
  | [] => (ret, data)
  | (k, d) :: a =>
      let '(ret2, data) := foreach_links f data k (linklist d) in
      if negb (ret2 =? 0) then (ret2, data) else foreachEdge f data a (s32 (ret + 1))
  end.

(** ** Shell commands

    [atoi]: the leading number, 0 if there is none. *)

Definition atoi (l : list Z) : Z :=
  let l := skip_spaces l in
  match l with
  | c :: l' =>
      if c =? 45 then s32 (- fst (fst (read_digits 10 0 0 l')))
      else s32 (fst (fst (read_digits 10 0 0 (if c =? 43 then l' else l))))
  | [] => 0
  end.

Section commands.
Context `{Gea}.

Definition topoPeriod_command_fn (argv : list (list Z)) (c : Periods) : Z * Periods :=
  match argv with
  | [_; cmd] =>
      if bool_decide (cmd = str "show"%string) then (0, c)
      else if bool_decide (cmd = str "adaptive"%string) then (0, set_topoPeriodType Adaptive c) else (-1, c)
  | [_; cmd; arg] =>
      if bool_decide (cmd = str "constant"%string) then
        let p := atoi arg in
        if p =? 0 then (-1, c) else (0, set_topoPeriod p (set_topoPeriodType Constant c))
      else (-1, c)
  | _ => (-1, c)
  end.

Definition beaconPeriod_command_fn (argv : list (list Z)) (c : Periods) : Z * Periods :=
  match argv with
  | [_; cmd] => if bool_decide (cmd = str "show"%string) then (0, c) else (-1, c)
  | [_; cmd; arg] =>
      if bool_decide (cmd = str "set"%string) then
        let p := atoi arg in
        if p =? 0 then (-1, c) else (0, set_beaconPeriod (duration p 1000) c)
      else (-1, c)
  | _ => (-1, c)
  end.
End commands.
