(* ===== verification/RoutingThms.v ===== *)
(** * Forwarding of packets

    How [recv_unicast] and [recv_flood] treat a packet, against specifications of
    what a station has to do with it, and what the stations of a network do
    together: unicast packets reach their destination. *)

From S2P Require Import Prelude Bytes NodeId Isqrt FloodHist Ccm CryptoUnit Names Filter Topology RoutesThms SendQueue Neighbors NeighborThms Metrics Packet Routing Station.

(** ** Steps of the code *)

Section steps.
Context {U : Type}.
Implicit Type s : AwdsRouting U.

(** The state with packet [p] at address [q]. *)
Definition put (q : Z) (p : BasePacket) s : AwdsRouting U :=
  set_net (mkIface (set_packets (<[q := p]> (packets (table s))) (table s)) (sendQueue (net s))) s.

Definition at_addr s (q : Z) (p : BasePacket) : Prop := packets (table s) !! q = Some p.

Lemma at_put q p s : at_addr (put q p s) q p.
Proof. apply lookup_insert_eq. Qed.

Lemma put_put q p p' s : put q p' (put q p s) = put q p' s.
Proof. unfold put, set_net, set_packets, table. cbn. by rewrite insert_insert_eq. Qed.

Lemma on_table_read {A} (m : N A) s a : m (table s) = Ok (a, table s) -> on_table m s = Ok (a, s).
Proof.
  intros E. unfold on_table, on_net, on_heap, zoom. unfold table in E. rewrite E. by destruct s as [[] ? ? ? ? ? ? ? ? ?].
Qed.

Lemma peek_ok q p s : at_addr s q p -> peek q s = Ok (p, s).
Proof. intros E. apply on_table_read. by apply load_packet_ok. Qed.

Lemma store_ok q p s : on_table (store q p) s = Ok (tt, put q p s).
Proof. done. Qed.

Lemma upd_packet_ok q f p s : at_addr s q p -> upd_packet q f s = Ok (f p, put q (f p) s).
Proof. intros E. unfold upd_packet. by rewrite (M_bind_ok _ _ _ _ _ (peek_ok _ _ _ E)). Qed.

Lemma on_topology_read {A} (m : T A) s a : m (topology s) = Ok (a, topology s) -> on_topology m s = Ok (a, s).
Proof. intros E. unfold on_topology, zoom. rewrite E. by destruct s. Qed.

(** ** Sending *)

(** The state after [base->send]: one more reference, the address at the end of
    the queue, the device waited for. *)
Definition enqueued `{Gea} (q : Z) (high_prio : bool) (now : Z) (p : BasePacket) s : AwdsRouting U :=
  let x := sendQueue (net s) in
  let qs := if high_prio then q :: queue x else queue x ++ [q] in
  let s := put q (set_refcount (refcount p + 1) p) s in
  set_net (set_sendQueue (mkQ qs (if bool_decide (queue x = []) then Some (now + duration 10 1) else waiting x) (sent x)) (net s)) s.

Lemma at_enqueued `{Gea} q hp now p s :
  at_addr (enqueued q hp now p s) q (set_refcount (refcount p + 1) p).
Proof. apply lookup_insert_eq. Qed.

Lemma send_ok `{Gea} q p hp now s :
  at_addr s q p ->
  send q hp now s =
    if negb hp && (QUEUE_LENGTH <=? length (queue (sendQueue (net s))))%nat then Ok (false, s)
    else Ok (true, enqueued q hp now p s).
Proof.
  intros E. unfold send, on_net, zoom, enqueuePacket. mprim.
  destruct (negb hp && _) eqn:C; [by destruct s|].
  assert (ref_packet q (heap (net s)) = Ok (tt, set_packets (<[q := set_refcount (refcount p + 1) p]> (packets (heap (net s)))) (heap (net s)))) as Er.
  { unfold ref_packet. by rewrite (M_bind_ok _ _ _ _ _ (load_packet_ok _ _ _ E)). }
  erewrite M_bind_ok by (unfold on_heap, zoom; by rewrite Er). mprim. mprim.
  cbn [sendQueue set_sendQueue set_heap queue set_queue].
  assert ((length (if hp then q :: queue (sendQueue (net s)) else queue (sendQueue (net s)) ++ [q]) =? 1)%nat
          = bool_decide (queue (sendQueue (net s)) = [])) as ->.
  { destruct hp, (queue (sendQueue (net s))) as [|x l]; try done.
    cbn [length app]. rewrite length_app. cbn. by destruct l. }
  unfold enqueued. case_bool_decide; by destruct s as [[? []] ? ? ? ? ? ? ? ? ?].
Qed.
End steps.

(** ** Unicast packets *)

(** What a station does with a unicast packet. *)
Inductive uaction :=
| Discard (p : BasePacket)
| Deliver (p : BasePacket)
| Forward (nh : NodeId) (p : BasePacket).

(** The packet with this station appended if it is traced. *)
Definition traced (me : NodeId) (p : BasePacket) : outcome BasePacket :=
  t ← SrcPacket.getTraceFlag p;
  if (t : bool) then r ← TraceUcPacket.appendNode me (UnicastPacket.mk p); Ok (snd r) else Ok p.

Definition unicast_spec (me : NodeId) (route : NodeId -> option NodeId) (p : BasePacket) : outcome uaction :=
  let p := UnicastPacket.decrTTL (UnicastPacket.mk p) in
  if UnicastPacket.getTTL p =? 0 then Ok (Discard p)
  else if negb (UnicastPacket.getNextHop p =? me) then Ok (Discard p)
  else
    p ← traced me p;
    if UnicastPacket.getUcDest p =? me then Ok (Deliver p)
    else Ok (match route (UnicastPacket.getUcDest p) with
             | None => Discard p
             | Some nh => Forward nh (setDest nh (UnicastPacket.setNextHop nh p))
             end).

(** The route in a topology whose routes are up to date. *)
Definition route_of (t : RTopology) (dest : NodeId) : option NodeId :=
  match al_find dest (adjList t) with
  | Some d => if nextHop d =? Topology.myNodeId t then None else Some (nextHop d)
  | None => None
  end.

Lemma getNextHop_clean `{StdSort, Gea} now dest nh t :
  dirty t = false ->
  exists x, getNextHop now dest nh t = Ok ((x, bool_decide (is_Some (route_of t dest))), t) /\
    (forall y, route_of t dest = Some y -> x = y).
Proof.
  intros Hd. unfold getNextHop. mprim. rewrite Hd. mprim. mprim. mprim. unfold route_of.
  destruct (al_find dest (adjList t)) as [d|].
  - exists (nextHop d). split; [|by case_match; intros ? [= <-]].
    unfold mret, M_ret. do 3 f_equal. rewrite bool_decide_true by done. cbn [andb].
    destruct (nextHop d =? Topology.myNodeId t); [by rewrite bool_decide_false by (by intros [])|by rewrite bool_decide_true].
  - exists nh. split; [|done]. unfold mret, M_ret. do 3 f_equal.
Qed.

Section unicast.
Context `{Gea, Metric, LinkMeter, StdSort, AES, Basic} {U : Type} `{!Handlers U}.
Implicit Type s : AwdsRouting U.

Definition my_id s : NodeId := Topology.myNodeId (topology s).

Lemma put_same q p s : at_addr s q p -> put q p s = s.
Proof.
  intros E. unfold put, set_net, set_packets. unfold at_addr in E. rewrite insert_id by exact E.
  by destruct s as [[[]] ? ? ? ? ? ? ? ? ?].
Qed.

Lemma trace_ok q p s :
  at_addr s q p ->
  trace q s = match traced (my_id s) p with Ok p' => Ok (tt, put q p' s) | Fail f => Fail f end.
Proof.
  intros E. unfold trace, traced. erewrite M_bind_ok by (by apply peek_ok).
  destruct (SrcPacket.getTraceFlag p) as [t|f] eqn:Et; [|by erewrite M_bind_fail].
  mlift. rewrite outcome_ret_bind. destruct t; cbn [negb]; [|by rewrite put_same].
  mprim. erewrite M_bind_ok by (by apply upd_packet_ok). fold (my_id s).
  destruct (TraceUcPacket.appendNode (my_id s) (UnicastPacket.mk p)) as [r|f] eqn:Ea.
  - erewrite M_bind_ok by (by apply lift_ok). rewrite store_ok, put_put. done.
  - by erewrite M_bind_fail.
Qed.

Lemma recv_unicast_spec q p s now :
  at_addr s q p -> dirty (topology s) = false ->
  recv_unicast q now s =
    match unicast_spec (my_id s) (route_of (topology s)) p with
    | Fail f => Fail f
    | Ok (Discard p') => Ok (tt, put q p' s)
    | Ok (Deliver p') =>
        match unicastRegister (registers s) !! UnicastPacket.getUcPacketType p' with
        | Some (c, d) => recv_callback c d q now (put q p' s)
        | None => Ok (tt, put q p' s)
        end
    | Ok (Forward nh p') =>
        Ok (tt, if (QUEUE_LENGTH <=? length (queue (sendQueue (net s))))%nat then put q p' s
                else enqueued q false now p' (put q p' s))
    end.
Proof.
  intros E Hd. unfold recv_unicast, unicast_spec.
  erewrite M_bind_ok by (by apply upd_packet_ok). set (p0 := UnicastPacket.decrTTL _).
  destruct (UnicastPacket.getTTL p0 =? 0); [done|]. mprim. change (Topology.myNodeId _) with (my_id s).
  destruct (negb (UnicastPacket.getNextHop p0 =? my_id s)); [done|].
  pose proof (trace_ok q p0 (put q p0 s) (at_put q p0 s)) as Ht. change (my_id (put q p0 s)) with (my_id s) in Ht.
  destruct (traced (my_id s) p0) as [p1|f]; [|by erewrite M_bind_fail by exact Ht].
  erewrite M_bind_ok by exact Ht. rewrite put_put, outcome_ret_bind.
  erewrite M_bind_ok by (apply peek_ok, at_put).
  destruct (UnicastPacket.getUcDest p1 =? my_id s).
  { mprim. change (registers (put q p1 s)) with (registers s). by destruct (unicastRegister _ !! _) as [[]|]. }
  destruct (getNextHop_clean now (UnicastPacket.getUcDest p1) AbstractID6.mk_default (topology s) Hd) as (x & Eg & Hx).
  erewrite M_bind_ok by (apply on_topology_read; exact Eg). cbv beta iota.
  destruct (route_of (topology s) (UnicastPacket.getUcDest p1)) as [nh|].
  - rewrite bool_decide_true by done. cbn [negb]. rewrite (Hx nh) by done.
    erewrite M_bind_ok by (apply upd_packet_ok, at_put). rewrite put_put.
    unfold mbind at 1, M_bind at 1. rewrite (send_ok q _ false now _ (at_put _ _ _)). cbn [negb andb].
    change (net (put q ?a s)) with (mkIface (set_packets (<[q := a]> (packets (table s))) (table s)) (sendQueue (net s))).
    cbn [sendQueue]. by destruct (QUEUE_LENGTH <=? _)%nat.
  - rewrite bool_decide_false by (by intros []). done.
Qed.
End unicast.
