(* ===== verification/DeliveryThms.v ===== *)
(** * Delivery: unicast packets reach their destination

    The stations of a network that agree on the topology: a unicast packet is
    handed on from station to station through [recv_data], [recv_unicast] and the
    send queue until it is delivered. *)

From S2P Require Import Prelude Bytes NodeId Isqrt FloodHist Ccm CcmThms CryptoUnit Names Filter Topology RoutesThms SendQueue Neighbors NeighborThms Metrics Packet Routing Station RoutingThms.

(** ** Headers of unicast packets *)

Lemma trace_field i f : trace_header !! i = Some f -> field_law f.
Proof.
  intros E. pose proof headers_law as Hl. rewrite Forall_forall in Hl.
  specialize (Hl trace_header).
  destruct Hl as [Ha _]; [unfold headers; set_solver|]. by eapply (Forall_lookup_1 field_law).
Qed.

Lemma trace_frame i j f g v p :
  trace_header !! i = Some f -> trace_header !! j = Some g -> i <> j -> wf_packet p -> fget f (fset g v p) = fget f p.
Proof.
  intros Hi Hj Hij Hp. pose proof headers_law as Hl. rewrite Forall_forall in Hl.
  specialize (Hl trace_header).
  destruct Hl as [_ Hd]; [unfold headers; set_solver|].
  apply field_frame; [by eapply trace_field..| |done]. by eapply (pairwise_disjoint_lookup trace_header i j).
Qed.

(** A header of [n] bytes is rewritten: what stays. *)
Record same_rest (n : nat) (p p' : BasePacket) : Prop := {
  sr_wf : wf_packet p';
  sr_rest : drop n (buffer p') = drop n (buffer p);
  sr_byte0 : get_byte 0 p' = get_byte 0 p;
  sr_size : size p' = size p;
  sr_refcount : refcount p' = refcount p;
  sr_cb : cb p' = cb p;
}.

Lemma drop_splice {A} (off n : nat) (bs l : list A) :
  (off + length bs <= n)%nat -> (n <= length l)%nat -> drop n (splice off bs l) = drop n l.
Proof.
  intros H1 H2. apply list_eq. intros i. rewrite !lookup_drop, splice_lookup by lia. case_decide; [lia|done].
Qed.

Lemma field_same_rest n f v p :
  field_law f -> wf_packet p -> (0 < foff f)%nat -> (foff f + flen f <= n)%nat -> (n <= MaxSize)%nat ->
  same_rest n p (fset f v p).
Proof.
  intros Lf Hp H0 Hn HM. pose proof (field_set_wf f v p Lf Hp) as Hw.
  destruct (fl_set f Lf v p Hp) as (bs & Hl & Hb & E). rewrite E in *. destruct Hp as [Hlen _].
  constructor; try done.
  - cbn. apply drop_splice; lia.
  - unfold get_byte, byte_at. cbn. rewrite splice_lookup by lia. case_decide; [lia|done].
Qed.

Lemma same_rest_trans n p1 p2 p3 : same_rest n p1 p2 -> same_rest n p2 p3 -> same_rest n p1 p3.
Proof. intros [] []. constructor; congruence. Qed.

(** ** Rewriting the header of a unicast packet *)

Definition hopped (nh : NodeId) (p : BasePacket) : BasePacket :=
  UnicastPacket.setNextHop nh (UnicastPacket.setTTL (UnicastPacket.getTTL p - 1) p).

Record hop_fields (nh : NodeId) (p p' : BasePacket) : Prop := {
  hf_rest : same_rest UnicastPacket.UnicastPacketEnd p p';
  hf_ttl : UnicastPacket.getTTL p' = u8 (UnicastPacket.getTTL p - 1);
  hf_next : UnicastPacket.getNextHop p' = wrap 48 nh;
  hf_dest : UnicastPacket.getUcDest p' = UnicastPacket.getUcDest p;
  hf_src : SrcPacket.getSrc p' = SrcPacket.getSrc p;
  hf_type : UnicastPacket.getUcPacketType p' = UnicastPacket.getUcPacketType p;
}.

Definition fSrc := mkField SrcPacket.OffsetSrc 6 SrcPacket.getSrc SrcPacket.setSrc (wrap 48).
Definition fDest := mkField UnicastPacket.OffsetUcDest 6 UnicastPacket.getUcDest UnicastPacket.setUcDest (wrap 48).
Definition fNext := mkField UnicastPacket.OffsetNextHop 6 UnicastPacket.getNextHop UnicastPacket.setNextHop (wrap 48).
Definition fTTL := mkField UnicastPacket.OffsetTTL 1 UnicastPacket.getTTL UnicastPacket.setTTL (wrap 8).
Definition fType := mkField UnicastPacket.OffsetUcType 1 UnicastPacket.getUcPacketType UnicastPacket.setUcPacketType (wrap 8).

Lemma hopped_eq nh p : hopped nh p = fset fNext nh (fset fTTL (fget fTTL p - 1) p).
Proof. unfold hopped, fNext, fTTL. cbn [fset fget]. reflexivity. Qed.

Lemma hopped_fields nh p : wf_packet p -> hop_fields nh p (hopped nh p).
Proof.
  intros Hp. rewrite hopped_eq. set (v := fget fTTL p - 1).
  pose proof (trace_field 3 fNext eq_refl) as LN. pose proof (trace_field 4 fTTL eq_refl) as LT.
  assert (wf_packet (fset fTTL v p)) as Hq by (by apply field_set_wf).
  assert (forall i f, trace_header !! i = Some f -> i <> 3%nat -> i <> 4%nat ->
    fget f (fset fNext nh (fset fTTL v p)) = fget f p) as Hf.
  { intros i f Hi H3 H4. rewrite (trace_frame i 3 f fNext) by done. by rewrite (trace_frame i 4 f fTTL). }
  pose proof (Hf 2%nat fDest eq_refl ltac:(done) ltac:(done)) as HD.
  pose proof (Hf 0%nat fSrc eq_refl ltac:(done) ltac:(done)) as HS.
  pose proof (Hf 5%nat fType eq_refl ltac:(done) ltac:(done)) as HY.
  pose proof (fl_get_set fNext LN nh _ Hq) as HN.
  pose proof (trace_frame 4 3 fTTL fNext nh _ eq_refl eq_refl ltac:(done) Hq) as HT.
  rewrite (fl_get_set fTTL LT v p Hp) in HT. unfold v in HT at 2.
  assert (same_rest UnicastPacket.UnicastPacketEnd p (fset fNext nh (fset fTTL v p))) as HR
    by (eapply same_rest_trans; apply field_same_rest; try done; inside_tac).
  revert HD HS HY HN HT HR. generalize (fset fNext nh (fset fTTL v p)). intros p'.
  unfold fDest, fSrc, fType, fNext, fTTL. cbn [fget ftrunc]. intros. by constructor.
Qed.

Record ttl_fields (v : Z) (p p' : BasePacket) : Prop := {
  tf_rest : same_rest UnicastPacket.UnicastPacketEnd p p';
  tf_ttl : UnicastPacket.getTTL p' = u8 v;
  tf_next : UnicastPacket.getNextHop p' = UnicastPacket.getNextHop p;
  tf_dest : UnicastPacket.getUcDest p' = UnicastPacket.getUcDest p;
  tf_src : SrcPacket.getSrc p' = SrcPacket.getSrc p;
  tf_type : UnicastPacket.getUcPacketType p' = UnicastPacket.getUcPacketType p;
}.

Lemma setTTL_fields v p : wf_packet p -> ttl_fields v p (UnicastPacket.setTTL v p).
Proof.
  intros Hp. change (UnicastPacket.setTTL v p) with (fset fTTL v p).
  pose proof (trace_field 4 fTTL eq_refl) as LT.
  assert (forall i f, trace_header !! i = Some f -> i <> 4%nat -> fget f (fset fTTL v p) = fget f p) as Hf
    by (intros i f Hi H4; by rewrite (trace_frame i 4 f fTTL)).
  pose proof (Hf 2%nat fDest eq_refl ltac:(done)) as HD. pose proof (Hf 0%nat fSrc eq_refl ltac:(done)) as HS.
  pose proof (Hf 5%nat fType eq_refl ltac:(done)) as HY. pose proof (Hf 3%nat fNext eq_refl ltac:(done)) as HN.
  pose proof (fl_get_set fTTL LT v p Hp) as HT.
  assert (same_rest UnicastPacket.UnicastPacketEnd p (fset fTTL v p)) as HR
    by (apply field_same_rest; try done; inside_tac).
  revert HD HS HY HN HT HR. generalize (fset fTTL v p). intros p'.
  unfold fDest, fSrc, fType, fNext, fTTL. cbn [fget ftrunc]. intros. by constructor.
Qed.

Lemma decrTTL_set p : UnicastPacket.decrTTL p = UnicastPacket.setTTL (UnicastPacket.getTTL p - 1) p.
Proof. unfold UnicastPacket.decrTTL, UnicastPacket.setTTL, set_byte, UnicastPacket.getTTL. by rewrite u8_rem. Qed.

(** Marking a packet with the type it has. *)
Lemma setType_id t p : wf_packet p -> getType p = t -> setType t p = p.
Proof.
  intros Hw Ht. pose proof (get_byte_wf 0 p Hw MaxSize_pos) as Hb0.
  assert (u8 (Z.lor (Z.land (get_byte 0 p) (Z.lnot 3)) (PacketType_num t)) = get_byte 0 p) as E.
  { unfold getType in Ht. revert Hb0 Ht. generalize (get_byte 0 p). intros v Hv Ht.
    pose proof (byte_forall (fun v => negb (bool_decide (PacketType_of_num (Z.land v 3) = t)) ||
      (u8 (Z.lor (Z.land v (Z.lnot 3)) (PacketType_num t)) =? v)) v) as C.
    cbn beta in C. rewrite (bool_decide_true _ Ht) in C. apply Z.eqb_eq, C; [|done]. destruct t; by vm_compute. }
  unfold setType, set_byte, upd, set_buffer. rewrite E. destruct Hw as [Hl Hby]. unfold get_byte, byte_at.
  destruct (buffer p) as [|x l] eqn:Eb.
  { pose proof MaxSize_pos. cbn [length] in Hl. lia. }
  destruct p as [bf sz rc c d]. cbn [buffer] in Eb. by subst bf.
Qed.

(** ** One station *)

(** The packet [recv_data] makes of the bytes of a frame. *)
Definition packet_of (f : list Z) : BasePacket :=
  set_size (Z.of_nat (length f)) (upd (splice 0 f) BasePacket_new).

Record frame_ok (f : list Z) : Prop := {
  fo_bytes : bytes f;
  fo_length : (UnicastPacket.UnicastPacketEnd <= length f <= MaxSize)%nat;
}.

Lemma packet_of_wf f : frame_ok f -> wf_packet (packet_of f).
Proof.
  intros [Hb Hl]. destruct BasePacket_new_wf as [Hn Hz]. split.
  - change (buffer (packet_of f)) with (splice 0 f (buffer BasePacket_new)). rewrite splice_length; [done|]. lia.
  - change (buffer (packet_of f)) with (splice 0 f (buffer BasePacket_new)). by apply Forall_splice.
Qed.

(** A frame that holds the buffer of a packet. *)
Lemma reframe n p :
  wf_packet p -> (n <= MaxSize)%nat -> drop n (buffer p) = drop n (buffer BasePacket_new) ->
  buffer (packet_of (slice 0 n (buffer p))) = buffer p.
Proof.
  intros [Hl _] Hn Hd. change (buffer (packet_of ?x)) with (splice 0 x (buffer BasePacket_new)).
  unfold splice, slice. rewrite drop_0, take_0, length_take, Nat.min_l by lia.
  rewrite Nat.add_0_l, <- Hd. cbn [app]. apply take_drop.
Qed.

Lemma packet_of_rest f : frame_ok f -> drop (length f) (buffer (packet_of f)) = drop (length f) (buffer BasePacket_new).
Proof.
  intros [_ Hl]. change (buffer (packet_of f)) with (splice 0 f (buffer BasePacket_new)).
  destruct BasePacket_new_wf as [Hn _]. apply drop_splice; lia.
Qed.

Lemma slice_packet_of f : frame_ok f -> slice 0 (length f) (buffer (packet_of f)) = f.
Proof.
  intros [_ Hl]. change (buffer (packet_of f)) with (splice 0 f (buffer BasePacket_new)).
  destruct BasePacket_new_wf as [Hn _]. apply slice_splice_same. lia.
Qed.

(** What the stations read in a unicast frame. *)
Record flight (x d src ttl type : Z) (f : list Z) : Prop := {
  fl_ok : frame_ok f;
  fl_type : getType (packet_of f) = PacketTypeUnicast;
  fl_trace : SrcPacket.getTraceFlag (packet_of f) = Ok false;
  fl_next : UnicastPacket.getNextHop (packet_of f) = x;
  fl_dest : UnicastPacket.getUcDest (packet_of f) = d;
  fl_src : SrcPacket.getSrc (packet_of f) = src;
  fl_ttl : UnicastPacket.getTTL (packet_of f) = ttl;
  fl_uctype : UnicastPacket.getUcPacketType (packet_of f) = type;
}.

Record same_getters (p q : BasePacket) : Prop := {
  sg_type : getType p = getType q;
  sg_trace : SrcPacket.getTraceFlag p = SrcPacket.getTraceFlag q;
  sg_next : UnicastPacket.getNextHop p = UnicastPacket.getNextHop q;
  sg_dest : UnicastPacket.getUcDest p = UnicastPacket.getUcDest q;
  sg_src : SrcPacket.getSrc p = SrcPacket.getSrc q;
  sg_ttl : UnicastPacket.getTTL p = UnicastPacket.getTTL q;
  sg_uctype : UnicastPacket.getUcPacketType p = UnicastPacket.getUcPacketType q;
}.

Lemma buffer_getters p q : buffer p = buffer q -> same_getters p q.
Proof.
  intros E. constructor;
  unfold getType, SrcPacket.getTraceFlag, SrcPacket.getControlBit, UnicastPacket.getNextHop, UnicastPacket.getUcDest,
    SrcPacket.getSrc, UnicastPacket.getTTL, UnicastPacket.getUcPacketType, get_byte; by rewrite E.
Qed.

Lemma byte0_getters p q :
  get_byte 0 p = get_byte 0 q -> getType p = getType q /\ SrcPacket.getTraceFlag p = SrcPacket.getTraceFlag q.
Proof. intros E. unfold getType, SrcPacket.getTraceFlag, SrcPacket.getControlBit. by rewrite E. Qed.

(** The frame of a packet whose first [n] bytes were rewritten. *)
Lemma rewritten_at n f p' :
  frame_ok f -> (n <= length f)%nat -> same_rest n (packet_of f) p' ->
  let f' := slice 0 (length f) (buffer p') in
  frame_ok f' /\ same_getters (packet_of f') p' /\ length f' = length f /\
  drop n f' = drop n f /\ buffer (packet_of f') = buffer p'.
Proof.
  intros Hok Hn [Wq Rq _ _ _ _] f'. pose proof Hok as [Hb Hl].
  assert (length (buffer p') = MaxSize) as Hlq by apply Wq.
  assert (length f' = length f) as Hlf by (apply slice_length; lia).
  assert (buffer (packet_of f') = buffer p') as Hbuf.
  { apply reframe; [done|lia|]. rewrite <- (packet_of_rest f Hok).
    replace (length f) with (n + (length f - n))%nat by lia. rewrite <- !(drop_drop _ _ n). by rewrite Rq. }
  split_and!; [|by apply buffer_getters|done| |done].
  - split; [by apply Forall_slice, Wq|lia].
  - transitivity (drop n (slice 0 (length f) (buffer (packet_of f)))); [|by rewrite slice_packet_of].
    unfold f', slice. rewrite !drop_0, !skipn_firstn_comm. by rewrite Rq.
Qed.

Lemma rewritten f p' :
  frame_ok f -> same_rest UnicastPacket.UnicastPacketEnd (packet_of f) p' ->
  let f' := slice 0 (length f) (buffer p') in
  frame_ok f' /\ same_getters (packet_of f') p' /\ length f' = length f /\
  drop UnicastPacket.UnicastPacketEnd f' = drop UnicastPacket.UnicastPacketEnd f.
Proof.
  intros Hok Hr f'. destruct (rewritten_at _ f p' Hok (proj1 (fo_length _ Hok)) Hr) as (H1 & H2 & H3 & H4 & _).
  by split_and!.
Qed.

(** The packet as the next hop gets it. *)
Lemma flight_hop x d src ttl type nh f :
  flight x d src ttl type f -> 0 <= nh < 2 ^ 48 -> 1 <= ttl < 256 ->
  let f' := slice 0 (length f) (buffer (hopped nh (packet_of f))) in
  flight nh d src (ttl - 1) type f' /\
  drop UnicastPacket.UnicastPacketEnd f' = drop UnicastPacket.UnicastPacketEnd f.
Proof.
  intros [Hok Hty Htr Hn Hd Hs Ht Hu] Hnh Httl f'. pose proof (packet_of_wf f Hok) as Hwf.
  destruct (hopped_fields nh _ Hwf) as [Hrest Tq Nq Dq Sq Yq].
  destruct (byte0_getters _ _ (sr_byte0 _ _ _ Hrest)) as [T1 T2].
  destruct (rewritten f _ Hok Hrest) as (Hok' & [G1 G2 G3 G4 G5 G6 G7] & _ & Hdrop).
  split; [constructor|exact Hdrop].
  - exact Hok'.
  - unfold f'. by rewrite G1, T1.
  - unfold f'. by rewrite G2, T2.
  - unfold f'. rewrite G3, Nq. by apply wrap_id.
  - unfold f'. by rewrite G4, Dq.
  - unfold f'. by rewrite G5, Sq.
  - unfold f'. rewrite G6, Tq, Ht. apply wrap_id. unfold in_width. lia.
  - unfold f'. by rewrite G7, Yq.
Qed.

(** What a station reads in a unicast packet, and what it does with one addressed to
    it. *)
Record unipacket (x d src ttl type : Z) (p : BasePacket) : Prop := {
  up_wf : wf_packet p;
  up_type : getType p = PacketTypeUnicast;
  up_trace : SrcPacket.getTraceFlag p = Ok false;
  up_next : UnicastPacket.getNextHop p = x;
  up_dest : UnicastPacket.getUcDest p = d;
  up_src : SrcPacket.getSrc p = src;
  up_ttl : UnicastPacket.getTTL p = ttl;
  up_uctype : UnicastPacket.getUcPacketType p = type;
}.

Lemma flight_packet x d src ttl type f : flight x d src ttl type f -> unipacket x d src ttl type (packet_of f).
Proof. intros []. constructor; try done. by apply packet_of_wf. Qed.

Lemma unicast_spec_packet x d src ttl type p route :
  unipacket x d src ttl type p -> 2 <= ttl < 256 ->
  unicast_spec x route p = Ok (
    if d =? x then Deliver (UnicastPacket.setTTL (ttl - 1) p)
    else match route d with
         | None => Discard (UnicastPacket.setTTL (ttl - 1) p)
         | Some nh => Forward nh (setDest nh (hopped nh p))
         end).
Proof.
  intros [Hwf Hty Htr Hn Hd Hs Ht Hu] Httl.
  unfold unicast_spec, hopped, UnicastPacket.mk. rewrite setType_id by done. rewrite decrTTL_set, Ht.
  destruct (setTTL_fields (ttl - 1) _ Hwf) as [Hrest Tq Nq Dq Sq Yq].
  destruct (byte0_getters _ _ (sr_byte0 _ _ _ Hrest)) as [T1 T2].
  revert Tq Nq Dq T2. generalize (UnicastPacket.setTTL (ttl - 1) p). intros p' Tq Nq Dq T2. cbv zeta.
  rewrite Tq, Nq, Hn, wrap_id by (unfold in_width; lia). rewrite (proj2 (Z.eqb_neq (ttl - 1) 0)) by lia.
  rewrite Z.eqb_refl. cbn [negb]. unfold traced. rewrite T2, Htr, !outcome_ret_bind, Dq, Hd.
  destruct (d =? x); [done|]. by destruct (route d).
Qed.

Lemma unicast_spec_flight x d src ttl type f route :
  flight x d src ttl type f -> 2 <= ttl < 256 ->
  unicast_spec x route (packet_of f) = Ok (
    let p := UnicastPacket.setTTL (ttl - 1) (packet_of f) in
    if d =? x then Deliver p
    else match route d with
         | None => Discard p
         | Some nh => Forward nh (setDest nh (hopped nh (packet_of f)))
         end).
Proof. intros Hf Httl. by rewrite (unicast_spec_packet x d src ttl type) by (done || by apply flight_packet). Qed.

Section one_unicast.
Context `{Gea, Metric, LinkMeter, StdSort, AES, Basic} {U : Type} `{!Handlers U}.
Implicit Type s : AwdsRouting U.

(** An idle station. *)
Record idle (s : AwdsRouting U) : Prop := {
  il_clean : dirty (topology s) = false;
  il_firewall : firewall s = None;
  il_queue : queue (sendQueue (net s)) = [];
}.

Lemma recv_data_unicast f now s :
  frame_ok f -> getType (packet_of f) = PacketTypeUnicast -> idle s -> SrcPacket.getSrc (packet_of f) <> my_id s ->
  let q := newAddr (counters s) in
  exists s1, at_addr s1 q (packet_of f) /\ idle s1 /\ my_id s1 = my_id s /\ topology s1 = topology s /\
    registers s1 = registers s /\ modules s1 = modules s /\ sent (sendQueue (net s1)) = sent (sendQueue (net s)) /\
    newAddr (counters s1) = q + 1 /\
    recv_data (Z.of_nat (length f)) f now s = (recv_unicast q now;; on_table (unref_packet q)) s1.
Proof.
  intros Hf Ht [Hd Hfw Hqu] Hsrc q.
  set (s0 := set_counters (mkCounters (beaconSeq (counters s)) (floodSeq (counters s)) (unicastSeq (counters s)) (q + 1))
               (put q BasePacket_new s)).
  exists (put q (packet_of f) s0). split; [apply at_put|]. split; [by constructor|]. do 6 (split; [done|]).
  unfold recv_data, new_packet.
  erewrite M_bind_ok by (erewrite M_bind_ok by reflexivity; cbv beta zeta; erewrite M_bind_ok by apply store_ok;
    erewrite M_bind_ok by reflexivity; reflexivity).
  fold q. fold s0. erewrite M_bind_ok by (apply peek_ok, at_put). unfold receive.
  destruct Hf as [Hb Hl].
  assert ((length f <= 4096)%nat) as Hl' by exact (proj2 Hl).
  assert ((23 <= length f)%nat) as Hl2 by exact (proj1 Hl).
  rewrite (wrap_id 64) by (unfold in_width; lia). rewrite swrap_id by lia. cbv beta iota.
  erewrite M_bind_ok by apply store_ok. rewrite (proj2 (Z.ltb_lt 0 _)) by lia.
  change (put q (set_size _ _) s0) with (put q (packet_of f) s0). set (s1 := put q (packet_of f) s0).
  assert (recv_packet q now s1 = recv_unicast q now s1) as Er.
  { unfold recv_packet. erewrite M_bind_ok by (apply peek_ok, at_put). mprim. mprim.
    change (firewall s1) with (firewall s). rewrite Hfw. cbn [andb].
    change (Topology.myNodeId (topology s1)) with (my_id s).
    rewrite (proj2 (Z.eqb_neq _ _)) by done. cbn [negb]. by rewrite Ht. }
  unfold mbind, M_bind. by rewrite Er.
Qed.

(** A frame for this station reaches the protocol that is registered for it. *)
Lemma recv_data_delivers x src ttl type f now c d s :
  idle s -> my_id s = x -> src <> x -> 2 <= ttl < 256 -> flight x x src ttl type f ->
  unicastRegister (registers s) !! type = Some (c, d) ->
  let q := newAddr (counters s) in
  exists s1, at_addr s1 q (UnicastPacket.setTTL (ttl - 1) (packet_of f)) /\ idle s1 /\ my_id s1 = x /\
    topology s1 = topology s /\ registers s1 = registers s /\ modules s1 = modules s /\
    sent (sendQueue (net s1)) = sent (sendQueue (net s)) /\ newAddr (counters s1) = q + 1 /\
    recv_data (Z.of_nat (length f)) f now s = (recv_callback c d q now;; on_table (unref_packet q)) s1.
Proof.
  intros Hi Hx Hsrc Httl Hf Hreg q.
  destruct (recv_data_unicast f now s) as (s1 & Hat & Hi1 & Hm & Ht & Hr & Hmod & Hs & Hn & E);
    [apply Hf|apply Hf|done|rewrite (fl_src _ _ _ _ _ _ Hf); congruence|].
  fold q in Hat, Hn, E. set (p := UnicastPacket.setTTL (ttl - 1) (packet_of f)).
  exists (put q p s1). split; [apply at_put|]. split; [by destruct Hi1; constructor|].
  change (my_id (put q p s1)) with (my_id s1). split; [congruence|]. do 5 (split; [done|]).
  rewrite E. pose proof (recv_unicast_spec q (packet_of f) s1 now Hat (il_clean _ Hi1)) as Er.
  rewrite Hm, Hx, (unicast_spec_flight x x src ttl _ f _ Hf Httl), Z.eqb_refl in Er. cbv beta iota zeta in Er. fold p in Er.
  destruct (setTTL_fields (ttl - 1) _ (packet_of_wf f (fl_ok _ _ _ _ _ _ Hf))) as [_ _ _ _ _ Yp]. fold p in Yp.
  rewrite Yp, (fl_uctype _ _ _ _ _ _ Hf), Hr, Hreg in Er. unfold mbind, M_bind. by rewrite Er.
Qed.
End one_unicast.

Section network.
Context `{Gea, Metric, LinkMeter, StdSort, AES, Basic}.

(** An application that records the packets it is given. *)
Definition inbox : Type := list (list Z).
#[local] Instance recorder : Handlers inbox := {|
  recv_callback cb data q now :=
    p ← peek q; modify (fun s => set_modules (slice 0 (Z.to_nat (size p)) (buffer p) :: modules s) s)
|}.

(** A station receives a frame; then the device is ready and sends what is in
    the queue.  The frame that is sent, if any, and the packets delivered. *)
Definition relay (now : Z) (frame : list Z) (s : AwdsRouting inbox) : outcome (option (NodeId * list Z) * inbox) :=
  r ← recv_data (Z.of_nat (length frame)) frame now s;
  let s := snd r in
  match queue (sendQueue (net s)) with
  | [] => Ok (None, modules s)
  | _ => r ← on_net (xmit_cb true (Z.of_nat (length frame)) now) s;
         Ok (head (sent (sendQueue (net (snd r)))), modules s)
  end.

(** A frame handed on from station to station, each time to the station it is
    addressed to, until nothing is sent any more: where it got to, and what was
    delivered there. *)
Fixpoint travel (fuel : nat) (net : NodeId -> AwdsRouting inbox) (x : NodeId) (now : Z) (frame : list Z) :
    outcome (NodeId * inbox) :=
  match fuel with
  | O => Fail OutOfFuel
  | S fuel =>
      r ← relay now frame (net x);
      match r : option (NodeId * list Z) * inbox with
      | (Some (nh, frame), _) => travel fuel net nh now frame
      | (None, delivered) => Ok (x, delivered)
      end
  end.

(** The state without the packet at [q], whose callback may have been called. *)
Definition gone {U} (q : Z) (p : BasePacket) (s : AwdsRouting U) : AwdsRouting U :=
  set_net (mkIface (set_fired (option_list (match cb p with Some (c, d) => Some (c, d, -1) | None => None end) ++ fired (table s))
    (set_packets (delete q (packets (table s))) (table s))) (sendQueue (net s))) s.

Lemma unref_ok {U} q p (s : AwdsRouting U) :
  at_addr s q p -> 1 <= refcount p ->
  on_table (unref_packet q) s =
    Ok (tt, if refcount p =? 1 then gone q p s else put q (set_refcount (refcount p - 1) p) s).
Proof.
  intros E Hr. unfold on_table, on_net, on_heap, zoom, unref_packet.
  rewrite (M_bind_ok _ _ _ _ _ (load_packet_ok _ _ _ E)). unfold unref.
  rewrite (proj2 (Z.ltb_lt 0 _)) by lia. change (cassert true) with (Ok tt). rewrite outcome_ret_bind. cbv zeta.
  replace (refcount p - 1 =? 0) with (refcount p =? 1)
    by (destruct (Z.eqb_spec (refcount p) 1), (Z.eqb_spec (refcount p - 1) 0); lia).
  destruct (refcount p =? 1); reflexivity.
Qed.

(** The device takes the only packet of the queue: the packet is deleted, or kept if
    there is another reference. *)
Lemma xmit_only {U} q p ret now (s : AwdsRouting U) rest :
  at_addr s q p -> queue (sendQueue (net s)) = [q] -> 0 <= ret -> 1 <= refcount p -> 0 <= size p <= Z.of_nat MaxSize ->
  rest = (if refcount p =? 1 then None else Some (set_refcount (refcount p - 1) (set_cb None p))) ->
  exists s', on_net (xmit_cb true ret now) s = Ok (tt, s') /\
    sent (sendQueue (net s')) = (dest p, slice 0 (Z.to_nat (size p)) (buffer p)) :: sent (sendQueue (net s)) /\
    queue (sendQueue (net s')) = [] /\ packets (table s') !! q = rest.
Proof.
  intros E Hq Hret Hrc Hsz Hrest. assert ((refcount p - 1 =? 0) = (refcount p =? 1)) as E1
    by (destruct (Z.eqb_spec (refcount p) 1), (Z.eqb_spec (refcount p - 1) 0); lia).
  unfold on_net, zoom, xmit_cb, doSend.
  mprim. mprim. cbn [sendQueue set_sendQueue queue set_waiting]. rewrite Hq. mlift.
  assert (forall x, heap x = heap (net s) -> load q (heap x) = Ok (p, heap x)) as Hload
    by (intros x ->; by apply load_packet_ok).
  assert (exists fd, ((match cb p with Some (c, d) => modify (fun s => set_fired ((c, d, ret) :: fired s) s) | None => mret tt end);;
      store q (set_cb None p)) (heap (net s)) =
      Ok (tt, set_packets (<[q := set_cb None p]> (packets (heap (net s)))) (set_fired fd (heap (net s))))) as [fd Hcb].
  { destruct (cb p) as [[c d]|]; [by eexists|exists (fired (heap (net s)))]. by destruct (heap (net s)). }
  destruct (refcount p =? 1); (erewrite M_bind_ok; cycle 1;
  [ mlift; mprim; cbn [tail];
    erewrite M_bind_ok; cycle 1;
    [ erewrite M_bind_ok by (unfold on_heap, zoom; rewrite Hload by done; reflexivity);
      rewrite (proj2 (Z.leb_le (size p) _)) by lia; mprim; rewrite (proj2 (Z.leb_le 0 ret)) by lia; mprim;
      erewrite M_bind_ok by (unfold on_heap at 1, zoom at 1; cbn [heap set_sendQueue set_heap]; rewrite Hcb; reflexivity); reflexivity |];
    unfold on_heap, zoom, unref_packet; erewrite M_bind_ok; cycle 1;
    [ apply load_packet_ok; cbn [heap set_heap set_sendQueue packets set_packets]; apply lookup_insert_eq |];
    unfold unref; cbn [refcount set_cb cb]; rewrite (proj2 (Z.ltb_lt 0 _)) by lia;
    change (cassert true) with (Ok tt); rewrite outcome_ret_bind; cbv zeta; rewrite E1; reflexivity |]).
  all: subst rest; cbn; eexists; split_and!; [reflexivity..|first [apply lookup_delete_eq|apply lookup_insert_eq]].
Qed.

Section one_station.
Context (f : list Z) (now : Z) (s : AwdsRouting inbox).
Hypothesis Hf : frame_ok f.
Hypothesis Htype : getType (packet_of f) = PacketTypeUnicast.
Hypothesis Hidle : idle s.
Hypothesis Hsrc : SrcPacket.getSrc (packet_of f) <> my_id s.

Lemma relay_forward nh p' :
  unicast_spec (my_id s) (route_of (topology s)) (packet_of f) = Ok (Forward nh p') ->
  dest p' = nh -> size p' = Z.of_nat (length f) -> refcount p' = 1 ->
  relay now f s = Ok (Some (nh, slice 0 (length f) (buffer p')), modules s).
Proof.
  intros Hu Hd Hsz Hrc. destruct (recv_data_unicast f now s Hf Htype Hidle Hsrc) as (s1 & Hat & Hi1 & Hm & Ht & _ & Hmod & _ & _ & E).
  unfold relay. rewrite E. set (q := newAddr (counters s)) in *.
  pose proof (recv_unicast_spec q (packet_of f) s1 now Hat (il_clean _ Hi1)) as Er.
  rewrite Hm, Ht, Hu in Er. rewrite (il_queue _ Hi1) in Er. cbn [length] in Er.
  change (QUEUE_LENGTH <=? 0)%nat with false in Er.
  erewrite M_bind_ok by exact Er.
  pose proof (at_enqueued q false now p' (put q p' s1)) as Hat2. rewrite Hrc in Hat2.
  rewrite (unref_ok _ _ _ Hat2) by (cbn; lia). cbn [refcount set_refcount]. change (1 + 1 =? 1) with false. cbv iota.
  rewrite outcome_ret_bind. cbn [snd]. set (s2 := put q _ _).
  assert (queue (sendQueue (net s2)) = [q]) as Hq2.
  { unfold s2, enqueued, put. cbn [net set_net sendQueue set_sendQueue queue]. by rewrite (il_queue _ Hi1). }
  assert (modules s2 = modules s) as Hm2 by exact Hmod. rewrite Hq2.
  destruct Hf as [_ [_ Hl]].
  destruct (xmit_only q (set_refcount 1 p') (Z.of_nat (length f)) now s2 None) as (s3 & E3 & Hs3 & _).
  { apply at_put. } { done. } { lia. } { done. } { cbn [size set_refcount]. rewrite Hsz. lia. } { done. }
  rewrite E3, outcome_ret_bind. cbn [snd]. rewrite Hs3, Hm2. cbn [head dest size buffer set_refcount].
  by rewrite Hd, Hsz, Nat2Z.id.
Qed.

Lemma relay_deliver p' cd :
  unicast_spec (my_id s) (route_of (topology s)) (packet_of f) = Ok (Deliver p') ->
  unicastRegister (registers s) !! UnicastPacket.getUcPacketType p' = Some cd ->
  size p' = Z.of_nat (length f) -> refcount p' = 1 ->
  relay now f s = Ok (None, slice 0 (length f) (buffer p') :: modules s).
Proof.
  intros Hu Hreg Hsz Hrc. destruct (recv_data_unicast f now s Hf Htype Hidle Hsrc) as (s1 & Hat & Hi1 & Hm & Ht & Hr & Hmod & _ & _ & E).
  unfold relay. rewrite E. set (q := newAddr (counters s)) in *.
  pose proof (recv_unicast_spec q (packet_of f) s1 now Hat (il_clean _ Hi1)) as Er.
  rewrite Hm, Ht, Hu, Hr, Hreg in Er. destruct cd as [c d]. unfold recv_callback, recorder in Er.
  erewrite M_bind_ok in Er by (apply peek_ok, at_put). erewrite M_bind_ok by exact Er.
  erewrite unref_ok; [|exact (at_put q p' s1)|lia]. rewrite Hrc, Hsz, Nat2Z.id, outcome_ret_bind. cbn [snd].
  change (queue _) with (queue (sendQueue (net s1))). rewrite (il_queue _ Hi1).
  rewrite <- Hmod. reflexivity.
Qed.
End one_station.

(** ** The network *)

Section delivery.
Context (a : AdjList) (stations : NodeId -> AwdsRouting inbox) (d src type now : Z).
Abbreviation ids := (a.*1).
Abbreviation links := (links_of a).
Hypothesis Hnd : NoDup ids.
Hypothesis Hlen : (length a <= 1024)%nat.
Hypothesis Hw : weights_ok a.
Hypothesis Hids : Forall (fun k => 0 <= k < 2 ^ 48) ids.
Hypothesis Hidle : forall x, x ∈ ids -> idle (stations x) /\ my_id (stations x) = x.
Hypothesis Hroutes : forall x, x ∈ ids -> routes x a = Ok (adjList (topology (stations x))).

Definition reaches (x : NodeId) : Prop := exists D, path ids links x d D.

(** The distance of [x] from the destination, as [x] knows it. *)
Definition away (x : NodeId) : Z := dist_of (adjList (topology (stations x))) d.

Lemma away_shortest x : x ∈ ids -> reaches x -> shortest ids links x d (away x).
Proof.
  intros Hx [D HD]. destruct (routes_correct x a Hnd Hx Hlen Hw) as (a' & E & _ & _ & Hs).
  rewrite (Hroutes x Hx) in E. injection E as E.
  destruct (Hs d (path_in _ _ _ _ _ HD)) as [Hpos _]. unfold away. rewrite E. by apply (Hpos D).
Qed.

Lemma hop_closer x :
  x ∈ ids -> x <> d -> reaches x ->
  exists nh, route_of (topology (stations x)) d = Some nh /\ nh ∈ ids /\ reaches nh /\ away nh < away x.
Proof.
  intros Hx Hxd [D HD]. destruct (routes_correct x a Hnd Hx Hlen Hw) as (a' & E & Hk & _ & Hs).
  rewrite (Hroutes x Hx) in E. injection E as E. pose proof (path_in _ _ _ _ _ HD) as Hd.
  destruct (Hs d Hd) as [Hpos _]. destruct (Hpos D HD) as [Hsh Hn].
  destruct (Hn (not_eq_sym Hxd)) as (Hne & c & Hedge & Hp).
  assert (0 < c) as Hc.
  { destruct Hedge as (_ & Hv & l & Hl & Hnl & <-). rewrite <- Hnl in Hv. by apply (Hw x l). }
  assert (next_of a' d ∈ ids) as Hin by apply Hedge.
  exists (next_of a' d). split_and!; [| done | by eexists |].
  - unfold route_of. rewrite E. destruct (Hidle x Hx) as [_ Hm]. unfold my_id in Hm. rewrite Hm.
    assert (d ∈ a'.*1) as Hda by (by rewrite Hk). apply al_find_is_Some in Hda as [dd Hdd].
    unfold next_of in *. rewrite Hdd in *. by rewrite (proj2 (Z.eqb_neq _ _)).
  - assert (reaches (next_of a' d)) as Hr by (by eexists).
    pose proof (proj2 (away_shortest _ Hin Hr) _ Hp) as Hle. unfold away at 2. rewrite E. lia.
Qed.

(** The stations that are closer to the destination. *)
Definition rank (x : NodeId) : nat := length (filter (fun w => away w < away x) ids).

Lemma rank_lt x y : y ∈ ids -> away y < away x -> (rank y < rank x)%nat.
Proof. intros Hy Hlt. unfold rank. apply (filter_length_lt ids _ _ y ids); [intros; lia|done|lia|lia]. Qed.

Hypothesis Hreg : is_Some (unicastRegister (registers (stations d)) !! type).
Hypothesis Hmod : modules (stations d) = [].

Lemma travel_arrives n x f ttl :
  x ∈ ids -> reaches x -> flight x d src ttl type f -> away x < away src ->
  Z.of_nat (rank x) + 2 <= ttl < 256 -> (rank x < n)%nat ->
  exists g, travel n stations x now f = Ok (d, [g]) /\
    SrcPacket.getSrc (packet_of g) = src /\ UnicastPacket.getUcDest (packet_of g) = d /\
    drop UnicastPacket.UnicastPacketEnd g = drop UnicastPacket.UnicastPacketEnd f.
Proof.
  revert x f ttl. induction n as [|n IH]; intros x f ttl Hx Hr Hfl Haway Httl Hn; [lia|].
  destruct (Hidle x Hx) as [Hi Hm]. assert (SrcPacket.getSrc (packet_of f) <> my_id (stations x)) as Hsx.
  { rewrite Hm, (fl_src _ _ _ _ _ _ Hfl). intros ->. lia. }
  pose proof (packet_of_wf f (fl_ok _ _ _ _ _ _ Hfl)) as Hwf.
  pose proof (unicast_spec_flight _ _ _ _ _ _ (route_of (topology (stations x))) Hfl ltac:(lia)) as Hu.
  rewrite <- Hm in Hu at 1. cbn [travel]. cbv zeta in Hu. destruct (Z.eqb_spec d x) as [Hdx|Hdx].
  - subst x. destruct Hreg as [cd Hcd].
    destruct (setTTL_fields (ttl - 1) _ Hwf) as [Hrest _ _ Hdst Hsrc' Hyt].
    destruct (rewritten f _ (fl_ok _ _ _ _ _ _ Hfl) Hrest) as (_ & [_ _ _ G4 G5 _ _] & _ & Hdrop).
    rewrite (relay_deliver f now (stations d) (fl_ok _ _ _ _ _ _ Hfl) (fl_type _ _ _ _ _ _ Hfl) Hi Hsx _ cd Hu).
    + rewrite outcome_ret_bind, Hmod. eexists. split; [done|]. rewrite G4, G5, Hdst, Hsrc'.
      split_and!; [apply Hfl..|exact Hdrop].
    + rewrite Hyt, (fl_uctype _ _ _ _ _ _ Hfl). done.
    + by rewrite (sr_size _ _ _ Hrest).
    + by rewrite (sr_refcount _ _ _ Hrest).
  - destruct (hop_closer x Hx (not_eq_sym Hdx) Hr) as (nh & Hnh & Hin & Hr' & Hlt). rewrite Hnh in Hu.
    destruct (hopped_fields nh _ Hwf) as [Hrest _ _ _ _ _].
    rewrite (relay_forward f now (stations x) (fl_ok _ _ _ _ _ _ Hfl) (fl_type _ _ _ _ _ _ Hfl) Hi Hsx _ _ Hu).
    + rewrite outcome_ret_bind. cbv iota. change (buffer (setDest nh ?q)) with (buffer q).
      destruct (flight_hop _ _ _ _ _ nh _ Hfl) as [Hfl' Hdrop].
      { rewrite Forall_forall in Hids. by apply Hids. }
      { lia. }
      pose proof (rank_lt x nh Hin Hlt).
      destruct (IH nh _ _ Hin Hr' Hfl') as (g & Hg & Hgs & Hgd & Hgp); [lia..|].
      exists g. split_and!; try done. by rewrite Hgp.
    + done.
    + exact (sr_size _ _ _ Hrest).
    + exact (sr_refcount _ _ _ Hrest).
Qed.
End delivery.

(** All stations know the same topology and have computed their routes. *)
Record network_ok (a : AdjList) (stations : NodeId -> AwdsRouting inbox) : Prop := {
  nw_nodup : NoDup a.*1;
  nw_length : (length a <= 1024)%nat;
  nw_weights : weights_ok a;
  nw_ids : Forall (fun k => 0 <= k < 2 ^ 48) a.*1;
  nw_idle : forall x, x ∈ a.*1 -> idle (stations x) /\ my_id (stations x) = x;
  nw_routes : forall x, x ∈ a.*1 -> routes x a = Ok (adjList (topology (stations x)));
}.

Lemma two_outside (P : Z -> Prop) `{forall x, Decision (P x)} l x y :
  NoDup l -> x ∈ l -> y ∈ l -> x <> y -> ~ P x -> ~ P y -> (length (filter P l) + 2 <= length l)%nat.
Proof.
  intros Hl Hx Hy Hxy Px Py. change 2%nat with (length [x; y]). rewrite <- length_app. apply submseteq_length.
  apply NoDup_submseteq.
  - apply NoDup_app. split; [by apply NoDup_filter|]. split.
    + intros z Hz Hin. apply list_elem_of_filter in Hz as [Hz _]. set_solver.
    + apply NoDup_cons. split; [set_solver|]. apply NoDup_singleton.
  - intros z. rewrite elem_of_app, list_elem_of_filter. set_solver.
Qed.

(** C2. Delivery: in a network of up to 1024 stations that know the same topology
    and have computed their routes, a unicast packet of station [src] to a
    reachable station [d], sent to the next hop of [src] with a TTL of at least
    the number of stations, is handed on from station to station and arrives: it
    is delivered at [d], and only there, with its source and payload unchanged.
    The forwarding has no loops, so it never takes more hops than there are
    stations. *)
Theorem unicast_reaches_destination a stations d src u type ttl now f :
  network_ok a stations -> src ∈ a.*1 -> src <> d -> (exists D, path a.*1 (links_of a) src d D) ->
  route_of (topology (stations src)) d = Some u ->
  flight u d src ttl type f -> Z.of_nat (length a) <= ttl < 256 ->
  is_Some (unicastRegister (registers (stations d)) !! type) -> modules (stations d) = [] ->
  exists g, travel (length a) stations u now f = Ok (d, [g]) /\
    SrcPacket.getSrc (packet_of g) = src /\ UnicastPacket.getUcDest (packet_of g) = d /\
    drop UnicastPacket.UnicastPacketEnd g = drop UnicastPacket.UnicastPacketEnd f.
Proof.
  intros [Hnd Hlen Hw Hids Hidle Hr] Hsrc Hne Hreach Hroute Hfl Httl Hreg Hmod.
  destruct (hop_closer a stations d Hnd Hlen Hw Hidle Hr src Hsrc Hne Hreach) as (nh & Hnh & Hin & Hr' & Hlt).
  rewrite Hroute in Hnh. injection Hnh as <-.
  assert (rank a stations d u + 2 <= length a)%nat as Hrank.
  { rewrite <- (length_fmap fst a). apply (two_outside _ _ u src); try done; [|lia..]. intros ->. lia. }
  by apply (travel_arrives a stations d src type now Hnd Hlen Hw Hids Hidle Hr Hreg Hmod _ _ _ ttl); try lia.
Qed.
End network.

(** ** Example: three stations in a line *)

Definition ex_basic : Basic := {| BroadcastId := 2 ^ 48 - 1; buf_addr _ := 0; ccm_addr := 0; ccm_mem := replicate 16 0 |}.

Definition line3 : AdjList :=
  let node ls := set_linklist ls NDescr_new in
  [(1, node [LQ None 2 10 1]); (2, node [LQ None 1 10 1; LQ None 3 10 1]); (3, node [LQ None 2 10 1])].

Definition station3 (x : NodeId) : AwdsRouting inbox :=
  let topo := mkTopo (match routes (H := merge_std_sort) x line3 with Ok a => a | Fail _ => [] end) false false x false false false [] in
  mkRouting inbox (mkIface (mkN ∅ [] ∅ None []) (mkQ [] None [])) topo (replicate 32 0) (FloodHistory_new []) None None
    (mkPeriods 1000 Constant 1400 0 None None) (mkCounters 0 0 0 1) (mkRegisters {[ 0x62 := (1, 0) ]} ∅ ∅ ∅) [].

(** From station 1 to station 3, over station 2, with a TTL of 3. *)
Definition frame3 : list Z :=
  [2; 0; 0; 0; 0; 0; 1; 0; 7; 0; 0; 0; 0; 0; 3; 0; 0; 0; 0; 0; 2; 3; 0x62; 104; 101; 108; 108; 111].

Lemma unicast_reaches_destination_witness :
  exists g, travel (H := gea_ns) (H0 := hop_count) (H2 := merge_std_sort) (H3 := toy_aes) (H4 := ex_basic) 3 station3 2 0 frame3 = Ok (3, [g]) /\
    SrcPacket.getSrc (packet_of g) = 1 /\ UnicastPacket.getUcDest (packet_of g) = 3 /\
    drop UnicastPacket.UnicastPacketEnd g = [104; 101; 108; 108; 111].
Proof.
  apply (unicast_reaches_destination (H := gea_ns) (H0 := hop_count) (H2 := merge_std_sort) (H3 := toy_aes) (H4 := ex_basic)
    line3 station3 3 1 2 0x62 3 0 frame3).
  - constructor.
    + apply (bool_decide_unpack _). vm_compute. done.
    + cbn. lia.
    + by apply weights_okb_ok.
    + apply (bool_decide_unpack _). vm_compute. done.
    + intros x Hx. repeat (apply elem_of_cons in Hx as [->|Hx]); [by repeat constructor..|by apply elem_of_nil in Hx].
    + intros x Hx. repeat (apply elem_of_cons in Hx as [->|Hx]); [vm_compute; reflexivity..|by apply elem_of_nil in Hx].
  - apply (bool_decide_unpack _). vm_compute. done.
  - done.
  - exists (0 + 1 + 1). apply (path_snoc _ _ 1 2 3 (0 + 1) 1); [apply (path_snoc _ _ 1 1 2 0 1); [apply path_refl|]|].
    + apply (bool_decide_unpack _). vm_compute. done.
    + split_and!; [apply (bool_decide_unpack _); vm_compute; done..|]. exists (LQ None 2 10 1).
      split; [cbn; set_solver|done].
    + split_and!; [apply (bool_decide_unpack _); vm_compute; done..|]. exists (LQ None 3 10 1).
      split; [cbn; set_solver|done].
  - vm_compute. reflexivity.
  - constructor; try (vm_compute; reflexivity). split; [|vm_compute; lia].
    apply (bool_decide_unpack _). vm_compute. done.
  - cbn. lia.
  - apply (bool_decide_unpack _). vm_compute. done.
  - reflexivity.
Defined.
