(* ===== verification/HeaderThms.v ===== *)
(** * Rewriting headers and repeating floods

    Several writes to the fields of a header: what a field holds afterwards is the
    last value written to it, and the rest of the packet stays.  The modules on top of
    the routing use it for the packets they build and answer.  At the end, what
    repeating a flood leaves of it. *)

From S2P Require Import Prelude Bytes NodeId FloodHist Ccm CryptoUnit Names Filter Topology SendQueue Neighbors NeighborThms Metrics Packet Routing Station RoutingThms DeliveryThms.

Definition write_fields (h : list field) (ws : list (nat * Z)) (p : BasePacket) : BasePacket :=
  foldl (fun p iv => match h !! iv.1 with Some f => fset f iv.2 p | None => p end) p ws.

(** The last value written to the field [i]. *)
Definition last_write (i : nat) (ws : list (nat * Z)) : option Z :=
  foldl (fun r iv => if (iv.1 =? i)%nat then Some iv.2 else r) None ws.

Definition header_ok (h : list field) : Prop := Forall field_law h /\ pairwise_disjoint h = true.

Section writes.
Context (h : list field).
Hypothesis Hh : header_ok h.

Lemma write_fields_wf ws p : wf_packet p -> wf_packet (write_fields h ws p).
Proof.
  revert p. induction ws as [|[i v] ws IH]; intros p Hp; [done|]. cbn. apply IH.
  destruct (h !! i) as [f|] eqn:E; [|done]. apply field_set_wf; [|done]. destruct Hh as [Hl _]. by eapply (Forall_lookup_1 field_law).
Qed.

Lemma last_write_from i ws r :
  foldl (fun r iv => if (iv.1 =? i)%nat then Some iv.2 else r) r ws = match last_write i ws with Some v => Some v | None => r end.
Proof.
  unfold last_write. revert r. induction ws as [|[j v] ws IH]; intros r; [done|]. cbn.
  rewrite IH, (IH (if (j =? i)%nat then _ else _)). destruct (foldl _ None ws); [done|]. by destruct (j =? i)%nat.
Qed.

Lemma write_fields_get ws i f p :
  h !! i = Some f -> wf_packet p ->
  fget f (write_fields h ws p) = match last_write i ws with Some v => ftrunc f v | None => fget f p end.
Proof.
  destruct Hh as [Hl Hd]. intros Hi. revert p. induction ws as [|[j v] ws IH]; intros p Hp; [done|].
  cbn [write_fields foldl fst snd]. change (last_write i ((j, v) :: ws)) with
    (foldl (fun r iv => if (iv.1 =? i)%nat then Some iv.2 else r) (if (j =? i)%nat then Some v else None) ws).
  rewrite last_write_from. destruct (h !! j) as [g|] eqn:E.
  - pose proof (Forall_lookup_1 field_law _ _ _ Hl E) as Lg. pose proof (Forall_lookup_1 field_law _ _ _ Hl Hi) as Lf.
    change (foldl _ (fset g v p) ws) with (write_fields h ws (fset g v p)). rewrite IH by (by apply field_set_wf).
    destruct (last_write i ws); [done|]. destruct (Nat.eqb_spec j i) as [->|Hne].
    + replace g with f by congruence. by apply fl_get_set.
    + apply field_frame; [done..| |done]. by eapply (pairwise_disjoint_lookup h i j).
  - change (foldl _ p ws) with (write_fields h ws p). rewrite IH by done. destruct (last_write i ws); [done|].
    destruct (Nat.eqb_spec j i) as [->|]; [congruence|done].
Qed.

(** The fields lie between the first byte and the byte [n]. *)
Lemma write_fields_rest n ws p :
  Forall (fun f => 0 < foff f /\ foff f + flen f <= n)%nat h -> (n <= MaxSize)%nat -> wf_packet p ->
  same_rest n p (write_fields h ws p).
Proof.
  intros Hin Hn. revert p. induction ws as [|[i v] ws IH]; intros p Hp; [by constructor|]. cbn.
  destruct (h !! i) as [f|] eqn:E; [|by apply IH]. destruct Hh as [Hl _].
  pose proof (Forall_lookup_1 field_law _ _ _ Hl E) as Lf. pose proof (Forall_lookup_1 _ _ _ _ Hin E) as [H0 H1].
  eapply same_rest_trans; [by apply field_same_rest|]. apply IH. by apply field_set_wf.
Qed.
End writes.

(** The header of unicast packets with one more byte field behind it. *)
Definition byte_field (off : nat) : field := mkField off 1 (get_byte off) (set_byte off) (wrap 8).

Lemma byte_field_ok off : (off < MaxSize)%nat -> field_law (byte_field off).
Proof.
  intros Ho. apply (byte_field_law _ _ _ (fun x => x)); [done|done|]. intros v p. exists v. split; [done|].
  unfold wrap. by rewrite ?Z.mod_mod by lia.
Qed.

Definition uni_fields (off : nat) : list field := take 6 trace_header ++ [byte_field off].

Lemma uni_fields_ok off : (UnicastPacket.UnicastPacketEnd <= off < MaxSize)%nat -> header_ok (uni_fields off).
Proof.
  intros [H1 H2]. split.
  - apply Forall_app. split; [|constructor; [by apply byte_field_ok|constructor]].
    apply Forall_take. rewrite Forall_lookup. intros i f. apply trace_field.
  - change UnicastPacket.UnicastPacketEnd with 23%nat in H1. unfold uni_fields, trace_header, src_fields.
    cbn [take app pairwise_disjoint forallb]. unfold disjoint_b. cbn [foff flen byte_field].
    unfold SrcPacket.OffsetSrc, SrcPacket.OffsetSeq, UnicastPacket.OffsetUcType, UnicastPacket.OffsetTTL, UnicastPacket.OffsetNextHop, UnicastPacket.OffsetUcDest.
    repeat match goal with |- context [(?a + 1 <=? off)%nat] => rewrite (proj2 (Nat.leb_le (a + 1) off)) by (vm_compute in H1 |- *; lia) end.
    repeat match goal with |- context [(?a + 6 <=? off)%nat] => rewrite (proj2 (Nat.leb_le (a + 6) off)) by (vm_compute in H1 |- *; lia) end.
    repeat match goal with |- context [(?a + 2 <=? off)%nat] => rewrite (proj2 (Nat.leb_le (a + 2) off)) by (vm_compute in H1 |- *; lia) end.
    vm_compute. reflexivity.
Qed.

Lemma uni_fields_inside off : (UnicastPacket.UnicastPacketEnd <= off)%nat ->
  Forall (fun f => 0 < foff f /\ foff f + flen f <= S off)%nat (uni_fields off).
Proof.
  intros H1. apply Forall_app. split.
  - assert (Forall (fun f => 0 < foff f /\ foff f + flen f <= UnicastPacket.UnicastPacketEnd)%nat (take 6 trace_header)) as Hf.
    { repeat constructor; inside_tac. }
    eapply Forall_impl; [exact Hf|]. cbn beta. intros f. lia.
  - apply Forall_singleton. cbn [byte_field foff flen]. change UnicastPacket.UnicastPacketEnd with 23%nat in H1. lia.
Qed.

(** What the fields of a unicast packet hold after the writes [ws]. *)
Definition written (i : nat) (ws : list (nat * Z)) (w old : Z) : Z :=
  match last_write i ws with Some v => wrap w v | None => old end.

(** The getters of the fields; as functions, so that no packet is unfolded. *)
Lemma field_getters :
  fget fSrc = SrcPacket.getSrc /\ fget fDest = UnicastPacket.getUcDest /\ fget fNext = UnicastPacket.getNextHop /\
  fget fTTL = UnicastPacket.getTTL /\ fget fType = UnicastPacket.getUcPacketType.
Proof. done. Qed.

Lemma unipacket_written off ws x d src ttl type p p' :
  (forall i f, uni_fields off !! i = Some f -> fget f p' = match last_write i ws with Some v => ftrunc f v | None => fget f p end) ->
  wf_packet p' -> get_byte 0 p' = get_byte 0 p -> unipacket x d src ttl type p ->
  unipacket (written 3 ws 48 x) (written 2 ws 48 d) (written 0 ws 48 src) (written 4 ws 8 ttl) (written 5 ws 8 type) p' /\
  get_byte off p' = written 6 ws 8 (get_byte off p).
Proof.
  intros G Hw Hb [Hwf Hty Htr Hn Hd Hs Ht Hu]. destruct (byte0_getters _ _ Hb) as [T1 T2].
  pose proof (G 3%nat fNext eq_refl) as G3. pose proof (G 2%nat fDest eq_refl) as G2. pose proof (G 0%nat fSrc eq_refl) as G0.
  pose proof (G 4%nat fTTL eq_refl) as G4. pose proof (G 5%nat fType eq_refl) as G5.
  destruct field_getters as (E0 & E2 & E3 & E4 & E5). rewrite E0 in G0. rewrite E2 in G2. rewrite E3 in G3. rewrite E4 in G4. rewrite E5 in G5.
  subst x d src ttl type. split; [|exact (G 6%nat (byte_field off) eq_refl)].
  constructor; [done|congruence|congruence|assumption..].
Qed.

Lemma rewrite_unicast off ws x d src ttl type p :
  (UnicastPacket.UnicastPacketEnd <= off < MaxSize)%nat -> unipacket x d src ttl type p ->
  let p' := write_fields (uni_fields off) ws p in
  unipacket (written 3 ws 48 x) (written 2 ws 48 d) (written 0 ws 48 src) (written 4 ws 8 ttl) (written 5 ws 8 type) p' /\
  get_byte off p' = written 6 ws 8 (get_byte off p) /\ same_rest (S off) p p'.
Proof.
  intros Ho Hp. pose proof (uni_fields_ok off Ho) as Hok. pose proof (up_wf _ _ _ _ _ _ Hp) as Hwf.
  assert (same_rest (S off) p (write_fields (uni_fields off) ws p)) as Hr
    by (apply write_fields_rest; [done|apply uni_fields_inside, Ho|lia|done]).
  pose proof (fun i f Hi => write_fields_get _ Hok ws i f p Hi Hwf) as G.
  revert Hr G. generalize (write_fields (uni_fields off) ws p). intros p' Hr G p''.
  apply and_assoc. split; [|exact Hr]. by apply (unipacket_written off ws x d src ttl type p p' G); [apply Hr..|].
Qed.

(** Bytes and blocks behind a rewritten header. *)
Lemma same_rest_slice n off len p p' : same_rest n p p' -> (n <= off)%nat -> slice off len (buffer p') = slice off len (buffer p).
Proof.
  intros [_ Hr _ _ _ _] Ho. unfold slice. replace off with (n + (off - n))%nat by lia. by rewrite <- !(drop_drop _ (off - n)), Hr.
Qed.
Lemma same_rest_byte n i p p' : same_rest n p p' -> (n <= i)%nat -> get_byte i p' = get_byte i p.
Proof.
  intros [_ Hr _ _ _ _] Ho. unfold get_byte, byte_at. replace i with (n + (i - n))%nat by lia.
  rewrite <- (lookup_drop (buffer p') n), <- (lookup_drop (buffer p) n). by rewrite Hr.
Qed.
Lemma same_rest_le n m p p' : same_rest n p p' -> (n <= m)%nat -> same_rest m p p'.
Proof.
  intros [A1 A2 A3 A4 A5 A6] Hm. constructor; try done. replace m with (n + (m - n))%nat by lia.
  by rewrite <- !(drop_drop _ (m - n)), A2.
Qed.

(** Bytes behind the header do not matter for it. *)
Lemma unipacket_head x d src ttl type p p' :
  wf_packet p' -> take UnicastPacket.UnicastPacketEnd (buffer p') = take UnicastPacket.UnicastPacketEnd (buffer p) ->
  unipacket x d src ttl type p -> unipacket x d src ttl type p'.
Proof.
  intros Hw Ht Hp. pose proof (up_wf _ _ _ _ _ _ Hp) as Hwf.
  assert (forall off n, (off + n <= UnicastPacket.UnicastPacketEnd)%nat -> slice off n (buffer p') = slice off n (buffer p)) as Hs.
  { intros off n Hle. unfold slice. rewrite !take_drop_commute.
    rewrite <- (Nat.min_l (off + n) UnicastPacket.UnicastPacketEnd) by done. by rewrite <- !take_take, Ht. }
  assert (get_byte 0 p' = get_byte 0 p) as Hb.
  { apply get_byte_slice; [done..|apply MaxSize_pos|]. apply Hs. inside_tac. }
  assert (forall i f, uni_fields UnicastPacket.UnicastPacketEnd !! i = Some f -> (i < 6)%nat -> fget f p' = fget f p) as G.
  { intros i f Hi Hlt. assert (trace_header !! i = Some f) as Hi' by (unfold uni_fields in Hi; rewrite lookup_app_l, lookup_take_lt in Hi by (done || cbn; lia); done).
    apply (fl_get f (trace_field i f Hi')); [done..|]. apply Hs.
    do 6 (destruct i as [|i]; [injection Hi' as <-; inside_tac|]). lia. }
  destruct Hp as [_ Hty Htr Hn Hd Hs' Htt Hu]. destruct (byte0_getters _ _ Hb) as [T1 T2].
  pose proof (G 3%nat fNext eq_refl ltac:(lia)) as G3. pose proof (G 2%nat fDest eq_refl ltac:(lia)) as G2.
  pose proof (G 0%nat fSrc eq_refl ltac:(lia)) as G0. pose proof (G 4%nat fTTL eq_refl ltac:(lia)) as G4.
  pose proof (G 5%nat fType eq_refl ltac:(lia)) as G5.
  destruct field_getters as (E0 & E2 & E3 & E4 & E5). rewrite E0 in G0. rewrite E2 in G2. rewrite E3 in G3. rewrite E4 in G4. rewrite E5 in G5.
  constructor; congruence.
Qed.

Lemma unipacket_buffer x d src ttl type p p' : buffer p' = buffer p -> unipacket x d src ttl type p -> unipacket x d src ttl type p'.
Proof.
  intros E Hp. pose proof (up_wf _ _ _ _ _ _ Hp) as [Hl Hb].
  apply (unipacket_head x d src ttl type p); [split; by rewrite E|by rewrite E|done].
Qed.

(** The frame of a packet: what the receiver reads. *)
Lemma frame_of_packet x d src ttl type p n :
  unipacket x d src ttl type p -> (UnicastPacket.UnicastPacketEnd <= n <= MaxSize)%nat ->
  let f := slice 0 n (buffer p) in
  flight x d src ttl type f /\ length f = n /\
  (forall off len, (off + len <= n)%nat -> slice off len (buffer (packet_of f)) = slice off len (buffer p)) /\
  (forall off, (off < n)%nat -> get_byte off (packet_of f) = get_byte off p).
Proof.
  intros Hp Hn f. pose proof (up_wf _ _ _ _ _ _ Hp) as Hwf. destruct Hwf as [Hl Hb].
  assert (length f = n) as Hlf by (apply slice_length; lia).
  assert (frame_ok f) as Hok by (split; [by apply Forall_slice|lia]).
  assert (take n (buffer (packet_of f)) = take n (buffer p)) as Ht.
  { change (buffer (packet_of f)) with (splice 0 f (buffer BasePacket_new)). unfold splice. rewrite take_0. cbn [app].
    rewrite <- Hlf at 1. rewrite take_app_length. unfold f, slice. by rewrite drop_0. }
  assert (forall off len, (off + len <= n)%nat -> slice off len (buffer (packet_of f)) = slice off len (buffer p)) as Hs.
  { intros off len Hle. unfold slice. rewrite !take_drop_commute. rewrite <- (Nat.min_l (off + len) n) by done. by rewrite <- !take_take, Ht. }
  pose proof (packet_of_wf f Hok) as Hw. split_and!; [|done|done|].
  - assert (unipacket x d src ttl type (packet_of f)) as [] by
      (apply (unipacket_head x d src ttl type p); [done| |done]; specialize (Hs 0%nat UnicastPacket.UnicastPacketEnd ltac:(lia));
       unfold slice in Hs; by rewrite !drop_0 in Hs).
    by constructor.
  - intros off Ho. apply get_byte_slice; [done|by split|lia|]. apply Hs. lia.
Qed.

Lemma unipacket_splice off bs x d src ttl type p :
  (UnicastPacket.UnicastPacketEnd <= off)%nat -> (off + length bs <= MaxSize)%nat -> bytes bs ->
  unipacket x d src ttl type p -> unipacket x d src ttl type (upd (splice off bs) p).
Proof.
  intros Ho Hl Hb Hp. pose proof (up_wf _ _ _ _ _ _ Hp) as Hwf.
  apply (unipacket_head x d src ttl type p); [by apply upd_splice_wf| |done].
  destruct Hwf as [Hlen _]. cbn [upd set_buffer buffer]. unfold splice. rewrite take_app_le by (rewrite length_take; lia).
  rewrite take_take. by rewrite Nat.min_l by done.
Qed.

Lemma incTTL_set p : UnicastPacket.incTTL p = UnicastPacket.setTTL (UnicastPacket.getTTL p + 1) p.
Proof. unfold UnicastPacket.incTTL, UnicastPacket.setTTL, set_byte, UnicastPacket.getTTL. by rewrite u8_rem. Qed.

(** The packet a protocol is given. *)
Lemma arrived_packet x d src ttl type f :
  flight x d src ttl type f -> 1 <= ttl < 256 ->
  let p := UnicastPacket.setTTL (ttl - 1) (packet_of f) in
  unipacket x d src (ttl - 1) type p /\ same_rest UnicastPacket.UnicastPacketEnd (packet_of f) p.
Proof.
  intros Hf Httl p. pose proof (flight_packet _ _ _ _ _ _ Hf) as Uf.
  destruct (setTTL_fields (ttl - 1) _ (up_wf _ _ _ _ _ _ Uf)) as [Rt Tt Nt Dt St Yt]. fold p in Rt, Tt, Nt, Dt, St, Yt.
  split; [|exact Rt]. destruct (byte0_getters _ _ (sr_byte0 _ _ _ Rt)) as [B1 B2]. destruct Uf.
  constructor; try congruence; [apply Rt|]. rewrite Tt. apply wrap_id. unfold in_width. lia.
Qed.

(** ** Sending from this station *)

Section sending.
Context `{Gea, Metric, LinkMeter, StdSort, AES, Basic} {U : Type} `{!Handlers U}.
Implicit Type s : AwdsRouting U.

(** The packets at the other addresses are as they were. *)
Definition others (q : Z) s s' : Prop := forall q', q' <> q -> packets (table s') !! q' = packets (table s) !! q'.

Lemma others_trans q s1 s2 s3 : others q s1 s2 -> others q s2 s3 -> others q s1 s3.
Proof. intros E1 E2 q' Hq. by rewrite E2, E1. Qed.
Lemma others_put q p s : others q s (put q p s).
Proof. intros q' Hq. apply lookup_insert_ne. congruence. Qed.
Lemma others_enqueued q hp now p s : others q s (enqueued q hp now p (put q p s)).
Proof. eapply others_trans; [apply others_put|]. intros q' Hq. apply lookup_insert_ne. congruence. Qed.

Lemma mk_unipacket x d src ttl type p : unipacket x d src ttl type p -> UnicastPacket.mk p = p.
Proof. intros []. by apply setType_id. Qed.

(** [sendUnicast] of a packet for another station with a route. *)
Lemma sendUnicast_ok q p x d src ttl type u now s :
  at_addr s q p -> unipacket x d src ttl type p -> 1 <= ttl < 255 -> dirty (topology s) = false ->
  queue (sendQueue (net s)) = [] -> AbstractID6.wf (my_id s) -> my_id s <> d -> route_of (topology s) d = Some u -> AbstractID6.wf u ->
  exists p', sendUnicast q now s = Ok (tt, enqueued q false now p' (put q p' s)) /\
    unipacket u d src ttl type p' /\ same_rest UnicastPacket.UnicastPacketEnd p p' /\ Packet.dest p' = u.
Proof.
  intros Hat Hp Httl Hd Hq Hme Hne Hr Hu. unfold sendUnicast. mprim. change (Topology.myNodeId _) with (my_id s).
  pose proof (up_wf _ _ _ _ _ _ Hp) as Hwf. set (p1 := UnicastPacket.setNextHop (my_id s) (UnicastPacket.setTTL (ttl + 1) p)).
  assert (UnicastPacket.setNextHop (my_id s) (UnicastPacket.incTTL (UnicastPacket.mk p)) = p1) as E1
    by (unfold p1; rewrite (mk_unipacket _ _ _ _ _ _ Hp), incTTL_set, (up_ttl _ _ _ _ _ _ Hp); done).
  assert (unipacket (my_id s) d src (ttl + 1) type p1 /\ same_rest UnicastPacket.UnicastPacketEnd p p1) as [U1 R1].
  { destruct (rewrite_unicast UnicastPacket.UnicastPacketEnd [(4%nat, ttl + 1); (3%nat, my_id s)] x d src ttl type p) as (U1 & _ & _); [|done|].
    { split; inside_tac. }
    change (write_fields _ _ p) with p1 in U1. unfold written in U1. cbn [last_write foldl fst snd Nat.eqb] in U1.
    rewrite !wrap_id in U1 by (done || unfold in_width; lia). split; [exact U1|].
    change p1 with (fset fNext (my_id s) (fset fTTL (ttl + 1) p)). pose proof (trace_field 3 fNext eq_refl) as LN.
    pose proof (trace_field 4 fTTL eq_refl) as LT.
    eapply same_rest_trans; apply field_same_rest; try done; try inside_tac. by apply field_set_wf. }
  clearbody p1. erewrite M_bind_ok by (by apply upd_packet_ok). cbv beta. rewrite E1.
  pose proof (recv_unicast_spec q p1 (put q p1 s) now (at_put _ _ _) Hd) as Er. change (my_id (put q p1 s)) with (my_id s) in Er.
  change (topology (put q p1 s)) with (topology s) in Er.
  rewrite (unicast_spec_packet _ _ _ _ _ _ _ U1), (proj2 (Z.eqb_neq d _)), Hr in Er by (congruence || lia).
  change (sendQueue (net (put q p1 s))) with (sendQueue (net s)) in Er. rewrite Hq in Er. cbn [length] in Er. change (QUEUE_LENGTH <=? 0)%nat with false in Er.
  cbv iota in Er. rewrite put_put in Er. exists (setDest u (hopped u p1)). split; [exact Er|].
  destruct (hopped_fields u p1 (up_wf _ _ _ _ _ _ U1)) as [Rh Th Nh Dh Sh Yh]. destruct (byte0_getters _ _ (sr_byte0 _ _ _ Rh)) as [T1 T2].
  destruct U1 as [W1 Y1 F1 N1 D1 S1 L1 C1]. split; [|split; [|done]].
  - apply (unipacket_buffer _ _ _ _ _ (hopped u p1)); [done|]. constructor; try congruence; [apply Rh|rewrite Nh; by apply wrap_id|].
    rewrite Th, L1, wrap_id by (unfold in_width; lia). lia.
  - eapply same_rest_trans; [exact R1|]. destruct Rh as [A1 A2 A3 A4 A5 A6]. constructor; [by destruct A1; split|exact A2|exact A3|exact A4|exact A5|exact A6].
Qed.

(** The packet [newUnicastPacket] makes. *)
Lemma fresh_packet me n type : in_width 8 type -> AbstractID6.wf me ->
  exists p1, SrcPacket.setTraceFlag false (UnicastPacket.mk BasePacket_new) = Ok p1 /\
    let p := UnicastPacket.setUcPacketType type (SrcPacket.setSeq n (UnicastPacket.setTTL 32 (UnicastPacket.setNextHop me (SrcPacket.setSrc me p1)))) in
    (exists d, unipacket me d me 32 type p) /\ refcount p = 1.
Proof.
  intros Hty Hme. assert (wf_packet (UnicastPacket.mk BasePacket_new)) as Hw.
  { unfold UnicastPacket.mk, setType, set_byte, upd. rewrite insert_splice by (vm_compute; lia).
    apply upd_splice_wf; [apply BasePacket_new_wf| |vm_compute; lia]. constructor; [apply u8_byte|constructor]. }
  destruct (type_and_trace_flag PacketTypeUnicast false _ Hw) as (_ & _ & p1 & E & Hf & Ht & Hp).
  destruct (type_and_trace_flag PacketTypeUnicast false _ BasePacket_new_wf) as (Hu & _ & _).
  exists p1. split; [exact E|]. split.
  - set (U0 := unipacket (UnicastPacket.getNextHop p1) (UnicastPacket.getUcDest p1) (SrcPacket.getSrc p1) (UnicastPacket.getTTL p1) (UnicastPacket.getUcPacketType p1) p1).
    assert U0 as HU0 by (constructor; try done; rewrite Ht; exact Hu). unfold U0 in HU0.
    destruct (rewrite_unicast UnicastPacket.UnicastPacketEnd [(0%nat, me); (3%nat, me); (4%nat, 32); (1%nat, n); (5%nat, type)] _ _ _ _ _ _ ltac:(split; inside_tac) HU0) as (U1 & _ & _).
    unfold written in U1. cbn [last_write foldl fst snd Nat.eqb] in U1. rewrite !wrap_id in U1 by (done || unfold in_width; lia).
    eexists. exact U1.
  - unfold SrcPacket.setTraceFlag, SrcPacket.setControlBit in E. change (cassert _) with (Ok tt) in E. rewrite outcome_ret_bind in E.
    injection E as <-. reflexivity.
Qed.

Lemma newUnicastPacket_fresh type s :
  in_width 8 type -> AbstractID6.wf (my_id s) ->
  let q := newAddr (counters s) in
  exists d p s', newUnicastPacket type s = Ok (q, s') /\ at_addr s' q p /\ unipacket (my_id s) d (my_id s) 32 type p /\ refcount p = 1 /\
    topology s' = topology s /\ sendQueue (net s') = sendQueue (net s) /\ registers s' = registers s /\ modules s' = modules s /\ others q s s'.
Proof.
  intros Hty Hme q. unfold newUnicastPacket, new_packet.
  erewrite M_bind_ok by (erewrite M_bind_ok by reflexivity; cbv beta zeta; erewrite M_bind_ok by apply store_ok;
    erewrite M_bind_ok by reflexivity; reflexivity).
  fold q. set (s1 := set_counters _ _). erewrite M_bind_ok by reflexivity. erewrite M_bind_ok by (apply upd_packet_ok, at_put).
  destruct (fresh_packet (my_id s) (unicastSeq (counters s)) type Hty Hme) as (p1 & E & [d Hd] & Hr). rewrite E. mlift.
  erewrite M_bind_ok by apply store_ok.
  erewrite M_bind_ok by (unfold next_unicastSeq; erewrite M_bind_ok by reflexivity; erewrite M_bind_ok by reflexivity; reflexivity).
  erewrite M_bind_ok by (apply upd_packet_ok, at_put). exists d. do 2 eexists. split; [reflexivity|]. split; [apply at_put|].
  split; [exact Hd|]. split_and!; try done. intros q' Hq. cbn. by rewrite !lookup_insert_ne by congruence.
Qed.
End sending.

(** ** Repeating floods

    What a station without neighbours in its table does with a new flood after it has
    delivered it: the flood is sent on with one hop less and its payload unchanged. *)

Section repeat.
Context `{Gea, Metric, StdSort, AES, Basic} {U : Type} `{!Handlers U}.
Implicit Type s : AwdsRouting U.

Abbreviation HDR := Flood.FloodHeaderEnd.

(** The header changes of a repeated flood leave the payload alone. *)
Lemma repeat_header me p :
  length (buffer p) = MaxSize -> 2 <= Flood.getTTL p < 256 ->
  let p' := Flood.decrTTL (Flood.setLastHop me p) in
  Flood.getTTL p' <> 0 /\ size p' = size p /\ forall n, slice HDR n (buffer p') = slice HDR n (buffer p).
Proof.
  intros Hl Ht p'. assert (buffer p' = <[Flood.OffsetTTL := u8 (Flood.getTTL p - 1)]> (splice Flood.OffsetLastHop (be_enc 6 me) (buffer p))) as Hb.
  { unfold p', Flood.decrTTL, set_byte, upd, Flood.setLastHop. cbn [buffer set_buffer].
    unfold get_byte. cbn [buffer set_buffer upd]. rewrite AbstractID6.id6_toArray_spec by (rewrite Hl; inside_tac).
    do 2 f_equal. f_equal. unfold Flood.getTTL, get_byte, byte_at. f_equal.
    rewrite splice_lookup by (rewrite be_enc_length, Hl; inside_tac). rewrite be_enc_length. case_decide as D; [|done].
    exfalso. change (9 <= 15 < 9 + 6)%nat in D. lia. }
  assert (length (splice Flood.OffsetLastHop (be_enc 6 me) (buffer p)) = MaxSize) as Hls
    by (rewrite splice_length; rewrite ?be_enc_length, ?Hl; [done|inside_tac]).
  split_and!; [|done|].
  - unfold Flood.getTTL at 1, get_byte, byte_at. rewrite Hb, list_lookup_insert_eq by (rewrite Hls; inside_tac).
    change (u8 (Flood.getTTL p - 1) <> 0). rewrite wrap_id by (unfold in_width; lia). lia.
  - intros n. rewrite Hb. rewrite insert_splice by (rewrite Hls; inside_tac).
    rewrite slice_splice_disjoint; [|rewrite Hls; inside_tac|right; inside_tac].
    apply slice_splice_disjoint; [rewrite be_enc_length, Hl; inside_tac|right; rewrite be_enc_length; inside_tac].
Qed.

Lemma not_relay_alone x s : neighbors (table s) = [] -> not_relay x s = Ok (false, s).
Proof. intros E. unfold not_relay. mprim. by rewrite E. Qed.

(** A new flood that [deliver_flood] has handled, in the state [s1] with the packet
    [p1], is repeated. *)
Lemma flood_repeated q p p1 now s s1 :
  at_addr s q p -> firewall s = None -> wf_packet p -> getType p = PacketTypeFlood -> SrcPacket.getSrc p <> my_id s ->
  Flood.getTTL p <> 0 -> contains (SrcPacket.getSrc p) (SrcPacket.getSeq p) (floodHistory s) = Ok false ->
  deliver_flood q now (set_floodHistory (insert (SrcPacket.getSrc p) (SrcPacket.getSeq p) (floodHistory s)) s) = Ok (true, s1) ->
  at_addr s1 q p1 -> length (buffer p1) = MaxSize -> 2 <= Flood.getTTL p1 < 256 ->
  neighbors (table s1) = [] -> (length (queue (sendQueue (net s1))) < QUEUE_LENGTH)%nat ->
  exists p2, recv_packet q now s = Ok (tt, enqueued q false now (setDest BroadcastId p2) (put q (setDest BroadcastId p2) s1)) /\
    size p2 = size p1 /\ (forall n, slice HDR n (buffer p2) = slice HDR n (buffer p1)) /\ refcount p2 = refcount p1.
Proof.
  intros Hp Hfw Hw Hty Hsrc Hne Hdup Hdel Hp1 Hl Httl Hal Hq.
  unfold recv_packet. erewrite M_bind_ok by (by apply peek_ok). mprim. mprim. rewrite Hfw.
  change (Topology.myNodeId (topology s)) with (my_id s). rewrite (proj2 (Z.eqb_neq _ _)) by done. cbn [negb andb].
  rewrite Hty. unfold recv_flood. erewrite M_bind_ok by (by apply upd_packet_ok).
  assert (Flood.mk p = p) as -> by (by apply setType_id). rewrite put_same by done.
  mprim. mlift. cbv iota. mprim. rewrite (proj2 (Z.eqb_neq (Flood.getTTL p) 0)) by done.
  erewrite M_bind_ok by exact Hdel. cbn [negb]. erewrite M_bind_ok by (by apply peek_ok).
  erewrite M_bind_ok by (by apply not_relay_alone). cbv iota. mprim.
  erewrite M_bind_ok by (by apply upd_packet_ok). cbv beta. change (Topology.myNodeId (topology s1)) with (my_id s1).
  destruct (repeat_header (my_id s1) p1 Hl ltac:(lia)) as (Hnz & Hsz & Hpay). exists (Flood.decrTTL (Flood.setLastHop (my_id s1) p1)).
  split; [|by split_and!]. set (p2 := Flood.decrTTL _) in *.
  rewrite (proj2 (Z.eqb_neq (Flood.getTTL p2) 0)) by done. cbv iota.
  erewrite M_bind_ok by (apply upd_packet_ok, at_put). rewrite put_put. set (s2 := put q (setDest BroadcastId p2) s1).
  erewrite M_bind_ok; [reflexivity|]. rewrite (send_ok q (setDest BroadcastId p2) false now s2 (at_put _ _ _)). cbn [negb andb].
  change (sendQueue (net s2)) with (sendQueue (net s1)). by rewrite (proj2 (Nat.leb_gt _ _)) by done.
Qed.
End repeat.
