(* ===== verification/FloodThms.v ===== *)
(** * Floods are handled once

    Duplicate suppression on the level of the received frames: whatever a station
    receives, each flood is given to the applications at most once.  Most of the
    code does not touch the flood history, the registers or the applications;
    [keeps] says so of a computation, and the tactic [keep] applies its rules. *)

From S2P Require Import Prelude Bytes NodeId Isqrt FloodHist Ccm CryptoUnit Names Filter Topology RoutesThms SendQueue Neighbors NeighborThms Metrics Packet Routing Station RoutingThms DeliveryThms CcmThms.

Section keeps.
Context {U : Type}.

(** The parts of the state duplicate suppression is about. *)
Definition view (s : AwdsRouting U) : FloodHistory * Registers * U := (floodHistory s, registers s, modules s).

Definition keeps {A} (m : R U A) : Prop := forall s a s', m s = Ok (a, s') -> view s' = view s.

Lemma keeps_ret {A} (a : A) : keeps (mret a).
Proof. by intros s b s' [= _ <-]. Qed.
Lemma keeps_bind {A B} (m : R U A) (k : A -> R U B) : keeps m -> (forall a, keeps (k a)) -> keeps (m ≫= k).
Proof.
  intros Hm Hk s b s' (a & s1 & E & E')%M_bind_inv. rewrite (Hk a _ _ _ E'). by eapply Hm.
Qed.
Lemma keeps_gets {A} (g : AwdsRouting U -> A) : keeps (gets g).
Proof. by intros s b s' [= _ <-]. Qed.
Lemma keeps_lift {A} (m : outcome A) : keeps (lift m).
Proof. intros s b s'. unfold lift. destruct m; [by intros [= _ <-]|done]. Qed.
Lemma keeps_modify f : (forall s, view (f s) = view s) -> keeps (modify f).
Proof. intros Hf s b s' [= _ <-]. apply Hf. Qed.
Lemma keeps_on_net {A} (m : Q A) : keeps (on_net m).
Proof. intros s b s'. unfold on_net, zoom. destruct (m (net s)) as [[]|]; [by intros [= _ <-]|done]. Qed.
Lemma keeps_on_table {A} (m : N A) : keeps (on_table m).
Proof. apply keeps_on_net. Qed.
Lemma keeps_on_topology {A} (m : T A) : keeps (on_topology m).
Proof. intros s b s'. unfold on_topology, zoom. destruct (m (topology s)) as [[]|]; [by intros [= _ <-]|done]. Qed.
End keeps.

Ltac keep :=
  repeat first
  [ apply keeps_ret | apply keeps_gets | apply keeps_lift | apply keeps_on_table | apply keeps_on_net | apply keeps_on_topology
  | (apply keeps_modify; reflexivity)
  | assumption
  | (apply keeps_bind; [|intros ?])
  | match goal with |- keeps (if ?b then _ else _) => destruct b end
  | match goal with |- keeps (match ?x with _ => _ end) => destruct x end
  | match goal with |- keeps (let '(_, _) := ?x in _) => destruct x end ].

Section code.
Context `{Gea, Metric, LinkMeter, StdSort, AES, Basic} {U : Type} `{!Handlers U}.

Lemma keeps_peek q : keeps (U := U) (peek q).
Proof. apply keeps_on_table. Qed.
Lemma keeps_upd_packet q f : keeps (U := U) (upd_packet q f).
Proof. unfold upd_packet, peek. keep. Qed.
Lemma keeps_verify q src sg : keeps (U := U) (verify q src sg).
Proof. unfold verify, peek. keep. Qed.
Lemma keeps_not_relay x : keeps (U := U) (not_relay x).
Proof. unfold not_relay, myNodeId. keep. Qed.
Lemma keeps_trace q : keeps (U := U) (trace q).
Proof. unfold trace, peek, upd_packet, myNodeId. keep. Qed.
Lemma keeps_send q hp now : keeps (U := U) (send q hp now).
Proof. apply keeps_on_net. Qed.
Lemma keeps_recv_beacon q now : keeps (U := U) (recv_beacon q now).
Proof. unfold recv_beacon. keep. Qed.
Lemma keeps_new_packet : keeps (U := U) new_packet.
Proof. unfold new_packet. keep. Qed.
End code.

(** ** Receiving frames *)

(** Applications that record by which function which packet was given to them. *)
Abbreviation seen := (list (Z * Entry)).

Section frames.
Context `{Gea, Metric, LinkMeter, StdSort, AES, Basic}.

#[local] Instance watcher : Handlers seen := {|
  recv_callback cb data q now :=
    p ← peek q; modify (fun s => set_modules ((cb, mkEntry (SrcPacket.getSrc p) (SrcPacket.getSeq p)) :: modules s) s)
|}.

Definition entry_of (p : BasePacket) : Entry := mkEntry (SrcPacket.getSrc p) (SrcPacket.getSeq p).

(** A callback adds one entry. *)
Lemma callback_log cb data q now (s s' : AwdsRouting seen) u :
  recv_callback cb data q now s = Ok (u, s') ->
  exists e, view s' = (floodHistory s, registers s, (cb, e) :: modules s) /\
    (forall p, at_addr s q p -> e = entry_of p).
Proof.
  intros (p & s1 & E & [= _ <-])%M_bind_inv. change (peek q s = Ok (p, s1)) in E. pose proof (keeps_peek q _ _ _ E) as Hv. exists (entry_of p). split.
  - unfold view in *. injection Hv as E1 E2 E3. by rewrite <- E1, <- E2, <- E3.
  - intros p' Hp. rewrite (peek_ok _ _ _ Hp) in E. by injection E as <- _.
Qed.

(** The step a received packet makes: nothing, or one more flood in the history,
    with at most one entry of its callback for that flood.  Other packets may
    leave entries of other callbacks. *)
Inductive step (s : AwdsRouting seen) : AwdsRouting seen -> Prop :=
| step_none s' : view s' = view s -> step s s'
| step_other s' cd e : view s' = (floodHistory s, registers s, (fst cd, e) :: modules s) ->
    (exists k, unicastRegister (registers s) !! k = Some cd \/ flowReceiverMap (registers s) !! k = Some cd) -> step s s'
| step_flood s' e new :
    contains (e_id e) (e_seq e) (floodHistory s) = Ok false ->
    view s' = (insert (e_id e) (e_seq e) (floodHistory s), registers s, new ++ modules s) ->
    (new = [] \/ exists cb, new = [(cb, e)]) -> step s s'.

Lemma deliver_flood_log q now (s s' : AwdsRouting seen) p b :
  at_addr s q p -> deliver_flood q now s = Ok (b, s') ->
  exists new, view s' = (floodHistory s, registers s, new ++ modules s) /\ (new = [] \/ exists cb, new = [(cb, entry_of p)]).
Proof.
  intros Hp. unfold deliver_flood. erewrite M_bind_ok by (by apply peek_ok).
  destruct (Flood.getFloodType p =? FloodTypeTopo).
  - intros E. exists []. split; [|by left].
    assert (keeps (U := seen) (topoPacket ← upd_packet q TopoPacket.mk;
      validPacket ← verify q (SrcPacket.getSrc topoPacket) (Some noSign);
      if negb validPacket then mret false else
      topoPacket ← peek q; on_topology (feed topoPacket now);; mret true)) as Hk by keep.
    exact (Hk _ _ _ E).
  - mprim. destruct (broadcastRegister (registers s) !! Flood.getFloodType p) as [[c d]|].
    + intros ([] & s1 & Ec & [= _ <-])%M_bind_inv. destruct (callback_log _ _ _ _ _ _ _ Ec) as (e & Hv & He).
      exists [(c, e)]. split; [done|]. right. exists c. by rewrite (He p Hp).
    + intros [= _ <-]. exists []. split; [done|by left].
Qed.

Lemma recv_flood_step q now (s s' : AwdsRouting seen) p u :
  at_addr s q p -> recv_flood q now s = Ok (u, s') -> step s s'.
Proof.
  intros Hp. unfold recv_flood. erewrite M_bind_ok by (by apply upd_packet_ok). set (f := Flood.mk p).
  mprim. change (floodHistory (put q f s)) with (floodHistory s).
  intros (dup & s1 & Ed & E)%M_bind_inv. unfold lift in Ed.
  destruct (contains _ _ _) as [d|] eqn:Ec; [|done]. injection Ed as -> <-. destruct dup.
  { apply step_none. by injection E as _ <-. }
  set (s1 := set_floodHistory (insert (SrcPacket.getSrc f) (SrcPacket.getSeq f) (floodHistory s)) (put q f s)).
  assert (at_addr s1 q f) as Hq by exact (at_put q f s).
  apply M_bind_inv in E as ([] & s1' & E1 & E). injection E1 as <-. fold s1 in E.
  destruct (Flood.getTTL f =? 0).
  { injection E as _ <-. apply (step_flood s s1 (entry_of f) []); [exact Ec|done|by left]. }
  apply M_bind_inv in E as (valid & s2 & E2 & E).
  destruct (deliver_flood_log _ _ _ _ _ _ Hq E2) as (new & Hv & Hnew).
  apply (step_flood s s' (entry_of f) new); [exact Ec| |exact Hnew].
  match type of E with ?m s2 = _ => assert (keeps m) as Hk by (unfold not_relay, myNodeId, upd_packet, peek, send; keep) end.
  exact (eq_trans (Hk _ _ _ E) Hv).
Qed.

Lemma step_trans_none s s1 s2 : view s1 = view s -> step s1 s2 -> step s s2.
Proof.
  unfold view. intros [= E1 E2 E3] [s' Hv|s' cd e Hv Hr|s' e new Hc Hv Hn].
  - apply step_none. unfold view in *. congruence.
  - apply (step_other _ _ cd e); [congruence|]. by rewrite <- E2.
  - apply (step_flood _ _ e new); [by rewrite <- E1|congruence|done].
Qed.

Lemma step_keeps_trans s s1 s2 : step s s1 -> view s2 = view s1 -> step s s2.
Proof.
  intros [s' Hv|s' cd e Hv Hr|s' e new Hc Hv Hn] Hs.
  - apply step_none. exact (eq_trans Hs Hv).
  - apply (step_other _ _ cd e); [exact (eq_trans Hs Hv)|done].
  - apply (step_flood _ _ e new); [done|exact (eq_trans Hs Hv)|done].
Qed.

(** Delivery of other packets. *)
Lemma dispatch_step (reg : Registers -> gmap Z (Z * Z)) k q now (s s' : AwdsRouting seen) u :
  (reg = unicastRegister \/ reg = flowReceiverMap) ->
  (match reg (registers s) !! k with Some (c, d) => recv_callback c d q now | None => mret tt end) s = Ok (u, s') -> step s s'.
Proof.
  intros Hreg. destruct (reg (registers s) !! k) as [[c d]|] eqn:Er; intros E; [|apply step_none; by injection E as _ <-].
  destruct (callback_log _ _ _ _ _ _ _ E) as (e & Hv & _). apply (step_other _ _ (c, d) e); [done|].
  exists k. destruct Hreg as [->| ->]; auto.
Qed.

Lemma recv_unicast_step q now (s s' : AwdsRouting seen) u : recv_unicast q now s = Ok (u, s') -> step s s'.
Proof.
  unfold recv_unicast. intros (p & s1 & E1 & E)%M_bind_inv. pose proof (keeps_upd_packet q _ _ _ _ E1) as Hv1.
  destruct (UnicastPacket.getTTL p =? 0); [apply step_none; by injection E as _ <-|].
  apply M_bind_inv in E as (me & s2 & E2 & E). injection E2 as <- <-.
  destruct (negb (UnicastPacket.getNextHop p =? _)); [apply step_none; by injection E as _ <-|].
  apply M_bind_inv in E as ([] & s3 & E3 & E). pose proof (keeps_trace q _ _ _ E3) as Hv3.
  apply M_bind_inv in E as (p' & s4 & E4 & E). pose proof (keeps_peek q _ _ _ E4) as Hv4.
  eapply step_trans_none; [exact (eq_trans Hv4 (eq_trans Hv3 Hv1))|].
  destruct (UnicastPacket.getUcDest p' =? _).
  - apply M_bind_inv in E as (reg & s5 & E5 & E). injection E5 as <- <-.
    by apply (dispatch_step unicastRegister _ _ _ _ _ _ (or_introl eq_refl) E).
  - apply step_none. match type of E with ?m s4 = _ => assert (keeps m) as Hk by (unfold upd_packet, peek, send; keep) end.
    exact (Hk _ _ _ E).
Qed.

Lemma sendFlowPacket_step q now (s s' : AwdsRouting seen) r : sendFlowPacket q now s = Ok (r, s') -> step s s'.
Proof.
  unfold sendFlowPacket. intros (p & s1 & E1 & E)%M_bind_inv. pose proof (keeps_peek q _ _ _ E1) as Hv1.
  apply M_bind_inv in E as ([] & s2 & E2 & E). pose proof (keeps_lift _ _ _ _ E2) as Hv2.
  apply M_bind_inv in E as (me & s3 & E3 & E). injection E3 as <- <-.
  apply M_bind_inv in E as (reg & s4 & E4 & E). injection E4 as <- <-.
  eapply step_trans_none; [exact (eq_trans Hv2 Hv1)|].
  destruct (FlowPacket.getFlowDest p =? _).
  - apply (dispatch_step flowReceiverMap (FlowPacket.getFlowType p) q now _ _ tt); [by right|].
    destruct (flowReceiverMap (registers s2) !! FlowPacket.getFlowType p) as [[c d]|].
    + apply M_bind_inv in E as ([] & s5 & E5 & E). by injection E as _ <-.
    + by injection E as _ <-.
  - apply step_none. match type of E with ?m s2 = _ => assert (keeps m) as Hk by (unfold upd_packet, peek, send; keep) end.
    exact (Hk _ _ _ E).
Qed.

Lemma recv_packet_step q now (s s' : AwdsRouting seen) u : recv_packet q now s = Ok (u, s') -> step s s'.
Proof.
  unfold recv_packet. intros (p & s1 & E1 & E)%M_bind_inv. pose proof (keeps_peek q _ _ _ E1) as Hv1.
  apply M_bind_inv in E as (fw & s2 & E2 & E). injection E2 as <- <-.
  apply M_bind_inv in E as (me & s3 & E3 & E). injection E3 as <- <-.
  eapply step_trans_none; [exact Hv1|]. destruct (_ && _); [|apply step_none; by injection E as _ <-].
  destruct (getType p).
  - apply step_none. exact (keeps_recv_beacon _ _ _ _ _ E).
  - unfold peek, on_table, on_net, on_heap, zoom, load, mbind, M_bind, gets, lift, of_option in E1.
    destruct (packets (heap (net s)) !! q) as [p0|] eqn:Ep; [|done]. injection E1 as <- <-.
    eapply recv_flood_step; [|exact E]. exact Ep.
  - by eapply recv_unicast_step.
  - apply M_bind_inv in E as (r & s4 & E4 & E). injection E as _ <-. by eapply sendFlowPacket_step.
Qed.

Lemma recv_data_step ret data now (s s' : AwdsRouting seen) u : recv_data ret data now s = Ok (u, s') -> step s s'.
Proof.
  unfold recv_data. intros (q & s1 & E1 & E)%M_bind_inv. pose proof (keeps_new_packet _ _ _ E1) as Hv1.
  apply M_bind_inv in E as (p & s2 & E2 & E). pose proof (keeps_peek q _ _ _ E2) as Hv2.
  destruct (receive ret data p) as [ret' p'].
  apply M_bind_inv in E as ([] & s3 & E3 & E). pose proof (keeps_on_table _ _ _ _ E3) as Hv3.
  apply M_bind_inv in E as ([] & s4 & E4 & E). pose proof (keeps_on_table _ _ _ _ E) as Hv4.
  eapply step_trans_none; [exact (eq_trans Hv3 (eq_trans Hv2 Hv1))|]. eapply step_keeps_trans; [|exact Hv4].
  destruct (0 <? ret'); [by eapply recv_packet_step|apply step_none; by injection E4 as <-].
Qed.

(** Frames received one after the other, each at its time. *)
Fixpoint receive_all (frames : list (Z * list Z)) : R seen unit :=
  match frames with
  | [] => mret tt
  | (now, f) :: frames => recv_data (Z.of_nat (length f)) f now;; receive_all frames
  end.

(** The callback [cb] is not registered for unicast or flow packets. *)
Definition broadcast_only (r : Registers) (cb : Z) : Prop :=
  forall k cd, unicastRegister r !! k = Some cd \/ flowReceiverMap r !! k = Some cd -> fst cd <> cb.

(** The floods that were given to [cb], latest first. *)
Definition given_to (cb : Z) (log : seen) : list Entry := (filter (fun x => x.1 = cb) log).*2.

Record once (cb : Z) (n : nat) (s : AwdsRouting seen) : Prop := {
  on_history : exists l, repr (floodHistory s) l /\ (length l <= n)%nat /\ given_to cb (modules s) ⊆ l;
  on_nodup : NoDup (given_to cb (modules s));
  on_registers : broadcast_only (registers s) cb;
}.

Lemma once_step cb n s s' : once cb n s -> (n < NUM)%nat -> step s s' -> once cb (S n) s'.
Proof.
  intros [(l & Hr & Hl & Hsub) Hnd Hb] Hn [x Hv|x cd e Hv (k & Hk)|x e new Hc Hv Hnew]; unfold view in Hv; injection Hv as E1 E2 E3.
  - constructor; [|by rewrite E3|by rewrite E2]. exists l. rewrite E1, E3. split_and!; [done|lia|done].
  - assert (given_to cb (modules x) = given_to cb (modules s)) as Hg.
    { rewrite E3. unfold given_to. rewrite filter_cons_False; [done|]. exact (Hb k cd Hk). }
    constructor; [|by rewrite Hg|by rewrite E2]. exists l. rewrite E1, Hg. split_and!; [done|lia|done].
  - rewrite (contains_spec _ l) in Hc by done. injection Hc as Hc. apply bool_decide_eq_false in Hc.
    destruct e as [ei es]. cbn [e_id e_seq] in *.
    assert (remember (mkEntry ei es) l = mkEntry ei es :: l) as Hrem.
    { unfold remember. apply take_ge. cbn [length]. lia. }
    assert (given_to cb (modules x) = given_to cb (modules s) \/ given_to cb (modules x) = mkEntry ei es :: given_to cb (modules s)) as Hg.
    { rewrite E3. destruct Hnew as [->|[c ->]]; [by left|]. unfold given_to. cbn [app]. rewrite filter_cons.
      case_decide; [by right|by left]. }
    constructor; [| |by rewrite E2].
    + exists (mkEntry ei es :: l). rewrite E1. split_and!.
      * rewrite <- Hrem. by apply repr_insert.
      * cbn [length]. lia.
      * destruct Hg as [-> | ->]; set_solver.
    + destruct Hg as [-> | ->]; [done|]. apply NoDup_cons. split; [|done]. set_solver.
Qed.

Lemma receive_all_once cb frames n s s' :
  once cb n s -> (n + length frames <= NUM)%nat -> receive_all frames s = Ok (tt, s') -> once cb (n + length frames) s'.
Proof.
  revert n s. induction frames as [|[now f] frames IH]; intros n s Ho Hn E; cbn [length] in *.
  - injection E as <-. by rewrite Nat.add_0_r.
  - cbn [receive_all] in E. apply M_bind_inv in E as ([] & s1 & E1 & E).
    replace (n + S (length frames))%nat with (S n + length frames)%nat by lia.
    apply (IH (S n) s1); [|lia|done]. eapply once_step; [done|lia|]. by eapply recv_data_step.
Qed.

End frames.

(** ** Example: a flood that arrives over two neighbours *)

Definition flood_station : AwdsRouting seen :=
  mkRouting seen (mkIface (mkN ∅ [] ∅ None []) (mkQ [] None [])) (topology (station3 1)) (replicate 32 0)
    (FloodHistory_new (replicate 128 (mkEntry 0 0))) None None
    (mkPeriods 1000 Constant 1400 0 None None) (mkCounters 0 0 0 1) (mkRegisters ∅ {[ 0x62 := (5, 0) ]} ∅ ∅) [].

(** The flood 9 of station 7, with last hop [h]. *)
Definition flood_frame (h : Z) : list Z := [1; 0; 0; 0; 0; 0; 7; 0; 9; 0; 0; 0; 0; 0; h; 5; 0x62; 1; 2; 3].

Definition flood_result : AwdsRouting seen :=
  match receive_all (H := gea_ns) (H0 := hop_count) (H2 := merge_std_sort) (H3 := toy_aes) (H4 := ex_basic)
          [(0, flood_frame 2); (1, flood_frame 3)] flood_station with
  | Ok (_, s) => s | Fail _ => flood_station end.

