(* ===== verification/TopoThms.v ===== *)
(** * Topology packets: what one station writes another reads

    [TopoPacket::setNeigh] against the parser in [RTopology::feed]: the links of
    a topology packet are the neighbours with a good link in both directions. *)

From S2P Require Import Prelude Bytes NodeId CryptoUnit Topology Neighbors NeighborThms LinkThms Metrics Packet Routing Station.

(** ** The search in a beacon ends *)

Lemma binsearch_total fuel a b x buf :
  0 <= a <= b -> b - a <= Z.of_nat fuel -> 13 + 6 * b <= Z.of_nat (length buf) ->
  exists r, hasNeighBinsearch fuel a b x buf = Ok r.
Proof.
  revert a b. induction fuel as [|fuel IH]; intros a b Hab Hf Hl; cbn [hasNeighBinsearch].
  - replace b with a by lia. rewrite Z.eqb_refl. by eexists.
  - destruct (Z.eqb_spec a b); [by eexists|].
    assert (a <= Z.quot (a + b) 2 < b) as Hm.
    { rewrite Z.quot_div_nonneg by lia. split; [apply Z.div_le_lower_bound|apply Z.div_lt_upper_bound]; lia. }
    set (m := Z.quot (a + b) 2) in *. unfold neigh_at. change (Z.of_nat Beacon.OffsetLNeigh) with 13.
    rewrite (proj2 (Z.leb_le 0 _)), (proj2 (Z.leb_le _ (Z.of_nat (length buf)))) by lia. cbn [andb].
    rewrite outcome_ret_bind. destruct (_ =? x); [by eexists|]. destruct (_ <? x); apply IH; lia.
Qed.

(** Both counters of a beacon are at most 127. *)
Definition sane (b : BasePacket) : Prop := 0 <= Beacon.getNumMpr b /\ 0 <= Beacon.getNumNoMpr b.

Lemma hasNeigh_total x b : wf_packet b -> sane b -> exists r, hasNeigh x b = Ok r.
Proof.
  intros [Hl _] [H1 H2]. unfold hasNeigh, hasMpr, hasNoMpr.
  pose proof (s8_range (get_byte Beacon.OffsetNumMpr b)) as R1. fold (Beacon.getNumMpr b) in R1.
  pose proof (s8_range (get_byte Beacon.OffsetNumNoMpr b)) as R2. fold (Beacon.getNumNoMpr b) in R2.
  assert (Z.of_nat (length (buffer b)) = 4096) as Hl' by (by rewrite Hl).
  assert (Z.of_nat search_fuel = 255) as Hsf by done.
  destruct (binsearch_total search_fuel 0 (Beacon.getNumMpr b) x (buffer b)) as [r1 ->]; [lia..|].
  rewrite outcome_ret_bind. destruct r1; [by eexists|]. apply binsearch_total; lia.
Qed.

(** ** The neighbours with a link in both directions *)

Section table.
Context (s : nstate) (me : NodeId).

Definition bidi (d : NodeDescr) : bool :=
  match lastBeacon d with
  | Some q => match packets s !! q with
              | Some b => match hasNeigh me b with Ok true => isGood d | _ => false end
              | None => false
              end
  | None => false
  end.

Hypothesis Hbeacons : forall d, d ∈ neighbors s ->
  exists q b, lastBeacon d = Some q /\ packets s !! q = Some b /\ beacon_ok b /\ sane b.

Lemma isBidiGood_ok d : d ∈ neighbors s -> isBidiGood me d s = Ok (bidi d, s).
Proof.
  intros Hd. destruct (Hbeacons d Hd) as (q & b & Hq & Hb & Hok & Hs). unfold isBidiGood, bidi. rewrite Hq, Hb.
  mcall as_beacon_ok. destruct (hasNeigh_total me b) as [r Hr]; [apply Hok|done|]. rewrite Hr.
  mlift. by destruct r.
Qed.

(** ** Writing the links *)

Context {L : LinkMeter}.
Definition qual (d : NodeDescr) : Z := match get_quality d with Ok q => q | Fail _ => 0 end.
Definition enc_link (d : NodeDescr) : list Z := be_enc 6 (id d) ++ be_enc 2 (qual d).
Definition enc_links (ds : list NodeDescr) : list Z := mjoin (enc_link <$> ds).
Definition good (ns : list NodeDescr) : list NodeDescr := filter (fun d => bidi d = true) ns.

Lemma enc_link_length d : length (enc_link d) = 8%nat.
Proof. unfold enc_link. by rewrite length_app, !be_enc_length. Qed.

Lemma enc_links_length ds : length (enc_links ds) = (8 * length ds)%nat.
Proof.
  induction ds as [|d ds IH]; [done|]. change (enc_links (d :: ds)) with (enc_link d ++ enc_links ds).
  rewrite length_app, IH, enc_link_length. cbn [length]. lia.
Qed.

Lemma enc_links_bytes ds : bytes (enc_links ds).
Proof.
  induction ds as [|d ds IH]; [constructor|]. change (enc_links (d :: ds)) with (enc_link d ++ enc_links ds).
  apply Forall_app_2; [|done]. apply Forall_app_2; apply be_enc_bytes.
Qed.

Hypothesis Hqual : forall d, d ∈ neighbors s -> exists q, get_quality d = Ok q.

Lemma put_link_eq d addr (buf : list Z) :
  (addr + 8 <= length buf)%nat ->
  toArray 2 (qual d) (addr + 6) (AbstractID6.toArray (id d) addr buf) = splice addr (enc_link d) buf.
Proof.
  intros Hl. rewrite AbstractID6.id6_toArray_spec by lia.
  rewrite toArray_spec by (rewrite splice_length; rewrite ?be_enc_length; lia).
  unfold enc_link. rewrite <- splice_splice_adjacent by (rewrite !be_enc_length; lia).
  by rewrite be_enc_length.
Qed.

Lemma put_links_ok ns addr n buf :
  ns ⊆ neighbors s -> (addr + 8 * length (good ns) <= length buf)%nat -> 0 <= n -> n + Z.of_nat (length (good ns)) < 256 ->
  put_links me ns addr n buf s =
    Ok ((addr + 8 * length (good ns))%nat, n + Z.of_nat (length (good ns)), splice addr (enc_links (good ns)) buf, s).
Proof.
  revert addr n buf. induction ns as [|d ns IH]; intros addr n buf Hsub Hl Hn Hb.
  - cbn. rewrite splice_nil, Nat.add_0_r, Z.add_0_r. done.
  - assert (d ∈ neighbors s) as Hd by set_solver. assert (ns ⊆ neighbors s) as Hsub' by set_solver.
    cbn [put_links]. erewrite M_bind_ok by (by apply isBidiGood_ok).
    unfold good in *. rewrite filter_cons in *. destruct (bidi d) eqn:Eb.
    + rewrite decide_True in * by done. cbn [length] in *. destruct (Hqual d Hd) as [q Hq].
      mlift. rewrite (proj2 (Nat.leb_le _ _)) by lia.
      assert (q = qual d) as -> by (unfold qual; by rewrite Hq).
      rewrite put_link_eq by lia. rewrite wrap_id by (unfold in_width; lia).
      rewrite IH; [|done|rewrite splice_length; rewrite ?enc_link_length; lia|lia|lia].
      change (enc_links (d :: ?l)) with (enc_link d ++ enc_links l).
      pose proof (splice_splice_adjacent addr (enc_link d) (enc_links (filter (fun d => bidi d = true) ns)) buf) as Ha.
      rewrite enc_link_length, enc_links_length in Ha. rewrite Ha by lia. set (k := length _).
      replace (addr + 8 + 8 * k)%nat with (addr + 8 * S k)%nat by lia. by replace (n + 1 + Z.of_nat k) with (n + Z.of_nat (S k)) by lia.
    + rewrite decide_False in * by congruence. by apply IH.
Qed.

End table.

(** ** Reading the links *)

Section reading.
Context {L : LinkMeter}.

Definition link_of (d : NodeDescr) : LinkQuality := LQ None (id d) (qual d) 0.

Record link_ok (d : NodeDescr) : Prop := { lo_id : in_width 48 (id d); lo_qual : 1 <= qual d <= 65535 }.

Lemma slice_sub {A} (off n m k : nat) (l : list A) :
  (m + k <= n)%nat -> slice m k (slice off n l) = slice (off + m) k l.
Proof.
  intros H. apply list_eq. intros i. destruct (decide (i < k)%nat).
  - rewrite !slice_lookup by lia. f_equal. lia.
  - rewrite !lookup_ge_None_2; [done|unfold slice; rewrite length_take; lia..].
Qed.

Lemma read_link d addr buf :
  bytes buf -> (addr + 8 <= length buf)%nat -> link_ok d -> slice addr 8 buf = enc_link d ->
  AbstractID6.fromArray addr buf = id d /\ fromArray 2 (addr + 6) buf = qual d.
Proof.
  intros Hb Hl [Hi Hq] He. rewrite AbstractID6.id6_fromArray_spec, fromArray_spec by (done || lia).
  pose proof (slice_sub addr 8 0 6 buf ltac:(lia)) as S1. pose proof (slice_sub addr 8 6 2 buf ltac:(lia)) as S2.
  rewrite Nat.add_0_r in S1. rewrite <- S1, <- S2, He. unfold enc_link, slice. rewrite drop_0.
  rewrite take_app_length' by (by rewrite be_enc_length). rewrite drop_app_length' by (by rewrite be_enc_length).
  rewrite take_ge by (by rewrite be_enc_length).
  split; apply be_dec_enc_id; [exact Hi|]. change (256 ^ Z.of_nat 2) with 65536. lia.
Qed.

Lemma parse_links_ok ds addr node acc buf :
  bytes buf -> (addr + 8 * length ds <= length buf)%nat -> slice addr (8 * length ds) buf = enc_links ds ->
  Forall link_ok ds -> sorted_ids (id <$> ds) ->
  (forall l d, last acc = Some l -> d ∈ ds -> neighbor l < id d) ->
  exists node', parse_links (length ds) addr node acc buf = Ok (acc ++ (link_of <$> ds), node').
Proof.
  intros Hb. revert addr node acc. induction ds as [|d ds IH]; intros addr node acc Hl He Hok Hs Hacc.
  - cbn. rewrite app_nil_r. by eexists.
  - apply Forall_cons in Hok as [Hd Hok]. cbn [fmap list_fmap] in Hs. apply StronglySorted_inv in Hs as [Hs Hlt].
    cbn [length] in Hl, He. change (enc_links (d :: ds)) with (enc_link d ++ enc_links ds) in He.
    assert (slice addr 8 buf = enc_link d /\ slice (addr + 8) (8 * length ds) buf = enc_links ds) as [E1 E2].
    { pose proof (slice_sub addr (8 * S (length ds)) 0 8 buf ltac:(lia)) as S1.
      pose proof (slice_sub addr (8 * S (length ds)) 8 (8 * length ds) buf ltac:(lia)) as S2.
      rewrite Nat.add_0_r in S1. rewrite <- S1, <- S2, He. unfold slice. rewrite drop_0.
      rewrite take_app_length' by (by rewrite enc_link_length). rewrite drop_app_length' by (by rewrite enc_link_length).
      split; [done|]. apply take_ge. rewrite enc_links_length. lia. }
    destruct (read_link d addr buf Hb ltac:(lia) Hd E1) as [R1 R2].
    cbn [length parse_links]. rewrite R1, R2. destruct Hd as [_ Hq].
    rewrite (proj2 (Z.eqb_neq _ 0)) by lia. cbn [negb]. change (cassert true) with (Ok tt). rewrite outcome_ret_bind.
    assert (match last acc with Some l => id d <=? neighbor l | None => false end = false) as ->.
    { destruct (last acc) as [l|] eqn:El; [|done]. apply Z.leb_gt. apply (Hacc l d); [done|set_solver]. }
    destruct (IH (addr + 8)%nat (id d) (acc ++ [LQ None (id d) (qual d) 0])) as [node' E]; try done.
    { lia. }
    { intros l x Hlast Hx. rewrite last_snoc in Hlast. injection Hlast as <-. cbn [neighbor].
      rewrite Forall_forall in Hlt. apply Hlt. apply list_elem_of_fmap. by exists x. }
    exists node'. rewrite E, <- app_assoc. done.
Qed.
End reading.

(** ** Names *)

Lemma c_string_prefix l : take (length (c_string l)) l = c_string l.
Proof. induction l as [|b l IH]; [done|]. cbn. destruct (b =? 0); [done|]. cbn. by rewrite IH. Qed.

Lemma c_string_again l : c_string (c_string l) = c_string l.
Proof. induction l as [|b l IH]; [done|]. cbn. destruct (b =? 0) eqn:E; [done|]. cbn. by rewrite E, IH. Qed.

Lemma c_string_le l : (length (c_string l) <= length l)%nat.
Proof. induction l as [|b l IH]; [done|]. cbn. destruct (b =? 0); cbn; lia. Qed.

Section roundtrip.
Context {L : LinkMeter}.

Lemma qual_range d q : get_quality d = Ok q -> 1 <= qual d <= 65535.
Proof.
  intros E. unfold qual. rewrite E. unfold get_quality in E. apply outcome_bind_ok in E as (x & _ & [= <-]).
  unfold max_quality. lia.
Qed.

(** A neighbour whose links can be written: a valid identifier, a quality, and a
    well-formed last beacon. *)
Record written (s : nstate) (d : NodeDescr) : Prop := {
  wr_id : in_width 48 (id d);
  wr_quality : exists q, get_quality d = Ok q;
  wr_beacon : exists q b, lastBeacon d = Some q /\ packets s !! q = Some b /\ beacon_ok b /\ sane b;
}.

(** The content of the buffer behind the header. *)
Definition topo_body (s : nstate) (me : NodeId) (name : list Z) : list Z :=
  enc_links (good s me (neighbors s)) ++ Z.of_nat (length (c_string name)) :: c_string name.

Lemma topo_setNeigh_eq s me name p :
  (forall d, d ∈ neighbors s -> written s d) -> (length (neighbors s) <= MaxNeighbors)%nat ->
  wf_packet p -> (length (c_string name) < length name <= 32)%nat ->
  let n := length (good s me (neighbors s)) in
  topo_setNeigh me name p s =
    Ok (set_size (Z.of_nat (22 + 8 * n + length (c_string name) + 1))
         (set_byte TopoPacket.OffsetNumLinks (Z.of_nat n) (upd (splice 22 (topo_body s me name)) p)), s) /\
  (n <= 40)%nat.
Proof.
  intros Hd Hlen [Hl Hb] Hname n. assert (n <= 40)%nat as Hn.
  { unfold n, good. pose proof (length_filter (fun d => bidi s me d = true) (neighbors s)). unfold MaxNeighbors in Hlen. lia. }
  split; [|done]. assert (length (buffer p) = 4096%nat) as Hl' by exact Hl. clear Hl.
  unfold topo_setNeigh. mprim.
  erewrite M_bind_ok; cycle 1.
  { apply put_links_ok; [intros d Hin; apply (wr_beacon _ _ (Hd d Hin))|intros d Hin; apply (wr_quality _ _ (Hd d Hin))|done| |lia|].
    - change TopoPacket.OffsetLinks with 22%nat. fold n. lia.
    - fold n. lia. }
  fold n. cbv beta iota. unfold strlen32. rewrite (proj2 (Nat.ltb_lt _ _)) by lia. mlift.
  rewrite Nat.min_l by lia. unfold mem_write.
  change TopoPacket.OffsetLinks with 22%nat. rewrite c_string_prefix. cbn [length].
  assert (length (enc_links (good s me (neighbors s))) = 8 * n)%nat as He by apply enc_links_length.
  rewrite splice_length by lia. rewrite (proj2 (Nat.leb_le _ _)) by lia. mlift.
  assert (splice (22 + 8 * n) (Z.of_nat (length (c_string name)) :: c_string name)
    (splice 22 (enc_links (good s me (neighbors s))) (buffer p)) = splice 22 (topo_body s me name) (buffer p)) as ->.
  { rewrite <- He. apply splice_splice_adjacent. cbn [length]. lia. }
  rewrite Z.add_0_l. unfold mret, M_ret, upd. do 3 f_equal. lia.
Qed.

(** C13. Topology packets round trip: the packet a station fills with its links
    and its name is read back by the parser of [feed] as exactly the neighbours
    that are active and list this station in their last beacon, in the order of
    their identifiers, with the qualities of the metric, and the name.  No
    assertion of the parser fails, and the length checks pass. *)
Theorem topo_packet_roundtrip s me name p :
  (forall d, d ∈ neighbors s -> written s d) -> (length (neighbors s) <= MaxNeighbors)%nat ->
  sorted_ids (id <$> neighbors s) -> wf_packet p -> bytes name -> (length (c_string name) < length name <= 32)%nat ->
  let ds := good s me (neighbors s) in
  exists p' node, topo_setNeigh me name p s = Ok (p', s) /\
    TopoPacket.getNumLinks p' = Z.of_nat (length ds) /\
    Z.of_nat (TopoPacket.OffsetLinks + length ds * 8) < size p' <= Z.of_nat MaxSize /\
    parse_links (length ds) TopoPacket.OffsetLinks AbstractID6.mk_default [] (buffer p') = Ok (link_of <$> ds, node) /\
    (forall nd, nodeName (parse_name p' (TopoPacket.OffsetLinks + length ds * 8) nd) = c_string name).
Proof.
  intros Hd Hlen Hs Hp Hby Hname ds. destruct (topo_setNeigh_eq s me name p Hd Hlen Hp Hname) as [E Hn].
  fold ds in E, Hn. set (k := length (c_string name)) in *. set (p' := set_size _ _) in E.
  assert (length (topo_body s me name) = 8 * length ds + k + 1)%nat as Hbl.
  { unfold topo_body. rewrite length_app, enc_links_length. cbn [length]. fold ds. fold k. lia. }
  assert (bytes (topo_body s me name)) as Hbb.
  { unfold topo_body. apply Forall_app_2; [apply enc_links_bytes|]. apply Forall_cons_2; [unfold is_byte; fold k; lia|].
    rewrite <- c_string_prefix. by apply Forall_take. }
  assert (wf_packet (upd (splice 22 (topo_body s me name)) p)) as Hw1.
  { apply upd_splice_wf; [done|done|]. change MaxSize with 4096%nat. lia. }
  set (p1 := upd (splice 22 (topo_body s me name)) p) in *.
  assert (wf_packet p') as Hw.
  { destruct (set_byte_wf TopoPacket.OffsetNumLinks (Z.of_nat (length ds)) p1 Hw1 ltac:(inside_tac)) as [Hl' Hb']. by split. }
  assert (slice 22 (8 * length ds + k + 1) (buffer p') = topo_body s me name) as Hbody.
  { change (buffer p') with (<[TopoPacket.OffsetNumLinks := u8 (Z.of_nat (length ds))]> (buffer p1)).
    rewrite insert_splice by (rewrite (wf_length _ Hw1); inside_tac).
    rewrite slice_splice_disjoint; [|rewrite (wf_length _ Hw1); inside_tac|right; inside_tac].
    rewrite <- Hbl. change (buffer p1) with (splice 22 (topo_body s me name) (buffer p)). apply slice_splice_same.
    rewrite (wf_length _ Hp). change MaxSize with 4096%nat. lia. }
  destruct (parse_links_ok ds 22 AbstractID6.mk_default [] (buffer p')) as [node Hparse].
  { apply Hw. }
  { rewrite (wf_length _ Hw). change MaxSize with 4096%nat. lia. }
  { rewrite <- (slice_sub 22 (8 * length ds + k + 1) 0) by lia. rewrite Hbody. unfold topo_body, slice.
    rewrite drop_0. fold ds. by rewrite take_app_length' by (by rewrite enc_links_length). }
  { apply Forall_forall. intros d Hin. apply list_elem_of_filter in Hin as [_ Hin]. destruct (Hd d Hin) as [Hi [q Hq] _].
    split; [done|]. by eapply qual_range. }
  { by apply (sel_ids_sorted (bidi s me)). }
  { done. }
  exists p', node. split_and!; [exact E| | | |exact Hparse|].
  - change (get_byte TopoPacket.OffsetNumLinks (set_byte TopoPacket.OffsetNumLinks (Z.of_nat (length ds)) p1) = Z.of_nat (length ds)).
    rewrite get_set_byte by (done || inside_tac). apply wrap_id. unfold in_width. lia.
  - cbn [size p' set_size]. change TopoPacket.OffsetLinks with 22%nat. lia.
  - cbn [size p' set_size]. change (Z.of_nat MaxSize) with 4096. lia.
  - intros nd. unfold parse_name. change TopoPacket.OffsetLinks with 22%nat. change (size p') with (Z.of_nat (22 + 8 * length ds + k + 1)).
    rewrite (proj2 (Z.ltb_lt _ _)) by lia.
    assert (get_byte (22 + length ds * 8) p' = Z.of_nat k) as ->.
    { unfold get_byte, byte_at. rewrite <- (Nat.add_0_r (22 + _)). rewrite <- (slice_lookup _ 1) by lia.
      replace (22 + length ds * 8)%nat with (22 + 8 * length ds)%nat by lia.
      rewrite <- (slice_sub 22 (8 * length ds + k + 1)) by lia. rewrite Hbody. unfold topo_body. fold ds.
      unfold slice. rewrite drop_app_length' by (by rewrite enc_links_length). done. }
    rewrite Nat2Z.id, Nat.min_r by lia. cbn [nodeName set_nodeName].
    replace (S (22 + length ds * 8))%nat with (22 + (8 * length ds + 1))%nat by lia.
    rewrite <- (slice_sub 22 (8 * length ds + k + 1)) by lia. rewrite Hbody. unfold topo_body. fold ds.
    unfold slice. rewrite drop_app_ge by (rewrite enc_links_length; lia). rewrite enc_links_length.
    replace (8 * length ds + 1 - 8 * length ds)%nat with 1%nat by lia. change (drop 1 (?x :: ?l)) with l.
    rewrite take_ge by done. apply c_string_again.
Qed.
End roundtrip.

(** ** Example: the neighbour 5 lists this station, the neighbour 7 does not *)

Definition listing (src i : Z) : BasePacket :=
  upd (splice 13 (be_enc 6 i)) (set_byte Beacon.OffsetNumMpr 1 (ex_beacon src 1)).

Definition ex_table : nstate :=
  mkN {[ 10 := listing 5 1; 11 := listing 7 3 ]}
      [mkDescr 5 (Some 10) 0 0 0 0xFFF80000 true true; mkDescr 7 (Some 11) 0 0 0 0xFFF80000 true true] ∅ None [].

Lemma listing_wf src i : wf_packet (listing src i).
Proof.
  apply upd_splice_wf; [apply set_byte_wf; [apply ex_beacon_wf|inside_tac]|apply be_enc_bytes|].
  rewrite be_enc_length. inside_tac.
Qed.

Definition ex_name : list Z := [103; 97; 116; 101] ++ replicate 28 0.

Lemma ex_written d : d ∈ neighbors ex_table -> written (L := EtxMetric.meter) ex_table d.
Proof.
  intros Hd. repeat (apply elem_of_cons in Hd as [->|Hd]); [| |by apply elem_of_nil in Hd].
  - split; [done|vm_compute; by eexists|]. exists 10, (listing 5 1).
    split_and!; [done|done|split; [apply listing_wf|vm_compute; done]|split; vm_compute; discriminate].
  - split; [done|vm_compute; by eexists|]. exists 11, (listing 7 3).
    split_and!; [done|done|split; [apply listing_wf|vm_compute; done]|split; vm_compute; discriminate].
Qed.

Lemma topo_packet_roundtrip_witness :
  good ex_table 1 (neighbors ex_table) = [mkDescr 5 (Some 10) 0 0 0 0xFFF80000 true true] /\
  exists p' node, topo_setNeigh (L := EtxMetric.meter) 1 ex_name BasePacket_new ex_table = Ok (p', ex_table) /\
    TopoPacket.getNumLinks p' = 1 /\
    parse_links 1 TopoPacket.OffsetLinks AbstractID6.mk_default [] (buffer p') = Ok ([LQ None 5 38893 0], node).
Proof.
  split; [vm_compute; reflexivity|].
  destruct (topo_packet_roundtrip (L := EtxMetric.meter) ex_table 1 ex_name BasePacket_new) as (p' & node & E & Hn & _ & Hp & _).
  - exact ex_written.
  - cbn. unfold MaxNeighbors. lia.
  - unfold sorted_ids. cbn. repeat constructor.
  - exact BasePacket_new_wf.
  - unfold ex_name. repeat (apply Forall_cons_2; [unfold is_byte; lia|]). apply Forall_nil_2.
  - vm_compute. lia.
  - exists p', node. split; [exact E|]. split; [exact Hn|exact Hp].
Defined.
