(* ===== verification/Tap.v ===== *)
(** * Tap: the network interface of the operating system

    [TapInterface.cc], [awds/tapiface.h]: Ethernet frames of the operating system
    are sent as unicast packets to the station behind which their destination is,
    or as floods if that is not known; received packets are written to the device.
    With a crypto unit the payload is encrypted from end to end.

    The interface is the module state [U] of [Routing], and its functions are the
    registered handlers.  [tap_sendcb] is called when a packet was sent or given up;
    the calls are recorded in [fired], and [run_callbacks] does what the function
    does at the end of the event. *)

From S2P Require Import Prelude Bytes NodeId Isqrt FloodHist Ccm CryptoUnit Names Filter Topology SendQueue Neighbors Metrics Packet Routing Station.

Definition PROTO_NR : Z := 0x62.

Record MacEntry := mkMac { mac_id : NodeId; validity : Z }.

Record TapInterface := mkTap {
  macTable : gmap NodeId MacEntry;
  tap_waits : option Z;          (* the time [tap_recv] waits for, if it does *)
  tap_out : list (list Z);       (* frames written to the device, newest first *)
}.

Definition set_macTable v t := mkTap v (tap_waits t) (tap_out t).
Definition set_tap_waits v t := mkTap (macTable t) v (tap_out t).
Definition set_tap_out v t := mkTap (macTable t) (tap_waits t) v.

(** The function pointers the interface registers. *)
Definition fn_recv_unicast : Z := 1.
Definition fn_recv_broadcast : Z := 2.
Definition fn_tap_sendcb : Z := 3.

Section tap.
Context `{Gea, Metric, StdSort, AES, Basic}.
Abbreviation TAP := (R TapInterface).

Definition on_tap (f : TapInterface -> TapInterface) : TAP unit := modify (fun s => set_modules (f (modules s)) s).

(** ** The table of addresses *)

Definition getNodeForMacAddress (mac : list Z) (t : Z) (tap : TapInterface) : option NodeId :=
  match macTable tap !! AbstractID6.fromArray 0 mac with
  | None => None
  | Some e => if validity e <? t then None else Some (mac_id e)
  end.

(** [buf] is the Ethernet frame: destination, source, ... *)
Definition storeSrcAndMac (i : NodeId) (buf : list Z) (t : Z) (tap : TapInterface) : TapInterface :=
  set_macTable (<[AbstractID6.fromArray 6 buf := mkMac i (t + duration 30 1)]> (macTable tap)) tap.

(** ** Encryption *)

(** The parts of the header that are authenticated: the first bytes and the type. *)
Definition flood_extra : list MemoryBlock := [mkBlock 0 9; mkBlock Flood.OffsetFloodType 1].
Definition unicast_extra : list MemoryBlock := [mkBlock 0 15; mkBlock UnicastPacket.OffsetUcType 1].

Definition encrypt_packet (q : Z) (off len : nat) (sg : list MemoryBlock) : TAP unit :=
  cu ← gets cryptoUnit;
  match cu with
  | None => mret tt
  | Some u =>
      p ← peek q;
      r ← lift (encrypt (buf_addr q) ccm_addr ccm_mem off len (Some sg) (buffer p) u);
      let '(buf, u) := r : list Z * AesCcmCryptoUnit in
      on_table (store q (set_size (size p + 32) (set_buffer buf p)));;
      modify (set_cryptoUnit (Some u))
  end.

(** [false] if the packet cannot be decrypted; otherwise it is shortened. *)
Definition decrypt_packet (q : Z) (src : NodeId) (off : nat) (sg : list MemoryBlock) : TAP bool :=
  cu ← gets cryptoUnit;
  match cu with
  | None => mret true
  | Some u =>
      p ← peek q;
      r ← lift (decryptDupDetect (buf_addr q) ccm_addr ccm_mem src off
                  (Z.to_nat (u64 (size p - 32 - Z.of_nat off))) (Some sg) (buffer p) u);
      let '(ok, buf, u) := r : bool * list Z * AesCcmCryptoUnit in
      modify (set_cryptoUnit (Some u));;
      let p := set_buffer buf p in
      on_table (store q (if ok then set_size (size p - 32) p else p));;
      mret ok
  end.

(** ** Received packets *)

(** [write(fd, &p->buffer[off], p->size - off)], and the sender is remembered. *)
Definition write_out (q : Z) (src : NodeId) (off : nat) (now : Z) : TAP unit :=
  p ← peek q;
  (if (Z.of_nat off <=? size p) && (size p <=? Z.of_nat MaxSize) then mret tt else fail OutOfBounds);;
  let frame := slice off (Z.to_nat (size p) - off) (buffer p) in
  on_tap (fun tap => set_tap_out (frame :: tap_out tap) tap);;
  on_tap (storeSrcAndMac src (drop off (buffer p)) now).

Definition tap_recv_unicast (q now : Z) : TAP unit :=
  p ← peek q;
  let srcId := SrcPacket.getSrc p in
  ok ← decrypt_packet q srcId UnicastPacket.UnicastPacketEnd unicast_extra;
  if negb ok then mret tt else write_out q srcId UnicastPacket.UnicastPacketEnd now.

Definition tap_recv_broadcast (q now : Z) : TAP unit :=
  p ← upd_packet q Flood.mk;
  let srcId := SrcPacket.getSrc p in
  me ← myNodeId;
  if srcId =? me then mret tt else
  ok ← decrypt_packet q srcId Flood.FloodHeaderEnd flood_extra;
  if negb ok then mret tt else write_out q srcId Flood.FloodHeaderEnd now.

#[export] Instance tap_handlers : Handlers TapInterface := {|
  recv_callback cb data q now :=
    if cb =? fn_recv_unicast then tap_recv_unicast q now
    else if cb =? fn_recv_broadcast then tap_recv_broadcast q now
    else fail NullDeref
|}.

(** ** Frames of the operating system *)

Definition setCallback (q : Z) : TAP unit :=
  p ← peek q; p ← lift (setSendCallback fn_tap_sendcb 0 p); on_table (store q p).

(** [memcpy] of the frame behind the header. *)
Definition put_payload (q : Z) (off : nat) (buf : list Z) : TAP unit :=
  p ← peek q;
  b ← lift (mem_write off buf (buffer p));
  on_table (store q (set_size (Z.of_nat (off + length buf)) (set_buffer b p))).

(** [data] are the 3000 cells of the array [buf] after [read] has stored [ret]
    bytes in it. *)
Definition tap_recv (ready : bool) (ret : Z) (data : list Z) (t now : Z) : TAP unit :=
  on_tap (set_tap_waits None);;
  if negb ready then on_tap (set_tap_waits (Some (t + duration 10 1))) else
  lift (cassert (0 <=? ret));;
  let buf := take (Z.to_nat ret) data in
  tap ← gets modules;
  q ← (match getNodeForMacAddress data t tap with
       | None =>
           q ← newFloodPacket PROTO_NR;
           put_payload q Flood.FloodHeaderEnd buf;;
           encrypt_packet q Flood.FloodHeaderEnd (length buf) flood_extra;;
           setCallback q;;
           sendBroadcast q now;;
           mret q
       | Some destNode =>
           q ← newUnicastPacket PROTO_NR;
           upd_packet q (fun p => UnicastPacket.setUcDest destNode (UnicastPacket.mk p));;
           put_payload q UnicastPacket.UnicastPacketEnd buf;;
           encrypt_packet q UnicastPacket.UnicastPacketEnd (length buf) unicast_extra;;
           setCallback q;;
           sendUnicast q now;;
           mret q
       end);
  on_table (unref_packet q).

(** What [tap_sendcb] does for the calls of this event: wait for the device. *)
Definition tap_sendcb (now : Z) (tap : TapInterface) : TapInterface := set_tap_waits (Some (now + duration 10 1)) tap.

Definition run_callbacks (now : Z) : TAP unit :=
  fs ← gets (fun s => fired (table s));
  on_table (modify (set_fired []));;
  foldr (fun f m => if f.1.1 =? fn_tap_sendcb then on_tap (tap_sendcb now);; m else m) (mret tt) fs.

(** [init], after the device was created. *)
Definition tap_init (created : bool) (now : Z) : TAP bool :=
  if negb created then mret false else
  on_tap (set_tap_waits (Some (now + duration 10 1)));;
  registerUnicastProtocol PROTO_NR fn_recv_unicast 0;;
  registerBroadcastProtocol PROTO_NR fn_recv_broadcast 0;;
  mret true.
End tap.
