(* ===== verification/TapThms.v ===== *)
(** * Encrypted floods

    What happens to an encrypted flood at a station that is not its last one: the
    interface decrypts the packet in place, and the routing then repeats it. *)

From S2P Require Import Prelude Bytes NodeId Isqrt FloodHist Ccm CcmThms CryptoUnit CryptoThms Names Filter Topology RoutesThms SendQueue Neighbors NeighborThms Metrics Packet Routing Station RoutingThms DeliveryThms Tap HeaderThms.

Section tap.
Context `{Gea, Metric, StdSort, AES, Basic}.
Implicit Type s : AwdsRouting TapInterface.

Abbreviation HDR := Flood.FloodHeaderEnd.

(** A station with a tap interface and a crypto unit. *)
Record listening s (u' : AesCcmCryptoUnit) : Prop := {
  li_firewall : firewall s = None;
  li_unit : cryptoUnit s = Some u';
  li_alone : neighbors (table s) = [];
  li_room : (length (queue (sendQueue (net s))) < QUEUE_LENGTH)%nat;
  li_tap : broadcastRegister (registers s) !! PROTO_NR = Some (fn_recv_broadcast, 0);
}.

(** The flood [p] carries the payload [m], encrypted by a station with the unit
    [u] and the key of [u']. *)
Record sealed (u u' : AesCcmCryptoUnit) (hd m r : list Z) (p : BasePacket) : Prop := {
  se_wf : wf_packet p;
  se_unit : unit_ok u;
  se_header : length hd = HDR;
  se_length : (length m <= 3000)%nat;
  se_buffer : buffer p = hd ++ body_ctr u' (nonce_block u) m ++
                         body_tag u' (Some flood_extra) hd (nonce_block u) m ++ nonce_block u ++ r;
  se_size : size p = Z.of_nat (HDR + length m + 32);
  se_fresh : fresh u' (SrcPacket.getSrc p) (next_iv u);
}.

Hypothesis Hctx : ctx_place ccm_mem ccm_addr.

Lemma extra_inside hd : length hd = HDR -> inside 0 (length hd) flood_extra /\ length (stored flood_extra hd) = 10%nat.
Proof.
  intros Hl. rewrite Hl. split; [apply (bool_decide_unpack _); by vm_compute|].
  unfold stored, flood_extra. cbn [fmap list_fmap mjoin list_join CryptoUnit.p CryptoUnit.size].
  rewrite !length_app, !slice_length by (rewrite Hl; inside_tac). done.
Qed.

Lemma flood_tag_length u u' hd m :
  unit_ok u -> length hd = HDR -> length (body_tag u' (Some flood_extra) hd (nonce_block u) m) = 16%nat.
Proof.
  intros Hu Hh. eapply tag_length. destruct (extra_inside hd Hh) as [_ Hs].
  assert (Z.of_nat (16 + length (stored (default [] (Some flood_extra)) hd)) < 65536 - 256) as Ha
    by (change (default [] (Some flood_extra)) with flood_extra; rewrite Hs; lia).
  pose proof (crypt_params ccm_addr ccm_mem (Some flood_extra) hd Hctx Ha (nonce_block u) [] (nonce_block_length u Hu)) as HP.
  rewrite app_nil_r in HP. exact HP.
Qed.

Lemma sealed_rest u u' hd m r p :
  sealed u u' hd m r p -> (length hd + length m + 32 + length r = 4096)%nat.
Proof.
  intros [[Hl _] Hu Hh Hm Hb _ _]. pose proof (f_equal length Hb) as E. rewrite Hl in E.
  rewrite !length_app, flood_tag_length, nonce_block_length in E by done.
  assert (length (body_ctr u' (nonce_block u) m) = length m) as Hc by apply ctr_from_length.
  rewrite Hc in E. change MaxSize with 4096%nat in E. lia.
Qed.

Lemma decrypt_packet_ok s q p u u' hd m r :
  at_addr s q p -> cryptoUnit s = Some u' -> sealed u u' hd m r p ->
  exists s1 b, decrypt_packet q (SrcPacket.getSrc p) HDR flood_extra s = Ok (true, s1) /\
    s1 = put q (set_size (Z.of_nat (HDR + length m)) (set_buffer b p)) (set_cryptoUnit (cryptoUnit s1) s) /\
    length b = MaxSize /\ take HDR b = hd /\ slice HDR (length m) b = m.
Proof.
  intros Hp Hcu Hse. pose proof (sealed_rest _ _ _ _ _ _ Hse) as Hrest. destruct Hse as [Hw Hu Hh Hm Hb Hsz Hfr].
  destruct (extra_inside hd Hh) as [Hi Hs].
  unfold decrypt_packet. mprim. rewrite Hcu. erewrite M_bind_ok by (by apply peek_ok).
  assert (Z.to_nat (u64 (size p - 32 - Z.of_nat HDR)) = length m) as ->.
  { rewrite Hsz. rewrite wrap_id by (unfold in_width; change (2 ^ 64) with 18446744073709551616; lia). lia. }
  pose proof (decryptDup_ok (buf_addr q) ccm_addr ccm_mem u u' (SrcPacket.getSrc p) (Some flood_extra) hd m r) as E.
  cbv zeta in E. change (default [] (Some flood_extra)) with flood_extra in E. rewrite Hs in E. specialize (E Hctx Hi ltac:(lia) Hu).
  specialize (E ltac:(change HDR with 17%nat in Hh; lia) ltac:(lia)). rewrite <- Hb, Hh in E.
  rewrite bool_decide_true in E by done.
  erewrite M_bind_ok by (apply lift_ok; exact E). cbv beta iota. mprim. erewrite M_bind_ok by reflexivity.
  set (b := hd ++ m ++ _). eexists _, b. split; [reflexivity|].
  assert (length b = MaxSize) as Hlb.
  { unfold b. rewrite !length_app, length_drop, Hs, flood_tag_length, nonce_block_length by done.
    change MaxSize with 4096%nat. change HDR with 17%nat in Hh. lia. }
  split_and!; [|done| |].
  - replace (Z.of_nat (HDR + length m)) with (size (set_buffer b p) - 32) by (cbn [size set_buffer]; lia). reflexivity.
  - unfold b. by rewrite <- Hh, take_app_length.
  - unfold b, slice. rewrite <- Hh, drop_app_length. apply take_app_length.
Qed.

Lemma tap_recv_broadcast_ok s q p u u' hd m r now :
  at_addr s q p -> cryptoUnit s = Some u' -> sealed u u' hd m r p ->
  getType p = PacketTypeFlood -> SrcPacket.getSrc p <> my_id s ->
  exists s1 b, tap_recv_broadcast q now s = Ok (tt, s1) /\
    at_addr s1 q (set_size (Z.of_nat (HDR + length m)) (set_buffer b p)) /\
    length b = MaxSize /\ take HDR b = hd /\ slice HDR (length m) b = m /\
    sendQueue (net s1) = sendQueue (net s) /\ neighbors (table s1) = neighbors (table s) /\ my_id s1 = my_id s.
Proof.
  intros Hp Hcu Hse Hty Hsrc. unfold tap_recv_broadcast.
  erewrite M_bind_ok by (by apply upd_packet_ok).
  assert (Flood.mk p = p) as -> by (apply setType_id; [apply Hse|done]). rewrite put_same by done. mprim.
  change (Topology.myNodeId (topology s)) with (my_id s). rewrite (proj2 (Z.eqb_neq _ _)) by done.
  destruct (decrypt_packet_ok s q p u u' hd m r Hp Hcu Hse) as (s1 & b & E & Hs1 & Hl & Hh & Hm).
  erewrite M_bind_ok by exact E. cbn [negb]. set (p1 := set_size _ _) in Hs1.
  assert (at_addr s1 q p1) as Hp1 by (rewrite Hs1; apply at_put).
  unfold write_out. erewrite M_bind_ok by (by apply peek_ok).
  assert ((Z.of_nat HDR <=? size p1) && (size p1 <=? Z.of_nat MaxSize) = true) as ->.
  { pose proof (se_length _ _ _ _ _ _ Hse). change (size p1) with (Z.of_nat (17 + length m)).
    change (Z.of_nat MaxSize) with 4096. change (Z.of_nat HDR) with 17. apply andb_true_intro. split; apply Z.leb_le; lia. }
  mprim. mprim. eexists _, b. split; [reflexivity|].
  split_and!; [exact Hp1|done..| | |]; rewrite Hs1; done.
Qed.

(** C36. Encrypted floods are repeated in clear text: a station with the key that
    receives an encrypted flood for its tap interface decrypts the packet in place
    and then broadcasts the decrypted packet, without the authentication trailer:
    the packet in the send queue holds the plain payload.  (The stations behind it
    can neither verify nor decrypt what they get.) *)
Theorem encrypted_flood_repeated_in_clear s q now p u u' hd m r :
  listening s u' -> at_addr s q p -> sealed u u' hd m r p ->
  getType p = PacketTypeFlood -> SrcPacket.getSrc p <> my_id s -> Flood.getFloodType p = PROTO_NR ->
  2 <= Flood.getTTL p < 256 -> contains (SrcPacket.getSrc p) (SrcPacket.getSeq p) (floodHistory s) = Ok false ->
  exists s' p', recv_packet q now s = Ok (tt, s') /\
    queue (sendQueue (net s')) = queue (sendQueue (net s)) ++ [q] /\ at_addr s' q p' /\
    dest p' = BroadcastId /\ size p' = Z.of_nat (HDR + length m) /\ slice HDR (length m) (buffer p') = m.
Proof.
  intros [Hfw Hcu Hal Hq Hreg] Hp Hse Hty Hsrc Hft Httl Hdup.
  set (s0 := set_floodHistory (insert (SrcPacket.getSrc p) (SrcPacket.getSeq p) (floodHistory s)) s).
  destruct (tap_recv_broadcast_ok s0 q p u u' hd m r now Hp Hcu Hse Hty Hsrc) as (s1 & b & E & Hp1 & Hl & Hh & Hm & Hsq & Hn & Hme).
  set (p1 := set_size _ _) in *.
  assert (Flood.getTTL p1 = Flood.getTTL p) as Ht1.
  { unfold Flood.getTTL, get_byte, byte_at. f_equal. change (buffer p1) with b.
    rewrite <- (lookup_take_lt b HDR), Hh by inside_tac. rewrite (se_buffer _ _ _ _ _ _ Hse).
    by rewrite lookup_app_l by (rewrite (se_header _ _ _ _ _ _ Hse); inside_tac). }
  destruct (flood_repeated q p p1 now s s1) as (p2 & E2 & Hsz & Hpay & _); try done; [apply Hse|lia| |lia|by rewrite Hn|by rewrite Hsq|].
  { unfold deliver_flood. fold s0. erewrite M_bind_ok by (by apply peek_ok). rewrite Hft.
    change (PROTO_NR =? FloodTypeTopo) with false. cbv iota. mprim. change (registers s0) with (registers s). rewrite Hreg.
    erewrite M_bind_ok; [reflexivity|]. exact E. }
  eexists _, _. split; [exact E2|]. split_and!; [|apply at_enqueued| | |].
  - unfold enqueued, put. cbn [net set_net sendQueue set_sendQueue queue]. by rewrite Hsq.
  - reflexivity.
  - exact Hsz.
  - change (slice HDR (length m) (buffer p2) = m). by rewrite Hpay.
Qed.
End tap.

(** ** Example *)

Definition ex_hd : list Z := [1; 0; 0; 0; 0; 0; 7; 0; 9; 0; 0; 0; 0; 0; 2; 5; 0x62].
Definition ex_m : list Z := [104; 101; 108; 108; 111].
Definition ex_sealed : BasePacket :=
  mkPacket (ex_hd ++ body_ctr (H := toy_aes) (ex_unit 2) (nonce_block (ex_unit 1)) ex_m ++
            body_tag (H := toy_aes) (ex_unit 2) (Some flood_extra) ex_hd (nonce_block (ex_unit 1)) ex_m ++
            nonce_block (ex_unit 1) ++ replicate 4042 0) 54 1 None 0.

Definition tap_station : AwdsRouting TapInterface :=
  mkRouting TapInterface (mkIface (mkN {[ 10 := ex_sealed ]} [] ∅ None []) (mkQ [] None [])) (topology (station3 1)) (replicate 32 0)
    (FloodHistory_new (replicate 128 (mkEntry 0 0))) None (Some (ex_unit 2))
    (mkPeriods 1000 Constant 1400 0 None None) (mkCounters 0 0 0 11)
    (mkRegisters ∅ {[ PROTO_NR := (fn_recv_broadcast, 0) ]} ∅ ∅) (mkTap ∅ None []).

Lemma encrypted_flood_repeated_in_clear_witness :
  slice 17 5 (buffer ex_sealed) <> ex_m /\
  exists s' p', recv_packet (H := gea_ns) (H0 := hop_count) (H2 := merge_std_sort) (H3 := toy_aes) (H4 := ex_basic)
      (Handlers0 := tap_handlers (H := gea_ns) (H2 := toy_aes) (H3 := ex_basic)) 10 0 tap_station = Ok (tt, s') /\
    queue (sendQueue (net s')) = [10] /\ at_addr s' 10 p' /\ dest p' = 2 ^ 48 - 1 /\ size p' = 22 /\
    slice 17 5 (buffer p') = ex_m.
Proof.
  split; [vm_compute; discriminate|].
  apply (encrypted_flood_repeated_in_clear (H := gea_ns) (H0 := hop_count) (H1 := merge_std_sort) (H2 := toy_aes) (H3 := ex_basic)
    ltac:(done) tap_station 10 0 ex_sealed (ex_unit 1) (ex_unit 2) ex_hd ex_m (replicate 4042 0)).
  - constructor; try reflexivity. cbn. unfold QUEUE_LENGTH. lia.
  - reflexivity.
  - constructor; try reflexivity.
    + split; [vm_compute; reflexivity|]. unfold is_byte. apply (bool_decide_unpack _). vm_compute. done.
    + by split; [|apply Forall_replicate].
    + cbn. lia.
    + apply (bool_decide_unpack _). vm_compute. done.
  - vm_compute. reflexivity.
  - vm_compute. discriminate.
  - vm_compute. reflexivity.
  - vm_compute. split; [discriminate|reflexivity].
  - vm_compute. reflexivity.
Defined.
