(* ===== verification/StationThms.v ===== *)
(** * The station announces itself

    The beacon timer and the beacons a station sends ([AwdsRouting::send_beacon]
    with [calcMpr], [Beacon::setNeigh] and the send queue). *)

From Stdlib Require Import Ascii String.
From S2P Require Import Prelude Bytes NodeId Isqrt FloodHist Ccm CcmThms CryptoUnit Names Filter Topology RoutesThms SendQueue Neighbors NeighborThms TopoThms Metrics Packet Routing Station RoutingThms DeliveryThms.

(** ** The loop that looks for the next time *)

Record next_time (next period now n : Z) : Prop := {
  nt_future : now < n;
  nt_grid : exists k, 0 <= k /\ n = next + k * period;
  nt_first : now < next -> n = next;
  nt_soon : next <= now -> n <= now + period;
}.

Lemma next_loop_ok fuel next period now :
  0 < period -> (Z.to_nat (now - next) < fuel)%nat ->
  exists n, next_loop fuel next period now = Ok n /\ next_time next period now n.
Proof.
  intros Hp. revert next. induction fuel as [|fuel IH]; intros next Hf; [lia|]. cbn [next_loop].
  destruct (Z.ltb_spec now next).
  - exists next. split; [done|]. split; [done| |done|lia]. exists 0. lia.
  - assert (exists n, next_loop fuel (next + period) period now = Ok n /\ next_time (next + period) period now n) as (n & E & [H1 (k & Hk & ->) H3 H4]).
    { destruct fuel; [|apply IH; lia]. cbn [next_loop]. rewrite (proj2 (Z.ltb_lt now _)) by lia.
      exists (next + period). split; [done|]. split; [lia|exists 0; lia|done|lia]. }
    exists (next + period + k * period). split; [done|]. split; [done|exists (k + 1); lia|lia|].
    intros _. destruct (Z.lt_ge_cases now (next + period)) as [Hl|Hl]; [|by apply H4]. rewrite (H3 Hl). lia.
Qed.

Lemma next_loop_diverges fuel next period now :
  period <= 0 -> next <= now -> next_loop fuel next period now = Fail OutOfFuel.
Proof.
  intros Hp. revert next. induction fuel as [|fuel IH]; intros next Hn; cbn [next_loop];
    rewrite (proj2 (Z.ltb_ge now next)) by done; [done|]. apply IH. lia.
Qed.

(** ** What the fields of a beacon depend on *)

Lemma neigh_at_ext m buf buf' :
  0 <= m -> length buf = length buf' -> bytes buf -> bytes buf' -> drop 13 buf = drop 13 buf' -> neigh_at m buf = neigh_at m buf'.
Proof.
  intros Hm Hl Hb Hb' Hd. unfold neigh_at. rewrite Hl. destruct (_ && _) eqn:C; [|done]. f_equal.
  change (Z.of_nat Beacon.OffsetLNeigh) with 13 in *. apply andb_true_iff in C as [_ C%Z.leb_le].
  rewrite !AbstractID6.id6_fromArray_spec by (done || lia). f_equal. unfold slice.
  replace (Z.to_nat (13 + m * 6)) with (13 + Z.to_nat (m * 6))%nat by lia. by rewrite <- !drop_drop, Hd.
Qed.

Lemma binsearch_ext fuel a b x buf buf' :
  0 <= a <= b -> length buf = length buf' -> bytes buf -> bytes buf' -> drop 13 buf = drop 13 buf' ->
  hasNeighBinsearch fuel a b x buf = hasNeighBinsearch fuel a b x buf'.
Proof.
  intros Hab Hl Hb Hb' Hd. revert a b Hab. induction fuel as [|fuel IH]; intros a b Hab; cbn [hasNeighBinsearch]; [done|].
  destruct (Z.eqb_spec a b); [done|].
  assert (a <= Z.quot (a + b) 2 < b) as Hm.
  { rewrite Z.quot_div_nonneg by lia. split; [apply Z.div_le_lower_bound|apply Z.div_lt_upper_bound]; lia. }
  rewrite (neigh_at_ext _ buf buf') by (done || lia). destruct (neigh_at _ _); [|done]. rewrite !outcome_ret_bind.
  destruct (_ =? x); [done|]. destruct (_ <? x); apply IH; lia.
Qed.

Lemma get_byte_drop k p p' off : drop k (buffer p) = drop k (buffer p') -> (k <= off)%nat -> get_byte off p = get_byte off p'.
Proof.
  intros Hd Ho. unfold get_byte, byte_at. f_equal. replace off with (k + (off - k))%nat by lia. by rewrite <- !lookup_drop, Hd.
Qed.

(** The lists of a beacon start with the counters. *)
Lemma hasNeigh_ext p p' x :
  wf_packet p -> wf_packet p' -> sane p -> drop 11 (buffer p) = drop 11 (buffer p') -> hasNeigh x p = hasNeigh x p'.
Proof.
  intros [Hl Hb] [Hl' Hb'] [S1 S2] Hd. unfold hasNeigh, hasMpr, hasNoMpr.
  assert (Beacon.getNumMpr p' = Beacon.getNumMpr p) as -> by (unfold Beacon.getNumMpr; f_equal; symmetry; apply (get_byte_drop 11); [done|inside_tac]).
  assert (Beacon.getNumNoMpr p' = Beacon.getNumNoMpr p) as -> by (unfold Beacon.getNumNoMpr; f_equal; symmetry; apply (get_byte_drop 11); [done|inside_tac]).
  assert (drop 13 (buffer p) = drop 13 (buffer p')) as Hd13 by (change 13%nat with (11 + 2)%nat; by rewrite <- !drop_drop, Hd).
  assert (length (buffer p) = length (buffer p')) as Hll by congruence.
  rewrite (binsearch_ext _ 0 _ _ (buffer p) (buffer p')) by (done || lia).
  by rewrite (binsearch_ext _ _ (_ + _) _ (buffer p) (buffer p')) by (done || lia).
Qed.

(** [setNeigh] writes behind the header. *)
Lemma setNeigh_frame ns p p' :
  wf_packet p -> (length ns <= MaxNeighbors)%nat -> setNeigh ns p = Ok p' ->
  take 11 (buffer p') = take 11 (buffer p) /\ refcount p' = refcount p /\ cb p' = cb p /\ dest p' = dest p.
Proof.
  intros [Hl _] Hn. pose proof (sel_ids_split ns) as Hsp. unfold MaxNeighbors in Hn. change MaxSize with 4096%nat in Hl.
  unfold setNeigh. fold mpr_sel nompr_sel. change Beacon.OffsetLNeigh with 13%nat.
  rewrite put_neigh_ok by lia. rewrite outcome_ret_bind. set (b1 := splice _ _ _).
  assert (length b1 = 4096%nat) as Hl1 by (unfold b1; rewrite splice_length; rewrite ?enc_ids_length; lia).
  rewrite put_neigh_ok by lia. rewrite outcome_ret_bind. set (b2 := splice _ _ b1).
  intros [= <-]. split; [|done]. apply list_eq. intros i. destruct (decide (i < 11)%nat); [|by rewrite !lookup_take_ge by lia].
  rewrite !lookup_take_lt by done. cbn [buffer set_size Beacon.setNumNoMpr Beacon.setNumMpr set_byte upd set_buffer].
  change Beacon.OffsetNumNoMpr with 11%nat. change Beacon.OffsetNumMpr with 12%nat.
  rewrite !list_lookup_insert_ne by lia. unfold b2. rewrite splice_lookup by (rewrite enc_ids_length; lia).
  case_decide; [lia|]. unfold b1. rewrite splice_lookup by (rewrite enc_ids_length; lia). case_decide; [lia|done].
Qed.

(** ** Relays *)

Lemma calc_mpr_loop_ok ns acc s :
  (forall d, d ∈ ns -> exists q b, lastBeacon d = Some q /\ packets s !! q = Some b /\ beacon_ok b) ->
  calc_mpr_loop ns acc s = Ok (reverse acc ++ (set_mpr true <$> ns), s).
Proof.
  revert acc. induction ns as [|d ns IH]; intros acc Hb; cbn [calc_mpr_loop].
  { by rewrite app_nil_r. }
  destruct (Hb d (list_elem_of_here _ _)) as (q & b & Hq & Hp & Hok). unfold last_beacon.
  erewrite M_bind_ok by (rewrite Hq; erewrite M_bind_ok by (by apply lift_ok); by apply as_beacon_ok).
  mprim. rewrite IH by (intros e He; apply Hb; by right). cbn [fmap list_fmap]. rewrite reverse_cons, <- app_assoc. done.
Qed.

Definition relays (s : nstate) : nstate :=
  set_neighbors (set_mpr true <$> neighbors s) (set_hop2list (stat2dyn (hop2list s)) s).

Lemma calcMpr_ok leak s : table_inv leak s -> calcMpr s = Ok (tt, relays s) /\ table_inv leak (relays s).
Proof.
  intros [Hs Hl (ls & HF & Hc)].
  assert (id <$> (set_mpr true <$> neighbors s) = id <$> neighbors s) as Hid by (rewrite <- list_fmap_compose; done).
  split.
  - unfold calcMpr. mprim. mprim. cbn [neighbors set_hop2list]. erewrite M_bind_ok; [reflexivity|].
    rewrite calc_mpr_loop_ok; [done|]. intros d Hd. apply list_elem_of_lookup in Hd as [i Hi].
    destruct (Forall2_lookup_l _ _ _ _ _ HF Hi) as (l & _ & q & b & Hq & Hb & Hok & _). by exists q, b.
  - split; [cbn; by rewrite Hid|cbn; by rewrite length_fmap|]. exists ls. split.
    + cbn. apply Forall2_fmap_l. eapply Forall2_impl; [exact HF|]. done.
    + intros i. specialize (Hc i). cbn. unfold stat2dyn. rewrite lookup_fmap. by destruct (hop2list s !! i).
Qed.

(** ** The packet *)

Definition fSeq := mkField SrcPacket.OffsetSeq 2 SrcPacket.getSeq SrcPacket.setSeq (wrap 16).
Definition fPeriod := mkField Beacon.OffsetPeriod 2 Beacon.getPeriod_ms (fun ms => upd (toArray 2 (u16 ms) Beacon.OffsetPeriod)) (wrap 16).

Lemma fSrc_law : field_law fSrc.
Proof. exact (Forall_lookup_1 _ _ 0%nat _ src_fields_law eq_refl). Qed.
Lemma fSeq_law : field_law fSeq.
Proof. exact (Forall_lookup_1 _ _ 1%nat _ src_fields_law eq_refl). Qed.
Lemma fPeriod_law : field_law fPeriod.
Proof. apply int_field_law; [inside_tac|done..]. Qed.

Definition blank (me : NodeId) : BasePacket := SrcPacket.setSrc me (Beacon.mk BasePacket_new).

Lemma blank_ok me : wf_packet (blank me) /\ get_byte 0 (blank me) = PacketType_num PacketTypeBeacon /\
  SrcPacket.getSrc (blank me) = wrap 48 me /\ refcount (blank me) = 1 /\ cb (blank me) = None.
Proof.
  set (p := Beacon.mk BasePacket_new). change (blank me) with (fset fSrc me p).
  assert (wf_packet p) as Hp by (apply set_byte_wf; [apply BasePacket_new_wf|apply MaxSize_pos]).
  assert (get_byte 0 p = PacketType_num PacketTypeBeacon) as Hb0 by (vm_compute; reflexivity).
  assert (refcount p = 1 /\ cb p = None) as [Hrc Hcb] by done.
  assert (same_rest 7 p (fset fSrc me p)) as [Hw _ H0 _ Hr Hc]
    by (apply field_same_rest; [apply fSrc_law|done|inside_tac..]).
  pose proof (fl_get_set fSrc fSrc_law me p Hp) as Hg. revert Hw H0 Hr Hc Hg. generalize (fset fSrc me p). intros p' Hw H0 Hr Hc Hg.
  split_and!; [done|congruence|exact Hg|congruence..].
Qed.

Record beacon_for (me seq period : Z) (ns : list NodeDescr) (p : BasePacket) : Prop := {
  bf_wf : beacon_ok p;
  bf_src : SrcPacket.getSrc p = me;
  bf_seq : SrcPacket.getSeq p = seq;
  bf_period : Beacon.getPeriod_ms p = period;
  bf_lists : forall i, hasNeigh i p = Ok (bool_decide (i ∈ sel_ids isGood ns));
}.

Lemma beacon_for_ext me seq period ns p p' : buffer p' = buffer p -> beacon_for me seq period ns p -> beacon_for me seq period ns p'.
Proof.
  intros E [[[Hl Hb] T] B1 B2 B3 B4].
  assert (forall off, get_byte off p' = get_byte off p) as Eb by (intros off; unfold get_byte; by rewrite E).
  constructor.
  - split; [split; by rewrite E|]. unfold getType. by rewrite Eb.
  - unfold SrcPacket.getSrc. by rewrite E.
  - unfold SrcPacket.getSeq. by rewrite E.
  - unfold Beacon.getPeriod_ms. by rewrite E.
  - intros i. rewrite <- B4. unfold hasNeigh, hasMpr, hasNoMpr, Beacon.getNumMpr, Beacon.getNumNoMpr. by rewrite !Eb, E.
Qed.

Lemma field_prefix f p p' n :
  field_law f -> wf_packet p -> wf_packet p' -> (foff f + flen f <= n)%nat -> take n (buffer p') = take n (buffer p) -> fget f p' = fget f p.
Proof.
  intros Lf Hp Hp' Hn Ht. apply (fl_get f Lf); [done..|]. apply list_eq. intros i.
  destruct (decide (i < flen f)%nat); [|unfold slice; by rewrite !lookup_take_ge by lia]. rewrite !slice_lookup by done.
  by rewrite <- (lookup_take_lt (buffer p) n), <- (lookup_take_lt (buffer p') n), Ht by lia.
Qed.

Lemma announced me seq ms ns p :
  in_width 48 me -> in_width 16 seq ->
  (length ns <= MaxNeighbors)%nat -> Forall (in_width 48) (id <$> ns) -> sorted_ids (id <$> ns) ->
  setNeigh ns (blank me) = Ok p ->
  let p' := fset fPeriod ms (fset fSeq seq p) in
  beacon_for me seq (u16 ms) ns p' /\ refcount p' = 1 /\ cb p' = None.
Proof.
  intros Hme Hseq Hn Hw Hs E. destruct (blank_ok me) as (Wb & B0 & Bs & Br & Bc).
  destruct (setNeigh_frame ns _ _ Wb Hn E) as (Ht & Hr & Hc & _).
  destruct (setNeigh_lists ns _ Wb Hn Hw Hs) as (p1 & E1 & Wp & Hlist). rewrite E in E1. injection E1 as <-.
  destruct (setNeigh_ok ns _ Wb Hn Hw) as (p1 & E1 & _ & Hn1 & Hn2 & _). rewrite E in E1. injection E1 as <-.
  assert (sane p) as Hsane by (split; lia). clear Hn1 Hn2.
  pose proof (field_prefix fSrc _ _ 11 fSrc_law Wb Wp ltac:(inside_tac) Ht) as Hsrc.
  assert (get_byte 0 p = get_byte 0 (blank me)) as H0.
  { unfold get_byte, byte_at. f_equal. rewrite <- (lookup_take_lt _ 11), Ht, lookup_take_lt by lia. done. }
  pose proof (field_set_wf fSeq seq p fSeq_law Wp) as W1.
  assert (same_rest 11 p (fset fPeriod ms (fset fSeq seq p))) as [W2 Hd Hb0 _ Hr2 Hc2].
  { eapply same_rest_trans; apply field_same_rest; try done; first [apply fSeq_law|apply fPeriod_law|inside_tac]. }
  assert (disjoint_fields fSrc fPeriod /\ disjoint_fields fSrc fSeq /\ disjoint_fields fSeq fPeriod) as (D1 & D2 & D3)
    by (split_and!; apply disjoint_b_sound; vm_compute; reflexivity).
  pose proof (field_frame fSrc fPeriod ms _ fSrc_law fPeriod_law D1 W1) as G1.
  rewrite (field_frame fSrc fSeq seq p fSrc_law fSeq_law D2 Wp), Hsrc in G1.
  pose proof (field_frame fSeq fPeriod ms _ fSeq_law fPeriod_law D3 W1) as G2.
  rewrite (fl_get_set fSeq fSeq_law seq p Wp) in G2.
  pose proof (fl_get_set fPeriod fPeriod_law ms _ W1) as G3.
  revert G1 G2 G3 W2 Hd Hb0 Hr2 Hc2. generalize (fset fPeriod ms (fset fSeq seq p)).
  unfold fSrc, fSeq, fPeriod. cbn [fget ftrunc]. intros p' G1 G2 G3 W2 Hd Hb0 Hr2 Hc2. cbv zeta.
  split; [|split; congruence]. constructor.
  - split; [done|]. unfold getType. by rewrite Hb0, H0, B0.
  - rewrite G1, Bs. by apply wrap_id.
  - rewrite G2. by apply wrap_id.
  - exact G3.
  - intros i. rewrite <- (hasNeigh_ext p p') by done. apply Hlist.
Qed.

(** ** Sending a beacon *)

Lemma table_inv_store leak s q p :
  table_inv leak s -> Forall (fun d => lastBeacon d <> Some q) (neighbors s) -> table_inv leak (set_packets (<[q := p]> (packets s)) s).
Proof.
  intros [Hs Hl (ls & HF & Hc)] Hn. split; [done..|]. exists ls. split; [|done].
  eapply descs_frame; [exact HF|]. intros d x Hd Hx. cbn. rewrite lookup_insert_ne; [done|].
  intros <-. by apply (proj1 (Forall_forall _ _) Hn) in Hd.
Qed.

Lemma table_ids leak s : table_inv leak s -> Forall (in_width 48) (id <$> neighbors s).
Proof.
  intros [_ _ (ls & HF & _)]. apply Forall_fmap, Forall_forall. intros d Hd. apply list_elem_of_lookup in Hd as [i Hi].
  destruct (Forall2_lookup_l _ _ _ _ _ HF Hi) as (l & _ & q & b & _ & _ & [[Hl Hb] _] & _ & Hid & _). unfold compose. rewrite <- Hid.
  unfold SrcPacket.getSrc. pose proof (AbstractID6.fromArray_wf SrcPacket.OffsetSrc (buffer b)) as Hw. revert Hw.
  generalize (AbstractID6.fromArray SrcPacket.OffsetSrc (buffer b)). intros v Hw. apply Hw; [rewrite Hl; inside_tac|done].
Qed.

Lemma table_fresh leak s q : table_inv leak s -> packets s !! q = None -> Forall (fun d => lastBeacon d <> Some q) (neighbors s).
Proof.
  intros [_ _ (ls & HF & _)] Hq. apply Forall_forall. intros d Hd E. apply list_elem_of_lookup in Hd as [i Hi].
  destruct (Forall2_lookup_l _ _ _ _ _ HF Hi) as (l & _ & x & b & Hx & Hb & _). congruence.
Qed.

Section beacon.
Context `{Gea, Metric, LinkMeter, StdSort, AES, Basic} {U : Type} `{!Handlers U}.

Lemma on_table_step {A} (m : N A) (s : AwdsRouting U) a t :
  m (table s) = Ok (a, t) -> on_table m s = Ok (a, set_net (mkIface t (sendQueue (net s))) s).
Proof. intros E. unfold on_table, on_net, on_heap, zoom. unfold table in E. rewrite E. done. Qed.

(** What a station needs to send its beacon, and what it then has done. *)
Record beacon_ready (leak : NodeId -> Z) (s : AwdsRouting U) : Prop := {
  br_table : table_inv leak (table s);
  br_crypto : cryptoUnit s = None;
  br_fresh : packets (table s) !! newAddr (counters s) = None;
  br_me : in_width 48 (Topology.myNodeId (topology s));
  br_seq : in_width 16 (beaconSeq (counters s));
  br_period : 0 < beaconPeriod (periods s);
}.

Record beacon_sent (leak : NodeId -> Z) (now : Z) (s s' : AwdsRouting U) (q : Z) (p : BasePacket) : Prop := {
  bs_queue : queue (sendQueue (net s')) = q :: queue (sendQueue (net s));
  bs_packet : at_addr s' q p;
  bs_owned : refcount p = 1;
  bs_dest : dest p = BroadcastId;
  bs_content : beacon_for (Topology.myNodeId (topology s)) (beaconSeq (counters s))
    (u16 (Z.quot (nanosecs (beaconPeriod (periods s))) 1000000)) (neighbors (table s)) p;
  bs_table : table_inv leak (table s') /\ (id <$> neighbors (table s')) = (id <$> neighbors (table s));
  bs_seq : beaconSeq (counters s') = u16 (beaconSeq (counters s) + 1);
  bs_next : next_time (nextBeacon (periods s)) (beaconPeriod (periods s)) now (nextBeacon (periods s'));
  bs_timer : beaconBlocker (periods s') = Some (nextBeacon (periods s'));
}.

Lemma send_beacon_ok leak now s :
  beacon_ready leak s -> exists s' p, send_beacon now s = Ok (tt, s') /\ beacon_sent leak now s s' (newAddr (counters s)) p.
Proof.
  intros [Ht Hcu Hfr Hme Hsq Hper]. set (q := newAddr (counters s)) in *.
  destruct (calcMpr_ok _ _ Ht) as [Ec Ht1]. unfold send_beacon.
  erewrite M_bind_ok by (by apply on_table_step). set (s1 := set_net _ s).
  assert (new_packet s1 = Ok (q, set_counters (mkCounters (beaconSeq (counters s)) (floodSeq (counters s)) (unicastSeq (counters s)) (q + 1)) (put q BasePacket_new s1)))
    as En by reflexivity.
  erewrite M_bind_ok by exact En. set (s2 := set_counters _ _). mprim.
  change (Topology.myNodeId (topology s2)) with (Topology.myNodeId (topology s)). set (me := Topology.myNodeId (topology s)) in *.
  assert (at_addr s2 q BasePacket_new) as A2 by exact (at_put q BasePacket_new s1).
  erewrite M_bind_ok by (by apply upd_packet_ok). cbv beta. change (SrcPacket.setSrc me (Beacon.mk BasePacket_new)) with (blank me). mprim.
  set (s3 := put q (blank me) s2). change (neighbors (table s3)) with (neighbors (relays (table s))). set (ns := neighbors (relays (table s))).
  assert (id <$> ns = id <$> neighbors (table s)) as Hid by (unfold ns, relays; cbn; by rewrite <- list_fmap_compose).
  destruct (setNeigh_lists ns (blank me)) as (p1 & E1 & _); [apply blank_ok|apply Ht1|by apply (table_ids leak)|apply Ht1|].
  erewrite M_bind_ok by (apply lift_ok; exact E1). erewrite M_bind_ok by apply store_ok.
  set (s4 := put q p1 s3). set (c4 := mkCounters (u16_inc (beaconSeq (counters s))) (floodSeq (counters s)) (unicastSeq (counters s)) (q + 1)).
  assert (next_beaconSeq s4 = Ok (beaconSeq (counters s), set_counters c4 s4)) as En4 by reflexivity.
  erewrite M_bind_ok by exact En4. mprim. set (s5 := set_counters c4 s4).
  change (periods s5) with (periods s).
  assert (at_addr s5 q p1) as A5 by exact (at_put q p1 s3).
  erewrite M_bind_ok by (by apply upd_packet_ok). cbv beta.
  destruct (announced me (beaconSeq (counters s)) (Z.quot (nanosecs (beaconPeriod (periods s))) 1000000) ns p1) as (Hbf & Hrc & Hcb);
    [done|done|apply Ht1|by apply (table_ids leak)|apply Ht1|exact E1|].
  match goal with |- context [put q (setDest BroadcastId ?x) s5] => change x with
    (fset fPeriod (Z.quot (nanosecs (beaconPeriod (periods s))) 1000000) (fset fSeq (beaconSeq (counters s)) p1)) end.
  revert Hbf Hrc Hcb. generalize (fset fPeriod (Z.quot (nanosecs (beaconPeriod (periods s))) 1000000) (fset fSeq (beaconSeq (counters s)) p1)).
  intros p2 Hbf Hrc Hcb. set (pd := setDest BroadcastId p2). set (s6 := put q pd s5).
  assert (sign_packet q None s6 = Ok (tt, s6)) as Es.
  { unfold sign_packet. mprim. change (cryptoUnit s6) with (cryptoUnit s). by rewrite Hcu. }
  erewrite M_bind_ok by exact Es.
  assert (at_addr s6 q pd) as A6 by exact (at_put q pd s5).
  erewrite M_bind_ok by (rewrite (send_ok q pd true now s6 A6); reflexivity).
  set (s7 := enqueued q true now pd s6). set (pr := set_refcount (refcount pd + 1) pd).
  assert (at_addr s7 q pr) as A7 by apply at_enqueued.
  assert (refcount pr = 2) as Hr2 by (change (refcount pr) with (refcount p2 + 1); lia).
  erewrite M_bind_ok by (apply (unref_ok q pr s7 A7); lia). rewrite Hr2. change (2 =? 1) with false. cbv iota.
  set (pf := set_refcount (2 - 1) pr). set (s9 := put q pf s7). mprim. change (periods s9) with (periods s).
  destruct (next_loop_ok (next_fuel (nextBeacon (periods s)) now) (nextBeacon (periods s)) (beaconPeriod (periods s)) now) as (n & E9 & Hnt);
    [done|unfold next_fuel; lia|].
  erewrite M_bind_ok by (apply lift_ok; exact E9).
  eexists _, pf. split; [reflexivity|].
  assert (sel_ids isGood ns = sel_ids isGood (neighbors (table s))) as Hsel.
  { unfold ns, relays, sel_ids. cbn. clear. induction (neighbors (table s)) as [|d l IH]; [done|]. cbn [fmap list_fmap].
    rewrite !filter_cons. change (isGood (set_mpr true d)) with (isGood d). case_decide; cbn [fmap list_fmap]; by rewrite IH. }
  constructor; try done.
  - exact (at_put q pf s7).
  - eapply beacon_for_ext; [|destruct Hbf as [B0 B1 B2 B3 B4]; constructor; [exact B0|exact B1|exact B2|exact B3|]].
    + done.
    + intros i. by rewrite <- Hsel.
  - split; [|exact Hid].
    assert (table s9 = set_packets (<[q := pf]> (packets (relays (table s)))) (relays (table s))) as E.
    { unfold s9, s7, enqueued, s6, s5, s4, s3, s2, put, set_packets, table. cbn. by rewrite !insert_insert_eq. }
    change (table_inv leak (table s9)). rewrite E. apply table_inv_store; [done|]. by apply (table_fresh leak).
Qed.


End beacon.

Definition beacon_station : AwdsRouting inbox :=
  mkRouting inbox (mkIface (empty_table ∅) (mkQ [] None [])) (topology (station3 1)) (replicate 32 0)
    (FloodHistory_new []) None None
    (mkPeriods 1000 Constant 1400000000 5 None None) (mkCounters 41 0 0 1) (mkRegisters ∅ ∅ ∅ ∅) [].


