(* ===== verification/Shell.v ===== *)
(** * Shell: the command shell

    [shell.cc], [awds/ext/Shell.h]: clients that are connected over TCP, their
    line buffers, the splitting of lines into arguments and the table of commands.

    A C string is the list of its characters.  A function pointer is a number; what
    a command of another module does is the class [Commands]: its result, its
    output, whether it blocks the client, and its effect on the daemon [W].  The
    table of commands is the list of its entries in the order of [std::map].
    Creation of the socket, [accept] and [shutdown] are calls of the operating
    system; their results are arguments. *)

From Stdlib Require Import Ascii String.
From S2P Require Import Prelude Bytes NodeId Packet Topology Names.

Definition CMD_BUF_MAX : nat := 1024.
Definition CMD_PARAM_MAX : nat := 128.
(** [CMD_IFS]: space, tabulator, carriage return, newline *)
Definition is_ifs (c : Z) : bool := bool_decide (c ∈ [32; 9; 13; 10]).

Inductive ClientState := CS_Idle | CS_Blocked.
#[export] Instance ClientState_eq_dec : EqDecision ClientState.
Proof. solve_decision. Defined.

Record ShellCommand := mkCommand { command : Z; cmd_data : Z; desc : list Z; cmd_help : option (list Z) }.

Record TcpShellClient := mkClient {
  cmd_buf : list Z;             (* [CMD_BUF_MAX] cells *)
  cmd_buf_len : nat;
  state : ClientState;
  client_waits : option Z;      (* the time [read_client_data] waits for *)
  sockout : list (list Z);      (* what was written, newest first *)
}.

Record TcpShell {W : Type} := mkShell {
  commands : list (list Z * ShellCommand);
  clients : gmap Z TcpShellClient;
  daemon : W;
}.
Arguments TcpShell W : clear implicits.

Definition set_buf v n c := mkClient v n (state c) (client_waits c) (sockout c).
Definition set_state v c := mkClient (cmd_buf c) (cmd_buf_len c) v (client_waits c) (sockout c).
Definition set_waits v c := mkClient (cmd_buf c) (cmd_buf_len c) (state c) v (sockout c).
Definition add_out v c := mkClient (cmd_buf c) (cmd_buf_len c) (state c) (client_waits c) (v :: sockout c).

(** What the function [fn] of a module does with its [data] and [argv]. *)
Class Commands (W : Type) := {
  run_command : forall (fn data : Z) (argv : list (list Z)), W -> outcome (Z * list Z * bool * W) }.

(** The commands of the shell itself. *)
Definition fn_help : Z := 1.
Definition fn_exit : Z := 2.

(** ** Splitting a line *)

(** [strtok_r]: the next token and the rest of the string. *)
Fixpoint skip_ifs (l : list Z) : list Z :=
  match l with c :: l' => if is_ifs c then skip_ifs l' else l | [] => [] end.
Fixpoint take_token (l : list Z) : list Z * list Z :=
  match l with
  | [] => ([], [])
  | c :: l => if is_ifs c then ([], l) else let '(t, r) := take_token l in (c :: t, r)
  end.
Definition strtok_r (l : list Z) : option (list Z * list Z) :=
  match skip_ifs l with [] => None | l => Some (take_token l) end.

(** [argv]: at most [n] tokens. *)
Fixpoint args_loop (n : nat) (l : list Z) : list (list Z) :=
  match n with
  | O => []
  | S n => match strtok_r l with None => [] | Some (t, r) => t :: args_loop n r end
  end.

(** The order of [std::string]. *)
Fixpoint str_compare (a b : list Z) : comparison :=
  match a, b with
  | [], [] => Eq
  | [], _ => Lt
  | _, [] => Gt
  | x :: a, y :: b => match x ?= y with Eq => str_compare a b | c => c end
  end.

Fixpoint cmd_insert (name : list Z) (c : ShellCommand) (l : list (list Z * ShellCommand)) : list (list Z * ShellCommand) :=
  match l with
  | [] => [(name, c)]
  | (k, d) :: l' =>
      match str_compare name k with
      | Lt => (name, c) :: l
      | Eq => (name, c) :: l'
      | Gt => (k, d) :: cmd_insert name c l'
      end
  end.

Fixpoint cmd_find (name : list Z) (l : list (list Z * ShellCommand)) : option ShellCommand :=
  match l with
  | [] => None
  | (k, d) :: l => if bool_decide (k = name) then Some d else cmd_find name l
  end.

(** [memchr]: the position of [c]. *)
Fixpoint memchr (c : Z) (l : list Z) : option nat :=
  match l with [] => None | x :: l => if x =? c then Some O else S <$> memchr c l end.

Section shell.
Context `{Gea} {W : Type} `{!Commands W}.
Abbreviation SH := (M (TcpShell W)).

Definition get_client (fd : Z) : SH TcpShellClient :=
  cs ← gets clients; lift (of_option UseAfterFree (cs !! fd)).
Definition put_client (fd : Z) (c : TcpShellClient) : SH unit :=
  modify (fun s => mkShell W (commands s) (<[fd := c]> (clients s)) (daemon s)).
Definition on_client (fd : Z) (f : TcpShellClient -> TcpShellClient) : SH unit :=
  c ← get_client fd; put_client fd (f c).

Definition add_command (name : list Z) (fn data : Z) (descr : list Z) (help : option (list Z)) : SH unit :=
  modify (fun s => mkShell W (cmd_insert name (mkCommand fn data descr help) (commands s)) (clients s) (daemon s)).
Definition get_command (name : list Z) : SH (option ShellCommand) := gets (fun s => cmd_find name (commands s)).

Definition prompt (fd : Z) (wait : bool) (now : Z) : SH unit :=
  on_client fd (add_out (str "# "%string));;
  if wait then on_client fd (set_waits (Some (now + duration 120 1))) else mret tt.

Definition block (fd : Z) : SH unit :=
  c ← get_client fd;
  lift (cassert (bool_decide (state c = CS_Idle)));;
  put_client fd (set_state CS_Blocked c).
Definition unblock (fd now : Z) : SH unit :=
  c ← get_client fd;
  lift (cassert (bool_decide (state c = CS_Blocked)));;
  put_client fd (set_state CS_Idle c);;
  prompt fd true now.

(** ** Commands of the shell *)

Definition help_entry (name : list Z) (c : ShellCommand) : list Z := name ++ [9; 45; 32] ++ desc c ++ [10].

Definition help (fd : Z) (argv : list (list Z)) : SH Z :=
  match argv with
  | _ :: name :: _ =>
      scmd ← get_command name;
      match scmd with
      | Some c =>
          on_client fd (add_out (help_entry name c));;
          (match cmd_help c with Some h => on_client fd (add_out (10 :: h ++ [10])) | None => mret tt end);;
          mret 0
      | None =>
          on_client fd (add_out (str "Unknown command '"%string ++ name ++ [39; 33; 10]));; mret 1
      end
  | _ =>
      cs ← gets commands;
      on_client fd (add_out (mjoin ((fun kc => help_entry kc.1 kc.2) <$> cs)));; mret 0
  end.

Definition exit_cmd (fd : Z) : SH Z := on_client fd (add_out (str "Good bye!"%string ++ [10]));; mret 0.

Definition exec (fd : Z) (argv : list (list Z)) : SH Z :=
  match argv with
  | (c :: name) :: _ =>
      sc ← get_command (c :: name);
      match sc with
      | None => on_client fd (add_out (str "Illegal command '"%string ++ (c :: name) ++ str "'! Use 'help'."%string ++ [10]));; mret 0
      | Some sc =>
          if command sc =? 0 then mret 0
          else if command sc =? fn_help then help fd argv
          else if command sc =? fn_exit then exit_cmd fd
          else
            w ← gets daemon;
            r ← lift (run_command (command sc) (cmd_data sc) argv w);
            let '(ret, out, blocks, w) := r : Z * list Z * bool * W in
            modify (fun s => mkShell W (commands s) (clients s) w);;
            on_client fd (add_out out);;
            (if blocks then block fd else mret tt);;
            mret ret
      end
  | _ => mret 0
  end.

Definition parse_command (fd : Z) (buf : list Z) (len : nat) : SH bool :=
  if (len =? 0)%nat || (CMD_BUF_MAX <? len)%nat || bool_decide (is_Some (memchr 0 (take len buf))) then mret false else
  _ ← exec fd (args_loop (CMD_PARAM_MAX - 1) (take len buf));
  mret true.

(** ** Input of a client *)

(** [strtok_r] also clears separators in the cells of the line; they are behind
    the valid part of the buffer after the line was removed. *)
Fixpoint line_loop (fuel : nat) (fd now : Z) : SH unit :=
  c ← get_client fd;
  match memchr 10 (take (cmd_buf_len c) (cmd_buf c)) with
  | None => mret tt
  | Some nlpos =>
      match fuel with
      | O => fail OutOfFuel
      | S fuel =>
          let c := set_buf (<[nlpos := 0]> (cmd_buf c)) (cmd_buf_len c) c in
          put_client fd c;;
          (if (0 <? nlpos)%nat then _ ← parse_command fd (cmd_buf c) nlpos; mret tt else mret tt);;
          c ← get_client fd;
          let rest := (cmd_buf_len c - nlpos - 1)%nat in
          put_client fd (set_buf (splice 0 (slice (nlpos + 1) rest (cmd_buf c)) (cmd_buf c)) rest c);;
          lift (cassert (nlpos + 1 <=? cmd_buf_len c)%nat);;
          (if bool_decide (state c = CS_Idle) then prompt fd false now else mret tt);;
          line_loop fuel fd now
      end
  end.

(** [ret] and [byte] are what [read] returned and stored; the event was due at [t]. *)
Definition read_client_data (fd : Z) (ready : bool) (ret byte t now : Z) : SH unit :=
  on_client fd (set_waits None);;
  c ← get_client fd;
  let again := c ← get_client fd; if bool_decide (state c = CS_Idle) then on_client fd (set_waits (Some (t + duration 1200000 1))) else mret tt in
  if negb ready then again else
  if ret <=? 0 then
    lift (cassert (bool_decide (state c <> CS_Blocked)));;
    modify (fun s => mkShell W (commands s) (delete fd (clients s)) (daemon s))
  else
    (if (cmd_buf_len c <? length (cmd_buf c))%nat then mret tt else fail OutOfBounds);;
    let len := (cmd_buf_len c + 1)%nat in
    let len := if (CMD_BUF_MAX <=? len)%nat then (CMD_BUF_MAX - 1)%nat else len in
    put_client fd (set_buf (<[cmd_buf_len c := byte]> (cmd_buf c)) len c);;
    line_loop len fd now;;
    again.

(** A new connection; [mem] is the content of the new buffer. *)
Definition accept_connection (ready : bool) (fd : Z) (mem : list Z) (now : Z) : SH unit :=
  if negb ready then mret tt else
  put_client fd (mkClient mem 0 CS_Idle None [str "Welcome to localhost!"%string ++ [10]]);;
  prompt fd true now.

(** The results of [setsockopt], [bind] and [listen]; that of [socket] is not looked at. *)
Definition createSocket (setsockopt bind listen : Z) : bool :=
  if negb (setsockopt =? 0) then false else if negb (bind =? 0) then false else listen =? 0.

(** [watch] returns before it does anything; it is not registered. *)
Definition watch (argv : list (list Z)) : Z := 0.

(** The constructor and [GEA_MAIN], for a socket that could be created or not. *)
Definition TcpShell_new (created : bool) (HELP : list Z) (w : W) : TcpShell W :=
  let cs := if created then cmd_insert (str "help"%string) (mkCommand fn_help 0 (str "print the help for a command"%string) (Some HELP)) [] else [] in
  mkShell W (cmd_insert (str "exit"%string) (mkCommand fn_exit 0 (str "close this shell"%string) (Some (str "close the connection of this shell"%string))) cs) ∅ w.

End shell.
