(* ===== verification/ShellThms.v ===== *)
(** * The shell executes the lines it is sent

    The tokens of a line are its words; bytes that arrive one by one are collected
    into lines and every line is executed once; and the buffer is never exceeded,
    at the price that a line that is too long silences the connection. *)

From Stdlib Require Import Ascii String.
From S2P Require Import Prelude Bytes NodeId Packet Topology Names Neighbors NeighborThms Shell.

(** ** Words *)

(** The maximal runs of characters that are no separators. *)
Fixpoint words_from (cur l : list Z) : list (list Z) :=
  match l with
  | [] => if bool_decide (cur = []) then [] else [cur]
  | c :: l =>
      if is_ifs c then (if bool_decide (cur = []) then words_from [] l else cur :: words_from [] l)
      else words_from (cur ++ [c]) l
  end.
Definition words (l : list Z) : list (list Z) := words_from [] l.

Lemma words_skip l : words l = words (skip_ifs l).
Proof. induction l as [|c l IH]; [done|]. cbn [skip_ifs]. destruct (is_ifs c) eqn:E; [|done]. unfold words. cbn [words_from]. by rewrite E. Qed.

Lemma words_token cur l t r : cur <> [] -> take_token l = (t, r) -> words_from cur l = (cur ++ t) :: words r.
Proof.
  revert cur t r. induction l as [|c l IH]; intros cur t r Hc E; cbn [take_token words_from] in *.
  - injection E as <- <-. rewrite bool_decide_eq_false_2, app_nil_r by done. done.
  - destruct (is_ifs c).
    + injection E as <- <-. by rewrite bool_decide_eq_false_2, app_nil_r by done.
    + destruct (take_token l) as [t' r'] eqn:E'. injection E as <- <-.
      rewrite (IH (cur ++ [c]) t' r') by (done || by destruct cur). by rewrite <- app_assoc.
Qed.

Lemma skip_ifs_head l c l' : skip_ifs l = c :: l' -> is_ifs c = false.
Proof. induction l as [|x l IH]; [done|]. cbn. destruct (is_ifs x) eqn:E; [done|]. by intros [= <- _]. Qed.

Lemma args_words n l : args_loop n l = take n (words l).
Proof.
  revert l. induction n as [|n IH]; intros l; [done|]. cbn [args_loop]. unfold strtok_r. rewrite words_skip.
  destruct (skip_ifs l) as [|c l'] eqn:E; [done|]. pose proof (skip_ifs_head _ _ _ E) as Hc.
  destruct (take_token (c :: l')) as [t r] eqn:Et. cbn [take_token] in Et. rewrite Hc in Et.
  destruct (take_token l') as [t' r'] eqn:Et'. injection Et as <- <-.
  unfold words. cbn [words_from]. rewrite Hc. cbn [app]. rewrite (words_token [c] l' t' r') by done. cbn [app take]. by rewrite IH.
Qed.

Lemma words_nonempty l : Forall (fun w => w <> []) (words l).
Proof.
  assert (forall cur, Forall (fun w => w <> []) (words_from cur l)) as Hw; [|apply Hw].
  induction l as [|c l IH]; intros cur; cbn [words_from].
  - case_bool_decide; by repeat constructor.
  - destruct (is_ifs c); [case_bool_decide; [done|by constructor]|apply IH].
Qed.

Lemma memchr_none c l : memchr c l = None <-> c ∉ l.
Proof.
  induction l as [|x l IH]; cbn [memchr]; [set_solver|].
  destruct (Z.eqb_spec x c) as [->|]; [set_solver|]. rewrite not_elem_of_cons, <- IH. destruct (memchr c l); naive_solver.
Qed.

Lemma memchr_app c l l' : c ∉ l -> memchr c (l ++ c :: l') = Some (length l).
Proof.
  induction l as [|x l IH]; intros Hc; cbn [memchr app]; [by rewrite Z.eqb_refl|].
  apply not_elem_of_cons in Hc as [Hx Hc]. destruct (Z.eqb_spec x c); [done|]. by rewrite IH.
Qed.

Section shell.
Context `{Gea} {W : Type} `{!Commands W}.
Implicit Type s : TcpShell W.

(** Commands of other modules come back and do not block. *)
Hypothesis Hrun : forall fn data argv (w : W), exists ret out w', run_command fn data argv w = Ok (ret, out, false, w').

(** What a line means to the daemon. *)
Definition run_argv (cmds : list (list Z * ShellCommand)) (argv : list (list Z)) (w : W) : W :=
  match argv with
  | name :: _ =>
      match cmd_find name cmds with
      | Some sc =>
          if bool_decide (command sc ∈ [0; fn_help; fn_exit]) then w
          else match run_command (command sc) (cmd_data sc) argv w with Ok (_, _, _, w') => w' | Fail _ => w end
      | None => w
      end
  | [] => w
  end.

Definition run_line (cmds : list (list Z * ShellCommand)) (w : W) (line : list Z) : W :=
  if bool_decide (0 ∈ line) then w else run_argv cmds (take (CMD_PARAM_MAX - 1) (words line)) w.

(** The client [fd] has typed [pre] since the last newline. *)
Record typed s (fd : Z) (pre : list Z) (c : TcpShellClient) : Prop := {
  ty_client : clients s !! fd = Some c;
  ty_buf : length (cmd_buf c) = CMD_BUF_MAX;
  ty_len : cmd_buf_len c = length pre;
  ty_pre : take (length pre) (cmd_buf c) = pre;
  ty_idle : state c = CS_Idle;
}.

Definition with_client (fd : Z) (c : TcpShellClient) (w : W) s : TcpShell W := mkShell W (commands s) (<[fd := c]> (clients s)) w.

Lemma get_client_ok fd c s : clients s !! fd = Some c -> get_client fd s = Ok (c, s).
Proof. intros E. unfold get_client. mprim. by rewrite E. Qed.

Lemma on_client_ok fd f c s : clients s !! fd = Some c -> on_client fd f s = Ok (tt, with_client fd (f c) (daemon s) s).
Proof. intros E. unfold on_client. by erewrite M_bind_ok by (by apply get_client_ok). Qed.

Lemma with_client_client fd c w s : clients (with_client fd c w s) !! fd = Some c.
Proof. apply lookup_insert_eq. Qed.

Lemma with_with fd c c' w w' s : with_client fd c' w' (with_client fd c w s) = with_client fd c' w' s.
Proof. unfold with_client. cbn. by rewrite insert_insert_eq. Qed.

(** Output does not change the input side of a client. *)
Definition same_input (c c' : TcpShellClient) : Prop :=
  cmd_buf c' = cmd_buf c /\ cmd_buf_len c' = cmd_buf_len c /\ state c' = state c.

Lemma help_ok fd argv c s : clients s !! fd = Some c ->
  exists r c', help fd argv s = Ok (r, with_client fd c' (daemon s) s) /\ same_input c c'.
Proof.
  intros E. unfold help. destruct argv as [|? [|name ?]].
  1,2: mprim; erewrite M_bind_ok by (by apply on_client_ok); by eexists _, _.
  mprim. destruct (cmd_find name (commands s)) as [sc|].
  - erewrite M_bind_ok by (by apply on_client_ok). destruct (cmd_help sc).
    + erewrite M_bind_ok by (apply on_client_ok, with_client_client). rewrite with_with. by eexists _, _.
    + mprim. by eexists _, _.
  - erewrite M_bind_ok by (by apply on_client_ok). by eexists _, _.
Qed.

Lemma exec_ok fd argv c s :
  clients s !! fd = Some c -> Forall (fun a => a <> []) argv ->
  exists r c', exec fd argv s = Ok (r, with_client fd c' (run_argv (commands s) argv (daemon s)) s) /\ same_input c c'.
Proof.
  intros E Hne. assert (s = with_client fd c (daemon s) s) as Hs by (unfold with_client; rewrite insert_id by done; by destruct s).
  unfold exec, run_argv. destruct argv as [|[|x name] argv]; [|by apply Forall_cons in Hne as [? _]|].
  { eexists _, c. split; [by rewrite Hs at 1|done]. }
  mprim. destruct (cmd_find (x :: name) (commands s)) as [sc|].
  - destruct (Z.eqb_spec (command sc) 0) as [->|N0]; [rewrite bool_decide_eq_true_2 by set_solver; eexists _, c; split; [by rewrite Hs at 1|done]|].
    destruct (Z.eqb_spec (command sc) fn_help) as [->|N1]; [rewrite bool_decide_eq_true_2 by set_solver; by apply help_ok|].
    destruct (Z.eqb_spec (command sc) fn_exit) as [->|N2].
    { rewrite bool_decide_eq_true_2 by set_solver. unfold exit_cmd. erewrite M_bind_ok by (by apply on_client_ok). by eexists _, _. }
    rewrite bool_decide_eq_false_2 by set_solver. mprim.
    destruct (Hrun (command sc) (cmd_data sc) ((x :: name) :: argv) (daemon s)) as (ret & out & w' & Er).
    erewrite M_bind_ok by (by apply lift_ok). rewrite Er. mprim. erewrite M_bind_ok by (by apply on_client_ok). mprim.
    eexists ret, (add_out out c). split; [|done]. done.
  - erewrite M_bind_ok by (by apply on_client_ok). by eexists _, _.
Qed.

(** ** One byte *)

Lemma line_loop_none fuel fd now c s :
  clients s !! fd = Some c -> 10 ∉ take (cmd_buf_len c) (cmd_buf c) -> line_loop fuel fd now s = Ok (tt, s).
Proof.
  intros E Hn. apply memchr_none in Hn. destruct fuel; cbn [line_loop];
    (erewrite M_bind_ok by (by apply get_client_ok)); by rewrite Hn.
Qed.

(** The end of the handler: the client waits again. *)
Lemma again_ok fd t c s :
  clients s !! fd = Some c -> state c = CS_Idle ->
  (c ← get_client fd; if bool_decide (state c = CS_Idle) then on_client fd (set_waits (Some (t + duration 1200000 1))) else mret tt) s =
  Ok (tt, with_client fd (set_waits (Some (t + duration 1200000 1)) c) (daemon s) s).
Proof.
  intros E Hi. erewrite M_bind_ok by (by apply get_client_ok). rewrite bool_decide_eq_true_2 by done. by apply on_client_ok.
Qed.

(** Reading a byte into the buffer; [k] is the rest of the handler. *)
Definition stored (c : TcpShellClient) (byte : Z) : TcpShellClient :=
  set_buf (<[cmd_buf_len c := byte]> (cmd_buf c))
    (if (CMD_BUF_MAX <=? cmd_buf_len c + 1)%nat then (CMD_BUF_MAX - 1)%nat else (cmd_buf_len c + 1)%nat) (set_waits None c).

Lemma read_byte fd byte t now c s s' c' :
  clients s !! fd = Some c -> (cmd_buf_len c < length (cmd_buf c))%nat ->
  line_loop (cmd_buf_len (stored c byte)) fd now (with_client fd (stored c byte) (daemon s) s) = Ok (tt, s') ->
  clients s' !! fd = Some c' -> state c' = CS_Idle ->
  read_client_data fd true 1 byte t now s = Ok (tt, with_client fd (set_waits (Some (t + duration 1200000 1)) c') (daemon s') s').
Proof.
  intros E Hl El Ec Hi. unfold read_client_data. erewrite M_bind_ok by (by apply on_client_ok).
  erewrite M_bind_ok by (apply get_client_ok, with_client_client). cbn [negb]. change (1 <=? 0) with false. cbv iota.
  cbn [cmd_buf cmd_buf_len set_waits]. rewrite (proj2 (Nat.ltb_lt _ _)) by done. mprim.
  erewrite M_bind_ok by reflexivity.
  erewrite M_bind_ok; [by apply again_ok|].
  rewrite <- El. unfold with_client, put_client, stored. cbn. by rewrite insert_insert_eq.
Qed.

Lemma take_insert_snoc (l pre : list Z) x :
  take (length pre) l = pre -> (length pre < length l)%nat -> take (length pre + 1) (<[length pre := x]> l) = pre ++ [x].
Proof.
  intros Ht Hl. rewrite Nat.add_comm. cbn. erewrite take_S_r; [|by apply list_lookup_insert_eq].
  by rewrite take_insert_ge, Ht by lia.
Qed.

Lemma read_char fd byte t now pre c s :
  typed s fd pre c -> 10 ∉ pre -> byte <> 10 -> (length pre < CMD_BUF_MAX - 1)%nat ->
  exists c', read_client_data fd true 1 byte t now s = Ok (tt, with_client fd c' (daemon s) s) /\
    typed (with_client fd c' (daemon s) s) fd (pre ++ [byte]) c'.
Proof.
  intros [Hc Hb Hl Hp Hi] Hn Hx Hlt. unfold CMD_BUF_MAX in *.
  assert (cmd_buf_len (stored c byte) = (length pre + 1)%nat) as Hsl.
  { unfold stored. cbn [cmd_buf_len set_buf]. rewrite Hl. unfold CMD_BUF_MAX. by rewrite (proj2 (Nat.leb_gt _ _)) by lia. }
  assert (take (length pre + 1) (<[length pre := byte]> (cmd_buf c)) = pre ++ [byte]) as Ht by (apply take_insert_snoc; [done|lia]).
  eexists. split.
  - erewrite (read_byte fd byte t now c s _ (stored c byte) Hc); [| |apply (line_loop_none _ _ _ (stored c byte))|..].
    + rewrite with_with. reflexivity.
    + lia.
    + apply with_client_client.
    + rewrite Hsl. cbn [stored cmd_buf set_buf]. rewrite Hl, Ht. set_solver.
    + apply with_client_client.
    + done.
  - split; [apply with_client_client|..]; cbn [cmd_buf cmd_buf_len state set_waits stored set_buf].
    + by rewrite length_insert.
    + rewrite length_app. cbn [length]. exact Hsl.
    + rewrite length_app. cbn [length]. by rewrite Hl.
    + done.
Qed.

Lemma read_full fd byte t now pre c s :
  typed s fd pre c -> 10 ∉ pre -> length pre = (CMD_BUF_MAX - 1)%nat ->
  exists c', read_client_data fd true 1 byte t now s = Ok (tt, with_client fd c' (daemon s) s) /\
    typed (with_client fd c' (daemon s) s) fd pre c'.
Proof.
  intros [Hc Hb Hl Hp Hi] Hn Hlt. unfold CMD_BUF_MAX in *.
  assert (cmd_buf_len (stored c byte) = length pre) as Hsl.
  { unfold stored. cbn [cmd_buf_len set_buf]. rewrite Hl. unfold CMD_BUF_MAX. by rewrite (proj2 (Nat.leb_le _ _)) by lia. }
  assert (take (length pre) (<[length pre := byte]> (cmd_buf c)) = pre) as Ht by (by rewrite take_insert_ge by lia).
  eexists. split.
  - erewrite (read_byte fd byte t now c s _ (stored c byte) Hc); [| |apply (line_loop_none _ _ _ (stored c byte))|..].
    + rewrite with_with. reflexivity.
    + lia.
    + apply with_client_client.
    + rewrite Hsl. cbn [stored cmd_buf set_buf]. by rewrite Hl, Ht.
    + apply with_client_client.
    + done.
  - split; [apply with_client_client|..]; cbn [cmd_buf cmd_buf_len state set_waits stored set_buf].
    + by rewrite length_insert.
    + exact Hsl.
    + by rewrite Hl.
    + done.
Qed.

(** A line is executed, or refused if it contains a 0. *)
Lemma parse_line fd buf pre c s :
  clients s !! fd = Some c -> take (length pre) buf = pre -> (0 < length pre <= CMD_BUF_MAX)%nat ->
  exists b c', parse_command fd buf (length pre) s = Ok (b, with_client fd c' (run_line (commands s) (daemon s) pre) s) /\ same_input c c'.
Proof.
  intros Hc Ht Hl. unfold parse_command, run_line. rewrite Ht.
  rewrite (proj2 (Nat.eqb_neq _ 0)), (proj2 (Nat.ltb_ge _ _)) by lia. cbn [orb].
  destruct (decide (0 ∈ pre)) as [D|D].
  - rewrite !bool_decide_eq_true_2; [|done|].
    + exists false, c. split; [|done]. unfold with_client. rewrite insert_id by done. by destruct s.
    + destruct (memchr 0 pre) eqn:Em; [by eexists|]. by apply memchr_none in Em.
  - rewrite !bool_decide_eq_false_2; [|done|].
    + destruct (exec_ok fd (args_loop (CMD_PARAM_MAX - 1) pre) c s Hc) as (r & c' & Ee & Hs).
      { rewrite args_words. apply Forall_take, words_nonempty. }
      erewrite M_bind_ok by exact Ee. rewrite args_words. by exists true, c'.
    + rewrite (proj2 (memchr_none _ _)) by done. by intros [].
Qed.

Lemma read_newline fd t now pre c s :
  typed s fd pre c -> 10 ∉ pre -> (length pre < CMD_BUF_MAX - 1)%nat ->
  exists c', let w := if bool_decide (pre = []) then daemon s else run_line (commands s) (daemon s) pre in
    read_client_data fd true 1 10 t now s = Ok (tt, with_client fd c' w s) /\ typed (with_client fd c' w s) fd [] c'.
Proof.
  intros [Hc Hb Hl Hp Hi] Hn Hlt. set (w := if bool_decide (pre = []) then _ else _).
  set (c1 := stored c 10). set (n := length pre) in *.
  assert (cmd_buf_len c1 = S n) as H1.
  { unfold c1, stored. cbn [cmd_buf_len set_buf]. rewrite Hl. rewrite (proj2 (Nat.leb_gt _ _)) by lia. lia. }
  assert (cmd_buf c1 = <[n := 10]> (cmd_buf c)) as H2 by (unfold c1, stored; cbn [cmd_buf set_buf]; by rewrite Hl).
  assert (take (S n) (cmd_buf c1) = pre ++ [10]) as Ht.
  { rewrite H2. replace (S n) with (length pre + 1)%nat by (unfold n; lia). apply take_insert_snoc; [done|]. rewrite Hb. lia. }
  set (c2 := set_buf (<[n := 0]> (cmd_buf c1)) (S n) c1).
  assert (take n (cmd_buf c2) = pre) as Ht2.
  { cbn [c2 cmd_buf set_buf]. rewrite take_insert_ge by lia. rewrite H2, take_insert_ge by lia. done. }
  assert (length (cmd_buf c2) = CMD_BUF_MAX) as Hb2 by (cbn [c2 cmd_buf set_buf]; by rewrite length_insert, H2, length_insert).
  set (s2 := with_client fd c2 (daemon s) s).
  assert (exists b c3, (if (0 <? n)%nat then _ ← parse_command fd (cmd_buf c2) n; mret tt else mret tt) s2 = Ok (b, with_client fd c3 w s2) /\ same_input c2 c3)
    as (b & c3 & Ep & S1 & S2 & S3).
  { unfold w. destruct pre as [|x pre'].
    - exists tt, c2. split; [|done]. cbn [n length Nat.ltb Nat.leb]. rewrite bool_decide_eq_true_2 by done. unfold s2. by rewrite with_with.
    - destruct (parse_line fd (cmd_buf c2) (x :: pre') c2 s2) as (b & c3 & E & Hs); [apply with_client_client|exact Ht2|unfold n in *; cbn [length] in *; lia|].
      exists tt, c3. split; [|done]. change (0 <? n)%nat with true. cbv iota. unfold n. erewrite M_bind_ok by exact E.
      rewrite bool_decide_eq_false_2 by done. done. }
  set (c4 := add_out (str "# "%string) (set_buf (splice 0 (slice (n + 1) 0 (cmd_buf c3)) (cmd_buf c3)) 0 c3)).
  assert (line_loop (S n) fd now (with_client fd c1 (daemon s) s) = Ok (tt, with_client fd c4 w s)) as El.
  { cbn [line_loop]. erewrite M_bind_ok by (apply get_client_ok, with_client_client). rewrite H1, Ht, memchr_app by done. fold n.
    erewrite M_bind_ok by reflexivity. fold c2.
    change (mkShell W _ _ _) with (with_client fd c2 (daemon s) (with_client fd c1 (daemon s) s)). rewrite with_with. fold s2.
    erewrite M_bind_ok by exact Ep. erewrite M_bind_ok by (apply get_client_ok, with_client_client).
    rewrite S2. change (cmd_buf_len c2) with (S n). replace (S n - n - 1)%nat with 0%nat by lia.
    erewrite M_bind_ok by reflexivity. rewrite (proj2 (Nat.leb_le (n + 1) (S n))) by lia. mlift.
    rewrite S3. change (state c2) with (state c). rewrite bool_decide_eq_true_2 by done.
    set (c5 := set_buf _ 0 c3). change (mkShell W _ _ _) with (with_client fd c5 w (with_client fd c3 w s2)).
    unfold prompt. erewrite M_bind_ok; cycle 1.
    { erewrite M_bind_ok by (apply on_client_ok, with_client_client). reflexivity. }
    rewrite with_with. unfold s2. rewrite !with_with.
    apply (line_loop_none n fd now c4); [apply with_client_client|]. apply not_elem_of_nil. }
  eexists. cbv zeta. split.
  - erewrite (read_byte fd 10 t now c s _ c4 Hc); [rewrite with_with; reflexivity|rewrite Hl, Hb; lia| |apply with_client_client|].
    + fold c1. rewrite H1. exact El.
    + cbn [c4 add_out set_buf state]. rewrite S3. exact Hi.
  - split; [apply with_client_client|..]; cbn [cmd_buf cmd_buf_len state set_waits c4 add_out set_buf]; try done.
    + rewrite splice_length; [by rewrite S1|]. unfold slice. rewrite take_0. cbn [length]. lia.
    + rewrite S3. exact Hi.
Qed.

(** ** Input *)

(** The bytes of a connection, each with the time its event was due and the time it
    was handled. *)
Fixpoint feed (fd : Z) (input : list (Z * Z * Z)) : M (TcpShell W) unit :=
  match input with
  | [] => mret tt
  | (byte, t, now) :: input => read_client_data fd true 1 byte t now;; feed fd input
  end.

Definition input_bytes (input : list (Z * Z * Z)) : list Z := (fun x => x.1.1) <$> input.

Lemma feed_app fd i1 i2 s s1 : feed fd i1 s = Ok (tt, s1) -> feed fd (i1 ++ i2) s = feed fd i2 s1.
Proof.
  revert s. induction i1 as [|[[byte t] now] i1 IH]; intros s E; cbn [feed app] in *; [by injection E as <-|].
  unfold mbind, M_bind in E |- *. destruct (read_client_data fd true 1 byte t now s) as [[[] s0]|]; [|done]. by apply IH.
Qed.

Lemma no_newline pre byte (l : list Z) : 10 ∉ (pre ++ [byte]) ++ l -> 10 ∉ pre /\ byte <> 10.
Proof. rewrite !not_elem_of_app, not_elem_of_cons. intros [[? [? _]] _]. auto. Qed.

Lemma feed_line fd input t now pre c s :
  typed s fd pre c -> 10 ∉ pre ++ input_bytes input -> (length (pre ++ input_bytes input) < CMD_BUF_MAX - 1)%nat ->
  exists c', let line := pre ++ input_bytes input in
    let w := if bool_decide (line = []) then daemon s else run_line (commands s) (daemon s) line in
    feed fd (input ++ [(10, t, now)]) s = Ok (tt, with_client fd c' w s) /\ typed (with_client fd c' w s) fd [] c'.
Proof.
  revert pre c s. induction input as [|[[byte t0] n0] input IH]; intros pre c s Hty Hn Hl.
  - cbn [input_bytes fmap list_fmap] in *. rewrite app_nil_r in *. destruct (read_newline fd t now pre c s Hty Hn Hl) as (c' & E & Hty').
    exists c'. cbv zeta in *. split; [|done]. cbn [app feed]. by erewrite M_bind_ok by exact E.
  - change (input_bytes ((byte, t0, n0) :: input)) with ([byte] ++ input_bytes input) in *. rewrite app_assoc in *.
    destruct (read_char fd byte t0 n0 pre c s Hty) as (c1 & E1 & Hty1); [by eapply no_newline|by eapply no_newline|rewrite !length_app in Hl; cbn [length] in Hl; lia|].
    destruct (IH _ _ _ Hty1 Hn Hl) as (c' & E & Hty'). exists c'. cbv zeta in *.
    cbn [app feed]. erewrite M_bind_ok by exact E1. change (commands (with_client fd c1 (daemon s) s)) with (commands s) in *.
    change (daemon (with_client fd c1 (daemon s) s)) with (daemon s) in *. rewrite E, !with_with in *. done.
Qed.


(** Lines that fit into the buffer, with the newline at their ends. *)
Definition line_ok (line : list (Z * Z * Z)) : Prop :=
  10 ∉ input_bytes line /\ (length line < CMD_BUF_MAX - 1)%nat.
Definition typed_lines (lines : list (list (Z * Z * Z) * (Z * Z))) : list (Z * Z * Z) :=
  mjoin ((fun l => l.1 ++ [(10, l.2.1, l.2.2)]) <$> lines).

Lemma feed_lines fd lines c s :
  typed s fd [] c -> Forall (fun l => line_ok l.1) lines ->
  exists c', let w := foldl (run_line (commands s)) (daemon s) ((fun l => input_bytes l.1) <$> lines) in
    feed fd (typed_lines lines) s = Ok (tt, with_client fd c' w s) /\ typed (with_client fd c' w s) fd [] c'.
Proof.
  intros Hty Hl. revert c s Hty. induction Hl as [|[line [t now]] lines [Hn Hlen] Hl IH]; intros c s Hty.
  - exists c. cbn. destruct Hty as [Hc ? ? ? ?]. assert (with_client fd c (daemon s) s = s) as ->
      by (unfold with_client; rewrite insert_id by done; by destruct s). by split.
  - destruct (feed_line fd line t now [] c s Hty) as (c1 & E1 & Hty1); [done|cbn [app]; unfold input_bytes; by rewrite length_fmap|].
    cbv zeta in E1, Hty1. cbn [app] in E1, Hty1.
    assert ((if bool_decide (input_bytes line = []) then daemon s else run_line (commands s) (daemon s) (input_bytes line))
      = run_line (commands s) (daemon s) (input_bytes line)) as Hw by (case_bool_decide as D; [by rewrite D|done]).
    rewrite Hw in E1, Hty1. destruct (IH _ _ Hty1) as (c' & E & Hty'). exists c'. cbv zeta in *. cbn [fmap list_fmap foldl fst].
    change (typed_lines ((line, (t, now)) :: lines)) with ((line ++ [(10, t, now)]) ++ typed_lines lines).
    rewrite (feed_app _ _ _ _ _ E1), E. rewrite !with_with in *. done.
Qed.

Lemma feed_full fd input pre c s :
  typed s fd pre c -> 10 ∉ pre -> length pre = (CMD_BUF_MAX - 1)%nat ->
  exists c', feed fd input s = Ok (tt, with_client fd c' (daemon s) s).
Proof.
  intros Hty Hn Hl. revert c s Hty. induction input as [|[[byte t] now] input IH]; intros c s Hty.
  - exists c. cbn [feed]. destruct Hty as [Hc ? ? ? ?]. unfold with_client. rewrite insert_id by done. by destruct s.
  - destruct (read_full fd byte t now pre c s Hty Hn Hl) as (c1 & E1 & Hty1). destruct (IH _ _ Hty1) as (c' & E).
    exists c'. cbn [feed]. erewrite M_bind_ok by exact E1. rewrite E. by rewrite with_with.
Qed.

Lemma feed_chars fd input pre c s :
  typed s fd pre c -> 10 ∉ pre ++ input_bytes input -> (length (pre ++ input_bytes input) <= CMD_BUF_MAX - 1)%nat ->
  exists c', feed fd input s = Ok (tt, with_client fd c' (daemon s) s) /\ typed (with_client fd c' (daemon s) s) fd (pre ++ input_bytes input) c'.
Proof.
  revert pre c s. induction input as [|[[byte t] now] input IH]; intros pre c s Hty Hn Hl.
  - exists c. cbn [feed input_bytes fmap list_fmap]. rewrite app_nil_r. destruct (Hty) as [Hc ? ? ? ?].
    assert (with_client fd c (daemon s) s = s) as -> by (unfold with_client; rewrite insert_id by done; by destruct s). by split.
  - change (input_bytes ((byte, t, now) :: input)) with ([byte] ++ input_bytes input) in *. rewrite app_assoc in *.
    destruct (read_char fd byte t now pre c s Hty) as (c1 & E1 & Hty1); [by eapply no_newline|by eapply no_newline|rewrite !length_app in Hl; cbn [length] in Hl; lia|].
    destruct (IH _ _ _ Hty1 Hn Hl) as (c' & E & Hty'). exists c'. cbn [feed]. erewrite M_bind_ok by exact E1.
    change (daemon (with_client fd c1 (daemon s) s)) with (daemon s) in *. rewrite E, !with_with in *. done.
Qed.

Lemma accept_typed fd mem now s :
  length mem = CMD_BUF_MAX -> exists c, accept_connection true fd mem now s = Ok (tt, with_client fd c (daemon s) s) /\
    typed (with_client fd c (daemon s) s) fd [] c.
Proof.
  intros Hm. unfold accept_connection. cbn [negb]. erewrite M_bind_ok by reflexivity. unfold prompt.
  set (c0 := mkClient _ _ _ _ _). change (mkShell W _ _ _) with (with_client fd c0 (daemon s) s).
  erewrite M_bind_ok by (apply on_client_ok, with_client_client). rewrite with_with.
  eexists. split; [erewrite on_client_ok by apply with_client_client; rewrite with_with; reflexivity|].
  split; [apply with_client_client|done..].
Qed.

End shell.

(** Commands that record their arguments. *)
#[export] Instance recording : Commands (list (list (list Z))) :=
  {| run_command fn data argv w := Ok (0, [], false, argv :: w) |}.

Definition ex_shell : TcpShell (list (list (list Z))) :=
  mkShell _ (cmd_insert (str "ping"%string) (mkCommand 7 0 [] None) (commands (TcpShell_new true [] tt))) ∅ [].
Definition typing (s : string) : list (Z * Z * Z) := (fun b => (b, 0, 0)) <$> str s.

