(* ===== verification/Probes.v ===== *)
(** * Probes: metrics that measure with packets

    [UCMetricPacket.h], [UCastMetric.cc], [RTTMetric.cc], [PktPair.cc] with their
    headers.  The round-trip metric sends a request to the neighbour it has not
    asked for the longest time and averages the time until the response; the packet
    pair metric sends two packets back to back and the receiver reports the time
    between them.

    Both metrics are the module state [U] of [Routing].  A [std::map] is the list
    of its elements in key order.  The objects of the event library are copied into
    the packets as they are in memory; [GeaRaw] is that representation.  The
    computations with [double] are the operations of [GeaDouble].  [clock] is
    [AbsTime::now()], [now] is [GEA.lastEventTime]. *)

From S2P Require Import Prelude OMap Bytes NodeId Isqrt FloodHist Ccm CryptoUnit Names Filter Topology SendQueue Neighbors Metrics Packet Routing Station.

Class GeaRaw := {
  time_size : nat;                     (* [sizeof(gea::AbsTime)] *)
  duration_size : nat;                 (* [sizeof(gea::Duration)] *)
  time_raw : Z -> list Z;
  raw_time : list Z -> Z;
  duration_raw : Z -> list Z;
  raw_duration : list Z -> Z;
  time_raw_length : forall t, length (time_raw t) = time_size;
  duration_raw_length : forall d, length (duration_raw d) = duration_size;
  raw_fits : (time_size + duration_size <= 64)%nat;
}.

(** [quality_value t] is [max_quality() * (t * 10).getSecondsD()] without its
    fraction; [smooth old d] is [alpha * d + (1 - alpha) * old] in seconds. *)
Class GeaDouble := {
  quality_value : Z -> Z;
  smooth : Z -> Z -> Z;
  t0 : Z;
}.

Definition PACKET_TYPE_UC_METRIC : Z := 97.

(** ** The oldest element of a map *)

Section omap.
Context {D : Type}.
Abbreviation omap := (list (NodeId * D)).

(** The loop that looks for the oldest element: the first one with the smallest
    time. *)
Fixpoint oldest_loop (lastsend : D -> Z) (oldest : NodeId * D) (m : omap) : NodeId * D :=
  match m with
  | [] => oldest
  | kd :: m => oldest_loop lastsend (if lastsend kd.2 <? lastsend oldest.2 then kd else oldest) m
  end.
Definition find_oldest (lastsend : D -> Z) (m : omap) : option (NodeId * D) :=
  match m with [] => None | kd :: _ => Some (oldest_loop lastsend kd m) end.
End omap.

(** ** [UCMetricPacket] *)

Module UCMetricPacket.
Inductive Type_ := req | resp | first | second.
Definition Type_num (t : Type_) : Z := match t with req => 0 | resp => 1 | first => 2 | second => 3 end.

Section packet.
Context `{GeaRaw}.
Definition OffsetSeq : nat := UnicastPacket.UnicastPacketEnd.
Definition OffsetType : nat := OffsetSeq + 4.
Definition OffsetOriginator : nat := OffsetType + 4.
Definition OffsetTime1 : nat := OffsetOriginator + 8.        (* [sizeof(NodeId)] *)
Definition OffsetTime2 : nat := OffsetTime1 + time_size.
Definition OffsetDuration : nat := OffsetTime2 + time_size.
Definition MetricHeaderEnd : nat := OffsetDuration + duration_size.

Definition setSeq (s : Z) (p : BasePacket) : BasePacket := upd (splice OffsetSeq (reverse (be_enc 4 s))) p.
Definition getSeq (p : BasePacket) : Z := be_dec (reverse (slice OffsetSeq 4 (buffer p))).
Definition setType (t : Type_) (p : BasePacket) : BasePacket := set_byte OffsetType (Type_num t) p.
(** The value of the enumeration; it need not be one of the four. *)
Definition getType (p : BasePacket) : Z := s8 (get_byte OffsetType p).
Definition setOriginator (i : NodeId) (p : BasePacket) : BasePacket := upd (AbstractID6.toArray i OffsetOriginator) p.
Definition getOriginator (p : BasePacket) : NodeId := AbstractID6.fromArray OffsetOriginator (buffer p).
Definition setTime1 (t : Z) (p : BasePacket) : BasePacket := upd (splice OffsetTime1 (time_raw t)) p.
Definition getTime1 (p : BasePacket) : Z := raw_time (slice OffsetTime1 time_size (buffer p)).
Definition setDuration (d : Z) (p : BasePacket) : BasePacket := upd (splice OffsetDuration (duration_raw d)) p.
Definition getDuration (p : BasePacket) : Z := raw_duration (slice OffsetDuration duration_size (buffer p)).

(** The constructors; the first one also cuts a received packet. *)
Definition mk (p : BasePacket) : BasePacket := set_size (Z.of_nat MetricHeaderEnd) (UnicastPacket.mk p).
Definition mk_time (t : Type_) (ttl seq time : Z) (p : BasePacket) : BasePacket :=
  set_size (Z.of_nat MetricHeaderEnd) (setTime1 time (setSeq seq (UnicastPacket.setTTL ttl (setType t (UnicastPacket.mk p))))).
Definition mk_duration (t : Type_) (ttl seq d : Z) (p : BasePacket) : BasePacket :=
  set_size (Z.of_nat MetricHeaderEnd) (setDuration d (setSeq seq (UnicastPacket.setTTL ttl (setType t (UnicastPacket.mk p))))).
End packet.
End UCMetricPacket.

Section probes.
Context `{Gea, Metric, LinkMeter, StdSort, AES, Basic, GeaRaw, GeaDouble}.

(** ** [UCastMetric] *)

Definition uc_send {U} `{!Handlers U} (q : Z) (dest : NodeId) (now : Z) : R U unit :=
  upd_packet q (fun p => setDest dest (UnicastPacket.setUcDest dest (UnicastPacket.mk p)));;
  sendUnicast q now.

Definition sendvia {U} (q : Z) (dest : NodeId) (size' now : Z) : R U unit :=
  upd_packet q (fun p => let p := setDest dest (UnicastPacket.setUcDest dest (UnicastPacket.mk p)) in
                         set_size (Z.max (size p) size') p);;
  sendUnicastVia q dest now.

(** [(link_quality_t) std::max(1., ...)] *)
Definition to_quality (v : Z) : outcome Z :=
  let v := Z.max 1 v in if v <=? max_quality then Ok v else Fail BadCast.

(** ** Round-trip times *)

Record s_rtt_data := mkRtt { time : Z; lastsend : Z; lastrecv : Z; in_use : bool }.
Definition s_rtt_data_new : s_rtt_data := mkRtt (duration 1 1) t0 t0 true.

Record RTTMetric := mkRTT {
  rttData : list (NodeId * s_rtt_data);
  rtt_interval : Z;
  rtt_packetSize : Z;
  rtt_blocker : option Z;
  (** [None] is the null pointer of a metric that records nothing. *)
  history : option (list (NodeId * list Z));
}.

Definition RTTMetric_new : RTTMetric := mkRTT [] (duration 1 2) 800 None None.
Definition set_rttData v m := mkRTT v (rtt_interval m) (rtt_packetSize m) (rtt_blocker m) (history m).
Definition set_rtt_blocker v m := mkRTT (rttData m) (rtt_interval m) (rtt_packetSize m) v (history m).
Definition set_history v m := mkRTT (rttData m) (rtt_interval m) (rtt_packetSize m) (rtt_blocker m) v.

Definition go_history (m : RTTMetric) : RTTMetric := set_history (Some []) m.

(** [history->operator[](i).push_back(d)], if there is a history. *)
Definition push_history (i : NodeId) (d : Z) (m : RTTMetric) : RTTMetric :=
  match history m with
  | Some h => set_history (Some (om_put i (default [] (om_find i h) ++ [d]) h)) m
  | None => m
  end.

(** A response that took [d], at [now]. *)
Definition rtt_response (src : NodeId) (d now : Z) (m : RTTMetric) : RTTMetric :=
  match om_find src (rttData m) with
  | Some e =>
      let e' := mkRtt (smooth (time e) d) (lastsend e) now (in_use e) in
      push_history src (time e') (push_history src d (set_rttData (om_put src e' (rttData m)) m))
  | None => m
  end.

Definition rtt_start (clock : Z) (m : RTTMetric) : RTTMetric := set_rtt_blocker (Some (clock + rtt_interval m)) m.

Definition rtt_get_quality (d : NodeDescr) (m : RTTMetric) : outcome (Z * RTTMetric) :=
  match om_find (id d) (rttData m) with
  | None => Ok (max_quality, set_rttData (om_put (id d) s_rtt_data_new (rttData m)) m)
  | Some e => q ← (if nanosecs (time e) =? 0 then Ok max_quality else to_quality (quality_value (time e))); Ok (q, m)
  end.

Definition rtt_addNode (i : NodeId) (m : RTTMetric) : RTTMetric :=
  match om_find i (rttData m) with
  | None => set_rttData (om_put i s_rtt_data_new (rttData m)) m
  | Some e => set_rttData (om_put i (mkRtt (time e) (lastsend e) (lastrecv e) true) (rttData m)) m
  end.
Definition rtt_begin_update (m : RTTMetric) : RTTMetric :=
  set_rttData ((fun kd => (kd.1, mkRtt (time kd.2) (lastsend kd.2) (lastrecv kd.2) false)) <$> rttData m) m.
Definition rtt_end_update (m : RTTMetric) : RTTMetric := set_rttData (filter (fun kd => in_use kd.2 = true) (rttData m)) m.

Definition rtt_calculate (forward backward : Z) : Z := forward + backward.

(** [go_measure]; [rnd] is the result of [rand()]. *)
Definition go_measure (clock rnd now : Z) : R RTTMetric unit :=
  m ← gets modules;
  (match find_oldest lastsend (rttData m) with
   | None => mret tt
   | Some (dest, e) =>
       q ← newUnicastPacket PACKET_TYPE_UC_METRIC;
       upd_packet q (UCMetricPacket.mk_time UCMetricPacket.req 2 1 clock);;
       sendvia q dest (rtt_packetSize m) now;;
       on_table (unref_packet q);;
       modify (fun s => set_modules (set_rttData (om_put dest (mkRtt (time e) clock (lastrecv e) (in_use e)) (rttData (modules s))) (modules s)) s)
   end);;
  modify (fun s => set_modules (set_rtt_blocker (Some (now + rtt_interval m + duration (Z.rem rnd 10) 10)) (modules s)) s).

Definition rtt_on_recv (q now : Z) : R RTTMetric unit :=
  mp ← upd_packet q UCMetricPacket.mk;
  let src := SrcPacket.getSrc mp in
  if UCMetricPacket.getType mp =? UCMetricPacket.Type_num UCMetricPacket.req then
    q' ← newUnicastPacket PACKET_TYPE_UC_METRIC;
    upd_packet q' (UCMetricPacket.mk_time UCMetricPacket.resp 2 1 (UCMetricPacket.getTime1 mp));;
    sendvia q' src 0 now;;
    on_table (unref_packet q)
  else
    let d := now - UCMetricPacket.getTime1 mp in
    modify (fun s => set_modules (rtt_response src d now (modules s)) s).

(** ** Packet pairs *)

Record s_node_data := mkNode {
  pp_active : bool;
  pp_lastsend : Z;
  pp_time : Z;
  capacity : Z;              (* [int] *)
  times : list Z;
  position : nat;
}.
(** A negative number of cells is no size. *)
Definition s_node_data_new (c now : Z) : outcome s_node_data :=
  if c <? 0 then Fail BadCast
  else Ok (mkNode true now (duration 0 1) c (replicate (Z.to_nat c) (duration 1 1)) 0).

(** [times[position++] = t; position %= capacity] *)
Definition setTime (t : Z) (e : s_node_data) : outcome s_node_data :=
  if (length (times e) =? 0)%nat then
    Ok (mkNode (pp_active e) (pp_lastsend e) (smooth (pp_time e) t) (capacity e) (times e) (position e))
  else if (position e <? length (times e))%nat then
    Ok (mkNode (pp_active e) (pp_lastsend e) (pp_time e) (capacity e) (<[position e := t]> (times e))
          ((position e + 1) mod Z.to_nat (capacity e))%nat)
  else Fail OutOfBounds.

(** [getTime] stores the minimum of the window. *)
Definition getTime (e : s_node_data) : Z * s_node_data :=
  match times e with
  | [] => (pp_time e, e)
  | t :: ts => let m := foldl Z.min t ts in
               (m, mkNode (pp_active e) (pp_lastsend e) m (capacity e) (times e) (position e))
  end.

Record PktPair := mkPktPair {
  nodes : list (NodeId * s_node_data);
  firstPackets : list (NodeId * Z);
  pp_interval : Z;
  pp_packetSize : Z;
  bufferSize : Z;
  pp_blocker : option Z;
}.
Definition PktPair_new : PktPair := mkPktPair [] [] (duration 1 2) 800 0 None.
Definition set_nodes v m := mkPktPair v (firstPackets m) (pp_interval m) (pp_packetSize m) (bufferSize m) (pp_blocker m).
Definition set_firstPackets v m := mkPktPair (nodes m) v (pp_interval m) (pp_packetSize m) (bufferSize m) (pp_blocker m).
Definition set_pp_blocker v m := mkPktPair (nodes m) (firstPackets m) (pp_interval m) (pp_packetSize m) (bufferSize m) v.

Definition pp_start (clock : Z) (m : PktPair) : PktPair := set_pp_blocker (Some (clock + pp_interval m)) m.

Definition pp_get_quality (d : NodeDescr) (m : PktPair) : outcome (Z * PktPair) :=
  match om_find (id d) (nodes m) with
  | None => Ok (max_quality, m)
  | Some e =>
      let '(t, e) := getTime e in
      let m := set_nodes (om_put (id d) e (nodes m)) m in
      q ← (if t =? duration 0 1 then Ok max_quality else to_quality (quality_value (pp_time e))); Ok (q, m)
  end.

Definition pp_calculate (forward backward : Z) : Z := forward + backward.

Definition pp_addNode (i : NodeId) (now : Z) (m : PktPair) : outcome PktPair :=
  match om_find i (nodes m) with
  | None => d ← s_node_data_new (bufferSize m) now; Ok (set_nodes (om_put i d (nodes m)) m)
  | Some e => Ok (set_nodes (om_put i (mkNode true (pp_lastsend e) (pp_time e) (capacity e) (times e) (position e)) (nodes m)) m)
  end.
Definition pp_begin_update (m : PktPair) : PktPair :=
  set_nodes ((fun kd => (kd.1, let e := kd.2 in mkNode false (pp_lastsend e) (pp_time e) (capacity e) (times e) (position e))) <$> nodes m) m.
Definition pp_end_update (m : PktPair) : PktPair := set_nodes (filter (fun kd => pp_active kd.2 = true) (nodes m)) m.

(** [on_wait]; the packets are not released. *)
Definition pp_on_wait (clock now : Z) : R PktPair unit :=
  m ← gets modules;
  (match find_oldest pp_lastsend (nodes m) with
   | None => mret tt
   | Some (dest, e) =>
       q ← newUnicastPacket PACKET_TYPE_UC_METRIC;
       upd_packet q (UCMetricPacket.mk_time UCMetricPacket.first 2 1 clock);;
       sendvia q dest (u64 (pp_packetSize m)) now;;
       q2 ← newUnicastPacket PACKET_TYPE_UC_METRIC;
       upd_packet q2 (UCMetricPacket.mk_time UCMetricPacket.second 2 1 clock);;
       sendvia q2 dest (u64 (pp_packetSize m)) now;;
       modify (fun s => set_modules (set_nodes (om_put dest (mkNode (pp_active e) clock (pp_time e) (capacity e) (times e) (position e)) (nodes (modules s))) (modules s)) s)
   end);;
  modify (fun s => set_modules (set_pp_blocker (Some (clock + pp_interval m)) (modules s)) s).

Definition pp_on_recv (q now : Z) : R PktPair unit :=
  mp ← upd_packet q UCMetricPacket.mk;
  let sender := SrcPacket.getSrc mp in
  let type := UCMetricPacket.getType mp in
  if type =? UCMetricPacket.Type_num UCMetricPacket.first then
    modify (fun s => set_modules (set_firstPackets (om_put sender now (firstPackets (modules s))) (modules s)) s)
  else if type =? UCMetricPacket.Type_num UCMetricPacket.second then
    m ← gets modules;
    match om_find sender (firstPackets m) with
    | Some t1 =>
        q' ← newUnicastPacket PACKET_TYPE_UC_METRIC;
        upd_packet q' (UCMetricPacket.mk_duration UCMetricPacket.resp 2 1 (now - t1));;
        sendvia q' sender 0 now
    | None => mret tt
    end
  else if type =? UCMetricPacket.Type_num UCMetricPacket.resp then
    m ← gets modules;
    match om_find sender (nodes m) with
    | Some e =>
        e ← lift (setTime (UCMetricPacket.getDuration mp) e);
        modify (fun s => set_modules (set_nodes (om_put sender e (nodes (modules s))) (modules s)) s)
    | None => mret tt
    end
  else mret tt.

(** The functions the metrics register for [PACKET_TYPE_UC_METRIC]. *)
Definition fn_recv_packet : Z := 11.

#[export] Instance rtt_handlers : Handlers RTTMetric := {|
  recv_callback cb data q now := if cb =? fn_recv_packet then rtt_on_recv q now else fail NullDeref |}.
#[export] Instance pp_handlers : Handlers PktPair := {|
  recv_callback cb data q now := if cb =? fn_recv_packet then pp_on_recv q now else fail NullDeref |}.
End probes.
