(* ===== verification/ProbesThms.v ===== *)
(** * What the probe metrics compute, and how a request ends

    The packet pair metric keeps the minimum of a sliding window; a request of the
    round-trip metric makes the station that answers it release a packet twice. *)

From S2P Require Import Prelude OMap Bytes NodeId Isqrt FloodHist Ccm CryptoUnit Names Filter Topology RoutesThms SendQueue Neighbors NeighborThms Metrics Packet Routing Station RoutingThms CcmThms DeliveryThms HeaderThms Probes.

(** ** The window of the packet pair metric *)

Section window.
Context `{Gea, GeaDouble}.

Fixpoint setTimes (ts : list Z) (e : s_node_data) : outcome s_node_data :=
  match ts with [] => Ok e | t :: ts => e ← setTime t e; setTimes ts e end.

(** The [n] durations the window holds, oldest first. *)
Definition in_window (n : nat) (ts : list Z) : list Z := drop (length ts) (replicate n (duration 1 1) ++ ts).

Record ring (n : nat) (e : s_node_data) (l : list Z) : Prop := {
  rg_capacity : capacity e = Z.of_nat n;
  rg_length : length (times e) = n;
  rg_position : (position e < n)%nat;
  rg_order : drop (position e) (times e) ++ take (position e) (times e) = l;
}.

Lemma ring_setTime n e l t : ring n e l -> exists e', setTime t e = Ok e' /\ ring n e' (tail l ++ [t]).
Proof.
  intros [Hc Hl Hp Ho]. unfold setTime. rewrite (proj2 (Nat.eqb_neq _ 0)), (proj2 (Nat.ltb_lt _ _)) by lia.
  eexists. split; [done|]. set (p := position e) in *.
  destruct (lookup_lt_is_Some_2 (times e) p) as [x Hx]; [lia|].
  assert (drop p (<[p := t]> (times e)) = t :: drop (S p) (times e)) as Hd.
  { rewrite (drop_S _ t) by (apply list_lookup_insert_eq; lia). by rewrite drop_insert_lt by lia. }
  rewrite (drop_S _ x) in Ho by done. subst l. cbn [app tail].
  assert (((p + 1) mod Z.to_nat (capacity e)) = if decide (p + 1 = n) then 0 else p + 1)%nat as Hm.
  { rewrite Hc, Nat2Z.id. case_decide as D; [rewrite D; apply Nat.Div0.mod_same|apply Nat.mod_small; lia]. }
  split; cbn [capacity times position]; rewrite ?Hm.
  - done.
  - by rewrite length_insert.
  - case_decide; lia.
  - case_decide as D.
    + rewrite drop_0, take_0, app_nil_r. rewrite (drop_ge (times e)) by lia. cbn [app].
      rewrite <- (take_drop p (<[p := t]> (times e))), Hd, take_insert_ge by lia. by rewrite (drop_ge (times e)) by lia.
    + rewrite Nat.add_1_r. rewrite drop_insert_lt by lia. rewrite (take_S_r _ _ t) by (apply list_lookup_insert_eq; lia).
      rewrite take_insert_ge by lia. by rewrite app_assoc.
Qed.

Lemma in_window_snoc n ts t : (0 < n)%nat -> in_window n (ts ++ [t]) = tail (in_window n ts) ++ [t].
Proof.
  intros Hn. unfold in_window. rewrite length_app, app_assoc. cbn [length]. rewrite <- drop_drop.
  rewrite drop_app_le by (rewrite length_app, length_replicate; lia).
  assert (length (drop (length ts) (replicate n (duration 1 1) ++ ts)) = n) as Hl by (rewrite length_drop, length_app, length_replicate; lia).
  destruct (drop (length ts) (replicate n (duration 1 1) ++ ts)) as [|x l]; [cbn in Hl; lia|]. done.
Qed.

Lemma setTimes_ring n ts e : (0 < n)%nat -> ring n e (in_window n []) -> exists e', setTimes ts e = Ok e' /\ ring n e' (in_window n ts).
Proof.
  intros Hn He. assert (forall ts2 ts1 e1, ring n e1 (in_window n ts1) -> exists e', setTimes ts2 e1 = Ok e' /\ ring n e' (in_window n (ts1 ++ ts2))) as Hg.
  { induction ts2 as [|t ts2 IH]; intros ts1 e1 H1; [exists e1; by rewrite app_nil_r|]. cbn [setTimes].
    destruct (ring_setTime n e1 _ t H1) as (e2 & -> & H2). rewrite outcome_ret_bind. rewrite <- in_window_snoc in H2 by done.
    destruct (IH _ _ H2) as (e' & E & Hr). exists e'. split; [done|]. by rewrite <- app_assoc in Hr. }
  exact (Hg ts [] e He).
Qed.

Lemma fold_min l m : foldl Z.min m l ∈ m :: l /\ forall x, x ∈ m :: l -> foldl Z.min m l <= x.
Proof.
  revert m. induction l as [|y l IH]; intros m; cbn [foldl].
  - split; [apply list_elem_of_here|]. intros x Hx. apply elem_of_cons in Hx as [->|Hx]; [lia|by apply elem_of_nil in Hx].
  - destruct (IH (Z.min m y)) as [H1 H2]. split.
    + apply elem_of_cons in H1 as [->|H1]; [|by apply list_elem_of_further, list_elem_of_further].
      destruct (Z.min_spec m y) as [[_ ->]|[_ ->]]; [apply list_elem_of_here|apply elem_of_cons; right; apply list_elem_of_here].
    + pose proof (H2 (Z.min m y) (list_elem_of_here _ _)). intros x Hx.
      apply elem_of_cons in Hx as [->|Hx]; [lia|]. apply elem_of_cons in Hx as [->|Hx]; [lia|]. apply H2. by apply list_elem_of_further.
Qed.

(** The packet pair metric reports the shortest distance of the last [c]
    pairs: after any sequence of measurements the window holds exactly the last [c]
    of them, with the initial second in place of those that are missing, and
    [getTime] returns their minimum; no cell outside the window is written. *)
Theorem pktpair_minimum (c now : Z) (ts : list Z) :
  0 < c -> exists e e', s_node_data_new c now = Ok e /\ setTimes ts e = Ok e' /\
    let m := fst (getTime e') in
    m ∈ in_window (Z.to_nat c) ts /\ forall x, x ∈ in_window (Z.to_nat c) ts -> m <= x.
Proof.
  intros Hc. unfold s_node_data_new. rewrite (proj2 (Z.ltb_ge c 0)) by lia. set (n := Z.to_nat c).
  set (e := mkNode _ _ _ _ _ _). assert (ring n e (in_window n [])) as He.
  { split; cbn [e capacity times position]; [lia|apply length_replicate|lia|]. by rewrite drop_0, take_0. }
  destruct (setTimes_ring n ts e ltac:(lia) He) as (e' & E & [_ Hl Hp Ho]). exists e, e'. split; [done|]. split; [done|].
  assert (forall x, x ∈ times e' <-> x ∈ in_window n ts) as Hin.
  { intros x. rewrite <- Ho, <- (take_drop (position e') (times e')) at 1. rewrite !elem_of_app. tauto. }
  unfold getTime. destruct (times e') as [|t l]; [cbn [length] in Hl; lia|]. cbn [fst]. destruct (fold_min l t) as [H1 H2].
  split; [by apply Hin|]. intros x Hx. by apply H2, Hin.
Qed.
End window.

(** The initial second, then the measurements; the window of two keeps the last
    two. *)
#[local] Instance window_double : GeaDouble := {| quality_value t := t; smooth old d := d; t0 := 0 |}.

#[local] Existing Instance gea_ns.
Lemma pktpair_minimum_witness :
  exists e e', s_node_data_new 2 0 = Ok e /\ setTimes [7; 5; 9; 8] e = Ok e' /\ fst (getTime e') = 8 /\ in_window 2 [7; 5; 9; 8] = [9; 8].
Proof.
  destruct (pktpair_minimum 2 0 [7; 5; 9; 8] ltac:(lia)) as (e & e' & E1 & E2 & _). exists e, e'.
  split; [exact E1|]. split; [exact E2|]. injection E1 as <-. injection E2 as <-. by split.
Defined.

(** ** Packets without the trace flag *)

Record untraced (p : BasePacket) : Prop := {
  ut_length : length (buffer p) = MaxSize;
  ut_byte : is_byte (get_byte 0 p);
  ut_flag : byte_flag (get_byte 0 p) = false;
}.

Lemma untraced_flag p : untraced p -> SrcPacket.getTraceFlag p = Ok false.
Proof.
  intros [_ _ Hf]. unfold SrcPacket.getTraceFlag, SrcPacket.getControlBit.
  change (cassert _) with (Ok tt). rewrite outcome_ret_bind. f_equal. exact Hf.
Qed.

Lemma untraced_ext p p' : buffer p' = buffer p -> untraced p -> untraced p'.
Proof. intros E [Hl Hb Hf]. split; unfold get_byte in *; by rewrite E. Qed.

Lemma untraced_splice off bs p : (0 < off)%nat -> (off + length bs <= MaxSize)%nat -> untraced p -> untraced (upd (splice off bs) p).
Proof.
  intros Ho Hm [Hl Hb Hf]. assert (get_byte 0 (upd (splice off bs) p) = get_byte 0 p) as E.
  { unfold get_byte, byte_at. cbn [upd set_buffer buffer]. rewrite splice_lookup by lia. case_decide; [lia|done]. }
  split; [cbn [upd set_buffer buffer]; rewrite splice_length; lia|by rewrite E..].
Qed.

Lemma untraced_id off i p : (0 < off)%nat -> (off + 6 <= MaxSize)%nat -> untraced p -> untraced (upd (AbstractID6.toArray i off) p).
Proof.
  intros Ho Hm Hp. unfold upd. rewrite AbstractID6.id6_toArray_spec by (rewrite (ut_length _ Hp); done).
  apply (untraced_splice off); rewrite ?be_enc_length; done.
Qed.

Lemma untraced_int sz v off p : (0 < off)%nat -> (off + sz <= MaxSize)%nat -> untraced p -> untraced (upd (toArray sz v off) p).
Proof.
  intros Ho Hm Hp. unfold upd. rewrite Bytes.toArray_spec by (rewrite (ut_length _ Hp); done).
  apply (untraced_splice off); rewrite ?be_enc_length; done.
Qed.

Lemma untraced_byte off v p : (0 < off < MaxSize)%nat -> untraced p -> untraced (set_byte off v p).
Proof.
  intros Ho Hp. unfold set_byte, upd. rewrite insert_splice by (rewrite (ut_length _ Hp); lia).
  apply (untraced_splice off); cbn [length]; [lia..|done].
Qed.

Lemma untraced_mk p : untraced p -> untraced (UnicastPacket.mk p).
Proof.
  intros [Hl Hb Hf]. destruct (type_byte_laws PacketTypeUnicast false _ Hb) as (_ & H2 & _ & _).
  assert (get_byte 0 (UnicastPacket.mk p) = type_byte PacketTypeUnicast (get_byte 0 p)) as E.
  { unfold get_byte, byte_at, UnicastPacket.mk, setType, set_byte. cbn [upd set_buffer buffer].
    rewrite list_lookup_insert_eq; [done|]. rewrite Hl. apply MaxSize_pos. }
  split; [by unfold UnicastPacket.mk, setType, set_byte; cbn [upd set_buffer buffer]; rewrite length_insert|..].
  - rewrite E. apply u8_byte.
  - by rewrite E, H2.
Qed.

Lemma untraced_fresh : exists p, SrcPacket.setTraceFlag false (UnicastPacket.mk BasePacket_new) = Ok p /\ untraced p.
Proof.
  destruct (type_and_trace_flag PacketTypeUnicast false _ BasePacket_new_wf) as (_ & _ & _).
  assert (wf_packet (UnicastPacket.mk BasePacket_new)) as Hw.
  { unfold UnicastPacket.mk, setType, set_byte, upd. rewrite insert_splice by (vm_compute; lia).
    apply upd_splice_wf; [apply BasePacket_new_wf| |vm_compute; lia]. constructor; [apply u8_byte|constructor]. }
  destruct (type_and_trace_flag PacketTypeUnicast false _ Hw) as (_ & _ & p & E & Hf & _ & Hp).
  exists p. split; [exact E|]. split; [apply Hp|by apply get_byte_wf, MaxSize_pos|].
  unfold SrcPacket.getTraceFlag, SrcPacket.getControlBit in Hf. change (cassert _) with (Ok tt) in Hf.
  rewrite outcome_ret_bind in Hf. by injection Hf as Hf.
Qed.

(** ** Sending a probe *)

Section send.
Context `{Gea, Metric, LinkMeter, StdSort, AES, Basic, GeaRaw} {U : Type} `{!Handlers U}.
Implicit Type s : AwdsRouting U.

Lemma newUnicast_ok type s :
  let q := newAddr (counters s) in
  exists p s', newUnicastPacket type s = Ok (q, s') /\ at_addr s' q p /\ untraced p /\ others q s s' /\ modules s' = modules s.
Proof.
  intros q. unfold newUnicastPacket, new_packet.
  erewrite M_bind_ok by (erewrite M_bind_ok by reflexivity; cbv beta zeta; erewrite M_bind_ok by apply store_ok;
    erewrite M_bind_ok by reflexivity; reflexivity).
  fold q. set (s1 := set_counters _ _). erewrite M_bind_ok by reflexivity. erewrite M_bind_ok by (apply upd_packet_ok, at_put).
  destruct untraced_fresh as (p & E & Hp). rewrite E. mlift. erewrite M_bind_ok by apply store_ok.
  erewrite M_bind_ok by (unfold next_unicastSeq; erewrite M_bind_ok by reflexivity; erewrite M_bind_ok by reflexivity; reflexivity).
  erewrite M_bind_ok by (apply upd_packet_ok, at_put). do 2 eexists. split; [reflexivity|]. split; [apply at_put|]. split; [|split; [|done]].
  - apply untraced_byte; [vm_compute; lia|]. apply untraced_int; [inside_tac..|]. apply untraced_byte; [vm_compute; lia|].
    apply untraced_id; [inside_tac..|]. apply untraced_id; [inside_tac..|done].
  - intros q' Hq. cbn. by rewrite !lookup_insert_ne by congruence.
Qed.

Lemma sendvia_ok q p dest size' now s :
  at_addr s q p -> untraced p -> exists s', sendvia q dest size' now s = Ok (tt, s') /\ others q s s' /\ modules s' = modules s.
Proof.
  intros Hat Hp. unfold sendvia, sendUnicastVia. erewrite M_bind_ok by (by apply upd_packet_ok). cbv beta zeta.
  set (p1 := set_size _ _).
  assert (untraced p1) as U1 by (apply (untraced_ext (UnicastPacket.setUcDest dest (UnicastPacket.mk p))); [done|];
    apply untraced_id; [inside_tac..|by apply untraced_mk]).
  clearbody p1. erewrite M_bind_ok by (apply upd_packet_ok, at_put). rewrite put_put.
  destruct (UnicastPacket.getTTL _ =? 0); [eexists; split; [reflexivity|split; [apply others_put|done]]|].
  pose proof (trace_ok q _ _ (at_put q (UnicastPacket.mk p1) s)) as Et.
  unfold traced in Et. rewrite (untraced_flag _ (untraced_mk _ U1)), outcome_ret_bind in Et.
  erewrite M_bind_ok by exact Et. rewrite put_put. erewrite M_bind_ok by (apply upd_packet_ok, at_put). rewrite put_put.
  unfold mbind at 1, M_bind at 1. rewrite (send_ok _ _ _ _ _ (at_put _ _ _)).
  destruct (_ && _); (eexists; split; [reflexivity|split; [|done]]); [apply others_put|].
  eapply others_trans; [apply others_put|]. intros q' Hq. apply lookup_insert_ne. congruence.
Qed.
End send.

(** ** A request of the round-trip metric *)

Section request.
Context `{Gea, Metric, LinkMeter, StdSort, AES, Basic, GeaRaw, GeaDouble}.
Implicit Type s : AwdsRouting RTTMetric.

Lemma header_inside : (UCMetricPacket.MetricHeaderEnd <= 167)%nat.
Proof.
  unfold UCMetricPacket.MetricHeaderEnd, UCMetricPacket.OffsetDuration, UCMetricPacket.OffsetTime2, UCMetricPacket.OffsetTime1.
  pose proof raw_fits. change UCMetricPacket.OffsetOriginator with 31%nat. lia.
Qed.

Lemma untraced_probe t ttl seq time p : untraced p -> untraced (UCMetricPacket.mk_time t ttl seq time p).
Proof.
  intros Hp. assert ((167 <= MaxSize)%nat) as HM by inside_tac. pose proof header_inside as HE.
  unfold UCMetricPacket.MetricHeaderEnd, UCMetricPacket.OffsetDuration, UCMetricPacket.OffsetTime2, UCMetricPacket.OffsetTime1 in HE.
  apply (untraced_ext (UCMetricPacket.setTime1 time (UCMetricPacket.setSeq seq (UnicastPacket.setTTL ttl (UCMetricPacket.setType t (UnicastPacket.mk p)))))); [done|].
  apply untraced_splice; [unfold UCMetricPacket.OffsetTime1; lia|rewrite time_raw_length; unfold UCMetricPacket.OffsetTime1; lia|].
  apply untraced_splice; [inside_tac|rewrite length_reverse, be_enc_length; inside_tac|].
  apply untraced_byte; [vm_compute; lia|]. apply untraced_byte; [vm_compute; lia|]. by apply untraced_mk.
Qed.

(** The type of the probe is behind the header that forwarding rewrites. *)
Lemma probe_type p p' :
  same_rest UnicastPacket.UnicastPacketEnd p p' -> UCMetricPacket.getType (UCMetricPacket.mk p') = UCMetricPacket.getType p.
Proof.
  intros [_ Hr _ _ _ _]. unfold UCMetricPacket.getType, get_byte, byte_at. f_equal.
  change (buffer (UCMetricPacket.mk p')) with (<[0%nat := u8 (Z.lor (Z.land (get_byte 0 p') (Z.lnot 3)) 2)]> (buffer p')).
  rewrite list_lookup_insert_ne by done.
  change UCMetricPacket.OffsetType with (UnicastPacket.UnicastPacketEnd + 4)%nat. by rewrite <- !lookup_drop, Hr.
Qed.

(** The request itself is released, with its last reference. *)
Lemma on_request q p now s :
  at_addr s q p -> refcount p = 1 -> q <> newAddr (counters s) ->
  UCMetricPacket.getType (UCMetricPacket.mk p) = UCMetricPacket.Type_num UCMetricPacket.req ->
  exists s', rtt_on_recv q now s = Ok (tt, s') /\ packets (table s') !! q = None.
Proof.
  intros Hat Hr Hq Ht. unfold rtt_on_recv. erewrite M_bind_ok by (by apply upd_packet_ok). cbv zeta. rewrite Ht.
  rewrite Z.eqb_refl. set (mp := UCMetricPacket.mk p). set (s1 := put q mp s).
  destruct (newUnicast_ok PACKET_TYPE_UC_METRIC s1) as (p2 & s2 & E2 & At2 & U2 & O2 & _).
  change (newAddr (counters s1)) with (newAddr (counters s)) in *. set (q2 := newAddr (counters s)) in *.
  erewrite M_bind_ok by exact E2. erewrite M_bind_ok by (by apply upd_packet_ok).
  set (p3 := UCMetricPacket.mk_time _ _ _ _ _). 
  destruct (sendvia_ok q2 p3 (SrcPacket.getSrc mp) 0 now (put q2 p3 s2) (at_put _ _ _)) as (s4 & E4 & O4 & _); [by apply untraced_probe|].
  erewrite M_bind_ok by exact E4.
  assert (at_addr s4 q mp) as At4.
  { unfold at_addr. rewrite O4, others_put, O2 by done. apply at_put. }
  rewrite (unref_ok _ _ _ At4) by (change (refcount mp) with (refcount p); lia).
  change (refcount mp) with (refcount p). rewrite Hr. cbn [Z.eqb]. change (1 =? 1) with true. cbv iota.
  eexists. split; [reflexivity|]. apply lookup_delete_eq.
Qed.

(** C29. [RTTMetric::on_recv] answers a request and then releases the request
    instead of the response it has created ([p->unref()] where [p_response] is
    meant).  The caller [basic::recv_data] still holds its reference: an idle
    station with the round-trip metric that receives a request addressed to it
    releases a packet that is already deleted, whatever the request contains. *)
Theorem rtt_request_use_after_free (x src ttl now data : Z) (f : list Z) s :
  idle s -> my_id s = x -> src <> x -> 2 <= ttl < 256 ->
  flight x x src ttl PACKET_TYPE_UC_METRIC f ->
  unicastRegister (registers s) !! PACKET_TYPE_UC_METRIC = Some (fn_recv_packet, data) ->
  UCMetricPacket.getType (packet_of f) = UCMetricPacket.Type_num UCMetricPacket.req ->
  recv_data (Z.of_nat (length f)) f now s = Fail UseAfterFree.
Proof.
  intros Hi Hx Hsrc Httl Hf Hreg Hty. pose proof (packet_of_wf f (fl_ok _ _ _ _ _ _ Hf)) as Hw.
  destruct (recv_data_delivers x src ttl _ f now _ _ s Hi Hx Hsrc Httl Hf Hreg) as (s1 & Hat & _ & _ & _ & _ & _ & _ & Hn & E).
  set (q := newAddr (counters s)) in *.
  destruct (setTTL_fields (ttl - 1) _ Hw) as [Sp _ _ _ _ _]. set (p := UnicastPacket.setTTL (ttl - 1) (packet_of f)) in *.
  destruct (on_request q p now s1 Hat) as (s2 & E2 & Hnone).
  - by rewrite (sr_refcount _ _ _ Sp).
  - rewrite Hn. lia.
  - by rewrite (probe_type _ _ Sp).
  - change (recv_callback fn_recv_packet data q now s1) with (rtt_on_recv q now s1) in E.
    rewrite E. erewrite M_bind_ok by exact E2. unfold on_table, on_net, on_heap, zoom, unref_packet, load, mbind, M_bind, gets.
    unfold table in Hnone. cbn. by rewrite Hnone.
Qed.
End request.

(** *** Example: station 1 asks station 2 *)

Definition ex_raw : GeaRaw.
Proof.
  refine {| time_size := 8; duration_size := 8; time_raw t := be_enc 8 t; raw_time := be_dec;
            duration_raw d := be_enc 8 d; raw_duration := be_dec |}; [intros; apply be_enc_length..|lia].
Defined.
Definition ex_double : GeaDouble := {| quality_value t := t; smooth old d := d; t0 := 0 |}.

Definition rtt_station : AwdsRouting RTTMetric :=
  mkRouting RTTMetric (mkIface (mkN ∅ [] ∅ None []) (mkQ [] None []))
    (mkTopo [(2, NDescr_new)] false false 2 false false false []) (replicate 32 0) (FloodHistory_new []) None None
    (mkPeriods 1000 Constant 1400 0 None None) (mkCounters 0 0 0 1)
    (mkRegisters {[ PACKET_TYPE_UC_METRIC := (fn_recv_packet, 0) ]} ∅ ∅ ∅) (mkRTT [] 0 800 None None).

Definition request_frame : list Z :=
  [2; 0; 0; 0; 0; 0; 1; 0; 7; 0; 0; 0; 0; 0; 2; 0; 0; 0; 0; 0; 2; 2; 97; 1; 0; 0; 0; 0] ++ replicate 40 0.

Lemma rtt_request_use_after_free_witness :
  recv_data (H := gea_ns) (H0 := hop_count) (H2 := merge_std_sort) (H3 := toy_aes) (H4 := ex_basic)
    (Handlers0 := rtt_handlers (H := gea_ns) (H5 := ex_raw) (H6 := ex_double))
    68 request_frame 0 rtt_station = Fail UseAfterFree.
Proof.
  apply (rtt_request_use_after_free (H := gea_ns) (H0 := hop_count) (H2 := merge_std_sort) (H3 := toy_aes) (H4 := ex_basic)
    (H5 := ex_raw) (H6 := ex_double) 2 1 2 0 0 request_frame).
  - by constructor.
  - done.
  - done.
  - lia.
  - constructor; try (vm_compute; reflexivity). split; [|vm_compute; lia].
    apply (bool_decide_unpack _). vm_compute. done.
  - apply (bool_decide_unpack _). vm_compute. done.
  - vm_compute. reflexivity.
Defined.
