(* ===== verification/Debug.v ===== *)
(** * Debug output and daemon options

    [unixfdostream.h], [debug_cmd.cc]: the buffered output stream, its subclass that
    copies debug output to listeners and into a ring of the last 64 KiB, the shell
    command [debug] and the options of the daemon process.

    A [std::ostream] is the text written to it; [streams] holds the living ones by
    their address.  The results of system calls are arguments. *)

From stdpp Require Import gmap fin_sets.
From Stdlib Require Import Ascii String.
From S2P Require Import Prelude Bytes Names.

(** [memcpy] from and to an object of known size. *)
Definition memcpy_from (off n : Z) (l : list Z) : outcome (list Z) :=
  if (0 <=? off) && (0 <=? n) && (off + n <=? Z.of_nat (length l))
  then Ok (slice (Z.to_nat off) (Z.to_nat n) l) else Fail OutOfBounds.
Definition memcpy_to (off : Z) (bs l : list Z) : outcome (list Z) :=
  if (0 <=? off) && (off + Z.of_nat (length bs) <=? Z.of_nat (length l))
  then Ok (splice (Z.to_nat off) bs l) else Fail OutOfBounds.

(** The characters before the first 0. *)
Fixpoint cstr (l : list Z) : list Z :=
  match l with [] => [] | c :: l => if c =? 0 then [] else c :: cstr l end.

(** ** [UnixFdStreamBuf] *)

Definition bufSize : nat := 256.
Record FdBuf := mkFdBuf { cells : list Z; pptr : nat }.

Section streambuf.
Context {S : Type} (sb : S -> FdBuf) (set_sb : FdBuf -> S -> S).
Context (writeSomeBytes : list Z -> M S bool).     (* the virtual function *)

(** [overflow(c)]; [eof] is [None], also as the result. *)
Definition overflow (c : option Z) : M S (option Z) :=
  b ← gets sb;
  let count := (pptr b + match c with Some _ => 1 | None => 0 end)%nat in
  if (0 <? pptr b)%nat || bool_decide (is_Some c) then
    cs ← lift (match c with Some c => memcpy_to (Z.of_nat (pptr b)) [c] (cells b) | None => Ok (cells b) end);
    modify (set_sb (mkFdBuf cs (pptr b)));;
    data ← lift (memcpy_from 0 (Z.of_nat count) cs);
    ok ← writeSomeBytes data;
    if negb ok : bool then mret None else
    b ← gets sb;
    modify (set_sb (mkFdBuf (cells b) 0));;
    mret (Some (default 0 c))
  else mret (Some (default 0 c)).

Definition sync : M S Z := r ← overflow None; mret (if bool_decide (is_Some r) then 0 else -1).

(** [std::streambuf::sputc] of the standard library. *)
Definition sputc (c : Z) : M S (option Z) :=
  b ← gets sb;
  if (pptr b <? bufSize)%nat then
    cs ← lift (memcpy_to (Z.of_nat (pptr b)) [c] (cells b));
    modify (set_sb (mkFdBuf cs (pptr b + 1)));; mret (Some c)
  else overflow (Some c).
End streambuf.

(** The virtual function of the base class: [rets] are the results of [write],
    [None] an interrupted call.  The result and what reached the descriptor, unless
    the process still waits or the assertion on the count has failed. *)
Fixpoint fd_writeSomeBytes (rets : list (option Z)) (data : list Z) : option (bool * list Z) :=
  match rets with
  | [] => None                                   (* still waiting in [write] *)
  | None :: rets => fd_writeSomeBytes rets data
  | Some ret :: rets =>
      if 0 <? ret then
        let n := Z.to_nat ret in
        if (length data <? n)%nat then None                     (* [assert(count >= 0)] *)
        else if (length data =? n)%nat then Some (true, data)
        else r ← fd_writeSomeBytes rets (drop n data); Some (r.1, take n data ++ r.2)
      else Some (false, [])
  end.

(** ** [OutputRedirector] *)

Record OutputRedirector := mkRedir {
  base : FdBuf;
  history : list Z;
  histSize : Z;
  bytesInHistory : Z;
  histEnd : Z;
  outputSet : gset Z;
  logfile : option Z;               (* [None] is the null pointer *)
  streams : gmap Z (list Z);
}.
Abbreviation D := (M OutputRedirector).

Definition set_base v s := mkRedir v (history s) (histSize s) (bytesInHistory s) (histEnd s) (outputSet s) (logfile s) (streams s).
Definition set_history h b e s := mkRedir (base s) h (histSize s) b e (outputSet s) (logfile s) (streams s).
Definition set_outputSet v s := mkRedir (base s) (history s) (histSize s) (bytesInHistory s) (histEnd s) v (logfile s) (streams s).
Definition set_logfile v s := mkRedir (base s) (history s) (histSize s) (bytesInHistory s) (histEnd s) (outputSet s) v (streams s).
Definition set_streams v s := mkRedir (base s) (history s) (histSize s) (bytesInHistory s) (histEnd s) (outputSet s) (logfile s) v.

(** [mem] is the content of the new history, [cs] that of the stream buffer. *)
Definition OutputRedirector_new (mem cs : list Z) (out : gmap Z (list Z)) : OutputRedirector :=
  mkRedir (mkFdBuf cs 0) mem (64 * 1024) 0 0 ∅ None out.

(** Output to a stream. *)
Definition os_write (os : Z) (txt : list Z) : D unit :=
  m ← gets streams;
  t ← lift (of_option UseAfterFree (m !! os));
  modify (set_streams (<[os := t ++ txt]> m)).

Definition dumpHistory (os s : Z) : D unit :=
  r ← get;
  let s := if s =? -1 then histSize r else s in
  let s := if bytesInHistory r <? s then bytesInHistory r else s in
  let dumpStart := histEnd r - s in
  if dumpStart <? 0 then
    let w1 := - dumpStart in
    let dumpStart := dumpStart + histSize r in
    a ← lift (memcpy_from dumpStart w1 (history r)); os_write os a;;
    b ← lift (memcpy_from 0 (histEnd r) (history r)); os_write os b
  else a ← lift (memcpy_from dumpStart s (history r)); os_write os a.

Definition storeInHistory (data : list Z) (num : Z) : D unit :=
  r ← get;
  let off := if histSize r <? num then num - histSize r else 0 in
  let num := if histSize r <? num then histSize r else num in
  let w2 := histEnd r + num - histSize r in
  h ← lift (if w2 <=? 0 then d ← memcpy_from off num data; memcpy_to (histEnd r) d (history r)
            else d1 ← memcpy_from off (num - w2) data; h ← memcpy_to (histEnd r) d1 (history r);
                 d2 ← memcpy_from (off + (num - w2)) w2 data; memcpy_to 0 d2 h);
  let b := bytesInHistory r + num in
  let b := if histSize r <? b then histSize r else b in
  modify (set_history h b (Z.rem (histEnd r + num) (histSize r))).

Fixpoint write_all (outs : list Z) (txt : list Z) : D unit :=
  match outs with [] => mret tt | os :: outs => os_write os txt;; write_all outs txt end.

Definition writeToOstreams (data : list Z) : D unit :=
  outs ← gets outputSet; write_all (elements outs) (cstr data).

Definition writeSomeBytes (data : list Z) : D bool :=
  writeToOstreams data;; storeInHistory data (Z.of_nat (length data));; mret true.

Definition putc (c : Z) : D (option Z) := sputc base set_base writeSomeBytes c.
Definition flush : D Z := sync base set_base writeSomeBytes.

(** ** The shell command [debug] *)

Definition erase_output (os : Z) : D unit := modify (fun s => set_outputSet (outputSet s ∖ {[ os ]}) s).
Definition insert_output (os : Z) : D unit := modify (fun s => set_outputSet ({[ os ]} ∪ outputSet s) s).

(** [sockout] is the stream of the client; [os] the address of a new stream.  The
    result and whether the client is blocked and waits for a key. *)
Definition debug_command_fn (sockout os : Z) (argv : list (list Z)) : D (Z * bool) :=
  match argv with
  | [_; w] =>
      if bool_decide (w = str "hist"%string) then dumpHistory sockout (-1);; mret (0, false)
      else mret (-1, false)
  | [_; w; filename] =>
      if bool_decide (w = str "logfile"%string) then
        f ← gets logfile;
        (match f with
         | Some f =>
             os_write f [];;                                  (* [close()] *)
             modify (fun s => set_streams (delete f (streams s)) s);;
             erase_output f
         | None => mret tt
         end);;
        (if bool_decide (filename = str "off"%string) then mret tt
         else
           modify (fun s => set_logfile (Some os) (set_streams (<[os := []]> (streams s)) s));;
           insert_output os);;
        mret (-1, false)
      else mret (-1, false)
  | [_] => dumpHistory sockout (-1);; insert_output sockout;; mret (0, true)
  | _ => mret (-1, false)
  end.

(** [std_input]: a key was pressed or the time is over; the client is unblocked
    when the result is true. *)
Definition std_input (sockout : Z) (ready : bool) : D bool :=
  if ready then erase_output sockout;; mret true else mret false.

(** [quit_command_fn]: whether the process ends. *)
Definition quit_command_fn (argv : list (list Z)) : bool :=
  match argv with [_; w] => bool_decide (w = str "now!"%string) | _ => false end.

(** ** Options of the daemon *)

Record options := mkOptions {
  pidfilename : option (list Z); noDaemon : bool; testIfRunning : bool; terminate : bool }.

Definition option_flag (cur : list Z) (o : options) : options :=
  let arg a b := bool_decide (cur = str a) || bool_decide (cur = str b) in
  if arg "-N"%string "--nodaemon"%string then mkOptions (pidfilename o) true (testIfRunning o) (terminate o)
  else if arg "-k"%string "--kill"%string then mkOptions (pidfilename o) (noDaemon o) (testIfRunning o) true
  else if arg "-r"%string "--is-running"%string then mkOptions (pidfilename o) (noDaemon o) true (terminate o)
  else o.

Fixpoint options_loop (argv : list (list Z)) (o : options) : options :=
  match argv with
  | [] => o
  | [cur] => option_flag cur o
  | cur :: ((file :: rest) as more) =>
      if bool_decide (cur = str "-p"%string) || bool_decide (cur = str "--pidfile"%string)
      then options_loop rest (mkOptions (Some file) (noDaemon o) (testIfRunning o) (terminate o))
      else options_loop more (option_flag cur o)
  end.

(** What the process does: it ends, or it goes on as a daemon or not and writes its
    number into the file whose lock it keeps.  A kill is sent to [None] if the number
    in the file could not be read: the variable has no value. *)
Inductive action :=
| Exit (code : Z)
| Kill (pid : option Z) (code : Z)
| Run (daemon : bool) (pidfile : option (list Z)).

(** [isRunning]: another process holds the lock; [pidtext]: what [read] gave, if it
    gave anything; [scan_d] is [sscanf] with ["%d"]. *)
Definition parse_options (scan_d : list Z -> option Z) (argv : list (list Z)) (isRunning : bool) (pidtext : option (list Z)) : action :=
  let o := options_loop (drop 1 argv) (mkOptions None false false false) in
  match pidfilename o with
  | Some f =>
      if terminate o then
        if negb isRunning then Exit 1
        else match pidtext with Some t => Kill (scan_d t) 0 | None => Exit 0 end
      else if isRunning then Exit 2
      else if testIfRunning o then Exit 0
      else Run (negb (noDaemon o)) (Some f)
  | None => Run (negb (noDaemon o)) None
  end.
