(* ===== verification/DebugThms.v ===== *)
(** * Theorems on the debug output

    The ring of [OutputRedirector] holds exactly the last 64 KiB of everything that
    was written; the stream in front of it loses nothing; listeners see the whole
    text.  A log file that was switched off leaves a dangling pointer. *)

From stdpp Require Import gmap fin_sets.
From Stdlib Require Import Ascii String.
From S2P Require Import Prelude Bytes Names Debug.

(** ** The end of a list *)

Definition lastn {A} (n : nat) (l : list A) : list A := drop (length l - n) l.

Lemma lastn_length {A} n (l : list A) : length (lastn n l) = (length l `min` n)%nat.
Proof. unfold lastn. rewrite length_drop. lia. Qed.

Lemma lastn_app {A} n (l1 l2 : list A) : (n <= length l2)%nat -> lastn n (l1 ++ l2) = lastn n l2.
Proof.
  intros Hn. unfold lastn. rewrite length_app, drop_app_ge by lia. f_equal. lia.
Qed.

(** Both lists end with the same [n] elements, or the second one has only [n]. *)
Definition same_end {A} (n : nat) (r l : list A) : Prop :=
  exists x y t, r = x ++ t /\ l = y ++ t /\ length t = n.

Lemma same_end_lastn {A} n k (r l : list A) :
  same_end n r l -> (k <= n)%nat -> lastn k r = lastn k l.
Proof. intros (x & y & t & -> & -> & Ht) Hk. rewrite !lastn_app by lia. done. Qed.

Lemma same_end_app {A} n (d r l : list A) :
  same_end n r l -> same_end (n + length d) (r ++ d) (l ++ d).
Proof.
  intros (x & y & t & -> & -> & Ht). exists x, y, (t ++ d).
  rewrite length_app, <- !app_assoc. auto.
Qed.

Lemma same_end_le {A} n m (r l : list A) : same_end n r l -> (m <= n)%nat -> same_end m r l.
Proof.
  intros (x & y & t & -> & -> & Ht) Hm.
  exists (x ++ take (n - m) t), (y ++ take (n - m) t), (drop (n - m) t).
  rewrite <- !app_assoc, !take_drop, length_drop. split_and!; auto; lia.
Qed.

Lemma same_end_drop {A} n k (r l : list A) :
  same_end n r l -> (n + k <= length r)%nat -> same_end n (drop k r) l.
Proof.
  intros (x & y & t & -> & -> & Ht) Hk. rewrite length_app in Hk.
  exists (drop k x), y, t. rewrite drop_app_le by lia. auto.
Qed.

(** ** The ring *)

Section ring.
Context {A : Type}.
Implicit Types h d : list A.

(** The cells from the oldest to the newest. *)
Definition rot (e : nat) h : list A := drop e h ++ take e h.

Lemma rot_length e h : (e <= length h)%nat -> length (rot e h) = length h.
Proof. intros. unfold rot. rewrite length_app, length_drop, length_take. lia. Qed.

Lemma ring_write e h d : (e < length h)%nat -> (e + length d <= length h)%nat ->
  rot ((e + length d) mod length h)%nat (splice e d h) = drop (length d) (rot e h ++ d).
Proof.
  intros He Hd. unfold splice, rot. destruct (decide (e + length d = length h)%nat) as [E|E].
  - rewrite E, Nat.Div0.mod_same. cbn [drop take]. rewrite (drop_ge h (length h)) by lia.
    rewrite !app_nil_r, <- app_assoc. rewrite (drop_app_length' (drop e h)) by (rewrite length_drop; lia). done.
  - rewrite Nat.mod_small by lia.
    assert (length (take e h) = e)%nat as Ht by (rewrite length_take; lia).
    rewrite drop_app_ge, take_app_ge by lia. rewrite Ht.
    rewrite drop_app_ge, take_app_ge by lia.
    replace (e + length d - e - length d)%nat with 0%nat by lia. cbn [drop take].
    rewrite app_nil_r, <- app_assoc, drop_app_le by (rewrite length_drop; lia). by rewrite !drop_drop, Nat.add_0_r.
Qed.

Lemma ring_write_wrap e h d1 d2 : (e < length h)%nat -> (e + length d1 = length h)%nat -> (length d2 <= e)%nat ->
  rot (length d2) (splice 0 d2 (splice e d1 h)) = drop (length (d1 ++ d2)) (rot e h ++ d1 ++ d2).
Proof.
  intros He Hd Hd2. unfold splice, rot. cbn [take app Nat.add].
  assert (length (take e h) = e)%nat as Ht by (rewrite length_take; lia).
  rewrite (drop_ge h (e + length d1)%nat) by lia. rewrite app_nil_r.
  rewrite !take_0. cbn [app].   rewrite drop_app_length, take_app_length, drop_app_le by lia.
  rewrite length_app, <- !app_assoc, (drop_app_ge (drop e h)) by (rewrite length_drop; lia).
  rewrite length_drop. replace (length d1 + length d2 - (length h - e))%nat with (length d2) by lia.
  rewrite drop_app_le by lia. done.
Qed.
End ring.

(** ** The history of the redirector *)

(** [s] holds the end of the text [l]. *)
Record holds (s : OutputRedirector) (l : list Z) : Prop := {
  holds_size : 0 < histSize s;
  holds_length : Z.of_nat (length (history s)) = histSize s;
  holds_end : 0 <= histEnd s < histSize s;
  holds_bytes : bytesInHistory s = Z.of_nat (length l `min` length (history s));
  holds_text : same_end (length l `min` length (history s)) (rot (Z.to_nat (histEnd s)) (history s)) l }.

Lemma memcpy_from_ok off n l : (off + n <= length l)%nat ->
  memcpy_from (Z.of_nat off) (Z.of_nat n) l = Ok (slice off n l).
Proof.
  intros. unfold memcpy_from. rewrite !Nat2Z.id.
  repeat rewrite (proj2 (Z.leb_le _ _)) by lia. done.
Qed.
Lemma memcpy_to_ok off bs l : (off + length bs <= length l)%nat ->
  memcpy_to (Z.of_nat off) bs l = Ok (splice off bs l).
Proof.
  intros. unfold memcpy_to. rewrite !Nat2Z.id.
  repeat rewrite (proj2 (Z.leb_le _ _)) by lia. done.
Qed.

Lemma slice_all {A} (l : list A) n : n = length l -> slice 0 n l = l.
Proof. intros ->. unfold slice. rewrite drop_0. apply take_ge. lia. Qed.

Lemma slice_drop {A} off n (l : list A) : length (drop off l) = n -> slice off n l = drop off l.
Proof. intros H. unfold slice. apply take_ge. lia. Qed.

(** A write moves the end of the text by what was written. *)
Lemma holds_step s l d h' e' :
  holds s l -> (length d <= length (history s))%nat -> length h' = length (history s) ->
  0 <= e' < histSize s -> rot (Z.to_nat e') h' = drop (length d) (rot (Z.to_nat (histEnd s)) (history s) ++ d) ->
  same_end ((length l + length d) `min` length (history s)) (rot (Z.to_nat e') h') (l ++ d).
Proof.
  intros [H0 H1 H2 H3 H4] Hd Hh He Hr. rewrite Hr.
  assert (length (rot (Z.to_nat (histEnd s)) (history s)) = length (history s)) as Hl by (apply rot_length; lia).
  apply same_end_drop.
  - eapply same_end_le; [by apply same_end_app|]. lia.
  - rewrite length_app. lia.
Qed.

(** The two copies write the last cells of the data. *)
Lemma ring_store s l off d :
  holds s l -> (off <= length d)%nat -> (length d - off <= length (history s))%nat ->
  let n := Z.of_nat (length d - off) in
  let w2 := histEnd s + n - histSize s in
  exists h', (if w2 <=? 0 then x ← memcpy_from (Z.of_nat off) n d; memcpy_to (histEnd s) x (history s)
     else d1 ← memcpy_from (Z.of_nat off) (n - w2) d; h ← memcpy_to (histEnd s) d1 (history s);
          d2 ← memcpy_from (Z.of_nat off + (n - w2)) w2 d; memcpy_to 0 d2 h) = Ok h' /\
    length h' = length (history s) /\
    rot (Z.to_nat (Z.rem (histEnd s + n) (histSize s))) h' =
      drop (length d - off) (rot (Z.to_nat (histEnd s)) (history s) ++ drop off d).
Proof.
  intros [H0 H1 H2 H3 H4] Ho Hd n w2.
  remember (Z.to_nat (histEnd s)) as e eqn:Ee. set (h := history s) in *.
  assert (histEnd s = Z.of_nat e) as -> by lia. assert (histSize s = Z.of_nat (length h)) as Es by lia.
  assert (length (drop off d) = length d - off)%nat as Hx by apply length_drop.
  rewrite Z.rem_mod_nonneg by lia. destruct (Z.leb_spec w2 0) as [W|W].
  - exists (splice e (drop off d) h). unfold n. rewrite memcpy_from_ok, slice_drop by lia.
    cbn [mbind outcome_bind]. rewrite memcpy_to_ok by lia. split_and!; [done | apply splice_length; lia |].
    rewrite Es, <- Nat2Z.inj_add, <- Nat2Z.inj_mod, Nat2Z.id, <- Hx. apply ring_write; lia.
  - set (k := (length h - e)%nat). assert (n - w2 = Z.of_nat k) as -> by lia.
    set (m := (length d - off - k)%nat). assert (w2 = Z.of_nat m) as -> by lia.
    rewrite <- Nat2Z.inj_add, (memcpy_from_ok off k) by lia. cbn [mbind outcome_bind].
    rewrite memcpy_to_ok by (rewrite slice_length; lia). cbn [mbind outcome_bind].
    rewrite memcpy_from_ok by lia. cbn [mbind outcome_bind].
    assert (drop off d = slice off k d ++ slice (off + k) m d) as Ed.
    { rewrite (slice_drop (off + k)) by (rewrite length_drop; lia). unfold slice.
      rewrite <- drop_drop. by rewrite take_drop. }
    assert (length (slice off k d) = k) as L1 by (apply slice_length; lia).
    assert (length (slice (off + k) m d) = m) as L2 by (apply slice_length; lia).
    exists (splice 0 (slice (off + k) m d) (splice e (slice off k d) h)). split_and!.
    + apply (memcpy_to_ok 0). rewrite splice_length; lia.
    + rewrite !splice_length; rewrite ?splice_length; lia.
    + replace ((Z.of_nat e + n) mod histSize s) with (Z.of_nat m).
      2: { rewrite Es. apply (Z.mod_unique _ _ 1); lia. }
      rewrite Nat2Z.id, Ed, <- L2 at 1. rewrite ring_write_wrap by lia.
      f_equal. rewrite length_app. lia.
Qed.

Lemma storeInHistory_ok s l d : holds s l ->
  exists s', storeInHistory d (Z.of_nat (length d)) s = Ok (tt, s') /\ holds s' (l ++ d) /\
    base s' = base s /\ outputSet s' = outputSet s /\ histSize s' = histSize s /\ streams s' = streams s.
Proof.
  intros Hs. pose proof Hs as [H0 H1 H2 H3 H4].
  set (off := (length d - length (history s))%nat).
  unfold storeInHistory. mprim. cbv beta zeta.
  assert ((if histSize s <? Z.of_nat (length d) then Z.of_nat (length d) - histSize s else 0) = Z.of_nat off) as ->
    by (destruct (Z.ltb_spec (histSize s) (Z.of_nat (length d))); lia).
  assert ((if histSize s <? Z.of_nat (length d) then histSize s else Z.of_nat (length d)) = Z.of_nat (length d - off)) as ->
    by (destruct (Z.ltb_spec (histSize s) (Z.of_nat (length d))); lia).
  destruct (ring_store s l off d Hs) as (h' & E & Hl & Hr); [lia..|].
  erewrite M_bind_ok by (apply lift_ok; exact E). eexists. split; [reflexivity|]. split; [|done].
  assert (0 <= Z.rem (histEnd s + Z.of_nat (length d - off)) (histSize s) < histSize s) as Hm by (apply Z.rem_bound_pos; lia).
  split; cbn; rewrite ?Hl; auto.
  - rewrite length_app. destruct (Z.ltb_spec (histSize s) (bytesInHistory s + Z.of_nat (length d - off))); lia.
  - rewrite length_app, Hr.
    assert (length (drop off d) = length d - off)%nat as Hx by apply length_drop.
    assert (length (rot (Z.to_nat (histEnd s)) (history s)) = length (history s)) as Hrl by (apply rot_length; lia).
    apply same_end_drop; [|rewrite length_app; lia].
    destruct (decide (off = 0)%nat) as [->|Hoff].
    + rewrite drop_0. eapply same_end_le; [by apply same_end_app|]. lia.
    + apply same_end_le with (length d - off)%nat; [|lia].
      exists (rot (Z.to_nat (histEnd s)) (history s)), (l ++ take off d), (drop off d).
      by rewrite <- app_assoc, take_drop.
Qed.

(** ** The dump *)

Lemma lastn_lastn_min {A} n m (l : list A) : lastn (n `min` (length l `min` m)) l = lastn (n `min` m) l.
Proof. unfold lastn. f_equal. lia. Qed.

Lemma rot_end {A} e k (h : list A) : (e <= length h)%nat -> (k <= length h)%nat ->
  lastn k (rot e h) = if decide (k <= e)%nat then slice (e - k) k h else drop (e + length h - k) h ++ take e h.
Proof.
  intros He Hk. unfold lastn. rewrite rot_length by done. unfold rot. case_decide as D.
  - rewrite drop_app_ge by (rewrite length_drop; lia). rewrite length_drop. unfold slice.
    rewrite take_drop_commute. f_equal; [|f_equal]; lia.
  - rewrite drop_app_le by (rewrite length_drop; lia). rewrite drop_drop. do 2 f_equal. lia.
Qed.

Lemma os_write_ok os txt s t : streams s !! os = Some t ->
  os_write os txt s = Ok (tt, set_streams (<[os := t ++ txt]> (streams s)) s).
Proof. intros E. unfold os_write. mprim. rewrite E. by mlift. Qed.

Lemma dumpHistory_ok s l os k t : holds s l -> streams s !! os = Some t -> -1 <= k ->
  let n := if k =? -1 then Z.to_nat (histSize s) else (Z.to_nat k `min` Z.to_nat (histSize s))%nat in
  dumpHistory os k s = Ok (tt, set_streams (<[os := t ++ lastn n l]> (streams s)) s).
Proof.
  intros [H0 H1 H2 H3 H4] Ht Hk n. unfold dumpHistory. mprim. cbv beta zeta.
  set (h := history s) in *.
  set (b := (length l `min` length h)%nat) in *.
  assert ((if bytesInHistory s <? (if k =? -1 then histSize s else k) then bytesInHistory s
           else if k =? -1 then histSize s else k) = Z.of_nat (n `min` b)) as ->.
  { unfold n. destruct (Z.eqb_spec k (-1)); destruct (Z.ltb_spec (bytesInHistory s) (histSize s));
      try destruct (Z.ltb_spec (bytesInHistory s) k); lia. }
  assert (n <= length h)%nat as Hn by (unfold n; destruct (k =? -1); lia).
  assert (lastn n l = lastn (n `min` b) (rot (Z.to_nat (histEnd s)) h)) as ->.
  { rewrite (same_end_lastn b (n `min` b)%nat (rot _ h) l) by (done || lia). unfold b. rewrite lastn_lastn_min. f_equal. lia. }
  rewrite rot_end by lia. remember (Z.to_nat (histEnd s)) as e eqn:Ee.
  assert (histEnd s = Z.of_nat e) as Ee' by lia. rewrite Ee'. clearbody n. set (m := (n `min` b)%nat) in *.
  destruct (Z.ltb_spec (Z.of_nat e - Z.of_nat m) 0) as [C|C].
  - rewrite decide_False by lia.
    replace (Z.of_nat e - Z.of_nat m + histSize s) with (Z.of_nat (e + length h - m)) by lia.
    replace (- (Z.of_nat e - Z.of_nat m)) with (Z.of_nat (m - e)) by lia.
    erewrite M_bind_ok by (apply lift_ok, memcpy_from_ok; lia).
    erewrite M_bind_ok by (by apply os_write_ok).
    erewrite M_bind_ok by (apply lift_ok, (memcpy_from_ok 0); lia).
    erewrite os_write_ok by (apply lookup_insert_eq). cbn. unfold set_streams. cbn. rewrite insert_insert_eq.
    do 3 f_equal. rewrite <- app_assoc. do 2 f_equal.
    rewrite slice_drop by (rewrite length_drop; lia). done.
  - rewrite decide_True by lia. replace (Z.of_nat e - Z.of_nat m) with (Z.of_nat (e - m)) by lia.
    erewrite M_bind_ok by (apply lift_ok, memcpy_from_ok; lia). by apply os_write_ok.
Qed.

(** ** The listeners *)

Definition told (outs : gset Z) (txt : list Z) (os : Z) (t : list Z) : list Z :=
  if decide (os ∈ outs) then t ++ txt else t.

Lemma write_all_ok txt outs s : NoDup outs -> (forall os, os ∈ outs -> is_Some (streams s !! os)) ->
  exists m, write_all outs txt s = Ok (tt, set_streams m s) /\
    forall os, m !! os = told (list_to_set outs) txt os <$> streams s !! os.
Proof.
  revert s. induction outs as [|o outs IH]; intros s Hd Hl; cbn [write_all].
  - exists (streams s). split; [by destruct s|]. intros os.
    destruct (streams s !! os); cbn; [|done]. unfold told. case_decide; set_solver.
  - apply NoDup_cons in Hd as [Ho Hd]. destruct (Hl o) as [t Ht]; [left|].
    erewrite M_bind_ok by (by apply os_write_ok).
    set (s1 := set_streams _ s). destruct (IH s1 Hd) as (m & E & Hm).
    { intros os Hos. cbn. destruct (decide (os = o)) as [->|]; [rewrite lookup_insert_eq; eauto|].
      rewrite lookup_insert_ne by done. apply Hl. by right. }
    exists m. split; [exact E|]. intros os. rewrite Hm. cbn.
    destruct (decide (os = o)) as [->|Hne]; [rewrite lookup_insert_eq, Ht | rewrite lookup_insert_ne by done].
    + cbn. unfold told. repeat case_decide; set_solver.
    + destruct (streams s !! os); cbn; [|done]. unfold told. do 2 f_equal. apply decide_ext. clear - Hne. set_solver.
Qed.

Lemma cstr_id l : Forall (fun c => c <> 0) l -> cstr l = l.
Proof.
  induction 1 as [|c l Hc _ IH]; [done|]. cbn [cstr]. apply Z.eqb_neq in Hc. by rewrite Hc, IH.
Qed.

Lemma writeSomeBytes_ok s l d : holds s l -> outputSet s ⊆ dom (streams s) ->
  exists s', writeSomeBytes d s = Ok (true, s') /\ holds s' (l ++ d) /\ base s' = base s /\ outputSet s' = outputSet s /\ histSize s' = histSize s /\
    forall os, streams s' !! os = told (outputSet s) (cstr d) os <$> streams s !! os.
Proof.
  intros Hs Hd. unfold writeSomeBytes, writeToOstreams.
  destruct (write_all_ok (cstr d) (elements (outputSet s)) s) as (m & E & Hm).
  - apply NoDup_elements.
  - intros os Hos%elem_of_elements. apply elem_of_dom. set_solver.
  - erewrite M_bind_ok by (mprim; exact E).
    destruct (storeInHistory_ok (set_streams m s) l d) as (s' & E' & Hh & Hb & Ho & Hz & Hst); [by destruct Hs|].
    erewrite M_bind_ok by exact E'. exists s'. rewrite Hb, Ho, Hz, Hst. cbn. split_and!; try done.
    intros os. rewrite Hm. by rewrite list_to_set_elements_L.
Qed.

(** ** The stream buffer *)

(** [d] was written through, [p] waits in the buffer; [s0] is the state before. *)
Record buffered (s0 s : OutputRedirector) (d p : list Z) : Prop := {
  buf_holds : holds s d;
  buf_cells : length (cells (base s)) = S bufSize;
  buf_pptr : pptr (base s) = length p;
  buf_le : (length p <= bufSize)%nat;
  buf_text : take (length p) (cells (base s)) = p;
  buf_out : outputSet s = outputSet s0;
  buf_size : histSize s = histSize s0;
  buf_dom : dom (streams s) = dom (streams s0);
  buf_told : Forall (fun c => c <> 0) (d ++ p) -> forall os, streams s !! os = told (outputSet s0) d os <$> streams s0 !! os }.

Inductive op := Put (c : Z) | Sync.
Definition run_op (o : op) : D unit := match o with Put c => _ ← putc c; mret tt | Sync => _ ← flush; mret tt end.
Fixpoint run_ops (l : list op) : D unit := match l with [] => mret tt | o :: l => run_op o;; run_ops l end.
Definition chars (l : list op) : list Z := omap (fun o => match o with Put c => Some c | Sync => None end) l.

(** The abstract buffer: what was written through and what waits. *)
Definition step (dp : list Z * list Z) (o : op) : list Z * list Z :=
  match o with
  | Put c => if (length dp.2 <? bufSize)%nat then (dp.1, dp.2 ++ [c]) else (dp.1 ++ dp.2 ++ [c], [])
  | Sync => (dp.1 ++ dp.2, [])
  end.

Lemma step_text dp o : (step dp o).1 ++ (step dp o).2 = dp.1 ++ dp.2 ++ chars [o].
Proof.
  destruct dp as [d p], o as [c|]; cbn; [case_match; cbn|]; rewrite <- ?app_assoc, ?app_nil_r; done.
Qed.

(** The characters of the buffer are handed on, with one more if there is one. *)
Lemma overflow_ok s0 s d p c : buffered s0 s d p -> outputSet s0 ⊆ dom (streams s0) -> (p <> [] \/ is_Some c) ->
  exists s', overflow base set_base writeSomeBytes c s = Ok (Some (default 0 c), s') /\
    buffered s0 s' (d ++ p ++ option_list c) [].
Proof.
  intros [Hh Hc Hp Hle Ht Ho Hsz Hd Htold] Hsub Hne. unfold overflow. mprim. cbv beta zeta. rewrite Hp.
  assert ((0 <? length p)%nat || bool_decide (is_Some c) = true) as ->.
  { apply orb_true_iff. destruct Hne as [Hne|Hne]; [left | right; by apply bool_decide_eq_true].
    apply Nat.ltb_lt. destruct p; [done | cbn; lia]. }
  set (cs := match c with Some c => splice (length p) [c] (cells (base s)) | None => cells (base s) end).
  assert (length cs = S bufSize) as Hcs by (subst cs; destruct c; [rewrite splice_length; cbn; lia | done]).
  erewrite (M_bind_ok _ _ _ cs).
  2: { apply lift_ok. subst cs. destruct c; [|done]. apply memcpy_to_ok. cbn. lia. }
  mprim. erewrite M_bind_ok.
  2: { apply lift_ok, (memcpy_from_ok 0). destruct c; lia. }
  assert (slice 0 (length p + match c with Some _ => 1 | None => 0 end) cs = p ++ option_list c) as ->.
  { subst cs. unfold slice. rewrite drop_0. destruct c as [c|]; cbn [option_list].
    - unfold splice. rewrite app_assoc, take_app_le by (rewrite length_app, length_take; cbn; lia).
      rewrite take_ge by (rewrite length_app, length_take; cbn; lia). by rewrite Ht.
    - by rewrite Nat.add_0_r, app_nil_r. }
  destruct (writeSomeBytes_ok (set_base (mkFdBuf cs (length p)) s) d (p ++ option_list c)) as (s1 & E & Hh1 & Hb1 & Ho1 & Hz1 & Hs1).
  { by destruct Hh. } { cbn. by rewrite Ho, Hd. }
  erewrite M_bind_ok by exact E. cbn [negb]. mprim. mprim. eexists. split; [reflexivity|].
  split; cbn; try done; rewrite ?Hb1; cbn; try done.
  - by destruct Hh1.
  - lia.
  - by rewrite Ho1.
  - by rewrite Hz1.
  - rewrite <- Hd. apply set_eq. intros os. rewrite !elem_of_dom, Hs1. cbn. by rewrite fmap_is_Some.
  - rewrite app_nil_r. intros Hz os. rewrite Hs1. cbn. rewrite !Forall_app in Hz. destruct Hz as (HF1 & HF2 & HF3).
    rewrite Htold by (by apply Forall_app_2). rewrite cstr_id by (by apply Forall_app_2).
    rewrite Ho. destruct (streams s0 !! os); cbn; [|done]. unfold told. case_decide; [|done]. by rewrite <- !app_assoc.
Qed.

Lemma run_op_ok s0 s dp o : buffered s0 s dp.1 dp.2 -> outputSet s0 ⊆ dom (streams s0) ->
  exists s', run_op o s = Ok (tt, s') /\ buffered s0 s' (step dp o).1 (step dp o).2.
Proof.
  destruct dp as [d p]. cbn [fst snd]. intros B Hsub. pose proof B as [Hh Hc Hp Hle Ht Ho Hsz Hd Htold]. destruct o as [c|]; cbn [run_op step fst snd].
  - unfold putc, sputc. rewrite <- Hp. destruct (Nat.ltb_spec (pptr (base s)) bufSize) as [L|L].
    + eexists. split.
      { erewrite M_bind_ok; [reflexivity|]. mprim. rewrite (proj2 (Nat.ltb_lt _ _) L).
        erewrite M_bind_ok by (apply lift_ok, memcpy_to_ok; cbn; lia). mprim. reflexivity. }
      split; cbn; rewrite ?length_app; cbn; try done; try lia.
      * by destruct Hh.
      * rewrite splice_length; cbn; lia.
      * unfold splice. rewrite app_assoc, take_app_le by (rewrite length_app, length_take; cbn; lia).
        rewrite take_ge by (rewrite length_app, length_take; cbn; lia). by rewrite Hp, Ht.
      * intros Hz. apply Htold. rewrite !Forall_app in Hz. rewrite Forall_app. tauto.
    + destruct (overflow_ok s0 s d p (Some c) B Hsub) as (s' & E & B'); [by right|].
      exists s'. split; [|exact B']. erewrite M_bind_ok; [reflexivity|]. mprim.
      rewrite (proj2 (Nat.ltb_ge _ _) L). exact E.
  - destruct (decide (p = [])) as [->|E2].
    + exists s. unfold flush, sync. cbn [length] in Hp. split.
      * erewrite M_bind_ok; [reflexivity|]. erewrite M_bind_ok; [reflexivity|]. unfold overflow. mprim. cbv beta zeta. by rewrite Hp.
      * by rewrite app_nil_r.
    + destruct (overflow_ok s0 s d p None B Hsub) as (s' & E & B'); [by left|].
      exists s'. unfold flush, sync. split.
      * erewrite M_bind_ok; [reflexivity|]. erewrite M_bind_ok by exact E. reflexivity.
      * cbn [option_list] in B'. by rewrite app_nil_r in B'.
Qed.

Lemma run_ops_ok s0 l s dp : buffered s0 s dp.1 dp.2 -> outputSet s0 ⊆ dom (streams s0) ->
  exists s', run_ops l s = Ok (tt, s') /\ buffered s0 s' (foldl step dp l).1 (foldl step dp l).2.
Proof.
  revert s dp. induction l as [|o l IH]; intros s dp B Hsub; cbn [run_ops foldl]; [by exists s|].
  destruct (run_op_ok s0 s dp o B Hsub) as (s1 & E & B1). erewrite M_bind_ok by exact E. by apply IH.
Qed.

Lemma steps_text l dp : (foldl step dp l).1 ++ (foldl step dp l).2 = dp.1 ++ dp.2 ++ chars l.
Proof.
  revert dp. induction l as [|o l IH]; intros dp; cbn [foldl]; [by rewrite app_nil_r|].
  rewrite IH, (app_assoc (step dp o).1), step_text, <- !app_assoc. do 2 f_equal. by destruct o.
Qed.

Lemma new_buffered mem cs s0 : length mem = Z.to_nat (64 * 1024) -> length cs = S bufSize ->
  base s0 = mkFdBuf cs 0 -> history s0 = mem -> histSize s0 = 64 * 1024 -> bytesInHistory s0 = 0 -> histEnd s0 = 0 ->
  buffered s0 s0 [] [].
Proof.
  intros Hm Hc Eb Eh Es En Ee. split; rewrite ?Eb; cbn; try done; try lia.
  - split; rewrite ?Es, ?Ee, ?Eh, ?En; cbn; try lia. exists (rot (Z.to_nat (histEnd s0)) (history s0)), [], [].
    split_and!; rewrite ?app_nil_r; try done; by rewrite ?Ee, ?Eh.
  - intros _ os. destruct (streams s0 !! os); cbn; [|done]. unfold told. case_decide; by rewrite ?app_nil_r.
Qed.

(** C17. Debug output is not lost: whatever is put into the stream of a new
    redirector, in pieces that are flushed at any time and at the end, every
    listener has received the whole text, and [dumpHistory] prints the last [k]
    characters of it, or the last 64 KiB if [k] is -1 or larger. *)
Theorem debug_output_kept (mem cs : list Z) (outs : gset Z) (files : gmap Z (list Z)) (l : list op) :
  length mem = Z.to_nat (64 * 1024) -> length cs = S bufSize -> outs ⊆ dom files ->
  let s0 := set_outputSet outs (OutputRedirector_new mem cs files) in
  exists s, run_ops (l ++ [Sync]) s0 = Ok (tt, s) /\
    (Forall (fun c => c <> 0) (chars l) -> forall os, os ∈ outs -> streams s !! os = (fun t => t ++ chars l) <$> files !! os) /\
    (forall os t k, streams s !! os = Some t -> -1 <= k ->
      exists s', dumpHistory os k s = Ok (tt, s') /\
        streams s' !! os = Some (t ++ lastn (Z.to_nat (if k =? -1 then 64 * 1024 else k `min` (64 * 1024))) (chars l))).
Proof.
  intros Hm Hc Hsub s0.
  assert (buffered s0 s0 [] []) as B0 by (by apply (new_buffered mem cs)).
  destruct (run_ops_ok s0 (l ++ [Sync]) s0 ([], []) B0) as (s & E & B); [done|]. exists s. split; [exact E|].
  assert ((foldl step ([], []) (l ++ [Sync])).1 = chars l) as Ed.
  { rewrite foldl_app. cbn. rewrite steps_text. done. }
  assert ((foldl step ([], []) (l ++ [Sync])).2 = []) as Ep by (by rewrite foldl_app).
  rewrite Ed, Ep in B. clear Ed Ep. split.
  - intros Hz os Hos. rewrite (buf_told _ _ _ _ B) by (by rewrite app_nil_r). cbn.
    destruct (files !! os); cbn; [|done]. unfold told. by rewrite decide_True.
  - intros os t k Ht Hk. pose proof (dumpHistory_ok s (chars l) os k t (buf_holds _ _ _ _ B) Ht Hk) as Ed.
    eexists. split; [exact Ed|]. cbn [streams set_streams]. rewrite lookup_insert_eq. do 3 f_equal.
    rewrite (buf_size _ _ _ _ B). unfold s0. cbn [histSize set_outputSet OutputRedirector_new].
    destruct (Z.eqb_spec k (-1)); lia.
Qed.

Lemma debug_output_kept_witness :
  let s0 := set_outputSet {[ 7 ]} (OutputRedirector_new (replicate (Z.to_nat (64 * 1024)) 0) (replicate (S bufSize) 0) {[ 7 := [] ]}) in
  exists s, run_ops ([Put 72; Put 105; Sync; Put 33] ++ [Sync]) s0 = Ok (tt, s) /\ streams s !! 7 = Some [72; 105; 33] /\
    exists s', dumpHistory 7 2 s = Ok (tt, s') /\ streams s' !! 7 = Some [72; 105; 33; 105; 33].
Proof.
  intros s0.
  destruct (debug_output_kept (replicate (Z.to_nat (64 * 1024)) 0) (replicate (S bufSize) 0) {[ 7 ]} {[ 7 := [] ]}
    [Put 72; Put 105; Sync; Put 33]) as (s & E & Ht & Hd).
  - apply length_replicate.
  - apply length_replicate.
  - set_solver.
  - exists s. split; [exact E|].
    assert (streams s !! 7 = Some [72; 105; 33]) as E7.
    { rewrite (Ht ltac:(repeat constructor; done) 7) by set_solver. reflexivity. }
    split; [exact E7|]. destruct (Hd 7 _ 2 E7) as (s' & E' & Es'); [lia|]. exists s'. split; [exact E' | exact Es'].
Defined.

(** The base class writes everything, or a beginning of the data and fails. *)
Lemma fd_write_prefix rets data ok out : fd_writeSomeBytes rets data = Some (ok, out) ->
  if ok then out = data else exists rest, data = out ++ rest.
Proof.
  revert data ok out. induction rets as [|[ret|] rets IH]; intros data ok out E; cbn [fd_writeSomeBytes] in E; [done| |by apply IH].
  destruct (0 <? ret); [|injection E as <- <-; by exists data].
  set (n := Z.to_nat ret) in *. destruct (length data <? n)%nat; [done|].
  destruct (Nat.eqb_spec (length data) n); [by injection E as <- <-|].
  destruct (fd_writeSomeBytes rets (drop n data)) as [[ok' out']|] eqn:E'; [|done].
  apply IH in E'. injection E as <- <-. cbn in *. destruct ok'.
  - subst out'. apply take_drop.
  - destruct E' as [rest E']. exists rest. by rewrite <- app_assoc, <- E', take_drop.
Qed.

(** ** The log file *)

(** After [debug logfile off] the pointer to the log file still names the stream that
    was deleted: the next [debug logfile] closes a deleted object. *)
Theorem logfile_off_dangles (s : OutputRedirector) (sockout f f1 f2 : Z) (txt cmd name : list Z) :
  logfile s = Some f -> streams s !! f = Some txt ->
  exists s1, debug_command_fn sockout f1 [cmd; str "logfile"%string; str "off"%string] s = Ok ((-1, false), s1) /\
    debug_command_fn sockout f2 [cmd; str "logfile"%string; name] s1 = Fail UseAfterFree.
Proof.
  intros Hf Ht. eexists. split.
  - unfold debug_command_fn. rewrite bool_decide_true by done. mprim. rewrite Hf.
    erewrite M_bind_ok by (erewrite M_bind_ok by (by apply os_write_ok); mprim; reflexivity).
    reflexivity.
  - unfold debug_command_fn. rewrite bool_decide_true by done. mprim. cbn [logfile set_outputSet set_streams outputSet streams].
    rewrite Hf. apply M_bind_fail, M_bind_fail. unfold os_write. mprim. cbn [streams set_outputSet set_streams].
    by rewrite lookup_delete_eq.
Qed.

Lemma logfile_off_dangles_witness :
  let s := set_logfile (Some 7) (OutputRedirector_new [] [] {[ 7 := [] ]}) in
  exists s1, debug_command_fn 1 8 [str "debug"%string; str "logfile"%string; str "off"%string] s = Ok ((-1, false), s1) /\
    debug_command_fn 1 9 [str "debug"%string; str "logfile"%string; str "log"%string] s1 = Fail UseAfterFree.
Proof. intros s. exact (logfile_off_dangles s 1 7 8 9 [] _ _ eq_refl eq_refl). Defined.
