(* ===== verification/TopoText.v ===== *)
(** * The topology as text

    The renderings of the topology in [Topology.cc] (DOT, adjacency lists, XML, the
    table of next hops), the shell command [topo], and [dumpTopo.cc], which writes
    them to a file.

    Texts are lists of characters; in the strings of this file an apostrophe stands
    for a quotation mark.  How the event library prints a duration is [GeaPrint]. *)

From Stdlib Require Import Ascii String.
From S2P Require Import Prelude Bytes NodeId Packet Topology Names.

Definition xml (s : string) : list Z := (fun c => if c =? 39 then 34 else c) <$> str s.

Class GeaPrint := { print_duration : Z -> list Z }.

(** ** Numbers *)

Definition hex_lower (v : Z) : Z := if v <? 10 then 48 + v else 87 + v.

Fixpoint print_hex (fuel : nat) (v : Z) (acc : list Z) : list Z :=
  match fuel with
  | O => acc
  | S fuel => let acc := hex_lower (v mod 16) :: acc in if v <? 16 then acc else print_hex fuel (v / 16) acc
  end.

(** [%02x] of an [unsigned] *)
Definition sprintf_02x (v : Z) : list Z :=
  let l := print_hex 8 v [] in if (length l <? 2)%nat then 48 :: l else l.

(** [sprintf(colorstring, "%02x00%02x", q, max_quality() - q)] into 13 cells. *)
Definition colorstring (metric_weight : Z) : outcome (list Z) :=
  let q := u32 (metric_weight * 255) / 255 in
  let s := sprintf_02x q ++ str "00"%string ++ sprintf_02x (u32 (65535 - q)) in
  if (length s + 1 <=? 13)%nat then Ok s else Fail OutOfBounds.

(** [get_percentage()] as it is printed with nine decimals: the quotient is at least
    [1/131070] away from the next tie, more than the error of [double]. *)
Definition print_percentage (quality : Z) : list Z :=
  let n := (2 * (100 * 10 ^ 9 * (65535 - quality)) + 65535) / (2 * 65535) in
  let d := print_int (n mod 10 ^ 9) in
  print_int (n / 10 ^ 9) ++ [46] ++ replicate (9 - length d) 48 ++ d.

(** ** DOT *)

Fixpoint print_links (v : NodeId) (ll : list LinkQuality) : outcome (list Z) :=
  match ll with
  | [] => Ok []
  | l :: ll =>
      c ← colorstring (metric_weight l);
      r ← print_links v ll;
      Ok (str " n"%string ++ AbstractID6.print v ++ str " -> n"%string ++ AbstractID6.print (neighbor l)
          ++ xml "[color='#"%string ++ c ++ xml "']; "%string ++ r)
  end.

Fixpoint printAdjX (a : AdjList) : outcome (list Z) :=
  match a with
  | [] => Ok []
  | (k, d) :: a => t ← print_links k (linklist d); r ← printAdjX a; Ok (t ++ r)
  end.

(** [print()] on the debug stream *)
Definition print_dot (a : AdjList) : outcome (list Z) :=
  t ← printAdjX a; Ok (str "digraph topo { "%string ++ t ++ str "}"%string ++ [10]).

Definition getDotString (myNodeId : NodeId) (a : AdjList) : outcome (list Z) :=
  t ← printAdjX a;
  Ok (str "digraph topo { "%string ++ str " n"%string ++ AbstractID6.print myNodeId ++ str " [shape=box]; "%string
      ++ t ++ str "}"%string ++ [10]).

(** ** Adjacency lists *)

Definition adj_links (ll : list LinkQuality) : list Z :=
  mjoin ((fun l => AbstractID6.print (neighbor l) ++ [32]) <$> ll).
Definition getAdjString (a : AdjList) : list Z :=
  mjoin ((fun kd => AbstractID6.print kd.1 ++ [58; 32] ++ adj_links (linklist kd.2) ++ [10]) <$> a).

(** ** XML *)

Definition xml_edge (k : NodeId) (l : LinkQuality) : list Z :=
  xml "<edge from='"%string ++ AbstractID6.print k ++ xml "' to='"%string ++ AbstractID6.print (neighbor l)
  ++ xml "' ><quality value='"%string ++ print_percentage (quality l) ++ xml "%' /></edge>"%string ++ [10].

(** The nodes [todo] of [a]. *)
Fixpoint xml_nodes (a todo : AdjList) : outcome (list Z) :=
  match todo with
  | [] => Ok []
  | (k, _) :: todo =>
      n ← getNameOfNode k a;
      r ← xml_nodes a todo;
      Ok (xml "<node id='"%string ++ AbstractID6.print k ++ xml "' name='"%string ++ n ++ xml "' />"%string ++ [10] ++ r)
  end.

(** [since] is [GEA.lastEventTime - AbsTime::t0()]. *)
Definition getXmlString `{GeaPrint} (since : Z) (a : AdjList) : outcome (list Z) :=
  ns ← xml_nodes a a;
  Ok (xml "<topology timestamp='"%string ++ print_duration since ++ xml "' >"%string ++ [10] ++ ns
      ++ mjoin ((fun kd => mjoin (xml_edge kd.1 <$> linklist kd.2)) <$> a)
      ++ str "</topology>"%string ++ [10]).

Section commands.
Context `{Gea, StdSort}.

(** ** Next hops *)

(** [++itr]: the element after the node [k], which must still be there. *)
Definition al_next (k : NodeId) (a : AdjList) : outcome (option NodeId) :=
  match al_find k a with
  | Some _ => Ok (head (filter (fun k' => k < k') (a.*1)))
  | None => Fail UseAfterFree
  end.

Fixpoint next_hops_loop (fuel : nat) (t : Z) (itr : option NodeId) : T (list Z) :=
  match itr with
  | None => mret []
  | Some k =>
      match fuel with
      | O => fail OutOfFuel
      | S fuel =>
          r ← getNextHop t k AbstractID6.mk_default;
          a ← gets adjList;
          next ← lift (al_next k a);
          rest ← next_hops_loop fuel t next;
          mret (AbstractID6.print k ++ [9] ++ (if snd r : bool then AbstractID6.print (fst r) else str "------------"%string) ++ [10] ++ rest)
      end
  end.

Definition dumpNextHops (t : Z) : T (list Z) :=
  a ← gets adjList;
  r ← next_hops_loop (length a) t (head (a.*1));
  mret (str "# destination"%string ++ [9] ++ str "next hop"%string ++ [10] ++ r).

(** ** The shell command [topo]: the output; the result is always 0. *)

Definition topo_command_fn (usage : list Z) (argv : list (list Z)) (t : Z) : T (list Z) :=
  match argv with
  | [_; w] =>
      let arg s := bool_decide (w = str s) in
      if arg "dump"%string then a ← gets adjList; mret (getAdjString a ++ [10])
      else if arg "nexthops"%string then dumpNextHops t
      else if arg "get_locked"%string then l ← gets locked; mret ((if l : bool then str "true"%string else str "false"%string) ++ [10])
      else if arg "lock"%string then modify (setLocked true);; mret (str "topology is now locked"%string ++ [10])
      else if arg "unlock"%string then modify (setLocked false);; mret (str "topology is now unlocked"%string ++ [10])
      else if arg "names"%string then a ← gets adjList; mret (getNameList a)
      else mret (usage ++ [10])
  | _ => mret (usage ++ [10])
  end.
End commands.

(** ** [dumpTopo.cc] *)

Record dump_options := mkDump { dump_file : list Z; dump_append : bool; dump_type : list Z }.

(** The loop over the arguments from the second on; every option takes the next
    argument with it. *)
Fixpoint dump_loop (argv : list (list Z)) (o : dump_options) : dump_options :=
  match argv with
  | [] => o
  | w :: rest =>
      let p := match rest with p :: _ => p | [] => [] end in
      let arg s := bool_decide (w = str s) in
      let take_next := arg "--file"%string || arg "--append"%string || arg "--type"%string in
      let o := mkDump (if arg "--file"%string then p else dump_file o) (arg "--append"%string || dump_append o)
                      (if arg "--type"%string then p else dump_type o) in
      match rest with
      | _ :: rest' => if take_next then dump_loop rest' o else dump_loop rest o
      | [] => o
      end
  end.

(** What is written, where, and whether later changes follow. *)
Inductive dump :=
| DumpUsage
| DumpStream (file txt : list Z)
| DumpFile (file : list Z) (append : bool) (txt : list Z)
| DumpDebug (txt : list Z).

Definition topodump `{GeaPrint} (argv : list (list Z)) (me : NodeId) (since : Z) (a : AdjList) : outcome dump :=
  let o := dump_loop (drop 1 argv) (mkDump [] false []) in
  let arg s := bool_decide (dump_type o = str s) in
  result ← (if arg "dot"%string then getDotString me a else if arg "adj"%string then Ok (getAdjString a) else getXmlString since a);
  if arg "stream"%string then
    Ok (if bool_decide (dump_file o = []) then DumpUsage
        else DumpStream (dump_file o) (xml "<?xml version='1.0'?>"%string ++ [10] ++ str "<graph>"%string ++ [10] ++ result))
  else if bool_decide (dump_file o = []) then x ← getXmlString since a; Ok (DumpDebug ([10] ++ x ++ [10]))
  else Ok (DumpFile (dump_file o) (dump_append o) (result ++ [10])).
