(* ===== verification/TopoTextThms.v ===== *)
(** * Theorems on the texts of the topology

    The adjacency text can be read back; the DOT text overruns its colour buffer
    exactly when a link weighs more than 65535, which one-way links always do. *)

From Stdlib Require Import Ascii String.
From S2P Require Import Prelude Bytes NodeId Packet Topology RoutesThms Names TopoText.

(** ** Reading the adjacency text *)

Definition read_id (l : list Z) : option NodeId := AbstractID6.fromArray 0 <$> scan_mac 6 (take 12 l).

Fixpoint read_neighbors (fuel : nat) (l : list Z) : option (list NodeId * list Z) :=
  match fuel, l with
  | S fuel, c :: r =>
      if c =? 10 then Some ([], r) else
      i ← read_id l;
      match drop 12 l with
      | s :: l => if s =? 32 then ir ← read_neighbors fuel l; Some (i :: ir.1, ir.2) else None
      | [] => None
      end
  | _, _ => None
  end.

Fixpoint read_adj (fuel : nat) (l : list Z) : option (list (NodeId * list NodeId)) :=
  match fuel, l with
  | _, [] => Some []
  | O, _ => None
  | S fuel, _ =>
      k ← read_id l;
      nr ← read_neighbors fuel (drop 14 l);
      r ← read_adj fuel nr.2;
      Some ((k, nr.1) :: r)
  end.

Lemma print_length id : length (AbstractID6.print id) = 12%nat.
Proof. reflexivity. Qed.

Lemma read_print id l : AbstractID6.wf id -> read_id (AbstractID6.print id ++ l) = Some id.
Proof.
  intros Hid. unfold read_id. rewrite take_app_le, take_ge by (rewrite ?length_take, print_length; lia).
  rewrite print_pairs, scan_hex_pairs by (apply be_enc_bytes || apply be_enc_length). cbn [fmap option_fmap option_map].
  f_equal. rewrite AbstractID6.id6_fromArray_spec by (apply be_enc_bytes || rewrite be_enc_length; lia).
  unfold slice. rewrite drop_0, take_ge by (rewrite be_enc_length; lia). by apply be_dec_enc_id.
Qed.

Lemma print_head id l : exists c r, AbstractID6.print id ++ l = c :: r /\ (c =? 10) = false.
Proof.
  rewrite print_pairs. pose proof (be_enc_bytes 6 id) as Hb. pose proof (be_enc_length 6 id) as L.
  destruct (be_enc 6 id) as [|x b]; [done|].
  exists (byte_at AbstractID6.hexnum (Z.to_nat (x / 16))). eexists. split; [reflexivity|]. apply Forall_cons in Hb as [Hx _]. unfold is_byte in Hx.
  destruct (hex_plain (x / 16)) as [Hs _]; [split; [apply Z.div_pos | apply Z.div_lt_upper_bound]; lia|].
  apply orb_false_iff in Hs as [_ Hs]. apply andb_false_iff in Hs. destruct (Z.eqb_spec (byte_at AbstractID6.hexnum (Z.to_nat (x / 16))) 10) as [E|]; [rewrite E in Hs|done].
  destruct Hs; done.
Qed.

(** The text that starts with the identifier [k] is not empty; its first character. *)
Ltac head_of_print k :=
  match goal with |- context [AbstractID6.print k ++ ?rest] =>
    let c := fresh "c" in let r := fresh "r" in
    destruct (print_head k rest) as (c & r & E & Hc) end.

Lemma read_links ll fuel l : Forall (fun q => AbstractID6.wf (neighbor q)) ll -> (length ll < fuel)%nat ->
  read_neighbors fuel (adj_links ll ++ 10 :: l) = Some (neighbor <$> ll, l).
Proof.
  intros Hll. revert fuel. induction Hll as [|q ll Hq Hll IH]; intros [|fuel] Hf; cbn in Hf; try lia; [done|].
  unfold adj_links. cbn [fmap list_fmap mjoin list_join]. rewrite <- !app_assoc.
  head_of_print (neighbor q).
  unfold read_neighbors; fold read_neighbors. rewrite E, Hc, <- E, read_print by done. cbn [mbind option_bind].
  rewrite (drop_app_length' (AbstractID6.print (neighbor q)) _ 12 eq_refl). cbn [app Z.eqb]. fold (adj_links ll).
  rewrite IH by lia. done.
Qed.

Lemma adj_links_length ll : length (adj_links ll) = (13 * length ll)%nat.
Proof.
  induction ll as [|q ll IH]; [done|].
  change (adj_links (q :: ll)) with ((AbstractID6.print (neighbor q) ++ [32]) ++ adj_links ll).
  rewrite !length_app, IH, print_length. cbn [length]. lia.
Qed.

Definition wf_adj (a : AdjList) : Prop :=
  Forall (fun kd => AbstractID6.wf kd.1 /\ Forall (fun q => AbstractID6.wf (neighbor q)) (linklist kd.2)) a.

Lemma read_adj_string a fuel : wf_adj a -> (length (getAdjString a) <= fuel)%nat ->
  read_adj fuel (getAdjString a) = Some ((fun kd => (kd.1, neighbor <$> linklist kd.2)) <$> a).
Proof.
  intros Ha. revert fuel. induction Ha as [|[k d] a [Hk Hd] Ha IH]; intros fuel Hf; [by destruct fuel|].
  unfold getAdjString in *. cbn [fmap list_fmap mjoin list_join fst snd] in *.
  set (rest := mjoin _) in *. rewrite <- !app_assoc in *. rewrite !length_app, print_length, adj_links_length in Hf. cbn in Hf.
  destruct fuel as [|fuel]; [lia|].
  head_of_print k.
  unfold read_adj; fold read_adj. rewrite E, <- E, read_print by done. cbn [mbind option_bind].
  replace (drop 14 (AbstractID6.print k ++ [58; 32] ++ adj_links (linklist d) ++ [10] ++ rest))
    with (adj_links (linklist d) ++ 10 :: rest) by reflexivity.
  rewrite read_links by (done || lia). cbn [mbind option_bind fst snd]. rewrite IH by lia. done.
Qed.

(** C38. The adjacency text is faithful: reading [getAdjString] back gives every node
    of the topology with its neighbours, in the same order. *)
Theorem adj_text_roundtrip (a : AdjList) : wf_adj a ->
  read_adj (length (getAdjString a)) (getAdjString a) = Some ((fun kd => (kd.1, neighbor <$> linklist kd.2)) <$> a).
Proof. intros Ha. by apply read_adj_string. Qed.

Definition ex_text : AdjList :=
  [(5, set_linklist [LQ None 9 100 1] NDescr_new); (9, set_linklist [LQ None 5 200 1; LQ None 11 7 1] NDescr_new); (11, NDescr_new)].

Lemma adj_text_roundtrip_witness :
  wf_adj ex_text /\ read_adj (length (getAdjString ex_text)) (getAdjString ex_text) = Some [(5, [9]); (9, [5; 11]); (11, [])].
Proof.
  assert (wf_adj ex_text) as H by (repeat constructor; by vm_compute).
  split; [exact H | exact (adj_text_roundtrip ex_text H)].
Defined.

(** ** The DOT text *)

Lemma print_hex_acc fuel v acc : print_hex fuel v acc = print_hex fuel v [] ++ acc.
Proof.
  revert v acc. induction fuel as [|fuel IH]; intros v acc; cbn [print_hex]; [done|].
  destruct (v <? 16); [done|]. rewrite IH, (IH _ [_]), <- app_assoc. done.
Qed.

Lemma print_hex_short fuel v n : 0 <= v < 16 ^ Z.of_nat (S n) -> (length (print_hex fuel v []) <= S n)%nat.
Proof.
  revert v n. induction fuel as [|fuel IH]; intros v n Hv; cbn [print_hex]; [cbn; lia|].
  destruct (Z.ltb_spec v 16); [cbn; lia|]. rewrite print_hex_acc, length_app. cbn [length].
  destruct n as [|n]; [cbn in Hv; lia|].
  rewrite Nat2Z.inj_succ, Z.pow_succ_r in Hv by lia.
  assert (length (print_hex fuel (v / 16) []) <= S n)%nat; [|lia]. apply IH.
  split; [apply Z.div_pos; lia | apply Z.div_lt_upper_bound; lia].
Qed.

Lemma print_hex_long n fuel v : (n < fuel)%nat -> 16 ^ Z.of_nat n <= v -> (n < length (print_hex fuel v []))%nat.
Proof.
  revert v fuel. induction n as [|n IH]; intros v [|fuel] Hf Hv; try lia; cbn [print_hex].
  - destruct (v <? 16); [cbn; lia|]. rewrite print_hex_acc, length_app. cbn. lia.
  - rewrite Nat2Z.inj_succ, Z.pow_succ_r in Hv by lia. pose proof (Z.pow_pos_nonneg 16 (Z.of_nat n)).
    destruct (Z.ltb_spec v 16); [lia|]. rewrite print_hex_acc, length_app. cbn [length].
    assert (n < length (print_hex fuel (v / 16) []))%nat; [|lia]. apply IH; [lia|]. apply Z.div_le_lower_bound; lia.
Qed.

(** The weights [Metric::calculate] stores. *)
Definition clamped (w : Z) : Prop := 0 <= w <= uint32_max / 1024.

Lemma colorstring_fits w : clamped w -> (exists c, colorstring w = Ok c) <-> w <= 65535.
Proof.
  intros [H0 H1]. change (uint32_max / 1024) with 4194303 in H1. unfold colorstring.
  rewrite (wrap_id 32 (w * 255)) by (unfold in_width; lia). rewrite Z.div_mul by lia.
  rewrite !length_app. unfold sprintf_02x. change (length (str "00")) with 2%nat.
  destruct (Z.le_gt_cases w 65535) as [Hw|Hw].
  - split; [done|]. intros _. rewrite wrap_id by (unfold in_width; lia).
    pose proof (print_hex_short 8 w 3 ltac:(change (16 ^ Z.of_nat 4) with 65536; lia)) as L1.
    pose proof (print_hex_short 8 (65535 - w) 3 ltac:(change (16 ^ Z.of_nat 4) with 65536; lia)) as L2.
    rewrite (proj2 (Nat.leb_le _ 13)); [eauto|]. repeat case_match; cbn [length]; lia.
  - split; [|lia]. intros [c E]. exfalso. revert E.
    assert (u32 (65535 - w) = 65535 - w + 2 ^ 32) as -> by (symmetry; apply (Z.mod_unique _ _ (-1)); lia).
    pose proof (print_hex_long 4 8 w ltac:(lia) ltac:(change (16 ^ Z.of_nat 4) with 65536; lia)) as L1.
    pose proof (print_hex_long 7 8 (65535 - w + 2 ^ 32) ltac:(lia) ltac:(change (16 ^ Z.of_nat 7) with 268435456; lia)) as L2.
    rewrite (proj2 (Nat.leb_gt _ 13)); [done|]. repeat case_match; cbn [length]; lia.
Qed.

Definition all_weights (P : Z -> Prop) (a : AdjList) : Prop := Forall (fun kd => Forall (fun l => P (metric_weight l)) (linklist kd.2)) a.

Lemma print_links_fits k ll : Forall (fun l => clamped (metric_weight l)) ll ->
  (exists t, print_links k ll = Ok t) <-> Forall (fun l => metric_weight l <= 65535) ll.
Proof.
  induction 1 as [|l ll Hl _ IH]; cbn [print_links]; [split; eauto|].
  rewrite Forall_cons, <- IH, <- (colorstring_fits _ Hl).
  destruct (colorstring (metric_weight l)) as [c|f]; cbn [mbind outcome_bind]; [|naive_solver].
  destruct (print_links k ll); cbn [mbind outcome_bind]; naive_solver.
Qed.

Lemma printAdjX_fits a : all_weights clamped a ->
  (exists t, printAdjX a = Ok t) <-> all_weights (fun w => w <= 65535) a.
Proof.
  induction 1 as [|[k d] a Hd _ IH]; cbn [printAdjX]; [split; [constructor | eauto]|].
  unfold all_weights in *. cbn in *. rewrite Forall_cons, <- IH. cbn. rewrite <- (print_links_fits k _ Hd).
  destruct (print_links k (linklist d)) as [c|f]; cbn [mbind outcome_bind]; [|naive_solver].
  destruct (printAdjX a); cbn [mbind outcome_bind]; naive_solver.
Qed.

Lemma printAdjX_fault a f : printAdjX a = Fail f -> f = OutOfBounds.
Proof.
  assert (forall k ll f, print_links k ll = Fail f -> f = OutOfBounds) as Hl.
  { intros k ll. induction ll as [|l ll IH]; intros g E; cbn [print_links] in E; [done|].
    unfold colorstring in E. destruct (_ <=? 13)%nat; cbn [mbind outcome_bind] in E; [|by injection E].
    destruct (print_links k ll) eqn:E'; cbn [mbind outcome_bind] in E; [done|]. injection E as <-. by apply IH. }
  induction a as [|[k d] a IH]; intros E; cbn [printAdjX] in E; [done|].
  destruct (print_links k (linklist d)) eqn:E'; cbn [mbind outcome_bind] in E.
  - destruct (printAdjX a); cbn [mbind outcome_bind] in E; [done|]. injection E as ->. by apply IH.
  - injection E as <-. by eapply Hl.
Qed.

Lemma getDotString_fits me a : all_weights clamped a ->
  (exists t, getDotString me a = Ok t) <-> all_weights (fun w => w <= 65535) a.
Proof.
  intros Ha. rewrite <- printAdjX_fits by done. unfold getDotString.
  destruct (printAdjX a); cbn [mbind outcome_bind]; naive_solver.
Qed.

(** The weight of a link without its reverse. *)
Lemma calculate_one_way `{Metric} it a l : link_at it a = Ok l -> counterpart l = None ->
  calculate it a = Ok (al_modify (p_node it) (fun d => set_linklist (<[p_idx it := set_weight 4194303 l]> (linklist d)) d) a).
Proof.
  intros El Ec. unfold calculate, get_qualities. rewrite El. cbn [mbind outcome_bind]. rewrite Ec. cbn [mbind outcome_bind].
  change (Z.min uint32_max (uint32_max / 1024)) with 4194303. unfold set_metric_weight, link_modify. rewrite El.
  cbn [mbind outcome_bind].
  set (f := fun d : NDescr => set_linklist (<[p_idx it := set_weight 4194303 l]> (linklist d)) d).
  assert (link_at it (al_modify (p_node it) f a) = Ok (set_weight 4194303 l)) as ->; [|cbn [mbind outcome_bind counterpart set_weight]; by rewrite Ec].
  unfold link_at in El |- *. destruct (al_find (p_node it) a) as [d|] eqn:Ed; [|done].
  assert (al_find (p_node it) (al_modify (p_node it) f a) = Some (f d)) as ->
    by (by rewrite al_find_modify, decide_True, Ed).
  cbn [generation linklist f set_linklist]. destruct (generation d =? p_gen it)%nat; [|done].
  destruct (linklist d !! p_idx it) as [l'|] eqn:E; [|done].
  rewrite list_lookup_insert_eq by (by eapply lookup_lt_Some). done.
Qed.

(** The DOT text of the topology overruns the 13 cells of its colour string: with
    weights as the metric stores them it is printed exactly when no link weighs more
    than 65535.  A link whose reverse is unknown gets a larger weight from every
    metric, so after its calculation the text cannot be printed any more. *)
Theorem dot_text_overflows `{Metric} (me : NodeId) (a : AdjList) (it : lptr) (l : LinkQuality) :
  all_weights clamped a -> link_at it a = Ok l -> counterpart l = None ->
  ((exists t, getDotString me a = Ok t) <-> all_weights (fun w => w <= 65535) a) /\
  exists a', calculate it a = Ok a' /\ getDotString me a' = Fail OutOfBounds.
Proof.
  intros Ha El Ec. split; [by apply getDotString_fits|].
  eexists. split; [by apply calculate_one_way|]. set (a' := al_modify _ _ _).
  assert (all_weights clamped a' /\ ~ all_weights (fun w => w <= 65535) a') as [Hc Hn].
  { unfold all_weights in *. subst a'. unfold link_at in El. destruct (al_find (p_node it) a) as [d|] eqn:Ed; [|done].
    destruct (generation d =? p_gen it)%nat; [|done]. destruct (linklist d !! p_idx it) as [l'|] eqn:Elk; [|done].
    injection El as ->. clear Ec. split.
    - unfold al_modify. apply Forall_fmap. eapply Forall_impl; [exact Ha|]. intros [k d'] Hd. cbn in Hd |- *.
      destruct (k =? p_node it); cbn; [|done]. apply Forall_insert; [done|]. vm_compute. split; discriminate.
    - intros Hw. rewrite Forall_forall in Hw.
      assert ((p_node it, set_linklist (<[p_idx it := set_weight 4194303 l]> (linklist d)) d) ∈
        al_modify (p_node it) (fun d => set_linklist (<[p_idx it := set_weight 4194303 l]> (linklist d)) d) a) as Hin.
      { clear Hw Ha. induction a as [|[k d'] a IH]; [done|]. cbn in Ed |- *.
        destruct (Z.eqb_spec (p_node it) k) as [<-|Hne].
        - injection Ed as ->. rewrite Z.eqb_refl. left.
        - right. by apply IH. }
      apply Hw in Hin. cbn in Hin. rewrite Forall_forall in Hin.
      assert (set_weight 4194303 l ∈ <[p_idx it := set_weight 4194303 l]> (linklist d)) as Hl.
      { apply list_elem_of_lookup. exists (p_idx it). apply list_lookup_insert_eq. by eapply lookup_lt_Some. }
      apply Hin in Hl. cbn in Hl. lia. }
  destruct (getDotString me a') as [t|f] eqn:E.
  - destruct Hn. apply (getDotString_fits me a' Hc). eauto.
  - unfold getDotString in E. destruct (printAdjX a') eqn:E'; cbn in E; [done|]. injection E as <-.
    by rewrite (printAdjX_fault a' f0 E').
Qed.

Lemma dot_text_overflows_witness :
  let l := LQ None 9 100 0 in let a := [(5, set_linklist [l] NDescr_new)] in
  ((exists t, getDotString 5 a = Ok t) <-> all_weights (fun w => w <= 65535) a) /\
  exists a', calculate (H := hop_count) (Lptr 5 0 0) a = Ok a' /\ getDotString 5 a' = Fail OutOfBounds.
Proof.
  intros l a. apply (dot_text_overflows (H := hop_count) 5 a (Lptr 5 0 0) l); [|done..].
  repeat constructor; vm_compute; discriminate.
Defined.

(** ** The table of next hops *)

(** [dumpNextHops] asks for the first node while it stands on it; when the topology is
    out of date, that node has the smallest identifier and has expired, it is removed
    and the iterator dangles. *)
Lemma next_hops_use_after_free `{Gea, StdSort} (s s1 : RTopology) (k t : Z) :
  head ((adjList s).*1) = Some k -> dirty s = true -> adjList s <> [] ->
  updateTopology t s = Ok (tt, s1) -> al_find k (adjList s1) = None ->
  dumpNextHops t s = Fail UseAfterFree.
Proof.
  intros Hk Hd Hne E Hf. unfold dumpNextHops. mprim.
  apply M_bind_fail. destruct (adjList s) as [|kd a] eqn:Ea; [done|]. rewrite Hk. cbn [length next_hops_loop].
  erewrite M_bind_ok.
  2: { unfold getNextHop. mprim. rewrite Hd. erewrite M_bind_ok by exact E. mprim. mprim. reflexivity. }
  mprim. apply M_bind_fail. unfold al_next. by rewrite Hf.
Qed.

Lemma next_hops_use_after_free_witness :
  let s := set_adj [(1, NDescr_new); (2, set_validity 100 100 NDescr_new)] (RTopology_new (H := gea_ns) 2 50 false false false) in
  exists s1, updateTopology (H := merge_std_sort) (H0 := gea_ns) 50 s = Ok (tt, s1) /\
    dumpNextHops (H := gea_ns) (H0 := merge_std_sort) 50 s = Fail UseAfterFree.
Proof.
  intros s. eexists. split; [vm_compute; reflexivity|].
  eapply (next_hops_use_after_free (H := gea_ns) (H0 := merge_std_sort) s _ 1); [reflexivity..|discriminate| |].
  - vm_compute; reflexivity.
  - reflexivity.
Defined.
