(* ===== verification/Watch.v ===== *)
(** * Watching the topology

    [awds/Callback.h]: lists of registered functions.  [topowatch.cc]: clients that
    are connected over TCP ask for the topology with one character; a client that
    asked for XML also receives every later change.

    The address of a client's description is a number that is never given out twice,
    and so is its handle.  [write_rets] are the results of the next calls of
    [write]; when there are none left, a call takes all characters.  Creation of the
    socket and the timeouts of the handlers are calls of the operating system and of
    the event library. *)

From Stdlib Require Import Ascii String.
From S2P Require Import Prelude OMap Bytes NodeId Packet Topology Names TopoText.

(** ** [Callback<P>] *)

(** A function and its data. *)
Abbreviation Entry := (Z * Z)%type.

Definition cb_add (f data : Z) (l : list Entry) : bool * list Entry :=
  if bool_decide ((f, data) ∈ l) then (false, l) else (true, l ++ [(f, data)]).

Fixpoint cb_erase (e : Entry) (l : list Entry) : list Entry :=
  match l with [] => [] | e' :: l => if bool_decide (e' = e) then l else e' :: cb_erase e l end.
Definition cb_remove (f data : Z) (l : list Entry) : bool * list Entry :=
  if bool_decide ((f, data) ∈ l) then (true, cb_erase (f, data) l) else (false, l).

Definition cb_empty (l : list Entry) : bool := bool_decide (l = []).

(** [operator()]; [run f data] calls one function with the parameter. *)
Fixpoint cb_call {S} (run : Z -> Z -> M S bool) (l : list Entry) : M S bool :=
  match l with
  | [] => mret true
  | (f, data) :: l => ret ← run f data; if negb ret : bool then mret ret else cb_call run l
  end.

(** ** [TopoWatch] *)

Inductive WatchState := CS_Dot | CS_Adj | CS_Xml | CS_Undefined.
#[export] Instance WatchState_eq_dec : EqDecision WatchState.
Proof. solve_decision. Defined.

Record ClientDescr := mkClientDescr { cl_state : WatchState; cl_fd : Z; cl_handle : Z; cl_addr : Z }.

Record TopoWatch := mkWatch {
  clients : list (Z * ClientDescr);
  next_addr : Z;
  newXmlTopologyDelta : list Entry;     (* of the topology *)
  sent : gmap Z (list Z);               (* what the clients received, by descriptor *)
  write_rets : list Z;
}.
Abbreviation W := (M TopoWatch).

Definition TopoWatch_new : TopoWatch := mkWatch [] 1 [] ∅ [].
Definition set_clients v s := mkWatch v (next_addr s) (newXmlTopologyDelta s) (sent s) (write_rets s).
Definition set_delta v s := mkWatch (clients s) (next_addr s) v (sent s) (write_rets s).
Definition set_sent v s := mkWatch (clients s) (next_addr s) (newXmlTopologyDelta s) v (write_rets s).
Definition set_cl_state v c := mkClientDescr v (cl_fd c) (cl_handle c) (cl_addr c).

Definition fn_write_topo : Z := 12.

(** The object at an address. *)
Definition at_addr (addr : Z) (l : list (Z * ClientDescr)) : option ClientDescr :=
  snd <$> head (filter (fun kc => cl_addr kc.2 = addr) l).

(** [write(fd, data, len)] *)
Definition sys_write (fd : Z) (data : list Z) : W Z :=
  s ← get;
  let len := Z.of_nat (length data) in
  let ret := match write_rets s with [] => len | r :: _ => r end in
  modify (fun s => mkWatch (clients s) (next_addr s) (newXmlTopologyDelta s)
    (<[fd := default [] (sent s !! fd) ++ take (Z.to_nat ret) data]> (sent s)) (tail (write_rets s)));;
  mret ret.

(** The loop of [write_topo]; a negative result moves the pointer before the text. *)
Fixpoint write_loop (fuel : nat) (d : Z) (data : list Z) : W unit :=
  match data with
  | [] => mret tt
  | _ =>
      match fuel with
      | O => fail OutOfFuel
      | S fuel =>
          s ← get;
          c ← lift (of_option UseAfterFree (at_addr d (clients s)));
          ret ← sys_write (cl_fd c) data;
          lift (cassert (ret <=? Z.of_nat (length data)));;
          if ret <? 0 then fail OutOfBounds else write_loop fuel d (drop (Z.to_nat ret) data)
      end
  end.

Definition write_topo (d : Z) (txt : list Z) : W bool :=
  s ← get; write_loop (length txt + length (write_rets s)) d txt;; mret true.

(** The topology has changed. *)
Definition xml_delta (txt : list Z) : W bool :=
  s ← get; cb_call (fun f data => if f =? fn_write_topo then write_topo data txt else fail NullDeref) (newXmlTopologyDelta s).

(** [fd] is the result of [accept]. *)
Definition accept_connection (ready : bool) (fd : Z) : W unit :=
  if negb ready then mret tt else
  modify (fun s =>
    let addr := match om_find fd (clients s) with Some c => cl_addr c | None => next_addr s + 1 end in
    mkWatch (om_put fd (mkClientDescr CS_Undefined fd (next_addr s) addr) (clients s)) (next_addr s + 2)
      (newXmlTopologyDelta s) (sent s) (write_rets s)).

(** The last client with the handle [h]. *)
Definition find_handle (h : Z) (l : list (Z * ClientDescr)) : option ClientDescr :=
  snd <$> last (filter (fun kc => cl_handle kc.2 = h) l).

Definition xml_head : list Z :=
  xml "<?xml version='1.0' encoding='ISO-8859-1'?>"%string ++ [10] ++ str "<graph>"%string ++ [10].

Section watch.
Context `{GeaPrint}.

Definition put_state (c : ClientDescr) (v : WatchState) : W unit :=
  modify (fun s => set_clients (om_put (cl_fd c) (set_cl_state v c) (clients s)) s).

(** [ret] and [buffer] are what [read] returned and stored; [me], [a] and [since] are
    the topology at this time. *)
Definition read_client_data (h : Z) (ready : bool) (ret : Z) (buffer : list Z) (me : NodeId) (a : AdjList) (since : Z) : W unit :=
  if negb ready then mret tt else
  s ← get;
  c ← lift (of_option AssertFail (find_handle h (clients s)));
  if ret <=? 0 then
    (if bool_decide (cl_state c = CS_Xml)
     then modify (fun s => set_delta (snd (cb_remove fn_write_topo (cl_addr c) (newXmlTopologyDelta s))) s) else mret tt);;
    modify (fun s => set_clients (om_erase (cl_fd c) (clients s)) s)
  else
    ch ← lift (of_option OutOfBounds (buffer !! Z.to_nat (ret - 1)));
    if ch =? 100 then
      txt ← lift (getDotString me a); write_topo (cl_addr c) txt;; put_state c CS_Dot
    else if ch =? 97 then
      write_topo (cl_addr c) (getAdjString a);; put_state c CS_Adj
    else if ch =? 120 then
      x ← lift (getXmlString since a);
      write_topo (cl_addr c) (xml_head ++ x);;
      modify (fun s => set_delta (snd (cb_add fn_write_topo (cl_addr c) (newXmlTopologyDelta s))) s);;
      put_state c CS_Xml
    else put_state c CS_Undefined.
End watch.
