(* ===== verification/WatchThms.v ===== *)
(** * Theorems on the watched topology

    Clients that keep their choice are served: every change reaches exactly the
    clients that asked for XML.  A client that asks for XML and then for something
    else leaves its registration behind when it disconnects. *)

From Stdlib Require Import Ascii String.
From S2P Require Import Prelude OMap Bytes NodeId Packet Topology Names TopoText Watch.

(** ** The registry of clients *)

Definition is_xml (c : ClientDescr) : Prop := cl_state c = CS_Xml.
Definition entry_of (c : ClientDescr) : Entry := (fn_write_topo, cl_addr c).

Record watch_ok (s : TopoWatch) : Prop := {
  ok_sorted : om_sorted (clients s);
  ok_fd : forall k c, (k, c) ∈ clients s -> cl_fd c = k;
  ok_addr : forall x y, x ∈ clients s -> y ∈ clients s -> cl_addr x.2 = cl_addr y.2 -> x = y;
  ok_handle : forall x y, x ∈ clients s -> y ∈ clients s -> cl_handle x.2 = cl_handle y.2 -> x = y;
  ok_fresh : forall x, x ∈ clients s -> cl_addr x.2 < next_addr s /\ cl_handle x.2 < next_addr s;
  ok_delta : forall e, e ∈ newXmlTopologyDelta s <-> exists k c, (k, c) ∈ clients s /\ is_xml c /\ e = entry_of c;
  ok_nodup : NoDup (newXmlTopologyDelta s);
  ok_rets : write_rets s = [] }.

Lemma watch_new : watch_ok TopoWatch_new.
Proof.
  split; cbn; try done; try (intros; set_solver); try constructor.
Qed.

Lemma unique_filter {A} (P : A -> Prop) `{!forall x, Decision (P x)} (l : list A) x :
  x ∈ l -> P x -> (forall y, y ∈ l -> P y -> y = x) ->
  head (filter P l) = Some x /\ last (filter P l) = Some x.
Proof.
  intros Hx Px Hu.
  assert (Forall (fun y => y = x) (filter P l)) as Hf.
  { apply Forall_forall. intros y [Hy Hl]%list_elem_of_filter. by apply Hu. }
  assert (x ∈ filter P l) as Hin by (by apply list_elem_of_filter).
  destruct (filter P l) as [|y f]; [by apply elem_of_nil in Hin|]. split.
  - apply Forall_cons in Hf as [-> _]. done.
  - destruct (last (y :: f)) as [z|] eqn:E; [|by apply last_None in E].
    rewrite Forall_forall in Hf. f_equal. apply Hf. by apply last_Some_elem_of.
Qed.

Lemma at_addr_ok s k c : watch_ok s -> (k, c) ∈ clients s -> at_addr (cl_addr c) (clients s) = Some c.
Proof.
  intros Hs Hc. unfold at_addr.
  destruct (unique_filter (fun kc => cl_addr kc.2 = cl_addr c) (clients s) (k, c)) as [-> _]; [done..| |done].
  intros y Hy E. by apply (ok_addr s Hs).
Qed.

Lemma find_handle_ok s k c : watch_ok s -> (k, c) ∈ clients s -> find_handle (cl_handle c) (clients s) = Some c.
Proof.
  intros Hs Hc. unfold find_handle.
  destruct (unique_filter (fun kc => cl_handle kc.2 = cl_handle c) (clients s) (k, c)) as [_ ->]; [done..| |done].
  intros y Hy E. by apply (ok_handle s Hs).
Qed.

Lemma found s k c : watch_ok s -> om_find k (clients s) = Some c <-> (k, c) ∈ clients s.
Proof. intros Hs. apply om_find_elem, Hs. Qed.

Lemma found_fd s k c : watch_ok s -> (k, c) ∈ clients s -> om_find (cl_fd c) (clients s) = Some c.
Proof. intros Hs Hc. rewrite (ok_fd s Hs k c Hc). by apply found. Qed.

(** ** Writing *)

Definition got (s : TopoWatch) (fd : Z) : list Z := default [] (sent s !! fd).

Lemma write_topo_ok s d c txt : at_addr d (clients s) = Some c -> write_rets s = [] ->
  exists m, write_topo d txt s = Ok (true, set_sent m s) /\
    forall fd, default [] (m !! fd) = got s fd ++ if decide (fd = cl_fd c) then txt else [].
Proof.
  intros Hd Hr. unfold write_topo. mprim. rewrite Hr. destruct txt as [|x txt].
  - exists (sent s). split; [by destruct s|]. intros fd. case_decide; by rewrite app_nil_r.
  - cbn [length Nat.add write_loop]. set (n := (length txt + 0)%nat).
    exists (<[cl_fd c := got s (cl_fd c) ++ x :: txt]> (sent s)). split.
    + erewrite M_bind_ok; [reflexivity|]. mprim. rewrite Hd. mlift.
      erewrite M_bind_ok.
      2: { unfold sys_write. mprim. rewrite Hr. mprim. reflexivity. }
      cbn [tail]. erewrite M_bind_ok.
      2: { apply lift_ok. unfold cassert. rewrite Z.leb_refl. reflexivity. }
      rewrite (proj2 (Z.ltb_ge _ _)) by lia. rewrite Nat2Z.id, drop_all.
      rewrite take_ge by done. destruct n; unfold set_sent; rewrite Hr; reflexivity.
    + intros fd. case_decide as D; [subst fd; by rewrite lookup_insert_eq|].
      by rewrite lookup_insert_ne, app_nil_r.
Qed.

(** The functions of the list [l], whose clients are there. *)
Definition change (txt : list Z) (l : list Entry) : W bool :=
  cb_call (fun f data => if f =? fn_write_topo then write_topo data txt else fail NullDeref) l.

Lemma change_ok txt l s : watch_ok s -> NoDup l -> (forall e, e ∈ l -> exists k c, (k, c) ∈ clients s /\ e = entry_of c) ->
  exists m, change txt l s = Ok (true, set_sent m s) /\
    forall fd, default [] (m !! fd) = got s fd ++
      match om_find fd (clients s) with Some c => if decide (entry_of c ∈ l) then txt else [] | None => [] end.
Proof.
  revert s. induction l as [|e l IH]; intros s Hs Hd Hl.
  - exists (sent s). split; [by destruct s|]. intros fd. destruct (om_find fd _) as [c|]; [|by rewrite app_nil_r].
    rewrite decide_False by apply not_elem_of_nil. by rewrite app_nil_r.
  - apply NoDup_cons in Hd as [He Hd]. destruct (Hl e) as (k & c & Hc & ->); [left|].
    destruct (write_topo_ok s (cl_addr c) c txt) as (m1 & E & Hm1); [by eapply at_addr_ok | apply ok_rets, Hs|].
    destruct (IH (set_sent m1 s)) as (m & E2 & Hm).
    { by destruct Hs. } { done. } { intros e Hin. apply Hl. by right. }
    exists m. split.
    + unfold change, cb_call. cbn [entry_of]. rewrite Z.eqb_refl. erewrite M_bind_ok by exact E. exact E2.
    + intros fd. rewrite Hm. unfold got at 1. cbn [sent set_sent clients]. rewrite Hm1, <- app_assoc. f_equal.
      destruct (om_find fd (clients s)) as [c'|] eqn:Ef.
      * case_decide as D1.
        -- assert (c' = c) as -> by (rewrite D1, (found_fd s k c) in Ef by done; congruence).
           rewrite (decide_True (P := entry_of c ∈ entry_of c :: l)) by left. by rewrite decide_False, app_nil_r by done.
        -- cbn. apply decide_ext. rewrite elem_of_cons. split; [by right|]. intros [Eq|]; [|done].
           exfalso. apply D1. injection Eq as Eq. apply (found s) in Ef; [|done].
           pose proof (ok_addr s Hs _ _ Ef Hc Eq) as [= -> ->]. symmetry. by apply (ok_fd s Hs).
      * rewrite decide_False; [done|]. intros ->. by rewrite (found_fd s k c) in Ef.
Qed.

Lemma xml_delta_ok s txt : watch_ok s ->
  exists m, xml_delta txt s = Ok (true, set_sent m s) /\
    forall fd, default [] (m !! fd) = got s fd ++
      match om_find fd (clients s) with Some c => if decide (is_xml c) then txt else [] | None => [] end.
Proof.
  intros Hs. destruct (change_ok txt (newXmlTopologyDelta s) s Hs (ok_nodup s Hs)) as (m & E & Hm).
  { intros e He. apply (ok_delta s Hs) in He as (k & c & Hc & _ & He). by exists k, c. }
  exists m. split; [unfold xml_delta; mprim; exact E|]. intros fd. rewrite Hm. f_equal.
  destruct (om_find fd (clients s)) as [c|] eqn:Ef; [|done]. apply (found s) in Ef; [|done].
  apply decide_ext. rewrite (ok_delta s Hs). split.
  - intros (k' & c' & Hc' & Hx & E'). injection E' as E'. by pose proof (ok_addr s Hs _ _ Ef Hc' E') as [= -> ->].
  - intros Hx. by exists fd, c.
Qed.

(** ** Events *)

Lemma ok_sent s m : watch_ok s -> watch_ok (set_sent m s).
Proof. by intros []. Qed.

(** The clients after the state of [c] was set. *)
Definition with_state (v : WatchState) (c : ClientDescr) (s : TopoWatch) : TopoWatch :=
  set_clients (om_put (cl_fd c) (set_cl_state v c) (clients s)) s.

Lemma with_state_elem v k c s x : watch_ok s -> (k, c) ∈ clients s ->
  x ∈ clients (with_state v c s) <-> x = (k, set_cl_state v c) \/ (x ∈ clients s /\ x.1 <> k).
Proof. intros Hs Hc. cbn. rewrite om_put_elem by apply Hs. by rewrite (ok_fd s Hs k c Hc). Qed.

(** The client behind an element of the changed map. *)
Lemma with_state_old v k c s x : watch_ok s -> (k, c) ∈ clients s -> x ∈ clients (with_state v c s) ->
  exists y, y ∈ clients s /\ x.1 = y.1 /\ cl_fd x.2 = cl_fd y.2 /\ cl_addr x.2 = cl_addr y.2 /\ cl_handle x.2 = cl_handle y.2 /\
    (x = y /\ x.1 <> k \/ x = (k, set_cl_state v c) /\ y = (k, c)).
Proof.
  intros Hs Hc Hx. apply (with_state_elem v k) in Hx as [->|[Hx Hn]]; [| |done..].
  - exists (k, c). cbn. auto 10.
  - exists x. auto 10.
Qed.

Lemma ok_with_state s k c v delta : watch_ok s -> (k, c) ∈ clients s -> NoDup delta ->
  (forall e, e ∈ delta <-> (v = CS_Xml /\ e = entry_of c) \/ (exists k' c', (k', c') ∈ clients s /\ k' <> k /\ is_xml c' /\ e = entry_of c')) ->
  watch_ok (with_state v c (set_delta delta s)).
Proof.
  intros Hs Hc Hd He. pose proof (fun x => with_state_old v k c s x Hs Hc) as Hold.
  change (clients (with_state v c s)) with (clients (with_state v c (set_delta delta s))) in Hold.
  assert (forall x y y0 : Z * ClientDescr, x = y0 /\ x.1 <> k \/ x = (k, set_cl_state v c) /\ y0 = (k, c) ->
    forall y1, y = y1 /\ y.1 <> k \/ y = (k, set_cl_state v c) /\ y1 = (k, c) -> y0 = y1 -> x = y) as Huniq.
  { intros x y y0 [[-> ?]|[-> ->]] y1 [[-> ?]|[-> ->]]; naive_solver. }
  split.
  - apply om_put_sorted, Hs.
  - intros k' c' (y & Hy & E1 & E2 & _)%Hold. cbn in E1, E2. destruct y as [ky cy]. cbn in *. subst ky. rewrite E2.
    by apply (ok_fd s Hs).
  - intros x y (x' & Hx & _ & _ & Ex & _ & Dx)%Hold (y' & Hy & _ & _ & Ey & _ & Dy)%Hold E.
    apply (Huniq _ _ _ Dx _ Dy), (ok_addr s Hs); congruence.
  - intros x y (x' & Hx & _ & _ & _ & Ex & Dx)%Hold (y' & Hy & _ & _ & _ & Ey & Dy)%Hold E.
    apply (Huniq _ _ _ Dx _ Dy), (ok_handle s Hs); congruence.
  - intros x (x' & Hx & _ & _ & Ex & Ex' & _)%Hold. rewrite Ex, Ex'. by apply (ok_fresh s Hs).
  - intros e. cbn [newXmlTopologyDelta with_state set_clients set_delta]. rewrite He. split.
    + intros [[-> ->]|(k' & c' & Hc' & Hk' & Hx' & ->)].
      * exists k, (set_cl_state CS_Xml c). split; [|done]. apply (with_state_elem CS_Xml k c s); auto.
      * exists k', c'. split; [|done]. apply (with_state_elem v k c s); auto.
    + intros (k' & c' & Hin & Hx & ->). apply (with_state_elem v k c s) in Hin as [[= -> ->]|[Hin Hn]]; [left|right|done..].
      * by destruct v.
      * exists k', c'. auto.
  - done.
  - apply (ok_rets s Hs).
Qed.

Lemma ok_not_xml s k c v : watch_ok s -> (k, c) ∈ clients s -> ~ is_xml c -> v <> CS_Xml -> watch_ok (with_state v c s).
Proof.
  intros Hs Hc Hx Hv. replace s with (set_delta (newXmlTopologyDelta s) s) by by destruct s.
  eapply ok_with_state; [done | done | apply Hs |]. intros e. rewrite (ok_delta s Hs). split.
  - intros (k' & c' & Hc' & Hx' & ->). right. exists k', c'. split_and!; try done. intros ->. apply Hx.
    apply (found s) in Hc', Hc; [|done..]. congruence.
  - intros [[? _]|(k' & c' & Hc' & _ & Hx' & ->)]; [done|]. by exists k', c'.
Qed.

Lemma cb_add_elem e e' l : e ∈ snd (cb_add (fst e') (snd e') l) <-> e = e' \/ e ∈ l.
Proof.
  unfold cb_add. rewrite <- surjective_pairing. case_bool_decide as D; cbn; [naive_solver|].
  rewrite elem_of_app, list_elem_of_singleton. tauto.
Qed.

Lemma cb_add_nodup f d l : NoDup l -> NoDup (snd (cb_add f d l)).
Proof.
  intros Hl. unfold cb_add. case_bool_decide as D; cbn; [done|]. apply NoDup_app. split_and!; [done | |apply NoDup_singleton].
  intros x Hx ->%list_elem_of_singleton. done.
Qed.

Lemma ok_now_xml s k c : watch_ok s -> (k, c) ∈ clients s ->
  watch_ok (with_state CS_Xml c (set_delta (snd (cb_add fn_write_topo (cl_addr c) (newXmlTopologyDelta s))) s)).
Proof.
  intros Hs Hc. eapply ok_with_state; [done | done | apply cb_add_nodup, Hs |]. intros e.
  rewrite (cb_add_elem e (entry_of c)), (ok_delta s Hs). split.
  - intros [->|(k' & c' & Hc' & Hx' & ->)]; [by left|].
    destruct (decide (k' = k)) as [->|Hk]; [|right; by exists k', c'].
    left. split; [done|]. apply (found s) in Hc', Hc; [|done..]. congruence.
  - intros [[_ ->]|(k' & c' & Hc' & _ & Hx' & ->)]; [by left|]. right. by exists k', c'.
Qed.

Lemma ok_accept s fd : watch_ok s -> om_find fd (clients s) = None ->
  exists s', accept_connection true fd s = Ok (tt, s') /\ watch_ok s' /\ sent s' = sent s.
Proof.
  intros Hs Hf. unfold accept_connection. cbn [negb]. eexists. split; [reflexivity|]. split; [|done]. rewrite Hf.
  set (c := mkClientDescr _ _ _ _).
  assert (forall x, x ∈ clients s -> x.1 <> fd) as Hnew.
  { intros [k d] Hx E. cbn in E. subst k. apply (found s) in Hx; [|done]. cbn in Hx. congruence. }
  assert (forall x, x ∈ om_put fd c (clients s) <-> x = (fd, c) \/ x ∈ clients s) as Hin.
  { intros x. rewrite om_put_elem by apply Hs. naive_solver. }
  split; cbn.
  - apply om_put_sorted, Hs.
  - intros k d [[= -> ->]|Hx]%Hin; [done|]. by apply (ok_fd s Hs).
  - intros x y [->|Hx]%Hin [->|Hy]%Hin E; cbn in E; [done| | |by apply (ok_addr s Hs)].
    + apply (ok_fresh s Hs) in Hy. lia.
    + apply (ok_fresh s Hs) in Hx. lia.
  - intros x y [->|Hx]%Hin [->|Hy]%Hin E; cbn in E; [done| | |by apply (ok_handle s Hs)].
    + apply (ok_fresh s Hs) in Hy. lia.
    + apply (ok_fresh s Hs) in Hx. lia.
  - intros x [->|Hx]%Hin; cbn; [lia|]. apply (ok_fresh s Hs) in Hx. lia.
  - intros e. rewrite (ok_delta s Hs). split.
    + intros (k & d & Hd & Hx & ->). exists k, d. split; [|done]. apply Hin. by right.
    + intros (k & d & [[= -> ->]|Hd]%Hin & Hx & ->); [done|]. by exists k, d.
  - apply Hs.
  - apply Hs.
Qed.

Lemma cb_erase_elem e e' l : NoDup l -> e ∈ cb_erase e' l <-> e ∈ l /\ e <> e'.
Proof.
  induction l as [|x l IH]; intros Hd; cbn [cb_erase]; [set_solver|]. apply NoDup_cons in Hd as [Hx Hd].
  case_bool_decide as D; [subst x|rewrite elem_of_cons, IH by done]; rewrite ?elem_of_cons; set_solver.
Qed.

Lemma cb_erase_nodup e l : NoDup l -> NoDup (cb_erase e l).
Proof.
  induction l as [|x l IH]; intros Hd; [done|]. cbn [cb_erase]. pose proof Hd as Hd'. apply NoDup_cons in Hd as [Hx Hd].
  case_bool_decide; [done|]. apply NoDup_cons. split; [|by apply IH]. rewrite cb_erase_elem by done. tauto.
Qed.

(** The client [c] is gone, with its registration. *)
Definition closed (c : ClientDescr) (s : TopoWatch) : TopoWatch :=
  set_clients (om_erase (cl_fd c) (clients s)) (set_delta (snd (cb_remove fn_write_topo (cl_addr c) (newXmlTopologyDelta s))) s).

Lemma cb_remove_elem s k c e : watch_ok s -> (k, c) ∈ clients s ->
  e ∈ snd (cb_remove fn_write_topo (cl_addr c) (newXmlTopologyDelta s)) <-> e ∈ newXmlTopologyDelta s /\ e <> entry_of c.
Proof.
  intros Hs Hc. unfold cb_remove. case_bool_decide as D; cbn; [apply cb_erase_elem, Hs|]. split; [|tauto].
  intros He. split; [done|]. by intros ->.
Qed.

Lemma ok_closed s k c : watch_ok s -> (k, c) ∈ clients s -> watch_ok (closed c s).
Proof.
  intros Hs Hc. pose proof (ok_fd s Hs k c Hc) as Ek.
  assert (forall x, x ∈ om_erase (cl_fd c) (clients s) <-> x ∈ clients s /\ x.1 <> k) as Hin.
  { intros x. by rewrite om_erase_elem, Ek. }
  split; cbn.
  - apply om_erase_sorted, Hs.
  - intros k' d [Hx _]%Hin. by apply (ok_fd s Hs).
  - intros x y [Hx _]%Hin [Hy _]%Hin. by apply (ok_addr s Hs).
  - intros x y [Hx _]%Hin [Hy _]%Hin. by apply (ok_handle s Hs).
  - intros x [Hx _]%Hin. by apply (ok_fresh s Hs).
  - intros e. rewrite (cb_remove_elem s k c e Hs Hc), (ok_delta s Hs). split.
    + intros [(k' & d & Hd & Hx & ->) Hne]. exists k', d. split; [|done]. apply Hin. split; [done|]. cbn. intros ->.
      apply Hne. apply (found s) in Hd, Hc; [|done..]. congruence.
    + intros (k' & d & [Hd Hn]%Hin & Hx & ->). split; [by exists k', d|]. intros [= E].
      pose proof (ok_addr s Hs _ _ Hd Hc E) as [= -> ->]. done.
  - unfold cb_remove. case_bool_decide; cbn; [apply cb_erase_nodup|]; apply Hs.
  - apply Hs.
Qed.

Section events.
Context `{GeaPrint}.

(** What happens to the server: a connection, a message of a client while the
    topology is [a], the end of a connection, a change of the topology. *)
Inductive event :=
| Accept (fd : Z)
| Input (h : Z) (buf : list Z) (me : NodeId) (a : AdjList) (since : Z)
| Close (h : Z)
| Change (txt : list Z).

Definition run_event (e : event) : W unit :=
  match e with
  | Accept fd => accept_connection true fd
  | Input h buf me a since => read_client_data h true (Z.of_nat (length buf)) buf me a since
  | Close h => read_client_data h true 0 [] 0 [] 0
  | Change txt => _ ← xml_delta txt; mret tt
  end.

(** A new connection has a descriptor of its own, messages come from connected
    clients, a client that gets XML asks for nothing else, and the text of the
    topology can be printed. *)
Definition polite (e : event) (s : TopoWatch) : Prop :=
  match e with
  | Accept fd => om_find fd (clients s) = None
  | Input h buf me a since => exists k c ch, (k, c) ∈ clients s /\ cl_handle c = h /\ last buf = Some ch /\
      (is_xml c -> ch = 120) /\ (ch = 100 -> exists t, getDotString me a = Ok t) /\ (ch = 120 -> exists t, getXmlString since a = Ok t)
  | Close h => exists k c, (k, c) ∈ clients s /\ cl_handle c = h
  | Change _ => True
  end.

Lemma closed_ok s k c : watch_ok s -> (k, c) ∈ clients s ->
  read_client_data (cl_handle c) true 0 [] 0 [] 0 s = Ok (tt, closed c s).
Proof.
  intros Hs Hc. unfold read_client_data. cbn [negb]. mprim. rewrite (find_handle_ok s k c) by done. mlift.
  cbn [Z.leb Z.compare]. case_bool_decide as D; [by mprim|].
  mprim. unfold closed, cb_remove. rewrite bool_decide_false; [by destruct s|].
  intros (k' & d & Hd & Hx & E)%(ok_delta s Hs). injection E as E. apply D.
  by pose proof (ok_addr s Hs _ _ Hc Hd E) as [= -> ->].
Qed.

(** Everything up to the character that is looked at. *)
Lemma input_read s k c buf ch me a since : watch_ok s -> (k, c) ∈ clients s -> last buf = Some ch ->
  read_client_data (cl_handle c) true (Z.of_nat (length buf)) buf me a since s =
    (if ch =? 100 then
      txt ← lift (getDotString me a); write_topo (cl_addr c) txt;; put_state c CS_Dot
    else if ch =? 97 then
      write_topo (cl_addr c) (getAdjString a);; put_state c CS_Adj
    else if ch =? 120 then
      x ← lift (getXmlString since a);
      write_topo (cl_addr c) (xml_head ++ x);;
      modify (fun s => set_delta (snd (cb_add fn_write_topo (cl_addr c) (newXmlTopologyDelta s))) s);;
      put_state c CS_Xml
    else put_state c CS_Undefined) s.
Proof.
  intros Hs Hc Hl. unfold read_client_data. cbn [negb]. mprim. rewrite (find_handle_ok s k c) by done. mlift.
  assert (length buf <> 0)%nat as Hn by (intros E%nil_length_inv; by subst buf).
  rewrite (proj2 (Z.leb_gt _ _)) by lia. rewrite last_lookup in Hl.
  replace (Z.to_nat (Z.of_nat (length buf) - 1)) with (pred (length buf)) by lia. rewrite Hl. by mlift.
Qed.

Lemma writes_to s k c txt : watch_ok s -> (k, c) ∈ clients s ->
  exists m, write_topo (cl_addr c) txt s = Ok (true, set_sent m s).
Proof.
  intros Hs Hc. destruct (write_topo_ok s (cl_addr c) c txt) as (m & E & _); [by eapply at_addr_ok | apply Hs |]. eauto.
Qed.

Lemma input_ok s k c buf ch me a since : watch_ok s -> (k, c) ∈ clients s -> last buf = Some ch -> (is_xml c -> ch = 120) ->
  (ch = 100 -> exists t, getDotString me a = Ok t) -> (ch = 120 -> exists t, getXmlString since a = Ok t) ->
  exists s', read_client_data (cl_handle c) true (Z.of_nat (length buf)) buf me a since s = Ok (tt, s') /\ watch_ok s'.
Proof.
  intros Hs Hc Hl Hx Hd Hxml. rewrite (input_read s k c) with (ch := ch) by done.
  assert (forall m v, ch <> 120 -> v <> CS_Xml -> exists s', put_state c v (set_sent m s) = Ok (tt, s') /\ watch_ok s') as Hput.
  { intros m v Hch Hv. eexists. split; [reflexivity|]. apply (ok_not_xml (set_sent m s) k c v); [by apply ok_sent | done | naive_solver | done]. }
  destruct (Z.eqb_spec ch 100) as [->|].
  { destruct (Hd eq_refl) as [t ->]. mlift. destruct (writes_to s k c t Hs Hc) as [m E].
    erewrite M_bind_ok by exact E. by apply Hput. }
  destruct (Z.eqb_spec ch 97) as [->|].
  { destruct (writes_to s k c (getAdjString a) Hs Hc) as [m E]. erewrite M_bind_ok by exact E. by apply Hput. }
  destruct (Z.eqb_spec ch 120) as [->|].
  - destruct (Hxml eq_refl) as [t ->]. mlift. destruct (writes_to s k c (xml_head ++ t) Hs Hc) as [m E].
    erewrite M_bind_ok by exact E. mprim. eexists. split; [reflexivity|].
    apply (ok_now_xml (set_sent m s) k c); [by apply ok_sent | done].
  - replace s with (set_sent (sent s) s) by by destruct s. by apply Hput.
Qed.

Lemma polite_ok e s : watch_ok s -> polite e s -> exists s', run_event e s = Ok (tt, s') /\ watch_ok s'.
Proof.
  intros Hs Hp. destruct e as [fd|h buf me a since|h|txt]; cbn [run_event polite] in *.
  - destruct (ok_accept s fd Hs Hp) as (s' & E & Hs' & _). eauto.
  - destruct Hp as (k & c & ch & Hc & <- & Hl & H1 & H2 & H3). by eapply input_ok.
  - destruct Hp as (k & c & Hc & <-). eexists. split; [by eapply closed_ok | by eapply ok_closed].
  - destruct (xml_delta_ok s txt Hs) as (m & E & _). eexists. erewrite M_bind_ok by exact E.
    split; [reflexivity | by apply ok_sent].
Qed.

(** The states polite clients lead to. *)
Inductive reach : TopoWatch -> Prop :=
| reach_new : reach TopoWatch_new
| reach_event e s s' : reach s -> polite e s -> run_event e s = Ok (tt, s') -> reach s'.

Lemma reach_ok s : reach s -> watch_ok s.
Proof.
  induction 1 as [|e s s' _ IH Hp E]; [apply watch_new|].
  destruct (polite_ok e s IH Hp) as (s2 & E2 & Hs2). rewrite E in E2. by injection E2 as ->.
Qed.


(** ** Impolite clients *)

Lemma write_gone s d txt : at_addr d (clients s) = None -> txt <> [] -> write_topo d txt s = Fail UseAfterFree.
Proof.
  intros Hd Ht. unfold write_topo. mprim. destruct txt as [|x txt]; [done|]. cbn [length Nat.add write_loop].
  apply M_bind_fail. mprim. by rewrite Hd.
Qed.

Lemma at_addr_in (l : list (Z * ClientDescr)) k c : (k, c) ∈ l -> (forall x, x ∈ l -> cl_addr x.2 = cl_addr c -> x = (k, c)) ->
  at_addr (cl_addr c) l = Some c.
Proof.
  intros Hc Hu. unfold at_addr. by destruct (unique_filter (fun kc => cl_addr kc.2 = cl_addr c) l (k, c)) as [-> _].
Qed.

Lemma change_runs txt l s : write_rets s = [] ->
  (forall e, e ∈ l -> fst e = fn_write_topo /\ exists c, at_addr (snd e) (clients s) = Some c) ->
  exists m, change txt l s = Ok (true, set_sent m s).
Proof.
  intros Hr. revert s Hr. induction l as [|[f d] l IH]; intros s Hr Hl; [exists (sent s); by destruct s|].
  destruct (Hl (f, d)) as [Hf [c Hc]]; [left|]. cbn in Hf, Hc. subst f.
  destruct (write_topo_ok s d c txt Hc Hr) as (m1 & E & _).
  destruct (IH (set_sent m1 s) Hr) as [m E2]; [intros e He; apply Hl; by right|].
  exists m. unfold change. cbn [cb_call]. rewrite Z.eqb_refl. erewrite M_bind_ok by exact E. exact E2.
Qed.

Lemma change_app txt l1 l2 s s1 : change txt l1 s = Ok (true, s1) -> change txt (l1 ++ l2) s = change txt l2 s1.
Proof.
  revert s. induction l1 as [|[f d] l1 IH]; intros s E; [by injection E as ->|].
  unfold change in *. cbn [app cb_call] in E |- *. apply M_bind_inv in E as (b & s2 & E1 & E2).
  erewrite M_bind_ok by exact E1. destruct b; cbn [negb] in *; [by apply IH|]. by injection E2.
Qed.

(** A client that has asked for XML and then asks for the adjacency lists is not
    taken from the list of functions when it disconnects: the next change of the
    topology is written through a pointer to the erased description. *)
Theorem xml_client_dangles (s : TopoWatch) (k : Z) (c : ClientDescr) (me : NodeId) (a : AdjList) (since : Z) (txt : list Z) :
  reach s -> (k, c) ∈ clients s -> is_xml c -> txt <> [] ->
  exists s1 s2, run_event (Input (cl_handle c) [97] me a since) s = Ok (tt, s1) /\
    run_event (Close (cl_handle c)) s1 = Ok (tt, s2) /\ run_event (Change txt) s2 = Fail UseAfterFree.
Proof.
  intros Hr Hc Hx Ht. pose proof (reach_ok s Hr) as Hs. cbn [run_event].
  destruct (writes_to s k c (getAdjString a) Hs Hc) as [m E].
  set (s0 := set_sent m s) in *. assert (watch_ok s0) as Hs0 by by apply ok_sent.
  set (c1 := set_cl_state CS_Adj c). set (s1 := with_state CS_Adj c s0).
  assert (forall x, x ∈ clients s1 <-> x = (k, c1) \/ (x ∈ clients s /\ x.1 <> k)) as Hin by (intros x; by apply (with_state_elem CS_Adj k c s0)).
  assert (find_handle (cl_handle c) (clients s1) = Some c1) as Hf.
  { unfold find_handle. destruct (unique_filter (fun kc => cl_handle kc.2 = cl_handle c) (clients s1) (k, c1)) as [_ ->]; [|done| |done].
    - apply Hin. by left.
    - intros y [->|[Hy Hn]]%Hin Ey; [done|]. pose proof (ok_handle s Hs _ _ Hy Hc Ey) as ->. done. }
  set (s2 := set_clients (om_erase (cl_fd c) (clients s1)) s1).
  assert (forall x, x ∈ clients s2 <-> x ∈ clients s /\ x.1 <> k) as Hin2.
  { intros x. unfold s2. cbn [clients set_clients]. rewrite om_erase_elem, (ok_fd s Hs k c Hc), (Hin x). naive_solver. }
  exists s1, s2. split_and!.
  - cbn [length]. rewrite (input_read s k c [97] 97) by done. cbn [Z.eqb Pos.eqb]. erewrite M_bind_ok by exact E. reflexivity.
  - unfold read_client_data. cbn [negb]. mprim. rewrite Hf. mlift. cbn [Z.leb Z.compare].
    rewrite bool_decide_false by (by intros [=]). by mprim.
  - apply M_bind_fail. unfold xml_delta. mprim.
    change (newXmlTopologyDelta s2) with (newXmlTopologyDelta s).
    assert (entry_of c ∈ newXmlTopologyDelta s) as (l1 & l2 & El)%list_elem_of_split by (apply (ok_delta s Hs); by exists k, c).
    pose proof (ok_nodup s Hs) as Hd. rewrite El in Hd. apply NoDup_app in Hd as (Hd1 & Hd2 & _).
    change (change txt (newXmlTopologyDelta s) s2 = Fail UseAfterFree). rewrite El.
    destruct (change_runs txt l1 s2) as [m2 E2].
    { apply (ok_rets s Hs). }
    { intros e He. pose proof (Hd2 e He) as Hne.
      assert (e ∈ newXmlTopologyDelta s) as (k' & c' & Hc' & _ & ->)%(ok_delta s Hs) by (rewrite El; set_solver).
      split; [done|]. exists c'. apply at_addr_in with k'; [|by intros x [Hx' _]%Hin2 ->%(ok_addr s Hs _ _ Hx' Hc')].
      apply Hin2. split; [done|]. cbn. intros ->. apply (found s) in Hc', Hc; [|done..].
      rewrite Hc in Hc'. injection Hc' as ->. apply Hne. left. }
    rewrite (change_app _ _ _ _ _ E2). unfold change. cbn [cb_call entry_of]. rewrite Z.eqb_refl.
    apply M_bind_fail, write_gone; [|done]. cbn [clients set_sent]. unfold at_addr.
    destruct (filter _ (clients s2)) as [|y l] eqn:Ef; [done|]. exfalso.
    assert (y ∈ y :: l) as Hy by left. rewrite <- Ef in Hy. apply list_elem_of_filter in Hy as [Ey [Hy Hn]%Hin2].
    pose proof (ok_addr s Hs _ _ Hy Hc Ey) as ->. done.
Qed.
End events.

(** A server with two clients; the first one asks for XML and changes its mind. *)
Definition ex_print : GeaPrint := {| print_duration d := print_int d |}.
Definition ex_watch : TopoWatch :=
  match (accept_connection true 5;; accept_connection true 6;; run_event (H := ex_print) (Input 1 [120] 2 [] 0)) TopoWatch_new with
  | Ok (_, s) => s | Fail _ => TopoWatch_new end.
Definition ex_client : ClientDescr := mkClientDescr CS_Xml 5 1 2.

Lemma ex_watch_reach : reach (H := ex_print) ex_watch.
Proof.
  set (s1 := match accept_connection true 5 TopoWatch_new with Ok (_, s) => s | _ => TopoWatch_new end).
  set (s2 := match accept_connection true 6 s1 with Ok (_, s) => s | _ => TopoWatch_new end).
  apply (reach_event (H := ex_print) (Input 1 [120] 2 [] 0) s2).
  - apply (reach_event (H := ex_print) (Accept 6) s1); [|done | vm_compute; reflexivity].
    apply (reach_event (H := ex_print) (Accept 5) TopoWatch_new); [constructor | done | vm_compute; reflexivity].
  - cbn [polite]. exists 5, (mkClientDescr CS_Undefined 5 1 2), 120. split; [vm_compute; left|]. split_and!; try done.
    intros _. eexists. vm_compute. reflexivity.
  - vm_compute. reflexivity.
Qed.


Lemma xml_client_dangles_witness :
  exists s1 s2, run_event (H := ex_print) (Input 1 [97] 2 ex_named 0) ex_watch = Ok (tt, s1) /\ run_event (H := ex_print) (Close 1) s1 = Ok (tt, s2) /\ run_event (H := ex_print) (Change [7]) s2 = Fail UseAfterFree.
Proof.
  apply (xml_client_dangles (H := ex_print) ex_watch 5 ex_client 2 ex_named 0 [7]); [exact ex_watch_reach | | done | done].
  vm_compute. left.
Defined.
