(* ===== verification/Marshal.v ===== *)
(** * Marshal: reading and writing packets as streams

    [awds/MarshalStream.h]: streams over a piece of memory or over the body of a
    flood or unicast packet.  The accesses of the sources are not checked; one that
    leaves the memory is [OutOfBounds].  [GeaWire] is the representation of times in
    packets, which belongs to the event library. *)

From S2P Require Import Prelude Bytes NodeId Packet.

Class GeaWire := {
  abs_size : nat;                        (* [AbsTime::size] *)
  dur_size : nat;                        (* [Duration::size] *)
  abs_enc : Z -> list Z;
  abs_dec : list Z -> Z;
  dur_enc : Z -> list Z;
  dur_dec : list Z -> Z;
  on_wire : Z -> Prop;                   (* times that fit *)
  abs_enc_length : forall t, length (abs_enc t) = abs_size;
  dur_enc_length : forall d, length (dur_enc d) = dur_size;
  abs_enc_bytes : forall t, bytes (abs_enc t);
  dur_enc_bytes : forall d, bytes (dur_enc d);
  abs_dec_enc : forall t, on_wire t -> abs_dec (abs_enc t) = t;
  dur_dec_enc : forall d, on_wire d -> dur_dec (dur_enc d) = d;
  wire_small : (abs_size <= 8 /\ dur_size <= 8)%nat;
}.

Section marshal.
Context `{GeaWire}.

(** ** [ReadMarshalStream] *)

(** The memory and the position of [start] in it. *)
Record ReadMarshalStream := mkRead { r_mem : list Z; r_start : nat; r_size : nat }.

Definition Read_new (mem : list Z) (start : nat) : ReadMarshalStream := mkRead mem start 0.
Definition Read_flood (p : BasePacket) : ReadMarshalStream := mkRead (buffer p) Flood.FloodHeaderEnd 0.
Definition Read_uni (p : BasePacket) : ReadMarshalStream := mkRead (buffer p) UnicastPacket.UnicastPacketEnd 0.

(** [n] cells from the current position are read by [f]. *)
Definition reading {A} (n : nat) (f : nat -> list Z -> A) : M ReadMarshalStream A := fun r =>
  if (r_start r + r_size r + n <=? length (r_mem r))%nat
  then Ok (f (r_start r + r_size r)%nat (r_mem r), mkRead (r_mem r) (r_start r) (r_size r + n))
  else Fail OutOfBounds.

Definition read_uchar : M ReadMarshalStream Z := reading 1 (fun off mem => byte_at mem off).
Definition read_char : M ReadMarshalStream Z := reading 1 (fun off mem => s8 (byte_at mem off)).
Definition read_u32 : M ReadMarshalStream Z := reading 4 (fromArray 4).
Definition read_u16 : M ReadMarshalStream Z := reading 2 (fromArray 2).
Definition read_id : M ReadMarshalStream NodeId := reading AbstractID6.size AbstractID6.fromArray.
Definition read_abs : M ReadMarshalStream Z := reading abs_size (fun off mem => abs_dec (slice off abs_size mem)).
Definition read_dur : M ReadMarshalStream Z := reading dur_size (fun off mem => dur_dec (slice off dur_size mem)).
Definition read_block (n : nat) : M ReadMarshalStream (list Z) := reading n (fun off mem => slice off n mem).

(** ** [WriteMarshalStream] *)

(** The target is a packet or plain memory. *)
Record WriteMarshalStream := mkWrite {
  target : BasePacket + list Z;
  startPacketOffset : nat;
  w_size : nat;
}.

Definition w_mem (w : WriteMarshalStream) : list Z := match target w with inl p => buffer p | inr mem => mem end.
Definition set_w_mem (mem : list Z) (w : WriteMarshalStream) : WriteMarshalStream :=
  mkWrite (match target w with inl p => inl (set_buffer mem p) | inr _ => inr mem end) (startPacketOffset w) (w_size w).

Definition Write_new (mem : list Z) : WriteMarshalStream := mkWrite (inr mem) 0 0.
Definition Write_flood (p : BasePacket) : WriteMarshalStream := mkWrite (inl p) Flood.FloodHeaderEnd 0.
Definition Write_uni (p : BasePacket) : WriteMarshalStream := mkWrite (inl p) UnicastPacket.UnicastPacketEnd 0.

Definition writing (n : nat) (f : nat -> list Z -> list Z) : M WriteMarshalStream unit := fun w =>
  let off := (startPacketOffset w + w_size w)%nat in
  if (off + n <=? length (w_mem w))%nat
  then Ok (tt, let w' := set_w_mem (f off (w_mem w)) w in mkWrite (target w') (startPacketOffset w') (w_size w + n))
  else Fail OutOfBounds.

Definition write_uchar (c : Z) : M WriteMarshalStream unit := writing 1 (fun off mem => <[off := u8 c]> mem).
Definition write_u32 (v : Z) : M WriteMarshalStream unit := writing 4 (toArray 4 (u32 v)).
Definition write_u16 (v : Z) : M WriteMarshalStream unit := writing 2 (toArray 2 (u16 v)).
Definition write_id (id : NodeId) : M WriteMarshalStream unit := writing AbstractID6.size (AbstractID6.toArray id).
Definition write_abs (t : Z) : M WriteMarshalStream unit := writing abs_size (fun off mem => splice off (abs_enc t) mem).
Definition write_dur (d : Z) : M WriteMarshalStream unit := writing dur_size (fun off mem => splice off (dur_enc d) mem).
Definition write_block (bs : list Z) : M WriteMarshalStream unit := writing (length bs) (fun off mem => splice off bs mem).

Definition getStreamSize (w : WriteMarshalStream) : nat := w_size w.
Definition storePacketSize : M WriteMarshalStream unit := fun w =>
  match target w with
  | inl p => Ok (tt, mkWrite (inl (set_size (Z.of_nat (startPacketOffset w + getStreamSize w)) p)) (startPacketOffset w) (w_size w))
  | inr _ => Fail AssertFail
  end.
End marshal.
