(* ===== verification/MarshalThms.v ===== *)
(** * Theorems on marshal streams

    Every operator writes one item of a fixed size; a sequence of items that fits is
    read back, and one that does not fit leaves the memory. *)

From S2P Require Import Prelude Bytes NodeId Packet Marshal.

Section items.
Context `{GeaWire}.

(** What can be written, and what kind of item is read. *)
Inductive item :=
| Uchar (c : Z) | U32 (v : Z) | U16 (v : Z) | Id (i : NodeId) | Abs (t : Z) | Dur (d : Z) | Block (bs : list Z).

Definition write_item (i : item) : M WriteMarshalStream unit :=
  match i with
  | Uchar c => write_uchar c | U32 v => write_u32 v | U16 v => write_u16 v | Id i => write_id i
  | Abs t => write_abs t | Dur d => write_dur d | Block bs => write_block bs
  end.

(** Reading an item of the same kind. *)
Definition read_item (i : item) : M ReadMarshalStream item :=
  match i with
  | Uchar _ => c ← read_uchar; mret (Uchar c)
  | U32 _ => v ← read_u32; mret (U32 v)
  | U16 _ => v ← read_u16; mret (U16 v)
  | Id _ => i ← read_id; mret (Id i)
  | Abs _ => t ← read_abs; mret (Abs t)
  | Dur _ => d ← read_dur; mret (Dur d)
  | Block bs => b ← read_block (length bs); mret (Block b)
  end.

Fixpoint write_items (l : list item) : M WriteMarshalStream unit :=
  match l with [] => mret tt | i :: l => write_item i;; write_items l end.
Fixpoint read_items (l : list item) : M ReadMarshalStream (list item) :=
  match l with [] => mret [] | i :: l => x ← read_item i; r ← read_items l; mret (x :: r) end.

(** The bytes of an item. *)
Definition enc (i : item) : list Z :=
  match i with
  | Uchar c => [u8 c] | U32 v => be_enc 4 (u32 v) | U16 v => be_enc 2 (u16 v) | Id i => be_enc 6 i
  | Abs t => abs_enc t | Dur d => dur_enc d | Block bs => bs
  end.
Definition encs (l : list item) : list Z := mjoin (enc <$> l).

(** Items whose value fits its type. *)
Definition item_ok (i : item) : Prop :=
  match i with
  | Uchar c => in_width 8 c | U32 v => in_width 32 v | U16 v => in_width 16 v | Id i => AbstractID6.wf i
  | Abs t => on_wire t | Dur d => on_wire d | Block bs => bytes bs
  end.

Lemma enc_bytes i : item_ok i -> bytes (enc i).
Proof.
  destruct i; cbn [enc item_ok]; intros Hi; auto using be_enc_bytes, abs_enc_bytes, dur_enc_bytes.
  apply Forall_singleton. apply wrap_range. lia.
Qed.

(** ** Writing *)

Definition w_pos (w : WriteMarshalStream) : nat := (startPacketOffset w + w_size w)%nat.

(** The stream after [bs] was written. *)
Definition wrote (bs : list Z) (w : WriteMarshalStream) : WriteMarshalStream :=
  let w' := set_w_mem (splice (w_pos w) bs (w_mem w)) w in mkWrite (target w') (startPacketOffset w') (w_size w + length bs).

Lemma wrote_mem bs w : w_mem (wrote bs w) = splice (w_pos w) bs (w_mem w).
Proof. unfold wrote, w_mem. cbn. by destruct (target w). Qed.

Lemma writing_ok n f bs w : length bs = n ->
  ((w_pos w + n <= length (w_mem w))%nat -> f (w_pos w) (w_mem w) = splice (w_pos w) bs (w_mem w)) ->
  writing n f w = if (w_pos w + n <=? length (w_mem w))%nat then Ok (tt, wrote bs w) else Fail OutOfBounds.
Proof.
  intros Hn Hf. unfold writing. fold (w_pos w). destruct (Nat.leb_spec (w_pos w + n) (length (w_mem w))); [|done].
  rewrite Hf by done. unfold wrote. by rewrite Hn.
Qed.

Lemma write_item_ok i w :
  write_item i w = if (w_pos w + length (enc i) <=? length (w_mem w))%nat then Ok (tt, wrote (enc i) w) else Fail OutOfBounds.
Proof.
  destruct i; cbn [write_item enc]; rewrite ?be_enc_length, ?abs_enc_length, ?dur_enc_length;
    apply writing_ok; try intros Hl; rewrite ?be_enc_length, ?abs_enc_length, ?dur_enc_length; try done.
  - apply insert_splice. cbn in Hl. lia.
  - by apply toArray_spec.
  - by apply toArray_spec.
  - by apply AbstractID6.id6_toArray_spec.
Qed.

Lemma wrote_wrote a b w : (w_pos w + length (a ++ b) <= length (w_mem w))%nat -> wrote b (wrote a w) = wrote (a ++ b) w.
Proof.
  rewrite length_app. intros Hl. unfold wrote at 1. rewrite wrote_mem.
  assert (w_pos (wrote a w) = w_pos w + length a)%nat as -> by (unfold w_pos, wrote; cbn; lia).
  assert (splice (w_pos w + length a) b (splice (w_pos w) a (w_mem w)) = splice (w_pos w) (a ++ b) (w_mem w)) as ->.
  { unfold splice at 1 3. unfold splice.
    rewrite take_app_ge, drop_app_ge by (rewrite length_take; lia). rewrite length_take, Nat.min_l by lia.
    replace (w_pos w + length a - w_pos w)%nat with (length a) by lia. rewrite take_app_length.
    rewrite drop_app_ge by lia. rewrite drop_drop, length_app, <- !app_assoc. do 4 f_equal. lia. }
  unfold wrote. cbn. destruct (target w); cbn; f_equal; rewrite length_app; lia.
Qed.

Lemma wrote_length bs w : (w_pos w + length bs <= length (w_mem w))%nat -> length (w_mem (wrote bs w)) = length (w_mem w).
Proof. intros Hl. rewrite wrote_mem. by apply splice_length. Qed.

Lemma write_items_ok l w : (w_pos w <= length (w_mem w))%nat ->
  write_items l w = if (w_pos w + length (encs l) <=? length (w_mem w))%nat then Ok (tt, wrote (encs l) w) else Fail OutOfBounds.
Proof.
  revert w. induction l as [|i l IH]; intros w Hw.
  - cbn [write_items]. change (encs []) with (@nil Z). rewrite (proj2 (Nat.leb_le _ _)) by (cbn; lia).
    unfold wrote. rewrite splice_nil. destruct w as [[p|m] o n]; cbn; rewrite Nat.add_0_r; [by destruct p | done].
  - cbn [write_items]. change (encs (i :: l)) with (enc i ++ encs l). rewrite length_app.
    pose proof (write_item_ok i w) as E. destruct (Nat.leb_spec (w_pos w + length (enc i)) (length (w_mem w))) as [L|L].
    + erewrite M_bind_ok by exact E.
      assert (w_pos (wrote (enc i) w) = w_pos w + length (enc i))%nat as Ep by (unfold w_pos, wrote; cbn; lia).
      rewrite IH by (rewrite wrote_length; lia). rewrite wrote_length, Ep by done.
      destruct (Nat.leb_spec (w_pos w + length (enc i) + length (encs l)) (length (w_mem w))).
      * rewrite (proj2 (Nat.leb_le _ _)) by lia. rewrite wrote_wrote by (rewrite length_app; lia). done.
      * by rewrite (proj2 (Nat.leb_gt _ _)) by lia.
    + erewrite M_bind_fail by exact E. by rewrite (proj2 (Nat.leb_gt _ _)) by lia.
Qed.

(** ** Reading *)

Definition r_pos (r : ReadMarshalStream) : nat := (r_start r + r_size r)%nat.
Definition advance (n : nat) (r : ReadMarshalStream) : ReadMarshalStream := mkRead (r_mem r) (r_start r) (r_size r + n).

Lemma reading_ok {A} n (f : nat -> list Z -> A) r : (r_pos r + n <= length (r_mem r))%nat ->
  reading n f r = Ok (f (r_pos r) (r_mem r), advance n r).
Proof. intros Hl. unfold reading. fold (r_pos r). by rewrite (proj2 (Nat.leb_le _ _)). Qed.

Lemma read_item_ok i r : item_ok i -> bytes (r_mem r) -> (r_pos r + length (enc i) <= length (r_mem r))%nat ->
  slice (r_pos r) (length (enc i)) (r_mem r) = enc i ->
  read_item i r = Ok (i, advance (length (enc i)) r).
Proof.
  intros Hi Hb Hl He. destruct i; cbn [read_item enc item_ok] in *;
    rewrite ?be_enc_length, ?abs_enc_length, ?dur_enc_length in *; erewrite M_bind_ok by (apply reading_ok; unfold AbstractID6.size; cbn [length] in Hl; lia);
    unfold mret, M_ret; do 3 f_equal.
  - cbn [length] in He. destruct (lookup_lt_is_Some_2 (r_mem r) (r_pos r)) as [x Hx]; [cbn in Hl; lia|].
    erewrite slice_cons in He by exact Hx. injection He as He. unfold byte_at. rewrite Hx. cbn. rewrite He. by apply wrap_id.
  - rewrite fromArray_spec, He, be_dec_enc_id, wrap_id by (done || by apply wrap_range). done.
  - rewrite fromArray_spec, He, be_dec_enc_id, wrap_id by (done || by apply wrap_range). done.
  - rewrite AbstractID6.id6_fromArray_spec, He by done. by apply be_dec_enc_id.
  - rewrite He. by apply abs_dec_enc.
  - rewrite He. by apply dur_dec_enc.
  - exact He.
Qed.

Lemma slice_split {A} off n m (l a b : list A) : slice off (n + m) l = a ++ b -> length a = n ->
  slice off n l = a /\ slice (off + n) m l = b.
Proof.
  intros E <-. unfold slice in *. split.
  - pose proof (take_app_length a b) as T. rewrite <- E, take_take, Nat.min_l in T by lia. exact T.
  - pose proof (drop_app_length a b) as D. rewrite <- E, skipn_firstn_comm, drop_drop in D.
    by replace (length a + m - length a)%nat with m in D by lia.
Qed.

Lemma read_items_ok l r : Forall item_ok l -> bytes (r_mem r) -> (r_pos r + length (encs l) <= length (r_mem r))%nat ->
  slice (r_pos r) (length (encs l)) (r_mem r) = encs l ->
  read_items l r = Ok (l, advance (length (encs l)) r).
Proof.
  intros Hl Hb. revert r Hb. induction Hl as [|i l Hi Hl IH]; intros r Hb Hlen He.
  - cbn [read_items]. destruct r. unfold advance. cbn. by rewrite Nat.add_0_r.
  - change (encs (i :: l)) with (enc i ++ encs l) in *. rewrite length_app in *.
    apply slice_split in He as [He1 He2]; [|done]. cbn [read_items].
    erewrite M_bind_ok by (apply read_item_ok; done || lia).
    erewrite M_bind_ok.
    2: { apply IH; [done | unfold r_pos, advance in *; cbn; lia |]. unfold r_pos, advance in *. cbn. by rewrite Nat.add_assoc. }
    unfold mret, M_ret, advance. cbn. do 3 f_equal. lia.
Qed.

(** C39. What is written into the body of a packet is read back: if the items fit into
    the packet, writing them and storing the size succeeds, reading items of the same
    kinds gives the same values and leaves both streams at the same position, the
    size of the packet is that of the header and the items, and no byte outside of
    them has changed; if they do not fit, the writer leaves the buffer. *)
Theorem marshal_roundtrip (p : BasePacket) (l : list item) : wf_packet p -> Forall item_ok l ->
  let n := length (encs l) in
  if (UnicastPacket.UnicastPacketEnd + n <=? MaxSize)%nat then
    exists w p', (write_items l;; storePacketSize) (Write_uni p) = Ok (tt, w) /\ target w = inl p' /\ getStreamSize w = n /\
      size p' = Z.of_nat (UnicastPacket.UnicastPacketEnd + n) /\
      buffer p' = splice UnicastPacket.UnicastPacketEnd (encs l) (buffer p) /\
      exists r, read_items l (Read_uni p') = Ok (l, r) /\ r_size r = n
  else write_items l (Write_uni p) = Fail OutOfBounds.
Proof.
  intros [Hlen Hb] Hl n. pose proof (write_items_ok l (Write_uni p)) as E.
  change (w_pos (Write_uni p)) with (UnicastPacket.UnicastPacketEnd + 0)%nat in E. change (w_mem (Write_uni p)) with (buffer p) in E.
  rewrite Nat.add_0_r, Hlen in E. specialize (E ltac:(vm_compute; lia)). fold n in E.
  destruct (Nat.leb_spec (UnicastPacket.UnicastPacketEnd + n) MaxSize) as [L|L]; [|exact E].
  exists (mkWrite (inl (set_size (Z.of_nat (UnicastPacket.UnicastPacketEnd + n)) (set_buffer (splice UnicastPacket.UnicastPacketEnd (encs l) (buffer p)) p)))
    UnicastPacket.UnicastPacketEnd n).
  eexists. split; [by erewrite M_bind_ok by exact E|]. split; [done|]. split; [done|]. split; [done|]. split; [done|].
  eexists. split; [apply read_items_ok|].
  - done.
  - cbn [r_mem Read_uni buffer set_size set_buffer]. apply Forall_splice; [|done]. clear -Hl H. unfold encs. induction Hl as [|i l Hi _ IH]; [constructor|].
    cbn. apply Forall_app_2; [by apply enc_bytes | exact IH].
  - cbn [r_mem Read_uni buffer set_size set_buffer]. rewrite splice_length by (fold n; lia). rewrite Hlen. fold n.
    change (r_pos _) with (UnicastPacket.UnicastPacketEnd + 0)%nat. lia.
  - apply slice_splice_same. rewrite Hlen. done.
  - done.
Qed.
End items.

(** *** Example *)

Definition ex_wire : GeaWire.
Proof.
  refine {| abs_size := 8; dur_size := 8; abs_enc t := be_enc 8 t; abs_dec := be_dec; dur_enc d := be_enc 8 d; dur_dec := be_dec;
            on_wire := in_width 64 |}; [intros; apply be_enc_length || apply be_enc_bytes..| | |lia];
  intros t Ht; by apply be_dec_enc_id.
Defined.

Lemma marshal_roundtrip_witness :
  let l := [Uchar 105; U32 70000; Id 0x0A12CF0041B0; Dur 5; Block [1; 2]] in
  exists w p', (write_items (H := ex_wire) l;; storePacketSize) (Write_uni BasePacket_new) = Ok (tt, w) /\ target w = inl p' /\ size p' = 44 /\
    exists r, read_items (H := ex_wire) l (Read_uni p') = Ok (l, r).
Proof.
  intros l. destruct (marshal_roundtrip (H := ex_wire) BasePacket_new l BasePacket_new_wf) as (w & p' & E & Ht & _ & Hs & _ & r & Er & _).
  - repeat constructor; lia.
  - exists w, p'. split; [exact E|]. split; [exact Ht|]. split; [exact Hs|]. exists r. exact Er.
Defined.
