(* ===== verification/Double.v ===== *)
(** * Double: numbers of type [double]

    [binary64] of the Standard Library's [SpecFloat], with the operations the sources
    use: arithmetic, [std::min] and [std::max], conversion from [int], [strtod], and
    the output of [operator<<] with its default format, [%g].  The sign of a NaN is
    not part of the format and is not printed. *)

From Stdlib Require Import Ascii String SpecFloat.
From S2P Require Import Prelude Bytes NodeId Packet Topology Names.

Definition prec : Z := 53.
Definition emax : Z := 1024.
Definition double : Type := spec_float.

Definition dbl_of_Z (z : Z) : double := binary_normalize prec emax z 0 false.
Definition dbl_add : double -> double -> double := SFadd prec emax.
Definition dbl_mul : double -> double -> double := SFmul prec emax.
Definition dbl_div : double -> double -> double := SFdiv prec emax.

(** [std::min(a, b)] is [b < a ? b : a]. *)
Definition dbl_min (a b : double) : double := if SFltb b a then b else a.
Definition dbl_max (a b : double) : double := if SFltb a b then b else a.

(** The double nearest to [num/den]. *)
Definition dbl_of_ratio (neg : bool) (num den : Z) : double :=
  if num =? 0 then S754_zero neg else
  let '(m, e, l) := SFdiv_core_binary prec emax num 0 den 0 in binary_round_aux prec emax neg m e l.

(** ** [%g] *)

(** The number of decimal digits; a double needs less than 400. *)
Fixpoint ndigits (fuel : nat) (v : Z) : Z :=
  match fuel with O => 0 | S fuel => if v <? 10 then 1 else 1 + ndigits fuel (v / 10) end.
(** The smallest [k] with [den <= num * 10^k]. *)
Fixpoint small_exp (fuel : nat) (num den : Z) : Z :=
  match fuel with O => 0 | S fuel => if den <=? num then 0 else 1 + small_exp fuel (num * 10) den end.

Definition dec_exp (num den : Z) : Z :=
  if den <=? num then ndigits 400 (num / den) - 1 else - small_exp 400 num den.

Definition round_half_even (num den : Z) : Z :=
  let q := num / den in
  match 2 * (num mod den) ?= den with Lt => q | Gt => q + 1 | Eq => if Z.even q then q else q + 1 end.

Definition scale10 (k num den : Z) : Z * Z := if 0 <=? k then (num * 10 ^ k, den) else (num, den * 10 ^ (- k)).

(** Six significant digits and the exponent of the first. *)
Definition sig6 (num den : Z) : Z * Z :=
  let x := dec_exp num den in
  let '(n, d) := scale10 (5 - x) num den in
  let D := round_half_even n d in
  if D =? 10 ^ 6 then (10 ^ 5, x + 1) else (D, x).

Fixpoint drop_zeros (l : list Z) : list Z := match l with 48 :: l => drop_zeros l | _ => l end.
Definition strip (l : list Z) : list Z := reverse (drop_zeros (reverse l)).
Definition with_fraction (i f : list Z) : list Z := match strip f with [] => i | f => i ++ 46 :: f end.

Definition print_sig (D x : Z) : list Z :=
  let ds := print_int D in
  if (-4 <=? x) && (x <? 6) then
    if 0 <=? x then with_fraction (take (Z.to_nat (x + 1)) ds) (drop (Z.to_nat (x + 1)) ds)
    else with_fraction [48] (replicate (Z.to_nat (- x - 1)) 48 ++ ds)
  else
    let e := print_int (Z.abs x) in
    with_fraction (take 1 ds) (drop 1 ds) ++ [101; if x <? 0 then 45 else 43] ++ (if (length e <? 2)%nat then 48 :: e else e).

Definition print_double (d : double) : list Z :=
  match d with
  | S754_zero s => if s then str "-0"%string else str "0"%string
  | S754_infinity s => if s then str "-inf"%string else str "inf"%string
  | S754_nan => str "nan"%string
  | S754_finite s m e =>
      let '(num, den) := if 0 <=? e then (Z.pos m * 2 ^ e, 1) else (Z.pos m, 2 ^ (- e)) in
      let '(D, x) := sig6 num den in
      (if s then [45] else []) ++ print_sig D x
  end.

(** ** [strtod] *)

Definition lower (c : Z) : Z := if (65 <=? c) && (c <=? 90) then c + 32 else c.

(** The rest behind the prefix [p], letters in any case. *)
Fixpoint strip_prefix (p l : list Z) : option (list Z) :=
  match p, l with
  | [], _ => Some l
  | c :: p, d :: l => if lower d =? c then strip_prefix p l else None
  | _, [] => None
  end.

(** The sign of a number and the rest. *)
Definition read_sign (l : list Z) : bool * list Z :=
  match l with
  | c :: l' => if c =? 45 then (true, l') else if c =? 43 then (false, l') else (false, l)
  | [] => (false, [])
  end.

(** Digits with an optional point: the value without the point, the number of
    digits behind it, and the rest; [None] without a digit. *)
Definition read_mantissa (base : Z) (l : list Z) : option (Z * Z * list Z) :=
  let '(v, n, l1) := read_digits base 0 0 l in
  match l1 with
  | 46 :: l2 =>
      let '(v', n', l3) := read_digits base v 0 l2 in
      if (n + n' =? 0)%nat then None else Some (v', Z.of_nat n', l3)
  | _ => if (n =? 0)%nat then None else Some (v, 0, l1)
  end.

(** The exponent behind the letter [c], if there is one. *)
Definition read_exponent (c : Z) (l : list Z) : Z * list Z :=
  match l with
  | x :: l1 =>
      if lower x =? c then
        let '(neg, l2) := read_sign l1 in
        let '(v, n, l3) := read_digits 10 0 0 l2 in
        if (n =? 0)%nat then (0, l) else (if neg then - v else v, l3)
      else (0, l)
  | [] => (0, [])
  end.

(** [m * base^e]; beyond the range of the type the power is not computed. *)
Definition scaled (neg : bool) (base m e : Z) : double :=
  if m =? 0 then S754_zero neg
  else if 1100 <? Z.log2 m + e * (if 0 <=? e then Z.log2 base else Z.log2_up base) then S754_infinity neg
  else if Z.log2 m + 1 + e * (if 0 <=? e then Z.log2_up base else Z.log2 base) <? -1100 then S754_zero neg
  else if 0 <=? e then dbl_of_ratio neg (m * base ^ e) 1 else dbl_of_ratio neg m (base ^ (- e)).

Definition nan_chars (l : list Z) : list Z :=
  match l with
  | 40 :: l1 =>
      let fix go l := match l with c :: l => if isalnum c || (c =? 95) then go l else if c =? 41 then Some l else None | [] => None end in
      default l (go l1)
  | _ => l
  end.

(** [strtod(l, &end)]: the value and [end]; [None] if no conversion was done. *)
Definition strtod (l : list Z) : option (double * list Z) :=
  let '(neg, l) := read_sign (skip_spaces l) in
  match strip_prefix (str "infinity"%string) l, strip_prefix (str "inf"%string) l, strip_prefix (str "nan"%string) l with
  | Some r, _, _ => Some (S754_infinity neg, r)
  | None, Some r, _ => Some (S754_infinity neg, r)
  | None, None, Some r => Some (S754_nan, nan_chars r)
  | None, None, None =>
      match (r ← strip_prefix (str "0x"%string) l; read_mantissa 16 r) with
      | Some (m, f, r) => let '(e, r) := read_exponent 112 r in Some (scaled neg 2 m (e - 4 * f), r)
      | None =>
          '(m, f, r) ← read_mantissa 10 l;
          let '(e, r) := read_exponent 101 r in Some (scaled neg 10 m (e - f), r)
      end
  end.

(** [atof]; errors give 0. *)
Definition atof (l : list Z) : double := match strtod l with Some (d, _) => d | None => S754_zero false end.

(** The conversion to an integer type with values up to [max]: the fraction is cut off,
    a value that does not fit is undefined. *)
Definition dbl_trunc (d : double) : option Z :=
  match d with
  | S754_zero _ => Some 0
  | S754_finite s m e => let v := if 0 <=? e then Z.pos m * 2 ^ e else Z.pos m / 2 ^ (- e) in Some (if s then - v else v)
  | _ => None
  end.
Definition dbl_to_unsigned (max : Z) (d : double) : outcome Z :=
  match dbl_trunc d with Some v => if (0 <=? v) && (v <=? max) then Ok v else Fail BadCast | None => Fail BadCast end.

(** ** Examples *)

Example prints : (fun zd => print_double (dbl_of_ratio false zd.1 zd.2)) <$> [(1, 3); (100, 1); (1234567, 1); (5000000, 1); (1, 100000); (1, 10)]
  = str <$> ["0.333333"; "100"; "1.23457e+06"; "5e+06"; "1e-05"; "0.1"]%string.
Proof. vm_compute. reflexivity. Qed.

Example reads : (fun s => prod_map print_double id <$> strtod (str s)) <$> ["0.25x"; "-1e3"; "0x.8p1"; ".e1"; "1e400"; " 1e"]%string
  = [Some (str "0.25", str "x"); Some (str "-1000", []); Some (str "1", []); None; Some (str "inf", []); Some (str "1", str "e")]%string.
Proof. vm_compute. reflexivity. Qed.
