(* ===== verification/Ping.v ===== *)
(** * Ping: round trips between stations

    [pinger.cc]: the command [ping] sends a packet with a time stamp every [period];
    the station that receives it sends it back, and the round trip is the time since
    the stamp.

    The object [Pinger] is part of the module state [PingWorld], with the shell whose
    clients it writes to and the log of the daemon.  A pointer to a shell client is
    its number in the table of clients.  Conversions between times and [double] belong
    to the event library ([GeaSeconds]). *)

From Stdlib Require Import Ascii String SpecFloat.
From S2P Require Import Prelude Bytes NodeId FloodHist Ccm CryptoUnit Names Filter Topology SendQueue Neighbors Metrics Packet Routing Station Shell Marshal Double.

Class GeaSeconds := {
  setSeconds : double -> Z;
  getNanoSecsD : Z -> double;
}.

Definition PACKET_TYPE_UC_PING : Z := 42.

Definition PingTraceNum : nat := UnicastPacket.UnicastPacketEnd.
Definition PingDirection : nat := PingTraceNum + 2.
Definition PingTimeStamp : nat := PingDirection + 1.
Definition PingHeaderEnd : nat := PingTimeStamp + 8.

Record Stats := mkStats { minRTT : double; maxRTT : double; sumRTT : double; numReceived : Z; numTransmitted : Z }.

(** [out] and [shellClient] are pointers to a client; [out] is null for the log of
    the daemon.  [pending] is the handle the next packet waits for, [None] for the
    blocker, and the time. *)
Record Pinger := mkPinger {
  busy : bool;
  dest : NodeId;
  ttl : Z;
  numRepeat : Z;
  doTracePath : bool;
  stats : Stats;
  out : option Z;
  shellClient : option Z;
  period : Z;
  pingSize : Z;
  myT0 : Z;
  pending : option (option Z * Z);
}.

Record PingWorld := mkPing { pinger : Pinger; shell : TcpShell unit; dbg_log : list Z }.

Definition set_busy v g := mkPinger v (dest g) (ttl g) (numRepeat g) (doTracePath g) (stats g) (out g) (shellClient g) (period g) (pingSize g) (myT0 g) (pending g).
Definition set_target v g := mkPinger (busy g) v (ttl g) (numRepeat g) (doTracePath g) (stats g) (out g) (shellClient g) (period g) (pingSize g) (myT0 g) (pending g).
Definition set_ttl v g := mkPinger (busy g) (dest g) v (numRepeat g) (doTracePath g) (stats g) (out g) (shellClient g) (period g) (pingSize g) (myT0 g) (pending g).
Definition set_numRepeat v g := mkPinger (busy g) (dest g) (ttl g) v (doTracePath g) (stats g) (out g) (shellClient g) (period g) (pingSize g) (myT0 g) (pending g).
Definition set_doTracePath v g := mkPinger (busy g) (dest g) (ttl g) (numRepeat g) v (stats g) (out g) (shellClient g) (period g) (pingSize g) (myT0 g) (pending g).
Definition set_stats v g := mkPinger (busy g) (dest g) (ttl g) (numRepeat g) (doTracePath g) v (out g) (shellClient g) (period g) (pingSize g) (myT0 g) (pending g).
Definition set_client v g := mkPinger (busy g) (dest g) (ttl g) (numRepeat g) (doTracePath g) (stats g) v v (period g) (pingSize g) (myT0 g) (pending g).
Definition set_period v g := mkPinger (busy g) (dest g) (ttl g) (numRepeat g) (doTracePath g) (stats g) (out g) (shellClient g) v (pingSize g) (myT0 g) (pending g).
Definition set_pingSize v g := mkPinger (busy g) (dest g) (ttl g) (numRepeat g) (doTracePath g) (stats g) (out g) (shellClient g) (period g) v (myT0 g) (pending g).
Definition set_pending v g := mkPinger (busy g) (dest g) (ttl g) (numRepeat g) (doTracePath g) (stats g) (out g) (shellClient g) (period g) (pingSize g) (myT0 g) v.

Definition set_pinger v w := mkPing v (shell w) (dbg_log w).
Definition set_shell v w := mkPing (pinger w) v (dbg_log w).

(** ** Options *)

(** [strtol(l, &end, 0)]: the value, clamped to [long], and whether the string was a
    number to its end. *)
Definition strtol0 (l : list Z) : Z * bool :=
  let '(neg, l) := read_sign (skip_spaces l) in
  let '(base, l) := match l with
    | c :: x :: d :: l' => if (c =? 48) && ((x =? 120) || (x =? 88)) && bool_decide (is_Some (digit 16 d))
                           then (16, d :: l') else if c =? 48 then (8, l) else (10, l)
    | c :: _ => if c =? 48 then (8, l) else (10, l)
    | [] => (10, [])
    end in
  let '(v, n, rest) := read_digits base 0 0 l in
  (Z.max (- 2 ^ 63) (Z.min (2 ^ 63 - 1) (if neg then - v else v)), negb (n =? 0)%nat && bool_decide (rest = [])).

(** [strtod] of a whole string; in the sources an empty rest is [*end_ptr == 0]. *)
Definition strtod_all (l : list Z) : option double :=
  match strtod l with Some (d, []) => Some d | _ => None end.

Local Open Scope list_scope.

Definition short_help : list Z := str "ping another AWDS node".
Definition long_help : list Z :=
  str "ping  [options] <DESTINATION>" ++ [10] ++ str "  options: " ++ [10] ++ str "  -t <TTL>   maximum hop count" ++ [10]
  ++ str "  -s <size>  set packet size" ++ [10] ++ str "  -i <time>  time interval" ++ [10] ++ str "  -p         trace path" ++ [10].

Section options.
Context `{Gea, GeaSeconds}.

(** The loop over [argv]: the name of the destination, unless an argument is wrong,
    and the options set so far. *)
Fixpoint opts_loop (args : list (list Z)) (destName : option (list Z)) (g : Pinger) : option (option (list Z)) * Pinger :=
  match args with
  | [] => (Some destName, g)
  | a :: args =>
      if bool_decide (a = str "-p") then opts_loop args destName (set_doTracePath true g)
      else if bool_decide (a = str "-s") then
        match args with
        | [] => (None, g)
        | v :: args =>
            let '(n, ok) := strtol0 v in
            let g := set_pingSize (u64 n) g in
            if ok then opts_loop args destName g else (None, g)
        end
      else if bool_decide (a = str "-i") then
        match args with
        | [] => (None, g)
        | v :: args =>
            match strtod_all v with
            | Some d => opts_loop args destName (set_period (setSeconds d) g)
            | None => (None, g)
            end
        end
      else if bool_decide (a = str "-t") then
        match args with
        | [] => (None, g)
        | v :: args =>
            let '(n, ok) := strtol0 v in
            let g := set_ttl (u32 n) g in
            if ok then opts_loop args destName g else (None, g)
        end
      else match destName with
           | Some _ => (None, g)
           | None => opts_loop args (Some a) g
           end
  end.

Definition default_opts (g : Pinger) : Pinger :=
  set_doTracePath false (set_numRepeat (-1) (set_ttl 64 (set_pingSize 200 (set_period (duration 1 1) g)))).
End options.

Definition stats_reset : Stats := mkStats (dbl_of_Z 5000000) (dbl_of_Z (-12)) (S754_zero false) 0 0.

Section ping.
Context `{Gea, Metric, LinkMeter, StdSort, AES, Basic, GeaWire, GeaSeconds} `{!Handlers PingWorld}.
Abbreviation P := (R PingWorld).

Definition get_pinger : P Pinger := gets (fun s => pinger (modules s)).
Definition on_pinger (f : Pinger -> Pinger) : P unit :=
  modify (fun s => set_modules (set_pinger (f (pinger (modules s))) (modules s)) s).
Definition on_shell {A} (m : M (TcpShell unit) A) : P A :=
  zoom (fun s => shell (modules s)) (fun v s => set_modules (set_shell v (modules s)) s) m.

(** [GEA.dbg()], and [dbg()] of the class. *)
Definition gea_dbg (text : list Z) : P unit :=
  modify (fun s => set_modules (mkPing (pinger (modules s)) (shell (modules s)) (dbg_log (modules s) ++ text)) s).
Definition dbg (text : list Z) : P unit :=
  g ← get_pinger;
  match out g with Some fd => on_shell (on_client fd (add_out text)) | None => gea_dbg text end.

Definition resetStats : P unit := on_pinger (set_stats stats_reset).

(** 0 if the options are right and the destination is known. *)
Definition parse_opts (argv : list (list Z)) : P Z :=
  on_pinger default_opts;;
  g ← get_pinger;
  let '(r, g) := opts_loop (tail argv) None g in
  on_pinger (fun _ => g);;
  match r with
  | Some (Some destName) =>
      dbg (str " dest is " ++ destName ++ [10]);;
      a ← gets (fun s => adjList (topology s));
      match getNodeByName destName a with
      | Some k => on_pinger (set_target k);; mret 0
      | None => mret (-1)
      end
  | _ => mret (-1)
  end.

(** [100. * double(numTransmitted - numReceived) / numTransmitted] *)
Definition packet_loss (st : Stats) : double :=
  dbl_div (dbl_mul (dbl_of_Z 100) (dbl_of_Z (numTransmitted st - numReceived st))) (dbl_of_Z (numTransmitted st)).

Definition stats_text (g : Pinger) : list Z :=
  let st := stats g in
  str "--- " ++ AbstractID6.print (dest g) ++ str " ping statistics ---" ++ [10]
  ++ print_int (numTransmitted st) ++ str "  packets transmitted, " ++ print_int (numReceived st) ++ str " received, "
  ++ print_double (packet_loss st) ++ str "% packet loss" ++ [10]
  ++ str "rtt min/avg/max = " ++ print_double (minRTT st) ++ str "/" ++ print_double (dbl_div (sumRTT st) (dbl_of_Z (numReceived st)))
  ++ str "/" ++ print_double (maxRTT st) ++ [10].
Definition print_stats : P unit := g ← get_pinger; dbg (stats_text g).

(** The event of the handle for the time [t]: a key was pressed, or the time is over. *)
Definition next_ping (ready : bool) (t now : Z) : P unit :=
  g ← get_pinger;
  let h := fst (default (None, 0) (pending g)) in
  on_pinger (set_pending None);;
  if ready then
    (match shellClient g with Some fd => on_shell (unblock fd now) | None => fail NullDeref end);;
    on_pinger (set_busy false);;
    print_stats
  else
    q ← newUnicastPacket PACKET_TYPE_UC_PING;
    upd_packet q (setDest (dest g));;
    upd_packet q (fun p => UnicastPacket.setTTL (ttl g) (UnicastPacket.setUcDest (dest g) (UnicastPacket.mk p)));;
    on_pinger (fun g => set_pingSize (Z.max (pingSize g) (Z.of_nat PingHeaderEnd)) g);;
    g ← get_pinger;
    upd_packet q (fun p => upd (splice PingTimeStamp (dur_enc (t - myT0 g))) (set_byte PingDirection 105 (set_size (pingSize g) p)));;
    (if doTracePath g then
       p ← upd_packet q (TraceUcPacket.setTracePointer (Z.of_nat PingHeaderEnd));
       p ← lift (SrcPacket.setTraceFlag true p);
       on_table (store q p)
     else mret tt);;
    dbg (str "sending ping to " ++ AbstractID6.print (dest g) ++ [10]);;
    sendUnicast q now;;
    on_table (unref_packet q);;
    on_pinger (fun g => let st := stats g in
      set_pending (Some (h, t + period g))
        (set_stats (mkStats (minRTT st) (maxRTT st) (sumRTT st) (numReceived st) (s32 (numTransmitted st + 1))) g)).

(** The stations on the path; [start] is [p->buffer + nPtr]. *)
Fixpoint path_loop (fuel : nat) (nPtr tPtr : Z) (buf : list Z) : outcome (list Z) :=
  if tPtr <=? nPtr then Ok [] else
  match fuel with
  | O => Fail OutOfFuel
  | S fuel =>
      if nPtr + 6 <=? Z.of_nat (length buf) then
        r ← path_loop fuel (nPtr + 6) tPtr buf;
        Ok (32 :: AbstractID6.print (AbstractID6.fromArray (Z.to_nat nPtr) buf) ++ r)
      else Fail OutOfBounds
  end.
Definition path_text (tPtr : Z) (buf : list Z) : outcome (list Z) :=
  let start := Z.of_nat PingHeaderEnd in
  r ← path_loop (Z.to_nat ((tPtr - start + 5) / 6)) start tPtr buf;
  Ok (9 :: str "path[" ++ print_int (u64 (tPtr - start) / 6) ++ str "]" ++ r).

Definition add_rtt (deltaT : double) (st : Stats) : Stats :=
  mkStats (dbl_min (minRTT st) deltaT) (dbl_max (maxRTT st) deltaT) (dbl_add (sumRTT st) deltaT) (s32 (numReceived st + 1)) (numTransmitted st).

Definition ping_recv (q now : Z) : P unit :=
  p ← upd_packet q UnicastPacket.mk;
  if get_byte PingDirection p =? 105 then
    gea_dbg (str "received ping from " ++ AbstractID6.print (SrcPacket.getSrc p) ++ str " ttl=" ++ print_int (UnicastPacket.getTTL p) ++ [10]);;
    me ← myNodeId;
    upd_packet q (fun p => set_byte PingDirection 111 (SrcPacket.setSrc me (UnicastPacket.setUcDest (SrcPacket.getSrc p) p)));;
    on_table (ref_packet q);;
    sendUnicast q now;;
    on_table (unref_packet q)
  else
    g ← get_pinger;
    let timestamp := dur_dec (slice PingTimeStamp dur_size (buffer p)) in
    let deltaT := getNanoSecsD (now - (myT0 g + timestamp)) in
    dbg (str "received pong from " ++ AbstractID6.print (SrcPacket.getSrc p) ++ str " dur=" ++ print_double deltaT ++ str " sec."
         ++ str " ttl=" ++ print_int (UnicastPacket.getTTL p));;
    traced ← lift (SrcPacket.getTraceFlag p);
    (if traced : bool then path ← lift (path_text (TraceUcPacket.getTracePointer p) (buffer p)); dbg path else mret tt);;
    dbg [10];;
    on_pinger (fun g => set_stats (add_rtt deltaT (stats g)) g).

Definition startPing (h : option Z) (now : Z) : P Z :=
  g ← get_pinger;
  if busy g then mret (-1) else
  on_pinger (set_busy true);;
  resetStats;;
  dbg (str "pinging " ++ AbstractID6.print (dest g) ++ [10]);;
  on_pinger (set_pending (Some (h, now + duration 1 10000)));;
  mret 0.

(** The command of the client [fd]. *)
Definition ping_command_fn (fd : Z) (argv : list (list Z)) (now : Z) : P Z :=
  match argv with
  | [] | [_] => on_shell (on_client fd (add_out (long_help ++ [10])));; mret (-1)
  | _ =>
      g ← get_pinger;
      if busy g then on_shell (on_client fd (add_out (str "ping already running" ++ [10])));; mret 0 else
      ret ← parse_opts argv;
      if negb (ret =? 0) then on_shell (on_client fd (add_out (long_help ++ [10])));; mret (-1) else
      g ← get_pinger;
      if busy g then on_shell (on_client fd (add_out (str "pinger is already in use " ++ [10])));; mret (-1) else
      on_pinger (set_client (Some fd));;
      on_shell (block fd);;
      _ ← startPing (Some fd) now;
      mret 0
  end.

(** The constructor; what it does not set is whatever was in memory. *)
Definition fn_ping : Z := 12.
Definition Pinger_new (mem : Pinger) (t : Z) : P unit :=
  on_pinger (fun _ => mkPinger false (dest mem) 44 (numRepeat mem) (doTracePath mem) (stats mem) None (shellClient mem)
                        (duration 2 1) (pingSize mem) t None);;
  registerUnicastProtocol PACKET_TYPE_UC_PING fn_ping 0.

(** [GEA_MAIN_2(pinger)] with the clock [t]; the command is added to the shell, if
    there is one, by [add_shell]. *)
Definition fn_ping_command : Z := 13.
Definition add_shell : P unit := on_shell (add_command (str "ping") fn_ping_command 0 short_help (Some long_help)).
Definition gea_main (argv : list (list Z)) (mem : Pinger) (has_shell : bool) (t now : Z) : P Z :=
  if bool_decide (str "--help" ∈ argv) then mret (-1) else
  Pinger_new mem t;;
  (if has_shell then add_shell else mret tt);;
  (match argv with _ :: _ :: _ => _ ← parse_opts argv; _ ← startPing None now; mret tt | _ => mret tt end);;
  mret 0.

End ping.

(** What the routing calls.  An answer may be for the station itself; it is no request
    and is not answered again, so two calls in one another are enough. *)
Fixpoint ping_cb `{Gea, Metric, LinkMeter, StdSort, AES, Basic, GeaWire, GeaSeconds} (n : nat) : Handlers PingWorld := {|
  recv_callback cb data q now :=
    match n with
    | O => fail OutOfFuel
    | S n => if cb =? fn_ping then ping_recv (Handlers0 := ping_cb n) q now else fail NullDeref
    end |}.
Definition ping_handlers `{Gea, Metric, LinkMeter, StdSort, AES, Basic, GeaWire, GeaSeconds} : Handlers PingWorld := ping_cb 2.
