(* ===== verification/PingThms.v ===== *)
(** * Theorems on ping

    A request comes back, and the time that is reported is the time between sending
    and reception; what happens after the shell client has left. *)

From Stdlib Require Import Ascii String SpecFloat.
From S2P Require Import Prelude Bytes NodeId FloodHist Ccm CryptoUnit Names Filter Topology SendQueue Neighbors NeighborThms Metrics Packet Routing Station RoutesThms CcmThms RoutingThms DeliveryThms HeaderThms Shell ShellThms Marshal MarshalThms Double Ping.

Lemma ref_ok {U} q p (s : AwdsRouting U) : at_addr s q p -> on_table (ref_packet q) s = Ok (tt, put q (set_refcount (refcount p + 1) p) s).
Proof.
  intros E. unfold on_table, on_net, on_heap, zoom, ref_packet. unfold at_addr, table in E.
  by erewrite M_bind_ok by (by apply load_packet_ok).
Qed.

Section ping.
Context `{Gea, Metric, LinkMeter, StdSort, AES, Basic, GeaWire, GeaSeconds} `{!Handlers PingWorld}.
Implicit Type s : AwdsRouting PingWorld.

(** ** Output *)

Definition put_pinger (g : Pinger) s := set_modules (set_pinger g (modules s)) s.

(** The stream [dbg()] writes to exists. *)
Definition can_write (w : PingWorld) : Prop :=
  match out (pinger w) with Some fd => is_Some (clients (shell w) !! fd) | None => True end.

(** The same pinger, and the same clients. *)
Record same_ping (w w' : PingWorld) : Prop := {
  spg_pinger : pinger w' = pinger w;
  spg_clients : forall fd, is_Some (clients (shell w') !! fd) <-> is_Some (clients (shell w) !! fd);
}.

Lemma same_ping_refl w : same_ping w w.
Proof. by split. Qed.
Lemma same_ping_trans w1 w2 w3 : same_ping w1 w2 -> same_ping w2 w3 -> same_ping w1 w3.
Proof. intros [P1 C1] [P2 C2]. split; [congruence|]. intros fd. by rewrite C2, C1. Qed.
Lemma same_ping_write w w' : same_ping w w' -> can_write w -> can_write w'.
Proof. intros [P C]. unfold can_write. rewrite P. destruct (out (pinger w)); [apply C|done]. Qed.

Lemma dbg_ok text s : can_write (modules s) -> exists w, dbg text s = Ok (tt, set_modules w s) /\ same_ping (modules s) w.
Proof.
  intros Hc. unfold dbg. unfold can_write in Hc. mprim. destruct (out (pinger (modules s))) as [fd|] eqn:Eo.
  - destruct Hc as [c Hc]. unfold on_shell, zoom. erewrite on_client_ok by exact Hc. eexists. split; [reflexivity|].
    split; [done|]. intros fd'. cbn. destruct (decide (fd = fd')) as [->|Hne].
    + rewrite lookup_insert_eq, Hc. split; by eexists.
    + by rewrite lookup_insert_ne.
  - eexists. split; [reflexivity|]. by split.
Qed.

Lemma dbg_gone text s fd : out (pinger (modules s)) = Some fd -> clients (shell (modules s)) !! fd = None -> dbg text s = Fail UseAfterFree.
Proof.
  intros Ho Hc. unfold dbg. mprim. rewrite Ho. unfold on_shell, zoom, on_client, get_client, mbind, M_bind, gets, lift. by rewrite Hc.
Qed.

Lemma put_modules q p w s : put q p (set_modules w s) = set_modules w (put q p s).
Proof. done. Qed.
Lemma set_modules_set w w' s : set_modules w (set_modules w' s) = set_modules w s.
Proof. done. Qed.

(** ** A request is answered *)

Definition request_frame (x src ttl : Z) (f : list Z) : Prop :=
  flight x x src ttl PACKET_TYPE_UC_PING f /\ (PingHeaderEnd <= length f)%nat /\ get_byte PingDirection (packet_of f) = 105.

(** The only packet in the queue, with a reference of the queue only, and its frame. *)
Definition queued s (u : NodeId) (f : list Z) : Prop :=
  exists q p, queue (sendQueue (net s)) = [q] /\ at_addr s q p /\ refcount p = 1 /\ Packet.dest p = u /\
    size p = Z.of_nat (length f) /\ f = slice 0 (length f) (buffer p).

Lemma ping_answered q p x src ttl u now s :
  at_addr s q p -> unipacket x x src ttl PACKET_TYPE_UC_PING p -> get_byte PingDirection p = 105 -> 1 <= ttl < 255 ->
  dirty (topology s) = false -> queue (sendQueue (net s)) = [] -> AbstractID6.wf x -> AbstractID6.wf src -> my_id s = x -> src <> x ->
  route_of (topology s) src = Some u -> AbstractID6.wf u -> refcount p = 1 ->
  exists s' p', ping_recv q now s = Ok (tt, s') /\ at_addr s' q p' /\ refcount p' = 2 /\ Packet.dest p' = u /\
    queue (sendQueue (net s')) = [q] /\ unipacket u src x ttl PACKET_TYPE_UC_PING p' /\
    same_rest (S PingDirection) p (set_refcount 1 p') /\ get_byte PingDirection p' = 111 /\ same_ping (modules s) (modules s').
Proof.
  intros Hat Hp Hdir Httl Hd Hq Hx Hsrc Hme Hne Hr Hu Hrc. unfold ping_recv.
  erewrite M_bind_ok by (by apply upd_packet_ok). cbv beta. rewrite (mk_unipacket _ _ _ _ _ _ Hp), (put_same _ _ _ Hat), Hdir.
  change (105 =? 105) with true. cbv iota. mprim. mprim. set (w1 := mkPing _ _ _). set (s1 := set_modules w1 s).
  change (at_addr s q p) with (at_addr s1 q p) in Hat.
  change (Topology.myNodeId (topology s1)) with (my_id s). rewrite Hme.
  destruct (rewrite_unicast PingDirection [(2%nat, src); (0%nat, x); (6%nat, 111)] _ _ _ _ _ _ ltac:(split; inside_tac) Hp) as (U2 & B2 & R2).
  set (p2 := write_fields _ _ p) in *.
  assert (set_byte PingDirection 111 (SrcPacket.setSrc x (UnicastPacket.setUcDest src p)) = p2) as E2 by reflexivity.
  clearbody p2. unfold written in U2, B2. cbn [last_write foldl fst snd Nat.eqb] in U2, B2. rewrite !wrap_id in U2 by done.
  rewrite (wrap_id 8 111) in B2 by done.
  erewrite M_bind_ok by (by apply upd_packet_ok). cbv beta. rewrite (up_src _ _ _ _ _ _ Hp), E2.
  erewrite M_bind_ok by (apply ref_ok, at_put). rewrite put_put. rewrite (sr_refcount _ _ _ R2), Hrc.
  set (p3 := set_refcount (1 + 1) p2).
  destruct (sendUnicast_ok q p3 x src x ttl PACKET_TYPE_UC_PING u now (put q p3 s1)) as (p4 & E4 & U4 & R4 & D4);
    [apply at_put|by apply (unipacket_buffer _ _ _ _ _ p2)|lia|done|done| | |done|done|].
  { change (my_id _) with (my_id s). by rewrite Hme. }
  { change (my_id _) with (my_id s). congruence. }
  erewrite M_bind_ok by exact E4. rewrite put_put.
  pose proof (at_enqueued q false now p4 (put q p4 s1)) as Hat4.
  rewrite (sr_refcount _ _ _ R4) in Hat4. cbn [refcount set_refcount p3] in Hat4.
  erewrite unref_ok; [|exact Hat4|cbn; lia]. cbn [refcount set_refcount]. change (1 + 1 + 1 =? 1) with false. cbv iota.
  eexists _, _. split; [reflexivity|]. split; [apply at_put|]. split; [done|]. split; [exact D4|]. split.
  { unfold enqueued, put. cbn [net set_net sendQueue set_sendQueue queue]. change (sendQueue (net s1)) with (sendQueue (net s)). by rewrite Hq. }
  split; [by apply (unipacket_buffer _ _ _ _ _ p4)|]. split; [|split; [|by split]].
  - eapply same_rest_trans; [exact R2|]. assert (same_rest UnicastPacket.UnicastPacketEnd p2 (set_refcount 1 p4)) as [A1 A2 A3 A4 A5 A6].
    { destruct R4 as [A1 A2 A3 A4 A5 A6]. constructor; [by destruct A1; split|exact A2|exact A3|exact A4| |exact A6].
      by rewrite (sr_refcount _ _ _ R2), Hrc. }
    apply (same_rest_le UnicastPacket.UnicastPacketEnd); [by constructor|inside_tac].
  - transitivity (get_byte PingDirection p3); [|done]. apply (same_rest_byte _ _ _ _ R4). inside_tac.
Qed.

(** ** The answer *)

Definition received_rtt (now : Z) (p : BasePacket) (g : Pinger) : double :=
  getNanoSecsD (now - (myT0 g + dur_dec (slice PingTimeStamp dur_size (buffer p)))).

Lemma on_pong q p x src ttl now s :
  at_addr s q p -> unipacket x x src ttl PACKET_TYPE_UC_PING p -> get_byte PingDirection p <> 105 -> can_write (modules s) ->
  exists w, ping_recv q now s = Ok (tt, set_modules w s) /\
    pinger w = let g := pinger (modules s) in set_stats (add_rtt (received_rtt now p g) (stats g)) g.
Proof.
  intros Hat Hp Hdir Hc. unfold ping_recv. erewrite M_bind_ok by (by apply upd_packet_ok). cbv beta.
  rewrite (mk_unipacket _ _ _ _ _ _ Hp), (put_same _ _ _ Hat), (proj2 (Z.eqb_neq _ _) Hdir). mprim. cbv zeta.
  edestruct dbg_ok as (w1 & E1 & P1); [exact Hc|]. erewrite M_bind_ok by exact E1. rewrite (up_trace _ _ _ _ _ _ Hp). mlift.
  mprim. edestruct (dbg_ok [10] (set_modules w1 s)) as (w2 & E2 & P2); [by eapply same_ping_write|].
  erewrite M_bind_ok by exact E2. eexists. split; [reflexivity|]. cbn [modules set_modules pinger set_pinger].
  rewrite (spg_pinger _ _ P2). cbn [modules set_modules]. by rewrite (spg_pinger _ _ P1).
Qed.

(** ** The request *)

Record ping_station (x y u : NodeId) s : Prop := {
  pst_idle : idle s;
  pst_id : my_id s = x;
  pst_wf : AbstractID6.wf x;
  pst_route : route_of (topology s) y = Some u;
  pst_next : AbstractID6.wf u;
  pst_reg : exists data, unicastRegister (registers s) !! PACKET_TYPE_UC_PING = Some (fn_ping, data);
  pst_out : can_write (modules s);
}.

Record ping_ready (x y : NodeId) (g : Pinger) : Prop := {
  prd_dest : dest g = y;
  prd_wf : AbstractID6.wf y;
  prd_other : x <> y;
  prd_ttl : 3 <= ttl g < 255;
  prd_trace : doTracePath g = false;
  prd_size : pingSize g <= Z.of_nat MaxSize;
}.

Lemma next_ping_ok x y u t now s :
  ping_station x y u s -> ping_ready x y (pinger (modules s)) ->
  exists s' f, next_ping false t now s = Ok (tt, s') /\ queued s' u f /\
    numTransmitted (stats (pinger (modules s'))) = s32 (numTransmitted (stats (pinger (modules s))) + 1) /\
    let g := pinger (modules s) in
    flight u y x (ttl g) PACKET_TYPE_UC_PING f /\ (PingHeaderEnd <= length f <= MaxSize)%nat /\ get_byte PingDirection (packet_of f) = 105 /\
    slice PingTimeStamp dur_size (buffer (packet_of f)) = dur_enc (t - myT0 g).
Proof.
  intros [[Hcl Hfw Hq] Hid Hx Hr Hu _ Hc] [Hdst Hy Hne Httl Htr Hsz]. unfold next_ping. mprim. mprim. cbv iota.
  set (g := pinger (modules s)) in *. set (s0 := set_modules (set_pinger (set_pending None g) (modules s)) s).
  destruct (newUnicastPacket_fresh PACKET_TYPE_UC_PING s0) as (d & p & s1 & E1 & Hat & Hp & Hrc & T1 & Q1 & R1 & M1 & _); [done|by rewrite <- Hid in Hx|].
  set (q := newAddr (counters s0)) in *. change (my_id s0) with (my_id s) in Hp. rewrite Hid in Hp.
  erewrite M_bind_ok by exact E1. erewrite M_bind_ok by (by apply upd_packet_ok). erewrite M_bind_ok by (apply upd_packet_ok, at_put). rewrite put_put.
  cbv beta. change (UnicastPacket.mk (setDest (dest g) p)) with (setDest (dest g) (UnicastPacket.mk p)). rewrite (mk_unipacket _ _ _ _ _ _ Hp), Hdst.
  set (p2 := UnicastPacket.setTTL (ttl g) _). mprim. set (z := Z.max (pingSize g) (Z.of_nat PingHeaderEnd)).
  match goal with |- context [(get_pinger ≫= _) ?s] => set (s2 := s) end.
  assert (at_addr s2 q p2 /\ topology s2 = topology s /\ queue (sendQueue (net s2)) = [] /\ can_write (modules s2) /\
    pinger (modules s2) = set_pingSize z (set_pending None g)) as (A2 & T2 & Q2 & C2 & P2).
  { unfold s2. split; [apply at_put|]. split; [exact T1|]. split; [cbn; rewrite Q1; exact Hq|]. split.
    - unfold can_write. cbn. rewrite M1. exact Hc.
    - cbn. by rewrite M1. }
  clearbody s2. mprim. rewrite P2. cbn [pingSize set_pingSize myT0 set_pending doTracePath dest]. rewrite Htr, Hdst.
  erewrite M_bind_ok by (by apply upd_packet_ok). mprim. cbv beta.
  set (p3 := upd _ _). destruct (dbg_ok (str "sending ping to " ++ AbstractID6.print y ++ [10]) (put q p3 s2) C2) as (w & Ew & Pw).
  erewrite M_bind_ok by exact Ew.
  assert (unipacket x y x (ttl g) PACKET_TYPE_UC_PING p3 /\ get_byte PingDirection p3 = 105 /\
    slice PingTimeStamp dur_size (buffer p3) = dur_enc (t - myT0 g) /\ size p3 = z /\ refcount p3 = 1) as (U3 & B3 & S3 & Z3 & C3).
  { destruct (rewrite_unicast PingDirection [(2%nat, y); (4%nat, ttl g); (6%nat, 105)] _ _ _ _ _ _ ltac:(split; inside_tac) Hp) as (U2 & B2 & R2).
    set (p2' := write_fields _ _ p) in *. unfold written in U2, B2. cbn [last_write foldl fst snd Nat.eqb] in U2, B2.
    rewrite !wrap_id in U2 by (done || unfold in_width; lia).
    rewrite (wrap_id 8 105) in B2 by done. pose proof wire_small as [_ Hws].
    assert (PingTimeStamp + length (dur_enc (t - myT0 g)) <= MaxSize)%nat as Hl.
    { rewrite dur_enc_length. assert (PingTimeStamp + 8 <= MaxSize)%nat by inside_tac. lia. }
    assert (unipacket x y x (ttl g) PACKET_TYPE_UC_PING (upd (splice PingTimeStamp (dur_enc (t - myT0 g))) p2')) as U3
      by (apply unipacket_splice; [inside_tac|done|apply dur_enc_bytes|done]).
    pose proof (up_wf _ _ _ _ _ _ U2) as [Hl2 _]. split_and!.
    - refine (unipacket_buffer _ _ _ _ _ _ _ _ U3). reflexivity.
    - transitivity (get_byte PingDirection (upd (splice PingTimeStamp (dur_enc (t - myT0 g))) p2')); [done|]. rewrite <- B2.
      unfold get_byte, byte_at. cbn [upd set_buffer buffer]. rewrite splice_lookup by lia.
      rewrite decide_False by (intros [Hle _]; revert Hle; apply Nat.lt_nge; inside_tac). done.
    - change (buffer p3) with (splice PingTimeStamp (dur_enc (t - myT0 g)) (buffer p2')). rewrite <- (dur_enc_length (t - myT0 g)) at 1.
      apply slice_splice_same. lia.
    - done.
    - exact Hrc. }
  clearbody p3. set (s3 := set_modules w (put q p3 s2)). assert (pinger w = pinger (modules s2)) as Hw by apply Pw.
  assert (my_id s2 = x) as I2 by (unfold my_id; rewrite T2; exact Hid).
  destruct (sendUnicast_ok q p3 x y x (ttl g) PACKET_TYPE_UC_PING u now s3) as (p4 & E4 & U4 & R4 & D4);
    [apply at_put|exact U3|lia|by change (topology s3) with (topology s2); rewrite T2|exact Q2|by change (my_id s3) with (my_id s2); rewrite I2
    |by change (my_id s3) with (my_id s2); rewrite I2|by change (topology s3) with (topology s2); rewrite T2|done|].
  erewrite M_bind_ok by exact E4. pose proof (at_enqueued q false now p4 (put q p4 s3)) as Hat4.
  rewrite (sr_refcount _ _ _ R4), C3 in Hat4. erewrite M_bind_ok; [|erewrite unref_ok; [reflexivity|exact Hat4|cbn; lia]].
  cbn [refcount set_refcount]. change (1 + 1 =? 1) with false. cbv iota.
  assert (PingHeaderEnd <= Z.to_nat z <= MaxSize)%nat as Hn by (assert (PingHeaderEnd <= MaxSize)%nat by inside_tac; lia).
  assert (UnicastPacket.UnicastPacketEnd <= PingHeaderEnd)%nat as Hpe by inside_tac.
  destruct (frame_of_packet u y x (ttl g) PACKET_TYPE_UC_PING p4 (Z.to_nat z) U4 ltac:(lia)) as (F1 & F2 & F3 & F4).
  set (f := slice 0 (Z.to_nat z) (buffer p4)) in *. eexists _, f. split; [reflexivity|]. split; [|split; [|split; [exact F1|split_and!]]].
  - exists q, (set_refcount 1 p4). split.
    { unfold enqueued, put. cbn [net set_net sendQueue set_sendQueue queue set_modules]. cbn [net set_net sendQueue set_sendQueue queue set_modules s3] in *. unfold s3, put. cbn. by rewrite Q2. }
    split; [apply at_put|]. split; [done|]. split; [done|]. rewrite F2. split; [|done].
    cbn [size set_refcount]. rewrite (sr_size _ _ _ R4), Z3. lia.
  - cbn. by rewrite Hw, P2.
  - lia.
  - lia.
  - rewrite F4 by (assert (PingDirection < PingHeaderEnd)%nat by inside_tac; lia). rewrite <- B3. apply (same_rest_byte _ _ _ _ R4). inside_tac.
  - pose proof wire_small as [_ Hws]. rewrite F3 by (assert (PingTimeStamp + 8 <= PingHeaderEnd)%nat by inside_tac; lia).
    rewrite <- S3. apply (same_rest_slice _ _ _ _ _ R4). inside_tac.
Qed.
End ping.

(** ** A round trip between neighbours *)

Section round_trip.
Context `{Gea, Metric, LinkMeter, StdSort, AES, Basic, GeaWire, GeaSeconds}.
#[local] Existing Instance ping_handlers.
Implicit Type s : AwdsRouting PingWorld.

(** C40. A ping to a neighbour comes back and measures the time it took.  Station [x]
    sends a request at the time [t]; the neighbour [y] gets the frame and puts exactly
    one answer into its queue, for [x], with the payload of the request; when [x] gets
    the answer at the time [now2], the round trip it adds to its statistics is
    [now2 - t], whatever happened at [x] in between, as long as the object was not
    created anew.  Neither station leaves the defined behaviour. *)
Theorem ping_round_trip (x y t now nowb now2 : Z) (a b a2 : AwdsRouting PingWorld) :
  ping_station x y y a -> ping_ready x y (pinger (modules a)) -> on_wire (t - myT0 (pinger (modules a))) ->
  ping_station y x x b ->
  ping_station x y y a2 -> myT0 (pinger (modules a2)) = myT0 (pinger (modules a)) ->
  exists a1 f b1 g a3,
    next_ping false t now a = Ok (tt, a1) /\ queued a1 y f /\
      numTransmitted (stats (pinger (modules a1))) = s32 (numTransmitted (stats (pinger (modules a))) + 1) /\
    recv_data (Z.of_nat (length f)) f nowb b = Ok (tt, b1) /\ queued b1 x g /\
      drop (S PingDirection) g = drop (S PingDirection) f /\ pinger (modules b1) = pinger (modules b) /\
    recv_data (Z.of_nat (length g)) g now2 a2 = Ok (tt, a3) /\
      let p := pinger (modules a2) in pinger (modules a3) = set_stats (add_rtt (getNanoSecsD (now2 - t)) (stats p)) p.
Proof.
  intros Ha Hg Hw Hb Ha2 HT. pose proof (next_ping_ok x y y t now a Ha Hg) as (a1 & f & E1 & Qf & Nt & Ff & Lf & Df & Tf).
  pose proof Hg as [_ Hy Hne Httl _ _]. destruct Ha as [_ _ Hx _ _ _ _].
  set (ttl := ttl (pinger (modules a))) in *.
  (* the neighbour *)
  destruct Hb as [Ib Nb _ Rb _ [db Gb] Cb].
  destruct (recv_data_delivers y x ttl PACKET_TYPE_UC_PING f nowb fn_ping db b Ib Nb Hne ltac:(lia) Ff Gb)
    as (b1 & At1 & I1 & N1 & T1 & R1 & M1 & _ & _ & Er).
  set (q := newAddr (counters b)) in *. destruct (arrived_packet _ _ _ _ _ _ Ff ltac:(lia)) as [U1 Rt].
  set (p1 := UnicastPacket.setTTL (ttl - 1) (packet_of f)) in *.
  destruct (ping_answered (Handlers0 := ping_cb 1) q p1 y x (ttl - 1) x nowb b1) as (b2 & p2 & E2 & At2 & C2 & D2 & Q2 & U2 & R2 & Dir2 & M2);
    try done; [rewrite <- Df; apply (same_rest_byte _ _ _ _ Rt); inside_tac|lia|apply I1|apply I1|by rewrite T1|].
  change (recv_callback fn_ping db q nowb b1) with (ping_recv (Handlers0 := ping_cb 1) q nowb b1) in Er.
  erewrite M_bind_ok in Er by exact E2. erewrite unref_ok in Er; [|exact At2|lia]. rewrite C2 in Er. change (2 =? 1) with false in Er. cbv iota in Er.
  (* the answer *)
  assert (UnicastPacket.UnicastPacketEnd <= PingHeaderEnd)%nat as Hpe by inside_tac.
  assert (S PingDirection < PingHeaderEnd)%nat as Hdr by inside_tac.
  destruct (frame_of_packet x x y (ttl - 1) PACKET_TYPE_UC_PING p2 (length f) U2 ltac:(lia)) as (Fg & Lg & Sg & Bg).
  set (g := slice 0 (length f) (buffer p2)) in *.
  assert (queued (put q (set_refcount (2 - 1) p2) b2) x g) as Qg.
  { exists q, (set_refcount (2 - 1) p2). split; [exact Q2|]. split; [apply at_put|]. split; [done|]. split; [exact D2|].
    rewrite Lg. split; [|done]. change (size (set_refcount 1 p2) = Z.of_nat (length f)). by rewrite (sr_size _ _ _ R2), (sr_size _ _ _ Rt). }
  destruct Ha2 as [I3 N3 _ _ _ [da Ga] Ca].
  destruct (recv_data_delivers x y (ttl - 1) PACKET_TYPE_UC_PING g now2 fn_ping da a2 I3 N3 ltac:(congruence) ltac:(lia) Fg Ga)
    as (a4 & At4 & _ & _ & _ & _ & M4 & _ & _ & Er2).
  set (q2 := newAddr (counters a2)) in *. destruct (arrived_packet _ _ _ _ _ _ Fg ltac:(lia)) as [U4 R4].
  set (p4 := UnicastPacket.setTTL (ttl - 1 - 1) (packet_of g)) in *.
  destruct (on_pong (Handlers0 := ping_cb 1) q2 p4 x y (ttl - 1 - 1) now2 a4) as (w & E4 & P4); [done|exact U4| |by rewrite M4|].
  { rewrite (same_rest_byte _ _ _ _ R4) by inside_tac. rewrite Bg by lia. by rewrite Dir2. }
  change (recv_callback fn_ping da q2 now2 a4) with (ping_recv (Handlers0 := ping_cb 1) q2 now2 a4) in Er2.
  erewrite M_bind_ok in Er2 by exact E4. erewrite unref_ok in Er2; [|exact At4|]; [|by rewrite (sr_refcount _ _ _ R4)].
  eexists a1, f, _, g, _. split; [exact E1|]. split; [exact Qf|]. split; [exact Nt|]. split; [exact Er|]. split; [exact Qg|].
  split; [|split; [|split; [exact Er2|]]].
  - transitivity (slice (S PingDirection) (length f - S PingDirection) (buffer p2)).
    { unfold g, slice. rewrite drop_0. by rewrite skipn_firstn_comm. }
    rewrite (same_rest_slice _ _ _ _ _ R2) by done. rewrite (same_rest_slice _ _ _ _ _ Rt) by inside_tac.
    rewrite <- (slice_packet_of f (fl_ok _ _ _ _ _ _ Ff)) at 3. unfold slice. by rewrite drop_0, skipn_firstn_comm.
  - change (pinger (modules b2) = pinger (modules b)). rewrite <- M1. apply M2.
  - rewrite M4 in P4. cbv zeta in P4.
    assert (received_rtt now2 p4 (pinger (modules a2)) = getNanoSecsD (now2 - t)) as Ert.
    { unfold received_rtt. f_equal. rewrite (same_rest_slice _ _ _ _ _ R4) by inside_tac. pose proof wire_small as [_ Hws].
      rewrite Sg by (assert (PingTimeStamp + 8 <= PingHeaderEnd)%nat by inside_tac; lia).
      rewrite (same_rest_slice _ _ _ _ _ R2) by inside_tac. rewrite (same_rest_slice _ _ _ _ _ Rt) by inside_tac.
      rewrite Tf, dur_dec_enc, HT by done. lia. }
    rewrite Ert in P4. cbv zeta. refine (eq_trans _ P4). by destruct (refcount p4 =? 1).
Qed.
End round_trip.

(** ** A client that has left *)

Section left.
Context `{Gea, Metric, LinkMeter, StdSort, AES, Basic, GeaWire, GeaSeconds} `{!Commands unit}.
#[local] Existing Instance ping_handlers.
Implicit Type s : AwdsRouting PingWorld.

Lemma pong_to_nobody q p x src ttl now s fd :
  at_addr s q p -> unipacket x x src ttl PACKET_TYPE_UC_PING p -> get_byte PingDirection p <> 105 ->
  out (pinger (modules s)) = Some fd -> clients (shell (modules s)) !! fd = None ->
  ping_recv (Handlers0 := ping_cb 1) q now s = Fail UseAfterFree.
Proof.
  intros Hat Hp Hdir Ho Hc. unfold ping_recv. erewrite M_bind_ok by (by apply upd_packet_ok). cbv beta.
  rewrite (mk_unipacket _ _ _ _ _ _ Hp), (put_same _ _ _ Hat), (proj2 (Z.eqb_neq _ _) Hdir). mprim. cbv zeta.
  by erewrite M_bind_fail by (by eapply dbg_gone).
Qed.

(** The shell client [fd] stops a running ping with a key. *)
Lemma key_pressed fd c t now s :
  out (pinger (modules s)) = Some fd -> shellClient (pinger (modules s)) = Some fd ->
  clients (shell (modules s)) !! fd = Some c -> state c = CS_Blocked ->
  exists w c', next_ping true t now s = Ok (tt, set_modules w s) /\ out (pinger w) = Some fd /\ busy (pinger w) = false /\
    clients (shell w) !! fd = Some c' /\ state c' = CS_Idle.
Proof.
  intros Ho Hs Hc Hb. unfold next_ping. mprim. mprim. cbv iota. rewrite Hs.
  assert (exists c', unblock fd now (shell (modules s)) = Ok (tt, with_client fd c' (daemon (shell (modules s))) (shell (modules s))) /\ state c' = CS_Idle) as (c1 & E1 & S1).
  { unfold unblock. erewrite M_bind_ok by (by apply get_client_ok). rewrite Hb, bool_decide_true by done. mlift.
    erewrite M_bind_ok by reflexivity. unfold prompt. erewrite M_bind_ok by (apply on_client_ok, lookup_insert_eq). cbv iota.
    erewrite on_client_ok by apply with_client_client. rewrite with_with. unfold with_client. cbn [clients commands daemon].
    rewrite insert_insert_eq. by eexists. }
  erewrite M_bind_ok; cycle 1.
  { unfold on_shell, zoom. change (shell (modules (set_modules _ s))) with (shell (modules s)). rewrite E1. reflexivity. }
  mprim. set (s1 := set_modules _ _). assert (clients (shell (modules s1)) !! fd = Some c1) as Hc1 by apply lookup_insert_eq.
  unfold print_stats. mprim. set (text := stats_text _). unfold dbg. mprim.
  change (out (pinger (modules s1))) with (out (pinger (modules s))). rewrite Ho. unfold on_shell, zoom.
  rewrite (on_client_ok fd (add_out text) c1 _ Hc1). eexists _, (add_out text c1). split; [reflexivity|].
  split; [exact Ho|]. split; [done|]. split; [apply with_client_client|done].
Qed.

Lemma client_leaves fd c ret byte t now s :
  clients (shell (modules s)) !! fd = Some c -> state c = CS_Idle -> ret <= 0 ->
  exists sh, on_shell (read_client_data fd true ret byte t now) s = Ok (tt, set_modules (set_shell sh (modules s)) s) /\
    clients sh !! fd = None /\ (forall fd', fd' <> fd -> clients sh !! fd' = clients (shell (modules s)) !! fd').
Proof.
  intros Hc Hs Hr. unfold on_shell, zoom, read_client_data. erewrite M_bind_ok by (by apply on_client_ok).
  erewrite M_bind_ok by (apply get_client_ok, with_client_client). cbn [negb]. rewrite (proj2 (Z.leb_le ret 0)) by done.
  rewrite (bool_decide_true (state _ <> _)) by (cbn [state set_waits]; rewrite Hs; done). mlift.
  eexists. split; [reflexivity|]. unfold with_client. cbn [clients]. split; [apply lookup_delete_eq|].
  intros fd' Hne. rewrite lookup_delete_ne by done. by rewrite lookup_insert_ne.
Qed.

(** The pinger keeps a pointer to the output of the last client that has used it.
    When the client [fd] stops a running ping with a key and then closes its
    connection, both are handled, but the pointer stays: afterwards every answer that
    is still on its way, and every [ping] command of another client with a
    destination, makes the daemon write into the freed stream. *)
Theorem pong_after_client_left (x src ttl t now ret byte t2 now2 now3 fd fd2 : Z) (f : list Z) (name : list Z) c s :
  idle s -> my_id s = x -> (exists data, unicastRegister (registers s) !! PACKET_TYPE_UC_PING = Some (fn_ping, data)) ->
  out (pinger (modules s)) = Some fd -> shellClient (pinger (modules s)) = Some fd ->
  clients (shell (modules s)) !! fd = Some c -> state c = CS_Blocked -> ret <= 0 ->
  flight x x src ttl PACKET_TYPE_UC_PING f -> src <> x -> 2 <= ttl < 256 -> get_byte PingDirection (packet_of f) <> 105 ->
  name <> str "-p"%string -> name <> str "-s"%string -> name <> str "-i"%string -> name <> str "-t"%string ->
  exists s2, (next_ping true t now;; on_shell (read_client_data fd true ret byte t2 now2)) s = Ok (tt, s2) /\
    recv_data (Z.of_nat (length f)) f now3 s2 = Fail UseAfterFree /\
    ping_command_fn fd2 [str "ping"%string; name] now3 s2 = Fail UseAfterFree.
Proof.
  intros Hi Hx [data Hreg] Ho Hs Hc Hb Hr Hf Hsrc Httl Hdir N1 N2 N3 N4.
  destruct (key_pressed fd c t now s Ho Hs Hc Hb) as (w & c' & E1 & O1 & B1 & C1 & S1).
  destruct (client_leaves fd c' ret byte t2 now2 (set_modules w s) C1 S1 Hr) as (sh & E2 & D2 & _).
  set (s2 := set_modules _ (set_modules w s)) in *. exists s2. split; [by erewrite M_bind_ok by exact E1|]. split.
  - assert (idle s2) as Hi2 by (destruct Hi; by constructor).
    destruct (recv_data_delivers x src ttl PACKET_TYPE_UC_PING f now3 fn_ping data s2 Hi2 Hx Hsrc Httl Hf Hreg)
      as (s3 & At & _ & _ & _ & _ & M3 & _ & _ & Er). rewrite Er.
    destruct (arrived_packet _ _ _ _ _ _ Hf ltac:(lia)) as [U3 R3].
    apply M_bind_fail. change (ping_recv (Handlers0 := ping_cb 1) (newAddr (counters s2)) now3 s3 = Fail UseAfterFree).
    apply (pong_to_nobody _ _ x src (ttl - 1) now3 s3 fd At U3); [|by rewrite M3..].
    by rewrite (same_rest_byte _ _ _ _ R3) by inside_tac.
  - unfold ping_command_fn. mprim. change (busy (pinger (modules s2))) with (busy (pinger w)). rewrite B1.
    apply M_bind_fail. unfold parse_opts. mprim. mprim. cbn [tail opts_loop].
    rewrite !bool_decide_false by done. mprim. apply M_bind_fail, (dbg_gone _ _ fd); [exact O1|exact D2].
Qed.
End left.

(** *** Example: stations 1 and 2 are neighbours *)

Section example.
#[local] Existing Instances gea_ns hop_count hop_count_meter merge_std_sort toy_aes ex_basic ex_wire ping_handlers.
#[local] Instance ex_seconds : GeaSeconds := {| setSeconds _ := 0; getNanoSecsD := dbl_of_Z |}.
#[export] Instance no_commands : Commands unit := {| run_command fn data argv w := Ok (0, [], false, w) |}.

Definition line2 : AdjList :=
  let node ls := set_linklist ls NDescr_new in [(1, node [LQ None 2 10 1]); (2, node [LQ None 1 10 1])].

Definition ping_at (x : NodeId) (g : Pinger) (cs : gmap Z TcpShellClient) : AwdsRouting PingWorld :=
  let topo := mkTopo (match routes x line2 with Ok a => a | Fail _ => [] end) false false x false false false [] in
  mkRouting PingWorld (mkIface (mkN ∅ [] ∅ None []) (mkQ [] None [])) topo (replicate 32 0) (FloodHistory_new []) None None
    (mkPeriods 1000 Constant 1400 0 None None) (mkCounters 0 0 0 1) (mkRegisters {[ PACKET_TYPE_UC_PING := (fn_ping, 0) ]} ∅ ∅ ∅)
    (mkPing g (mkShell unit [] cs tt) []).

Definition pinger2 : Pinger := mkPinger true 2 64 (-1) false stats_reset None None 1000 60 0 None.

Lemma ping_at_station x y g : (x = 1 /\ y = 2 \/ x = 2 /\ y = 1) -> out g = None -> ping_station x y y (ping_at x g ∅).
Proof.
  intros [[-> ->]|[-> ->]] Ho; (constructor; [by constructor|done|done|vm_compute; reflexivity|done|by eexists|]);
    unfold can_write, ping_at; cbn [modules pinger]; by rewrite Ho.
Qed.

Lemma ping_round_trip_witness :
  exists a1 f b1 g a3,
    next_ping false 100 100 (ping_at 1 pinger2 ∅) = Ok (tt, a1) /\ queued a1 2 f /\
    recv_data (Z.of_nat (length f)) f 200 (ping_at 2 pinger2 ∅) = Ok (tt, b1) /\ queued b1 1 g /\
    recv_data (Z.of_nat (length g)) g 350 (ping_at 1 pinger2 ∅) = Ok (tt, a3) /\
    maxRTT (stats (pinger (modules a3))) = dbl_of_Z 250.
Proof.
  destruct (ping_round_trip
    1 2 100 100 200 350 (ping_at 1 pinger2 ∅) (ping_at 2 pinger2 ∅) (ping_at 1 pinger2 ∅)) as (a1 & f & b1 & g & a3 & E1 & Q1 & _ & E2 & Q2 & _ & _ & E3 & P3).
  - apply ping_at_station; [by left|done].
  - constructor; try done; cbn; lia.
  - cbn. unfold in_width. lia.
  - apply ping_at_station; [by right|done].
  - apply ping_at_station; [by left|done].
  - done.
  - exists a1, f, b1, g, a3. split; [exact E1|]. split; [exact Q1|]. split; [exact E2|]. split; [exact Q2|]. split; [exact E3|].
    cbv zeta in P3. rewrite P3. vm_compute. reflexivity.
Defined.

Definition pong_frame : list Z :=
  [2; 0; 0; 0; 0; 0; 2; 0; 7; 0; 0; 0; 0; 0; 1; 0; 0; 0; 0; 0; 1; 64; 42; 0; 0; 111; 0; 0; 0; 0; 0; 0; 0; 50].

Lemma pong_after_client_left_witness :
  let g := mkPinger true 2 64 (-1) false stats_reset (Some 5) (Some 5) 1000 60 0 (Some (Some 5, 1000)) in
  let s := ping_at 1 g {[ 5 := mkClient (replicate CMD_BUF_MAX 0) 0 CS_Blocked None [] ]} in
  exists s2, (next_ping true 100 100;;
      on_shell (read_client_data 5 true 0 0 200 200)) s = Ok (tt, s2) /\
    recv_data 34 pong_frame 300 s2 = Fail UseAfterFree.
Proof.
  intros g s. destruct (pong_after_client_left
    1 2 64 100 100 0 0 200 200 300 5 6 pong_frame (str "2"%string) (mkClient (replicate CMD_BUF_MAX 0) 0 CS_Blocked None []) s) as (s2 & E1 & E2 & _);
    try done; try lia.
  - by eexists.
  - constructor; try (vm_compute; reflexivity). split; [|vm_compute; lia]. apply (bool_decide_unpack _). vm_compute. done.
  - exists s2. by split.
Defined.
End example.
