(* ===== verification/TopoLock.v ===== *)
(** * The lock of all topologies

    [TopoLock.cc]: the command [topolock] floods an order to lock, unlock or reset the
    topology, and every station that gets the flood obeys.  The module keeps no state
    of its own. *)

From Stdlib Require Import Ascii String.
From S2P Require Import Prelude Bytes NodeId FloodHist Ccm CryptoUnit Names Filter Topology SendQueue Neighbors Metrics Packet Routing Station.

Definition PACKET_TYPE_BC_TOPO_LOCK : Z := 100.

Inductive TopoLockCmd := TopoLockCmd_Lock | TopoLockCmd_Unlock | TopoLockCmd_Reset.
Definition TopoLockCmd_num (c : TopoLockCmd) : Z :=
  match c with TopoLockCmd_Lock => 0 | TopoLockCmd_Unlock => 1 | TopoLockCmd_Reset => 2 end.

Local Open Scope list_scope.

Definition topolock_cmd_usage : list Z :=
  str "topolock <cmd> " ++ [10] ++ str " with <cmd> " ++ [10] ++ str "    lock        lock the topology" ++ [10]
  ++ str "    unlock      unlock the topology" ++ [10] ++ str "    reset       reset the topology" ++ [10].

Section topolock.
Context `{Gea, Metric, LinkMeter, StdSort, AES, Basic}.

(** [clock] is [AbsTime::now()], which [reset] asks for. *)
Definition topolock_recv {U} (q now clock : Z) : R U unit :=
  p ← peek q;
  let cmd := s8 (get_byte Flood.FloodHeaderEnd p) in
  if cmd =? TopoLockCmd_num TopoLockCmd_Lock then on_topology (modify (setLocked true))
  else if cmd =? TopoLockCmd_num TopoLockCmd_Unlock then on_topology (modify (setLocked false))
  else if cmd =? TopoLockCmd_num TopoLockCmd_Reset then
    on_topology (reset now clock);;
    on_topology (modify (setLocked false))
  else mret tt.

Definition fn_topolock : Z := 14.
(** The clock has not moved since the event. *)
#[export] Instance lock_handlers {U} : Handlers U := {|
  recv_callback cb data q now := if cb =? fn_topolock then topolock_recv q now now else fail NullDeref |}.

Definition lock_cmd (argv : list (list Z)) : option TopoLockCmd :=
  match argv with
  | _ :: a :: _ =>
      if bool_decide (a = str "lock") then Some TopoLockCmd_Lock
      else if bool_decide (a = str "unlock") then Some TopoLockCmd_Unlock
      else if bool_decide (a = str "reset") then Some TopoLockCmd_Reset
      else None
  | _ => None
  end.

(** The result and the text for the client.  The packet is created before the
    arguments are looked at; without a command it is not released. *)
Definition topolock_command_fn {U} `{!Handlers U} (argv : list (list Z)) (now : Z) : R U (Z * list Z) :=
  q ← newFloodPacket PACKET_TYPE_BC_TOPO_LOCK;
  upd_packet q Flood.mk;;
  match lock_cmd argv with
  | None => mret (0, topolock_cmd_usage ++ [10])
  | Some cmd =>
      upd_packet q (fun p => set_size (Z.of_nat Flood.FloodHeaderEnd + 1) (set_byte Flood.FloodHeaderEnd (TopoLockCmd_num cmd) p));;
      sendBroadcast q now;;
      on_table (unref_packet q);;
      mret (0, [])
  end.

Definition TopoLock_new {U} : R U unit := registerBroadcastProtocol PACKET_TYPE_BC_TOPO_LOCK fn_topolock 0.
End topolock.
