(* ===== verification/TopoLockThms.v ===== *)
(** * Theorems on the lock of all topologies

    A station that hears the order obeys and passes it on; a locked topology ignores
    topology packets. *)

From Stdlib Require Import Ascii String.
From S2P Require Import Prelude Bytes NodeId FloodHist Ccm CcmThms CryptoUnit Names Filter Topology RoutesThms SendQueue Neighbors NeighborThms Metrics Packet Routing Station RoutingThms DeliveryThms TopoLock HeaderThms.

Section topolock.
Context `{Gea, Metric, LinkMeter, StdSort, AES, Basic} {U : Type}.
Implicit Type s : AwdsRouting U.

(** What an order does to a topology. *)
Definition obey (c : TopoLockCmd) (now : Z) (t : RTopology) : outcome RTopology :=
  match c with
  | TopoLockCmd_Lock => Ok (setLocked true t)
  | TopoLockCmd_Unlock => Ok (setLocked false t)
  | TopoLockCmd_Reset => r ← reset now now t; Ok (setLocked false (snd r))
  end.

Lemma topolock_recv_ok q p c now t' s :
  at_addr s q p -> get_byte Flood.FloodHeaderEnd p = TopoLockCmd_num c -> obey c now (topology s) = Ok t' ->
  topolock_recv q now now s = Ok (tt, set_topology t' s).
Proof.
  intros Hp Hb Ht. unfold topolock_recv. erewrite M_bind_ok by (by apply peek_ok). rewrite Hb. destruct c; cbn [TopoLockCmd_num].
  - injection Ht as <-. reflexivity.
  - injection Ht as <-. reflexivity.
  - cbn [obey] in Ht. destruct (reset now now (topology s)) as [[[] t1]|] eqn:E; [|done]. rewrite outcome_ret_bind in Ht.
    change (set_topology t' s) with (set_topology t' (set_topology t1 s)). injection Ht as <-.
    change (s8 2 =? 0) with false. change (s8 2 =? 1) with false. change (s8 2 =? 2) with true. cbv iota.
    erewrite M_bind_ok by (unfold on_topology, zoom; rewrite E; reflexivity). reflexivity.
Qed.

(** A station the order can reach. *)
Record lock_station s : Prop := {
  lks_firewall : firewall s = None;
  lks_alone : neighbors (table s) = [];
  lks_room : (length (queue (sendQueue (net s))) < QUEUE_LENGTH)%nat;
  lks_reg : exists data, broadcastRegister (registers s) !! PACKET_TYPE_BC_TOPO_LOCK = Some (fn_topolock, data);
}.

(** The packet [p] is a new flood of another station with the order [c]. *)
Record order s (c : TopoLockCmd) (p : BasePacket) : Prop := {
  or_wf : wf_packet p;
  or_type : getType p = PacketTypeFlood;
  or_src : SrcPacket.getSrc p <> my_id s;
  or_new : contains (SrcPacket.getSrc p) (SrcPacket.getSeq p) (floodHistory s) = Ok false;
  or_ttl : 2 <= Flood.getTTL p < 256;
  or_flood : Flood.getFloodType p = PACKET_TYPE_BC_TOPO_LOCK;
  or_cmd : get_byte Flood.FloodHeaderEnd p = TopoLockCmd_num c;
}.

(** A station obeys an order it has not heard yet: its topology is locked, unlocked,
    or reset and unlocked, and nothing else of it changes; the flood is repeated with
    the order in it.  A topology that was locked ignores every topology packet.  The
    order is not signed: any station can give it, with a crypto unit or without. *)
Theorem order_obeyed (c : TopoLockCmd) (q now : Z) (p : BasePacket) (t' : RTopology) s :
  lock_station s -> at_addr s q p -> order s c p -> obey c now (topology s) = Ok t' ->
  exists s' p', recv_packet (Handlers0 := lock_handlers) q now s = Ok (tt, s') /\ topology s' = t' /\
    queue (sendQueue (net s')) = queue (sendQueue (net s)) ++ [q] /\ at_addr s' q p' /\ size p' = size p /\
    get_byte Flood.FloodHeaderEnd p' = TopoLockCmd_num c /\ Packet.dest p' = BroadcastId /\
    (c = TopoLockCmd_Lock -> forall tp t, feed tp t (topology s') = Ok (tt, topology s')).
Proof.
  intros [Hfw Hal Hq [data Hreg]] Hp [Hw Hty Hsrc Hnew Httl Hft Hcmd] Ht. pose proof Hw as [Hl _].
  set (s0 := set_floodHistory (insert (SrcPacket.getSrc p) (SrcPacket.getSeq p) (floodHistory s)) s).
  destruct (flood_repeated (Handlers0 := lock_handlers) q p p now s (set_topology t' s0)) as (p2 & E2 & Hsz & Hpay & Hrc); try done; [lia| |].
  { unfold deliver_flood. fold s0. erewrite M_bind_ok by (by apply peek_ok). rewrite Hft.
    change (PACKET_TYPE_BC_TOPO_LOCK =? FloodTypeTopo) with false. cbv iota. mprim. change (registers s0) with (registers s). rewrite Hreg.
    erewrite M_bind_ok; [reflexivity|]. exact (topolock_recv_ok q p c now t' s0 Hp Hcmd Ht). }
  eexists _, _. split; [exact E2|]. split; [done|]. split; [done|]. split; [apply at_enqueued|]. split; [exact Hsz|]. split; [|split; [done|]].
  - rewrite <- Hcmd. unfold get_byte, byte_at. f_equal. cbn [buffer set_refcount setDest set_dest].
    pose proof (f_equal (fun l => l !! 0%nat) (Hpay 1%nat)) as E. cbn beta in E.
    rewrite !slice_lookup, Nat.add_0_r in E by lia. exact E.
  - intros -> tp t. injection Ht as <-. reflexivity.
Qed.

(** Without a command the packet that was created for it is lost. *)
Lemma usage_leaks argv now s `{!Handlers U} : lock_cmd argv = None ->
  let q := newAddr (counters s) in
  exists s' p, topolock_command_fn argv now s = Ok ((0, topolock_cmd_usage ++ [10]), s') /\ at_addr s' q p /\ refcount p = 1 /\
    queue (sendQueue (net s')) = queue (sendQueue (net s)).
Proof.
  intros Hc q. unfold topolock_command_fn. rewrite Hc. unfold newFloodPacket, new_packet, next_floodSeq.
  erewrite M_bind_ok; cycle 1.
  { erewrite M_bind_ok by (erewrite M_bind_ok by reflexivity; cbv beta zeta; erewrite M_bind_ok by apply store_ok;
      erewrite M_bind_ok by reflexivity; reflexivity).
    erewrite M_bind_ok by reflexivity. erewrite M_bind_ok by (apply upd_packet_ok, at_put).
    erewrite M_bind_ok by (erewrite M_bind_ok by reflexivity; erewrite M_bind_ok by reflexivity; reflexivity).
    erewrite M_bind_ok by (apply upd_packet_ok, at_put). reflexivity. }
  erewrite M_bind_ok by (apply upd_packet_ok, at_put). eexists _, _. split; [reflexivity|]. split; [apply at_put|]. by split.
Qed.
End topolock.

(** *** Example: station 1 hears the order of station 7 to lock *)

Definition lock_packet : BasePacket := packet_of [1; 0; 0; 0; 0; 0; 7; 0; 9; 0; 0; 0; 0; 0; 2; 5; 100; 0].

Definition lock_at : AwdsRouting unit :=
  mkRouting unit (mkIface (mkN {[ 10 := lock_packet ]} [] ∅ None []) (mkQ [] None [])) (topology (station3 1)) (replicate 32 0)
    (FloodHistory_new (replicate 128 (mkEntry 0 0))) None None
    (mkPeriods 1000 Constant 1400 0 None None) (mkCounters 0 0 0 11)
    (mkRegisters ∅ {[ PACKET_TYPE_BC_TOPO_LOCK := (fn_topolock, 0) ]} ∅ ∅) tt.

Lemma order_obeyed_witness :
  exists s', recv_packet (H := gea_ns) (H0 := hop_count) (H2 := merge_std_sort) (H3 := toy_aes) (H4 := ex_basic)
      (Handlers0 := lock_handlers (H := gea_ns)) 10 0 lock_at = Ok (tt, s') /\
    locked (topology s') = true /\ queue (sendQueue (net s')) = [10].
Proof.
  destruct (order_obeyed (H := gea_ns) (H0 := hop_count) (H2 := merge_std_sort) (H3 := toy_aes) (H4 := ex_basic)
    TopoLockCmd_Lock 10 0 lock_packet (setLocked true (topology lock_at)) lock_at) as (s' & p' & E & Ht & Hq & _).
  - constructor; [done|done|cbn; unfold QUEUE_LENGTH; lia|by eexists].
  - reflexivity.
  - constructor; try (vm_compute; reflexivity).
    + split; [vm_compute; reflexivity|]. apply (bool_decide_unpack _). vm_compute. done.
    + vm_compute. discriminate.
    + vm_compute. split; [discriminate|reflexivity].
  - reflexivity.
  - exists s'. split; [exact E|]. by rewrite Ht.
Defined.
