(* ===== verification/Traffic.v ===== *)
(** * Traffic generator

    [Traffic.cc], [awds/Traffic.h]: a source sends a number of packets, each one when
    the sink has answered the last one or after ten seconds; the sink answers every
    packet.  [clock] is [AbsTime::now()], [now] is [GEA.lastEventTime].  The texts for
    the log and for the standard output are not part of the model. *)

From S2P Require Import Prelude Bytes NodeId FloodHist Ccm CryptoUnit Names Filter Topology SendQueue Neighbors Metrics Packet Routing Station.

Definition PACKET_TYPE_TRAFFIC : Z := 96.

(** ** [TrafficPacket]; the numbers are stored as the processor stores them. *)

Module TrafficPacket.
Inductive Type_ := fromsrc | fromsink.
Definition Type_num (t : Type_) : Z := match t with fromsrc => 0 | fromsink => 1 end.
Definition OffsetSeq : nat := UnicastPacket.UnicastPacketEnd.
Definition OffsetType : nat := OffsetSeq + 4.
Definition TrafficHeaderEnd : nat := OffsetType + 8.      (* [sizeof(size_t)] *)

(** The constructor also cuts a received packet. *)
Definition mk (p : BasePacket) : BasePacket := set_size (Z.of_nat TrafficHeaderEnd) (UnicastPacket.mk p).
Definition setSeq (s : Z) (p : BasePacket) : BasePacket := upd (splice OffsetSeq (reverse (be_enc 4 (u32 s)))) p.
Definition getSeq (p : BasePacket) : Z := be_dec (reverse (slice OffsetSeq 4 (buffer p))).
Definition setType (t : Type_) (p : BasePacket) : BasePacket := set_byte OffsetType (Type_num t) p.
Definition getType (p : BasePacket) : Z := s8 (get_byte OffsetType p).
End TrafficPacket.

(** ** [Traffic] *)

Inductive TrafficType := src | sink.
#[export] Instance TrafficType_eq_dec : EqDecision TrafficType.
Proof. solve_decision. Defined.

(** [blocker] is the time the blocker waits for; [exited] the status the process was
    ended with. *)
Record Traffic := mkTraffic {
  type : TrafficType;
  packetCount : Z;
  packetSize : Z;
  count : Z;
  lastcount : Z;
  t_dest : NodeId;
  start : Z;
  t_end : Z;
  blocker : option Z;
  exited : option Z;
}.

Definition set_job pc ps d t m := mkTraffic (type m) pc ps 0 0 d t (t_end m) (blocker m) (exited m).
Definition set_count v m := mkTraffic (type m) (packetCount m) (packetSize m) v v (t_dest m) (start m) (t_end m) (blocker m) (exited m).
Definition set_t_dest v m := mkTraffic (type m) (packetCount m) (packetSize m) (count m) (lastcount m) v (start m) (t_end m) (blocker m) (exited m).
Definition set_start v m := mkTraffic (type m) (packetCount m) (packetSize m) (count m) (lastcount m) (t_dest m) v (t_end m) (blocker m) (exited m).
Definition set_blocker v m := mkTraffic (type m) (packetCount m) (packetSize m) (count m) (lastcount m) (t_dest m) (start m) (t_end m) v (exited m).
(** [end = t; count = packetCount + 1; exit(1)] *)
Definition finish t m := mkTraffic (type m) (packetCount m) (packetSize m) (s32 (packetCount m + 1)) (lastcount m) (t_dest m) (start m) t (blocker m) (Some 1).

Section traffic.
Context `{Gea, Metric, LinkMeter, StdSort, AES, Basic} `{!Handlers Traffic}.

Definition get_traffic : R Traffic Traffic := gets modules.
Definition on_traffic (f : Traffic -> Traffic) : R Traffic unit := modify (fun s => set_modules (f (modules s)) s).

Definition traffic_send (pCount pSize : Z) (d : NodeId) (clock now : Z) : R Traffic unit :=
  m ← get_traffic;
  if bool_decide (type m = sink) then mret tt else
  (if packetCount m =? 0 then on_traffic (set_job pCount pSize d clock) else mret tt);;
  m ← get_traffic;
  if packetCount m <? count m then mret tt else
  reachable ← isReachable (t_dest m) now;
  if negb reachable then on_traffic (set_blocker (Some (now + duration 10 1))) else
  (if count m =? 0 then on_traffic (set_start clock) else mret tt);;
  q ← newUnicastPacket PACKET_TYPE_TRAFFIC;
  upd_packet q (fun p => TrafficPacket.setSeq (count m) (TrafficPacket.setType TrafficPacket.fromsrc (TrafficPacket.mk p)));;
  on_traffic (set_count (s32 (count m + 1)));;
  upd_packet q (fun p => setDest (t_dest m) (set_size (u64 (packetSize m)) (UnicastPacket.setUcDest (t_dest m) (UnicastPacket.mk p))));;
  sendUnicast q now;;
  on_table (unref_packet q);;
  on_traffic (set_blocker (Some (now + duration 10 1))).

(** The packet of the answer is not released. *)
Definition send_reply (d : NodeId) (now : Z) : R Traffic unit :=
  m ← get_traffic;
  q ← newUnicastPacket PACKET_TYPE_TRAFFIC;
  upd_packet q (fun p => setDest d (UnicastPacket.setUcDest d (UnicastPacket.mk
    (TrafficPacket.setSeq (count m) (TrafficPacket.setType TrafficPacket.fromsink (TrafficPacket.mk p))))));;
  sendUnicast q now.

(** The sink answers, or tries again after a second. *)
Definition reply_or_wait (d : NodeId) (now : Z) : R Traffic unit :=
  reachable ← isReachable d now;
  if (reachable : bool) then send_reply d now
  else on_traffic (fun m => set_blocker (Some (now + duration 1 1)) (set_t_dest d m)).

Definition on_wait (clock now : Z) : R Traffic unit :=
  m ← get_traffic;
  if bool_decide (type m = src) then
    if lastcount m =? count m then traffic_send 0 0 (AbstractID6.of_num 0) clock now else mret tt
  else reply_or_wait (t_dest m) now.

Definition on_recv (q clock now : Z) : R Traffic unit :=
  m ← get_traffic;
  tp ← upd_packet q TrafficPacket.mk;
  if bool_decide (type m = src) then
    if TrafficPacket.getType tp =? TrafficPacket.Type_num TrafficPacket.fromsink then
      if count m <? packetCount m then traffic_send 0 0 (AbstractID6.of_num 0) clock now
      else on_traffic (finish now)
    else mret tt
  else
    if TrafficPacket.getType tp =? TrafficPacket.Type_num TrafficPacket.fromsrc then reply_or_wait (SrcPacket.getSrc tp) now
    else mret tt.

(** [GEA_MAIN] with the constructor; [mem] is what was in memory. *)
Definition fn_traffic : Z := 15.
Definition Traffic_new (sinkOption : bool) (mem : Traffic) (clock : Z) : R Traffic unit :=
  on_traffic (fun _ => mkTraffic (if sinkOption then sink else src) 0 (packetSize mem) 0 (lastcount mem) (AbstractID6.mk_default) clock (t_end mem) None None);;
  registerUnicastProtocol PACKET_TYPE_TRAFFIC fn_traffic 0.
End traffic.

(** A packet for the station itself is handled within [sendUnicast]; a source does
    not answer its own packets. *)
Fixpoint traffic_cb `{Gea, Metric, LinkMeter, StdSort, AES, Basic} (n : nat) : Handlers Traffic := {|
  recv_callback cb data q now :=
    match n with
    | O => fail OutOfFuel
    | S n => if cb =? fn_traffic then on_recv (Handlers0 := traffic_cb n) q now now else fail NullDeref
    end |}.
Definition traffic_handlers `{Gea, Metric, LinkMeter, StdSort, AES, Basic} : Handlers Traffic := traffic_cb 2.
