(* ===== verification/TrafficThms.v ===== *)
(** * Theorems on the traffic generator

    An answer nobody asked for ends the daemon of a source; the packets of the answers
    of a sink are never released. *)

From S2P Require Import Prelude Bytes NodeId FloodHist Ccm CryptoUnit Names Filter Topology SendQueue Neighbors NeighborThms Metrics Packet Routing Station RoutesThms CcmThms RoutingThms DeliveryThms HeaderThms Traffic.

Section traffic.
Context `{Gea, Metric, LinkMeter, StdSort, AES, Basic}.
#[local] Existing Instance traffic_handlers.
Implicit Type s : AwdsRouting Traffic.

(** A station with the generator. *)
Record traffic_station (x : NodeId) (t : TrafficType) s : Prop := {
  tst_idle : idle s;
  tst_id : my_id s = x;
  tst_wf : AbstractID6.wf x;
  tst_reg : exists data, unicastRegister (registers s) !! PACKET_TYPE_TRAFFIC = Some (fn_traffic, data);
  tst_type : type (modules s) = t;
}.

Lemma same_type off p p' : same_rest UnicastPacket.UnicastPacketEnd p p' -> (UnicastPacket.UnicastPacketEnd <= off)%nat ->
  s8 (get_byte off p') = s8 (get_byte off p).
Proof. intros Hr Ho. by rewrite (same_rest_byte _ _ _ _ Hr Ho). Qed.

(** The packet in the hands of [on_recv]. *)
Lemma on_recv_packet q p x d sr ttl type s :
  at_addr s q p -> unipacket x d sr ttl type p ->
  exists p', upd_packet q TrafficPacket.mk s = Ok (p', put q p' s) /\ unipacket x d sr ttl type p' /\
    TrafficPacket.getType p' = TrafficPacket.getType p /\ refcount p' = refcount p.
Proof.
  intros Hat Hp. exists (TrafficPacket.mk p). split; [by apply upd_packet_ok|].
  unfold TrafficPacket.mk. rewrite (mk_unipacket _ _ _ _ _ _ Hp). split; [by apply (unipacket_buffer _ _ _ _ _ p)|done].
Qed.

(** A source takes any packet of the type of an answer for one: if it has sent as
    many packets as it should, or if it was never told to send any, a single such
    packet from any station ends the daemon with [exit(1)]. *)
Theorem unasked_reply_exits (x sr ttl now : Z) (f : list Z) s :
  traffic_station x src s -> packetCount (modules s) <= count (modules s) -> sr <> x -> 2 <= ttl < 256 ->
  flight x x sr ttl PACKET_TYPE_TRAFFIC f ->
  TrafficPacket.getType (packet_of f) = TrafficPacket.Type_num TrafficPacket.fromsink ->
  exists s', recv_data (Z.of_nat (length f)) f now s = Ok (tt, s') /\ exited (modules s') = Some 1.
Proof.
  intros [Hi Hx Hwf [data Hreg] Ht] Hc Hsr Httl Hf Hty.
  destruct (recv_data_delivers x sr ttl _ f now _ _ s Hi Hx Hsr Httl Hf Hreg) as (s1 & Hat & _ & _ & _ & _ & M1 & _ & _ & Er).
  set (q := newAddr (counters s)) in *. destruct (arrived_packet _ _ _ _ _ _ Hf ltac:(lia)) as [U1 R1].
  set (p1 := UnicastPacket.setTTL (ttl - 1) (packet_of f)) in *.
  destruct (on_recv_packet q p1 _ _ _ _ _ s1 Hat U1) as (p2 & E2 & _ & T2 & C2).
  assert (recv_callback fn_traffic data q now s1 = Ok (tt, set_modules (finish now (modules s)) (put q p2 s1))) as Ec.
  { change (on_recv (Handlers0 := traffic_cb 1) q now now s1 = Ok (tt, set_modules (finish now (modules s)) (put q p2 s1))).
    unfold on_recv. mprim. erewrite M_bind_ok by exact E2. rewrite M1, Ht. cbn [bool_decide decide].
    rewrite (bool_decide_true (src = src)) by done. rewrite T2. change (TrafficPacket.getType p1) with (s8 (get_byte TrafficPacket.OffsetType p1)).
    rewrite (same_type _ _ _ R1) by inside_tac. change (s8 (get_byte TrafficPacket.OffsetType (packet_of f))) with (TrafficPacket.getType (packet_of f)).
    rewrite Hty, Z.eqb_refl, (proj2 (Z.ltb_ge _ _)) by done. unfold on_traffic, modify. cbn [modules set_modules put].
    change (modules (put q p2 s1)) with (modules s1). by rewrite M1. }
  erewrite M_bind_ok in Er by exact Ec. erewrite unref_ok in Er; [|exact (at_put q p2 s1)|]; [|rewrite C2, (sr_refcount _ _ _ R1); done].
  eexists. split; [exact Er|]. by destruct (refcount p2 =? 1).
Qed.

Lemma isReachable_ok d u now s : dirty (topology s) = false -> route_of (topology s) d = Some u -> isReachable d now s = Ok (true, s).
Proof.
  intros Hd Hr. unfold isReachable. destruct (getNextHop_clean now d AbstractID6.mk_default (topology s) Hd) as (y & E & _).
  erewrite M_bind_ok by (by apply on_topology_read). cbn [snd]. by rewrite Hr, bool_decide_true by done.
Qed.

(** The answer of a sink: one packet in the queue, with a reference more than the
    queue has. *)
Lemma send_reply_ok x d u now s :
  my_id s = x -> AbstractID6.wf x -> AbstractID6.wf d -> AbstractID6.wf u -> dirty (topology s) = false -> queue (sendQueue (net s)) = [] -> x <> d ->
  route_of (topology s) d = Some u ->
  let q := newAddr (counters s) in
  exists s' p, send_reply (Handlers0 := traffic_cb 1) d now s = Ok (tt, s') /\ at_addr s' q p /\ refcount p = 2 /\ queue (sendQueue (net s')) = [q] /\
    unipacket u d x 32 PACKET_TYPE_TRAFFIC p /\ size p = Z.of_nat TrafficPacket.TrafficHeaderEnd /\ Packet.dest p = u /\ others q s s'.
Proof.
  intros Hid Hx Hd Hu Hcl Hq Hne Hr q. unfold send_reply. mprim.
  destruct (newUnicastPacket_fresh PACKET_TYPE_TRAFFIC s) as (d0 & p & s1 & E1 & Hat & Hp & Hrc & T1 & Q1 & _ & _ & O1); [done|by rewrite Hid|].
  fold q in E1, Hat. erewrite M_bind_ok by exact E1. erewrite M_bind_ok by (by apply upd_packet_ok). cbv beta. rewrite Hid in Hp.
  set (m := count (modules s)). set (p2 := setDest d _).
  assert (unipacket x d x 32 PACKET_TYPE_TRAFFIC p2) as U2.
  { set (bs := reverse (be_enc 4 (u32 m))). assert (length bs = 4%nat) as Hl by (unfold bs; by rewrite length_reverse, be_enc_length).
    assert (bytes bs) as Hb by (unfold bs; apply Forall_reverse, be_enc_bytes).
    destruct (rewrite_unicast TrafficPacket.OffsetType [(6%nat, 1)] _ _ _ _ _ _ ltac:(split; inside_tac) Hp) as (A1 & _ & _).
    unfold written in A1. cbn [last_write foldl fst snd Nat.eqb] in A1.
    set (p1 := write_fields _ _ p) in A1.
    assert (unipacket x d0 x 32 PACKET_TYPE_TRAFFIC (upd (splice TrafficPacket.OffsetSeq bs) p1)) as A2
      by (apply unipacket_splice; [inside_tac|rewrite Hl; inside_tac|done|done]).
    set (p3 := TrafficPacket.setSeq m (TrafficPacket.setType TrafficPacket.fromsink (TrafficPacket.mk p))) in *.
    assert (unipacket x d0 x 32 PACKET_TYPE_TRAFFIC p3) as A3.
    { refine (unipacket_buffer _ _ _ _ _ _ _ _ A2). unfold p3, TrafficPacket.mk. by rewrite (mk_unipacket _ _ _ _ _ _ Hp). }
    destruct (rewrite_unicast TrafficPacket.OffsetType [(2%nat, d)] _ _ _ _ _ _ ltac:(split; inside_tac) A3) as (A4 & _ & _).
    unfold written in A4. cbn [last_write foldl fst snd Nat.eqb] in A4. rewrite wrap_id in A4 by done.
    refine (unipacket_buffer _ _ _ _ _ _ _ _ A4). unfold p2. by rewrite (mk_unipacket _ _ _ _ _ _ A3). }
  destruct (sendUnicast_ok (Handlers0 := traffic_cb 1) q p2 x d x 32 PACKET_TYPE_TRAFFIC u now (put q p2 s1)) as (p4 & E4 & U4 & R4 & D4);
    [apply at_put|exact U2|lia|by change (topology (put q p2 s1)) with (topology s1); rewrite T1| | | | |done|].
  { change (sendQueue (net (put q p2 s1))) with (sendQueue (net s1)). by rewrite Q1. }
  1,2: unfold my_id; change (topology (put q p2 s1)) with (topology s1); rewrite T1; change (Topology.myNodeId (topology s)) with (my_id s); by rewrite Hid.
  { change (topology (put q p2 s1)) with (topology s1). by rewrite T1. }
  eexists _, _. split; [exact E4|]. split; [apply at_enqueued|]. split.
  { cbn [refcount set_refcount]. rewrite (sr_refcount _ _ _ R4). change (refcount p2) with (refcount p). lia. }
  split.
  { unfold enqueued, put. cbn [net set_net sendQueue set_sendQueue queue]. by rewrite Q1, Hq. }
  split; [by apply (unipacket_buffer _ _ _ _ _ p4)|]. split; [cbn [size set_refcount]; by rewrite (sr_size _ _ _ R4)|]. split; [exact D4|].
  eapply others_trans; [exact O1|]. eapply others_trans; [apply others_put|apply others_enqueued].
Qed.

(** A sink answers a packet of a source, but the packet of the answer is never
    released: after the frame was sent the queue is empty, the packet that was received
    is gone, and the answer is still allocated with a reference nobody holds. *)
Theorem reply_never_freed (x sr u ttl now ret now2 : Z) (f : list Z) s :
  traffic_station x sink s -> sr <> x -> AbstractID6.wf sr -> 2 <= ttl < 256 -> 0 <= ret ->
  flight x x sr ttl PACKET_TYPE_TRAFFIC f ->
  TrafficPacket.getType (packet_of f) = TrafficPacket.Type_num TrafficPacket.fromsrc ->
  route_of (topology s) sr = Some u -> AbstractID6.wf u ->
  exists s' s2 q p, recv_data (Z.of_nat (length f)) f now s = Ok (tt, s') /\ on_net (xmit_cb true ret now2) s' = Ok (tt, s2) /\
    (exists g, sent (sendQueue (net s2)) = (u, g) :: sent (sendQueue (net s')) /\ flight u sr x 32 PACKET_TYPE_TRAFFIC g) /\
    packets (table s') !! newAddr (counters s) = None /\
    queue (sendQueue (net s2)) = [] /\ at_addr s2 q p /\ refcount p = 1.
Proof.
  intros [Hi Hx Hwf [data Hreg] Ht] Hsr Hwsr Httl Hret Hf Hty Hroute Hu.
  destruct (recv_data_delivers x sr ttl _ f now _ _ s Hi Hx Hsr Httl Hf Hreg) as (s1 & Hat & I1 & Id1 & T1 & _ & M1 & _ & N1 & Er).
  set (q := newAddr (counters s)) in *. destruct (arrived_packet _ _ _ _ _ _ Hf ltac:(lia)) as [U1 R1].
  set (p1 := UnicastPacket.setTTL (ttl - 1) (packet_of f)) in *.
  destruct (on_recv_packet q p1 _ _ _ _ _ s1 Hat U1) as (p2 & E2 & U2 & T2 & C2).
  destruct (send_reply_ok x sr u now (put q p2 s1)) as (s3 & p3 & E3 & At3 & C3 & Q3 & U3 & Z3 & D3 & O3); try done; [apply I1|apply I1|by change (topology (put q p2 s1)) with (topology s1); rewrite T1|].
  change (newAddr (counters (put q p2 s1))) with (newAddr (counters s1)) in *. rewrite N1 in *.
  assert (recv_callback fn_traffic data q now s1 = Ok (tt, s3)) as Ec.
  { change (on_recv (Handlers0 := traffic_cb 1) q now now s1 = Ok (tt, s3)).
    unfold on_recv. mprim. erewrite M_bind_ok by exact E2. rewrite M1, Ht. rewrite (bool_decide_false (sink = src)) by done.
    rewrite T2. change (TrafficPacket.getType p1) with (s8 (get_byte TrafficPacket.OffsetType p1)).
    rewrite (same_type _ _ _ R1) by inside_tac. change (s8 (get_byte TrafficPacket.OffsetType (packet_of f))) with (TrafficPacket.getType (packet_of f)).
    rewrite Hty, Z.eqb_refl, (up_src _ _ _ _ _ _ U2). unfold reply_or_wait.
    assert (isReachable sr now (put q p2 s1) = Ok (true, put q p2 s1)) as Ei
      by (apply (isReachable_ok _ u); [apply I1|change (topology (put q p2 s1)) with (topology s1); by rewrite T1]).
    erewrite M_bind_ok by exact Ei. exact E3. }
  assert (at_addr s3 q p2) as At2 by (unfold at_addr; rewrite O3 by lia; apply at_put).
  assert (refcount p2 = 1) as C2' by (rewrite C2, (sr_refcount _ _ _ R1); done).
  erewrite M_bind_ok in Er by exact Ec. erewrite unref_ok in Er by (done || lia). rewrite C2' in Er. change (1 =? 1) with true in Er. cbv iota in Er.
  set (s4 := gone q p2 s3) in *.
  assert (at_addr s4 (q + 1) p3) as At4 by (unfold at_addr, s4, gone; cbn; rewrite lookup_delete_ne by lia; exact At3).
  destruct (xmit_only (q + 1) p3 ret now2 s4 (Some (set_refcount 1 (set_cb None p3)))) as (s5 & E5 & S5 & Q5 & P5); try done;
    [lia|rewrite Z3; split; [lia|]; apply Nat2Z.inj_le; inside_tac|by rewrite C3|].
  rewrite D3, Z3, Nat2Z.id in S5.
  destruct (frame_of_packet u sr x 32 PACKET_TYPE_TRAFFIC p3 TrafficPacket.TrafficHeaderEnd U3 ltac:(split; inside_tac)) as (F1 & _ & _).
  exists s4, s5, (q + 1), (set_refcount 1 (set_cb None p3)). split; [exact Er|]. split; [exact E5|]. split; [by eexists|].
  split; [apply lookup_delete_eq|]. by split.
Qed.
End traffic.

(** *** Example: stations 1 and 2 are neighbours; 2 has the generator *)

Section example.
#[local] Existing Instances gea_ns hop_count hop_count_meter merge_std_sort toy_aes ex_basic traffic_handlers.

Definition line2 : AdjList :=
  let node ls := set_linklist ls NDescr_new in [(1, node [LQ None 2 10 1]); (2, node [LQ None 1 10 1])].

Definition traffic_at (t : TrafficType) : AwdsRouting Traffic :=
  let topo := mkTopo (match routes (H := merge_std_sort) 2 line2 with Ok a => a | Fail _ => [] end) false false 2 false false false [] in
  mkRouting Traffic (mkIface (mkN ∅ [] ∅ None []) (mkQ [] None [])) topo (replicate 32 0) (FloodHistory_new []) None None
    (mkPeriods 1000 Constant 1400 0 None None) (mkCounters 0 0 0 1) (mkRegisters {[ PACKET_TYPE_TRAFFIC := (fn_traffic, 0) ]} ∅ ∅ ∅)
    (mkTraffic t 0 0 0 0 0 0 0 None None).

Definition traffic_frame (t : Z) : list Z :=
  [2; 0; 0; 0; 0; 0; 1; 0; 7; 0; 0; 0; 0; 0; 2; 0; 0; 0; 0; 0; 2; 9; 96; 0; 0; 0; 0; t; 0; 0; 0; 0; 0; 0; 0].

Lemma traffic_at_station t : traffic_station 2 t (traffic_at t).
Proof. constructor; [by constructor|done|done|by eexists|done]. Qed.

Lemma traffic_flight t : is_byte t -> flight 2 2 1 9 PACKET_TYPE_TRAFFIC (traffic_frame t).
Proof.
  intros Ht. constructor; try (vm_compute; reflexivity). split; [|vm_compute; lia]. unfold traffic_frame.
  repeat (apply List.Forall_cons; [first [exact Ht|vm_compute; split; [discriminate|reflexivity]]|]). by apply List.Forall_nil.
Qed.

Lemma unasked_reply_exits_witness :
  exists s', recv_data 35 (traffic_frame 1) 0 (traffic_at src) = Ok (tt, s') /\ exited (modules s') = Some 1.
Proof.
  apply (unasked_reply_exits 2 1 9 0 (traffic_frame 1) (traffic_at src)); try done; [apply traffic_at_station|by apply traffic_flight].
Defined.

Lemma reply_never_freed_witness :
  exists s' s2 q p, recv_data 35 (traffic_frame 0) 0 (traffic_at sink) = Ok (tt, s') /\ on_net (xmit_cb true 35 1) s' = Ok (tt, s2) /\
    queue (sendQueue (net s2)) = [] /\ at_addr s2 q p /\ refcount p = 1.
Proof.
  destruct (reply_never_freed 2 1 1 9 0 35 1 (traffic_frame 0) (traffic_at sink)) as (s' & s2 & q & p & E1 & E2 & _ & _ & E3 & E4 & E5).
  - apply traffic_at_station.
  - done.
  - done.
  - lia.
  - lia.
  - by apply traffic_flight.
  - vm_compute. reflexivity.
  - vm_compute. reflexivity.
  - done.
  - exists s', s2, q, p. split; [exact E1|]. split; [exact E2|]. split; [exact E3|]. split; [exact E4|exact E5].
Defined.
End example.
