(* ===== verification/TTMetric.v ===== *)
(** * The metric of transmission times

    [TTMetric.cc], [awds/TTMetric.h], [gea2mad.cc]: the quality of a link is a time the
    simulator has measured; the metric only sends requests to the neighbours in turn,
    so that there is something to measure.  [Tcl] is the interpreter of the simulator:
    the name of the current node and the results of commands. *)

From Stdlib Require Import Ascii String.
From S2P Require Import Prelude OMap Bytes NodeId FloodHist Ccm CcmThms CryptoUnit Names Filter Topology RoutesThms SendQueue Neighbors NeighborThms Metrics Packet Routing Station RoutingThms DeliveryThms HeaderThms Probes ProbesThms Double.

Class Tcl := { node_name : list Z; tcl_result : list Z -> list Z }.

Record NodeData := mkData { tt : Z; active : bool; tt_lastsend : Z }.
Record TTMetric := mkTT { ttData : list (NodeId * NodeData); tt_interval : Z; tt_packetSize : Z; tt_blocker : option Z }.

Definition set_ttData v m := mkTT v (tt_interval m) (tt_packetSize m) (tt_blocker m).
Definition set_tt_blocker v m := mkTT (ttData m) (tt_interval m) (tt_packetSize m) v.
Definition set_active v e := mkData (tt e) v (tt_lastsend e).

Section ttmetric.
Context `{Gea, Metric, LinkMeter, StdSort, AES, Basic, GeaRaw, GeaDouble, Tcl}.

Definition NodeData_new : NodeData := mkData max_quality true t0.
Definition TTMetric_new : TTMetric := mkTT [] (duration 1 1) 800 None.

Definition tt_start (clock : Z) (m : TTMetric) : TTMetric := set_tt_blocker (Some (clock + tt_interval m)) m.

(** [ttData[id].f = ...]: the element is created if there is none. *)
Definition tt_update (f : NodeData -> NodeData) (i : NodeId) (m : TTMetric) : TTMetric :=
  set_ttData (om_put i (f (default NodeData_new (om_find i (ttData m)))) (ttData m)) m.

(** [gea2mad::getTT]; the command is printed into 100 cells. *)
Definition getTT (i : Z) : outcome double :=
  let cmd := (node_name ++ str " getTransmitTime "%string ++ print_int i)%list in
  if (length cmd + 1 <=? 100)%nat then Ok (atof (tcl_result cmd)) else Fail OutOfBounds.

(** The minimum is taken after the conversion. *)
Definition tt_get_quality (d : NodeDescr) (m : TTMetric) : outcome (Z * TTMetric) :=
  t ← getTT (s32 (id d));
  v ← dbl_to_unsigned max_quality (dbl_mul t (dbl_of_Z max_quality));
  let ret := Z.min v max_quality in
  Ok (ret, tt_update (fun e => mkData ret (active e) (tt_lastsend e)) (id d) m).

Definition tt_calculate (forward backward : Z) : Z := forward.
Definition tt_do_update : Z := 0.

Definition tt_addNode (i : NodeId) (m : TTMetric) : TTMetric := tt_update (set_active true) i m.
Definition tt_begin_update (m : TTMetric) : TTMetric := set_ttData ((fun kd => (kd.1, set_active false kd.2)) <$> ttData m) m.
Definition tt_end_update (m : TTMetric) : TTMetric := set_ttData (filter (fun kd => active kd.2 = true) (ttData m)) m.

(** [on_recv] does nothing. *)
Definition tt_on_recv (q now : Z) : R TTMetric unit := mret Datatypes.tt.

(** [on_wait]; the packet is not released. *)
Definition tt_on_wait (clock now : Z) : R TTMetric unit :=
  m ← gets modules;
  (match find_oldest tt_lastsend (ttData m) with
   | None => mret Datatypes.tt
   | Some (dest, e) =>
       q ← newUnicastPacket PACKET_TYPE_UC_METRIC;
       upd_packet q (UCMetricPacket.mk_time UCMetricPacket.req 2 1 clock);;
       sendvia q dest (u32 (tt_packetSize m)) now;;
       modify (fun s => set_modules (set_ttData (om_put dest (mkData (tt e) (active e) clock) (ttData (modules s))) (modules s)) s)
   end);;
  modify (fun s => set_modules (set_tt_blocker (Some (clock + tt_interval m)) (modules s)) s).
End ttmetric.

(** * The neighbours are asked in turn, so nobody waits longer than one round. *)

(** ** Asking the oldest *)

Section fair.
Context {D : Type} (last : D -> Z).
Implicit Types m : list (NodeId * D).

Lemma om_put_split k d e m : om_find k m = Some e ->
  exists m1 m2, m = m1 ++ (k, e) :: m2 /\ om_put k d m = m1 ++ (k, d) :: m2.
Proof.
  induction m as [|[k' d'] m IH]; [done|]. cbn [om_find om_put].
  destruct (Z.eqb_spec k' k) as [->|]; [intros [= ->]; by exists [], m|].
  destruct (k <? k'); [done|]. intros (m1 & m2 & -> & ->)%IH. by exists ((k', d') :: m1), m2.
Qed.

Lemma oldest_loop_min m o : let r := oldest_loop last o m in r ∈ o :: m /\ forall x, x ∈ o :: m -> last r.2 <= last x.2.
Proof.
  revert o. induction m as [|x m IH]; intros o; cbn [oldest_loop].
  - split; [apply list_elem_of_here|]. by intros x ->%list_elem_of_singleton.
  - destruct (IH (if last x.2 <? last o.2 then x else o)) as [H1 H2]. split.
    + apply elem_of_cons in H1 as [->|H1]; [destruct (last x.2 <? last o.2); set_solver|set_solver].
    + assert (last (if last x.2 <? last o.2 then x else o).2 <= last o.2 /\ last (if last x.2 <? last o.2 then x else o).2 <= last x.2) as [Ho Hx]
        by (destruct (Z.ltb_spec (last x.2) (last o.2)); lia).
      pose proof (H2 _ (list_elem_of_here _ _)) as Hr.
      intros y [->|[->|Hy]%elem_of_cons]%elem_of_cons; [lia|lia|]. apply H2. by right.
Qed.

Lemma find_oldest_min m k e : find_oldest last m = Some (k, e) -> (k, e) ∈ m /\ forall x, x ∈ m -> last e <= last x.2.
Proof.
  destruct m as [|o m]; [done|]. intros E. pose proof (oldest_loop_min (o :: m) o) as Hr. cbv zeta in Hr.
  assert (Some (oldest_loop last o (o :: m)) = Some (k, e)) as E' by exact E. apply (inj Some) in E'. rewrite E' in Hr. destruct Hr as [H1 H2].
  split; [set_solver|]. intros x Hx. apply H2. by right.
Qed.

(** The elements that were not asked since [b]. *)
Definition waiting_since (b : Z) m : nat := length (filter (fun kd => last kd.2 < b) m).

Lemma none_waiting b m : waiting_since b m = 0%nat <-> Forall (fun kd => b <= last kd.2) m.
Proof.
  unfold waiting_since. induction m as [|x m IH]; [split; [constructor|done]|].
  rewrite filter_cons, Forall_cons, <- IH. case_decide; cbn [length]; split; [done|intros [? _]; lia|intros ?; split; [lia|done]|by intros [_ ?]].
Qed.

(** Asking the oldest takes one of them off the list. *)
Lemma ask_progress b c m k e d : om_sorted m -> find_oldest last m = Some (k, e) -> b <= c -> last d = c ->
  let m' := om_put k d m in m'.*1 = m.*1 /\ waiting_since b m' = pred (waiting_since b m).
Proof.
  intros Hs Hf Hc Hd m'. apply find_oldest_min in Hf as [Hin Hmin].
  destruct (om_put_split k d e m) as (m1 & m2 & Em & Em'); [by apply om_find_elem|].
  unfold m', waiting_since. rewrite Em'. split; [rewrite Em, !fmap_app; done|].
  rewrite Em, !filter_app, !length_app, !filter_cons. cbn [snd]. rewrite (decide_False (P := last d < b)) by lia.
  case_decide as Hb; cbn [length]; [lia|].
  assert (waiting_since b (m1 ++ m2) = 0%nat) as Hn.
  { apply none_waiting. rewrite Forall_forall. intros x Hx. assert (x ∈ m) as Hxm by (rewrite Em; set_solver).
    apply Hmin in Hxm. lia. }
  unfold waiting_since in Hn. rewrite filter_app, length_app in Hn. lia.
Qed.

End fair.

Section ttmetric.
Context `{Gea, Metric, LinkMeter, StdSort, AES, Basic, GeaRaw, GeaDouble, Tcl} `{!Handlers TTMetric}.
Implicit Type s : AwdsRouting TTMetric.

Lemma tt_on_wait_ok clock now s : om_sorted (ttData (modules s)) ->
  exists s', tt_on_wait clock now s = Ok (Datatypes.tt, s') /\ om_sorted (ttData (modules s')) /\
    (ttData (modules s')).*1 = (ttData (modules s)).*1 /\
    forall b, b <= clock -> waiting_since tt_lastsend b (ttData (modules s')) = pred (waiting_since tt_lastsend b (ttData (modules s))).
Proof.
  intros Hs. unfold tt_on_wait. mprim. destruct (find_oldest tt_lastsend (ttData (modules s))) as [[k e]|] eqn:Ef.
  - destruct (newUnicast_ok PACKET_TYPE_UC_METRIC s) as (p & s1 & E1 & Hat & Hu & _ & M1).
    set (q := newAddr (counters s)) in *. set (p1 := UCMetricPacket.mk_time UCMetricPacket.req 2 1 clock p).
    destruct (sendvia_ok q p1 k (u32 (tt_packetSize (modules s))) now (put q p1 s1)) as (s2 & E2 & _ & M2); [apply at_put|by apply untraced_probe|].
    erewrite M_bind_ok; cycle 1.
    { erewrite M_bind_ok by exact E1. erewrite M_bind_ok by (by apply upd_packet_ok). erewrite M_bind_ok by exact E2. reflexivity. }
    eexists. split; [reflexivity|]. cbn [modules set_modules set_tt_blocker set_ttData ttData].
    rewrite M2. change (modules (put q p1 s1)) with (modules s1). rewrite M1.
    split; [by apply om_put_sorted|]. split; [by apply (ask_progress tt_lastsend clock clock _ k e)|].
    intros b Hb. by apply (ask_progress tt_lastsend b clock _ k e).
  - eexists. split; [reflexivity|]. split; [done|]. split; [done|]. intros b _. destruct (ttData (modules s)) eqn:Em; [by cbn; rewrite Em|done].
Qed.

Fixpoint tt_rounds (rounds : list (Z * Z)) : R TTMetric unit :=
  match rounds with [] => mret Datatypes.tt | (clock, now) :: rounds => tt_on_wait clock now;; tt_rounds rounds end.

(** Every neighbour is asked: the timer of the metric never fails, and if it has
    gone off at least as often as there are neighbours, at or after the time [b], then
    each of them was sent a request at or after [b]; the neighbours stay the same. *)
Theorem neighbours_asked_in_turn (b : Z) (rounds : list (Z * Z)) s :
  om_sorted (ttData (modules s)) -> (length (ttData (modules s)) <= length rounds)%nat -> Forall (fun cn => b <= cn.1) rounds ->
  exists s', tt_rounds rounds s = Ok (Datatypes.tt, s') /\ (ttData (modules s')).*1 = (ttData (modules s)).*1 /\
    Forall (fun kd => b <= tt_lastsend kd.2) (ttData (modules s')).
Proof.
  intros Hs Hl Hc. assert (waiting_since tt_lastsend b (ttData (modules s)) <= length rounds)%nat as Hw
    by (etrans; [apply length_filter|exact Hl]).
  clear Hl. revert s Hs Hw. induction Hc as [|[clock now] rounds Hb _ IH]; intros s Hs Hw; cbn [tt_rounds].
  - exists s. split; [done|]. split; [done|]. apply none_waiting. cbn in Hw. lia.
  - destruct (tt_on_wait_ok clock now s Hs) as (s1 & E1 & Hs1 & Hk & Hn). destruct (IH s1 Hs1) as (s' & E & Hk' & Hf).
    { rewrite (Hn b Hb). cbn in Hw. lia. }
    exists s'. split; [by erewrite M_bind_ok by exact E1|]. split; [congruence|done].
Qed.
End ttmetric.

(** *** Example: two neighbours, two rounds *)

Section example.
#[local] Existing Instances gea_ns hop_count hop_count_meter merge_std_sort toy_aes ex_basic ex_raw ex_double.
#[local] Instance ex_tcl : Tcl := {| node_name := [110]; tcl_result cmd := [48] |}.
#[local] Instance no_protocol : Handlers TTMetric := {| recv_callback cb data q now := fail NullDeref |}.

Definition tt_station : AwdsRouting TTMetric :=
  mkRouting TTMetric (mkIface (mkN ∅ [] ∅ None []) (mkQ [] None [])) (topology (station3 1)) (replicate 32 0) (FloodHistory_new []) None None
    (mkPeriods 1000 Constant 1400 0 None None) (mkCounters 0 0 0 1) (mkRegisters ∅ ∅ ∅ ∅)
    (mkTT [(2, mkData 0 true 7); (3, mkData 0 true 5)] 10 800 None).

Lemma neighbours_asked_in_turn_witness :
  exists s', tt_rounds [(100, 100); (110, 110)] tt_station = Ok (Datatypes.tt, s') /\ (ttData (modules s')).*1 = [2; 3] /\
    Forall (fun kd => 100 <= tt_lastsend kd.2) (ttData (modules s')).
Proof.
  apply (neighbours_asked_in_turn 100 [(100, 100); (110, 110)] tt_station).
  - unfold om_sorted. repeat constructor.
  - cbn. lia.
  - repeat constructor; cbn; lia.
Defined.
End example.
