(* ===== verification/Linux.v ===== *)
(** * The transport over the kernel module

    [linuxbasic.cc]: the daemon's end of an AWDS socket.  The state [world] joins the
    object of class [LinuxBasic], the table of open files and the kernel module of
    [KState]; a system call of the daemon is the module's own handler of [KSocket],
    run on that kernel.  [serving] is Linux while it serves a call of the daemon: what
    it copies from user memory are the bytes the daemon holds there. *)

From Stdlib Require Import Ascii String.
From S2P Require Import Prelude Bytes NodeId Neighbors KState KInstance KForward KSocket Names Topology Packet Station.

Local Open Scope list_scope.

Definition IFNAMSIZ : nat := 16.
Definition SIOCGIFINDEX : Z := 0x8933.
Definition SIOCGIFHWADDR : Z := 0x8927.

(** A [short] in memory, read back. *)
Definition short_of_bytes (bs : list Z) : Z := swrap 16 (be_dec (rev bs)).

(** [LinuxBasic] without its queue ([SendQueue.sendq]) and its constant members. *)
Record LinuxBasic := mkLinux {
  raw_socket : Z;
  addr : sockaddr_awds;
  devicename : list Z;
  MyId : NodeId;
  dest : NodeId;
  src : NodeId;
}.
Definition set_raw_socket v b := mkLinux v (addr b) (devicename b) (MyId b) (dest b) (src b).
Definition set_addr v b := mkLinux (raw_socket b) v (devicename b) (MyId b) (dest b) (src b).
Definition set_MyId v b := mkLinux (raw_socket b) (addr b) (devicename b) v (dest b) (src b).
Definition set_dest v b := mkLinux (raw_socket b) (addr b) (devicename b) (MyId b) v (src b).

Record world := mkWorld { files : gmap Z positive; kern : kstate; lin : LinuxBasic }.
Definition set_files v w := mkWorld v (kern w) (lin w).
Definition set_kern v w := mkWorld (files w) v (lin w).
Definition set_lin v w := mkWorld (files w) (kern w) v.

Abbreviation W := (M world).
Definition on_kernel {A} (m : K A) : W A := zoom kern set_kern m.
Definition on_basic (f : LinuxBasic -> LinuxBasic) : W unit := modify (fun w => set_lin (f (lin w)) w).

(** The interfaces of the machine, and what an unset [ifreq] holds. *)
Class NetDevices := {
  dev_ifindex : list Z -> option Z;
  dev_hwaddr : list Z -> option (list Z);
  uninit_hwaddr : list Z;
}.

(** Linux during a call of the daemon, which holds [mem] at the address [base] and
    [iov] in the buffer it sends.  The call may still fail to copy. *)
Definition serving (base : Z) (mem iov : list Z) (L : LinuxKernel) : LinuxKernel := {|
  kmalloc_ok := kmalloc_ok; kmalloc_bytes := kmalloc_bytes; sk_alloc_ok := sk_alloc_ok;
  dev_get_by_index := dev_get_by_index; dev_getbyhwaddr := dev_getbyhwaddr; dev_up := dev_up;
  dev_queue_xmit := dev_queue_xmit; net_xmit_errno := net_xmit_errno; netif_rx_ni := netif_rx_ni;
  eth_type_trans := eth_type_trans; sock_queue_rcv_skb := sock_queue_rcv_skb;
  current_time_sec := current_time_sec; print_mac := print_mac; access_ok := access_ok;
  copy_from_user t a n :=
    let r := copy_from_user t a n in
    let off := a - base in
    if (fst r =? 0) && (0 <=? off) && (off + Z.of_nat n <=? Z.of_nat (length mem))
    then (0, slice (Z.to_nat off) n mem) else r;
  copy_to_user := copy_to_user; sock_alloc_send_skb := sock_alloc_send_skb;
  reserved_space := reserved_space; dev_hard_header := dev_hard_header;
  memcpy_fromiovec t n :=
    let r := memcpy_fromiovec t n in
    if (fst r =? 0) && (n <=? length iov)%nat then (0, take n iov) else r;
  skb_copy_datagram_iovec := skb_copy_datagram_iovec; signal_pending := signal_pending;
  sock_intr_errno := sock_intr_errno;
|}.

Section linux.
Context `{LK : LinuxKernel} `{NetDevices}.

(** ** System calls

    A negative result of the kernel becomes -1 in the C library. *)
Definition libc (r : Z) : Z := if r <? 0 then -1 else r.

(** [fd] is the number the system chooses, negative when there is none left. *)
Definition sys_socket (fd : Z) : W Z :=
  if fd <? 0 then mret (-1) else
  r ← on_kernel awds_create_socket;
  match snd r with
  | Some sk => modify (fun w => set_files (<[fd := sk]> (files w)) w);; mret fd
  | None => mret (libc (fst r))
  end.

(** What the socket layer does with [ioctl]: the protocol is asked first, and what
    it does not know goes to the devices. *)
Definition sys_ioctl (serve : LinuxKernel) (fd cmd arg dev_result : Z) : W Z :=
  sk ← gets (fun w => files w !! fd);
  match sk with
  | None => mret (-1)
  | Some _ =>
      r ← on_kernel (awds_socket_ioctl (H := serve) cmd arg);
      mret (libc (if r =? - ENOIOCTLCMD then dev_result else r))
  end.

Definition sys_bind (fd : Z) (a : sockaddr_awds) : W Z :=
  sk ← gets (fun w => files w !! fd);
  match sk with
  | None => mret (-1)
  | Some sk => r ← on_kernel (awds_socket_bind (Some sk) a); mret (libc r)
  end.

Definition sys_close (fd : Z) : W Z :=
  sk ← gets (fun w => files w !! fd);
  match sk with
  | None => mret (-1)
  | Some sk =>
      modify (fun w => set_files (delete fd (files w)) w);;
      r ← on_kernel (awds_socket_release (Some sk)); mret (libc r)
  end.

(** ** Creating the socket *)

(** [strncpy(req.ifr_name, devicename, IFNAMSIZ)] *)
Definition ifr_name (b : LinuxBasic) : list Z := take IFNAMSIZ (devicename b).

(** The address of [req] is not used by the protocol. *)
Definition getHwAddress (req : Z) : W bool :=
  b ← gets lin;
  let hw := dev_hwaddr (ifr_name b) in
  _ret ← sys_ioctl LK (raw_socket b) SIOCGIFHWADDR req (if hw then 0 else -1);
  on_basic (set_MyId (AbstractID6.fromArray 0 (default uninit_hwaddr hw)));;
  mret true.

Definition createSocket (fd req : Z) : W bool :=
  s ← sys_socket fd;
  on_basic (set_raw_socket s);;
  if s <? 0 then mret false else
  b ← gets lin;
  let idx := dev_ifindex (ifr_name b) in
  ret ← sys_ioctl LK s SIOCGIFINDEX req (if idx then 0 else -1);
  if negb (ret =? 0) then mret false else
  getHwAddress req;;
  on_basic (fun b => set_addr (SockAddr PF_AWDS (default 0 idx) (AbstractID6.toArray (MyId b) 0 (sa_addr (addr b)))) b);;
  b ← gets lin;
  r ← sys_bind (raw_socket b) (addr b);
  if r =? -1 then _ ← sys_close (raw_socket b); mret false else mret true.

(** The constructor: [devicename] has [IFNAMSIZ+1] bytes. *)
Definition LinuxBasic_new (dev : list Z) (fd req : Z) : W unit :=
  if (IFNAMSIZ <? length dev)%nat then fail OutOfBounds else
  on_basic (fun b => mkLinux (raw_socket b) (addr b) dev (MyId b) (dest b) (src b));;
  created ← createSocket fd req;
  if (created : bool) then mret tt else on_basic (set_raw_socket (-1)).

(** ** The routing table and the configuration *)

(** [Basic] is the null pointer or this object. *)
Definition UpdateTopology (Basic : bool) (TopoDump : Z) (dump : list Z) : W unit :=
  if negb Basic then mret tt else
  b ← gets lin;
  _ret ← sys_ioctl (serving TopoDump dump [] LK) (raw_socket b) AIOCSRTTBL TopoDump (-1);
  mret tt.

(** What the object [old] at the address [a] holds after a call. *)
Definition written (a : Z) (old : list Z) (t : list kcall) : list Z :=
  match t with
  | CCopyTo b bs :: _ => if b =? a then take (length old) (bs ++ drop (length bs) old) else old
  | _ => old
  end.

(** [level] is a [short] at the address [a]. *)
Definition getModuleConfig (a : Z) : W Z :=
  b ← gets lin;
  if raw_socket b <? 0 then mret (-1) else
  ret ← sys_ioctl LK (raw_socket b) AIOCGCFGNR a (-1);
  if negb (ret =? 0) then mret (-1) else
  t ← gets (fun w => trace (kern w));
  mret (short_of_bytes (written a (short_bytes 0) t)).

(** [stack] is what follows [level] on the stack. *)
Definition setModuleConfig (a : Z) (stack : list Z) (level : Z) : W unit :=
  b ← gets lin;
  if raw_socket b <? 0 then mret tt else
  _ret ← sys_ioctl (serving a (short_bytes level ++ stack) [] LK) (raw_socket b) AIOCSCFGNR a (-1);
  mret tt.

Definition moduleconfig_cmd_usage : list Z :=
  str "moduleconfig [3 | 2 | 1 | 0]" ++ [10] ++ str "  3: enable both configuration options" ++ [10]
  ++ str "  2: enable forwarding only" ++ [10] ++ str "  1: enable optimized local delivery only" ++ [10]
  ++ str "  0: enable nothing" ++ [10].

(** The result and the text for the client; [std::endl] is a line feed. *)
Definition moduleconfig_command_fn (a : Z) (stack : list Z) (argv : list (list Z)) : W (Z * list Z) :=
  match argv with
  | [_] => level ← getModuleConfig a; mret (0, str "moduleconfig: " ++ print_int level ++ [10])
  | [_; arg] =>
      let level := swrap 16 (atoi arg) in
      if (level <? 0) || (3 <? level) then mret (-1, moduleconfig_cmd_usage)
      else setModuleConfig a stack level;; mret (0, [])
  | _ => mret (-1, moduleconfig_cmd_usage)
  end.

(** ** Frames *)

Definition setSendDest (d : NodeId) : W unit := on_basic (set_dest d).
Definition getRecvSrc : W NodeId := gets (fun w => src (lin w)).

Definition to_addr (id : NodeId) (b : LinuxBasic) : LinuxBasic :=
  set_addr (SockAddr (sa_family (addr b)) (sa_ifindex (addr b)) (AbstractID6.toArray id 0 (sa_addr (addr b)))) b.

(** [LinuxHandle::write] *)
Definition write (buf : list Z) (size : nat) : W Z :=
  if (length buf <? size)%nat then fail OutOfBounds else
  on_basic (fun b => to_addr (dest b) b);;
  b ← gets lin;
  sk ← gets (fun w => files w !! raw_socket b);
  match sk with
  | None => mret (-1)
  | Some _ =>
      r ← on_kernel (awds_socket_sendmsg (H := serving 0 [] buf LK) (Some (addr b)) size);
      mret (libc r)
  end.

(** The bytes [skb_copy_datagram_iovec] has put into the buffer. *)
Definition datagram (t : list kcall) : list Z :=
  match t with
  | CKfreeSkb _ :: CDatagram skb n :: _ => take (Z.to_nat n) (skb_data skb)
  | _ => []
  end.

(** [LinuxHandle::read]: the result and the bytes received.  [nonblock] is the flag
    [O_NONBLOCK] of the descriptor. *)
Definition read (sched : kstate -> Z -> Z * kstate) (fuel : nat) (nonblock : bool) (size : Z) : W (Z * list Z) :=
  on_basic (fun b => to_addr (MyId b) b);;
  b ← gets lin;
  sk ← gets (fun w => files w !! raw_socket b);
  match sk with
  | None => mret (-1, [])
  | Some sk =>
      r ← on_kernel (awds_socket_recvmsg sched fuel (Some sk) size nonblock false);
      (if msg_name (snd r) is Some a then on_basic (set_addr a) else mret tt);;
      t ← gets (fun w => trace (kern w));
      mret (libc (fst r), if fst r <? 0 then [] else datagram t)
  end.

(** ** Start-up: the device named last, [None] for an early exit.  [argv[argc]] is
    the null pointer. *)
Fixpoint netif_loop (argv : list (list Z)) (netif : option (list Z)) : option (option (list Z)) :=
  match argv with
  | [] => Some netif
  | a :: rest =>
      if bool_decide (a = str "--raw-device") then
        match rest with
        | [] => Some None
        | d :: rest => netif_loop rest (Some d)
        end
      else if bool_decide (a = str "--help") then None
      else netif_loop rest netif
  end.

(** The result of the module's main function, apart from the registry of commands. *)
Definition linuxbasic_main (argv : list (list Z)) (fd req : Z) : W Z :=
  match netif_loop (tail argv) None with
  | Some (Some netif) =>
      LinuxBasic_new netif fd req;;
      b ← gets lin;
      mret (if raw_socket b =? -1 then -1 else 0)
  | _ => mret (-1)
  end.
End linux.
