(* ===== verification/LinuxThms.v ===== *)
(** * The transport over the kernel module: theorems

    The configuration of the module set and read back through a shell, a frame that
    one daemon writes and another one reads with two kernels in between, and the
    mutex that creating the socket releases without holding it. *)

From Stdlib Require Import Ascii String.
From S2P Require Import Prelude Bytes NodeId Packet KState KInstance KForward KSocket KRouteThms KBindThms KPacketThms KSocketThms Names Topology Station Linux.

Local Open Scope list_scope.

(** ** Numbers in memory *)

Lemma swrap_id_signed w z : 0 < w -> - 2 ^ (w - 1) <= z < 2 ^ (w - 1) -> swrap w z = z.
Proof.
  intros Hw Hz. unfold swrap, wrap.
  assert (2 ^ w = 2 * 2 ^ (w - 1)) as Hp by (rewrite <- Z.pow_succ_r by lia; f_equal; lia).
  destruct (Z.leb_spec 0 z).
  - rewrite Z.mod_small by lia. destruct (Z.ltb_spec z (2 ^ (w - 1))); lia.
  - rewrite <- (Z.mod_add z 1) by lia. rewrite Z.mod_small by lia.
    destruct (Z.ltb_spec (z + 1 * 2 ^ w) (2 ^ (w - 1))); lia.
Qed.

Lemma swrap_congr w x y : wrap w x = wrap w y -> swrap w x = swrap w y.
Proof. unfold swrap. by intros ->. Qed.

Lemma wrap_16_swrap_32 x : wrap 16 (swrap 32 x) = wrap 16 x.
Proof.
  unfold swrap, wrap. cbn zeta. change (2 ^ 32) with (65536 * 65536). change (2 ^ 16) with 65536.
  rewrite (Z.mod_eq x (65536 * 65536)) by lia.
  set (q := x / (65536 * 65536)). destruct (_ <? _).
  - replace (x - 65536 * 65536 * q) with (x + (- (65536 * q)) * 65536) by lia. by apply Z.mod_add.
  - replace (x - 65536 * 65536 * q - 65536 * 65536) with (x + (- (65536 * q) - 65536) * 65536) by lia. by apply Z.mod_add.
Qed.

(** A [short] read as an [int]: two bytes of what follows come along, and are cut
    off when the kernel stores it. *)
Lemma over_read level stack :
  length stack = 2%nat -> swrap 16 (int_of_bytes (short_bytes level ++ stack)) = swrap 16 level.
Proof.
  intros Hl. destruct stack as [|a [|b [|? ?]]]; try done. apply swrap_congr.
  unfold int_of_bytes. rewrite wrap_16_swrap_32.
  unfold short_bytes. rewrite rev_app_distr, rev_involutive, be_dec_app, be_enc_length, be_dec_enc.
  change (256 ^ Z.of_nat 2) with 65536. unfold wrap. change (2 ^ 16) with 65536.
  rewrite Z.add_comm, Z.mod_add by done. by rewrite !Z.mod_mod by done.
Qed.

Lemma short_of_short_bytes z : - 2 ^ 15 <= z < 2 ^ 15 -> short_of_bytes (short_bytes z) = z.
Proof.
  intros Hz. unfold short_of_bytes, short_bytes. rewrite rev_involutive, be_dec_enc.
  rewrite <- (swrap_id_signed 16 z) at 2 by lia. apply swrap_congr. unfold wrap.
  change (256 ^ Z.of_nat 2) with (2 ^ 16). by rewrite !Z.mod_mod by done.
Qed.

Section config.
Context `{LK : LinuxKernel} `{NetDevices}.

(** ** The configuration of the module *)

(** Copying between the daemon and the kernel succeeds. *)
Definition copies : Prop :=
  (forall t a n, access_ok t a n = true) /\ (forall t a n, fst (copy_from_user t a n) = 0) /\
  (forall t a bs, copy_to_user t a bs = 0).

Definition configured (level : Z) (t : list kcall) (s : kstate) : kstate := set_trace t (set_configuration level s).

Lemma checks_pass (L : LinuxKernel) cmd arg s :
  _IOC_NR cmd <= AWDS_IOC_MAX_NR -> (forall t a n, access_ok (LinuxKernel := L) t a n = true) ->
  ioctl_checks (H := L) cmd arg s = Ok (0, s).
Proof.
  intros Hn Hacc. unfold ioctl_checks. replace (_ && _) with false.
  - kstep. rewrite Hacc. by destruct (_ || _).
  - symmetry. apply andb_false_iff. right. by apply Z.ltb_ge.
Qed.

Lemma serving_mem base mem iov t :
  copies -> copy_from_user (LinuxKernel := serving base mem iov LK) t base 4 =
    if (4 <=? length mem)%nat then (0, take 4 mem) else copy_from_user t base 4.
Proof.
  intros (_ & Hc & _). cbn [copy_from_user serving]. rewrite Hc, Z.sub_diag.
  change ((0 =? 0) && (0 <=? 0)) with true. cbn [andb].
  destruct (Nat.leb_spec 4 (length mem)); [rewrite (proj2 (Z.leb_le _ _)) by lia; done|].
  by rewrite (proj2 (Z.leb_gt _ _)) by lia.
Qed.

Lemma ioctl_configures a level stack s :
  copies -> length stack = 2%nat -> - 2 ^ 15 <= level < 2 ^ 15 -> - 2 ^ 15 <= configuration s < 2 ^ 15 ->
  exists t, awds_socket_ioctl (H := serving a (short_bytes level ++ stack) [] LK) AIOCSCFGNR a s =
    Ok (0, configured level t s).
Proof.
  intros Hc Hl Hlev Hcfg. unfold awds_socket_ioctl.
  erewrite K_bind_ok; [|apply checks_pass; [by vm_compute|apply Hc]]. cbn beta.
  change (negb (0 =? 0)) with false. change (AIOCSCFGNR =? AIOCSCFGNR) with true. cbn iota.
  unfold ioctl_set_config.
  assert (length (short_bytes level) = 2%nat) as L2 by (unfold short_bytes; by rewrite length_rev, be_enc_length).
  erewrite K_bind_ok.
  2:{ apply user_read_ok. rewrite serving_mem by done. rewrite length_app, L2, Hl. change (4 <=? 2 + 2)%nat with true. cbn iota.
      rewrite take_ge by (rewrite length_app; lia). reflexivity. }
  cbn [fst snd]. change (negb (0 =? 0)) with false. cbn iota zeta. kstep. cbn [configuration set_trace].
  pose proof (over_read level stack Hl) as Ho. rewrite (swrap_id_signed 16 level) in Ho by lia.
  destruct (Z.eqb_spec (int_of_bytes (short_bytes level ++ stack)) (configuration s)) as [E|_].
  - kstep. eexists. unfold mret, M_ret, configured. rewrite E, swrap_id_signed in Ho by lia. subst level. by destruct s.
  - kstep. eexists. rewrite Ho. by destruct s.
Qed.

Lemma ioctl_reports a s :
  copies -> awds_socket_ioctl AIOCGCFGNR a s =
    Ok (0, set_trace (CCopyTo a (short_bytes (configuration s)) :: trace s) s).
Proof.
  intros (Ha & _ & Ht). unfold awds_socket_ioctl.
  erewrite K_bind_ok; [|apply checks_pass; [by vm_compute|apply Ha]]. cbn beta.
  change (negb (0 =? 0)) with false. change (AIOCGCFGNR =? AIOCSCFGNR) with false.
  change (AIOCGCFGNR =? AIOCGCFGNR) with true. cbn iota.
  unfold ioctl_get_config. kstep. kstep. kstep. by rewrite Ht.
Qed.

Lemma sys_ioctl_ok serve fd cmd arg dv w sk r k :
  files w !! fd = Some sk -> awds_socket_ioctl (H := serve) cmd arg (kern w) = Ok (r, k) -> r <> - ENOIOCTLCMD ->
  sys_ioctl serve fd cmd arg dv w = Ok (libc r, set_kern k w).
Proof.
  intros Hf Hr Hn. unfold sys_ioctl, gets, on_kernel, zoom, mbind, M_bind. rewrite Hf, Hr.
  by rewrite (proj2 (Z.eqb_neq _ _) Hn).
Qed.

Lemma written_all a old bs t : length bs = length old -> written a old (CCopyTo a bs :: t) = bs.
Proof.
  intros Hl. unfold written. rewrite Z.eqb_refl, Hl, drop_ge, app_nil_r by done. by apply take_ge; lia.
Qed.

(** The socket of the daemon is open. *)
Definition is_open (w : world) (sk : positive) : Prop :=
  0 <= raw_socket (lin w) /\ files w !! raw_socket (lin w) = Some sk.

Lemma setModuleConfig_ok a stack level w sk :
  copies -> is_open w sk -> length stack = 2%nat -> 0 <= level <= 3 -> - 2 ^ 15 <= configuration (kern w) < 2 ^ 15 ->
  exists t, setModuleConfig a stack level w = Ok (tt, set_kern (configured level t (kern w)) w).
Proof.
  intros Hc [Hs Hf] Hl Hlev Hcfg. unfold setModuleConfig, gets, mbind, M_bind.
  rewrite (proj2 (Z.ltb_ge _ _) Hs).
  destruct (ioctl_configures a level stack (kern w)) as [t Ht]; [done..|lia|done|].
  exists t. rewrite (sys_ioctl_ok _ _ _ _ _ w sk 0 _ Hf Ht) by done. done.
Qed.

Lemma getModuleConfig_ok a w sk :
  copies -> is_open w sk -> - 2 ^ 15 <= configuration (kern w) < 2 ^ 15 ->
  exists t, getModuleConfig a w = Ok (configuration (kern w), set_kern (set_trace t (kern w)) w).
Proof.
  intros Hc [Hs Hf] Hcfg. unfold getModuleConfig, gets, mbind, M_bind.
  rewrite (proj2 (Z.ltb_ge _ _) Hs).
  rewrite (sys_ioctl_ok _ _ _ _ _ w sk _ _ Hf (ioctl_reports a (kern w) Hc)) by done.
  eexists. cbn [negb libc kern set_kern trace set_trace]. change (libc 0 =? 0) with true. cbn [negb].
  change (trace (kern (set_kern _ w))) with (CCopyTo a (short_bytes (configuration (kern w))) :: trace (kern w)).
  rewrite written_all by (unfold short_bytes; by rewrite !length_rev, !be_enc_length).
  by rewrite short_of_short_bytes.
Qed.

(** The configuration of the kernel module survives the trip through two system
    calls.  [moduleconfig n] for a level 0..3 stores exactly [n] in the module,
    although the kernel reads four bytes where the daemon has a [short] of two, and
    whatever follows it on the stack; [moduleconfig] then prints [n].  Nothing else in
    the kernel or the daemon changes. *)
Theorem moduleconfig_round_trip a a' stack stack' name arg n w sk :
  copies -> is_open w sk -> length stack = 2%nat -> - 2 ^ 15 <= configuration (kern w) < 2 ^ 15 ->
  atoi arg = n -> 0 <= n <= 3 ->
  exists t t',
    moduleconfig_command_fn a stack [name; arg] w = Ok ((0, []), set_kern (configured n t (kern w)) w) /\
    moduleconfig_command_fn a' stack' [name] (set_kern (configured n t (kern w)) w) =
      Ok ((0, str "moduleconfig: " ++ [48 + n] ++ [10]), set_kern (configured n t' (kern w)) w).
Proof.
  intros Hc Ho Hl Hcfg Ha Hn. destruct (setModuleConfig_ok a stack n w sk) as [t Ht]; try done.
  set (w1 := set_kern (configured n t (kern w)) w) in *.
  destruct (getModuleConfig_ok a' w1 sk) as [t' Ht']; [done|by destruct Ho|cbn; lia|].
  exists t, t'. split.
  - unfold moduleconfig_command_fn. rewrite Ha, swrap_id by lia.
    rewrite (proj2 (Z.ltb_ge n 0)), (proj2 (Z.ltb_ge 3 n)) by lia. cbn [orb].
    by erewrite M_bind_ok by exact Ht.
  - unfold moduleconfig_command_fn. erewrite M_bind_ok by exact Ht'. subst w1. cbn -[str].
    assert (print_int n = [48 + n]) as ->; [|done].
    unfold print_int. rewrite (proj2 (Z.ltb_ge n 0)) by lia. cbn [print_nat].
    rewrite (proj2 (Z.ltb_lt n 10)), Z.mod_small by lia. done.
Qed.

(** A number that fits no level but is congruent to one is taken for it. *)
Lemma moduleconfig_wraps stack : moduleconfig_command_fn 0 stack [[]; str "65537"] =
  (setModuleConfig 0 stack 1;; mret (0, [])).
Proof. reflexivity. Qed.

(** ** Creating the socket *)

(** Why creating the socket fails: the request for the index of the interface. *)
Lemma start_fails argv netif fd req w :
  netif_loop (tail argv) None = Some (Some netif) -> (length netif <= IFNAMSIZ)%nat -> 0 <= fd ->
  (forall t, sk_alloc_ok t = true) -> (forall t a n, access_ok t a n = true) ->
  awds_instance_mutex (kern w) = false ->
  linuxbasic_main argv fd req w = Fail BadUnlock.
Proof.
  intros Hargs Hlen Hfd Hsk Hacc Hm. unfold linuxbasic_main. rewrite Hargs. apply M_bind_fail.
  unfold LinuxBasic_new. rewrite (proj2 (Nat.ltb_ge _ _) Hlen). erewrite M_bind_ok by reflexivity. cbn beta.
  apply M_bind_fail. unfold createSocket.
  set (w1 := set_lin _ w). destruct w1 as [fs k b] eqn:E.
  assert (kern w = k) as Hk by (by injection E).
  erewrite M_bind_ok.
  2:{ unfold sys_socket. rewrite (proj2 (Z.ltb_ge _ _) Hfd). erewrite M_bind_ok.
      2:{ unfold on_kernel, zoom. cbn [kern]. unfold awds_create_socket.
          erewrite K_bind_ok by reflexivity. cbn beta. erewrite K_bind_ok by reflexivity. cbn beta.
          rewrite Hsk. erewrite K_bind_ok by reflexivity. reflexivity. }
      cbn beta. cbn [snd]. erewrite M_bind_ok by reflexivity. reflexivity. }
  cbn beta. erewrite M_bind_ok by reflexivity. cbn beta. rewrite (proj2 (Z.ltb_ge _ _) Hfd).
  erewrite M_bind_ok by reflexivity. cbn beta. apply M_bind_fail.
  unfold sys_ioctl. erewrite M_bind_ok by reflexivity. cbn beta. cbn [files set_lin set_files set_kern].
  rewrite lookup_insert_eq. apply M_bind_fail. unfold on_kernel, zoom. cbn [kern set_lin set_files set_kern].
  rewrite ioctl_unknown_command; [done|by left|done|done|done|by rewrite <- Hm, Hk|done].
Qed.

(** C26. The start of the daemon breaks the mutex of the kernel.  Whatever device is
    named, once the system has given a socket, [createSocket] asks it for the index of
    the interface; the socket layer offers every request to the protocol first, and the
    protocol answers an unknown request by releasing the mutex of the instances, which
    nobody holds. *)
Theorem start_releases_free_mutex argv netif fd req w :
  netif_loop (tail argv) None = Some (Some netif) -> (length netif <= IFNAMSIZ)%nat -> 0 <= fd ->
  (forall t, sk_alloc_ok t = true) -> (forall t a n, access_ok t a n = true) ->
  awds_instance_mutex (kern w) = false ->
  linuxbasic_main argv fd req w = Fail BadUnlock.
Proof. apply start_fails. Qed.
End config.

(** ** Examples *)

Definition ex_linux : LinuxBasic := mkLinux 5 (SockAddr PF_AWDS 3 (some_mac 1)) [] 1 9 0.
Definition ex_world (k : kstate) : world := mkWorld {[5 := 1%positive]} k ex_linux.
#[local] Instance one_device : NetDevices := {|
  dev_ifindex _ := Some 3; dev_hwaddr _ := Some (some_mac 1); uninit_hwaddr := [] |}.

Lemma moduleconfig_round_trip_witness : exists t t',
  moduleconfig_command_fn (LK := linux_sim no_user) 100 [7; 9] [[]; str "2"] (ex_world one_socket) =
    Ok ((0, []), set_kern (configured 2 t one_socket) (ex_world one_socket)) /\
  moduleconfig_command_fn (LK := linux_sim no_user) 100 [] [[]] (set_kern (configured 2 t one_socket) (ex_world one_socket)) =
    Ok ((0, str "moduleconfig: 2" ++ [10]), set_kern (configured 2 t' one_socket) (ex_world one_socket)).
Proof.
  exact (moduleconfig_round_trip (LK := linux_sim no_user) 100 100 [7; 9] [] [] (str "2") 2 (ex_world one_socket) 1%positive
    ltac:(by repeat split) ltac:(by split) eq_refl ltac:(by vm_compute) eq_refl ltac:(lia)).
Defined.

Lemma start_releases_free_mutex_witness :
  linuxbasic_main (LK := linux_sim no_user) [str "linuxbasic"; str "--raw-device"; str "wlan0"] 5 100 (ex_world kstate0)
    = Fail BadUnlock.
Proof.
  apply (start_releases_free_mutex (LK := linux_sim no_user) _ (str "wlan0")); try reflexivity; [by apply Nat.leb_le|lia].
Defined.
