(* ===== verification/LinuxFrameThms.v ===== *)
(** * Frames between two daemons over the kernel module

    What [LinuxHandle::write] hands to the module leaves the machine as an Ethernet
    frame; what [awds_packet_rcv] queues is what [LinuxHandle::read] returns; together
    a frame crosses from one daemon to the other. *)

From S2P Require Import Prelude Bytes NodeId Packet KState KInstance KForward KSocket KRouteThms KBindThms KPacketThms KSocketThms Linux LinuxThms.

Local Open Scope list_scope.

(** ** Queueing a packet for the daemon *)

Definition queued (skb : sk_buff) (k : awds_sock) : awds_sock := with_queue (sk_receive_queue k ++ [skb]) k.

Lemma registry_queue s R l k q :
  registry s R -> h_sock s !! l = Some k -> registry (with_sock (<[l := with_queue q k]> (h_sock s)) s) R.
Proof.
  intros [] Hk. constructor; try done.
  - intros b Hb. destruct (reg_sock b Hb) as (k' & Hk' & Hc & Hh & Hl).
    destruct (decide (b_sock b = l)) as [<-|Hne].
    + exists (with_queue q k). cbn. rewrite lookup_insert_eq. rewrite Hk' in Hk. injection Hk as <-. done.
    + exists k'. cbn. by rewrite lookup_insert_ne.
  - cbn. intros sk k' Hs Hn. destruct (decide (sk = l)) as [->|Hne].
    + rewrite lookup_insert_eq in Hs. injection Hs as <-. by apply (reg_free l k).
    + rewrite lookup_insert_ne in Hs by done. by eapply reg_free.
Qed.

Section receive.
Context `{LK : LinuxKernel}.

Lemma packet_rcv_queues s R ib skb k ty st :
  registry s R -> awds_instance_mutex s = true -> Forall (fun b => b_held b = false) R ->
  list_find (serves (skb_dev skb)) R = Some ib -> h_sock s !! b_sock ib.2 = Some k ->
  skb_protocol skb = ETH_P_AWDS -> awds_get_packet_type skb = Ok ty -> ty <> PACKET_UNICAST ->
  awds_count_packet skb (awds_stats s) = Ok st -> (forall t l b, sock_queue_rcv_skb t l b = 0) ->
  exists s', awds_packet_rcv skb (skb_dev skb) s = Ok (0, s') /\ registry s' R /\
    awds_instance_mutex s' = true /\ h_sock s' = <[b_sock ib.2 := queued skb k]> (h_sock s).
Proof.
  intros Hr Hm Hh Hfind Hk Hp Hty Hn Hcnt Hq. destruct ib as [i b]. cbn [snd] in *.
  apply list_find_Some in Hfind as Hi. destruct Hi as (Hi & _ & _).
  unfold awds_packet_rcv. rewrite Hp, Z.eqb_refl. cbn [negb].
  erewrite K_bind_ok by (by apply find_instance_by_dev_spec). rewrite Hfind. cbn [fmap option_fmap option_map snd].
  kstep.
  set (s1 := if statistics s =? 1 then set_stats st s else s).
  assert (registry s1 R) as Hr1 by (subst s1; destruct (_ =? 1); [reg_ext|done]).
  assert (h_sock s1 = h_sock s) as Hs1 by (subst s1; by destruct (_ =? 1)).
  assert (awds_instance_mutex s1 = true) as Hm1 by (subst s1; by destruct (_ =? 1)).
  erewrite (K_bind_ok _ _ _ tt s1).
  2:{ subst s1. destruct (statistics s =? 1); [|done]. kstep. rewrite Hcnt. kstep. done. }
  cbn beta. erewrite K_bind_ok by (apply load_ok; apply (reg_inst _ _ Hr1 i b Hi)). cbn beta.
  rewrite Hty. kstep. rewrite (proj2 (Z.eqb_neq _ _) Hn). cbn [inst_sock].
  unfold queue_to_user. kstep. rewrite Hq. kstep. change (0 =? 0) with true. cbn iota.
  erewrite K_bind_ok.
  2:{ apply update_ok. cbn [heap_of heap_sock h_sock set_trace]. by rewrite Hs1. }
  cbn beta. kstep. eexists. split; [reflexivity|].
  split; [|split; [done|]].
  - eapply (registry_ext (with_sock (<[b_sock b := queued skb k]> (h_sock s1)) s1)); try done.
    apply registry_queue; [done|by rewrite Hs1].
  - cbn. by rewrite Hs1.
Qed.

Lemma awds_find_instance_by_sock_spec s R sk :
  registry s R -> awds_instance_mutex s = false ->
  awds_find_instance_by_sock (Some sk) s = Ok ((fun ib => b_loc ib.2) <$> list_find (fun b => b_sock b = sk) R, s).
Proof.
  intros Hr Hm. unfold awds_find_instance_by_sock.
  erewrite K_bind_ok by (unfold mutex_lock_global; rewrite Hm; reflexivity). cbn beta.
  erewrite K_bind_ok by (apply find_instance_by_sock_spec; [by apply registry_mutex|done]). cbn beta.
  erewrite K_bind_ok by reflexivity. destruct s. cbn in *. by subst.
Qed.

(** [recvmsg] on a socket with a packet at the head of its queue. *)
Lemma recvmsg_head sched fuel s R ib skb q k total f :
  registry s R -> awds_instance_mutex s = false -> b_held ib.2 = false ->
  list_find (fun b => b_sock b = b_sock ib.2) R = Some ib -> find_dev (skb_dev skb) (b_ifs ib.2) = Some f ->
  h_sock s !! b_sock ib.2 = Some k -> sk_err k = 0 -> sk_receive_queue k = skb :: q -> (0 < fuel)%nat ->
  skb_len skb <= total -> (forall t b n, skb_copy_datagram_iovec t b n = 0) ->
  awds_socket_recvmsg sched fuel (Some (b_sock ib.2)) total false false s =
    Ok ((skb_len skb, MsgOut (Some (bi_addr f)) false),
        set_trace (CKfreeSkb skb :: CDatagram skb (skb_len skb) :: trace s)
          (with_sock (<[b_sock ib.2 := with_queue q k]> (h_sock s)) s)).
Proof.
  intros Hr Hm Hh Hfind Hfd Hk He Hq Hfuel Hlen Hcopy. destruct ib as [i b]. cbn [snd] in *.
  apply list_find_Some in Hfind as Hi. destruct Hi as (Hi & _ & _).
  unfold awds_socket_recvmsg. erewrite K_bind_ok by (by apply awds_find_instance_by_sock_spec). cbn beta.
  rewrite Hfind. cbn [fmap option_fmap option_map snd].
  destruct (registry_owns s R i b Hr Hi) as [k0 Ho]. rewrite Hh in Ho.
  assert (k0 = k) as -> by (pose proof (own_sock _ _ _ _ _ _ _ Ho); congruence).
  erewrite K_bind_ok by (by apply load_ok). cbn beta.
  assert (sk_ifcount k <> 0) as Hc.
  { rewrite (own_count _ _ _ _ _ _ _ Ho). destruct (b_ifs b); [done|cbn; lia]. }
  rewrite (proj2 (Z.eqb_neq _ _) Hc). cbn iota.
  erewrite K_bind_ok.
  2:{ pose proof (receive_queue_fifo sched s (b_sock b) k (skb :: q) fuel false Hk He Hq Hfuel) as [Hp _].
      exact Hp. }
  cbn beta iota.
  set (s1 := with_sock _ s).
  assert (registry s1 R) as Hr1 by (by apply registry_queue).
  destruct (registry_owns s1 R i b Hr1 Hi) as [k1 Ho1]. rewrite Hh in Ho1.
  destruct (if_list_found _ _ _ _ _ _ (own_list _ _ _ _ _ _ _ Ho1) Hfd) as (g & la & Hif & Hla & Haddr).
  erewrite K_bind_ok by (by eapply awds_find_interface_spec). rewrite Hfd. cbn [fmap option_fmap option_map].
  erewrite K_bind_ok.
  2:{ erewrite K_bind_ok by (by apply load_ok). cbn beta. rewrite Hla.
      erewrite K_bind_ok by (by apply load_ok). reflexivity. }
  cbn beta zeta. replace (if skb_len skb <? total then skb_len skb else total) with (skb_len skb)
    by (destruct (Z.ltb_spec (skb_len skb) total); lia).
  kstep. rewrite Hcopy. kstep. kstep. change (negb (0 =? 0)) with false. cbn iota.
  rewrite (proj2 (Z.ltb_ge total (skb_len skb))) by lia. done.
Qed.
End receive.

(** ** Sending *)

(** The frames given to devices, newest first. *)
Definition xmits (t : list kcall) : list sk_buff :=
  omap (fun c => match c with CXmit skb => Some skb | _ => None end) t.

(** A frame: destination, source, type, payload. *)
Definition frame (to from payload : list Z) : list Z := to ++ from ++ [131; 52] ++ payload.

(** A device that is up and sends: its number, its interface index, its address. *)
Record transmits (L : LinuxKernel) (dev ifindex : Z) (hw : list Z) : Prop := {
  tr_dev : forall t, dev_get_by_index t ifindex = Some dev;
  tr_alloc : forall t n, exists d p, sock_alloc_send_skb t n = inr (SkBuff [] 0 d p);
  tr_room : (14 <= reserved_space dev)%nat;
  tr_hw : length hw = 6%nat;
  tr_header : forall skb daddr len, length daddr = 6%nat -> (14 <= skb_off skb)%nat ->
    dev_hard_header skb dev ETH_P_AWDS daddr len =
      (14, SkBuff (splice (skb_off skb - 14) (daddr ++ hw ++ [131; 52]) (skb_buf skb)) (skb_off skb - 14)
             (skb_dev skb) (skb_protocol skb));
  tr_copy : forall t n, fst (memcpy_fromiovec t n) = 0;
  tr_up : forall t, dev_up t dev = true;
  tr_xmit : forall t skb, dev_queue_xmit t skb = 0;
}.

Lemma sendmsg_transmits (L : LinuxKernel) dev hw a buf size s :
  transmits L dev (sa_ifindex a) hw -> sa_family a = PF_AWDS -> length (sa_addr a) = 6%nat -> (size <= length buf)%nat ->
  exists skb s', awds_socket_sendmsg (H := serving 0 [] buf L) (Some a) size s = Ok (Z.of_nat size, s') /\
    xmits (trace s') = skb :: xmits (trace s) /\ skb_dev skb = dev /\
    skb_data skb = frame (sa_addr a) hw (take size buf).
Proof.
  intros Ht Hf Ha Hl. destruct (tr_alloc _ _ _ _ Ht (CDevGet (sa_ifindex a) :: trace s) (size + reserved_space dev)) as (d & p & Hsk).
  unfold awds_socket_sendmsg. rewrite Hf, Z.eqb_refl. cbn [negb].
  kstep. kstep. cbn [dev_get_by_index serving]. rewrite (tr_dev _ _ _ _ Ht).
  kstep. cbn [sock_alloc_send_skb serving reserved_space]. cbn [trace set_trace]. rewrite Hsk. kstep.
  set (skb0 := skb_reserve _ _).
  assert (skb_off skb0 = reserved_space dev) as Ho by done.
  cbn [dev_hard_header serving]. rewrite (tr_header _ _ _ _ Ht) by (done || rewrite Ho; apply Ht).
  change (14 <? 0) with false. cbn iota. kstep. cbn [memcpy_fromiovec serving].
  rewrite (tr_copy _ _ _ _ Ht), (proj2 (Nat.leb_le _ _) Hl). change (0 =? 0) with true. cbn [andb fst snd].
  change (0 <? 0) with false. cbn iota.
  set (skb1 := SkBuff _ _ dev ETH_P_AWDS).
  erewrite K_bind_ok.
  2:{ unfold awds_send. kstep. cbn [dev_up serving]. change (skb_dev skb1) with dev. rewrite (tr_up _ _ _ _ Ht).
      kstep. cbn [dev_queue_xmit serving]. rewrite (tr_xmit _ _ _ _ Ht). kstep. reflexivity. }
  cbn beta. kstep. change (negb ((if 0 <? 0 then net_xmit_errno (LinuxKernel := serving 0 [] buf L) 0 else 0) =? 0)) with false. cbn iota.
  unfold count. exists skb1.
  assert (skb_data skb1 = frame (sa_addr a) hw (take size buf)) as Hd.
  { unfold skb1, skb_data, skb_with_buf, frame. cbn [skb_buf skb_off].
    pose proof (tr_room _ _ _ _ Ht) as Hroom. pose proof (tr_hw _ _ _ _ Ht) as Hhw.
    change (skb_buf skb0) with (replicate (reserved_space dev) 0). rewrite Ho.
    unfold splice. rewrite length_app, length_app, Ha, Hhw. cbn [length].
    replace (reserved_space dev - 14 + (6 + (6 + 2)))%nat with (reserved_space dev) by lia.
    rewrite (drop_ge (replicate _ _)) by (by rewrite length_replicate).
    rewrite <- app_assoc, drop_app_length' by (rewrite length_take, length_replicate; lia).
    by rewrite app_nil_r, <- !app_assoc. }
  destruct (statistics s =? 1) eqn:Est; eexists; (split; [|split; [|split; [|exact Hd]]]).
  all: try (erewrite K_bind_ok; [|kstep; cbn; rewrite Est; reflexivity]; reflexivity).
  all: done.
Qed.

(** ** The two ends *)

Lemma toArray_all d l : length l = 6%nat -> AbstractID6.toArray d 0 l = be_enc 6 d.
Proof.
  intros Hl. rewrite AbstractID6.id6_toArray_spec by lia. unfold splice.
  rewrite drop_ge by (rewrite be_enc_length, Hl; done). cbn [take]. by rewrite app_nil_r.
Qed.

(** The driver hands a frame to the protocol: the data starts behind the header. *)
Definition arrive (dev : Z) (skb : sk_buff) : sk_buff := SkBuff (skb_data skb) 14 dev ETH_P_AWDS.

Lemma arrive_data dev skb to from payload :
  skb_data skb = frame to from payload -> length to = 6%nat -> length from = 6%nat ->
  skb_data (arrive dev skb) = payload.
Proof.
  intros E Ht Hf. unfold arrive, skb_data at 1. cbn [skb_off skb_buf]. rewrite E. unfold frame.
  rewrite !app_assoc. apply drop_app_length'. rewrite !length_app, Ht, Hf. done.
Qed.

Lemma write_transmits (L : LinuxKernel) dev hw buf size w sk :
  is_open w sk -> transmits L dev (sa_ifindex (addr (lin w))) hw -> sa_family (addr (lin w)) = PF_AWDS ->
  length (sa_addr (addr (lin w))) = 6%nat -> (size <= length buf)%nat ->
  exists skb w', write (LK := L) buf size w = Ok (Z.of_nat size, w') /\
    xmits (trace (kern w')) = skb :: xmits (trace (kern w)) /\ skb_dev skb = dev /\
    skb_data skb = frame (be_enc 6 (dest (lin w))) hw (take size buf).
Proof.
  intros [Hs Hf] Ht Hfam Ha Hl. unfold write. rewrite (proj2 (Nat.ltb_ge _ _) Hl).
  set (b := to_addr (dest (lin w)) (lin w)).
  destruct (sendmsg_transmits L dev hw (addr b) buf size (kern w)) as (skb & k' & Hsend & Hx & Hd & Hdata); try done.
  { change (sa_addr (addr b)) with (AbstractID6.toArray (dest (lin w)) 0 (sa_addr (addr (lin w)))).
    by rewrite toArray_all. }
  exists skb, (set_kern k' (set_lin b w)). split; [|split; [done|split; [done|]]].
  - erewrite M_bind_ok by reflexivity. cbn beta. erewrite M_bind_ok by reflexivity. cbn beta.
    erewrite M_bind_ok by reflexivity. cbn beta. fold b.
    change (files (set_lin b w) !! raw_socket (lin (set_lin b w))) with (files w !! raw_socket (lin w)). rewrite Hf.
    erewrite M_bind_ok.
    2:{ unfold on_kernel, zoom. change (kern (set_lin b w)) with (kern w).
        change (addr (lin (set_lin b w))) with (addr b). rewrite Hsend. reflexivity. }
    unfold libc. by rewrite (proj2 (Z.ltb_ge (Z.of_nat size) 0)) by lia.
  - rewrite Hdata. change (sa_addr (addr b)) with (AbstractID6.toArray (dest (lin w)) 0 (sa_addr (addr (lin w)))).
    by rewrite toArray_all.
Qed.

Section read.
Context `{LK : LinuxKernel}.

Lemma read_head sched fuel v R ib skb q k total f :
  is_open v (b_sock ib.2) -> registry (kern v) R -> awds_instance_mutex (kern v) = false -> b_held ib.2 = false ->
  list_find (fun b => b_sock b = b_sock ib.2) R = Some ib -> find_dev (skb_dev skb) (b_ifs ib.2) = Some f ->
  h_sock (kern v) !! b_sock ib.2 = Some k -> sk_err k = 0 -> sk_receive_queue k = skb :: q -> (0 < fuel)%nat ->
  skb_len skb <= total -> (forall t b n, skb_copy_datagram_iovec t b n = 0) ->
  exists v', read (LK := LK) sched fuel false total v = Ok ((skb_len skb, skb_data skb), v') /\
    h_sock (kern v') = <[b_sock ib.2 := with_queue q k]> (h_sock (kern v)).
Proof.
  intros [Hs Hf] Hr Hm Hh Hfind Hfd Hk He Hq Hfuel Hlen Hcopy.
  pose proof (recvmsg_head sched fuel (kern v) R ib skb q k total f Hr Hm Hh Hfind Hfd Hk He Hq Hfuel Hlen Hcopy) as Hrecv.
  unfold read. erewrite M_bind_ok by reflexivity. cbn beta.
  set (v1 := set_lin _ v). erewrite M_bind_ok by reflexivity. cbn beta. erewrite M_bind_ok by reflexivity. cbn beta.
  change (files v1 !! raw_socket (lin v1)) with (files v !! raw_socket (lin v)). rewrite Hf.
  erewrite M_bind_ok by (unfold on_kernel, zoom; change (kern v1) with (kern v); rewrite Hrecv; reflexivity).
  cbn beta. cbn [snd fst msg_name]. erewrite M_bind_ok by reflexivity. cbn beta.
  erewrite M_bind_ok by reflexivity. cbn beta.
  assert (0 <= skb_len skb) as Hpos by (unfold skb_len; lia).
  assert (take (Z.to_nat (skb_len skb)) (skb_data skb) = skb_data skb) as Hall
    by (apply take_ge; unfold skb_len, skb_data; rewrite length_drop; lia).
  unfold libc. rewrite (proj2 (Z.ltb_ge _ 0) Hpos). cbn [datagram trace kern set_kern set_lin set_trace].
  rewrite Hall. eexists. split; reflexivity.
Qed.
End read.


(** ** Example: the device 3 of a machine whose driver writes Ethernet headers *)

Definition eth_sim : LinuxKernel := {|
  kmalloc_ok _ := true; kmalloc_bytes _ n := Some (replicate n 0); sk_alloc_ok _ := true;
  dev_get_by_index _ i := if (1 <=? i) && (i <=? 8) then Some i else None; dev_getbyhwaddr _ _ := None;
  dev_up _ _ := true; dev_queue_xmit _ _ := 0; net_xmit_errno e := - e; netif_rx_ni _ _ := 0;
  eth_type_trans skb _ := (0x0800, skb); sock_queue_rcv_skb _ _ _ := 0; current_time_sec _ := 1000; print_mac m := m;
  access_ok _ _ _ := true; copy_from_user _ _ n := (0, replicate n 0); copy_to_user _ _ _ := 0;
  sock_alloc_send_skb _ _ := inr (SkBuff [] 0 1 0); reserved_space _ := 16%nat;
  dev_hard_header skb dev _ daddr _ :=
    (14, SkBuff (splice (skb_off skb - 14) (daddr ++ some_mac dev ++ [131; 52]) (skb_buf skb)) (skb_off skb - 14)
           (skb_dev skb) (skb_protocol skb));
  memcpy_fromiovec _ n := (0, replicate n 0); skb_copy_datagram_iovec _ _ _ := 0; signal_pending _ := false;
  sock_intr_errno _ := -4;
|}.

(** A flood of 24 bytes; the buffer is larger. *)
Definition ex_flood : list Z := [1] ++ some_mac 1 ++ [0; 7; 0; 1] ++ some_mac 1 ++ [1; 20; 5; 6; 7; 8; 9; 0; 0; 0].

