(* ===== verification/Keyfile.v ===== *)
(** * The key file

    [readKeyFromFile] of [crypto_helpers.cc]: 16 pairs of hexadecimal digits, or the
    key itself.  The local array [buf] is a list of 128 cells whose initial values are
    what the stack held; characters are unsigned bytes. *)

From S2P Require Import Prelude Bytes NodeId Ccm CryptoUnit Packet Topology Names.

Local Open Scope list_scope.

Definition buf_size : nat := 128.
Definition key_size : nat := 16.

(** The C string that starts at [pos]: [sscanf] looks for its end. *)
Definition string_at (buf : list Z) (pos : nat) : outcome (list Z) :=
  match list_find (fun c => c = 0) (drop pos buf) with
  | Some (n, _) => Ok (take n (drop pos buf))
  | None => Fail OutOfBounds
  end.

(** The blanks in front of a number: the rounds of the inner loop. *)
Fixpoint blanks (l : list Z) : nat :=
  match l with c :: l => if c =? 32 then S (blanks l) else O | [] => O end.

(** The loop over the 16 numbers, [n] of them to go: the bytes read, or [None] for
    [parse_error], after which the whole key is overwritten. *)
Fixpoint parse_loop (n : nat) (buf : list Z) (pos : nat) : outcome (option (list Z)) :=
  match n with
  | O => Ok (Some [])
  | S n =>
      s ← string_at buf pos;
      match scan_2X (drop (blanks s) s) with
      | None => Ok None
      | Some v =>
          r ← parse_loop n buf (pos + blanks s + 2);
          Ok ((fun k => u8 v :: k) <$> r)
      end
  end.

(** [r] is what [read] delivers, at most 128 bytes, or [None] for -1: the result of a
    failed [open] goes into [read] as well. *)
Definition readKeyFromFile (stack : list Z) (r : option (list Z)) : outcome (list Z) :=
  match r with
  | None => Fail OutOfBounds                                    (* [buf[-1]] *)
  | Some data =>
      let ret := length data in
      if (ret <? buf_size)%nat then
        let buf := <[ret := 0]> (splice 0 data stack) in
        k ← (if (32 <=? ret)%nat then parse_loop key_size buf 0 else Ok None);
        Ok (default (take key_size buf) k)
      else Fail OutOfBounds                                     (* [buf[128]] *)
  end.

(** The main function of [AesCcmCryptoUnit.cc]: the third argument is the file, whatever
    the second one says.  [file] is what [read] delivers for a name; the result and the
    unit that is given to the routing. *)
Definition aesccm_main (argv : list (list Z)) (stack : list Z) (file : list Z -> option (list Z)) (routing : bool)
    (key0 random : list Z) : outcome (Z * option AesCcmCryptoUnit) :=
  match argv with
  | _ :: _ :: name :: _ =>
      k ← readKeyFromFile stack (file name);
      Ok (if routing then (0, Some (setKey k (AesCcmCryptoUnit_new key0 random))) else (-1, None))
  | _ => Ok (-1, None)
  end.

(** ** Theorems *)

Lemma blanks_replicate n l : blanks l = 0%nat -> blanks (replicate n 32 ++ l) = n.
Proof. intros Hl. induction n as [|n IH]; cbn; [done|by rewrite IH]. Qed.

Lemma pair_no_blank x : is_byte x -> forall l, blanks (hex_pair x ++ l) = 0%nat.
Proof.
  intros Hx l. destruct (hex_plain (x / 16)) as [Hs _].
  { unfold is_byte in Hx. split; [apply Z.div_pos|apply Z.div_lt_upper_bound]; lia. }
  unfold hex_pair. cbn [app blanks]. destruct (Z.eqb_spec (byte_at AbstractID6.hexnum (Z.to_nat (x / 16))) 32) as [E|]; [|done].
  by rewrite E in Hs.
Qed.

Lemma pair_not_nul x : is_byte x -> Forall (fun c => c <> 0) (hex_pair x).
Proof.
  intros Hx. unfold is_byte in Hx.
  assert (0 <= x / 16 < 16) as H1 by (split; [apply Z.div_pos | apply Z.div_lt_upper_bound]; lia).
  assert (0 <= x mod 16 < 16) as H2 by (apply Z.mod_pos_bound; lia).
  apply hex_digit in H1, H2. unfold hex_pair.
  repeat (apply Forall_cons_2 || apply Forall_nil_2); intros E.
  - by rewrite E in H1.
  - by rewrite E in H2.
Qed.

(** A string starts with what is there before the first terminator. *)
Lemma string_at_app pre l rest pos :
  length pre = pos -> Forall (fun c => c <> 0) l -> 0 ∈ rest -> exists t, string_at (pre ++ l ++ rest) pos = Ok (l ++ t).
Proof.
  intros <- Hl Hr. unfold string_at. rewrite drop_app_length.
  destruct (list_find_elem_of (fun c => c = 0) rest 0) as [[n c] Hf]; [done..|].
  rewrite list_find_app_r by (apply list_find_None; done). rewrite Hf. cbn. exists (take n rest).
  f_equal. replace (n + length l)%nat with (length l + n)%nat by lia. by rewrite take_app_add.
Qed.

(** The text of a key: each byte as two digits with blanks in front. *)
Definition key_text (ns : list nat) (key : list Z) : list Z :=
  mjoin (zip_with (fun n b => replicate n 32 ++ hex_pair b) ns key).

Lemma parse_key_text ns key pre rest pos :
  length ns = length key -> bytes key -> length pre = pos -> 0 ∈ rest ->
  parse_loop (length key) (pre ++ key_text ns key ++ rest) pos = Ok (Some key).
Proof.
  revert ns pre pos. induction key as [|x key IH]; intros [|n ns] pre pos Hl Hb Hp Hr; try done.
  apply Forall_cons in Hb as [Hx Hb]. injection Hl as Hl.
  change (key_text (n :: ns) (x :: key)) with ((replicate n 32 ++ hex_pair x) ++ key_text ns key).
  cbn [length parse_loop]. rewrite <- app_assoc.
  destruct (string_at_app pre (replicate n 32 ++ hex_pair x) (key_text ns key ++ rest) pos) as [t Ht]; try done.
  { apply Forall_app. split; [by apply Forall_replicate|by apply pair_not_nul]. }
  { apply elem_of_app. by right. }
  rewrite Ht. cbn [mbind outcome_bind].
  rewrite <- app_assoc, blanks_replicate by (by apply pair_no_blank).
  rewrite drop_app_length' by (by rewrite length_replicate). rewrite scan_hex_pair by done.
  replace (pre ++ (replicate n 32 ++ hex_pair x) ++ key_text ns key ++ rest)
    with ((pre ++ replicate n 32 ++ hex_pair x) ++ key_text ns key ++ rest) by (by rewrite <- !app_assoc).
  rewrite IH; [|done..| |done]; [|rewrite !length_app, length_replicate; cbn; lia].
  cbn. by rewrite wrap_id by (unfold in_width; unfold is_byte in Hx; lia).
Qed.

Lemma terminated stack data :
  length stack = buf_size -> (length data < buf_size)%nat ->
  exists junk, <[length data := 0]> (splice 0 data stack) = data ++ 0 :: junk.
Proof.
  intros Hs Hd. unfold splice. rewrite take_0, app_nil_l, Nat.add_0_l.
  rewrite insert_app_r_alt by lia. rewrite Nat.sub_diag.
  destruct (drop (length data) stack) as [|c l] eqn:E; [|by exists l].
  apply (f_equal length) in E. rewrite length_drop in E. cbn in E. lia.
Qed.

Lemma read_hex stack ns key rest :
  length stack = buf_size -> length key = key_size -> length ns = key_size -> bytes key ->
  (length (key_text ns key ++ rest) < buf_size)%nat ->
  readKeyFromFile stack (Some (key_text ns key ++ rest)) = Ok key.
Proof.
  intros Hs Hk Hn Hb Hl. unfold readKeyFromFile. rewrite (proj2 (Nat.ltb_lt _ _) Hl).
  destruct (terminated stack (key_text ns key ++ rest) Hs Hl) as [junk ->].
  rewrite (proj2 (Nat.leb_le 32 _)).
  + pose proof (parse_key_text ns key [] (rest ++ 0 :: junk) 0) as Hp. rewrite app_nil_l, Hk in Hp.
    rewrite <- app_assoc, Hp; [done|lia|done|done|].
    apply elem_of_app. right. apply elem_of_cons. by left.
  + clear - Hk Hn. rewrite length_app. unfold key_text. do 17 (destruct key as [|? key]; try done). do 17 (destruct ns as [|? ns]; try done).
    cbn [zip_with mjoin list_join]. rewrite !length_app. cbn. lia.
Qed.

(** C28. The key file.  A text that gives the 16 bytes of a key as pairs of hexadecimal
    digits, with any number of blanks before each pair and anything behind the last one,
    is read as that key, and a file of 16 to 31 bytes as the key that its first 16 bytes
    are; what the stack held before plays no part.  A file that cannot be opened and a
    file of 128 bytes or more make the function write outside its buffer. *)
Theorem key_file (stack : list Z) :
  length stack = buf_size ->
  (forall ns key rest, length key = key_size -> length ns = key_size -> bytes key ->
     (length (key_text ns key ++ rest) < buf_size)%nat ->
     readKeyFromFile stack (Some (key_text ns key ++ rest)) = Ok key) /\
  (forall data, (key_size <= length data < 32)%nat -> readKeyFromFile stack (Some data) = Ok (take key_size data)) /\
  readKeyFromFile stack None = Fail OutOfBounds /\
  (forall data, length data = buf_size -> readKeyFromFile stack (Some data) = Fail OutOfBounds).
Proof.
  intros Hs. split; [|split; [|split; [done|]]].
  - intros. by apply read_hex.
  - intros data Hd. unfold readKeyFromFile. rewrite (proj2 (Nat.ltb_lt _ _)) by (unfold buf_size; lia).
    rewrite (proj2 (Nat.leb_gt 32 _)) by lia. cbn [mbind outcome_bind default].
    destruct (terminated stack data Hs) as [junk ->]; [unfold buf_size; lia|]. by rewrite take_app_le by lia.
  - intros data Hd. unfold readKeyFromFile. by rewrite (proj2 (Nat.ltb_ge _ _)) by lia.
Qed.

(** Two stations that read the same key text work with the same key, whatever else
    differs between them. *)
Lemma same_key_text ns key rest argv argv' stack stack' file file' random random' key0 key0' :
  length key = key_size -> length ns = key_size -> bytes key -> (length (key_text ns key ++ rest) < buf_size)%nat ->
  length stack = buf_size -> length stack' = buf_size ->
  (exists n, argv !! 2%nat = Some n /\ file n = Some (key_text ns key ++ rest)) ->
  (exists n, argv' !! 2%nat = Some n /\ file' n = Some (key_text ns key ++ rest)) ->
  exists u u', aesccm_main argv stack file true key0 random = Ok (0, Some u) /\
    aesccm_main argv' stack' file' true key0' random' = Ok (0, Some u') /\
    CryptoUnit.key u = key /\ CryptoUnit.key u' = key.
Proof.
  intros Hk Hn Hb Hl Hs Hs' (n & Ha & Hf) (n' & Ha' & Hf').
  assert (forall stk, length stk = buf_size -> readKeyFromFile stk (Some (key_text ns key ++ rest)) = Ok key) as Hr
    by (intros; by apply read_hex).
  destruct argv as [|? [|? [|? ?]]]; try done. injection Ha as ->.
  destruct argv' as [|? [|? [|? ?]]]; try done. injection Ha' as ->.
  do 2 eexists. unfold aesccm_main. rewrite Hf, Hf', !Hr by done.
  split; [reflexivity|]. split; [reflexivity|]. cbn. by rewrite take_ge by (rewrite Hk; unfold key_size; lia).
Qed.

(** A shorter file is taken for a key as well: its terminator and the stack complete it. *)
Lemma short_file_accepted : readKeyFromFile (replicate 128 77) (Some [1; 2; 3]) = Ok ([1; 2; 3; 0] ++ replicate 12 77).
Proof. reflexivity. Qed.

(** With a last pair that lacks its second digit the parser skips the terminator and
    goes on in what the stack held, or beyond the buffer. *)
Lemma skips_terminator :
  let data := replicate 18 32 ++ replicate 29 52 in
  readKeyFromFile (replicate 60 55 ++ replicate 68 0) (Some data) = Ok (replicate 14 68 ++ [4; 119]) /\
  readKeyFromFile (replicate 128 55) (Some data) = Fail OutOfBounds.
Proof. split; vm_compute; reflexivity. Qed.

Lemma key_file_witness :
  readKeyFromFile (replicate 128 77) (Some (key_text (replicate 16 1%nat) (seqZ 100 16) ++ [10])) = Ok (seqZ 100 16).
Proof.
  apply (key_file (replicate 128 77)); try reflexivity; [|vm_compute; lia].
  repeat (apply Forall_cons_2 || apply Forall_nil_2); unfold is_byte; lia.
Defined.
