(* ===== verification/Timers.v ===== *)
(** * Cancellable timers

    [CancelTimer.h]: timers on top of the event library that can be cancelled, and
    their manager, which is to delete those that are no longer active.  Timers live in
    a heap; the event library keeps the deadline of every blocker that waits. *)

From S2P Require Import Prelude.

Inductive State := Active | Canceled | Fired.
#[export] Instance State_eq_dec : EqDecision State.
Proof. solve_decision. Defined.

Record CancelTimer := mkTimer {
  next : option positive;
  state : State;
  callback : Z;
  data : Z;
  waits : option Z;          (* the time [blocker] waits for *)
}.
Definition set_state v t := mkTimer (next t) v (callback t) (data t) (waits t).
Definition set_waits v t := mkTimer (next t) (state t) (callback t) (data t) v.

(** [calls] are the callbacks made, newest first. *)
Record CancelTimerManager := mkManager {
  head : option positive;
  timers : gmap positive CancelTimer;
  fresh : positive;
  calls : list (positive * Z);
}.
Definition set_head v m := mkManager v (timers m) (fresh m) (calls m).
Definition set_timers v m := mkManager (head m) v (fresh m) (calls m).

Abbreviation T := (M CancelTimerManager).

Definition load (p : option positive) : T CancelTimer := fun m =>
  match p with
  | None => Fail NullDeref
  | Some l => match timers m !! l with Some t => Ok (t, m) | None => Fail UseAfterFree end
  end.
Definition update (l : positive) (f : CancelTimer -> CancelTimer) : T unit :=
  t ← load (Some l); modify (fun m => set_timers (<[l := f t]> (timers m)) m).

Definition CancelTimerManager_new : CancelTimerManager := mkManager None ∅ 1 [].

(** [prev] is never moved: it points to [head] in every round. *)
Fixpoint cleanUp (fuel : nat) : T unit :=
  current ← gets head;
  match current with
  | None => mret tt
  | Some c =>
      match fuel with
      | O => fail OutOfFuel
      | S fuel =>
          t ← load (Some c);
          (if bool_decide (state t = Active) then mret tt
           else modify (set_head (next t));; modify (fun m => set_timers (delete c (timers m)) m));;
          p ← gets head;
          h ← load p;
          modify (set_head (next h));;
          cleanUp fuel
      end
  end.

(** One round per timer in the list and one to see its end. *)
Definition startTimer (timeout cb dat : Z) : T positive :=
  l ← gets fresh;
  modify (fun m => mkManager (Some l) (<[l := mkTimer (head m) Active cb dat (Some timeout)]> (timers m))
                     (Pos.succ (fresh m)) (calls m));;
  n ← gets (fun m => size (timers m));
  cleanUp (S n);;
  mret l.

Definition cancel (l : positive) : T unit := update l (set_state Canceled).

(** What a module does with its timers; a callback is such a sequence. *)
Inductive op := Start (timeout cb dat : Z) | Cancel (l : positive).
Definition run_op (o : op) : T unit :=
  match o with Start t cb d => _l ← startTimer t cb d; mret tt | Cancel l => cancel l end.
Fixpoint run_ops (os : list op) : T unit :=
  match os with [] => mret tt | o :: os => run_op o;; run_ops os end.

Section events.
(** The callbacks of the modules. *)
Variable code : Z -> positive -> Z -> list op.

Definition timeout_func (l : positive) : T unit :=
  update l (set_waits None);;                       (* the blocker no longer waits *)
  t ← load (Some l);
  if bool_decide (state t = Active) then
    modify (fun m => mkManager (head m) (timers m) (fresh m) ((l, data t) :: calls m));;
    run_ops (code (callback t) l (data t));;
    update l (set_state Fired)
  else mret tt.

(** ** Theorems

    The events of a run: a module works with timers, or the time of one has come. *)
Inductive event := Work (o : op) | Timeout (l : positive).
Definition handle (e : event) : T unit := match e with Work o => run_op o | Timeout l => timeout_func l end.
Fixpoint run (es : list event) : T unit := match es with [] => mret tt | e :: es => handle e;; run es end.

(** The list is empty between calls and every timer ever created is in the heap. *)
Record tidy (m : CancelTimerManager) : Prop := {
  tidy_head : head m = None;
  tidy_all : forall l, is_Some (timers m !! l) <-> (l < fresh m)%positive;
}.

(** What a step leaves alone: timers stay, and one that is not active stays so. *)
Record later (m m' : CancelTimerManager) : Prop := {
  later_fresh : (fresh m <= fresh m')%positive;
  later_state : forall l t, timers m !! l = Some t -> exists t', timers m' !! l = Some t' /\
    (state t <> Active -> state t' <> Active);
}.

Lemma later_refl m : later m m.
Proof. split; [lia|]. intros l t Hl. by exists t. Qed.

Lemma later_trans a b c : later a b -> later b c -> later a c.
Proof.
  intros [Ha Hs] [Hb Ht]. split; [lia|]. intros l t Hl.
  destruct (Hs l t Hl) as (t1 & H1 & H2). destruct (Ht l t1 H1) as (t2 & H3 & H4). exists t2. auto.
Qed.

Lemma cleanUp_none n m : head m = None -> cleanUp n m = Ok (tt, m).
Proof. intros Hh. destruct n; cbn [cleanUp]; (erewrite M_bind_ok by reflexivity); cbn beta; by rewrite Hh. Qed.

(** An active timer at the head is dropped from the list, with all behind it kept. *)
Lemma cleanUp_active n m l t :
  head m = Some l -> timers m !! l = Some t -> state t = Active -> next t = None ->
  cleanUp (S n) m = Ok (tt, set_head None m).
Proof.
  intros Hh Hl Hs Hn. cbn [cleanUp]. erewrite M_bind_ok by reflexivity. cbn beta. rewrite Hh.
  assert (load (Some l) m = Ok (t, m)) as Hload by (unfold load; by rewrite Hl).
  erewrite M_bind_ok by exact Hload. cbn beta. rewrite bool_decide_eq_true_2 by done.
  erewrite M_bind_ok by reflexivity. cbn beta. erewrite M_bind_ok by reflexivity. cbn beta. rewrite Hh.
  erewrite M_bind_ok by exact Hload. cbn beta. rewrite Hn.
  erewrite M_bind_ok by reflexivity. cbn beta. by apply cleanUp_none.
Qed.

Lemma start_ok timeout cb dat m :
  tidy m -> exists m', startTimer timeout cb dat m = Ok (fresh m, m') /\
    m' = mkManager None (<[fresh m := mkTimer None Active cb dat (Some timeout)]> (timers m)) (Pos.succ (fresh m)) (calls m).
Proof.
  intros [Hh _]. eexists. split; [|reflexivity]. unfold startTimer.
  erewrite M_bind_ok by reflexivity. cbn beta. erewrite M_bind_ok by reflexivity. cbn beta.
  erewrite M_bind_ok by reflexivity. cbn beta. rewrite Hh.
  set (t := mkTimer None Active cb dat (Some timeout)). set (m1 := mkManager (Some (fresh m)) _ _ _).
  assert (timers m1 !! fresh m = Some t) as Hl by apply lookup_insert_eq.
  erewrite M_bind_ok by (exact (cleanUp_active _ m1 (fresh m) t eq_refl Hl eq_refl eq_refl)). done.
Qed.

Lemma update_later l f m t :
  tidy m -> timers m !! l = Some t -> (state t <> Active -> state (f t) <> Active) ->
  exists m', update l f m = Ok (tt, m') /\ m' = set_timers (<[l := f t]> (timers m)) m /\ tidy m' /\ later m m'.
Proof.
  intros [Hh Ha] Hl Hf. eexists. split; [|split; [reflexivity|split]].
  - unfold update, load, mbind, M_bind. by rewrite Hl.
  - split; [done|]. intros l'. cbn. rewrite <- Ha, lookup_insert_is_Some'. split; [|auto].
    intros [->|?]; [by eexists|done].
  - split; [cbn; lia|]. intros l' t' Hl'. cbn. destruct (decide (l' = l)) as [->|Hne].
    + rewrite lookup_insert_eq. exists (f t). rewrite Hl in Hl'. injection Hl' as <-. done.
    + rewrite lookup_insert_ne by done. by exists t'.
Qed.

(** An operation is legal if the timer it names exists. *)
Definition legal (o : op) (m : CancelTimerManager) : Prop :=
  match o with Start _ _ _ => True | Cancel l => (l < fresh m)%positive end.

Lemma op_ok o m : tidy m -> legal o m -> exists m', run_op o m = Ok (tt, m') /\ tidy m' /\ later m m' /\ calls m' = calls m.
Proof.
  intros Ht Hl. destruct o as [timeout cb dat|l]; cbn [run_op].
  - destruct (start_ok timeout cb dat m Ht) as (m' & E & ->). eexists. split; [unfold mbind, M_bind; by rewrite E|].
    destruct Ht as [Hh Ha]. split; [|split; [|done]].
    + split; [done|]. intros l. cbn. rewrite lookup_insert_is_Some', Ha. lia.
    + split; [cbn; lia|]. intros l t Hl'. cbn. rewrite lookup_insert_ne; [by exists t|].
      intros <-. apply (mk_is_Some _ _), Ha in Hl'. lia.
  - apply (tidy_all m Ht) in Hl as [t Hl].
    destruct (update_later l (set_state Canceled) m t Ht Hl) as (m' & E & -> & Ht' & Hla); [done|].
    eexists. split; [exact E|done].
Qed.

(** Callbacks only name timers that exist. *)
Hypothesis code_legal : forall cb l d o m, tidy m -> (l < fresh m)%positive -> o ∈ code cb l d -> legal o m.

Lemma ops_ok os m : tidy m -> (forall o m', tidy m' -> (fresh m <= fresh m')%positive -> o ∈ os -> legal o m') ->
  exists m', run_ops os m = Ok (tt, m') /\ tidy m' /\ later m m' /\ calls m' = calls m.
Proof.
  revert m. induction os as [|o os IH]; intros m Ht Hos; cbn [run_ops].
  - exists m. split; [done|]. split; [done|]. split; [apply later_refl|done].
  - destruct (op_ok o m Ht) as (m1 & E1 & Ht1 & Hl1 & Hc1); [apply Hos; [done|lia|apply elem_of_cons; by left]|].
    destruct (IH m1 Ht1) as (m2 & E2 & Ht2 & Hl2 & Hc2).
    { intros o' m' Ht' Hf Ho'. apply Hos; [done|destruct Hl1; lia|apply elem_of_cons; by right]. }
    exists m2. split; [unfold mbind, M_bind; by rewrite E1|]. split; [done|].
    split; [by eapply later_trans|congruence].
Qed.

(** The time of a timer: an active one calls back once and is then not active, one
    that is not active calls nothing. *)
Lemma timeout_ok l t m : tidy m -> timers m !! l = Some t ->
  exists m', timeout_func l m = Ok (tt, m') /\ tidy m' /\ later m m' /\
    calls m' = (if bool_decide (state t = Active) then [(l, data t)] else []) ++ calls m /\
    exists t', timers m' !! l = Some t' /\ state t' <> Active.
Proof.
  intros Ht Hl. unfold timeout_func.
  destruct (update_later l (set_waits None) m t Ht Hl) as (m1 & E1 & Hm1 & Ht1 & Hl1); [done|].
  erewrite M_bind_ok by exact E1. cbn beta.
  assert (timers m1 !! l = Some (set_waits None t)) as Hlm1 by (subst m1; cbn; apply lookup_insert_eq).
  erewrite M_bind_ok by (unfold load; rewrite Hlm1; reflexivity). cbn [state set_waits data callback].
  assert (calls m1 = calls m) as Hc by (by subst m1).
  case_bool_decide as Hs.
  - set (m2 := mkManager (head m1) (timers m1) (fresh m1) ((l, data t) :: calls m1)).
    assert (tidy m2) as Ht2 by (destruct Ht1; by split).
    assert (later m1 m2) as Hl2 by (split; [cbn; lia|]; intros l' t' Hl'; by exists t').
    assert ((l < fresh m2)%positive) as Hlf by (by apply (tidy_all m2 Ht2); exists (set_waits None t)).
    erewrite M_bind_ok by reflexivity. cbn beta. fold m2.
    destruct (ops_ok (code (callback t) l (data t)) m2 Ht2) as (m3 & E3 & Ht3 & Hl3 & Hc3).
    { intros o m' Ht' Hf Ho. eapply code_legal; [done|exact (Pos.lt_le_trans _ _ _ Hlf Hf)|exact Ho]. }
    erewrite M_bind_ok by exact E3. cbn beta.
    destruct (later_state _ _ Hl3 l (set_waits None t) Hlm1) as (t3 & Hlt3 & _).
    destruct (update_later l (set_state Fired) m3 t3 Ht3 Hlt3) as (m4 & E4 & Hm4 & Ht4 & Hl4); [done|].
    exists m4. split; [exact E4|]. split; [done|]. split; [|split].
    + repeat (eapply later_trans; [eassumption|]). apply later_refl.
    + subst m4. cbn. rewrite Hc3. cbn. by rewrite Hc.
    + eexists. subst m4. cbn. split; [apply lookup_insert_eq|done].
  - exists m1. split; [done|]. split; [done|]. split; [done|]. split; [done|]. eauto.
Qed.

Definition event_legal (e : event) (n : positive) : Prop :=
  match e with Work (Start _ _ _) => True | Work (Cancel l) | Timeout l => (l < n)%positive end.

(** Timers do not become active again. *)
Definition fired_once (m : CancelTimerManager) : Prop :=
  NoDup ((calls m).*1) /\ forall l, l ∈ (calls m).*1 -> exists t, timers m !! l = Some t /\ state t <> Active.

Lemma handle_ok e m : tidy m -> fired_once m -> event_legal e (fresh m) ->
  exists m', handle e m = Ok (tt, m') /\ tidy m' /\ fired_once m' /\ later m m' /\
    exists new, calls m' = new ++ calls m /\
      forall l t, timers m !! l = Some t -> state t <> Active -> l ∉ new.*1.
Proof.
  intros Ht [Hnd Hf] He. destruct e as [o|l]; cbn [handle].
  - destruct (op_ok o m Ht) as (m' & E & Ht' & Hl & Hc); [by destruct o|]. exists m'.
    split; [done|]. split; [done|]. split; [|split; [done|exists []; split; [done|intros; apply not_elem_of_nil]]].
    split; rewrite Hc; [done|]. intros l Hin. destruct (Hf l Hin) as (t & H1 & H2).
    destruct (later_state _ _ Hl l t H1) as (t' & H3 & H4). eauto.
  - apply (tidy_all m Ht) in He as [t Hl].
    destruct (timeout_ok l t m Ht Hl) as (m' & E & Ht' & Hla & Hc & t' & Hl' & Hs').
    exists m'. split; [done|]. split; [done|]. split; [|split; [done|]].
    + split.
      * rewrite Hc. case_bool_decide as Hs; [|done]. cbn. apply NoDup_cons. split; [|done].
        intros Hin. destruct (Hf l Hin) as (t0 & H1 & H2). rewrite Hl in H1. by injection H1 as <-.
      * intros l' Hin. rewrite Hc in Hin. rewrite fmap_app in Hin. apply elem_of_app in Hin as [Hin|Hin].
        -- case_bool_decide; [|by apply elem_of_nil in Hin]. apply list_elem_of_singleton in Hin as ->. eauto.
        -- destruct (Hf l' Hin) as (t0 & H1 & H2). destruct (later_state _ _ Hla l' t0 H1) as (t1 & H3 & H4). eauto.
    + eexists. split; [exact Hc|]. intros l' t0 H1 H2. case_bool_decide as Hs; [|apply not_elem_of_nil].
      intros E1%list_elem_of_singleton. cbn in E1. rewrite E1, Hl in H1. by injection H1 as <-.
Qed.

Fixpoint run_legal (es : list event) (m : CancelTimerManager) : Prop :=
  match es with
  | [] => True
  | e :: es => event_legal e (fresh m) /\ forall m', handle e m = Ok (tt, m') -> run_legal es m'
  end.

(** The same, decided by running the events. *)
Definition event_legalb (e : event) (n : positive) : bool :=
  match e with Work (Start _ _ _) => true | Work (Cancel l) | Timeout l => bool_decide (l < n)%positive end.
Fixpoint run_legalb (es : list event) (m : CancelTimerManager) : bool :=
  match es with
  | [] => true
  | e :: es => event_legalb e (fresh m) && match handle e m with Ok (_, m') => run_legalb es m' | Fail _ => true end
  end.

Lemma run_legalb_ok es m : run_legalb es m = true -> run_legal es m.
Proof.
  revert m. induction es as [|e es IH]; intros m; cbn [run_legalb run_legal]; [done|].
  intros [He Hr]%andb_true_iff. split.
  - destruct e as [[|]|]; cbn in *; try done; by apply bool_decide_eq_true in He.
  - intros m' E. rewrite E in Hr. by apply IH.
Qed.

Lemma run_ok es m : tidy m -> fired_once m -> run_legal es m ->
  exists m', run es m = Ok (tt, m') /\ tidy m' /\ fired_once m' /\ later m m' /\
    exists new, calls m' = new ++ calls m /\
      forall l t, timers m !! l = Some t -> state t <> Active -> l ∉ new.*1.
Proof.
  revert m. induction es as [|e es IH]; intros m Ht Hf Hl; cbn [run].
  - exists m. split; [done|]. split; [done|]. split; [done|]. split; [apply later_refl|].
    exists []. split; [done|]. intros. apply not_elem_of_nil.
  - destruct Hl as [He Hl]. destruct (handle_ok e m Ht Hf He) as (m1 & E1 & Ht1 & Hf1 & Hl1 & n1 & Hc1 & Hn1).
    destruct (IH m1 Ht1 Hf1 (Hl m1 E1)) as (m2 & E2 & Ht2 & Hf2 & Hl2 & n2 & Hc2 & Hn2).
    exists m2. split; [unfold mbind, M_bind; by rewrite E1|]. split; [done|]. split; [done|].
    split; [by eapply later_trans|]. exists (n2 ++ n1). split; [by rewrite Hc2, Hc1, app_assoc|].
    intros l t Ht0 Hs. rewrite fmap_app. intros [Hin|Hin]%elem_of_app; [|by eapply Hn1].
    destruct (later_state _ _ Hl1 l t Ht0) as (t' & H1 & H2). eapply Hn2; eauto.
Qed.

Lemma run_app es1 es2 m m1 : run es1 m = Ok (tt, m1) -> run (es1 ++ es2) m = run es2 m1.
Proof.
  revert m. induction es1 as [|e es1 IH]; intros m E; cbn in E |- *; [by injection E as ->|].
  unfold mbind, M_bind in E |- *. destruct (handle e m) as [[[] m0]|]; [|done]. by apply IH.
Qed.

Lemma run_legal_app es1 es2 m m1 : run es1 m = Ok (tt, m1) -> run_legal (es1 ++ es2) m -> run_legal es1 m /\ run_legal es2 m1.
Proof.
  revert m. induction es1 as [|e es1 IH]; intros m E Hl; cbn in E, Hl |- *; [by injection E as ->|].
  destruct Hl as [He Hl]. unfold mbind, M_bind in E. destruct (handle e m) as [[[] m0]|] eqn:Eh; [|done].
  destruct (IH m0 E (Hl m0 eq_refl)) as [H1 H2]. split; [|done]. split; [done|]. intros m' [= <-]. done.
Qed.

Lemma new_ok : tidy CancelTimerManager_new /\ fired_once CancelTimerManager_new.
Proof.
  split; [split; [done|]|split; [by apply NoDup_nil|]].
  - intros l. cbn. rewrite lookup_empty. split; [by intros []|]. lia.
  - intros l Hl. by apply elem_of_nil in Hl.
Qed.

(** Timers of the manager call back at most once, and not after they were cancelled,
    in whatever order modules start and cancel timers and their times come, and whatever
    the callbacks do with timers themselves: no such run fails, no timer has called back
    twice, and none calls back after [cancel].  But no timer is ever deleted: at the end
    every timer that was started is still allocated, although the list of the manager is
    empty. *)
Theorem timers_fire_once es1 l es2 m1 :
  run es1 CancelTimerManager_new = Ok (tt, m1) ->
  run_legal (es1 ++ Work (Cancel l) :: es2) CancelTimerManager_new ->
  exists m new, run (es1 ++ Work (Cancel l) :: es2) CancelTimerManager_new = Ok (tt, m) /\
    calls m = new ++ calls m1 /\ l ∉ new.*1 /\ NoDup ((calls m).*1) /\
    head m = None /\ forall k, (k < fresh m)%positive -> is_Some (timers m !! k).
Proof.
  intros E1 Hl. destruct new_ok as [Ht Hf].
  destruct (run_legal_app _ _ _ _ E1 Hl) as [Hl1 Hl2].
  destruct (run_ok es1 _ Ht Hf Hl1) as (m1' & E1' & Ht1 & Hf1 & _). rewrite E1 in E1'. injection E1' as <-.
  destruct Hl2 as [Hc Hl2]. apply (tidy_all m1 Ht1) in Hc as Hsome. destruct Hsome as [t Htl].
  destruct (update_later l (set_state Canceled) m1 t Ht1 Htl) as (m2 & E2 & Hm2 & _); [done|].
  destruct (handle_ok (Work (Cancel l)) m1 Ht1 Hf1 Hc) as (m2' & E2' & Ht2 & Hf2 & _ & _).
  assert (m2' = m2) as -> by (cbn [handle run_op] in E2'; unfold cancel in E2'; rewrite E2 in E2'; by injection E2').
  destruct (run_ok es2 m2 Ht2 Hf2 (Hl2 m2 E2')) as (m & E & Htm & Hfm & _ & new & Hcalls & Hnew).
  exists m, new. split; [|split; [|split; [|split; [apply Hfm|split; [apply Htm|]]]]].
  - rewrite (run_app _ _ _ _ E1). cbn [run]. by erewrite M_bind_ok by exact E2'.
  - rewrite Hcalls, Hm2. done.
  - eapply Hnew; [rewrite Hm2; cbn; apply lookup_insert_eq|done].
  - intros k Hk. by apply (tidy_all m Htm).
Qed.
End events.

(** ** Example: a callback that starts another timer and cancels the first *)
Definition ex_code (cb : Z) (l : positive) (d : Z) : list op := if cb =? 1 then [Start 50 2 d; Cancel l] else [].
Definition ex_events : list event := [Work (Start 10 1 7); Work (Start 20 2 8); Timeout 1; Timeout 1].
Definition ex_after : CancelTimerManager :=
  match run ex_code ex_events CancelTimerManager_new with Ok (_, m) => m | Fail _ => CancelTimerManager_new end.

Lemma timers_fire_once_witness :
  calls ex_after = [(1%positive, 7)] /\
  exists m new, run ex_code (ex_events ++ [Work (Cancel 2); Timeout 2; Timeout 3]) CancelTimerManager_new = Ok (tt, m) /\
    calls m = new ++ calls ex_after /\ 2%positive ∉ new.*1 /\ NoDup ((calls m).*1) /\ head m = None /\
    forall k, (k < fresh m)%positive -> is_Some (timers m !! k).
Proof.
  split; [by vm_compute|]. refine (timers_fire_once ex_code _ ex_events 2 [Timeout 2; Timeout 3] ex_after _ _).
  - intros cb l d o m Ht Hl Ho. unfold ex_code in Ho. destruct (cb =? 1); [|by apply elem_of_nil in Ho].
    apply elem_of_cons in Ho as [->|Ho]; [done|]. by apply list_elem_of_singleton in Ho as ->.
  - vm_compute. reflexivity.
  - apply run_legalb_ok. vm_compute. reflexivity.
Defined.
