(* ===== verification/Startup.v ===== *)
(** * The start of the daemon

    [awds.cc] runs the main functions of the modules one after the other with the
    same arguments; they find each other through the repository of objects, and the
    daemon runs if their results add up to 0.  Here are [main] and the main functions
    of [shell.cc], [rawbasic.cc] (with its socket), [AwdsRouting.cc], [TapInterface.cc]
    and [SrcFilter.cc]; that of [linuxbasic.cc] is [Linux.linuxbasic_main].  [argv]
    lists the arguments; behind the last one is the null pointer. *)

From Stdlib Require Import Ascii String.
From S2P Require Import Prelude Bytes NodeId FloodHist Ccm CryptoUnit Names Filter Topology SendQueue Neighbors Metrics Packet KState KSocket Routing Station Tap Linux.

Local Open Scope list_scope.

(** ** The raw transport *)

Record RawBasic := mkRaw {
  raw_socket : Z;
  raw_addr : Z;                  (* [addr.sll_ifindex] *)
  raw_devicename : list Z;
  raw_MyId : NodeId;
  aggressivePadding : bool;
}.

(** The answers of the operating system: descriptors are negative and results not 0
    where a call fails. *)
Class System := {
  raw_fd : Z;                              (* [socket(PF_PACKET, ..)] *)
  raw_bind : Z -> Z;                       (* [bind] to an interface *)
  tun_fd : Z; tun_fd2 : Z;                 (* [open] of the two tun devices *)
  tun_ioctl : list Z -> Z;                 (* [TUNSETIFF] for a name *)
  linux_fd : Z; linux_req : Z;             (* for [linuxbasic.cc] *)
  start_time : Z;
  uninit_raw : RawBasic;                   (* what [new RawBasic] finds in memory *)
  uninit_history : list Entry;
}.

Section start.
Context `{Gea, Metric, LinkMeter, StdSort, AES, Basic} `{!LinuxKernel, !NetDevices, !System}.

(** The result and the object; the descriptor stays open if the interface has no index. *)
Definition raw_createSocket (b : RawBasic) : bool * RawBasic :=
  let name := take IFNAMSIZ (raw_devicename b) in
  let b := mkRaw raw_fd (raw_addr b) (raw_devicename b) (raw_MyId b) (aggressivePadding b) in
  if raw_fd <? 0 then (false, b) else
  match dev_ifindex name with
  | None => (false, b)
  | Some i =>
      let b := mkRaw raw_fd i (raw_devicename b) (raw_MyId b) (aggressivePadding b) in
      (negb (raw_bind i =? -1), b)
  end.

(** [ioctl] on no socket leaves the request as it was. *)
Definition raw_getHwAddress (b : RawBasic) : RawBasic :=
  let hw := if raw_socket b <? 0 then None else dev_hwaddr (take IFNAMSIZ (raw_devicename b)) in
  mkRaw (raw_socket b) (raw_addr b) (raw_devicename b) (AbstractID6.fromArray 0 (default uninit_hwaddr hw)) (aggressivePadding b).

Definition RawBasic_new (dev : list Z) : outcome RawBasic :=
  if (IFNAMSIZ <? length dev)%nat then Fail OutOfBounds else
  let b := mkRaw (raw_socket uninit_raw) (raw_addr uninit_raw) dev (raw_MyId uninit_raw) (aggressivePadding uninit_raw) in
  let '(created, b) := raw_createSocket b in
  let b := if created then b else mkRaw (-1) (raw_addr b) (raw_devicename b) (raw_MyId b) (aggressivePadding b) in
  let b := raw_getHwAddress b in
  Ok (mkRaw (raw_socket b) (raw_addr b) (raw_devicename b) (raw_MyId b) false).

(** The options; [None] for an early exit. *)
Fixpoint raw_options (argv : list (list Z)) (netif : option (list Z)) (padding : bool) : option (option (list Z) * bool) :=
  match argv with
  | [] => Some (netif, padding)
  | a :: rest =>
      if bool_decide (a = str "--raw-device") then
        match rest with [] => Some (None, padding) | d :: rest => raw_options rest (Some d) padding end
      else if bool_decide (a = str "--help") then None
      else raw_options rest netif (padding || bool_decide (a = str "--padding"))
  end.

(** ** The daemon *)

(** The object ["basic"] of the repository. *)
Inductive basic := BRaw (b : RawBasic) | BLinux.
Definition over_module (b : basic) : bool := match b with BRaw _ => false | BLinux => true end.

Record daemon := mkDaemon {
  shell_obj : bool;
  commands : list (list Z);                          (* newest first *)
  basic_obj : option basic;
  awdsRouting : option (AwdsRouting TapInterface);
  verbose : bool;                                    (* all three flags *)
  firewall : option SrcFilter;
  tap_obj : bool;
  linux_world : world;
}.
Definition set_shell v d := mkDaemon v (commands d) (basic_obj d) (awdsRouting d) (verbose d) (firewall d) (tap_obj d) (linux_world d).
Definition set_basic v d := mkDaemon (shell_obj d) (commands d) v (awdsRouting d) (verbose d) (firewall d) (tap_obj d) (linux_world d).
Definition set_routing v d := mkDaemon (shell_obj d) (commands d) (basic_obj d) v (verbose d) (firewall d) (tap_obj d) (linux_world d).
Definition set_verbose v d := mkDaemon (shell_obj d) (commands d) (basic_obj d) (awdsRouting d) v (firewall d) (tap_obj d) (linux_world d).
Definition set_firewall v d := mkDaemon (shell_obj d) (commands d) (basic_obj d) (awdsRouting d) (verbose d) v (tap_obj d) (linux_world d).
Definition set_tap v d := mkDaemon (shell_obj d) (commands d) (basic_obj d) (awdsRouting d) (verbose d) (firewall d) v (linux_world d).
Definition set_linux v d := mkDaemon (shell_obj d) (commands d) (basic_obj d) (awdsRouting d) (verbose d) (firewall d) (tap_obj d) v.

Definition own_id (d : daemon) (b : basic) : NodeId :=
  match b with BRaw r => raw_MyId r | BLinux => Linux.MyId (lin (linux_world d)) end.

Abbreviation D := (M daemon).
Definition help_asked (argv : list (list Z)) : bool := bool_decide (str "--help" ∈ argv).

(** Commands are only registered when there is a shell. *)
Definition add_commands (names : list (list Z)) : D unit :=
  modify (fun d => if shell_obj d then mkDaemon (shell_obj d) (rev names ++ commands d) (basic_obj d) (awdsRouting d)
                                         (verbose d) (firewall d) (tap_obj d) (linux_world d) else d).

Definition shell_main (argv : list (list Z)) : D Z :=
  if help_asked argv then mret (-1) else
  modify (set_shell true);;
  add_commands [str "exit"];;
  mret 0.

Definition rawbasic_main (argv : list (list Z)) : D Z :=
  match raw_options (tail argv) None false with
  | Some (Some netif, padding) =>
      b ← lift (RawBasic_new netif);
      if raw_socket b =? -1 then mret (-1) else
      modify (set_basic (Some (BRaw (mkRaw (raw_socket b) (raw_addr b) (raw_devicename b) (raw_MyId b) padding))));;
      mret 0
  | _ => mret (-1)
  end.

(** [--verbose] and [--name]: an argument that is a name is looked at as an option too.
    The flags and the last name, [None] if there was none. *)
Fixpoint routing_options (argv : list (list Z)) (v : bool) (name : option (list Z)) : outcome (bool * option (list Z)) :=
  match argv with
  | [] => Ok (v, name)
  | w :: rest =>
      if bool_decide (w = str "--verbose") then routing_options rest true name
      else if bool_decide (w = str "--name") then
        match rest with [] => Fail NullDeref | n :: _ => routing_options rest v (Some (take 32 n)) end
      else routing_options rest v name
  end.

Definition awdsrouting_main (argv : list (list Z)) : D Z :=
  if help_asked argv then mret (-1) else
  base ← gets basic_obj;
  match base with
  | None => mret (-1)
  | Some base =>
      add_commands [str "topo"];;          (* by the constructor of the topology *)
      o ← lift (routing_options argv false None);
      d ← gets (fun d => d);
      modify (set_routing (Some (AwdsRouting_new (own_id d base) start_time (default [] (snd o)) uninit_history false false
                                   (over_module base) (mkTap ∅ None []))));;
      modify (set_verbose (fst o));;
      match snd o with
      | None => mret (-1)
      | Some _ => add_commands [str "topoperiod"; str "beaconperiod"; str "verbose"];; mret 0
      end
  end.

(** [createDevice]: the second device is tried if the first cannot be opened. *)
Definition createDevice (dev : list Z) : bool :=
  if (tun_fd <? 0) && (tun_fd2 <? 0) then false else negb (tun_ioctl (take IFNAMSIZ dev) <? 0).

(** [setIfaceMTU] tests the descriptor of the device where it means that of its socket. *)
Definition setIfaceMTU (fd err : Z) : bool := if fd <? 0 then false else err =? 0.

(** The name of the device; [None] is the null pointer behind the arguments. *)
Fixpoint tap_options (argv : list (list Z)) (name : option (list Z)) : option (list Z) :=
  match argv with
  | [] => name
  | a :: rest =>
      if bool_decide (a = str "--tapiface-name") then
        match rest with [] => None | n :: rest => tap_options rest (Some n) end
      else tap_options rest name
  end.

Definition tapiface_main (argv : list (list Z)) : D Z :=
  if help_asked argv then mret (-1) else
  routing ← gets awdsRouting;
  match routing with
  | None => mret (-1)
  | Some r =>
      dev ← lift (of_option NullDeref (tap_options (tail argv) (Some (str "awds%d"))));
      ok ← (fun d => match tap_init (createDevice dev) start_time r with
                     | Ok (b, r) => Ok (b, set_routing (Some r) d) | Fail f => Fail f end);
      if negb ok then mret 1 else
      modify (set_tap true);; mret 0
  end.

(** The firewall is plugged in before its rules are read; their result is not looked at. *)
Definition src_filter_main (argv : list (list Z)) : D Z :=
  if help_asked argv then mret (-1) else
  routing ← gets awdsRouting;
  match routing with
  | None => mret 1
  | Some r =>
      f ← (if (1 <? length argv)%nat
           then lift (rf ← addRules argv (adjList (topology r)) SrcFilter_new; Ok (snd rf)) else mret SrcFilter_new);
      modify (set_firewall (Some f));;
      add_commands [str "srcfilter"];;
      mret 0
  end.

(** The module of [linuxbasic.cc] in the daemon. *)
Definition linuxbasic_gea_main (argv : list (list Z)) : D Z :=
  r ← zoom linux_world set_linux (linuxbasic_main argv linux_fd linux_req);
  (if r =? 0 then modify (set_basic (Some BLinux));; add_commands [str "moduleconfig"] else mret tt);;
  mret r.

Inductive module := Mshell | Mrawbasic | Mlinuxbasic | Mawdsrouting | Mtapiface | Msrc_filter.
Definition mon_inits : list module := [Mshell; Mrawbasic; Mlinuxbasic; Mawdsrouting; Mtapiface; Msrc_filter].

(** [use_module] selects between the transports; [None] for a module that is left out. *)
Definition gea_main (use_module : bool) (m : module) (argv : list (list Z)) : D Z :=
  match m with
  | Mshell => shell_main argv
  | Mrawbasic => if use_module then mret 0 else rawbasic_main argv
  | Mlinuxbasic => if use_module then linuxbasic_gea_main argv else mret 0
  | Mawdsrouting => awdsrouting_main argv
  | Mtapiface => tapiface_main argv
  | Msrc_filter => src_filter_main argv
  end.

Fixpoint init_all (use_module : bool) (ms : list module) (argv : list (list Z)) (res : Z) : D Z :=
  match ms with
  | [] => mret res
  | m :: ms => r ← gea_main use_module m argv; init_all use_module ms argv (s32 (res + r))
  end.

(** The result, and whether the event loop is entered. *)
Definition main (argv : list (list Z)) : D (Z * bool) :=
  let module := bool_decide (str "--use-module" ∈ argv) in
  res ← init_all module mon_inits argv 0;
  mret (res, res =? 0).

(** ** The command [verbose] *)

Definition verbose_cmd_usage : list Z := str "verbose [ on | off ]" ++ [10] ++ str "  set or unset verbose debug ouput" ++ [10].

Definition verbose_command_fn (argv : list (list Z)) : D (Z * list Z) :=
  match argv with
  | [_] => v ← gets verbose; mret (0, str "verbose: " ++ str (if (v : bool) then "on" else "off") ++ [10])
  | [_; a] =>
      if bool_decide (a = str "on") then modify (set_verbose true);; mret (0, [])
      else if bool_decide (a = str "off") then modify (set_verbose false);; mret (0, [])
      else mret (-1, verbose_cmd_usage)
  | _ => mret (-1, verbose_cmd_usage)
  end.
End start.
