(* ===== verification/StartupThms.v ===== *)
(** * The start of the daemon: theorems

    When the daemon enters its event loop, and what the command [verbose] does. *)

From Stdlib Require Import Ascii String.
From S2P Require Import Prelude Bytes NodeId FloodHist Ccm CryptoUnit Names Filter Topology SendQueue Neighbors Metrics Packet KState KSocket KBindThms Routing RoutesThms CcmThms SendQueueThms Station RoutingThms DeliveryThms Tap Linux LinuxThms Startup.

Local Open Scope list_scope.

Section start.
Context `{Gea, Metric, LinkMeter, StdSort, AES, Basic} `{!LinuxKernel, !NetDevices, !System}.

(** The state before [main]. *)
Definition nothing (w : world) : daemon := mkDaemon false [] None None false None false w.

(** The operating system gives a socket for the interface. *)
Definition raw_opens (netif : list Z) : bool :=
  negb (raw_fd <? 0) &&
  match dev_ifindex (take IFNAMSIZ netif) with Some i => negb (raw_bind i =? -1) | None => false end.

Lemma RawBasic_new_ok netif : (length netif <= IFNAMSIZ)%nat ->
  exists b, RawBasic_new netif = Ok b /\ (raw_socket b =? -1) = negb (raw_opens netif).
Proof.
  intros Hl. unfold RawBasic_new. rewrite (proj2 (Nat.ltb_ge _ _)) by done.
  unfold raw_createSocket, raw_opens. cbn [raw_devicename].
  destruct (Z.ltb_spec raw_fd 0); cbn [negb andb]; [by eexists|].
  destruct (dev_ifindex (take IFNAMSIZ netif)) as [i|]; [|by eexists].
  destruct (raw_bind i =? -1); cbn [negb]; [by eexists|].
  eexists. split; [reflexivity|]. cbn. apply Z.eqb_neq. lia.
Qed.

Lemma tap_init_ok created t (r : AwdsRouting TapInterface) : exists r', tap_init created t r = Ok (created, r').
Proof. destruct created; by eexists. Qed.

(** Each main function, by its result and the objects it leaves. *)
Lemma rawbasic_main_ok argv netif padding d :
  raw_options (tail argv) None false = Some (Some netif, padding) -> (length netif <= IFNAMSIZ)%nat ->
  rawbasic_main argv d =
    Ok (if raw_opens netif then 0 else -1,
        if raw_opens netif then match RawBasic_new netif with
          | Ok b => set_basic (Some (BRaw (mkRaw (raw_socket b) (raw_addr b) (raw_devicename b) (raw_MyId b) padding))) d
          | Fail _ => d end else d).
Proof.
  intros Ho Hl. unfold rawbasic_main. rewrite Ho.
  destruct (RawBasic_new_ok netif Hl) as (b & E & Hb). rewrite E. erewrite M_bind_ok by reflexivity. cbn beta.
  rewrite Hb. by destruct (raw_opens netif).
Qed.

Definition with_commands (cs : list (list Z)) (d : daemon) : daemon :=
  mkDaemon (shell_obj d) cs (basic_obj d) (awdsRouting d) (verbose d) (firewall d) (tap_obj d) (linux_world d).

Lemma add_commands_ok names d : exists cs, add_commands names d = Ok (tt, with_commands cs d).
Proof.
  destruct d as [sh cs bo ar vb fw tp lw]. destruct sh; [exists (rev names ++ cs)|exists cs]; reflexivity.
Qed.

Lemma awdsrouting_main_ok argv v name d :
  help_asked argv = false -> routing_options argv false None = Ok (v, name) ->
  exists r, awdsrouting_main argv d =
    Ok (if basic_obj d then (if name then 0 else -1) else -1, if basic_obj d then r else d) /\
    awdsRouting r <> None /\ tap_obj r = tap_obj d /\ basic_obj r = basic_obj d.
Proof.
  intros Hh Ho. unfold awdsrouting_main. rewrite Hh. erewrite M_bind_ok by reflexivity. cbn beta.
  destruct (basic_obj d) as [b|] eqn:Eb.
  - destruct (add_commands_ok [str "topo"] d) as [cs E]. erewrite M_bind_ok by exact E. cbn beta. clear E.
    rewrite Ho. erewrite M_bind_ok by reflexivity. cbn beta.
    erewrite M_bind_ok by reflexivity. cbn beta. erewrite M_bind_ok by reflexivity. cbn beta.
    erewrite M_bind_ok by reflexivity. cbn beta. cbn [snd fst].
    destruct name as [n|]; [|by eexists].
    set (d' := set_verbose v _).
    destruct (add_commands_ok [str "topoperiod"; str "beaconperiod"; str "verbose"] d') as [cs' E].
    exists (with_commands cs' d'). erewrite M_bind_ok by exact E. cbn beta. clear E. by repeat split.
  - exists (set_routing (Some (AwdsRouting_new 0 0 [] [] false false false (mkTap ∅ None []))) d). by repeat split.
Qed.

Lemma tapiface_main_ok argv dev d :
  help_asked argv = false -> tap_options (tail argv) (Some (str "awds%d")) = Some dev ->
  exists r, tapiface_main argv d =
    Ok (if awdsRouting d then (if createDevice dev then 0 else 1) else -1, r) /\
    (awdsRouting r = None <-> awdsRouting d = None) /\
    (awdsRouting d <> None -> tap_obj d = false -> tap_obj r = createDevice dev).
Proof.
  intros Hh Ho. unfold tapiface_main. rewrite Hh. erewrite M_bind_ok by reflexivity. cbn beta.
  destruct (awdsRouting d) as [x|] eqn:Er; [|exists d; by rewrite Er].
  rewrite Ho. erewrite M_bind_ok by reflexivity. cbn beta.
  destruct (tap_init_ok (createDevice dev) start_time x) as (x' & E).
  erewrite M_bind_ok by (rewrite E; reflexivity). cbn beta. destruct (createDevice dev); cbn [negb];
    [erewrite M_bind_ok by reflexivity; cbn beta|]; eexists; (split; [reflexivity|]); cbn; by repeat split.
Qed.

Lemma src_filter_main_ok argv d :
  help_asked argv = false -> (forall a, exists rf, addRules argv a SrcFilter_new = Ok rf) ->
  exists r, src_filter_main argv d = Ok (if awdsRouting d then 0 else 1, r) /\ tap_obj r = tap_obj d.
Proof.
  intros Hh Hr. unfold src_filter_main. rewrite Hh. erewrite M_bind_ok by reflexivity. cbn beta.
  destruct (awdsRouting d) as [x|]; [|by eexists].
  assert (exists f, (if (1 <? length argv)%nat then lift (rf ← addRules argv (adjList (topology x)) SrcFilter_new; Ok (snd rf))
                     else mret SrcFilter_new) d = Ok (f, d)) as [f Hf].
  { destruct (_ <? _)%nat; [|by eexists]. destruct (Hr (adjList (topology x))) as [rf E]. rewrite E. by eexists. }
  erewrite M_bind_ok by exact Hf. cbn beta. eexists. split; [reflexivity|]. cbn. by destruct (shell_obj d).
Qed.

(** C27. When the daemon runs.  On a command line without [--help] and [--use-module]
    whose options are complete, [main] ends normally, and the event loop is entered if
    and only if the raw socket was opened and either both a name was given and the tap
    device was created or neither: the results of the modules are added up, and the -1
    of a missing name cancels the 1 of a missing device. *)
Theorem main_runs argv netif padding v name dev w :
  str "--help" ∉ argv -> str "--use-module" ∉ argv ->
  raw_options (tail argv) None false = Some (Some netif, padding) -> (length netif <= IFNAMSIZ)%nat ->
  routing_options argv false None = Ok (v, name) ->
  tap_options (tail argv) (Some (str "awds%d")) = Some dev ->
  (forall a, exists rf, addRules argv a SrcFilter_new = Ok rf) ->
  exists res runs d, main argv (nothing w) = Ok ((res, runs), d) /\
    runs = raw_opens netif && Bool.eqb (bool_decide (is_Some name)) (createDevice dev) /\
    (runs = true -> tap_obj d = bool_decide (is_Some name)).
Proof.
  intros Hh Hm Hraw Hlen Hopt Htap Hrules.
  assert (help_asked argv = false) as Hhelp by (by apply bool_decide_eq_false_2).
  unfold main. rewrite (bool_decide_eq_false_2 _ Hm). unfold mon_inits. cbn [init_all gea_main].
  set (d1 := mkDaemon true [str "exit"] None None false None false w).
  assert (shell_main argv (nothing w) = Ok (0, d1)) as E1 by (unfold shell_main; rewrite Hhelp; done).
  pose proof (rawbasic_main_ok argv netif padding d1 Hraw Hlen) as E2.
  set (d2 := if raw_opens netif then _ else d1) in E2.
  destruct (awdsrouting_main_ok argv v name d2 Hhelp Hopt) as (r3 & E3 & Hr3 & Ht3 & _).
  set (d3 := if basic_obj d2 then r3 else d2) in *.
  destruct (tapiface_main_ok argv dev d3 Hhelp Htap) as (d4 & E4 & Hr4 & Ht4).
  destruct (src_filter_main_ok argv d4 Hhelp Hrules) as (d5 & E5 & Ht5).
  assert (is_Some (basic_obj d2) <-> raw_opens netif = true) as Hb.
  { subst d2. destruct (RawBasic_new_ok netif Hlen) as (b & Eb & _). rewrite Eb.
    destruct (raw_opens netif); cbn; split; try done; first [by eexists|by intros []]. }
  assert (tap_obj d2 = false) as Ht2.
  { subst d2. destruct (raw_opens netif); [|done]. by destruct (RawBasic_new netif). }
  assert (awdsRouting d2 = None) as Hr2.
  { subst d2. destruct (raw_opens netif); [|done]. by destruct (RawBasic_new netif). }
  do 2 eexists. exists d5.
  erewrite M_bind_ok.
  2:{ erewrite M_bind_ok by exact E1. cbn beta. erewrite M_bind_ok by exact E2. cbn beta.
      erewrite M_bind_ok by reflexivity. cbn beta. erewrite M_bind_ok by exact E3. cbn beta.
      erewrite M_bind_ok by exact E4. cbn beta. erewrite M_bind_ok by exact E5. cbn beta. reflexivity. }
  cbn beta. split; [reflexivity|].
  destruct (raw_opens netif) eqn:Eo.
  - destruct (proj2 Hb eq_refl) as [b Eb]. subst d3. rewrite Eb in *.
    destruct (awdsRouting r3) as [x3|] eqn:Ex3; [|done].
    destruct (awdsRouting d4) as [x4|] eqn:Ex4; [|by destruct Hr4 as [Hr4 _]; specialize (Hr4 eq_refl)].
    destruct name, (createDevice dev) eqn:Ec; (split; [reflexivity|]); intros Hrun; try (by vm_compute in Hrun);
      rewrite Ht5, Ht4 by (done || by rewrite Ht3); done.
  - assert (basic_obj d2 = None) as Eb.
    { destruct (basic_obj d2); [|done]. destruct Hb as [Hb _]. by specialize (Hb (mk_is_Some _ _ eq_refl)). }
    subst d3. rewrite Eb in *. rewrite Hr2 in *.
    assert (awdsRouting d4 = None) as -> by (by apply Hr4). split; [reflexivity|]. intros Hrun. by vm_compute in Hrun.
Qed.

(** [verbose on] and [verbose off] set what [verbose] prints. *)
Lemma verbose_set_get (b : bool) d :
  verbose_command_fn [str "verbose"; str (if b then "on" else "off")] d = Ok ((0, []), set_verbose b d) /\
  verbose_command_fn [str "verbose"] (set_verbose b d) =
    Ok ((0, str "verbose: " ++ str (if b then "on" else "off") ++ [10]), set_verbose b d).
Proof. by destruct b. Qed.

(** With the kernel module the daemon does not get that far. *)
Lemma main_with_module argv netif w :
  str "--help" ∉ argv -> str "--use-module" ∈ argv -> netif_loop (tail argv) None = Some (Some netif) ->
  (length netif <= IFNAMSIZ)%nat -> 0 <= linux_fd -> (forall t, sk_alloc_ok t = true) ->
  (forall t a n, access_ok t a n = true) -> awds_instance_mutex (kern w) = false ->
  main argv (nothing w) = Fail BadUnlock.
Proof.
  intros Hh Hm Ho Hl Hf Hs Ha Hmu. unfold main. rewrite (bool_decide_eq_true_2 _ Hm). apply M_bind_fail.
  unfold mon_inits. cbn [init_all gea_main]. unfold shell_main, help_asked. rewrite (bool_decide_eq_false_2 _ Hh).
  erewrite M_bind_ok by reflexivity. cbn beta. erewrite M_bind_ok by reflexivity. cbn beta.
  apply M_bind_fail. unfold linuxbasic_gea_main. apply M_bind_fail. unfold zoom.
  cbn [linux_world nothing set_shell]. erewrite start_fails; done.
Qed.
End start.

(** ** Example: everything works but the tap device, and no name is given *)

Section examples.
#[local] Existing Instances gea_ns hop_count hop_count_meter merge_std_sort toy_aes ex_basic one_device.
#[local] Instance sim_linux : LinuxKernel := linux_sim no_user.
#[local] Instance no_tap : System := {|
  raw_fd := 5; raw_bind _ := 0; tun_fd := -1; tun_fd2 := -1; tun_ioctl _ := 0; linux_fd := 5; linux_req := 0;
  start_time := 0; uninit_raw := mkRaw 0 0 [] 0 false; uninit_history := [] |}.
Definition ex_args : list (list Z) := [str "awds"; str "--raw-device"; str "wlan0"; str "--verbose"].

Lemma main_runs_witness : exists res runs d,
  main ex_args (nothing (ex_world kstate0)) = Ok ((res, runs), d) /\
  runs = true && Bool.eqb false false /\ (runs = true -> tap_obj d = false).
Proof.
  refine (main_runs ex_args (str "wlan0") false true None (str "awds%d") (ex_world kstate0) _ _ _ _ _ _ _).
  - by apply (bool_decide_eq_false_1 (str "--help" ∈ ex_args)).
  - by apply (bool_decide_eq_false_1 (str "--use-module" ∈ ex_args)).
  - vm_compute. reflexivity.
  - apply Nat.leb_le. reflexivity.
  - vm_compute. reflexivity.
  - vm_compute. reflexivity.
  - intros a. eexists. reflexivity.
Defined.
End examples.
