(* ===== verification/Udp.v ===== *)
(** * The transport over UDP

    [udpBasic.cc]: a station's identifier is its 32-bit address, and a packet goes as
    a datagram to the address that the identifier of its destination is made of. *)

From S2P Require Import Prelude Bytes NodeId.

Definition PORT : Z := 3334.

Inductive IpAddress := IPADDR_ANY | IPADDR_BROADCAST | Ip (a : Z).
Definition UdpAddress : Type := IpAddress * Z.

(** [waits] are the deadlines the event library was given for [recvHandle], newest first. *)
Record UdpBasic := mkUdp {
  MyId : NodeId;
  BroadcastId : NodeId;
  sendHandle : UdpAddress;
  recvHandle : UdpAddress;
  recvTimeout : Z;
  waits : list Z;
}.

Definition init (myId : NodeId) (timeout : Z) : UdpBasic :=
  mkUdp myId (AbstractID6.of_num 0xFFFFFFFF) (IPADDR_BROADCAST, PORT) (IPADDR_ANY, PORT) timeout [].

(** A destination that is not the broadcast waits once more for the own socket. *)
Definition setSendDest (lastEventTime : Z) (id : NodeId) (b : UdpBasic) : UdpBasic :=
  if id =? BroadcastId b
  then mkUdp (MyId b) (BroadcastId b) (IPADDR_BROADCAST, PORT) (recvHandle b) (recvTimeout b) (waits b)
  else mkUdp (MyId b) (BroadcastId b) (Ip (u32 (AbstractID6.to_unsigned_long id)), u16 PORT) (recvHandle b) (recvTimeout b)
         (lastEventTime + recvTimeout b :: waits b).

(** The identifier of the caller is left as it was. *)
Definition getRecvSrc (id : NodeId) (b : UdpBasic) : NodeId := id.

(** The identifier: the address of the machine or the number [inet_addr] makes of the
    first argument. *)
Definition own_id (getIP : Z) (inet_addr : list Z -> Z) (argv : list (list Z)) : NodeId :=
  match argv with _ :: a :: _ => AbstractID6.of_num (inet_addr a) | _ => AbstractID6.of_num getIP end.

(** ** Theorems *)

Lemma u32_word w : in_width 32 w -> u32 (AbstractID6.to_unsigned_long (AbstractID6.of_num w)) = w.
Proof.
  intros Hw. unfold AbstractID6.of_num, AbstractID6.to_unsigned_long. unfold in_width in Hw.
  rewrite (wrap_id 32 w), (wrap_id 64 w), (wrap_id 32 w); [done|unfold in_width; lia..].
Qed.

(** Every station is reached at its own address: whatever address [ip] a station has
    taken its identifier from, a packet to that identifier is sent to [ip], and a packet
    to the broadcast identifier to the broadcast address; a station whose address is all
    ones cannot be told from everybody. *)
Theorem udp_reaches t timeout ip myId :
  in_width 32 ip ->
  sendHandle (setSendDest t (own_id ip (fun _ => 0) []) (init myId timeout)) =
    (if ip =? 0xFFFFFFFF then IPADDR_BROADCAST else Ip ip, PORT) /\
  sendHandle (setSendDest t (BroadcastId (init myId timeout)) (init myId timeout)) = (IPADDR_BROADCAST, PORT).
Proof.
  intros Hip. split; [|by unfold setSendDest; rewrite Z.eqb_refl].
  unfold setSendDest, own_id. cbn [BroadcastId init].
  assert (AbstractID6.of_num ip = ip) as -> by (by apply wrap_id).
  change (AbstractID6.of_num 0xFFFFFFFF) with 0xFFFFFFFF.
  destruct (Z.eqb_spec ip 0xFFFFFFFF); [done|]. cbn [sendHandle].
  rewrite <- (wrap_id 32 ip) at 1 by done. change (wrap 32 ip) with (AbstractID6.of_num ip). by rewrite u32_word.
Qed.
