(* ===== verification/Observers.v ===== *)
(** * Observers of the topology

    [NodesObserver] and [LinksObserver] of [awds/routing.h]: objects of the modules,
    linked through their own member [next] into the lists of the topology.  A list is a
    head and a map from observers to their [next]; a notification calls the observers
    in the order of the list. *)

From S2P Require Import Prelude NodeId.

(** The virtual functions of the two classes, with their arguments. *)
Inductive note :=
| nodesChanged | nodeAdded (id : NodeId) | nodeRemoved (id : NodeId)
| linksChanged | linkAdded (from to : NodeId) | linkRemoved (from to : NodeId).

Record observers := mkObs {
  head : option positive;
  next : gmap positive (option positive);
  calls : list (positive * note);            (* newest first *)
}.
Definition observers_new : observers := mkObs None ∅ [].

Abbreviation O := (M observers).

(** [addNodeObserver], [addLinkObserver] *)
Definition addObserver (o : positive) : O unit :=
  modify (fun s => mkObs (Some o) (<[o := head s]> (next s)) (calls s)).

(** [while (observer) { observer->f(..); observer = observer->next; }] *)
Fixpoint send_loop (fuel : nat) (p : option positive) (n : note) : O unit :=
  match p with
  | None => mret tt
  | Some o =>
      match fuel with
      | 0%nat => fail OutOfFuel
      | S fuel =>
          modify (fun s => mkObs (head s) (next s) ((o, n) :: calls s));;
          q ← gets (fun s => next s !! o);
          q ← lift (of_option UseAfterFree q);
          send_loop fuel q n
      end
  end.

Definition send (fuel : nat) (n : note) : O unit := p ← gets head; send_loop fuel p n.

Definition sendNodesChanged (fuel : nat) : O unit := send fuel nodesChanged.
Definition sendNodeAdded (fuel : nat) (id : NodeId) : O unit := send fuel (nodeAdded id).
Definition sendNodeRemoved (fuel : nat) (id : NodeId) : O unit := send fuel (nodeRemoved id).
Definition sendLinksChanged (fuel : nat) : O unit := send fuel linksChanged.
Definition sendLinkAdded (fuel : nat) (from to : NodeId) : O unit := send fuel (linkAdded from to).
Definition sendLinkRemoved (fuel : nat) (from to : NodeId) : O unit := send fuel (linkRemoved from to).

(** ** Theorems *)

Fixpoint linked (nx : gmap positive (option positive)) (p : option positive) (os : list positive) : Prop :=
  match os with
  | [] => p = None
  | o :: os => p = Some o /\ exists q, nx !! o = Some q /\ linked nx q os
  end.

Lemma linked_insert nx p os o q : linked nx p os -> o ∉ os -> linked (<[o := q]> nx) p os.
Proof.
  revert p. induction os as [|x os IH]; intros p; cbn; [done|].
  intros (-> & r & Hr & Hl) Hn. apply not_elem_of_cons in Hn as [Hx Hn]. split; [done|].
  exists r. by rewrite lookup_insert_ne by done; auto.
Qed.

Fixpoint add_all (os : list positive) : O unit :=
  match os with [] => mret tt | o :: os => addObserver o;; add_all os end.

Lemma add_all_ok os done s :
  linked (next s) (head s) done -> NoDup (os ++ done) ->
  exists s', add_all os s = Ok (tt, s') /\ linked (next s') (head s') (rev os ++ done) /\ calls s' = calls s.
Proof.
  revert done s. induction os as [|o os IH]; intros dn s Hl Hnd; [by exists s|].
  cbn [add_all]. cbn [app] in Hnd. apply NoDup_cons in Hnd as [Hn Hnd].
  destruct (IH (o :: dn) (mkObs (Some o) (<[o := head s]> (next s)) (calls s))) as (s' & E & Hl' & Hc).
  - cbn. split; [done|]. exists (head s). split; [apply lookup_insert_eq|].
    apply linked_insert; [done|]. intros Hin. apply Hn. apply elem_of_app. by right.
  - apply NoDup_app in Hnd as (H1 & H2 & H3). apply NoDup_app. split; [done|]. split.
    + intros x Hx Hin. apply elem_of_cons in Hin as [->|Hin]; [|by eapply H2].
      apply Hn. apply elem_of_app. by left.
    + apply NoDup_cons. split; [|done]. intros Hin. apply Hn. apply elem_of_app. by right.
  - exists s'. split; [by erewrite M_bind_ok by reflexivity|]. cbn [rev]. rewrite <- app_assoc. done.
Qed.

Lemma send_loop_ok fuel p os n s :
  linked (next s) p os -> (length os <= fuel)%nat ->
  send_loop fuel p n s = Ok (tt, mkObs (head s) (next s) (rev ((fun o => (o, n)) <$> os) ++ calls s)).
Proof.
  revert fuel p s. induction os as [|o os IH]; intros fuel p s Hl Hf.
  - cbn in Hl. subst p. destruct fuel, s; reflexivity.
  - destruct Hl as (-> & q & Hq & Hl). destruct fuel as [|fuel]; cbn [length] in Hf; [lia|]. cbn [send_loop].
    erewrite M_bind_ok by reflexivity. cbn beta. erewrite M_bind_ok by reflexivity. cbn beta. cbn [next].
    rewrite Hq. erewrite M_bind_ok by reflexivity. cbn beta.
    rewrite IH by (done || lia). cbn [head next calls fmap list_fmap rev]. by rewrite <- app_assoc.
Qed.

(** Every change is told to every observer exactly once, the one registered last
    first, when no observer was registered twice. *)
Theorem observers_notified os n :
  NoDup os -> exists s, add_all os observers_new = Ok (tt, s) /\
    forall fuel, (length os <= fuel)%nat -> exists s', send fuel n s = Ok (tt, s') /\
      rev (calls s') = (fun o => (o, n)) <$> rev os.
Proof.
  intros Hnd. destruct (add_all_ok os [] observers_new) as (s & E & Hl & Hc); [done|by rewrite app_nil_r|].
  exists s. split; [done|]. intros fuel Hf. rewrite app_nil_r in Hl.
  eexists. split.
  - unfold send. erewrite M_bind_ok by reflexivity. cbn beta. apply send_loop_ok; [exact Hl|by rewrite length_rev].
  - cbn [calls]. by rewrite Hc, app_nil_r, rev_involutive.
Qed.

Lemma self_loop fuel o n s : next s !! o = Some (Some o) -> send_loop fuel (Some o) n s = Fail OutOfFuel.
Proof.
  revert s. induction fuel as [|fuel IH]; intros s Hs; [done|]. cbn [send_loop].
  erewrite M_bind_ok by reflexivity. cbn beta. erewrite M_bind_ok by reflexivity. cbn beta. cbn [next].
  rewrite Hs. erewrite M_bind_ok by reflexivity. cbn beta. by apply IH.
Qed.

(** An observer that is registered twice in a row points to itself: the next change is
    told to it for ever. *)
Theorem registered_twice s o n :
  exists s', add_all [o; o] s = Ok (tt, s') /\ forall fuel, send fuel n s' = Fail OutOfFuel.
Proof.
  eexists. split; [reflexivity|]. intros fuel. unfold send. erewrite M_bind_ok by reflexivity. cbn beta.
  apply self_loop. cbn. apply lookup_insert_eq.
Qed.
