(* ===== verification/TypeThms.v ===== *)
(** * Packets keep their type

    Every packet of a station is an object of 4096 bytes.  A predicate on states that a
    program respects, with one on its result, is closed under the operations of the state
    monad; so the proof follows the code, function by function, up to the events a
    station handles. *)

From S2P Require Import Prelude Bytes NodeId Isqrt FloodHist Ccm CryptoUnit Names Filter Topology RoutesThms CcmThms SendQueue Neighbors Metrics Packet Routing Station RoutingThms DeliveryThms.

(** ** What a program respects *)

Definition respects {S A} (P : S -> Prop) (Q : A -> Prop) (m : M S A) : Prop :=
  forall s a s', P s -> m s = Ok (a, s') -> P s' /\ Q a.

Definition any {A} : A -> Prop := fun _ => True.

Section respects.
Context {S : Type} (P : S -> Prop).

Lemma respects_ret {A} (Q : A -> Prop) a : Q a -> respects P Q (mret a).
Proof. intros Hq s b s' Hp [= <- <-]. done. Qed.

Lemma respects_bind {A B} (Q : A -> Prop) (R : B -> Prop) (m : M S A) (k : A -> M S B) :
  respects P Q m -> (forall a, Q a -> respects P R (k a)) -> respects P R (m ≫= k).
Proof.
  intros Hm Hk s b s' Hp E. apply M_bind_inv in E as (a & s1 & E1 & E2).
  destruct (Hm s a s1 Hp E1) as [Hp1 Hq]. by eapply Hk.
Qed.

Lemma respects_lift {A} (Q : A -> Prop) (o : outcome A) : (forall a, o = Ok a -> Q a) -> respects P Q (lift o).
Proof. intros Ho s a s' Hp E. unfold lift in E. destruct o; [|done]. injection E as <- <-. auto. Qed.

Lemma respects_gets {A} (Q : A -> Prop) (f : S -> A) : (forall s, P s -> Q (f s)) -> respects P Q (gets f).
Proof. intros Hf s a s' Hp [= <- <-]. auto. Qed.

Lemma respects_modify (f : S -> S) : (forall s, P s -> P (f s)) -> respects P any (modify f).
Proof. intros Hf s a s' Hp [= <- <-]. split; [auto|done]. Qed.

Lemma respects_fail {A} (Q : A -> Prop) f : respects P Q (fail f).
Proof. by intros s a s' Hp E. Qed.

Lemma respects_weaken {A} (Q : A -> Prop) (m : M S A) : respects P Q m -> respects P any m.
Proof. intros Hm s a s' Hp E. split; [by eapply Hm|done]. Qed.

Lemma respects_zoom {T A} (P' : T -> Prop) (Q : A -> Prop) (g : S -> T) (put : T -> S -> S) (m : M T A) :
  (forall s, P s -> P' (g s)) -> (forall s t, P s -> P' t -> P (put t s)) -> respects P' Q m -> respects P Q (zoom g put m).
Proof.
  intros Hg Hp Hm s a s' Hs E. unfold zoom in E. destruct (m (g s)) as [[b t]|] eqn:Et; [|done].
  injection E as <- <-. destruct (Hm _ _ _ (Hg s Hs) Et). auto.
Qed.
End respects.

(** One function: [follow] follows its code, [respect_ops] holds what is known of the
    functions it calls. *)
Create HintDb respect_ops.
(** [follow_hook] is for operations whose premises are not hints. *)
Ltac follow_hook := fail.
Ltac follow_call := solve [eauto 2 with respect_ops nocore | follow_hook].
Ltac follow :=
  lazymatch goal with
  | |- respects _ _ (mbind _ _) =>
      eapply respects_bind;
      [ first [ follow_call | eapply (respects_weaken); follow_call | follow_leaf | follow ]
      | let a := fresh "a" in let Ha := fresh "Ha" in intros a Ha; cbn beta in Ha; follow ]
  | |- respects _ _ (if ?b then _ else _) => destruct b; follow
  | |- respects _ _ (match ?x with _ => _ end) => destruct x; follow
  | |- respects _ _ (let '_ := ?x in _) => destruct x; follow
  | |- respects _ _ (mret _) => apply respects_ret; first [done | exact I | idtac]
  | |- respects _ _ (fail _) => apply respects_fail
  | |- _ => first [ follow_call | eapply respects_weaken; follow_call | follow_leaf | idtac ]
  end
with follow_leaf :=
  lazymatch goal with
  | |- respects _ _ (gets _) => apply (respects_gets _ any); intros; exact I
  | |- respects _ _ (lift _) => apply (respects_lift _ any); intros; exact I
  | |- respects _ _ (modify _) => apply respects_modify; solve [intros; done | intros ? []; by split]
  end.

(** ** Setters *)

Definition writes (f : list Z -> list Z) : Prop := forall l, length (f l) = length l /\ (bytes l -> bytes (f l)).

Lemma writes_insert off v : writes (fun l => <[off := u8 v]> l).
Proof.
  intros l. split; [apply length_insert|]. intros Hb. apply Forall_insert; [done|apply u8_byte].
Qed.

Lemma writes_comp f g : writes f -> writes g -> writes (fun l => f (g l)).
Proof. intros Hf Hg l. destruct (Hg l), (Hf (g l)). split; [congruence|auto]. Qed.

Lemma writes_loop k d off : writes (toArray_loop k d off).
Proof.
  revert d. induction k as [|k IH]; intros d; [by split|].
  exact (writes_comp _ _ (IH (Z.shiftr d 8)) (writes_insert _ d)).
Qed.

Lemma writes_toArray n d off : writes (toArray n d off).
Proof. apply writes_loop. Qed.

Lemma writes_id d off : writes (AbstractID6.toArray d off).
Proof.
  intros l. unfold AbstractID6.toArray. rewrite AbstractID6.toArray_loop_eq. apply writes_loop.
Qed.

Lemma upd_wf f p : writes f -> wf_packet p -> wf_packet (upd f p).
Proof. intros Hf [Hl Hb]. destruct (Hf (buffer p)) as [Hf1 Hf2]. split; cbn; [congruence|auto]. Qed.

Lemma set_buffer_wf b p : length b = MaxSize -> bytes b -> wf_packet (set_buffer b p).
Proof. by split. Qed.

Lemma set_byte_any off v p : wf_packet p -> wf_packet (set_byte off v p).
Proof. apply upd_wf, writes_insert. Qed.

Lemma same_buffer p p' : buffer p' = buffer p -> wf_packet p -> wf_packet p'.
Proof. intros E [Hl Hb]. split; by rewrite E. Qed.

(** A chain of setters, whatever they are called. *)
Ltac typed :=
  intros;
  repeat first [ assumption | apply BasePacket_new_wf
               | apply set_byte_any | apply upd_wf; [solve [apply writes_toArray | apply writes_id]|]
               | lazymatch goal with
                 | |- wf_packet (set_size _ ?p) => apply (same_buffer p); [reflexivity|]
                 | |- wf_packet (set_refcount _ ?p) => apply (same_buffer p); [reflexivity|]
                 | |- wf_packet (set_cb _ ?p) => apply (same_buffer p); [reflexivity|]
                 | |- wf_packet (setDest _ ?p) => apply (same_buffer p); [reflexivity|]
                 | |- wf_packet (set_dest _ ?p) => apply (same_buffer p); [reflexivity|]
                 end ].

(** ** The neighbour table *)

Definition typed_table (s : nstate) : Prop := map_Forall (fun _ p => wf_packet p) (packets s).

Section table.
Context `{Gea}.

Lemma load_respects q : respects typed_table wf_packet (load q).
Proof.
  intros s p s' Hs E. unfold load, gets, lift, mbind, M_bind in E.
  destruct (packets s !! q) as [p0|] eqn:Eq; [|done]. injection E as <- <-. split; [done|]. by eapply Hs.
Qed.

Lemma store_respects q p : wf_packet p -> respects typed_table any (store q p).
Proof. intros Hp. apply respects_modify. intros s Hs. by apply map_Forall_insert_2. Qed.

#[local] Hint Resolve load_respects : respect_ops.

Lemma ref_respects q : respects typed_table any (ref_packet q).
Proof. unfold ref_packet. follow. apply store_respects. cbn. typed. Qed.

Lemma unref_respects q : respects typed_table any (unref_packet q).
Proof.
  unfold unref_packet. eapply respects_bind; [apply load_respects|]. intros p Hp.
  eapply (respects_bind _ (fun r => match snd r with Alive p' => wf_packet p' | Deleted _ => True end)).
  - apply respects_lift. intros r E. unfold unref in E. apply outcome_bind_ok in E as (_ & _ & E).
    destruct (_ =? 0); injection E as <-; cbn; [done|typed].
  - intros [rc [p'|f]] Hr; cbn in Hr |- *; [by apply store_respects|].
    apply respects_modify. intros s Hs. by apply map_Forall_delete.
Qed.

Lemma as_beacon_respects q : respects typed_table wf_packet (as_beacon q).
Proof. unfold as_beacon. eapply respects_bind; [apply load_respects|]. intros p Hp.
  eapply respects_bind; [apply store_respects; typed|]. intros _ _. apply respects_ret. typed.
Qed.

#[local] Hint Resolve ref_respects unref_respects as_beacon_respects : respect_ops.

Lemma last_beacon_respects d : respects typed_table any (last_beacon d).
Proof. unfold last_beacon. follow. Qed.

Lemma nth_neigh_respects i : respects typed_table any (nth_neigh i).
Proof. unfold nth_neigh. follow. Qed.

Lemma on_neigh_respects i f : respects typed_table any (on_neigh i f).
Proof. unfold on_neigh. follow. Qed.

#[local] Hint Resolve last_beacon_respects nth_neigh_respects on_neigh_respects : respect_ops.

Lemma isBidiGood_respects me d : respects typed_table any (isBidiGood me d).
Proof. unfold isBidiGood. follow. Qed.

Lemma record_beacon_respects i q now b : respects typed_table any (record_beacon i q now b).
Proof. unfold record_beacon. follow. Qed.

#[local] Hint Resolve isBidiGood_respects record_beacon_respects : respect_ops.

Lemma refreshNeigh_respects q now : respects typed_table any (refreshNeigh q now).
Proof. unfold refreshNeigh. follow. Qed.

Lemma removeOldNeigh_respects now : respects typed_table any (removeOldNeigh now).
Proof. unfold removeOldNeigh. follow. Qed.

#[local] Hint Resolve removeOldNeigh_respects : respect_ops.

Lemma checkLinkFailure_respects now : respects typed_table any (checkLinkFailure now).
Proof. unfold checkLinkFailure. follow. Qed.

Lemma calc_mpr_loop_respects ns dn : respects typed_table any (calc_mpr_loop ns dn).
Proof. revert dn. induction ns as [|d ns IH]; intros dn; cbn [calc_mpr_loop]; follow. Qed.

#[local] Hint Resolve calc_mpr_loop_respects : respect_ops.

Lemma calcMpr_respects : respects typed_table any calcMpr.
Proof. unfold calcMpr. follow. Qed.
End table.

(** ** New packets of the station *)

Lemma writes_wf_list f l : writes f -> length l = MaxSize -> bytes l -> length (f l) = MaxSize /\ bytes (f l).
Proof. intros Hf Hl Hb. destruct (Hf l). split; [congruence|auto]. Qed.

Lemma mem_write_typed off bs l l' :
  length l = MaxSize -> bytes l -> bytes bs -> mem_write off bs l = Ok l' -> length l' = MaxSize /\ bytes l'.
Proof.
  intros Hl Hb Hbs E. unfold mem_write in E. destruct (Nat.leb_spec (off + length bs) (length l)); [|done].
  injection E as <-. split; [rewrite splice_length; [done|lia]|by apply Forall_splice].
Qed.

Definition typed_list (l : list Z) : Prop := length l = MaxSize /\ bytes l.

Lemma put_neigh_typed sel ns addr n l r : typed_list l -> put_neigh sel ns addr n l = Ok r -> typed_list r.2.
Proof.
  revert addr n l. induction ns as [|d ns IH]; intros addr n l Hl E; cbn in E; [by injection E as <-|].
  destruct (sel d); [|by eapply IH]. destruct (_ <=? _)%nat; [|done].
  eapply IH; [|exact E]. destruct Hl. by apply (writes_wf_list _ _ (writes_id _ _)).
Qed.

Lemma setNeigh_typed ns p p' : wf_packet p -> setNeigh ns p = Ok p' -> wf_packet p'.
Proof.
  intros Hp E. unfold setNeigh in E.
  apply outcome_bind_ok in E as ([[addr n] buf] & E1 & E). apply outcome_bind_ok in E as ([[addr' n'] buf'] & E2 & E).
  apply put_neigh_typed in E1; [|by destruct Hp]. apply put_neigh_typed in E2; [|done]. cbn in E2.
  injection E as <-. destruct E2 as [H1 H2].
  apply (same_buffer (Beacon.setNumNoMpr n' (Beacon.setNumMpr n (set_buffer buf' p)))); [done|].
  typed. by apply set_buffer_wf.
Qed.

Lemma put_links_respects {L : LinkMeter} me ns addr n l :
  typed_list l -> respects typed_table (fun r : nat * Z * list Z => typed_list r.2) (put_links me ns addr n l).
Proof.
  revert addr n l. induction ns as [|d ns IH]; intros addr n l Hl; cbn [put_links]; [by apply respects_ret|].
  eapply respects_bind; [apply isBidiGood_respects|]. intros good _. destruct good; [|by apply IH].
  eapply respects_bind; [apply (respects_lift _ any); intros; exact I|]. intros ql _.
  destruct (_ <=? _)%nat; [|apply respects_fail]. apply IH. destruct Hl as [H1 H2].
  apply (writes_wf_list (fun l => toArray 2 ql (addr + 6) (AbstractID6.toArray (id d) addr l))); [|done|done].
  apply (writes_comp (toArray 2 ql (addr + 6)) (AbstractID6.toArray (id d) addr)); [apply writes_toArray|apply writes_id].
Qed.

Lemma topo_setNeigh_respects {L : LinkMeter} me name p :
  bytes name -> wf_packet p -> respects typed_table wf_packet (topo_setNeigh me name p).
Proof.
  intros Hn Hp. unfold topo_setNeigh. eapply respects_bind; [apply (respects_gets _ any); done|]. intros ns _.
  eapply respects_bind; [apply put_links_respects; by destruct Hp|]. intros [[addr n] buf] Hb. cbn in Hb.
  eapply respects_bind; [apply (respects_lift _ any); intros; exact I|]. intros len _.
  eapply respects_bind.
  - apply (respects_lift _ typed_list). intros b E. destruct Hb as [H1 H2].
    assert (bytes (Z.of_nat (len `min` 32) :: take (len `min` 32) name)) as Hbs.
    { constructor; [split; lia|by apply Forall_take]. }
    exact (mem_write_typed _ _ _ _ H1 H2 Hbs E).
  - intros b [H1 H2]. apply respects_ret. typed. by apply set_buffer_wf.
Qed.

(** ** The station *)

Section station.
Context `{Gea, Metric, LinkMeter, StdSort, AES, Basic} {U : Type} `{!Handlers U}.

(** No crypto unit; every live packet is 4096 bytes long. *)
Record typed_station (s : AwdsRouting U) : Prop := {
  ts_packets : typed_table (table s);
  ts_crypto : cryptoUnit s = None;
  ts_name : bytes (ownName s);
}.

Lemma on_net_respects {A} (Q : A -> Prop) m :
  respects (fun x => typed_table (heap x)) Q m -> respects typed_station Q (on_net (U := U) m).
Proof.
  apply respects_zoom; [by intros s []|]. intros s t [Hp Hc Hn] Ht. by constructor.
Qed.

Lemma on_heap_respects {A} (Q : A -> Prop) m :
  respects typed_table Q m -> respects (fun x => typed_table (heap x)) Q (on_heap m).
Proof. by apply respects_zoom. Qed.

Lemma on_table_respects {A} (Q : A -> Prop) m : respects typed_table Q m -> respects typed_station Q (on_table (U := U) m).
Proof. intros Hm. by apply on_net_respects, on_heap_respects. Qed.

Lemma on_topology_respects {A} (m : T A) : respects typed_station any (on_topology (U := U) m).
Proof.
  apply (respects_zoom _ (fun _ => True)); [done| |]; [intros s t [] _; by constructor|]. intros s a s' _ _. done.
Qed.

Lemma on_registers_respects f : respects typed_station any (on_registers (U := U) f).
Proof. apply respects_modify. intros s []. by constructor. Qed.
Lemma on_periods_respects f : respects typed_station any (on_periods (U := U) f).
Proof. apply respects_modify. intros s []. by constructor. Qed.
Lemma myNodeId_respects : respects typed_station any (myNodeId (U := U)).
Proof. by apply respects_gets. Qed.

Lemma peek_respects q : respects typed_station wf_packet (peek (U := U) q).
Proof. apply on_table_respects, load_respects. Qed.

Lemma put_respects q p : wf_packet p -> respects typed_station any (on_table (U := U) (store q p)).
Proof. intros. by apply on_table_respects, store_respects. Qed.

Lemma upd_packet_respects q f :
  (forall p, wf_packet p -> wf_packet (f p)) -> respects typed_station wf_packet (upd_packet (U := U) q f).
Proof.
  intros Hf. unfold upd_packet. eapply respects_bind; [apply peek_respects|]. intros p Hp.
  eapply respects_bind; [apply put_respects; auto|]. intros _ _. apply respects_ret. auto.
Qed.

Ltac follow_hook ::= apply upd_packet_respects; solve [typed].
#[local] Hint Resolve peek_respects put_respects on_topology_respects on_registers_respects on_periods_respects myNodeId_respects : respect_ops.
#[local] Hint Resolve ref_respects unref_respects as_beacon_respects last_beacon_respects refreshNeigh_respects
  checkLinkFailure_respects calcMpr_respects on_table_respects : respect_ops.

Lemma modify_respects (f : AwdsRouting U -> AwdsRouting U) :
  (forall s, net (f s) = net s) -> (forall s, cryptoUnit (f s) = cryptoUnit s) -> (forall s, ownName (f s) = ownName s) ->
  respects typed_station any (modify f).
Proof.
  intros E1 E2 E3. apply respects_modify. intros s [Hp Hc Hn]. constructor; unfold table in *; by rewrite ?E1, ?E2, ?E3.
Qed.

Lemma new_packet_respects : respects typed_station any (new_packet (U := U)).
Proof.
  unfold new_packet. eapply respects_bind; [by apply (respects_gets _ any)|]. intros c _.
  eapply respects_bind; [apply put_respects; typed|]. intros _ _.
  eapply respects_bind; [by apply modify_respects|]. intros _ _. by apply respects_ret.
Qed.

Lemma next_seq_respects :
  respects typed_station any (next_beaconSeq (U := U)) /\ respects typed_station any (next_floodSeq (U := U)) /\
  respects typed_station any (next_unicastSeq (U := U)).
Proof.
  assert (forall f g, respects typed_station any
    (c ← gets counters; modify (set_counters (U := U) (f c)) ;; mret (g c : Z))) as Hn.
  { intros f g. eapply respects_bind; [by apply (respects_gets _ any)|]. intros c _.
    eapply respects_bind; [by apply modify_respects|]. intros _ _. by apply respects_ret. }
  split; [|split]; apply Hn.
Qed.

Lemma no_crypto_respects {A} (Q : A -> Prop) (k : option AesCcmCryptoUnit -> R U A) :
  respects typed_station Q (k None) -> respects typed_station Q (cu ← gets cryptoUnit; k cu).
Proof.
  intros Hk. eapply (respects_bind _ (fun cu => cu = None)); [apply respects_gets; by intros s []|]. by intros _ ->.
Qed.

Lemma verify_respects q src sg : respects typed_station any (verify (U := U) q src sg).
Proof. apply no_crypto_respects. by apply respects_ret. Qed.
Lemma sign_respects q sg : respects typed_station any (sign_packet (U := U) q sg).
Proof. apply no_crypto_respects. by apply respects_ret. Qed.

Lemma send_respects q hp now : respects typed_station any (send (U := U) q hp now).
Proof.
  apply on_net_respects. unfold enqueuePacket, registerCallback, on_queue.
  eapply respects_bind; [by apply (respects_gets _ any)|]. intros qs _. destruct (_ && _); [by apply respects_ret|].
  eapply respects_bind; [apply on_heap_respects, ref_respects|]. intros _ _. follow.
Qed.

Lemma doSend_respects q ret : respects (fun x => typed_table (heap x)) any (doSend q ret).
Proof.
  unfold doSend, on_queue. eapply respects_bind; [apply on_heap_respects, load_respects|]. intros p Hp.
  eapply respects_bind; [destruct (_ <=? _); [by apply (respects_ret _ any)|apply (respects_fail _ any)]|]. intros u _.
  eapply respects_bind; [destruct (0 <=? ret); follow|]. intros _ _.
  eapply respects_bind; [|intros _ _; by apply respects_ret]. apply on_heap_respects.
  eapply respects_bind; [destruct (cb p) as [[c d]|]; follow|]. intros _ _. apply store_respects. typed.
Qed.

Lemma heap_unref_respects q : respects (fun x => typed_table (heap x)) any (on_heap (unref_packet q)).
Proof. apply on_heap_respects, unref_respects. Qed.
#[local] Hint Resolve doSend_respects heap_unref_respects : respect_ops.

Lemma xmit_respects ready ret now : respects typed_station any (on_net (U := U) (xmit_cb ready ret now)).
Proof. apply on_net_respects. unfold xmit_cb, registerCallback, on_queue. follow. Qed.

#[local] Hint Resolve new_packet_respects verify_respects sign_respects send_respects : respect_ops.

(** What a module registers respects the packets, too. *)
Hypothesis handlers_respect : forall c d q now, respects typed_station any (recv_callback (U := U) c d q now).
#[local] Hint Resolve handlers_respect : respect_ops.

Lemma trace_respects q : respects typed_station any (trace (U := U) q).
Proof.
  unfold trace. eapply respects_bind; [apply peek_respects|]. intros p0 _.
  eapply respects_bind; [by apply (respects_lift _ any)|]. intros t _. destruct t; [|by apply respects_ret]. cbn [negb].
  eapply respects_bind; [apply myNodeId_respects|]. intros me _.
  eapply respects_bind; [apply upd_packet_respects; typed|]. intros p Hp.
  eapply (respects_bind _ (fun r => wf_packet (snd r))).
  - apply respects_lift. intros r E. unfold TraceUcPacket.appendNode in E.
    destruct (_ <=? _); [by injection E as <-|]. destruct (_ <=? _); [|done]. injection E as <-. cbn [snd].
    unfold TraceUcPacket.setTracePointer. typed.
  - intros r Hr. by apply put_respects.
Qed.

Lemma recv_beacon_respects q now : respects typed_station any (recv_beacon (U := U) q now).
Proof. unfold recv_beacon. follow. Qed.

Lemma not_relay_respects h : respects typed_station any (not_relay (U := U) h).
Proof. unfold not_relay. follow. Qed.
#[local] Hint Resolve trace_respects recv_beacon_respects not_relay_respects : respect_ops.

Lemma deliver_flood_respects q now : respects typed_station any (deliver_flood (U := U) q now).
Proof. unfold deliver_flood. follow. Qed.
#[local] Hint Resolve deliver_flood_respects : respect_ops.

Lemma set_floodHistory_respects h : respects typed_station any (modify (set_floodHistory (U := U) h)).
Proof. by apply modify_respects. Qed.
#[local] Hint Resolve set_floodHistory_respects : respect_ops.

Lemma recv_flood_respects q now : respects typed_station any (recv_flood (U := U) q now).
Proof. unfold recv_flood. follow. Qed.

Lemma recv_unicast_respects q now : respects typed_station any (recv_unicast (U := U) q now).
Proof. unfold recv_unicast. follow. Qed.

Lemma sendFlowPacket_respects q now : respects typed_station any (sendFlowPacket (U := U) q now).
Proof. unfold sendFlowPacket. follow. Qed.
#[local] Hint Resolve recv_flood_respects recv_unicast_respects sendFlowPacket_respects : respect_ops.

Lemma recv_packet_respects q now : respects typed_station any (recv_packet (U := U) q now).
Proof. unfold recv_packet. follow. Qed.
#[local] Hint Resolve recv_packet_respects : respect_ops.

Lemma newFloodPacket_respects ft : respects typed_station any (newFloodPacket (U := U) ft).
Proof. destruct next_seq_respects as (_ & Hn & _). unfold newFloodPacket. follow. Qed.

Lemma sendBroadcast_respects q now : respects typed_station any (sendBroadcast (U := U) q now).
Proof. unfold sendBroadcast. follow. Qed.

Lemma update_topoPeriod_respects : respects typed_station any (update_topoPeriod (U := U)).
Proof. unfold update_topoPeriod. follow. Qed.
#[local] Hint Resolve newFloodPacket_respects sendBroadcast_respects update_topoPeriod_respects : respect_ops.

Lemma send_topo_respects now : respects typed_station any (send_topo (U := U) now).
Proof.
  unfold send_topo. eapply respects_bind; [apply newFloodPacket_respects|]. intros q _.
  eapply respects_bind; [apply upd_packet_respects; typed|]. intros p Hp.
  eapply respects_bind; [by apply (respects_lift _ any)|]. intros _ _.
  eapply respects_bind; [apply myNodeId_respects|]. intros me _.
  eapply (respects_bind _ bytes); [apply respects_gets; by intros s []|]. intros name Hn.
  eapply respects_bind; [by apply on_table_respects, topo_setNeigh_respects|]. intros p' Hp'.
  eapply respects_bind; [by apply put_respects|]. intros _ _. follow.
Qed.
#[local] Hint Resolve send_topo_respects : respect_ops.

Lemma send_periodic_topo_respects t now : respects typed_station any (send_periodic_topo (U := U) t now).
Proof. unfold send_periodic_topo. follow. Qed.

Lemma checkLinks_respects now : respects typed_station any (checkLinks (U := U) now).
Proof. unfold checkLinks. follow. Qed.

Lemma send_beacon_respects now : respects typed_station any (send_beacon (U := U) now).
Proof.
  destruct next_seq_respects as (Hn & _ & _). unfold send_beacon.
  eapply respects_bind; [by apply on_table_respects, calcMpr_respects|]. intros _ _.
  eapply respects_bind; [apply new_packet_respects|]. intros q _.
  eapply respects_bind; [apply myNodeId_respects|]. intros me _.
  eapply respects_bind; [apply upd_packet_respects; typed|]. intros p Hp.
  eapply respects_bind; [by apply (respects_gets _ any)|]. intros ns _.
  eapply respects_bind; [apply (respects_lift _ wf_packet); intros p' E; by eapply setNeigh_typed|]. intros p' Hp'.
  eapply respects_bind; [by apply put_respects|]. intros _ _. follow.
Qed.

(** A frame of the device: [read] fills at most the buffer. *)
Lemma recv_data_respects ret data now :
  bytes data -> (length data <= MaxSize)%nat -> respects typed_station any (recv_data (U := U) ret data now).
Proof.
  intros Hb Hl. unfold recv_data. eapply respects_bind; [apply new_packet_respects|]. intros q _.
  eapply respects_bind; [apply peek_respects|]. intros p Hp. cbn [receive].
  eapply respects_bind; [apply put_respects|].
  { apply (same_buffer (upd (splice 0 data) p)); [done|]. by apply upd_splice_wf. }
  intros _ _. follow.
Qed.

(** ** Events *)

Inductive event :=
| Frame (ret : Z) (data : list Z)        (* the device has a frame *)
| Device (ready : bool) (ret : Z)        (* the device takes a packet, or the time is over *)
| BeaconTimer | TopoTimer (t : Z) | LinkTimer.

Definition handle (e : event) (now : Z) : R U unit :=
  match e with
  | Frame ret data => recv_data ret data now
  | Device ready ret => on_net (xmit_cb ready ret now)
  | BeaconTimer => send_beacon now
  | TopoTimer t => send_periodic_topo t now
  | LinkTimer => checkLinks now
  end.

Definition frame_fits (e : event) : Prop :=
  match e with Frame _ data => bytes data /\ (length data <= MaxSize)%nat | _ => True end.

(** The states a station comes through. *)
Inductive reachable (s : AwdsRouting U) : AwdsRouting U -> Prop :=
| reach_start : reachable s s
| reach_step s1 s2 e now :
    reachable s s1 -> frame_fits e -> handle e now s1 = Ok (tt, s2) -> reachable s s2.

Lemma handle_respects e now : frame_fits e -> respects typed_station any (handle e now).
Proof.
  destruct e; cbn [frame_fits handle]; intros Hf.
  - destruct Hf. by apply recv_data_respects.
  - apply xmit_respects.
  - apply send_beacon_respects.
  - apply send_periodic_topo_respects.
  - apply checkLinks_respects.
Qed.

End station.

(** ** Example: a beacon, an own beacon and the device *)

Section examples.
#[local] Existing Instances gea_ns hop_count hop_count_meter merge_std_sort toy_aes ex_basic.
#[local] Instance no_modules : Handlers unit := {| recv_callback c d q now := mret tt |}.

Definition is_ok {A} (o : outcome A) : bool := match o with Ok _ => true | Fail _ => false end.
Definition after (e : event) (now : Z) (s : AwdsRouting unit) : AwdsRouting unit :=
  match handle e now s with Ok (_, s') => s' | Fail _ => s end.

Lemma reach_after s s1 e now :
  reachable s s1 -> frame_fits e -> is_ok (handle e now s1) = true -> reachable s (after e now s1).
Proof.
  intros Hr Hf Hk. apply (reach_step s s1 _ e now Hr Hf). unfold after.
  destruct (handle e now s1) as [[[] s2]|]; [reflexivity|done].
Qed.

Definition ex_station : AwdsRouting unit := AwdsRouting_new 5 0 (replicate 32 0) (replicate 128 (mkEntry 0 0)) false false false tt.
Definition ex_frame : event := Frame 13 [0; 0; 0; 0; 0; 0; 7; 0; 1; 100; 0; 0; 0].
Definition ex_after : AwdsRouting unit := after (Device true 20) 60 (after BeaconTimer 50 (after ex_frame 40 ex_station)).

End examples.
