(* ===== verification/Reports.v ===== *)
(** * What the probe metrics report

    [get_history] and [get_values] of [RTTMetric.cc], [PktPair.cc] and [TTMetric.cc]: the
    measurements as a text.  The history keeps for every neighbour the round-trip times
    in turn with the values they were smoothed to; the report gives the mean, the minimum
    and the maximum of both.  How a duration is printed ([GeaPrint]) and converted to a
    number ([GeaReport]) is the event library's; [alpha] is the weight of [smooth]. *)

From Stdlib Require Import Ascii String.
From Stdlib Require Import Floats.SpecFloat.
From S2P Require Import Prelude OMap Bytes NodeId FloodHist Ccm CryptoUnit Names Filter Topology SendQueue Neighbors Metrics Packet Routing Probes Double TopoText TTMetric.

Class GeaReport := {
  nanosecs_d : Z -> double;            (* [Duration::getNanoSecsD] *)
  alpha : double;
}.

Section reports.
Context `{Gea, GeaPrint, GeaDouble, GR : GeaReport}.

Definition line (l : list Z) : list Z := l ++ [10].

(** ** The history *)

(** [v[k], v[k+2], ...] for [k = 0] and [k = 1]. *)
Fixpoint evens (v : list Z) : list Z :=
  match v with [] => [] | d :: v => d :: match v with [] => [] | _ :: v => evens v end end.
Definition odds (v : list Z) : list Z := evens (tail v).

(** The loop over the chosen elements: the text, the sum, the minimum and the maximum,
    which start with [mi] and [ma]. *)
Fixpoint summary_loop (ds : list Z) (r : list Z) (sum : double) (mi ma : Z) : list Z * double * Z * Z :=
  match ds with
  | [] => (r, sum, mi, ma)
  | d :: ds => summary_loop ds (r ++ print_duration d ++ [32]) (dbl_add sum (nanosecs_d d)) (Z.min mi d) (Z.max ma d)
  end.

(** [n] is the size of the vector. *)
Definition summary (n : nat) (ds : list Z) : list Z :=
  let '(r, sum, mi, ma) := summary_loop ds [] (S754_zero false) (duration 1 1) (duration 0 1) in
  line r
  ++ line (str "mean: "%string ++ print_double (dbl_div sum (dbl_of_Z (Z.of_nat n / 2))))
  ++ line (str "min: "%string ++ print_duration mi)
  ++ line (str "max: "%string ++ print_duration ma)
  ++ line [].

Definition node_history (kd : NodeId * list Z) : list Z :=
  line (str "DestNode: "%string ++ print_int kd.1)
  ++ line (str "Received: "%string) ++ summary (length kd.2) (evens kd.2)
  ++ line (str "Smoothed: "%string) ++ summary (length kd.2) (odds kd.2)
  ++ line [].

Definition parameters (interval : Z) : list Z :=
  line (str "Alpha: "%string ++ print_double alpha) ++ line (str "Interval: "%string ++ print_duration interval) ++ line [].

Definition get_history (m : RTTMetric) : list Z :=
  match history m with
  | None => []
  | Some h => line (str "RTTMetric"%string) ++ parameters (rtt_interval m) ++ mjoin (node_history <$> h) ++ line []
  end.

(** ** The values *)

Definition node_value (name text : list Z) (i : NodeId) : list Z :=
  line (str "DestNode: "%string ++ print_int i) ++ line (name ++ str ": "%string ++ text) ++ line [].

(** Nothing is printed if no history is kept. *)
Definition rtt_get_values (my : NodeId) (m : RTTMetric) : list Z :=
  match history m with
  | None => []
  | Some _ =>
      line (str "RTTMetric for: "%string ++ print_int my) ++ parameters (rtt_interval m)
      ++ mjoin ((fun kd => node_value (str "SRTT"%string) (print_duration (time kd.2)) kd.1) <$> rttData m) ++ line []
  end.

(** [getTime] stores what it returns. *)
Definition pp_get_values (my : NodeId) (m : PktPair) : list Z * PktPair :=
  (line (str "PktPair for: "%string ++ print_int my) ++ parameters (pp_interval m)
   ++ mjoin ((fun kd => node_value (str "SPP"%string) (print_duration (getTime kd.2).1) kd.1) <$> nodes m) ++ line [],
   set_nodes ((fun kd => (kd.1, (getTime kd.2).2)) <$> nodes m) m).

Definition tt_get_values (my : NodeId) (m : TTMetric) : list Z :=
  line (str "TTMetric for: "%string ++ print_int my) ++ line []
  ++ mjoin ((fun kd => node_value (str "TT"%string) (print_int (tt kd.2)) kd.1) <$> ttData m) ++ line [].
End reports.

(** ** What the history holds *)

Section history.
Context `{Gea, GeaDouble}.

(** A response from a station, the time it took, and when it came. *)
Abbreviation response := (NodeId * Z * Z)%type.
Definition rtt_responses (rs : list response) (m : RTTMetric) : RTTMetric :=
  foldl (fun m r => rtt_response r.1.1 r.1.2 r.2 m) m rs.
Definition durations (x : NodeId) (rs : list response) : list Z := (fun r => r.1.2) <$> filter (fun r => r.1.1 = x) rs.

(** The times of a station, each with the average after it. *)
Fixpoint smoothed (t : Z) (ds : list Z) : list (Z * Z) :=
  match ds with [] => [] | d :: ds => (d, smooth t d) :: smoothed (smooth t d) ds end.
Definition recorded (ps : list (Z * Z)) : list Z := mjoin ((fun p => [p.1; p.2]) <$> ps).

Lemma smoothed_times t ds : (smoothed t ds).*1 = ds.
Proof. revert t. induction ds as [|d ds IH]; intros t; cbn; [done|]. by rewrite IH. Qed.

Lemma recorded_evens ps : evens (recorded ps) = ps.*1.
Proof. induction ps as [|p ps IH]; cbn; [done|]. f_equal. exact IH. Qed.

Lemma recorded_odds ps : odds (recorded ps) = ps.*2.
Proof.
  unfold odds. induction ps as [|p [|p' ps] IH]; [done..|].
  change (tail (recorded (p :: p' :: ps))) with (p.2 :: p'.1 :: tail (recorded (p' :: ps))).
  cbn [evens]. rewrite IH. done.
Qed.

Lemma recorded_length ps : length (recorded ps) = (2 * length ps)%nat.
Proof. induction ps as [|p ps IH]; [done|]. change (recorded (p :: ps)) with (p.1 :: p.2 :: recorded ps). cbn [length]. lia. Qed.

Record history_wf (m : RTTMetric) (h : list (NodeId * list Z)) : Prop := {
  hw_data : om_sorted (rttData m);
  hw_history : history m = Some h;
  hw_sorted : om_sorted h;
}.

Definition kept (x : NodeId) (h : list (NodeId * list Z)) : list Z := default [] (om_find x h).

Lemma push_history_wf m h y d :
  history_wf m h -> exists h', history_wf (push_history y d m) h' /\
    (forall x, kept x h' = kept x h ++ if decide (x = y) then [d] else []) /\ rttData (push_history y d m) = rttData m.
Proof.
  intros [Hd Hh Hs]. exists (om_put y (kept y h ++ [d]) h). unfold push_history. rewrite Hh. split; [|split; [|done]].
  - split; [done|done|by apply om_put_sorted].
  - intros x. unfold kept at 1. rewrite om_find_put by done. case_decide as E1.
    + by subst.
    + by rewrite app_nil_r.
Qed.

(** One response: the pair is added for its sender. *)
Lemma response_recorded m h y d now e :
  history_wf m h -> om_find y (rttData m) = Some e ->
  exists h', history_wf (rtt_response y d now m) h' /\
    (forall x, kept x h' = kept x h ++ if decide (x = y) then [d; smooth (time e) d] else []) /\
    (forall x, time <$> om_find x (rttData (rtt_response y d now m)) = if decide (x = y) then Some (smooth (time e) d) else time <$> om_find x (rttData m)).
Proof.
  intros [Hd Hh Hs] He. unfold rtt_response. rewrite He. set (e' := mkRtt _ _ _ _). cbv zeta.
  set (m1 := set_rttData _ m). assert (history_wf m1 h) as W1 by (split; [by apply om_put_sorted|done..]).
  destruct (push_history_wf m1 h y d W1) as (h2 & W2 & K2 & R2).
  destruct (push_history_wf _ h2 y (time e') W2) as (h3 & W3 & K3 & R3).
  exists h3. split; [exact W3|]. split.
  - intros x. rewrite K3, K2. case_decide; [by rewrite <- app_assoc|by rewrite !app_nil_r].
  - intros x. rewrite R3, R2. change (rttData m1) with (om_put y e' (rttData m)). rewrite om_find_put by done.
    by case_decide.
Qed.

(** The history of a neighbour that is measured holds, in order, the time of every response
    it has sent and the average after it, whatever the other stations send. *)
Theorem rtt_history_records (x : NodeId) (rs : list response) m h t :
  history_wf m h -> time <$> om_find x (rttData m) = Some t ->
  exists h', history_wf (rtt_responses rs m) h' /\
    kept x h' = kept x h ++ recorded (smoothed t (durations x rs)) /\
    time <$> om_find x (rttData (rtt_responses rs m)) = Some (default t (last (smoothed t (durations x rs)).*2)).
Proof.
  revert m h t. induction rs as [|[[y d] now] rs IH]; intros m h t Hw Ht; [exists h; cbn; by rewrite app_nil_r|].
  cbn [rtt_responses foldl fst snd]. destruct (om_find y (rttData m)) as [e|] eqn:Ey.
  - destruct (response_recorded m h y d now e Hw Ey) as (h1 & W1 & K1 & T1). specialize (K1 x). specialize (T1 x).
    unfold durations. destruct (decide (x = y)) as [->|Hne].
    + rewrite filter_cons_True by done. rewrite Ey in Ht. injection Ht as <-.
      destruct (IH _ _ _ W1 T1) as (h' & W' & K' & T'). exists h'. split; [done|]. split.
      * rewrite K', K1, <- app_assoc. done.
      * etransitivity; [exact T'|]. f_equal. cbn [fmap list_fmap smoothed snd]. rewrite last_cons. fold (durations y rs). by destruct (last _).
    + rewrite filter_cons_False by (cbn; congruence). rewrite app_nil_r in K1. rewrite <- K1. apply IH; [done|]. by rewrite T1.
  - destruct (decide (x = y)) as [->|Hne]; [by rewrite Ey in Ht|]. unfold durations. rewrite filter_cons_False by (cbn; congruence).
    unfold rtt_response. rewrite Ey. by apply IH.
Qed.
End history.

(** ** What the report shows *)

Section summary.
Context `{Gea, GeaPrint, GeaDouble, GR : GeaReport}.

Lemma summary_loop_spec ds r sum mi ma :
  summary_loop ds r sum mi ma =
    (r ++ mjoin ((fun d => print_duration d ++ [32]) <$> ds), foldl dbl_add sum (nanosecs_d <$> ds), foldl Z.min mi ds, foldl Z.max ma ds).
Proof.
  revert r sum mi ma. induction ds as [|d ds IH]; intros r sum mi ma; cbn; [by rewrite app_nil_r|].
  rewrite IH. cbn. by rewrite <- !app_assoc.
Qed.

Lemma foldl_min_above m ds : Forall (fun d => m <= d) ds -> foldl Z.min m ds = m.
Proof. induction 1 as [|d ds Hd _ IH]; cbn; [done|]. by rewrite Z.min_l. Qed.

(** The report of a neighbour in terms of its round-trip times: they are printed in order,
    with their mean; the maximum is theirs, but the minimum starts with one second, so
    that of a neighbour that always takes longer is one second. *)
Theorem history_report (t : Z) (ds : list Z) :
  let v := recorded (smoothed t ds) in
  summary (length v) (evens v) =
    line (mjoin ((fun d => print_duration d ++ [32]) <$> ds))
    ++ line (str "mean: "%string ++ print_double (dbl_div (foldl dbl_add (S754_zero false) (nanosecs_d <$> ds)) (dbl_of_Z (Z.of_nat (length ds)))))
    ++ line (str "min: "%string ++ print_duration (foldl Z.min (duration 1 1) ds))
    ++ line (str "max: "%string ++ print_duration (foldl Z.max (duration 0 1) ds))
    ++ line []
  /\ (Forall (fun d => duration 1 1 <= d) ds -> foldl Z.min (duration 1 1) ds = duration 1 1).
Proof.
  split; [|apply foldl_min_above].
  assert (length (recorded (smoothed t ds)) = (2 * length ds)%nat) as Hl
    by (rewrite recorded_length, <- (length_fmap fst (smoothed t ds)), smoothed_times; done).
  unfold summary. rewrite recorded_evens, smoothed_times, summary_loop_spec, Hl.
  replace (Z.of_nat (2 * length ds) / 2) with (Z.of_nat (length ds)) by (rewrite Nat2Z.inj_mul, Z.mul_comm, Z.div_mul; done). done.
Qed.
End summary.

(** A neighbour that needs two and three seconds. *)
#[local] Existing Instance gea_ns.
#[local] Instance report_print : GeaPrint := {| print_duration d := print_int d |}.
#[local] Instance report_double : GeaDouble := {| quality_value t := t; smooth old d := (old + d) / 2; t0 := 0 |}.
#[local] Instance report_alpha : GeaReport := {| nanosecs_d d := dbl_of_Z d; alpha := dbl_of_ratio false 1 2 |}.

Example slow_neighbour :
  let m := rtt_responses [((7, 2000000000), 5); ((9, 1), 6); ((7, 3000000000), 8)] (rtt_addNode 7 (go_history RTTMetric_new)) in
  history m = Some [(7, [2000000000; 1500000000; 3000000000; 2250000000])] /\
  node_history (7, [2000000000; 1500000000; 3000000000; 2250000000]) =
    (str "DestNode: 7"%string ++ [10] ++ str "Received: "%string ++ [10] ++ str "2000000000 3000000000 "%string ++ [10] ++ str "mean: 2.5e+09"%string ++ [10]
    ++ str "min: 1000000000"%string ++ [10] ++ str "max: 3000000000"%string ++ [10; 10]
    ++ str "Smoothed: "%string ++ [10] ++ str "1500000000 2250000000 "%string ++ [10] ++ str "mean: 1.875e+09"%string ++ [10]
    ++ str "min: 1000000000"%string ++ [10] ++ str "max: 2250000000"%string ++ [10; 10; 10])%list.
Proof. split; vm_compute; reflexivity. Qed.
