(* ===== verification/LinkGraph.v ===== *)
(** * The pointers between links

    In the topology every link points to the link in the other direction, its counterpart,
    if there is one.  The lists of links are vectors that are replaced as a whole, so a
    pointer that is not updated dangles.  [find_counterpart] looks a counterpart up; the
    invariant of the topology is that every stored pointer is what it would find now.
    
    The operations on links in these terms; the invariant [graph_inv]; and [merging], what
    holds between two steps of the loop of [RTopology::feed], which replaces the links of
    one node and walks over the new and the old ones. *)

From S2P Require Import Prelude Bytes NodeId Packet Neighbors NeighborThms Topology RoutesThms.

(** ** The adjacency list as a map *)

Lemma al_find_insert k k' d a : al_find k' a = None -> al_find k (al_insert k' d a) = if decide (k = k') then Some d else al_find k a.
Proof.
  intros Hn. induction a as [|[j e] a IH]; cbn [al_insert al_find] in *.
  - destruct (Z.eqb_spec k k') as [->|]; [by rewrite decide_True|by rewrite decide_False].
  - destruct (Z.eqb_spec k' j) as [|Hj]; [done|]. destruct (k' <? j); cbn [al_find].
    + destruct (Z.eqb_spec k k') as [->|]; [by rewrite decide_True|by rewrite decide_False].
    + rewrite (IH Hn). destruct (Z.eqb_spec k j) as [->|]; [by rewrite decide_False|done].
Qed.

Lemma al_find_erase k k' a : al_find k (al_erase k' a) = if decide (k = k') then None else al_find k a.
Proof.
  unfold al_erase. induction a as [|[j e] a IH]; cbn [al_find]; [by case_decide|].
  destruct (decide (j = k')) as [->|Hj].
  - rewrite filter_cons_False by (cbn; congruence). rewrite IH.
    case_decide as E; [done|]. by destruct (Z.eqb_spec k k').
  - rewrite filter_cons_True by done. cbn [al_find]. rewrite IH.
    destruct (Z.eqb_spec k j) as [->|]; [by rewrite decide_False|done].
Qed.

Definition keys_sorted (a : AdjList) : Prop := StronglySorted Z.lt a.*1.

Lemma keys_sorted_insert k d a : keys_sorted a -> al_find k a = None -> keys_sorted (al_insert k d a).
Proof.
  unfold keys_sorted. intros Hs Hn. induction a as [|[j e] a IH]; cbn in *; [by repeat constructor|].
  apply StronglySorted_inv in Hs as [Hs Hj]. destruct (Z.eqb_spec k j) as [|Hne]; [done|].
  destruct (Z.ltb_spec k j) as [Hlt|Hge]; cbn.
  - constructor; [by constructor|]. constructor; [done|]. eapply Forall_impl; [exact Hj|]. cbn. lia.
  - constructor; [by apply IH|]. assert (forall x, x ∈ (al_insert k d a).*1 -> x = k \/ x ∈ a.*1) as Hi.
    { intros x. clear. induction a as [|[j e] a IH]; cbn.
      - rewrite elem_of_cons. tauto.
      - destruct (k <? j); cbn; rewrite !elem_of_cons; tauto. }
    apply Forall_forall. intros x [->|Hx]%Hi; [lia|]. rewrite Forall_forall in Hj. by apply Hj.
Qed.

Lemma keys_sorted_erase k a : keys_sorted a -> keys_sorted (al_erase k a).
Proof.
  unfold keys_sorted, al_erase. intros Hs. induction a as [|[j e] a IH]; [done|].
  cbn in Hs. apply StronglySorted_inv in Hs as [Hs Hj]. rewrite filter_cons. case_decide; [|by apply IH].
  cbn. constructor; [by apply IH|]. apply Forall_forall. intros x Hx. rewrite Forall_forall in Hj. apply Hj.
  apply list_elem_of_fmap in Hx as (y & -> & Hy). apply list_elem_of_filter in Hy as [_ Hy]. by apply list_elem_of_fmap_2.
Qed.

Lemma keys_sorted_NoDup a : keys_sorted a -> NoDup a.*1.
Proof.
  unfold keys_sorted. induction 1 as [|x l _ IH Hx]; constructor; [|done].
  intros Hin. rewrite Forall_forall in Hx. specialize (Hx x Hin). lia.
Qed.

(** ** Links *)

Definition link (a : AdjList) (v : Z) (i : nat) : option LinkQuality := al_find v a ≫= fun d => linklist d !! i.

(** What a counterpart is looked up by. *)
Definition shape (d : NDescr) : nat * list Z := (generation d, neighbor <$> linklist d).
(** All of a node but its counterparts, weights and route. *)
Definition core (d : NDescr) : nat * list (Z * Z) * Z * Z * list Z :=
  (generation d, (fun l => (neighbor l, quality l)) <$> linklist d, nodeValidity d, edgeValidity d, nodeName d).
Definition same_core (a a' : AdjList) : Prop := a'.*1 = a.*1 /\ forall v, core <$> al_find v a' = core <$> al_find v a.
Definition same_shape (a a' : AdjList) : Prop := forall v, shape <$> al_find v a' = shape <$> al_find v a.

Lemma core_shape d d' : core d = core d' -> shape d = shape d'.
Proof.
  unfold core, shape. intros E. injection E as E1 E2 _ _ _. rewrite E1. f_equal.
  apply (f_equal (fmap fst)) in E2. by rewrite <- !list_fmap_compose in E2.
Qed.

Lemma same_core_shape a a' : same_core a a' -> same_shape a a'.
Proof.
  intros [_ H] v. specialize (H v). destruct (al_find v a') as [d'|], (al_find v a) as [d|]; try done.
  change (Some (core d') = Some (core d)) in H. change (Some (shape d') = Some (shape d)). f_equal. apply core_shape. congruence.
Qed.

#[export] Instance same_core_refl : Reflexive same_core.
Proof. intros a. done. Qed.
#[export] Instance same_core_trans : Transitive same_core.
Proof. intros a b c [K1 H1] [K2 H2]. split; [congruence|]. intros v. by rewrite H2. Qed.
#[export] Instance same_shape_refl : Reflexive same_shape.
Proof. intros a. done. Qed.
#[export] Instance same_shape_trans : Transitive same_shape.
Proof. intros a b c H1 H2 v. by rewrite H2. Qed.

(** [findLinkQuality] on the neighbours alone. *)
Definition index_of (x : Z) (ns : list Z) : option nat :=
  let i := match list_find (fun y => x <= y) ns with Some (i, _) => i | None => length ns end in
  match ns !! i with Some y => if y =? x then Some i else None | None => None end.

Lemma findLinkQuality_index x d : findLinkQuality x d = index_of x (neighbor <$> linklist d).
Proof.
  unfold findLinkQuality, lower_bound, index_of. rewrite list_find_fmap, length_fmap.
  assert (forall l, list_find ((fun y => x <= y) ∘ neighbor) l = list_find (fun q => x <= neighbor q) l) as ->.
  { intros l. apply list_find_ext. done. }
  destruct (list_find _ _) as [[i q]|]; cbn [prod_map fmap option_fmap option_map id]; by rewrite list_lookup_fmap; destruct (linklist d !! _).
Qed.

Lemma index_of_spec x ns i : sorted_ids ns -> index_of x ns = Some i <-> ns !! i = Some x.
Proof.
  intros Hs. unfold index_of. split.
  - destruct (ns !! _) as [y|] eqn:E; [|done]. destruct (Z.eqb_spec y x) as [->|]; [|done]. intros [= <-]. exact E.
  - intros Hi. assert (list_find (fun y => x <= y) ns = Some (i, x)) as ->; [|by rewrite Hi, Z.eqb_refl].
    apply list_find_Some. split; [done|]. split; [lia|]. intros j y Hj Hlt.
    pose proof (StronglySorted_lookup_2 Z.lt ns j i y x Hs Hlt Hj Hi). lia.
Qed.

Lemma index_of_None x ns : sorted_ids ns -> index_of x ns = None <-> x ∉ ns.
Proof.
  intros Hs. rewrite list_elem_of_lookup. destruct (index_of x ns) as [i|] eqn:E.
  - apply index_of_spec in E; [|done]. naive_solver.
  - split; [|done]. intros _ [i Hi]. by apply index_of_spec in Hi; [|done]; rewrite E in Hi.
Qed.

Lemma find_counterpart_eq x y a :
  find_counterpart x y a = (shape <$> al_find x a) ≫= fun gn => Lptr x gn.1 <$> index_of y gn.2.
Proof. unfold find_counterpart. destruct (al_find x a) as [d|]; [|done]. cbn. by rewrite findLinkQuality_index. Qed.

Lemma find_counterpart_shape x y a a' : same_shape a a' -> find_counterpart x y a' = find_counterpart x y a.
Proof. intros H. by rewrite !find_counterpart_eq, H. Qed.

(** ** Writing a link *)

Lemma link_at_ok v i d l a : al_find v a = Some d -> linklist d !! i = Some l -> link_at (Lptr v (generation d) i) a = Ok l.
Proof. intros Hd Hl. unfold link_at. cbn. rewrite Hd, Nat.eqb_refl, Hl. done. Qed.

Definition put_link (v : Z) (i : nat) (l : LinkQuality) (a : AdjList) : AdjList :=
  al_modify v (fun d => set_linklist (<[i := l]> (linklist d)) d) a.

Lemma link_modify_ok v i f d l a : al_find v a = Some d -> linklist d !! i = Some l ->
  link_modify (Lptr v (generation d) i) f a = Ok (put_link v i (f l) a).
Proof. intros Hd Hl. unfold link_modify. by rewrite (link_at_ok v i d l). Qed.

Lemma link_put v i l' a l w j : link a v i = Some l ->
  link (put_link v i l' a) w j = if decide (w = v /\ j = i) then Some l' else link a w j.
Proof.
  unfold link. intros Hl. unfold put_link. rewrite al_find_modify. destruct (decide (w = v)) as [->|Hw].
  - destruct (al_find v a) as [d|] eqn:Ed; [|done]. cbn in *. destruct (decide (j = i)) as [->|Hj].
    + rewrite decide_True by done. apply list_lookup_insert_eq. by eapply lookup_lt_Some.
    + rewrite decide_False by tauto. by apply list_lookup_insert_ne.
  - rewrite decide_False by tauto. done.
Qed.

Lemma put_core v i l l' a : link a v i = Some l -> neighbor l' = neighbor l -> quality l' = quality l ->
  same_core a (put_link v i l' a).
Proof.
  intros Hl Hn Hq. split; [apply al_keys_modify|]. intros w. unfold put_link. rewrite al_find_modify.
  case_decide as E; [subst w|done]. unfold link in Hl. destruct (al_find v a) as [d|]; [|done]. cbn in *. f_equal.
  unfold core. cbn. f_equal. f_equal. f_equal. f_equal. rewrite list_fmap_insert. apply list_insert_id.
  rewrite list_lookup_fmap, Hl. cbn. by rewrite Hn, Hq.
Qed.

(** A pointer that does not dangle, to a link from [w] to [x]. *)
Definition points (a : AdjList) (q : lptr) (w x : Z) : Prop :=
  exists d l, q = Lptr w (generation d) (p_idx q) /\ al_find w a = Some d /\ linklist d !! p_idx q = Some l /\ neighbor l = x.

Definition lists_sorted (a : AdjList) : Prop := forall v d, al_find v a = Some d -> sorted_ids (neighbor <$> linklist d).

Lemma lists_sorted_shape a a' : same_shape a a' -> lists_sorted a -> lists_sorted a'.
Proof.
  intros H Ha v d Hd. specialize (H v). rewrite Hd in H. destruct (al_find v a) as [e|] eqn:E; [|done].
  injection H as _ ->. by apply (Ha v).
Qed.

Lemma find_counterpart_points a x y q : lists_sorted a -> find_counterpart x y a = Some q <-> points a q x y.
Proof.
  intros Hs. rewrite find_counterpart_eq. unfold points. destruct (al_find x a) as [d|] eqn:E; cbn; [|naive_solver].
  specialize (Hs x d E). split.
  - intros (i & Hi & ->)%fmap_Some. apply index_of_spec in Hi; [|done]. rewrite list_lookup_fmap in Hi.
    apply fmap_Some in Hi as (l & Hl & ->). exists d, l. done.
  - intros (d' & l & Hq & [= <-] & Hl & <-). rewrite (proj2 (index_of_spec (neighbor l) (neighbor <$> linklist d) (p_idx q) Hs)).
    + cbn. by rewrite Hq at 2.
    + by rewrite list_lookup_fmap, Hl.
Qed.

Lemma find_counterpart_None a x y : lists_sorted a ->
  find_counterpart x y a = None <-> forall d, al_find x a = Some d -> y ∉ neighbor <$> linklist d.
Proof.
  intros Hs. rewrite find_counterpart_eq. destruct (al_find x a) as [d|] eqn:E; cbn; [|naive_solver].
  rewrite fmap_None. rewrite index_of_None by (by apply (Hs x)). naive_solver.
Qed.

Lemma points_link a q w x : points a q w x -> exists l, link a w (p_idx q) = Some l /\ neighbor l = x.
Proof. intros (d & l & _ & Hd & Hl & Hx). exists l. split; [|done]. unfold link. by rewrite Hd. Qed.

(** ** The operations on links

    [link_at] and [link_modify] through a pointer that does not dangle. *)

Lemma points_at a q w x : points a q w x -> exists l, link a w (p_idx q) = Some l /\ neighbor l = x /\
  link_at q a = Ok l /\ forall f, link_modify q f a = Ok (put_link w (p_idx q) (f l) a).
Proof.
  intros (d & l & Hq & Hd & Hl & Hx). exists l. split; [unfold link; by rewrite Hd|]. split; [done|].
  rewrite Hq. split; [by apply link_at_ok|]. intros f. by apply (link_modify_ok w _ f d l).
Qed.

Lemma points_core a a' q w x : same_core a a' -> points a q w x -> points a' q w x.
Proof.
  intros [_ H] (d & l & Hq & Hd & Hl & Hx). specialize (H w). rewrite Hd in H. destruct (al_find w a') as [d'|] eqn:Ed; [|done].
  cbn in H. injection H as Hg Hn _ _ _. apply (f_equal (lookup (p_idx q))) in Hn. rewrite !list_lookup_fmap, Hl in Hn.
  destruct (linklist d' !! p_idx q) as [l'|] eqn:E; [|done]. injection Hn as Hn _. exists d', l'.
  rewrite Hg. repeat split; congruence.
Qed.

(** [cp a w j]: the counterpart of a link, and its weight. *)
Definition cp (a : AdjList) (w : Z) (j : nat) : option (option lptr) := counterpart <$> link a w j.
Definition wt (a : AdjList) (w : Z) (j : nat) : option Z := metric_weight <$> link a w j.

(** The operations change counterparts or weights of the two ends only. *)
Definition at_ptr (q : lptr) (w : Z) (j : nat) : Prop := w = p_node q /\ j = p_idx q.
#[export] Instance at_ptr_dec q w j : Decision (at_ptr q w j).
Proof. unfold at_ptr. apply _. Defined.

Lemma points_node a q w x : points a q w x -> p_node q = w.
Proof. by intros (d & l & -> & _). Qed.

Lemma modify_ok a q w x f : points a q w x -> (forall l, neighbor (f l) = neighbor l /\ quality (f l) = quality l) ->
  exists a', link_modify q f a = Ok a' /\ same_core a a' /\
    forall v j, link a' v j = if decide (at_ptr q v j) then f <$> link a v j else link a v j.
Proof.
  intros Hq Hf. pose proof (points_node _ _ _ _ Hq) as Hw. destruct (points_at a q w x Hq) as (l & Hl & _ & _ & Hm).
  eexists. split; [apply Hm|]. split; [apply (put_core _ _ l); [done|apply Hf..]|].
  intros v j. rewrite (link_put _ _ _ _ l) by done. subst w.
  destruct (decide (v = p_node q /\ j = p_idx q)) as [[-> ->]|Hn]; case_decide as Ha; try done.
  - by rewrite Hl.
  - by destruct Ha.
Qed.

Lemma set_counterpart_ok a this u v lq :
  points a this u v -> (forall q, lq = Some q -> points a q v u) ->
  exists a', set_counterpart this lq a = Ok a' /\ same_core a a' /\
    (forall w j, wt a' w j = wt a w j) /\
    (forall w j l, link a w j = Some l -> cp a' w j =
       if decide (at_ptr this w j) then Some lq
       else match lq with Some q => if decide (at_ptr q w j) then Some (Some this) else cp a w j | None => cp a w j end).
Proof.
  intros Ht Hlq. unfold set_counterpart.
  assert (exists a1, match lq with Some q => link_modify q (set_counterpart_field (Some this)) a | None => Ok a end = Ok a1 /\
    same_core a a1 /\ (forall w j, wt a1 w j = wt a w j) /\
    forall w j l, link a w j = Some l -> cp a1 w j = match lq with Some q => if decide (at_ptr q w j) then Some (Some this) else cp a w j | None => cp a w j end)
    as (a1 & -> & C1 & W1 & L1).
  { destruct lq as [q|]; [|by exists a]. destruct (modify_ok a q v u (set_counterpart_field (Some this)) (Hlq q eq_refl)) as (a1 & E & C & L); [done|].
    exists a1. split; [done|]. split; [done|]. unfold wt, cp. split; intros w j; [|intros l Hl]; rewrite L; case_decide; try done.
    - by destruct (link a w j).
    - by rewrite Hl. }
  cbn. destruct (modify_ok a1 this u v (set_counterpart_field lq)) as (a2 & E & C & L); [by apply (points_core a)|done|].
  exists a2. split; [done|]. split; [by transitivity a1|]. split.
  - intros w j. rewrite <- W1. unfold wt. rewrite L. case_decide; [|done]. by destruct (link a1 w j).
  - intros w j l Hl. unfold cp in *. rewrite L. case_decide; [|by eapply L1].
    specialize (L1 w j l Hl). destruct (link a1 w j); [done|]. destruct lq; [case_decide|]; rewrite ?Hl in L1; done.
Qed.

(** The counterpart [lq] of the link at [this] from [u] to [v]. *)
Record joined (a : AdjList) (this : lptr) (u v : Z) (lq : option lptr) : Prop := {
  jn_this : points a this u v;
  jn_cp : cp a u (p_idx this) = Some lq;
  jn_lq : forall q, lq = Some q -> points a q v u;
}.

Definition at_end (this : lptr) (lq : option lptr) (w : Z) (j : nat) : Prop :=
  at_ptr this w j \/ exists q, lq = Some q /\ at_ptr q w j.

Lemma joined_at a this u v lq : joined a this u v lq ->
  exists l, link_at this a = Ok l /\ link a u (p_idx this) = Some l /\ neighbor l = v /\ counterpart l = lq.
Proof.
  intros [Ht Hc _]. destruct (points_at a this u v Ht) as (l & Hl & Hn & E & _). exists l.
  unfold cp in Hc. rewrite Hl in Hc. naive_solver.
Qed.

Lemma remove_reference_ok a this u v lq : joined a this u v lq ->
  exists a', remove_reference this a = Ok a' /\ same_core a a' /\ (forall w j, wt a' w j = wt a w j) /\
    forall w j l, link a w j = Some l ->
      (at_end this lq w j -> cp a' w j = Some None) /\ (~ at_end this lq w j -> cp a' w j = cp a w j).
Proof.
  intros J. pose proof J as [Ht Hc Hq]. destruct (joined_at _ _ _ _ _ J) as (l0 & E0 & Hl0 & _ & Hlq).
  unfold remove_reference. rewrite E0, outcome_ret_bind, Hlq. destruct lq as [q|].
  - destruct (modify_ok a q v u (set_counterpart_field None) (Hq q eq_refl)) as (a1 & E1 & C1 & L1); [done|].
    rewrite E1, outcome_ret_bind.
    destruct (modify_ok a1 this u v (set_counterpart_field None)) as (a2 & E2 & C2 & L2); [by apply (points_core a)|done|].
    exists a2. split; [done|]. split; [by transitivity a1|]. unfold wt, cp. split.
    + intros w j. rewrite L2, L1. repeat case_decide; try done; by destruct (link a w j).
    + intros w j l Hl. rewrite L2, L1, Hl. unfold at_end. repeat case_decide; naive_solver.
  - exists a. split; [done|]. split; [done|]. split; [done|]. intros w j l Hl. split; [|done].
    intros [[-> ->]|(q & [=] & _)]. by rewrite (points_node _ _ _ _ Ht).
Qed.

Definition weight_ok (w : Z) : Prop := 0 < w <= 4194303.

Section calculate.
Context `{Metric} (good : Z -> Prop).
Hypothesis metric_good : forall f b, good f -> good b -> exists w, my_calculate f b = Ok w /\ 0 < w.

Lemma calculate_ok a this u v lq : joined a this u v lq ->
  (forall w j l, link a w j = Some l -> good (quality l)) ->
  exists a', calculate this a = Ok a' /\ same_core a a' /\ (forall w j, cp a' w j = cp a w j) /\
    forall w j l, link a w j = Some l ->
      (at_end this lq w j -> exists x, wt a' w j = Some x /\ weight_ok x) /\ (~ at_end this lq w j -> wt a' w j = wt a w j).
Proof.
  intros J Hgood. pose proof J as [Ht Hc Hq]. destruct (joined_at _ _ _ _ _ J) as (l0 & E0 & Hl0 & _ & Hlq).
  unfold calculate, get_qualities. rewrite E0, outcome_ret_bind, Hlq.
  assert (exists w, (fb ← (match lq with Some q => b ← link_at q a; Ok (Some (quality l0, quality b)) | None => Ok None end);
            match fb with Some (f, b) => my_calculate f b | None => Ok uint32_max end) = Ok w /\ 0 < w) as (x & E & Hx).
  { destruct lq as [q|]; [|by exists uint32_max].
    destruct (points_at a q v u (Hq q eq_refl)) as (b & Hb & _ & -> & _).
    rewrite !outcome_ret_bind. apply metric_good; [by apply (Hgood u (p_idx this))|by apply (Hgood v (p_idx q))]. }
  assert (forall (m : outcome (option (Z * Z))) (f : option (Z * Z) -> outcome Z) (k : Z -> outcome AdjList),
    (fb ← m; w ← f fb; k w) = (w ← (fb ← m; f fb); k w)) as Hassoc by (intros [] ? ?; done).
  rewrite Hassoc, E, outcome_ret_bind. set (mw := Z.min x (uint32_max / 1024)).
  assert (weight_ok mw) as Hmw by (unfold weight_ok, mw; change (uint32_max / 1024) with 4194303; lia).
  unfold set_metric_weight.
  destruct (modify_ok a this u v (set_weight mw) Ht) as (a1 & E1 & C1 & L1); [done|]. rewrite E1, outcome_ret_bind.
  destruct (points_at a1 this u v) as (l1 & Hl1 & _ & -> & _); [by apply (points_core a)|]. rewrite outcome_ret_bind.
  assert (counterpart l1 = lq) as ->.
  { rewrite L1, Hl0 in Hl1. case_decide; injection Hl1 as <-; done. }
  destruct lq as [q|].
  - destruct (modify_ok a1 q v u (set_weight mw)) as (a2 & E2 & C2 & L2); [apply (points_core a); by auto|done|].
    exists a2. split; [done|]. split; [by transitivity a1|]. unfold wt, cp. split.
    + intros w j. rewrite L2, L1. repeat case_decide; try done; by destruct (link a w j).
    + intros w j l Hl. rewrite L2, L1, Hl. unfold at_end. repeat case_decide; naive_solver.
  - exists a1. split; [done|]. split; [done|]. unfold wt, cp. split.
    + intros w j. rewrite L1. repeat case_decide; try done; by destruct (link a w j).
    + intros w j l Hl. rewrite L1, Hl. unfold at_end. repeat case_decide; naive_solver.
Qed.
End calculate.

(** ** The invariant

    The nodes and the links of a node are sorted; every counterpart is what
    [find_counterpart] finds, except for the links [E]; weights are within their bounds,
    except for the links [W]; qualities are good, and no links outlive their node. *)

Definition pairs (ll : list LinkQuality) : list (Z * Z) := (fun l => (neighbor l, quality l)) <$> ll.
Definition ends (ll : list LinkQuality) : list Z := neighbor <$> ll.

(** The neighbours of a station with the qualities of the links. *)
Definition edges (a : AdjList) (v : Z) : list (Z * Z) :=
  match al_find v a with Some d => pairs (linklist d) | None => [] end.

Lemma pairs_ends ll : (pairs ll).*1 = ends ll.
Proof. unfold pairs, ends. by rewrite <- list_fmap_compose. Qed.

Lemma core_inv d d' : core <$> Some d' = core <$> Some d -> core d' = core d.
Proof. intros H. change (Some (core d') = Some (core d)) in H. congruence. Qed.

Lemma same_core_edges a a' v : same_core a a' -> edges a' v = edges a v.
Proof.
  intros [_ H]. specialize (H v). unfold edges. destruct (al_find v a') as [d'|], (al_find v a) as [d|]; try done.
  assert (core d' = core d) as E by (by apply core_inv). unfold core in E. by injection E.
Qed.

Section inv.
Variable good : Z -> Prop.

Record graph_inv (a : AdjList) (E : Z -> nat -> Z -> Prop) (W : Z -> nat -> Prop) : Prop := {
  gi_keys : keys_sorted a;
  gi_lists : lists_sorted a;
  gi_cp : forall v i l, link a v i = Some l -> ~ E v i (neighbor l) -> counterpart l = find_counterpart (neighbor l) v a;
  gi_wt : forall v i l, link a v i = Some l -> ~ W v i -> weight_ok (metric_weight l);
  gi_good : forall v i l, link a v i = Some l -> good (quality l);
  gi_valid : forall v d, al_find v a = Some d -> edgeValidity d <= nodeValidity d;
}.

Definition nolink (v : Z) (i : nat) (x : Z) : Prop := False.
Definition noweight (v : Z) (i : nat) : Prop := False.

(** ** Changes that keep the links *)

Definition same_links (a a' : AdjList) : Prop :=
  forall v, (fun d => (generation d, linklist d)) <$> al_find v a' = (fun d => (generation d, linklist d)) <$> al_find v a.

Lemma same_links_link a a' v i : same_links a a' -> link a' v i = link a v i.
Proof.
  intros H. specialize (H v). unfold link. destruct (al_find v a') as [d'|], (al_find v a) as [d|]; try done.
  injection H as _ H. cbn. by rewrite H.
Qed.

Lemma same_links_shape a a' : same_links a a' -> same_shape a a'.
Proof.
  intros H v. specialize (H v). unfold shape. destruct (al_find v a') as [d'|], (al_find v a) as [d|]; try done.
  injection H as Hg H. cbn. by rewrite Hg, H.
Qed.

Lemma same_links_edges a a' v : same_links a a' -> edges a' v = edges a v.
Proof.
  intros H. specialize (H v). unfold edges. destruct (al_find v a') as [d'|], (al_find v a) as [d|]; try done.
  injection H as _ H. by rewrite H.
Qed.

Lemma graph_inv_same_links a a' E W : same_links a a' -> keys_sorted a' ->
  (forall v d, al_find v a' = Some d -> edgeValidity d <= nodeValidity d) -> graph_inv a E W -> graph_inv a' E W.
Proof.
  intros H Hk Hv I. pose proof (same_links_shape _ _ H) as Hs. split; [done|by apply (lists_sorted_shape a), I| | | |done].
  - intros v i l. rewrite (same_links_link _ _ _ _ H), (find_counterpart_shape _ _ _ _ Hs). apply I.
  - intros v i l. rewrite (same_links_link _ _ _ _ H). apply I.
  - intros v i l. rewrite (same_links_link _ _ _ _ H). apply I.
Qed.

(** [getNodeEntry] *)
Definition add_node (x v : Z) (a : AdjList) : AdjList :=
  match al_find x a with Some _ => a | None => al_insert x (set_validity v v NDescr_new) a end.

Lemma al_find_add x v a y : al_find y (add_node x v a) =
  match al_find y a with Some d => Some d | None => if decide (y = x) then Some (set_validity v v NDescr_new) else None end.
Proof.
  unfold add_node. destruct (al_find x a) as [d|] eqn:E.
  - destruct (al_find y a) eqn:F; [done|]. case_decide; [congruence|done].
  - rewrite al_find_insert by done. case_decide as D; [by subst; rewrite E|by destruct (al_find y a)].
Qed.

Lemma add_node_link x v a w i : link (add_node x v a) w i = link a w i.
Proof. unfold link. rewrite al_find_add. destruct (al_find w a); [done|]. by case_decide. Qed.

Lemma add_node_edges x v a w : edges (add_node x v a) w = edges a w.
Proof. unfold edges. rewrite al_find_add. destruct (al_find w a); [done|]. by case_decide. Qed.

Lemma add_node_find_counterpart x v a y z : find_counterpart y z (add_node x v a) = find_counterpart y z a.
Proof. rewrite !find_counterpart_eq, al_find_add. destruct (al_find y a); [done|]. by case_decide. Qed.

Lemma add_node_keys x v a y : y ∈ (add_node x v a).*1 <-> y = x \/ y ∈ a.*1.
Proof.
  rewrite <- !al_find_is_Some, al_find_add. destruct (al_find y a) as [d|] eqn:E.
  - split; [|by eexists]. intros _. right. by eexists.
  - case_decide; [split; [by left|by eexists]|]. split; [by intros []|]. intros [|[]]; done.
Qed.

Lemma graph_inv_add x v a E W : graph_inv a E W -> graph_inv (add_node x v a) E W.
Proof.
  intros I. split.
  - unfold add_node. destruct (al_find x a) eqn:F; [apply I|]. apply keys_sorted_insert; [apply I|done].
  - intros w d. rewrite al_find_add. destruct (al_find w a) eqn:F; [intros [= <-]; by apply (gi_lists _ _ _ I w)|].
    case_decide; [|done]. intros [= <-]. constructor.
  - intros w i l. rewrite add_node_link, add_node_find_counterpart. apply I.
  - intros w i l. rewrite add_node_link. apply I.
  - intros w i l. rewrite add_node_link. apply I.
  - intros w d. rewrite al_find_add. destruct (al_find w a) eqn:F; [intros [= <-]; by apply (gi_valid _ _ _ I w)|].
    case_decide; [|done]. intros [= <-]. done.
Qed.

(** A modification of a node that keeps its links. *)
Definition links_kept (f : NDescr -> NDescr) : Prop := forall d, generation (f d) = generation d /\ linklist (f d) = linklist d.

Lemma modify_same_links x f a : links_kept f -> same_links a (al_modify x f a).
Proof.
  intros Hf v. rewrite al_find_modify. case_decide; [|done]. subst. destruct (al_find x a) as [d|]; [|done].
  cbn. by destruct (Hf d) as [-> ->].
Qed.

Lemma graph_inv_modify x f a E W : links_kept f -> (forall d, edgeValidity d <= nodeValidity d -> edgeValidity (f d) <= nodeValidity (f d)) ->
  graph_inv a E W -> graph_inv (al_modify x f a) E W.
Proof.
  intros Hf Hv I. apply (graph_inv_same_links a); [by apply modify_same_links| | |done].
  - unfold keys_sorted. rewrite al_keys_modify. apply I.
  - intros v d. rewrite al_find_modify. case_decide; [|apply I]. subst. intros (e & He & ->)%fmap_Some. by apply Hv, (gi_valid _ _ _ I x).
Qed.

Lemma update_nodeValidity_kept nv : links_kept (update_nodeValidity nv).
Proof. intros d. unfold update_nodeValidity. by destruct (_ <? _). Qed.

Lemma update_nodeValidity_raises nv d : edgeValidity (update_nodeValidity nv d) = edgeValidity d /\ nodeValidity d <= nodeValidity (update_nodeValidity nv d).
Proof. unfold update_nodeValidity. destruct (Z.ltb_spec (nodeValidity d) nv); cbn; lia. Qed.

Lemma update_nodeValidity_valid nv d : edgeValidity d <= nodeValidity d -> edgeValidity (update_nodeValidity nv d) <= nodeValidity (update_nodeValidity nv d).
Proof. intros Hd. unfold update_nodeValidity. destruct (Z.ltb_spec (nodeValidity d) nv); cbn; lia. Qed.

(** Changes of counterparts and weights. *)
Lemma same_core_valid a a' : same_core a a' ->
  (forall v d, al_find v a = Some d -> edgeValidity d <= nodeValidity d) -> forall v d, al_find v a' = Some d -> edgeValidity d <= nodeValidity d.
Proof.
  intros [_ H] Hv v d Hd. specialize (H v). rewrite Hd in H. destruct (al_find v a) as [e|] eqn:F; [|done].
  assert (core d = core e) as C by (by apply core_inv). unfold core in C. injection C as _ _ -> -> _. by apply (Hv v).
Qed.

Lemma same_core_link a a' v i l : same_core a a' -> link a' v i = Some l ->
  exists l0, link a v i = Some l0 /\ neighbor l0 = neighbor l /\ quality l0 = quality l.
Proof.
  intros [_ H]. specialize (H v). unfold link. destruct (al_find v a') as [d'|]; [|done].
  destruct (al_find v a) as [d|] eqn:E; [|done]. intros Hl. cbn in Hl.
  assert (core d' = core d) as C by (by apply core_inv). unfold core in C. injection C as _ C _ _ _.
  apply (f_equal (lookup i)) in C. rewrite !list_lookup_fmap, Hl in C. cbn. destruct (linklist d !! i) as [l0|]; [|done].
  injection C as -> ->. by exists l0.
Qed.

Lemma graph_inv_core a a' E W E' W' : same_core a a' -> graph_inv a E W ->
  (forall v i l, link a' v i = Some l -> ~ E' v i (neighbor l) -> counterpart l = find_counterpart (neighbor l) v a) ->
  (forall v i l, link a' v i = Some l -> ~ W' v i -> weight_ok (metric_weight l)) -> graph_inv a' E' W'.
Proof.
  intros H I Hc Hw. pose proof (same_core_shape _ _ H) as Hs. split.
  - unfold keys_sorted. rewrite (proj1 H). apply I.
  - by apply (lists_sorted_shape a), I.
  - intros v i l. rewrite (find_counterpart_shape _ _ _ _ Hs). apply Hc.
  - done.
  - intros v i l Hl. destruct (same_core_link _ _ _ _ _ H Hl) as (l0 & H0 & _ & <-). by apply (gi_good _ _ _ I v i).
  - eapply same_core_valid; [exact H|apply I].
Qed.
End inv.

(** ** The comparison of the new with the old links of a station

    [done] are the new links that are connected, [new] and [old] those that are still to be
    looked at.  The only pointers that may dangle are those of the stations in [new] and
    [old] to this one. *)

Section merge.
Context `{Metric} (good : Z -> Prop).
Hypothesis metric_good : forall f b, good f -> good b -> exists w, my_calculate f b = Ok w /\ 0 < w.

Section walk.
Variables (V : Z -> Prop) (src : Z) (g : nat) (nv : Z) (a0 : AdjList).
Abbreviation inv := (graph_inv good).

Definition open_link (i : nat) (new old : list LinkQuality) (v : Z) (j : nat) (x : Z) : Prop :=
  (v = src /\ (i <= j)%nat) \/ (x = src /\ v ∈ ends new ++ ends old).
Definition open_weight (i : nat) (v : Z) (j : nat) : Prop := v = src /\ (i <= j)%nat.

(** The sender, with its new validity and the links [ps]. *)
Definition sender (ps : list (Z * Z)) (a : AdjList) : Prop := exists d, al_find src a = Some d /\ generation d = g /\
  pairs (linklist d) = ps /\ edgeValidity d = nv /\ nv <= nodeValidity d.
(** Another station: its links stay, and it may live longer. *)
Definition kept (a : AdjList) (v : Z) : Prop := edges a v = edges a0 v /\
  forall d0, al_find v a0 = Some d0 -> exists d, al_find v a = Some d /\ edgeValidity d = edgeValidity d0 /\ nodeValidity d0 <= nodeValidity d.

Lemma sender_core ps a a' : same_core a a' -> sender ps a -> sender ps a'.
Proof.
  intros [_ C] (d & Hd & Hg & E & Ev & Nv). specialize (C src). rewrite Hd in C. destruct (al_find src a') as [d'|] eqn:Ed; [|done].
  assert (core d' = core d) as Ec by (by apply core_inv). unfold core in Ec. injection Ec as E1 E2 E3 E4 _.
  exists d'. unfold pairs in *. split_and!; congruence.
Qed.

Lemma kept_core a a' v : same_core a a' -> kept a v -> kept a' v.
Proof.
  intros C [He Hd]. split; [by rewrite (same_core_edges a)|]. intros d0 (d & Ed & Ev & Nv)%Hd.
  destruct C as [_ C]. specialize (C v). rewrite Ed in C. destruct (al_find v a') as [d'|]; [|done].
  assert (core d' = core d) as Ec by (by apply core_inv). unfold core in Ec. injection Ec as _ _ E3 E4 _.
  exists d'. split_and!; [done|congruence|congruence].
Qed.

(** The first [w] links of [src] have their weight; [V] are all stations that are heard of. *)
Record merging (w : nat) (done : list (Z * Z)) (new old : list LinkQuality) (a : AdjList) : Prop := {
  mg_inv : inv a (open_link (length done) new old) (open_weight w);
  mg_src : sender (done ++ pairs new) a;
  mg_front : forall x y, x ∈ done.*1 -> y ∈ ends new ++ ends old -> x < y;
  mg_new : sorted_ids (ends new);
  mg_old : sorted_ids (ends old);
  mg_edges : forall v, v <> src -> kept a v;
  mg_known : forall v, v ∈ a.*1 \/ v ∈ ends new ++ ends old -> V v;
}.

Lemma merging_edges w done new old a : merging w done new old a -> edges a src = done ++ pairs new.
Proof. intros [_ (d & Hd & _ & E & _) _ _ _ _ _]. unfold edges. by rewrite Hd. Qed.

Lemma merging_gen w done new old a : merging w done new old a -> generation <$> al_find src a = Some g.
Proof. intros [_ (d & Hd & Hg & _) _ _ _ _ _]. by rewrite Hd, <- Hg. Qed.

(** Changes of the adjacency list that do not concern the links. *)
Lemma merging_add x v w done new old a : V x -> merging w done new old a -> merging w done new old (add_node x v a).
Proof.
  intros Vx [I (d & Hd & Hg) F N O X Kn]. split; try done.
  - by apply graph_inv_add.
  - exists d. by rewrite al_find_add, Hd.
  - intros y Hy. destruct (X y Hy) as [Xe Xd]. split; [by rewrite add_node_edges|]. intros d0 (d' & Hd' & Hv)%Xd.
    exists d'. by rewrite al_find_add, Hd'.
  - intros y [[->|Hy]%add_node_keys|Hy]; auto.
Qed.

Lemma merging_modify x f w done new old a : links_kept f ->
  (forall d, edgeValidity (f d) = edgeValidity d /\ nodeValidity d <= nodeValidity (f d)) ->
  merging w done new old a -> merging w done new old (al_modify x f a).
Proof.
  intros Hf Hv [I (d & Hd & Hg & E & Ev & Nv) F N O X Kn]. pose proof (modify_same_links x f a Hf) as S. split; try done.
  - apply graph_inv_modify; [done| |done]. intros e. destruct (Hv e) as [-> ?]. lia.
  - unfold sender. rewrite al_find_modify. case_decide as D; rewrite Hd; [|by exists d].
    exists (f d). destruct (Hf d) as [-> ->], (Hv d) as [-> ?]. split_and!; try done. lia.
  - intros y Hy. destruct (X y Hy) as [Xe Xd]. split; [by rewrite (same_links_edges a)|]. intros d0 (d' & Hd' & Hev & Hnv)%Xd.
    rewrite al_find_modify. case_decide as D; rewrite Hd'; [|by exists d'].
    exists (f d'). destruct (Hv d') as [-> ?]. split_and!; try done. lia.
  - intros y. rewrite al_keys_modify. apply Kn.
Qed.

(** The link [i] of [src]. *)
Lemma merging_points w done n new old a : merging w done (n :: new) old a ->
  points a (Lptr src g (length done)) src (neighbor n).
Proof.
  intros [_ (d & Hd & Hg & E & _) _ _ _ _ _].
  assert (pairs (linklist d) !! length done = Some (neighbor n, quality n)) as L.
  { rewrite E. rewrite lookup_app_r by lia. by rewrite Nat.sub_diag. }
  unfold pairs in L. rewrite list_lookup_fmap in L. apply fmap_Some in L as (l & Hl & [= En _]).
  exists d, l. subst g. done.
Qed.

Lemma unique_points a q w x j l : lists_sorted a -> points a q w x -> link a w j = Some l -> neighbor l = x -> at_ptr q w j.
Proof.
  intros Hs Hq Hl Hx. pose proof (points_node _ _ _ _ Hq) as Hw. destruct Hq as (d & l' & _ & Hd & Hl' & Hx').
  unfold link in Hl. rewrite Hd in Hl. cbn in Hl. specialize (Hs w d Hd). split; [done|].
  assert ((neighbor <$> linklist d) !! j = Some x) as A by (by rewrite list_lookup_fmap, Hl; cbn; rewrite Hx).
  assert ((neighbor <$> linklist d) !! p_idx q = Some x) as B by (by rewrite list_lookup_fmap, Hl'; cbn; rewrite Hx').
  destruct (Nat.lt_trichotomy j (p_idx q)) as [L|[?|L]]; [|done|].
  - pose proof (StronglySorted_lookup_2 Z.lt _ _ _ _ _ Hs L A B). lia.
  - pose proof (StronglySorted_lookup_2 Z.lt _ _ _ _ _ Hs L B A). lia.
Qed.

Lemma src_index w done new old a j l : merging w done new old a -> link a src j = Some l -> (j < length done)%nat -> neighbor l ∈ done.*1.
Proof.
  intros [_ (d & Hd & _ & E & _) _ _ _ _ _] Hl Hj. unfold link in Hl. rewrite Hd in Hl. cbn in Hl.
  apply (f_equal (lookup j)) in E. unfold pairs in E. rewrite lookup_app_l, list_lookup_fmap, Hl in E by done.
  apply list_elem_of_fmap. exists (neighbor l, quality l). split; [done|]. symmetry in E. by eapply list_elem_of_lookup_2.
Qed.

(** *** A new or a kept link is connected. *)

Lemma merging_connect done n new old old' a :
  merging (length done) done (n :: new) old a ->
  (forall y, y ∈ ends old -> y = neighbor n \/ y ∈ ends old') -> sorted_ids (ends old') ->
  (forall y, y ∈ ends old' -> y ∈ ends old /\ neighbor n < y) ->
  exists a', set_counterpart (Lptr src g (length done)) (find_counterpart (neighbor n) src a) a = Ok a' /\
    a'.*1 = a.*1 /\
    merging (length done) (done ++ [(neighbor n, quality n)]) new old' a' /\
    joined a' (Lptr src g (length done)) src (neighbor n) (find_counterpart (neighbor n) src a).
Proof.
  intros M Hold Hs Hold'. set (this := Lptr src g (length done)). set (nb := neighbor n).
  set (lq := find_counterpart nb src a). pose proof (merging_points _ _ _ _ _ _ M) as Ht. fold this nb in Ht.
  pose proof M as [I Sd F N O X Kn]. pose proof (gi_lists _ _ _ _ I) as Hls.
  assert (forall q, lq = Some q -> points a q nb src) as Hq by (intros q; by apply find_counterpart_points).
  destruct (set_counterpart_ok a this src nb lq Ht Hq) as (a' & Ea & C & Wt & Cp).
  exists a'. split; [done|]. split; [apply C|]. pose proof (same_core_shape _ _ C) as Sh.
  assert (points a' this src nb) as Ht' by (by apply (points_core a)).
  apply StronglySorted_inv in N as [N Nn]. rewrite Forall_forall in Nn.
  assert (sorted_ids (ends new)) as N' by done.
  assert (forall y, y ∈ ends new ++ ends old' -> nb < y) as Hfront.
  { intros y. rewrite elem_of_app. intros [Hy|Hy]; [by apply Nn|by apply Hold']. }
  split; [split|split].
  - rewrite length_app. cbn [length]. apply (graph_inv_core good a a' _ _ _ _ C I).
    + intros v j l Hl HE. destruct (same_core_link _ _ _ _ _ C Hl) as (l0 & Hl0 & En & _).
      specialize (Cp v j l0 Hl0). unfold cp in Cp. rewrite Hl, Hl0 in Cp. cbn in Cp.
      assert (is_Some (link a v j)) as Hsome by (by eexists).
      case_decide as D1.
      { destruct D1 as [-> ->]. injection Cp as ->. destruct (points_link _ _ _ _ Ht) as (l1 & Hl1 & E1).
        cbn in Hl0, Hl1. rewrite Hl0 in Hl1. injection Hl1 as <-. by rewrite <- En, E1. }
      assert (counterpart l0 = find_counterpart (neighbor l) v a \/ exists q, lq = Some q /\ at_ptr q v j) as Hc.
      { rewrite <- En in HE |- *. destruct (decide (neighbor l0 = src /\ v = nb)) as [[E1 ->]|Hno].
        - right. destruct lq as [q|] eqn:El.
          + exists q. split; [done|]. by eapply unique_points; [exact Hls|by apply Hq|exact Hl0|exact E1].
          + exfalso. unfold link in Hl0. destruct (al_find nb a) as [e|] eqn:Ee; [|done].
            apply (proj1 (find_counterpart_None a nb src Hls) El e Ee). apply list_elem_of_fmap. exists l0. split; [by rewrite E1|].
            by eapply list_elem_of_lookup_2.
        - left. apply (gi_cp _ _ _ _ I v j l0 Hl0). intros [[-> Hj]|[E1 Hv]].
          + apply D1. split; [done|]. cbn. destruct (decide (j = length done)) as [|Hne]; [done|]. exfalso. apply HE. left. split; [done|lia].
          + apply HE. right. split; [done|]. cbn [ends fmap list_fmap app] in Hv. apply elem_of_cons in Hv as [->|Hv]; [by exfalso; apply Hno|].
            apply elem_of_app in Hv as [Hv|Hv]; apply elem_of_app; [by left|]. right.
            destruct (Hold v Hv) as [->|]; [by exfalso; apply Hno|done]. }
      destruct lq as [q|]; [case_decide as D2|].
      * injection Cp as ->. pose proof D2 as [Ev Ej]. pose proof (points_node _ _ _ _ (Hq q eq_refl)) as Ew. rewrite Ew in Ev. subst v j.
        destruct (points_link _ _ _ _ (Hq q eq_refl)) as (l1 & Hl1 & E1). rewrite Hl0 in Hl1. injection Hl1 as <-.
        rewrite <- En, E1. symmetry. by apply find_counterpart_points.
      * injection Cp as ->. destruct Hc as [Hc|(q' & Eq' & D3)]; [done|]. by injection Eq' as <-.
      * injection Cp as ->. destruct Hc as [Hc|(q' & Eq' & _)]; done.
    + intros v j l Hl Hw. destruct (same_core_link _ _ _ _ _ C Hl) as (l0 & Hl0 & _ & _).
      specialize (Wt v j). unfold wt in Wt. rewrite Hl, Hl0 in Wt. injection Wt as ->. by apply (gi_wt _ _ _ _ I v j).
  - apply (sender_core _ a); [done|]. by rewrite <- app_assoc.
  - intros x y. rewrite fmap_app. cbn. rewrite elem_of_app, list_elem_of_singleton. intros [Hx| ->] Hy; [|by apply Hfront].
    apply F; [done|]. cbn [ends fmap list_fmap app]. rewrite elem_of_cons. rewrite elem_of_app in *. right.
    destruct Hy as [Hy|Hy]; [by left|right; by apply Hold'].
  - done.
  - done.
  - intros v Hv. apply (kept_core a); auto.
  - intros v. rewrite (proj1 C). rewrite elem_of_app. intros [Hv|[Hv|Hv]]; apply Kn; [by left|right..];
      cbn [ends fmap list_fmap app]; rewrite elem_of_cons, elem_of_app; [tauto|right; right; by apply Hold'].
  - done.
  - destruct (points_link _ _ _ _ Ht) as (l1 & Hl1 & _). rewrite (Cp _ _ _ Hl1). by rewrite decide_True.
  - intros q Eq. apply (points_core a); auto.
Qed.
(** *** Its weight is computed. *)

Lemma merging_calculate done x new old lq a :
  merging (length done) (done ++ [x]) new old a -> joined a (Lptr src g (length done)) src x.1 lq ->
  exists a', calculate (Lptr src g (length done)) a = Ok a' /\ a'.*1 = a.*1 /\ merging (length (done ++ [x])) (done ++ [x]) new old a'.
Proof.
  intros [I Sd F N O X Kn] J. set (this := Lptr _ _ _) in *.
  destruct (calculate_ok good metric_good a this src x.1 lq J) as (a' & Ea & C & Cp & Wt).
  { intros w j l. apply I. }
  exists a'. split; [done|]. split; [apply C|]. split; try done.
  - apply (graph_inv_core good a a' _ _ _ _ C I).
    + intros v j l Hl HE. destruct (same_core_link _ _ _ _ _ C Hl) as (l0 & Hl0 & En & _).
      specialize (Cp v j). unfold cp in Cp. rewrite Hl, Hl0 in Cp. injection Cp as ->. rewrite <- En in *. by apply (gi_cp _ _ _ _ I v j).
    + intros v j l Hl Hw. destruct (same_core_link _ _ _ _ _ C Hl) as (l0 & Hl0 & _ & _).
      destruct (Wt v j l0 Hl0) as [W1 W2]. unfold wt in W1, W2. rewrite Hl in W1. rewrite Hl, Hl0 in W2.
      assert (at_end this lq v j \/ ~ at_end this lq v j) as [D|D].
      { unfold at_end. destruct (decide (at_ptr this v j)); [tauto|]. destruct lq as [q|]; [destruct (decide (at_ptr q v j))|]; naive_solver. }
      * destruct (W1 D) as (y & [= ->] & Hy). exact Hy.
      * specialize (W2 D). injection W2 as ->. apply (gi_wt _ _ _ _ I v j); [done|]. intros [-> Hj]. apply Hw. split; [done|].
        rewrite length_app. cbn. destruct (decide (j = length done)) as [->|]; [|lia]. exfalso. apply D. left. done.
  - by apply (sender_core _ a).
  - intros v Hv. apply (kept_core a); auto.
  - intros v. rewrite (proj1 C). apply Kn.
Qed.

(** *** An old link has gone. *)

Lemma merging_remove done new o old a :
  merging (length done) done new (o :: old) a -> (forall y, y ∈ ends new -> neighbor o < y) ->
  exists a', match find_counterpart (neighbor o) src a with Some q => set_counterpart q None a | None => Ok a end = Ok a' /\
    a'.*1 = a.*1 /\ merging (length done) done new old a'.
Proof.
  intros [I Sd F N O X Kn] Hlt. pose proof Sd as (d & Hd & Hg & E & _). set (nb := neighbor o) in *. pose proof (gi_lists _ _ _ _ I) as Hls.
  cbn [ends fmap list_fmap] in O. apply StronglySorted_inv in O as [O On].
  assert (nb ∉ ends (linklist d)) as Hnot.
  { rewrite <- pairs_ends, E, fmap_app, pairs_ends, elem_of_app. intros [Hin|Hin].
    - specialize (F nb nb Hin). rewrite elem_of_app in F. cbn in F. specialize (F (or_intror (list_elem_of_here _ _))). lia.
    - specialize (Hlt nb Hin). lia. }
  assert (find_counterpart src nb a = None) as Hnone.
  { apply find_counterpart_None; [done|]. intros e He. rewrite Hd in He. injection He as <-. exact Hnot. }
  assert (forall x y, x ∈ done.*1 -> y ∈ ends new ++ ends old -> x < y) as F'.
  { intros x y Hx Hy. apply F; [done|]. cbn [ends fmap list_fmap]. rewrite elem_of_app in *. rewrite elem_of_cons. tauto. }
  assert (forall v, v ∈ a.*1 \/ v ∈ ends new ++ ends old -> V v) as Kn'.
  { intros v [Hv|Hv]; apply Kn; [by left|right]. cbn [ends fmap list_fmap]. rewrite elem_of_app in *. rewrite elem_of_cons. tauto. }
  assert (forall v j l0, link a v j = Some l0 -> ~ open_link (length done) new old v j (neighbor l0) ->
    counterpart l0 = find_counterpart (neighbor l0) v a \/ (neighbor l0 = src /\ v = nb)) as Hc.
  { intros v j l0 Hl0 HE. destruct (decide (neighbor l0 = src /\ v = nb)) as [|Hno]; [by right|left].
    apply (gi_cp _ _ _ _ I v j l0 Hl0). intros [?|[E1 Hv]]; apply HE; [by left|right]. split; [done|].
    rewrite elem_of_app in *. cbn [ends fmap list_fmap] in Hv. rewrite elem_of_cons in Hv. naive_solver. }
  destruct (find_counterpart nb src a) as [q|] eqn:Eq.
  - apply find_counterpart_points in Eq; [|done].
    destruct (set_counterpart_ok a q nb src None Eq) as (a' & Ea & C & Wt & Cp); [done|].
    exists a'. split; [done|]. split; [apply C|]. split; try done.
    + apply (graph_inv_core good a a' _ _ _ _ C I).
      * intros v j l Hl HE. destruct (same_core_link _ _ _ _ _ C Hl) as (l0 & Hl0 & En & _).
        specialize (Cp v j l0 Hl0). unfold cp in Cp. rewrite Hl, Hl0 in Cp. cbn in Cp. rewrite <- En in *.
        assert (neighbor l0 = src /\ v = nb <-> at_ptr q v j) as Hat.
        { split; [intros [E1 ->]; by eapply unique_points|]. intros [Ev ->]. rewrite (points_node _ _ _ _ Eq) in Ev. subst v.
          destruct (points_link _ _ _ _ Eq) as (l1 & Hl1 & E1). rewrite Hl0 in Hl1. by injection Hl1 as <-. }
        case_decide as D; injection Cp as ->.
        -- destruct (proj2 Hat D) as [-> ->]. done.
        -- destruct (Hc v j l0 Hl0 HE) as [?|?%Hat]; done.
      * intros v j l Hl Hw. destruct (same_core_link _ _ _ _ _ C Hl) as (l0 & Hl0 & _ & _).
        specialize (Wt v j). unfold wt in Wt. rewrite Hl, Hl0 in Wt. injection Wt as ->. by apply (gi_wt _ _ _ _ I v j).
    + by apply (sender_core _ a).
    + intros v Hv. apply (kept_core a); auto.
    + intros v. rewrite (proj1 C). apply Kn'.
  - exists a. split; [done|]. split; [done|]. split; try done.
    apply (graph_inv_core good a a _ _ _ _ (reflexivity a) I).
    + intros v j l Hl HE. destruct (Hc v j l Hl HE) as [?|[E1 ->]]; [done|]. exfalso.
      unfold link in Hl. destruct (al_find nb a) as [e|] eqn:Ee; [|done].
      apply (proj1 (find_counterpart_None a nb src Hls) Eq e Ee). apply list_elem_of_fmap. exists l. split; [by rewrite E1|].
      by eapply list_elem_of_lookup_2.
    + intros v j l Hl Hw. by apply (gi_wt _ _ _ _ I v j).
Qed.
End walk.
End merge.
