(* ===== verification/GraphThms.v ===== *)
(** * The topology follows the topology packets

    [RTopology::feed], [removeOldNodes] and [updateTopology] keep the invariant of the
    topology: no pointer between links dangles, and what an observer has been told of
    nodes and links is what the topology holds. *)

From S2P Require Import Prelude Bytes NodeId Packet Neighbors NeighborThms Topology RoutesThms LinkGraph.

(** ** An observer

    The nodes and the links an observer knows, after an event. *)

Definition observer : Type := gset Z * gset (Z * Z).
Definition observe (e : tevent) (o : observer) : observer :=
  match e with
  | NodeAdded x => ({[ x ]} ∪ o.1, o.2)
  | NodeRemoved x => (o.1 ∖ {[ x ]}, o.2)
  | LinkAdded u v => (o.1, {[ (u, v) ]} ∪ o.2)
  | LinkRemoved u v => (o.1, o.2 ∖ {[ (u, v) ]})
  | _ => o
  end.

Section topology.
Context `{Gea, Metric, StdSort} (good : Z -> Prop).
Hypothesis metric_good : forall f b, good f -> good b -> exists w, my_calculate f b = Ok w /\ 0 < w.
(** What the observer knew before the first event. *)
Variable o0 : observer.

Definition view (s : RTopology) : observer := foldr observe o0 (events s).
Definition watched (s : RTopology) : bool := has_xml s || has_linkObserver s.
Definition knows_nodes (s : RTopology) : Prop := forall v, v ∈ (view s).1 <-> v ∈ (adjList s).*1.

Record topo_inv (s : RTopology) : Prop := {
  ti_graph : graph_inv good (adjList s) nolink noweight;
  ti_nodes : knows_nodes s;
  ti_links : watched s = true -> forall u v, (u, v) ∈ (view s).2 <-> v ∈ (edges (adjList s) u).*1;
}.

(** What no operation changes. *)
Definition same_rest (s s' : RTopology) : Prop :=
  myNodeId s' = myNodeId s /\ locked s' = locked s /\ has_xml s' = has_xml s /\
  has_linkObserver s' = has_linkObserver s /\ has_kernel s' = has_kernel s.
#[export] Instance same_rest_refl : Reflexive same_rest.
Proof. by intros s. Qed.
#[export] Instance same_rest_trans : Transitive same_rest.
Proof. unfold same_rest. intros a b c. naive_solver congruence. Qed.

Lemma same_rest_adj a s s' : same_rest (set_adj a s) s' -> same_rest s s'.
Proof. done. Qed.

Lemma on_adj_ok f s a : f (adjList s) = Ok a -> on_adj f s = Ok (tt, set_adj a s).
Proof. intros E. unfold on_adj, gets, lift, modify, mbind, M_bind. by rewrite E. Qed.

(** ** [getNodeEntry] *)

Definition entered (x t : Z) (s : RTopology) : RTopology :=
  match al_find x (adjList s) with
  | Some _ => s
  | None => set_events (NodeAdded x :: NodesChanged :: events s) (set_adj (add_node x (t + duration 1 10) (adjList s)) s)
  end.

Lemma getNodeEntry_ok x t s : getNodeEntry x t s = Ok (tt, entered x t s).
Proof.
  unfold getNodeEntry, entered, add_node. mprim. destruct (al_find x (adjList s)) eqn:E; [done|].
  by repeat mprim.
Qed.

Lemma entered_adj x t s : adjList (entered x t s) = add_node x (t + duration 1 10) (adjList s).
Proof. unfold entered, add_node. by destruct (al_find x (adjList s)) eqn:E; cbn; rewrite ?E. Qed.

Lemma entered_rest x t s : same_rest s (entered x t s) /\ dirty (entered x t s) = dirty s /\ (view (entered x t s)).2 = (view s).2.
Proof. unfold entered. by destruct (al_find x (adjList s)). Qed.

Lemma entered_nodes x t s : knows_nodes s -> knows_nodes (entered x t s).
Proof.
  intros K v. rewrite entered_adj, add_node_keys. specialize (K v). unfold entered.
  destruct (al_find x (adjList s)) as [d|] eqn:E.
  - rewrite K. assert (x ∈ (adjList s).*1) by (apply al_find_is_Some; by eexists). naive_solver.
  - unfold view in *. cbn. rewrite elem_of_union, elem_of_singleton, K. done.
Qed.

(** ** The comparison of the links *)

Section walk.
Variables (V : Z -> Prop) (src : Z) (g : nat) (nv : Z) (a0 : AdjList).

Record walking (done : list (Z * Z)) (new old : list LinkQuality) (s : RTopology) : Prop := {
  wk_adj : merging good V src g nv a0 (length done) done new old (adjList s);
  wk_nodes : knows_nodes s;
  wk_links : watched s = true -> forall u v, (u, v) ∈ (view s).2 <->
    if decide (u = src) then v ∈ done.*1 ++ ends old else v ∈ (edges a0 u).*1;
}.

Lemma merging_knows w done new old a x : merging good V src g nv a0 w done new old a -> x ∈ ends new \/ x ∈ ends old -> V x.
Proof. intros M Hx. apply (mg_known _ _ _ _ _ _ _ _ _ _ _ M). right. by apply elem_of_app. Qed.

Lemma nodes_keys s s' : (adjList s').*1 = (adjList s).*1 -> (view s').1 = (view s).1 -> knows_nodes s -> knows_nodes s'.
Proof. intros E1 E2 K v. by rewrite E1, E2. Qed.

(** A link is connected: the adjacency list and nothing else changes. *)
Lemma connect_ok done n new old old' t s :
  walking done (n :: new) old s ->
  (forall y, y ∈ ends old -> y = neighbor n \/ y ∈ ends old') -> sorted_ids (ends old') ->
  (forall y, y ∈ ends old' -> y ∈ ends old /\ neighbor n < y) ->
  exists s' lq, connect src g (length done) (neighbor n) nv t s = Ok (tt, s') /\
    merging good V src g nv a0 (length done) (done ++ [(neighbor n, quality n)]) new old' (adjList s') /\
    joined (adjList s') (Lptr src g (length done)) src (neighbor n) lq /\
    knows_nodes s' /\ (view s').2 = (view s).2 /\ dirty s' = dirty s /\ same_rest s s'.
Proof.
  intros [M K _] Ho1 Ho2 Ho3. unfold connect. erewrite M_bind_ok by apply getNodeEntry_ok.
  set (s1 := entered _ _ s). destruct (entered_rest (neighbor n) t s) as (R1 & D1 & V1). fold s1 in R1, D1, V1.
  pose proof (entered_nodes (neighbor n) t s K) as K1. fold s1 in K1.
  pose proof (merging_add good V src g nv a0 (neighbor n) (t + duration 1 10) _ _ _ _ _ (merging_knows _ _ _ _ _ _ M (or_introl (list_elem_of_here _ _))) M) as M1.
  rewrite <- entered_adj in M1. fold s1 in M1.
  erewrite M_bind_ok by (by apply on_adj_ok). set (a2 := al_modify _ _ _).
  assert (merging good V src g nv a0 (length done) done (n :: new) old a2) as M2.
  { apply merging_modify; [apply update_nodeValidity_kept|apply update_nodeValidity_raises|exact M1]. }
  destruct (merging_connect good V src g nv a0 done n new old old' a2 M2 Ho1 Ho2 Ho3) as (a3 & E & Ek & M3 & J).
  do 2 eexists. split; [apply on_adj_ok; exact E|]. split; [exact M3|]. split; [exact J|].
  split; [|split; [exact V1|split; [exact D1|exact R1]]].
  apply (nodes_keys s1); [|done|done]. change (a3.*1 = (adjList s1).*1). rewrite Ek. unfold a2. by rewrite al_keys_modify.
Qed.

Lemma calculate_step done x new old lq s :
  merging good V src g nv a0 (length done) (done ++ [x]) new old (adjList s) -> joined (adjList s) (Lptr src g (length done)) src x.1 lq ->
  knows_nodes s ->
  exists a, on_adj (calculate (Lptr src g (length done))) s = Ok (tt, set_adj a s) /\
    merging good V src g nv a0 (length (done ++ [x])) (done ++ [x]) new old a /\ knows_nodes (set_adj a s).
Proof.
  intros M J K. destruct (merging_calculate good metric_good V src g nv a0 done x new old lq (adjList s) M J) as (a & E & Ek & M').
  exists a. split; [by apply on_adj_ok|]. split; [done|]. by apply (nodes_keys s).
Qed.

Lemma snoc_length {A} (l : list A) x : length (l ++ [x]) = S (length l).
Proof. rewrite length_app. cbn. lia. Qed.

(** The result of comparing: has a link come or gone, and has a quality changed? *)
Definition others (new old : list LinkQuality) : bool := negb (bool_decide (ends new = ends old)).
Definition differs (new old : list LinkQuality) : bool := negb (bool_decide (pairs new = pairs old)).

Lemma differs_others new old : others new old = true -> differs new old = true.
Proof.
  unfold others, differs. rewrite !negb_true_iff, !bool_decide_eq_false. intros Hn E. apply Hn.
  by rewrite <- !pairs_ends, E.
Qed.

Lemma others_cons n new o old : neighbor n = neighbor o -> others (n :: new) (o :: old) = others new old.
Proof.
  intros E. unfold others. f_equal. apply bool_decide_ext. change (ends (n :: new)) with (neighbor n :: ends new).
  change (ends (o :: old)) with (neighbor o :: ends old). rewrite E. split; [congruence|by intros ->].
Qed.

Lemma differs_cons n new o old : neighbor n = neighbor o ->
  differs (n :: new) (o :: old) = negb (quality n =? quality o) || differs new old.
Proof.
  intros E. unfold differs. change (pairs (n :: new)) with ((neighbor n, quality n) :: pairs new).
  change (pairs (o :: old)) with ((neighbor o, quality o) :: pairs old). rewrite E.
  destruct (Z.eqb_spec (quality n) (quality o)) as [->|Hq]; cbn.
  - f_equal. apply bool_decide_ext. split; [congruence|by intros ->].
  - rewrite bool_decide_eq_false_2; [done|congruence].
Qed.

(** Links that are not in both lists. *)
Lemma others_new n new old : (forall y, y ∈ ends old -> neighbor n < y) -> others (n :: new) old = true.
Proof.
  intros Hlt. unfold others. apply negb_true_iff, bool_decide_eq_false. intros E.
  assert (neighbor n ∈ ends old) as Hin by (rewrite <- E; apply list_elem_of_here). specialize (Hlt _ Hin). lia.
Qed.
Lemma others_old o new old : (forall y, y ∈ ends new -> neighbor o < y) -> others new (o :: old) = true.
Proof.
  intros Hlt. unfold others. apply negb_true_iff, bool_decide_eq_false. intros E.
  assert (neighbor o ∈ ends new) as Hin by (rewrite E; apply list_elem_of_here). specialize (Hlt _ Hin). lia.
Qed.

(** *** The three cases of the loop *)

Lemma keep_link_ok done n new o old t s :
  walking done (n :: new) (o :: old) s -> neighbor n = neighbor o ->
  exists s', (connect src g (length done) (neighbor n) nv t;;
    on_adj (calculate (Lptr src g (length done)));;
    (if quality n =? quality o then mret tt else modify (set_dirty true))) s = Ok (tt, s') /\
    walking (done ++ pairs [n]) new old s' /\ dirty s' = dirty s || negb (quality n =? quality o) /\ same_rest s s'.
Proof.
  intros Wk En. pose proof Wk as [M K L]. pose proof (mg_old _ _ _ _ _ _ _ _ _ _ _ M) as So.
  cbn [ends fmap list_fmap] in So. apply StronglySorted_inv in So as [So Fo]. rewrite Forall_forall in Fo.
  destruct (connect_ok done n new (o :: old) old t s Wk) as (s1 & lq & E1 & M1 & J1 & K1 & V1 & D1 & R1).
  { intros y. cbn [ends fmap list_fmap]. rewrite elem_of_cons, En. tauto. }
  { done. }
  { intros y Hy. cbn [ends fmap list_fmap]. rewrite elem_of_cons, En. split; [tauto|by apply Fo]. }
  destruct (calculate_step done (neighbor n, quality n) new old lq s1 M1 J1 K1) as (a & E2 & M2 & K2).
  erewrite M_bind_ok by exact E1. erewrite M_bind_ok by exact E2.
  assert (watched s = true -> forall u v, (u, v) ∈ (view s1).2 <->
    if decide (u = src) then v ∈ (done ++ pairs [n]).*1 ++ ends old else v ∈ (edges a0 u).*1) as L1.
  { intros Hw u v. rewrite V1. rewrite (L Hw u v). case_decide; [|done]. cbn [ends pairs fmap list_fmap].
    rewrite fmap_app. cbn. rewrite En. rewrite !elem_of_app, !elem_of_cons, elem_of_nil. tauto. }
  assert (watched s1 = watched s) as Hwt by (unfold watched; destruct R1 as (_ & _ & -> & -> & _); done).
  destruct (quality n =? quality o).
  - exists (set_adj a s1). split; [done|]. split; [split; [exact M2|exact K2|]|split; [|exact R1]].
    + intros Hw. apply L1. by rewrite <- Hwt.
    + by rewrite orb_false_r.
  - exists (set_dirty true (set_adj a s1)). split; [done|]. split; [split; [exact M2|exact K2|]|split; [|exact R1]].
    + intros Hw. apply L1. by rewrite <- Hwt.
    + by rewrite orb_true_r.
Qed.

Lemma new_link_ok done n new old node t me s :
  walking done (n :: new) old s -> (forall y, y ∈ ends old -> neighbor n < y) ->
  exists s', (connect src g (length done) (neighbor n) nv t;;
    notify (LinkAdded src (neighbor n));;
    modify (set_dirty true);;
    on_adj (calculate (Lptr src g (length done)));;
    (if src =? me then notify (MetricAdd node) else mret tt)) s = Ok (tt, s') /\
    walking (done ++ pairs [n]) new old s' /\ dirty s' = true /\ same_rest s s'.
Proof.
  intros Wk Hlt. pose proof Wk as [M K L].
  destruct (connect_ok done n new old old t s Wk) as (s1 & lq & E1 & M1 & J1 & K1 & V1 & D1 & R1).
  { tauto. } { apply M. } { auto. }
  set (s2 := set_dirty true (set_events (LinkAdded src (neighbor n) :: events s1) s1)).
  assert (knows_nodes s2) as K2 by exact K1.
  destruct (calculate_step done (neighbor n, quality n) new old lq s2 M1 J1 K2) as (a & E2 & M2 & K3).
  erewrite M_bind_ok by exact E1. do 2 mprim. fold s2. erewrite M_bind_ok by exact E2.
  assert (watched s = true -> forall u v, (u, v) ∈ (view s2).2 <->
    if decide (u = src) then v ∈ (done ++ pairs [n]).*1 ++ ends old else v ∈ (edges a0 u).*1) as L1.
  { intros Hw u v. change ((u, v) ∈ ({[ (src, neighbor n) ]} ∪ (view s1).2) <->
      if decide (u = src) then v ∈ (done ++ pairs [n]).*1 ++ ends old else v ∈ (edges a0 u).*1).
    rewrite elem_of_union, elem_of_singleton, V1, (L Hw u v). rewrite fmap_app. cbn.
    case_decide; rewrite ?elem_of_app, ?elem_of_cons, ?elem_of_nil; naive_solver. }
  assert (watched s2 = watched s) as Hwt by (unfold watched; destruct R1 as (_ & _ & X1 & X2 & _); cbn; by rewrite X1, X2).
  destruct (src =? me).
  - eexists. split; [reflexivity|]. split; [split; [exact M2|exact K3|]|split; [done|exact R1]].
    intros Hw. apply L1. by rewrite <- Hwt.
  - eexists. split; [reflexivity|]. split; [split; [exact M2|exact K3|]|split; [done|exact R1]].
    intros Hw. apply L1. by rewrite <- Hwt.
Qed.

Lemma old_link_ok done new o old node t me s :
  walking done new (o :: old) s -> (forall y, y ∈ ends new -> neighbor o < y) ->
  exists s', (getNodeEntry (neighbor o) t;;
    on_adj (fun a => match find_counterpart (neighbor o) src a with Some q => set_counterpart q None a | None => Ok a end);;
    notify (LinkRemoved src (neighbor o));;
    modify (set_dirty true);;
    (if src =? me then notify (MetricDel node) else mret tt)) s = Ok (tt, s') /\
    walking done new old s' /\ dirty s' = true /\ same_rest s s'.
Proof.
  intros [M K L] Hlt. erewrite M_bind_ok by apply getNodeEntry_ok.
  set (s1 := entered _ _ s). destruct (entered_rest (neighbor o) t s) as (R1 & D1 & V1). fold s1 in R1, D1, V1.
  pose proof (entered_nodes (neighbor o) t s K) as K1. fold s1 in K1.
  pose proof (merging_add good V src g nv a0 (neighbor o) (t + duration 1 10) _ _ _ _ _ (merging_knows _ _ _ _ _ _ M (or_intror (list_elem_of_here _ _))) M) as M1.
  rewrite <- entered_adj in M1. fold s1 in M1.
  pose proof (mg_front _ _ _ _ _ _ _ _ _ _ _ M) as Fr. pose proof (mg_old _ _ _ _ _ _ _ _ _ _ _ M) as So.
  cbn [ends fmap list_fmap] in So. apply StronglySorted_inv in So as [So Fo]. rewrite Forall_forall in Fo.
  destruct (merging_remove good V src g nv a0 done new o old (adjList s1) M1 Hlt) as (a & E & Ek & M2).
  erewrite M_bind_ok by (apply on_adj_ok; exact E). do 2 mprim.
  set (s2 := set_dirty true _). assert (knows_nodes s2) as K2 by (by apply (nodes_keys s1)).
  assert (watched s = true -> forall u v, (u, v) ∈ (view s2).2 <->
    if decide (u = src) then v ∈ done.*1 ++ ends old else v ∈ (edges a0 u).*1) as L1.
  { intros Hw u v. change ((u, v) ∈ ((view s1).2 ∖ {[ (src, neighbor o) ]}) <->
      if decide (u = src) then v ∈ done.*1 ++ ends old else v ∈ (edges a0 u).*1).
    rewrite elem_of_difference, elem_of_singleton, V1, (L Hw u v). case_decide as Eu; [subst u|naive_solver].
    cbn [ends fmap list_fmap]. rewrite !elem_of_app, elem_of_cons. split; [naive_solver|].
    intros Hv. split; [tauto|]. intros [= ->]. destruct Hv as [Hv|Hv].
    - assert (neighbor o ∈ ends new ++ ends (o :: old)) as Hin by (rewrite elem_of_app; right; apply list_elem_of_here).
      specialize (Fr _ _ Hv Hin). lia.
    - specialize (Fo _ Hv). lia. }
  assert (watched s2 = watched s) as Hwt by (unfold watched; destruct R1 as (_ & _ & X1 & X2 & _); cbn; by rewrite X1, X2).
  destruct (src =? me).
  - eexists. split; [reflexivity|]. split; [split; [exact M2|exact K2|]|split; [done|exact R1]].
    intros Hw. apply L1. by rewrite <- Hwt.
  - eexists. split; [reflexivity|]. split; [split; [exact M2|exact K2|]|split; [done|exact R1]].
    intros Hw. apply L1. by rewrite <- Hwt.
Qed.
(** Some steps in front of the rest of the loop. *)
Lemma seq3 {S A} (m1 m2 m3 : M S unit) (j : M S A) s s' : (m1;; m2;; m3) s = Ok (tt, s') -> (m1;; m2;; m3;; j) s = j s'.
Proof.
  unfold mbind, M_bind. destruct (m1 s) as [[[] s1]|]; [|done]. destruct (m2 s1) as [[[] s2]|]; [|done]. by intros ->.
Qed.
Lemma seq5 {S A} (m1 m2 m3 m4 m5 : M S unit) (j : M S A) s s' :
  (m1;; m2;; m3;; m4;; m5) s = Ok (tt, s') -> (m1;; m2;; m3;; m4;; m5;; j) s = j s'.
Proof.
  unfold mbind, M_bind. destruct (m1 s) as [[[] s1]|]; [|done]. destruct (m2 s1) as [[[] s2]|]; [|done].
  destruct (m3 s2) as [[[] s3]|]; [|done]. destruct (m4 s3) as [[[] s4]|]; [|done]. by intros ->.
Qed.

(** The loop ends; [src] has the new links then, and nothing is left open. *)
Lemma merge_loop_ok fuel node t : forall new old ch done s,
  (length new + length old <= fuel)%nat -> walking done new old s ->
  exists s', merge_loop fuel src g (length done) new old node nv t ch s = Ok (ch || others new old, s') /\
    walking (done ++ pairs new) [] [] s' /\ dirty s' = dirty s || differs new old /\ same_rest s s'.
Proof.
  induction fuel as [|fuel IH]; intros new old ch done s Hf Wk.
  { destruct new, old; cbn in Hf; try lia. exists s. cbn. by rewrite app_nil_r, !orb_false_r. }
  assert (forall n new' old' s1 d, walking (done ++ pairs [n]) new' old' s1 -> dirty s1 = d -> same_rest s s1 ->
    (length new' + length old' <= fuel)%nat -> forall ch', exists s',
    merge_loop fuel src g (S (length done)) new' old' node nv t ch' s1 = Ok (ch' || others new' old', s') /\
    walking (done ++ pairs (n :: new')) [] [] s' /\ dirty s' = d || differs new' old' /\ same_rest s s') as Hn.
  { intros n new' old' s1 d W1 <- R1 Hf' ch'. destruct (IH new' old' ch' _ s1 Hf' W1) as (s' & E & W' & D' & R').
    cbn [pairs fmap list_fmap] in E. rewrite snoc_length in E. exists s'. split; [exact E|].
    split; [by rewrite <- app_assoc in W'|]. split; [done|by transitivity s1]. }
  assert (forall o new' old', sorted_ids (ends old') -> (forall y, y ∈ ends new' -> neighbor o < y) ->
    walking done new' (o :: old') s -> (length new' + length old' <= fuel)%nat -> exists s',
    (getNodeEntry (neighbor o) t;;
      on_adj (fun a => match find_counterpart (neighbor o) src a with Some q => set_counterpart q None a | None => Ok a end);;
      notify (LinkRemoved src (neighbor o));; modify (set_dirty true);;
      (if src =? myNodeId s then notify (MetricDel node) else mret tt);;
      merge_loop fuel src g (length done) new' old' node nv t true) s = Ok (ch || others new' (o :: old'), s') /\
    walking (done ++ pairs new') [] [] s' /\ dirty s' = dirty s || differs new' (o :: old') /\ same_rest s s') as Ho.
  { intros o new' old' _ Hlt W Hf'. destruct (old_link_ok done new' o old' node t (myNodeId s) s W Hlt) as (s1 & E & W1 & D1 & R1).
    rewrite (seq5 _ _ _ _ _ _ _ _ E). destruct (IH new' old' true _ s1 Hf' W1) as (s' & E' & W' & D' & R').
    exists s'. rewrite (differs_others _ _ (others_old o new' old' Hlt)), (others_old o new' old' Hlt), !orb_true_r.
    split; [exact E'|]. split; [done|]. split; [by rewrite D', D1|by transitivity s1]. }
  assert (forall n new' old', (forall y, y ∈ ends old' -> neighbor n < y) -> walking done (n :: new') old' s ->
    (length new' + length old' <= fuel)%nat -> exists s',
    (connect src g (length done) (neighbor n) nv t;; notify (LinkAdded src (neighbor n));; modify (set_dirty true);;
      on_adj (calculate (Lptr src g (length done)));; (if src =? myNodeId s then notify (MetricAdd node) else mret tt);;
      merge_loop fuel src g (S (length done)) new' old' node nv t true) s = Ok (ch || others (n :: new') old', s') /\
    walking (done ++ pairs (n :: new')) [] [] s' /\ dirty s' = dirty s || differs (n :: new') old' /\ same_rest s s') as Ha.
  { intros n new' old' Hlt W Hf'. destruct (new_link_ok done n new' old' node t (myNodeId s) s W Hlt) as (s1 & E & W1 & D1 & R1).
    rewrite (seq5 _ _ _ _ _ _ _ _ E). destruct (Hn n new' old' s1 true W1 D1 R1 Hf' true) as (s' & E' & W' & D' & R').
    exists s'. rewrite (differs_others _ _ (others_new n new' old' Hlt)), (others_new n new' old' Hlt), !orb_true_r. done. }
  pose proof Wk as [M _ _]. pose proof (mg_new _ _ _ _ _ _ _ _ _ _ _ M) as Sn. pose proof (mg_old _ _ _ _ _ _ _ _ _ _ _ M) as So.
  destruct new as [|n new], old as [|o old]; cbn [merge_loop]; cbn [length] in Hf.
  - exists s. cbn. by rewrite app_nil_r, !orb_false_r.
  - mprim. apply Ho; [by apply StronglySorted_inv in So as [? _]|by intros y ?%elem_of_nil|done|cbn; lia].
  - mprim. apply Ha; [by intros y ?%elem_of_nil|done|cbn; lia].
  - mprim. cbn [ends fmap list_fmap] in Sn, So. apply StronglySorted_inv in Sn as [Sn Fn]. apply StronglySorted_inv in So as [So Fo].
    rewrite Forall_forall in Fn, Fo. destruct (Z.eqb_spec (neighbor n) (neighbor o)) as [En|Hne].
    + destruct (keep_link_ok done n new o old t s Wk En) as (s1 & E & W1 & D1 & R1).
      rewrite (seq3 _ _ _ _ _ _ E). destruct (Hn n new old s1 _ W1 D1 R1 ltac:(lia) ch) as (s' & E' & W' & D' & R').
      exists s'. rewrite (others_cons n new o old En), (differs_cons n new o old En), orb_assoc. done.
    + destruct (Z.ltb_spec (neighbor n) (neighbor o)) as [Hlt|Hge].
      * apply Ha; [|done|cbn; lia]. intros y. cbn [ends fmap list_fmap]. rewrite elem_of_cons.
        intros [->|Hy]; [done|]. specialize (Fo y Hy). lia.
      * apply Ho; [done| |done|cbn; lia]. intros y. cbn [ends fmap list_fmap]. rewrite elem_of_cons.
        intros [->|Hy]; [lia|]. specialize (Fn y Hy). lia.
Qed.
End walk.
(** ** A topology packet *)

Definition fresh (l : LinkQuality) : Prop := counterpart l = None /\ metric_weight l = 0.

Lemma parse_links_sorted n : forall addr node acc buf new node', parse_links n addr node acc buf = Ok (new, node') ->
  sorted_ids (ends acc) -> Forall fresh acc -> sorted_ids (ends new) /\ Forall fresh new.
Proof.
  induction n as [|n IH]; intros addr node acc buf new node' E Hs Hf; cbn [parse_links] in E; [by injection E as <- _|].
  apply outcome_bind_ok in E as (_ & _ & E). set (x := AbstractID6.fromArray addr buf) in *.
  destruct (match last acc with Some l => x <=? neighbor l | None => false end) eqn:El; [by injection E as <- _|].
  apply IH in E; [done| |].
  - unfold ends, sorted_ids in *. rewrite fmap_app. apply StronglySorted_app; split; [|split; [done|by repeat constructor]].
    intros y z Hy Hz. cbn in Hz. apply list_elem_of_singleton in Hz as ->.
    destruct (last acc) as [l|] eqn:Ela; [|by apply last_None in Ela as ->; apply elem_of_nil in Hy].
    apply last_Some in Ela as [acc' ->]. rewrite fmap_app in *. cbn in *. apply StronglySorted_app in Hs as (Hs & _ & _).
    apply Z.leb_gt in El. apply elem_of_app in Hy as [Hy|Hy%list_elem_of_singleton]; [|by subst].
    specialize (Hs y (neighbor l) Hy (list_elem_of_here _ _)). lia.
  - apply Forall_app_2; [done|]. by repeat constructor.
Qed.

(** A packet that [feed] does not refuse, with the links [new]. *)
Record valid_packet (p : BasePacket) (new : list LinkQuality) : Prop := {
  vp_length : Z.to_nat (TopoPacket.getNumLinks p) = length new;
  vp_header : Z.of_nat TopoPacket.OffsetLinks + 1 <= size p;
  vp_size : Z.of_nat (TopoPacket.OffsetLinks + length new * 8) <= size p;
  vp_validity : 0 < TopoPacket.getValidity p;
  vp_links : exists node, parse_links (length new) TopoPacket.OffsetLinks AbstractID6.mk_default [] (buffer p) = Ok (new, node);
  vp_good : Forall (fun l => good (quality l)) new;
}.

(** The new links in the place of the old ones. *)
Definition replaced (src : Z) (nv : Z) (n : nat) (new : list LinkQuality) (a : AdjList) : AdjList :=
  al_modify src (set_linklist new) (al_modify src (fun d => let d := update_nodeValidity nv d in
    new_vector (replicate n LinkQuality_new) (set_validity (nodeValidity d) nv d)) a).

Lemma al_find_replaced src nv n new a v : al_find v (replaced src nv n new a) =
  if decide (v = src) then (fun d => let d' := update_nodeValidity nv d in
    set_linklist new (new_vector (replicate n LinkQuality_new) (set_validity (nodeValidity d') nv d'))) <$> al_find v a else al_find v a.
Proof. unfold replaced. rewrite !al_find_modify. case_decide; [|done]. by destruct (al_find v a). Qed.

Lemma replaced_walks V src nv n new d a :
  graph_inv good a nolink noweight -> al_find src a = Some d ->
  sorted_ids (ends new) -> Forall fresh new -> Forall (fun l => good (quality l)) new ->
  (forall v, v ∈ a.*1 \/ v ∈ ends new ++ ends (linklist d) -> V v) ->
  merging good V src (S (generation d)) nv a 0 [] new (linklist d) (replaced src nv n new a).
Proof.
  intros I Hd Hs Hf Hg HV.
  assert (forall v i l, v <> src -> link (replaced src nv n new a) v i = Some l <-> link a v i = Some l) as Hl.
  { intros v i l Hv. unfold link. rewrite al_find_replaced. by rewrite decide_False. }
  assert (forall i l, link (replaced src nv n new a) src i = Some l -> l ∈ new) as Hsrc.
  { intros i l. unfold link. rewrite al_find_replaced, decide_True, Hd by done. cbn. apply list_elem_of_lookup_2. }
  assert (forall x v, x <> src -> find_counterpart x v (replaced src nv n new a) = find_counterpart x v a) as Hfc.
  { intros x v Hx. rewrite !find_counterpart_eq, al_find_replaced. by rewrite decide_False. }
  split; [split| | | | | |].
  - unfold keys_sorted, replaced. rewrite !al_keys_modify. apply I.
  - intros v e. rewrite al_find_replaced. case_decide; [|apply I]. intros (e' & _ & ->)%fmap_Some. exact Hs.
  - intros v i l Hv HE. destruct (decide (v = src)) as [->|Hne]; [exfalso; apply HE; left; split; [done|cbn; lia]|].
    apply Hl in Hv; [|done]. destruct (decide (neighbor l = src)) as [Ex|Hx].
    + rewrite Ex. rewrite (gi_cp _ _ _ _ I v i l Hv) by tauto. rewrite Ex. transitivity (@None lptr).
      * apply find_counterpart_None; [apply I|]. intros e He. rewrite Hd in He. injection He as <-. intros Hin. apply HE.
        right. split; [done|]. apply elem_of_app. by right.
      * symmetry. rewrite find_counterpart_eq, al_find_replaced, decide_True, Hd by done.
        match goal with |- ?x = _ => change x with (Lptr src (S (generation (update_nodeValidity nv d))) <$> index_of v (neighbor <$> new)) end.
        apply fmap_None, index_of_None; [exact Hs|]. intros Hin. apply HE. right. split; [done|].
        apply elem_of_app. by left.
    + rewrite Hfc by done. apply (gi_cp _ _ _ _ I v i l Hv). tauto.
  - intros v i l Hv HW. destruct (decide (v = src)) as [->|Hne]; [exfalso; apply HW; split; [done|lia]|].
    apply Hl in Hv; [|done]. apply (gi_wt _ _ _ _ I v i l Hv). by intros [].
  - intros v i l Hv. destruct (decide (v = src)) as [->|Hne].
    + apply Hsrc in Hv. rewrite Forall_forall in Hg. by apply Hg.
    + apply Hl in Hv; [|done]. by apply (gi_good _ _ _ _ I v i l).
  - intros v e. rewrite al_find_replaced. case_decide; [|apply I]. subst v. intros (e' & He & ->)%fmap_Some. cbn.
    unfold update_nodeValidity. destruct (Z.ltb_spec (nodeValidity e') nv); cbn; lia.
  - eexists. rewrite al_find_replaced, decide_True, Hd by done. split; [reflexivity|].
    cbn. unfold update_nodeValidity. destruct (Z.ltb_spec (nodeValidity d) nv); cbn; split_and!; try done; lia.
  - intros x y Hx. by apply elem_of_nil in Hx.
  - exact Hs.
  - by apply (gi_lists _ _ _ _ I src).
  - intros v Hv. split; [unfold edges; rewrite al_find_replaced; by rewrite decide_False|].
    intros e He. exists e. rewrite al_find_replaced, decide_False by done. split_and!; done.
  - intros v. unfold replaced. rewrite !al_keys_modify. apply HV.
Qed.
(** When the walk has ended, the invariant holds again. *)
Lemma walking_ends V src g nv a0 done s : walking V src g nv a0 done [] [] s -> topo_inv s /\ edges (adjList s) src = done.
Proof.
  intros [M K L]. pose proof (merging_edges _ _ _ _ _ _ _ _ _ _ _ M) as E. cbn in E. rewrite app_nil_r in E. split; [|done].
  pose proof M as [I (d & Hd & _ & Ed & _) _ _ _ X _]. cbn in Ed. rewrite app_nil_r in Ed. split; [|done|].
  - destruct I as [I1 I2 I3 I4 I5 I6].
    assert (forall i l, link (adjList s) src i = Some l -> (i < length done)%nat) as Hi.
    { intros i l Hl. unfold link in Hl. rewrite Hd in Hl. cbn in Hl. apply lookup_lt_Some in Hl.
      rewrite <- Ed. unfold pairs. by rewrite length_fmap. }
    split; try done.
    + intros v i l Hl _. apply (I3 v i l Hl). intros [[-> Hle]|[_ Hin]]; [specialize (Hi i l Hl); lia|by apply elem_of_nil in Hin].
    + intros v i l Hl _. apply (I4 v i l Hl). intros [-> Hle]. specialize (Hi i l Hl). lia.
  - intros Hw u v. rewrite (L Hw u v). case_decide as Eu; [subst u; by rewrite E, app_nil_r|]. by destruct (X u Eu) as [-> _].
Qed.

Lemma walking_starts V src g new old s :
  topo_inv s -> generation <$> al_find src (adjList s) = Some g -> al_find src (adjList s) ≫= (fun d => Some (linklist d)) = Some old ->
  sorted_ids (ends new) -> Forall fresh new -> Forall (fun l => good (quality l)) new ->
  (forall v, v ∈ (adjList s).*1 \/ v ∈ ends new ++ ends old -> V v) -> forall nv n,
  walking V src (S g) nv (adjList s) [] new old (set_adj (replaced src nv n new (adjList s)) s).
Proof.
  intros [I K L] Eg Eo Hs Hf Hg HV nv n. destruct (al_find src (adjList s)) as [d|] eqn:Hd; [|done].
  injection Eg as <-. injection Eo as <-. split.
  - by apply replaced_walks.
  - apply (nodes_keys s); [|done|done]. cbn. unfold replaced. by rewrite !al_keys_modify.
  - intros Hw u v. change (view (set_adj _ s)) with (view s). rewrite (L Hw u v). case_decide as Eu; [subst u|done].
    cbn [app fmap list_fmap]. unfold edges. rewrite Hd. by rewrite pairs_ends.
Qed.

Lemma topo_inv_ext s s' : adjList s' = adjList s -> view s' = view s -> watched s' = watched s -> topo_inv s -> topo_inv s'.
Proof. intros E1 E2 E3 [I K L]. split; [by rewrite E1|intros v; by rewrite E1, E2|intros Hw; rewrite E1, E2; apply L; congruence]. Qed.

Lemma topo_inv_entered x t s : topo_inv s -> topo_inv (entered x t s).
Proof.
  intros [I K L]. destruct (entered_rest x t s) as ((_ & _ & X1 & X2 & _) & _ & V). split.
  - rewrite entered_adj. by apply graph_inv_add.
  - by apply entered_nodes.
  - intros Hw u v. rewrite V, entered_adj, add_node_edges. apply L. by rewrite <- Hw; unfold watched; rewrite X1, X2.
Qed.

Lemma topo_inv_modify x f s : links_kept f -> (forall d, edgeValidity d <= nodeValidity d -> edgeValidity (f d) <= nodeValidity (f d)) ->
  topo_inv s -> topo_inv (set_adj (al_modify x f (adjList s)) s).
Proof.
  intros Hf Hv [I K L]. split.
  - by apply graph_inv_modify.
  - apply (nodes_keys s); [cbn; by rewrite al_keys_modify|done|done].
  - intros Hw u v. cbn. rewrite (same_links_edges (adjList s)) by (by apply modify_same_links). by apply L.
Qed.

(** What is left of [feed] when the links are compared. *)
Definition feed_end (p : BasePacket) (src me : Z) (n : nat) (changed : bool) (t : Z) : M RTopology unit :=
  (if src =? me then notify MetricEnd else mret tt);;
  on_adj (fun a => Ok (al_modify src (parse_name p (TopoPacket.OffsetLinks + n * 8)) a));;
  (if (changed : bool) then notify LinksChanged else mret tt);;
  dt ← gets dirty;
  if (dt : bool) then updateTopology t else mret tt.

Lemma parse_name_kept p addr : links_kept (parse_name p addr) /\
  forall d, edgeValidity d <= nodeValidity d -> edgeValidity (parse_name p addr d) <= nodeValidity (parse_name p addr d).
Proof. unfold links_kept, parse_name. by destruct (_ <? _). Qed.

Definition validities (d : NDescr) : Z * Z := (edgeValidity d, nodeValidity d).

Lemma feed_end_ok p src me n changed t s : topo_inv s ->
  exists s', feed_end p src me n changed t s = (if dirty s' then updateTopology t else mret tt) s' /\
    topo_inv s' /\ (forall v, edges (adjList s') v = edges (adjList s) v) /\
    (forall v, validities <$> al_find v (adjList s') = validities <$> al_find v (adjList s)) /\
    dirty s' = dirty s /\ same_rest s s'.
Proof.
  intros I. unfold feed_end. destruct (parse_name_kept p (TopoPacket.OffsetLinks + n * 8)) as [Pk Pv].
  set (f := parse_name p _) in *.
  set (s1 := if src =? me then set_events (MetricEnd :: events s) s else s).
  assert ((if src =? me then notify MetricEnd else mret tt) s = Ok (tt, s1)) as E1 by (unfold s1; by destruct (src =? _)).
  assert (topo_inv s1 /\ adjList s1 = adjList s /\ dirty s1 = dirty s /\ same_rest s s1) as (I1 & A1 & D1 & R1).
  { unfold s1. destruct (src =? _); [|done]. split; [by apply (topo_inv_ext s)|done]. }
  erewrite M_bind_ok by exact E1. erewrite M_bind_ok by (by apply on_adj_ok).
  pose proof (topo_inv_modify src f s1 Pk Pv I1) as I2. set (s2 := set_adj _ s1) in *.
  exists (if changed then set_events (LinksChanged :: events s2) s2 else s2). split; [|split; [|split; [|split; [|split]]]].
  - by destruct changed.
  - destruct changed; [|done]. by apply (topo_inv_ext s2).
  - intros v. rewrite <- A1. transitivity (edges (adjList s2) v); [by destruct changed|].
    apply same_links_edges. by apply modify_same_links.
  - intros v. rewrite <- A1. transitivity (validities <$> al_find v (adjList s2)); [by destruct changed|].
    unfold s2. cbn. rewrite al_find_modify. case_decide as D; [|done]. rewrite D. destruct (al_find src (adjList s1)) as [d|]; [|done].
    cbn. unfold f, parse_name. by destruct (_ <? _).
  - rewrite <- D1. by destruct changed.
  - transitivity s1; [done|]. by destruct changed.
Qed.
Definition feed_begin (src : Z) (s : RTopology) : RTopology :=
  if src =? myNodeId s then set_events (MetricBegin :: events s) s else s.

Lemma feed_begin_keeps src s : topo_inv s -> topo_inv (feed_begin src s) /\
  adjList (feed_begin src s) = adjList s /\ dirty (feed_begin src s) = dirty s /\ same_rest s (feed_begin src s).
Proof. intros I. unfold feed_begin. destruct (src =? _); [|done]. split; [by apply (topo_inv_ext s)|done]. Qed.

(** [feed] up to the walk. *)
Lemma feed_start p new t s d :
  locked s = false -> valid_packet p new ->
  let src := SrcPacket.getSrc p in
  let s1 := feed_begin src (entered src t s) in
  al_find src (adjList s1) = Some d ->
  exists node, feed p t s =
    (changed ← merge_loop (length new + length (linklist d)) src (S (generation d)) 0 new (linklist d) node (t + TopoPacket.getValidity p) t false;
     feed_end p src (myNodeId (entered src t s)) (length new) changed t) (set_adj (replaced src (t + TopoPacket.getValidity p) (length new) new (adjList s1)) s1).
Proof.
  intros Hlk [Vl Vh Vs Vv [node Vp] Vg] src s1 Hd. exists node. unfold feed. mprim. rewrite Hlk.
  rewrite (proj2 (Z.ltb_ge _ _) Vh). fold src. rewrite Vl.
  erewrite M_bind_ok by apply getNodeEntry_ok. set (s0 := entered src t s) in *.
  assert (adjList s1 = adjList s0) as A1 by (unfold s1, feed_begin; by destruct (src =? _)).
  rewrite A1 in Hd. rewrite (proj2 (Z.ltb_lt _ _) Vv). mlift. mprim. rewrite Hd. mlift.
  erewrite M_bind_ok by (by apply on_adj_ok).
  rewrite (proj2 (Z.ltb_ge _ _)) by exact Vs. mprim.
  set (a2 := al_modify src _ _). cbv beta.
  assert (forall k : M RTopology unit, ((if src =? myNodeId s0 then notify MetricBegin else mret tt);; k) (set_adj a2 s0) = k (set_adj a2 s1)) as Hb.
  { intros k. unfold s1, feed_begin. by destruct (src =? myNodeId s0). }
  cbn [myNodeId set_adj]. rewrite Hb. rewrite Vp. mlift. cbv beta iota. erewrite M_bind_ok by (by apply on_adj_ok).
  rewrite Nat.eqb_refl. mlift. rewrite A1. reflexivity.
Qed.

(** A topology packet is taken over: the links of its sender are those of the packet, all
    other links stay, and the routes are marked as out of date exactly if a link or a
    quality has changed; the invariant holds. *)
Lemma feed_ok (V : Z -> Prop) p new t s :
  topo_inv s -> locked s = false -> valid_packet p new ->
  let src := SrcPacket.getSrc p in
  (forall v, v ∈ (adjList s).*1 \/ v ∈ src :: ends new ++ (edges (adjList s) src).*1 -> V v) ->
  exists s', feed p t s = (if dirty s' then updateTopology t else mret tt) s' /\ topo_inv s' /\
    edges (adjList s') src = pairs new /\ (forall v, v <> src -> kept (adjList s) (adjList s') v) /\
    (exists d, al_find src (adjList s') = Some d /\ edgeValidity d = t + TopoPacket.getValidity p /\ t + TopoPacket.getValidity p <= nodeValidity d) /\
    dirty s' = dirty s || negb (bool_decide (pairs new = edges (adjList s) src)) /\ same_rest s s' /\
    (forall v, v ∈ (adjList s').*1 -> V v).
Proof.
  intros I Hlk Vp src HV. pose proof (topo_inv_entered src t s I) as I0. destruct (entered_rest src t s) as (R0 & D0 & V0).
  destruct (feed_begin_keeps src _ I0) as (I1 & A1 & D1 & R1). set (s1 := feed_begin src (entered src t s)) in *.
  rewrite entered_adj in A1.
  assert (exists d, al_find src (adjList s1) = Some d /\ pairs (linklist d) = edges (adjList s) src) as (d & Hd & Ed).
  { rewrite A1, al_find_add. unfold edges. destruct (al_find src (adjList s)) as [d|]; [by exists d|].
    rewrite decide_True by done. by eexists. }
  destruct (feed_start p new t s d Hlk Vp Hd) as [node E]. fold src s1 in E.
  pose proof Vp as [_ _ _ _ [node' Hp] Vg].
  destruct (parse_links_sorted _ _ _ _ _ _ _ Hp) as [Hs Hf]; [constructor|constructor|].
  set (nv := t + TopoPacket.getValidity p) in *.
  assert (walking V src (S (generation d)) nv (adjList s1) [] new (linklist d) (set_adj (replaced src nv (length new) new (adjList s1)) s1)) as W.
  { apply walking_starts; [done|by rewrite Hd|by rewrite Hd|done..|]. intros v. rewrite A1, add_node_keys.
    rewrite elem_of_app, <- (pairs_ends (linklist d)), Ed. intros Hv. apply HV. rewrite elem_of_cons, elem_of_app. tauto. }
  destruct (merge_loop_ok V src (S (generation d)) nv (adjList s1) (length new + length (linklist d)) node t new (linklist d) false [] _ (le_n _) W)
    as (s2 & E2 & W2 & D2 & R2).
  destruct (walking_ends _ _ _ _ _ _ _ W2) as [I2 Ee].
  destruct (feed_end_ok p src (myNodeId (entered src t s)) (length new) (others new (linklist d)) t s2 I2) as (s3 & E3 & I3 & X3 & V3 & D3 & R3).
  pose proof (wk_adj _ _ _ _ _ _ _ _ _ W2) as M2.
  exists s3. split; [|split; [|split; [|split; [|split; [|split; [|split]]]]]].
  - rewrite E. erewrite M_bind_ok by exact E2. exact E3.
  - done.
  - by rewrite X3, Ee.
  - intros v Hv. destruct (mg_edges _ _ _ _ _ _ _ _ _ _ _ M2 v Hv) as [Xe Xd]. split.
    + by rewrite X3, Xe, A1, add_node_edges.
    + intros d0 Hd0. destruct (Xd d0) as (d2 & Hd2 & Hv2); [rewrite A1, al_find_add; by rewrite Hd0|].
      specialize (V3 v). rewrite Hd2 in V3. destruct (al_find v (adjList s3)) as [d3|]; [|done]. exists d3. injection V3 as -> ->. done.
  - destruct (mg_src _ _ _ _ _ _ _ _ _ _ _ M2) as (d2 & Hd2 & _ & _ & Ev2 & Nv2). specialize (V3 src). rewrite Hd2 in V3.
    destruct (al_find src (adjList s3)) as [d3|]; [|done]. exists d3. injection V3 as -> ->. done.
  - rewrite D3, D2. cbn. rewrite D1, D0. unfold differs. by rewrite Ed.
  - transitivity s2; [|done]. transitivity s1; [by transitivity (entered src t s)|]. eapply same_rest_adj. exact R2.
  - intros v. rewrite <- al_find_is_Some. intros Hv. apply (mg_known _ _ _ _ _ _ _ _ _ _ _ M2). left. apply al_find_is_Some.
    specialize (V3 v). destruct Hv as [d3 Hd3]. rewrite Hd3 in V3. destruct (al_find v (adjList s2)); [by eexists|done].
Qed.
End topology.
