(* ===== verification/TopologyThms.v ===== *)
(** * The topology database

    The expiry of links and nodes; what the sequences of topology packets, timers and
    orders make of the topology: the invariant in every reachable state, and the whole of
    [RTopology::feed] with the expiry and the routes. *)

From S2P Require Import Prelude Bytes NodeId Packet Neighbors NeighborThms Metrics Topology RoutesThms LinkGraph GraphThms.

(** ** The expiry of links and nodes

    [RTopology::removeOldNodes] drops the links whose validity has ended with both pointers
    of every pair, and then the nodes whose validity has ended.  No pointer is left to a
    link that is gone, because the links of a node never outlive it. *)

Section expiry.
Variable good : Z -> Prop.

(** ** The links of one node *)

Section clear.
Variables (k : Z) (g : nat) (ns : list Z) (a0 : AdjList).

(** The first [j] links are cleared, at both ends. *)
Definition cleared (j : nat) (v : Z) (i : nat) (x : Z) : Prop := (v = k /\ (i < j)%nat) \/ (x = k /\ v ∈ take j ns).

Record clearing (j : nat) (a : AdjList) : Prop := {
  cl_inv : graph_inv good a (cleared j) noweight;
  cl_none : forall v i l, link a v i = Some l -> cleared j v i (neighbor l) -> counterpart l = None;
  cl_node : exists d, al_find k a = Some d /\ generation d = g /\ ends (linklist d) = ns;
  cl_core : same_core a0 a;
}.

Lemma clear_step j x a : clearing j a -> ns !! j = Some x ->
  exists a', remove_reference (Lptr k g j) a = Ok a' /\ clearing (S j) a'.
Proof.
  intros [I Nn (d & Hd & Hg & He) C0] Hx. pose proof (gi_lists _ _ _ _ I) as Hls. pose proof (Hls k d Hd) as Hns.
  change (neighbor <$> linklist d) with (ends (linklist d)) in Hns. rewrite He in Hns.
  assert (exists l, linklist d !! j = Some l /\ neighbor l = x) as (l & Hl & Hnl).
  { rewrite <- He in Hx. unfold ends in Hx. rewrite list_lookup_fmap in Hx. apply fmap_Some in Hx as (l & ? & ->). by exists l. }
  assert (link a k j = Some l) as Hlk by (unfold link; by rewrite Hd).
  assert (points a (Lptr k g j) k x) as Ht by (exists d, l; by subst g).
  assert (k ∉ take j ns \/ x <> k) as Hself.
  { destruct (decide (x = k)) as [->|]; [left|by right]. intros (i & Hi)%list_elem_of_lookup. apply lookup_take_Some in Hi as [Hi Hij].
    pose proof (StronglySorted_lookup_2 Z.lt _ _ _ _ _ Hns Hij Hi Hx). lia. }
  assert (counterpart l = find_counterpart x k a) as Hc.
  { rewrite <- Hnl. apply (gi_cp _ _ _ _ I k j l Hlk). unfold cleared. rewrite Hnl. intros [[_ ?]|[-> ?]]; [lia|naive_solver]. }
  destruct (remove_reference_ok a (Lptr k g j) k x (counterpart l)) as (a' & E & C & Wt & Cp).
  { split; [done|unfold cp; cbn; by rewrite Hlk|]. intros q Hq. apply find_counterpart_points; [done|by rewrite <- Hc]. }
  exists a'. split; [done|].
  assert (forall v i l', link a v i = Some l' -> at_end (Lptr k g j) (counterpart l) v i <-> (v = k /\ i = j) \/ (neighbor l' = k /\ v = x)) as Hat.
  { intros v i l' Hl'. unfold at_end, at_ptr at 1. cbn [p_node p_idx]. split.
    - intros [?|(q & Hq & Hv)]; [by left|right]. rewrite Hc in Hq. apply find_counterpart_points in Hq; [|done].
      destruct Hv as [Hv ->]. rewrite (points_node _ _ _ _ Hq) in Hv. subst v. split; [|done].
      destruct (points_link _ _ _ _ Hq) as (l2 & H2 & E2). rewrite Hl' in H2. by injection H2 as <-.
    - intros [?|[E1 ->]]; [by left|]. right. destruct (counterpart l) as [q|] eqn:Eq.
      + exists q. split; [done|]. symmetry in Hc. apply find_counterpart_points in Hc; [|done]. by eapply unique_points.
      + exfalso. symmetry in Hc. unfold link in Hl'. destruct (al_find x a) as [e|] eqn:Ee; [|done].
        apply (proj1 (find_counterpart_None a x k Hls) Hc e Ee). apply list_elem_of_fmap. exists l'. split; [done|]. by eapply list_elem_of_lookup_2. }
  assert (forall v i l', cleared (S j) v i (neighbor l') <-> cleared j v i (neighbor l') \/ (v = k /\ i = j) \/ (neighbor l' = k /\ v = x)) as Hcl.
  { intros v i l'. unfold cleared. rewrite (take_S_r _ _ _ Hx), elem_of_app, list_elem_of_singleton. split.
    - intros [[-> Hi]|[-> [Hv|Hv]]]; [|tauto|tauto]. destruct (decide (i = j)) as [->|]; [tauto|]. left. left. split; [done|lia].
    - intros [[[-> Hi]|[-> Hv]]|[[-> ->]|[-> ->]]]; [left; split; [done|lia]|tauto|left; split; [done|lia]|tauto]. }
  split.
  - apply (graph_inv_core good a a' _ _ _ _ C I).
    + intros v i l' Hl' HE. destruct (same_core_link _ _ _ _ _ C Hl') as (l0 & Hl0 & En & _). rewrite <- En in *.
      rewrite Hcl in HE. destruct (Cp v i l0 Hl0) as [_ Cp2]. unfold cp in Cp2. rewrite Hl', Hl0 in Cp2.
      rewrite (Hat v i l0 Hl0) in Cp2. specialize (Cp2 ltac:(tauto)). injection Cp2 as ->. apply (gi_cp _ _ _ _ I v i l0 Hl0). tauto.
    + intros v i l' Hl' _. destruct (same_core_link _ _ _ _ _ C Hl') as (l0 & Hl0 & _ & _).
      specialize (Wt v i). unfold wt in Wt. rewrite Hl', Hl0 in Wt. injection Wt as ->. apply (gi_wt _ _ _ _ I v i l0 Hl0). by intros [].
  - intros v i l' Hl' HE. destruct (same_core_link _ _ _ _ _ C Hl') as (l0 & Hl0 & En & _). rewrite <- En in *.
    rewrite Hcl in HE. destruct (Cp v i l0 Hl0) as [Cp1 Cp2]. unfold cp in Cp1, Cp2. rewrite Hl' in Cp1. rewrite Hl', Hl0 in Cp2.
    rewrite (Hat v i l0 Hl0) in Cp1, Cp2.
    destruct (decide ((v = k /\ i = j) \/ (neighbor l0 = k /\ v = x))) as [D|D]; [specialize (Cp1 D); by injection Cp1|].
    specialize (Cp2 D). injection Cp2 as ->. apply (Nn v i l0 Hl0). tauto.
  - pose proof (proj2 C k) as S. rewrite Hd in S. destruct (al_find k a') as [d'|]; [|done].
    assert (core d' = core d) as Ec by (by apply core_inv). unfold core in Ec. injection Ec as E1 E2 _ _ _.
    exists d'. split; [done|]. split; [congruence|]. rewrite <- He. rewrite <- !pairs_ends. unfold pairs. by rewrite E2.
  - by transitivity a.
Qed.

Lemma clear_all n j a : clearing j a -> (j + n = length ns)%nat ->
  exists a', remove_references k g (seq j n) a = Ok a' /\ clearing (length ns) a'.
Proof.
  revert j a. induction n as [|n IH]; intros j a C Hj; cbn [seq remove_references].
  - exists a. split; [done|]. by replace (length ns) with j by lia.
  - destruct (lookup_lt_is_Some_2 ns j) as [x Hx]; [lia|]. destruct (clear_step j x a C Hx) as (a1 & E & C1).
    rewrite E, outcome_ret_bind. apply IH; [done|lia].
Qed.
End clear.

(** The node [k] without its links. *)
Definition emptied (k : Z) (a : AdjList) : AdjList := al_modify k (set_linklist []) a.

Lemma al_find_emptied k a v : al_find v (emptied k a) = if decide (v = k) then set_linklist [] <$> al_find k a else al_find v a.
Proof. unfold emptied. rewrite al_find_modify. case_decide as D; [by rewrite D|done]. Qed.

Lemma clear_ok k d a : graph_inv good a nolink noweight -> al_find k a = Some d ->
  exists a', remove_references k (generation d) (seq 0 (length (linklist d))) a = Ok a' /\ same_core a a' /\
    graph_inv good (emptied k a') nolink noweight.
Proof.
  intros I Hd. set (ns := ends (linklist d)).
  assert (length (linklist d) = length ns) as Hlen by (unfold ns, ends; by rewrite length_fmap).
  assert (clearing k (generation d) ns a 0 a) as C0.
  { split; [|intros v i l _ [[_ ?]|[_ Hin]]; [lia|by apply elem_of_nil in Hin]|by exists d|done].
    apply (graph_inv_core good a a _ _ _ _ (reflexivity a) I); intros v i l Hl _; [apply (gi_cp _ _ _ _ I v i l Hl)|apply (gi_wt _ _ _ _ I v i l Hl)]; by intros []. }
  destruct (clear_all k (generation d) ns a (length ns) 0 a C0) as (a' & E & [I' Nn (d' & Hd' & _ & He') C]); [lia|].
  exists a'. rewrite Hlen. split; [done|]. split; [done|].
  assert (forall v i l, link (emptied k a') v i = Some l -> link a' v i = Some l /\ v <> k) as Hl.
  { intros v i l. unfold link. rewrite al_find_emptied. case_decide as D; [|done]. subst v. by rewrite Hd'. }
  split.
  - unfold keys_sorted, emptied. rewrite al_keys_modify. apply I'.
  - intros v e. rewrite al_find_emptied. case_decide; [|apply I']. intros (e' & _ & ->)%fmap_Some. constructor.
  - intros v i l [Hv Hne]%Hl _. transitivity (if decide (neighbor l = k) then None else find_counterpart (neighbor l) v a').
    + case_decide as D.
      * destruct (decide (v ∈ ns)) as [Hin|Hout].
        -- apply (Nn v i l Hv). right. split; [done|]. by rewrite take_ge by lia.
        -- rewrite (gi_cp _ _ _ _ I' v i l Hv); [|intros [[? _]|[_ Hin]]; [done|]; apply Hout; by rewrite take_ge in Hin by lia].
           rewrite D. apply find_counterpart_None; [apply I'|]. intros e He. rewrite Hd' in He. injection He as <-.
           change (v ∉ ends (linklist d')). by rewrite He'.
      * apply (gi_cp _ _ _ _ I' v i l Hv). intros [[? _]|[? _]]; done.
    + rewrite !find_counterpart_eq, al_find_emptied. case_decide as D; [by rewrite Hd'|done].
  - intros v i l [Hv _]%Hl. apply (gi_wt _ _ _ _ I' v i l Hv).
  - intros v i l [Hv _]%Hl. apply (gi_good _ _ _ _ I' v i l Hv).
  - intros v e. rewrite al_find_emptied. case_decide; [|apply I']. intros (e' & He & ->)%fmap_Some. exact (gi_valid _ _ _ _ I' k e' He).
Qed.

(** A node without links may go. *)
Lemma erase_ok k d a : graph_inv good a nolink noweight -> al_find k a = Some d -> linklist d = [] ->
  graph_inv good (al_erase k a) nolink noweight.
Proof.
  intros I Hd Hn.
  assert (forall v i l, link (al_erase k a) v i = Some l -> link a v i = Some l) as Hl.
  { intros v i l. unfold link. rewrite al_find_erase. by case_decide. }
  split.
  - apply keys_sorted_erase, I.
  - intros v e. rewrite al_find_erase. case_decide; [done|]. apply I.
  - intros v i l Hv%Hl _. rewrite (gi_cp _ _ _ _ I v i l Hv) by (by intros []).
    rewrite !find_counterpart_eq, al_find_erase. case_decide as D; [|done]. rewrite D, Hd. unfold shape. cbn. by rewrite Hn.
  - intros v i l Hv%Hl. apply (gi_wt _ _ _ _ I v i l Hv).
  - intros v i l Hv%Hl. apply (gi_good _ _ _ _ I v i l Hv).
  - intros v e. rewrite al_find_erase. case_decide; [done|]. apply I.
Qed.
(** ** The loop over the nodes *)

Variable o0 : observer.
Abbreviation inv := (topo_inv good o0).

Definition info (d : NDescr) : Z * Z * list Z := (nodeValidity d, edgeValidity d, nodeName d).
Definition untouched (a a' : AdjList) (v : Z) : Prop := info <$> al_find v a' = info <$> al_find v a /\ edges a' v = edges a v.
(** What is left of the node [v] at [t]. *)
Definition expired (t : Z) (a a' : AdjList) (v : Z) : Prop :=
  match al_find v a with
  | None => al_find v a' = None
  | Some d => if nodeValidity d <=? t then al_find v a' = None
              else info <$> al_find v a' = Some (info d) /\ edges a' v = if edgeValidity d <=? t then [] else pairs (linklist d)
  end.

Lemma same_core_info a a' v : same_core a a' -> info <$> al_find v a' = info <$> al_find v a.
Proof.
  intros [_ C]. specialize (C v). destruct (al_find v a') as [d'|], (al_find v a) as [d|]; try done.
  assert (core d' = core d) as E by (by apply core_inv). unfold core in E. injection E as _ _ E1 E2 E3.
  cbn. unfold info. by rewrite E1, E2, E3.
Qed.

Lemma same_core_untouched a a' v : same_core a a' -> untouched a a' v.
Proof. intros C. split; [by apply same_core_info|by apply same_core_edges]. Qed.

Lemma untouched_trans a b c v : untouched a b v -> untouched b c v -> untouched a c v.
Proof. intros [A1 A2] [B1 B2]. split; congruence. Qed.

(** [dirty] and the constants of the object. *)
Definition same_state (s s' : RTopology) : Prop := same_rest s s' /\ dirty s' = dirty s.
#[export] Instance same_state_refl : Reflexive same_state.
Proof. by intros s. Qed.
#[export] Instance same_state_trans : Transitive same_state.
Proof. intros a b c [(?&?&?&?&?) D1] [(?&?&?&?&?) D2]. split; [repeat split; congruence|congruence]. Qed.

Lemma notify_links_ok k ll s : exists ev, notify_links_removed k ll s = Ok (tt, set_events ev s) /\
  (view o0 (set_events ev s)).1 = (view o0 s).1 /\
  forall u v, (u, v) ∈ (view o0 (set_events ev s)).2 <-> (u, v) ∈ (view o0 s).2 /\ ~ (u = k /\ v ∈ ends ll).
Proof.
  revert s. induction ll as [|l ll IH]; intros s; cbn [notify_links_removed foldr].
  - exists (events s). split; [by destruct s|]. change (view o0 (set_events (events s) s)) with (view o0 s). split; [done|].
    intros u v. split; [|tauto]. intros Hin. split; [done|]. intros [_ Hv]. by apply elem_of_nil in Hv.
  - mprim. destruct (IH (set_events (LinkRemoved k (neighbor l) :: events s) s)) as (ev & E & V1 & V2).
    exists ev. split; [exact E|]. split; [exact V1|]. intros u v. etransitivity; [exact (V2 u v)|].
    change (view o0 (set_events (LinkRemoved k (neighbor l) :: events s) s)).2 with ((view o0 s).2 ∖ {[ (k, neighbor l) ]}).
    rewrite elem_of_difference, elem_of_singleton. cbn [ends fmap list_fmap]. rewrite elem_of_cons.
    split; [intros [[? ?] ?]; split; [done|]; intros [-> [->|?]]; tauto|]. intros [? Hn]. split; [split; [done|]|tauto].
    intros [= -> ->]. tauto.
Qed.

(** The links of [k] have expired. *)
Lemma links_expire k d s : inv s -> al_find k (adjList s) = Some d ->
  exists s', (on_adj (remove_references k (generation d) (seq 0 (length (linklist d))));;
      x ← gets has_xml; lo ← gets has_linkObserver;
      (if (x || lo : bool) then notify_links_removed k (linklist d) else mret tt);;
      on_adj (fun a => Ok (al_modify k (set_linklist []) a));;
      mret true) s = Ok (true, s') /\
    inv s' /\ same_state s s' /\ (adjList s').*1 = (adjList s).*1 /\
    (exists d', al_find k (adjList s') = Some d' /\ info d' = info d /\ linklist d' = []) /\
    forall v, v <> k -> untouched (adjList s) (adjList s') v.
Proof.
  intros [I K L] Hd. destruct (clear_ok k d (adjList s) I Hd) as (a & E & C & I').
  erewrite M_bind_ok by (by apply on_adj_ok). do 2 mprim. cbn [has_xml has_linkObserver set_adj].
  set (s1 := set_adj a s).
  assert (exists s2, (if has_xml s || has_linkObserver s then notify_links_removed k (linklist d) else mret tt) s1 = Ok (tt, s2) /\
    adjList s2 = a /\ same_state s s2 /\ (view o0 s2).1 = (view o0 s).1 /\
    (watched s = true -> forall u v, (u, v) ∈ (view o0 s2).2 <-> (u, v) ∈ (view o0 s).2 /\ ~ (u = k /\ v ∈ ends (linklist d))))
    as (s2 & E2 & A2 & R2 & V1 & V2).
  { unfold watched. destruct (has_xml s || has_linkObserver s).
    - destruct (notify_links_ok k (linklist d) s1) as (ev & E1 & X1 & X2). by exists (set_events ev s1).
    - exists s1. by split_and!. }
  erewrite M_bind_ok by exact E2. erewrite M_bind_ok by (by apply on_adj_ok). rewrite A2. fold (emptied k a).
  exists (set_adj (emptied k a) s2). split; [done|].
  assert (exists d1, al_find k a = Some d1 /\ info d1 = info d) as (d1 & Hd1 & Hi1).
  { pose proof (same_core_info _ _ k C) as Hi. rewrite Hd in Hi. destruct (al_find k a) as [d1|]; [|done]. exists d1. split; [done|].
    change (Some (info d1) = Some (info d)) in Hi. congruence. }
  assert (forall v, v <> k -> untouched (adjList s) (emptied k a) v) as Hu.
  { intros v Hv. apply (untouched_trans _ a); [by apply same_core_untouched|]. unfold untouched, edges.
    rewrite al_find_emptied. by rewrite decide_False. }
  split; [split|split; [done|split; [|split]]].
  - exact I'.
  - apply (nodes_keys o0 s); [|exact V1|exact K]. cbn. unfold emptied. rewrite al_keys_modify. apply C.
  - intros Hw u v. assert (watched s = true) as Hws.
    { destruct R2 as [(_ & _ & X1 & X2 & _) _]. unfold watched in *. cbn in Hw. by rewrite <- X1, <- X2. }
    etransitivity; [exact (V2 Hws u v)|]. rewrite (L Hws u v). cbn. destruct (decide (u = k)) as [->|Hne].
    + unfold edges. rewrite al_find_emptied, decide_True, Hd by done. rewrite Hd1, pairs_ends. cbn.
      split; [tauto|]. by intros ?%elem_of_nil.
    + destruct (Hu u Hne) as [_ ->]. tauto.
  - cbn. unfold emptied. rewrite al_keys_modify. apply C.
  - cbn. rewrite al_find_emptied, decide_True, Hd1 by done. by eexists.
  - exact Hu.
Qed.
(** The node [k] has expired, and has no links any more. *)
Lemma node_expires k d s : inv s -> al_find k (adjList s) = Some d -> linklist d = [] ->
  exists s', (on_adj (fun a => Ok (al_erase k a));; notify (NodeRemoved k)) s = Ok (tt, s') /\ inv s' /\ same_state s s' /\
    adjList s' = al_erase k (adjList s).
Proof.
  intros [I K L] Hd Hn. erewrite M_bind_ok by (by apply on_adj_ok).
  exists (set_events (NodeRemoved k :: events s) (set_adj (al_erase k (adjList s)) s)). split; [done|]. split; [split|done].
  - by apply (erase_ok k d).
  - intros v. change (view o0 _).1 with ((view o0 s).1 ∖ {[ k ]}). rewrite elem_of_difference, elem_of_singleton, (K v).
    change (v ∈ (adjList s).*1 /\ v <> k <-> v ∈ (al_erase k (adjList s)).*1).
    rewrite <- !al_find_is_Some, al_find_erase. case_decide as D; [|tauto]. split; [tauto|]. by intros [].
  - intros Hw u v. etransitivity; [exact (L Hw u v)|]. change (v ∈ (edges (adjList s) u).*1 <-> v ∈ (edges (al_erase k (adjList s)) u).*1).
    unfold edges. rewrite al_find_erase. case_decide as D; [|done]. rewrite D, Hd, Hn. done.
Qed.

(** One round. *)
Definition round (t k : Z) (removed : bool) (d : NDescr) : M RTopology bool :=
  if edgeValidity d <=? t then
    on_adj (remove_references k (generation d) (seq 0 (length (linklist d))));;
    x ← gets has_xml; lo ← gets has_linkObserver;
    (if (x || lo : bool) then notify_links_removed k (linklist d) else mret tt);;
    on_adj (fun a => Ok (al_modify k (set_linklist []) a));;
    mret true
  else mret removed.

Lemma round_ok t k removed d s : inv s -> al_find k (adjList s) = Some d ->
  exists r s', round t k removed d s = Ok (r, s') /\ inv s' /\ same_state s s' /\ (adjList s').*1 = (adjList s).*1 /\
    (exists d', al_find k (adjList s') = Some d' /\ info d' = info d /\ linklist d' = if edgeValidity d <=? t then [] else linklist d) /\
    forall v, v <> k -> untouched (adjList s) (adjList s') v.
Proof.
  intros I Hd. unfold round. destruct (edgeValidity d <=? t).
  - destruct (links_expire k d s I Hd) as (s' & E & H). by exists true, s'.
  - exists removed, s. split_and!; try done. by exists d.
Qed.

Lemma untouched_expired t a b c v : untouched a b v -> expired t b c v -> expired t a c v.
Proof.
  intros [Hi He]. unfold expired. destruct (al_find v a) as [d|] eqn:E1, (al_find v b) as [d'|] eqn:E2; try done.
  assert (info d' = info d) as Ei. { change (Some (info d') = Some (info d)) in Hi. congruence. }
  rewrite Ei. unfold info in Ei. injection Ei as -> -> _. unfold edges in He at 1 2. rewrite E1, E2 in He. by rewrite He.
Qed.

Lemma expired_untouched t a b c v : expired t a b v -> untouched b c v -> (al_find v b = None -> al_find v c = None) -> expired t a c v.
Proof.
  unfold expired, untouched. intros Ha [Hi He] Hn. destruct (al_find v a) as [d|]; [|by apply Hn].
  destruct (_ <=? t); [by apply Hn|]. by rewrite Hi, He.
Qed.

Lemma untouched_None a b v : untouched a b v -> al_find v a = None -> al_find v b = None.
Proof. intros [Hi _] Hn. rewrite Hn in Hi. by destruct (al_find v b). Qed.

Lemma remove_old_loop_ok t ks : forall removed next s, inv s -> NoDup ks -> (forall v, v ∈ ks -> v ∈ (adjList s).*1) ->
  exists r s', remove_old_loop t ks removed next s = Ok (r, s') /\ inv s' /\ same_state s s' /\
    forall v, if decide (v ∈ ks) then expired t (adjList s) (adjList s') v else untouched (adjList s) (adjList s') v.
Proof.
  induction ks as [|k ks IH]; intros removed next s I Hnd Hin; cbn [remove_old_loop].
  { exists (removed, next), s. split_and!; try done. }
  apply NoDup_cons in Hnd as [Hk Hnd].
  destruct (proj2 (al_find_is_Some k (adjList s)) (Hin k (list_elem_of_here _ _))) as [d Hd].
  mprim. rewrite Hd. mlift. destruct (round_ok t k removed d s I Hd) as (rm & s1 & E1 & I1 & R1 & K1 & (d1 & Hd1 & Hi1 & Hl1) & U1).
  erewrite M_bind_ok by exact E1.
  assert (forall s2 nx rm', inv s2 -> same_state s s2 -> (forall v, v <> k -> untouched (adjList s) (adjList s2) v) ->
    expired t (adjList s) (adjList s2) k -> (forall v, v ∈ ks -> v ∈ (adjList s2).*1) ->
    exists r s', remove_old_loop t ks rm' nx s2 = Ok (r, s') /\ inv s' /\ same_state s s' /\
      forall v, if decide (v ∈ k :: ks) then expired t (adjList s) (adjList s') v else untouched (adjList s) (adjList s') v) as Hrest.
  { intros s2 nx rm' I2 R2 U2 X2 Hin2. destruct (IH rm' nx s2 I2 Hnd Hin2) as (r & s' & E' & I' & R' & X').
    exists r, s'. split; [done|]. split; [done|]. split; [by transitivity s2|]. intros v. specialize (X' v).
    destruct (decide (v = k)) as [->|Hne].
    - rewrite decide_False in X' by done. rewrite decide_True by apply list_elem_of_here.
      eapply expired_untouched; [done|done|by apply untouched_None].
    - case_decide as D1; case_decide as D2; rewrite ?elem_of_cons in *; try tauto.
      + by eapply untouched_expired; [apply U2|].
      + by eapply untouched_trans; [apply U2|]. }
  assert (info d1 = info d) as Hi1' by done. unfold info in Hi1. injection Hi1 as Hnv Hev _.
  assert (forall v, v ∈ ks -> v <> k) as Hneq by (intros v Hv ->; done).
  destruct (Z.leb_spec (nodeValidity d) t) as [Hdead|Hlive].
  - assert (edgeValidity d <= t) as Hed by (pose proof (gi_valid _ _ _ _ (ti_graph _ _ _ I) k d Hd); lia).
    rewrite (proj2 (Z.leb_le _ _) Hed) in Hl1.
    destruct (node_expires k d1 s1 I1 Hd1 Hl1) as (s2 & E2 & I2 & R2 & A2).
    assert (forall (j : M RTopology (bool * Z)), (on_adj (fun a => Ok (al_erase k a));; notify (NodeRemoved k);; j) s1 = j s2) as Hseq.
    { intros j. revert E2. unfold mbind, M_bind. destruct (on_adj _ s1) as [[[] s3]|]; [|done]. by intros ->. }
    rewrite Hseq. apply Hrest; [done|by transitivity s1| | |].
    + intros v Hv. eapply untouched_trans; [by apply U1|]. rewrite A2. unfold untouched, edges. rewrite al_find_erase.
      by rewrite decide_False.
    + unfold expired. rewrite Hd, (proj2 (Z.leb_le _ _) Hdead), A2, al_find_erase. by rewrite decide_True.
    + intros v Hv. rewrite A2, <- al_find_is_Some, al_find_erase, decide_False by auto. apply al_find_is_Some. rewrite K1.
      apply Hin. by right.
  - apply Hrest; [done|done|done| |].
    + unfold expired. rewrite Hd, (proj2 (Z.leb_gt _ _) Hlive). split; [rewrite Hd1; cbn; by rewrite Hi1'|].
      unfold edges. rewrite Hd1, Hl1. by destruct (_ <=? t).
    + intros v Hv. rewrite K1. apply Hin. by right.
Qed.

(** [removeOldNodes] with at least one node. *)
Lemma removeOldNodes_ok `{Gea} t s : inv s -> adjList s <> [] ->
  exists next s', removeOldNodes t s = Ok (next, s') /\ inv s' /\ same_state s s' /\
    forall v, if locked s then untouched (adjList s) (adjList s') v else expired t (adjList s) (adjList s') v.
Proof.
  intros I Hne. unfold removeOldNodes. mprim. rewrite bool_decide_eq_false_2 by done. mlift. cbv zeta. mprim.
  destruct (locked s) eqn:Hlk; [by exists (t + duration 31415 10), s|].
  destruct (remove_old_loop_ok t (adjList s).*1 false (t + duration 31415 10) s I) as ([rm nx] & s1 & E & I1 & R1 & X1).
  { apply keys_sorted_NoDup, I. } { done. }
  erewrite M_bind_ok by exact E. mprim. cbn [fst snd].
  assert (forall v, expired t (adjList s) (adjList s1) v) as X.
  { intros v. specialize (X1 v). case_decide as D; [done|]. unfold expired. rewrite <- al_find_is_Some in D.
    destruct (al_find v (adjList s)) as [d|] eqn:Ed; [exfalso; apply D; by eexists|]. by eapply untouched_None. }
  destruct (has_xml s1 && rm).
  - mprim. do 2 eexists. split; [reflexivity|]. split; [by apply (topo_inv_ext good o0 s1)|]. split; [|exact X].
    transitivity s1; [exact R1|done].
  - mprim. by do 2 eexists.
Qed.
End expiry.

(** ** The computation of routes keeps the rest *)

(** All of a node but its route. *)
Definition kept_part (d : NDescr) : nat * list LinkQuality * Z * Z * list Z :=
  (generation d, linklist d, nodeValidity d, edgeValidity d, nodeName d).
Definition grows (a a' : AdjList) : Prop :=
  forall v d, al_find v a = Some d -> exists d', al_find v a' = Some d' /\ kept_part d' = kept_part d.
#[export] Instance grows_refl : Reflexive grows.
Proof. intros a v d Hd. by exists d. Qed.
#[export] Instance grows_trans : Transitive grows.
Proof. intros a b c H1 H2 v d (d1 & E1 & P1)%H1. apply H2 in E1 as (d2 & E2 & P2). exists d2. split; [done|congruence]. Qed.

Lemma grows_modify k f a : (forall d, kept_part (f d) = kept_part d) -> grows a (al_modify k f a).
Proof.
  intros Hf v d Hd. rewrite al_find_modify. case_decide as D; [|by exists d]. rewrite D in Hd |- *. rewrite Hd. by exists (f d).
Qed.

Lemma grows_index k a : grows a (al_index k a).2.
Proof.
  unfold al_index. destruct (al_find k a) as [d|] eqn:E; [done|]. cbn. intros v d Hd. rewrite al_find_insert by done.
  case_decide as D; [congruence|by exists d].
Qed.

Lemma grows_init me a : grows a (init_routes me a).
Proof. intros v d Hd. rewrite al_find_init, Hd. cbn. eexists. split; [done|]. by destruct (v =? me). Qed.

Lemma grows_relax nearest ll : forall a a', relax nearest ll a = Ok a' -> grows a a'.
Proof.
  induction ll as [|l ll IH]; intros a a'; cbn [relax]; [by intros [= ->]|].
  destruct (_ =? _); [by intros [= ->]|]. destruct (al_find (neighbor l) a); [|apply IH].
  intros (_ & _ & E)%outcome_bind_ok. destruct (_ <? _) in E; [|by apply IH]. apply IH in E.
  etransitivity; [|exact E]. by apply grows_modify.
Qed.

Lemma grows_dijkstra `{StdSort} n : forall todo a a', dijkstra_loop n todo a = Ok a' -> grows a a'.
Proof.
  induction n as [|n IH]; intros todo a a'; cbn [dijkstra_loop]; destruct todo as [|x todo]; try done; try (by intros [= ->]).
  repeat case_match; try done. intros (_ & _ & E)%outcome_bind_ok. apply outcome_bind_ok in E as (d & _ & E).
  apply outcome_bind_ok in E as (a1 & E1 & E2). etransitivity; [by eapply grows_relax|by eapply IH].
Qed.

Lemma grows_next_hop fuel me : forall k a a', calcNextHop fuel me k a = Ok a' -> grows a a'.
Proof.
  induction fuel as [|fuel IH]; intros k a a'; cbn [calcNextHop]; [done|].
  pose proof (grows_index k a) as G1. destruct (al_index k a) as [d a1]. cbn in G1.
  destruct (_ =? unsigned_max); [intros [= <-]; etransitivity; [done|by apply grows_modify]|].
  destruct (negb _); [by intros [= <-]|].
  destruct (prevHop d =? me); [intros [= <-]; etransitivity; [done|by apply grows_modify]|].
  pose proof (grows_index (prevHop d) a1) as G2. destruct (al_index (prevHop d) a1) as [p a2]. cbn in G2.
  intros (_ & _ & E)%outcome_bind_ok. apply outcome_bind_ok in E as (a3 & E3 & E).
  pose proof (grows_index (prevHop d) a3) as G4. destruct (al_index (prevHop d) a3) as [p' a4]. cbn in G4. injection E as <-.
  etransitivity; [exact G1|]. etransitivity; [exact G2|]. etransitivity; [by eapply IH|]. etransitivity; [exact G4|]. by apply grows_modify.
Qed.

Lemma grows_next_hops fuel me ks : forall a a', calcNextHops fuel me ks a = Ok a' -> grows a a'.
Proof.
  induction ks as [|k ks IH]; intros a a'; cbn [calcNextHops]; [by intros [= ->]|].
  intros (a1 & E1 & E2)%outcome_bind_ok. etransitivity; [by eapply grows_next_hop|by apply IH].
Qed.

Lemma grows_routes `{StdSort} me a a' : routes me a = Ok a' -> grows a a'.
Proof.
  unfold routes. intros (_ & _ & E)%outcome_bind_ok. apply outcome_bind_ok in E as (a1 & E1 & E2).
  etransitivity; [apply grows_init|]. etransitivity; [by eapply grows_dijkstra|by eapply grows_next_hops].
Qed.

(** With the same keys nothing else has changed. *)
Lemma grows_find a a' v : grows a a' -> a'.*1 = a.*1 -> kept_part <$> al_find v a' = kept_part <$> al_find v a.
Proof.
  intros G K. destruct (al_find v a) as [d|] eqn:E.
  - destruct (G v d E) as (d' & -> & P). cbn. by rewrite P.
  - destruct (al_find v a') as [d'|] eqn:E'; [|done]. exfalso.
    assert (v ∈ a.*1) as Hv by (rewrite <- K; apply al_find_is_Some; by eexists). apply al_find_is_Some in Hv as [? Hv]. congruence.
Qed.

Section database.
Context `{Gea, Metric, StdSort} (good : Z -> Prop).
Hypothesis metric_good : forall f b, good f -> good b -> exists w, my_calculate f b = Ok w /\ 0 < w.
Variable o0 : observer.
Abbreviation inv := (topo_inv good o0).

Lemma inv_weights s : inv s -> weights_ok (adjList s).
Proof.
  intros [I _ _] u l Hu Hl _. unfold links_of in Hl. destruct (al_find u (adjList s)) as [d|] eqn:E; [|by apply elem_of_nil in Hl].
  apply list_elem_of_lookup in Hl as [i Hi]. apply (gi_wt _ _ _ _ I u i); [unfold link; by rewrite E|by intros []].
Qed.

(** A change of the routes only. *)
Lemma inv_routes a' s : inv s -> grows (adjList s) a' -> a'.*1 = (adjList s).*1 -> inv (set_adj a' s).
Proof.
  intros [I K L] G Ek. pose proof (fun v => grows_find (adjList s) a' v G Ek) as F.
  assert (same_links (adjList s) a') as S.
  { intros v. specialize (F v). destruct (al_find v a') as [d'|], (al_find v (adjList s)) as [d|]; try done.
    change (Some (kept_part d') = Some (kept_part d)) in F. cbn. assert (kept_part d' = kept_part d) as P by congruence.
    unfold kept_part in P. by injection P as -> -> _ _ _. }
  split.
  - apply (graph_inv_same_links good (adjList s) a'); [done|unfold keys_sorted; rewrite Ek; apply I| |done].
    intros v d' Hd'. specialize (F v). cbn in Hd'. rewrite Hd' in F. destruct (al_find v (adjList s)) as [d|] eqn:Ed; [|done].
    change (Some (kept_part d') = Some (kept_part d)) in F. assert (kept_part d' = kept_part d) as P by congruence.
    unfold kept_part in P. injection P as _ _ -> -> _. by apply (gi_valid _ _ _ _ I v).
  - by apply (nodes_keys o0 s).
  - intros Hw u v. cbn. rewrite (same_links_edges (adjList s)) by done. by apply L.
Qed.

Lemma calcRoutes_inv s : inv s -> myNodeId s ∈ (adjList s).*1 -> (length (adjList s) <= 1024)%nat ->
  exists a, calcRoutes s = Ok (tt, set_dirty false (set_adj a s)) /\ inv (set_dirty false (set_adj a s)) /\
    routes_spec (myNodeId s) (adjList s) a /\ (forall v, kept_part <$> al_find v a = kept_part <$> al_find v (adjList s)).
Proof.
  intros I Hme Hlen.
  destruct (routes_correct (myNodeId s) (adjList s)) as (a & E & Sp); [apply keys_sorted_NoDup, I|done|done|by apply inv_weights|].
  exists a. split; [unfold calcRoutes, on_adj, gets, modify, lift, mbind, M_bind; by rewrite E|].
  pose proof (grows_routes _ _ _ E) as G. split; [|split; [done|intros v; apply grows_find; [done|apply Sp]]].
  apply (topo_inv_ext good o0 (set_adj a s)); try done. apply inv_routes; [done|done|apply Sp].
Qed.

(** The number of nodes does not grow with the expiry. *)
Lemma fewer_nodes (a a' : AdjList) : keys_sorted a' -> (forall v, v ∈ a'.*1 -> v ∈ a.*1) -> (length a' <= length a)%nat.
Proof.
  intros Hs Hin. rewrite <- (length_fmap fst a'), <- (length_fmap fst a). apply submseteq_length, NoDup_submseteq; [by apply keys_sorted_NoDup|].
  intros v. apply Hin.
Qed.

Lemma expired_key t a a' v : expired t a a' v -> v ∈ a'.*1 -> v ∈ a.*1.
Proof. unfold expired. rewrite <- !al_find_is_Some. destruct (al_find v a); [by eexists|]. by intros -> []. Qed.

Lemma untouched_key a a' v : untouched a a' v -> v ∈ a'.*1 <-> v ∈ a.*1.
Proof.
  intros [Hi _]. rewrite <- !al_find_is_Some. destruct (al_find v a), (al_find v a'); try done; split; intros []; try done; by eexists.
Qed.

(** This node is there at [t]. *)
Definition alive (t : Z) (s : RTopology) : Prop :=
  exists d, al_find (myNodeId s) (adjList s) = Some d /\ (locked s = false -> t < nodeValidity d).

(** [updateTopology] once the expired nodes are gone. *)
Definition update_end : M RTopology unit :=
  calcRoutes;;
  a ← gets adjList;
  hk ← gets has_kernel;
  if (hk : bool) then notify (KernelTable (topology_data 0 a)) else mret tt.

Lemma update_end_ok s : inv s -> myNodeId s ∈ (adjList s).*1 -> (length (adjList s) <= 1024)%nat ->
  exists s', update_end s = Ok (tt, s') /\ inv s' /\ same_rest s s' /\ dirty s' = false /\
    routes_spec (myNodeId s) (adjList s) (adjList s') /\ forall v, untouched (adjList s) (adjList s') v.
Proof.
  intros I Hme Hlen. destruct (calcRoutes_inv s I Hme Hlen) as (a & E2 & I2 & Sp & Hk).
  unfold update_end. erewrite M_bind_ok by exact E2. do 2 mprim.
  assert (forall v, untouched (adjList s) a v) as Hu.
  { intros v. specialize (Hk v). unfold untouched, edges. destruct (al_find v a) as [d'|], (al_find v (adjList s)) as [d1|]; try done.
    change (Some (kept_part d') = Some (kept_part d1)) in Hk. assert (kept_part d' = kept_part d1) as P by congruence.
    unfold kept_part in P. injection P as _ P2 P3 P4 P5. cbn. unfold info. by rewrite P2, P3, P4, P5. }
  set (s2 := set_dirty false (set_adj a s)) in *.
  destruct (has_kernel s2).
  - eexists. split; [reflexivity|]. split; [by apply (topo_inv_ext good o0 s2)|]. done.
  - eexists. split; [reflexivity|]. done.
Qed.

(** What is left of a node after [updateTopology]. *)
Definition after (t : Z) (s s' : RTopology) (v : Z) : Prop :=
  if locked s then untouched (adjList s) (adjList s') v else expired t (adjList s) (adjList s') v.

Lemma after_key t s s' v : after t s s' v -> v ∈ (adjList s').*1 -> v ∈ (adjList s).*1.
Proof. unfold after. destruct (locked s); [apply untouched_key|apply expired_key]. Qed.

Lemma after_untouched t s s1 s2 v : after t s s1 v -> untouched (adjList s1) (adjList s2) v -> after t s s2 v.
Proof.
  unfold after. destruct (locked s); intros A U; [by eapply untouched_trans|].
  eapply expired_untouched; [exact A|exact U|]. by apply untouched_None.
Qed.

(** If [updateTopology] succeeds, or this node is still there. *)
Lemma updateTopology_step t s : inv s -> adjList s <> [] -> (length (adjList s) <= 1024)%nat ->
  (alive t s \/ exists r, updateTopology t s = Ok r) ->
  exists s', updateTopology t s = Ok (tt, s') /\ inv s' /\ same_rest s s' /\ dirty s' = false /\
    (exists a, routes_spec (myNodeId s) a (adjList s')) /\ forall v, after t s s' v.
Proof.
  intros I Hne Hlen Hor. destruct (removeOldNodes_ok good o0 t s I Hne) as (next & s1 & E1 & I1 & [R1 _] & X1).
  assert (updateTopology t s = update_end s1) as E by (unfold updateTopology; by erewrite M_bind_ok by exact E1).
  assert (myNodeId s1 = myNodeId s) as Eme by apply R1.
  assert (myNodeId s1 ∈ (adjList s1).*1) as Hme.
  { destruct Hor as [(d & Hd & Hlive)|[[u r] Hok]].
    - rewrite Eme. specialize (X1 (myNodeId s)). destruct (locked s) eqn:Hlk.
      + apply (untouched_key _ _ _ X1). apply al_find_is_Some. rewrite Hd. by eexists.
      + unfold expired in X1. rewrite Hd, (proj2 (Z.leb_gt _ _)) in X1 by (by apply Hlive). destruct X1 as [X1 _].
        apply al_find_is_Some. by destruct (al_find (myNodeId s) (adjList s1)); [eexists|].
    - destruct (decide (myNodeId s1 ∈ (adjList s1).*1)) as [|Hno]; [done|]. exfalso. rewrite E in Hok.
      unfold update_end, calcRoutes, on_adj, routes, gets, lift, mbind, M_bind in Hok.
      rewrite bool_decide_eq_false_2 in Hok by (by rewrite al_find_is_Some). done. }
  destruct (update_end_ok s1 I1 Hme) as (s2 & E2 & I2 & R2 & D2 & Sp & U2).
  { pose proof (fewer_nodes (adjList s) (adjList s1) (gi_keys _ _ _ _ (ti_graph _ _ _ I1))) as F.
    enough (length (adjList s1) <= length (adjList s))%nat by lia. apply F. intros v. by apply (after_key t s s1), X1. }
  exists s2. split; [by rewrite E|]. split; [done|]. split; [by transitivity s1|]. split; [done|].
  split; [rewrite <- Eme; by eexists|]. intros v. by eapply after_untouched; [apply X1|].
Qed.

(** ** Stations that are heard of *)

Definition all_known (V : list Z) (s : RTopology) : Prop :=
  forall v, (v ∈ (adjList s).*1 -> v ∈ V) /\ (edges (adjList s) v).*1 ⊆ V.

Lemma after_edges t s s' v : after t s s' v -> edges (adjList s') v ⊆ edges (adjList s) v.
Proof.
  unfold after. destruct (locked s); [intros [_ ->]; done|]. unfold expired.
  destruct (al_find v (adjList s)) as [d|] eqn:E; [|intros Hn; unfold edges at 1; rewrite Hn; apply list_subseteq_nil].
  destruct (_ <=? t); [intros Hn; unfold edges at 1; rewrite Hn; apply list_subseteq_nil|]. intros [_ ->].
  destruct (_ <=? t); [apply list_subseteq_nil|]. unfold edges. by rewrite E.
Qed.

Lemma after_known t V s s' : (forall v, after t s s' v) -> all_known V s -> all_known V s'.
Proof.
  intros A K v. destruct (K v) as [K1 K2]. split; [intros Hv; by apply K1, (after_key t s s')|].
  intros x (y & -> & Hy)%list_elem_of_fmap. apply K2, list_elem_of_fmap. exists y. split; [done|]. by apply (after_edges t s s').
Qed.

Lemma known_small V s : inv s -> all_known V s -> (length V <= 1024)%nat -> (length (adjList s) <= 1024)%nat.
Proof.
  intros I K Hl. rewrite <- (length_fmap fst). etransitivity; [|exact Hl].
  apply submseteq_length, NoDup_submseteq; [apply keys_sorted_NoDup, I|]. intros v. apply K.
Qed.

Lemma find_not_nil (a : AdjList) v d : al_find v a = Some d -> a <> [].
Proof. by intros Hd ->. Qed.

(** [feed] with a valid packet, if it succeeds or this node is still there. *)
Lemma feed_step (V : list Z) p new t s :
  inv s -> locked s = false -> valid_packet good p new -> all_known V s -> (length V <= 1024)%nat ->
  SrcPacket.getSrc p ∈ V -> ends new ⊆ V -> (alive t s \/ exists r, feed p t s = Ok r) ->
  let src := SrcPacket.getSrc p in
  exists s', feed p t s = Ok (tt, s') /\ inv s' /\ all_known V s' /\ same_rest s s' /\
    edges (adjList s') src = pairs new /\
    (forall v d, v <> src -> al_find v (adjList s) = Some d -> t < edgeValidity d -> edges (adjList s') v = edges (adjList s) v) /\
    (dirty s = true \/ pairs new <> edges (adjList s) src -> dirty s' = false /\ exists a, routes_spec (myNodeId s) a (adjList s')).
Proof.
  intros I Hlk Vp K Hlen Hsrc Hnew Hor src.
  destruct (feed_ok good metric_good o0 (fun v => v ∈ V) p new t s I Hlk Vp) as (s1 & E & I1 & Es & Ek & (ds & Hds & Evs & Nvs) & D1 & R1 & Kn).
  { intros v [Hv|Hv]; [exact (proj1 (K v) Hv)|]. fold src in Hv. rewrite elem_of_cons, elem_of_app in Hv.
    destruct Hv as [->|[Hv|Hv]]; [done|by apply Hnew|]. by apply (proj2 (K src)). }
  fold src in Es, Ek, Hds, D1.
  assert (all_known V s1) as K1.
  { intros v. split; [apply Kn|]. destruct (decide (v = src)) as [->|Hv]; [rewrite Es, pairs_ends; done|].
    destruct (Ek v Hv) as [-> _]. apply (K v). }
  assert (dirty s = true \/ pairs new <> edges (adjList s) src -> dirty s1 = true) as Hd.
  { rewrite D1. intros [->|Hne]; [done|]. by rewrite bool_decide_eq_false_2, orb_true_r. }
  destruct (dirty s1).
  - assert (0 < TopoPacket.getValidity p) as Hval by apply Vp.
    destruct (updateTopology_step t s1 I1) as (s2 & E2 & I2 & R2 & D2 & Rt & A2).
    + by eapply find_not_nil.
    + by eapply known_small.
    + destruct Hor as [(d & Hme & Hlive)|[r Hr]]; [left|right; exists r; by rewrite <- E].
      assert (myNodeId s1 = myNodeId s /\ locked s1 = locked s) as [Eme Elk] by (split; apply R1).
      unfold alive. rewrite Eme, Elk. destruct (decide (myNodeId s = src)) as [Em|Hm].
      * exists ds. rewrite Em. split; [done|]. intros _. lia.
      * destruct (Ek _ Hm) as [_ Hkd]. destruct (Hkd d Hme) as (d1 & Hd1 & _ & Hn). exists d1. split; [done|]. intros Hl. specialize (Hlive Hl). lia.
    + exists s2. split; [by rewrite E|]. split; [done|]. split; [by eapply after_known|]. split; [by transitivity s1|].
      assert (locked s1 = false) as Hlk1 by (rewrite <- Hlk; apply R1).
      assert (forall v d, al_find v (adjList s1) = Some d -> t < edgeValidity d -> edges (adjList s2) v = edges (adjList s1) v) as Hlives.
      { intros v d Hd1 Ht. specialize (A2 v). unfold after in A2. rewrite Hlk1 in A2. unfold expired in A2. rewrite Hd1 in A2.
        pose proof (gi_valid _ _ _ _ (ti_graph _ _ _ I1) v d Hd1).
        rewrite !(proj2 (Z.leb_gt _ _)) in A2 by lia. destruct A2 as [_ ->]. unfold edges. by rewrite Hd1. }
      split; [rewrite <- Es; apply (Hlives src ds Hds); lia|]. split.
      * intros v d Hv Hd1 Ht. destruct (Ek v Hv) as [<- Hkd]. destruct (Hkd d Hd1) as (d1 & Hd1' & Ev & _).
        apply (Hlives v d1 Hd1'). lia.
      * intros _. split; [done|]. assert (myNodeId s1 = myNodeId s) as <- by apply R1. done.
  - exists s1. split; [by rewrite E|]. split; [done|]. split; [done|]. split; [done|]. split; [done|]. split.
    + intros v d Hv _ _. apply (Ek v Hv).
    + intros Hc. by specialize (Hd Hc).
Qed.
(** [doInvalidate] *)
Lemma al_find_invalidate t me a v : al_find v (map (doInvalidate t me) a) =
  (fun d => if v =? me then d else set_validity t t d) <$> al_find v a.
Proof.
  induction a as [|[k d] a IH]; [done|]. cbn [map al_find]. unfold doInvalidate at 1. cbn [fst snd].
  destruct (Z.eqb_spec k me) as [Hk|Hk]; cbn [al_find]; destruct (Z.eqb_spec v k) as [Hv|Hv]; try exact IH; cbn;
    destruct (Z.eqb_spec v me); congruence.
Qed.

Lemma invalidate_keys t me a : (map (doInvalidate t me) a).*1 = a.*1.
Proof. induction a as [|[k d] a IH]; [done|]. cbn. unfold doInvalidate at 1. cbn. f_equal; [by destruct (k =? me)|exact IH]. Qed.

Lemma inv_invalidate t me s : inv s -> inv (set_adj (map (doInvalidate t me) (adjList s)) s) /\
  forall v, edges (map (doInvalidate t me) (adjList s)) v = edges (adjList s) v.
Proof.
  intros [I K L]. set (a := map _ _).
  assert (same_links (adjList s) a) as S.
  { intros v. unfold a. rewrite al_find_invalidate. destruct (al_find v (adjList s)) as [d|]; [|done]. cbn. by destruct (v =? me). }
  assert (forall v, edges a v = edges (adjList s) v) as He by (intros v; by apply same_links_edges).
  split; [split|exact He].
  - apply (graph_inv_same_links good (adjList s) a); [done|unfold keys_sorted, a; rewrite invalidate_keys; apply I| |done].
    intros v d. unfold a. rewrite al_find_invalidate. intros (e & Ee & ->)%fmap_Some. destruct (v =? me); [by apply (gi_valid _ _ _ _ I v)|cbn; lia].
  - apply (nodes_keys o0 s); [apply invalidate_keys|done|done].
  - intros Hw u v. cbn. rewrite He. by apply L.
Qed.

(** [removeOldNodes], if it succeeds. *)
Lemma removeOldNodes_step t s r s' : inv s -> removeOldNodes t s = Ok (r, s') -> inv s' /\ same_rest s s' /\ forall v, after t s s' v.
Proof.
  intros I E. destruct (decide (adjList s = [])) as [Hn|Hne].
  - unfold removeOldNodes in E. revert E. mprim. by rewrite bool_decide_eq_true_2.
  - destruct (removeOldNodes_ok good o0 t s I Hne) as (n & s1 & E1 & I1 & [R1 _] & X1). rewrite E1 in E. injection E as _ <-. done.
Qed.

Lemma update_not_nil t s r : updateTopology t s = Ok r -> adjList s <> [].
Proof.
  intros E Hn. unfold updateTopology, removeOldNodes in E. revert E. unfold mbind, M_bind, gets. rewrite Hn. done.
Qed.
End database.

(** ** Every state of a topology *)

Inductive event :=
| Packet (p : BasePacket)                   (* [feed] *)
| Cleanup                                   (* [cleanup_nodes] *)
| Reset (now : Z)                           (* [reset] *)
| Route (dest nexthop : Z)                  (* [getNextHop] *)
| SetLocked (l : bool).                     (* [setLocked] *)

Definition handle `{Gea, Metric, StdSort} (e : event) (t : Z) : M RTopology unit :=
  match e with
  | Packet p => feed p t
  | Cleanup => _next ← cleanup_nodes t; mret tt
  | Reset now => reset now t
  | Route dest nexthop => _r ← getNextHop t dest nexthop; mret tt
  | SetLocked l => modify (setLocked l)
  end.

Section runs.
Context `{Gea, Metric, StdSort} (good : Z -> Prop) (V : list Z).

(** Topology packets are ignored, or valid and about the stations [V]. *)
Definition accepted (s : RTopology) (e : event) : Prop :=
  match e with
  | Packet p => locked s = true \/ size p < Z.of_nat TopoPacket.OffsetLinks + 1 \/
      SrcPacket.getSrc p ∈ V /\ exists new, valid_packet good p new /\ ends new ⊆ V
  | _ => True
  end.

Inductive reachable (s0 : RTopology) : RTopology -> Prop :=
| reach_start : reachable s0 s0
| reach_event s e t s' : reachable s0 s -> accepted s e -> handle e t s = Ok (tt, s') -> reachable s0 s'.

Hypothesis metric_good : forall f b, good f -> good b -> exists w, my_calculate f b = Ok w /\ 0 < w.
Hypothesis few : (length V <= 1024)%nat.

Lemma step_inv o0 e t s s' : topo_inv good o0 s -> all_known V s -> accepted s e -> handle e t s = Ok (tt, s') ->
  topo_inv good o0 s' /\ all_known V s'.
Proof.
  intros I K Ha E. destruct e as [p| |now|dest nexthop|l]; cbn [handle] in E.
  - assert (feed p t s = Ok (tt, s) -> topo_inv good o0 s' /\ all_known V s') as Hsame.
    { intros E'. rewrite E' in E. by injection E as <-. }
    destruct (locked s) eqn:Hlk.
    { apply Hsame. unfold feed. mprim. by rewrite Hlk. }
    destruct Ha as [?|[Hsz|(Hsrc & new & Vp & Hnew)]]; [congruence| |].
    { apply Hsame. unfold feed. mprim. rewrite Hlk. by rewrite (proj2 (Z.ltb_lt _ _) Hsz). }
    destruct (feed_step good metric_good o0 V p new t s I Hlk Vp K few Hsrc Hnew) as (s1 & E1 & I1 & K1 & _); [right; by eexists|].
    rewrite E1 in E. by injection E as <-.
  - apply M_bind_inv in E as (r & s1 & E1 & E2). injection E2 as <-.
    destruct (removeOldNodes_step good o0 t s r s1 I E1) as (I1 & _ & A1). split; [done|]. by eapply after_known.
  - unfold reset in E. revert E. do 2 mprim. erewrite M_bind_ok by (by apply on_adj_ok). intros E.
    apply M_bind_inv in E as (r & s1 & E1 & E2). injection E2 as <-.
    destruct (inv_invalidate good o0 now (myNodeId s) s I) as [I0 He].
    set (s2 := set_adj _ (set_dirty true s)) in E1.
    assert (topo_inv good o0 s2) as I2 by (by apply (topo_inv_ext good o0 (set_adj (map (doInvalidate now (myNodeId s)) (adjList s)) s))).
    destruct (removeOldNodes_step good o0 t s2 r s1 I2 E1) as (I1 & _ & A1). split; [done|]. eapply after_known; [exact A1|].
    intros v. cbn. rewrite invalidate_keys, He. apply K.
  - unfold getNextHop in E. apply M_bind_inv in E as (r & s1 & E1 & E2). injection E2 as <-. revert E1. mprim. intros E1.
    apply M_bind_inv in E1 as ([] & s2 & E2 & E1). apply M_bind_inv in E1 as (a & s3 & [= <- <-] & E1).
    apply M_bind_inv in E1 as (me & s3 & [= <- <-] & E1). injection E1 as _ <-.
    destruct (dirty s); [|by injection E2 as <-].
    destruct (updateTopology_step good o0 t s I) as (s3 & E3 & I3 & _ & _ & _ & A3).
    + by eapply update_not_nil.
    + by eapply known_small.
    + right. by eexists.
    + rewrite E3 in E2. injection E2 as <-. split; [done|]. by eapply after_known.
  - injection E as <-. split; [by apply (topo_inv_ext good o0 s)|exact K].
Qed.

(** What an observer knows of a new topology: this station. *)
Definition newcomer (id : Z) : observer := ({[ id ]}, ∅).

Lemma new_inv id t xml lo hk : id ∈ V -> topo_inv good (newcomer id) (RTopology_new id t xml lo hk) /\ all_known V (RTopology_new id t xml lo hk).
Proof.
  intros Hid. set (s := RTopology_new id t xml lo hk).
  assert (forall v d, al_find v (adjList s) = Some d -> v = id /\ linklist d = [] /\ edgeValidity d = nodeValidity d) as Hf.
  { intros v d. cbn. destruct (Z.eqb_spec v id) as [->|]; [|done]. by intros [= <-]. }
  assert (forall v i, link (adjList s) v i = None) as Hl.
  { intros v i. unfold link. destruct (al_find v (adjList s)) as [d|] eqn:E; [|done]. apply Hf in E as (_ & E & _). cbn. by rewrite E. }
  assert (forall v, edges (adjList s) v = []) as He.
  { intros v. unfold edges. destruct (al_find v (adjList s)) as [d|] eqn:E; [|done]. apply Hf in E as (_ & E & _). by rewrite E. }
  split; [split; [split|..]|].
  - by repeat constructor.
  - intros v d (_ & E & _)%Hf. rewrite E. constructor.
  - intros v i l. by rewrite Hl.
  - intros v i l. by rewrite Hl.
  - intros v i l. by rewrite Hl.
  - intros v d (_ & _ & ->)%Hf. done.
  - intros v. change (v ∈ ({[ id ]} : gset Z) <-> v ∈ [id]). by rewrite elem_of_singleton, list_elem_of_singleton.
  - intros _ u v. rewrite He. change ((u, v) ∈ (∅ : gset (Z * Z)) <-> v ∈ ([] : list Z)). by rewrite elem_of_empty, elem_of_nil.
  - intros v. rewrite He. split; [|intros x Hx; by apply elem_of_nil in Hx]. intros ->%list_elem_of_singleton. done.
Qed.

Lemma reachable_inv id t xml lo hk s : id ∈ V -> reachable (RTopology_new id t xml lo hk) s ->
  topo_inv good (newcomer id) s /\ all_known V s.
Proof.
  intros Hid. induction 1 as [|s e t' s' _ [I K] Ha E]; [by apply new_inv|]. by eapply step_inv.
Qed.
End runs.

(** ** The theorems *)

(** A pointer of a state that has the invariant: both ends point to each other. *)
Lemma inv_pair good o0 s v i l : topo_inv good o0 s -> link (adjList s) v i = Some l ->
  match counterpart l with
  | Some q => exists l', link_at q (adjList s) = Ok l' /\ neighbor l' = v /\ neighbor l = p_node q /\
      exists g, counterpart l' = Some (Lptr v g i) /\ link_at (Lptr v g i) (adjList s) = Ok l
  | None => forall j l', link (adjList s) (neighbor l) j = Some l' -> neighbor l' <> v
  end.
Proof.
  intros [I _ _] Hl. pose proof (gi_lists _ _ _ _ I) as Hs. pose proof (gi_cp _ _ _ _ I v i l Hl ltac:(by intros [])) as Hc.
  destruct (counterpart l) as [q|].
  - symmetry in Hc. apply find_counterpart_points in Hc; [|done]. destruct (points_at _ _ _ _ Hc) as (l' & Hl' & Hn & E & _).
    exists l'. split; [done|]. split; [done|]. split; [by rewrite (points_node _ _ _ _ Hc)|].
    unfold link in Hl. destruct (al_find v (adjList s)) as [d|] eqn:Hd; [|done]. cbn in Hl. exists (generation d).
    split; [|by apply link_at_ok]. rewrite (gi_cp _ _ _ _ I (neighbor l) (p_idx q) l' Hl' ltac:(by intros [])), Hn.
    apply find_counterpart_points; [done|]. by exists d, l.
  - intros j l' Hl' Hn. symmetry in Hc. unfold link in Hl'. destruct (al_find (neighbor l) (adjList s)) as [d|] eqn:Hd; [|done].
    apply (proj1 (find_counterpart_None (adjList s) (neighbor l) v Hs) Hc d Hd). apply list_elem_of_fmap. exists l'.
    split; [done|]. by eapply list_elem_of_lookup_2.
Qed.



(** ** Examples: stations 1 and 2 with the ETX metric *)

Definition etx_good (q : Z) : Prop := 1 <= q < 65504.

Lemma etx_defined f b : etx_good f -> etx_good b -> exists w, my_calculate (Metric := EtxMetric.metric) f b = Ok w /\ 0 < w.
Proof.
  unfold etx_good. intros Hf Hb. cbn. unfold EtxMetric.my_calculate. change (max_quality / 32) with 2047.
  assert (0 <= f / 2047 <= 31) by (split; [apply Z.div_pos; lia|apply Z.lt_succ_r, Z.div_lt_upper_bound; lia]).
  assert (0 <= b / 2047 <= 31) by (split; [apply Z.div_pos; lia|apply Z.lt_succ_r, Z.div_lt_upper_bound; lia]).
  rewrite (wrap_id 32 (32 - f / 2047)), (wrap_id 32 (32 - b / 2047)) by (unfold in_width; lia).
  rewrite (wrap_id 32 ((32 - f / 2047) * (32 - b / 2047))) by (unfold in_width; nia).
  rewrite (proj2 (Z.eqb_neq _ 0)) by nia. change (u32 (1024 * EtxMetric.scale)) with 2097152.
  eexists. split; [reflexivity|]. apply Z.div_str_pos. nia.
Qed.

(** A topology packet of [src] that is valid for [ms] milliseconds, with the links [ls]. *)
Definition ex_topo (src ms : Z) (ls : list (Z * Z)) : BasePacket :=
  let bytes := ([1; 0; 0; 0; 0; 0; src; 0; 9; 0; 0; 0; 0; 0; src; 5; 0] ++ be_enc 4 ms ++ [Z.of_nat (length ls)]
    ++ mjoin ((fun l => be_enc 6 l.1 ++ be_enc 2 l.2) <$> ls) ++ [0])%list in
  mkPacket (bytes ++ replicate (MaxSize - length bytes) 0) (Z.of_nat (length bytes)) 1 None 0.

#[local] Existing Instances gea_ns EtxMetric.metric merge_std_sort.

Definition state_of {A} (r : outcome (A * RTopology)) (s : RTopology) : RTopology := match r with Ok (_, s) => s | Fail _ => s end.
Definition ex_new : RTopology := RTopology_new 1 0 false true false.
(** 2 has heard this station, and this station 2; then 3 is there as well. *)
Definition ex_first : RTopology := state_of (handle (Packet (ex_topo 2 6000 [(1, 4094)])) 10 ex_new) ex_new.
Definition ex_second : RTopology := state_of (handle (Packet (ex_topo 1 6000 [(2, 2047)])) 20 ex_first) ex_first.
Definition ex_links : list LinkQuality := [LQ None 1 2047 0; LQ None 3 6141 0].

Lemma ex_valid src ms ls new : Forall (fun l => etx_good (quality l)) new ->
  (length ls =? length new)%nat && (Z.of_nat TopoPacket.OffsetLinks + 1 <=? size (ex_topo src ms ls))
    && (Z.of_nat (TopoPacket.OffsetLinks + length new * 8) <=? size (ex_topo src ms ls))
    && (0 <? TopoPacket.getValidity (ex_topo src ms ls))
    && (Z.to_nat (TopoPacket.getNumLinks (ex_topo src ms ls)) =? length new)%nat = true ->
  (exists node, parse_links (length new) TopoPacket.OffsetLinks AbstractID6.mk_default [] (buffer (ex_topo src ms ls)) = Ok (new, node)) ->
  valid_packet etx_good (ex_topo src ms ls) new.
Proof.
  intros Hg [[[[_ H1]%andb_prop H2]%andb_prop H3]%andb_prop H4]%andb_prop Hp. split; [by apply Nat.eqb_eq|by apply Z.leb_le|by apply Z.leb_le|by apply Z.ltb_lt|done|done].
Qed.

Lemma ex_reached : reachable etx_good [1; 2; 3] ex_new ex_second.
Proof.
  assert (reachable etx_good [1; 2; 3] ex_new ex_first) as R1.
  { eapply reach_event with (e := Packet (ex_topo 2 6000 [(1, 4094)])) (t := 10); [apply reach_start| |vm_compute; reflexivity].
    right. right. split; [apply (bool_decide_unpack _); vm_compute; done|]. exists [LQ None 1 4094 0].
    split; [|apply (bool_decide_unpack _); vm_compute; done]. apply ex_valid; [|vm_compute; reflexivity|eexists; vm_compute; reflexivity].
    repeat constructor; cbn; lia. }
  eapply reach_event with (e := Packet (ex_topo 1 6000 [(2, 2047)])) (t := 20); [exact R1| |vm_compute; reflexivity].
  right. right. split; [apply (bool_decide_unpack _); vm_compute; done|]. exists [LQ None 2 2047 0].
  split; [|apply (bool_decide_unpack _); vm_compute; done]. apply ex_valid; [|vm_compute; reflexivity|eexists; vm_compute; reflexivity].
  repeat constructor; cbn; lia.
Qed.



(** A packet of 2 that ends before its links leaves the link of this station to 2 with a
    pointer into the old list of 2: when the link expires, [remove_reference] uses it. *)
Definition ex_cut : BasePacket :=
  mkPacket (buffer (ex_topo 2 6000 [(1, 4094)])) (Z.of_nat TopoPacket.OffsetLinks + 1) 1 None 0.
Example short_packet_dangles :
  match feed ex_cut 30 ex_second with
  | Ok (_, s) => cleanup_nodes 6000000020 s = Fail UseAfterFree
  | Fail _ => False
  end.
Proof. vm_compute. reflexivity. Qed.
