(* ===== verification/MetricMains.v ===== *)
(** * The main functions of the metrics, and the signaler

    [gea_main] of [RTTMetric.cc], [PktPair.cc], [TTMetric.cc], [EtxMetric.cc] and
    [gea2mad.cc]: each one replaces the metric of the topology by its own, reads its options
    and enters itself into the repository of objects.  [signaler.cc] looks the metrics up in
    the repository and prints what they report.

    A metric is a number, its object an element of [metrics] until it is deleted; the
    repository and the registration for probe packets hold numbers.  What the repository does
    with a name it already has is the event library's ([ObjRepository]).  The extraction
    operators of streams are those of libstdc++. *)

From Stdlib Require Import Ascii String.
From Stdlib Require Import Floats.SpecFloat.
From S2P Require Import Prelude OMap Bytes NodeId FloodHist Ccm CryptoUnit Names Filter Topology RoutesThms SendQueue Neighbors NeighborThms Metrics Packet Routing Station RoutingThms DeliveryThms HeaderThms Probes ProbesThms Double TopoText Ping TTMetric Reports.

(** ** [stream >> variable]

    [old] is the value of the variable; it stays if the stream is empty.  A text that is no
    number gives 0, a number out of range the nearest value. *)

(** The sign and the digits; [None] for an empty stream. *)
Definition istream_digits (l : list Z) : option (bool * Z) :=
  match skip_spaces l with
  | [] => None
  | l => let '(neg, l) := read_sign l in let '(v, _, _) := read_digits 10 0 0 l in Some (neg, v)
  end.

(** [int] *)
Definition istream_int (old : Z) (l : list Z) : Z :=
  match istream_digits l with
  | None => old
  | Some (neg, v) => Z.max (- 2 ^ 31) (Z.min (if neg then - v else v) (2 ^ 31 - 1))
  end.
(** [unsigned]: a negative number wraps around. *)
Definition istream_unsigned (old : Z) (l : list Z) : Z :=
  match istream_digits l with
  | None => old
  | Some (neg, v) => if 2 ^ 32 - 1 <? v then 2 ^ 32 - 1 else if neg then u32 (- v) else v
  end.

(** [double], in decimal notation: an exponent without digits is no number. *)
Definition istream_double (old : double) (l : list Z) : double :=
  match skip_spaces l with
  | [] => old
  | l =>
      let '(neg, l) := read_sign l in
      match read_mantissa 10 l with
      | None => S754_zero false
      | Some (m, f, r) =>
          let exponent :=
            match r with
            | c :: r => if lower c =? 101 then let '(eneg, r) := read_sign r in
                          let '(v, n, _) := read_digits 10 0 0 r in
                          if (n =? 0)%nat then None else Some (if eneg then - v else v)
                        else Some 0
            | [] => Some 0
            end in
          match exponent with
          | None => S754_zero false
          | Some e => match scaled neg 10 m (e - f) with
                      | S754_infinity s => S754_finite s (2 ^ 53 - 1) 971
                      | d => d
                      end
          end
      end
  end.

(** ** The objects *)

Inductive any_metric :=
| AHop
| AEtx
| ARtt (m : RTTMetric) (debug : bool) (a : double)
| APktPair (m : PktPair) (debug : bool) (a : double)
| ATt (m : TTMetric) (debug : bool).

Record repository := mkRepo {
  routing_there : bool;                     (* ["awdsRouting"] *)
  gea2mad_there : bool;
  traffic_there : bool;
  metrics : gmap nat any_metric;
  next_metric : nat;
  topology_metric : nat;                    (* [routing->topology->metric] *)
  probe_data : option nat;                  (* registered for [PACKET_TYPE_UC_METRIC] *)
  objects : gmap (list Z) nat;
}.

Definition set_gea2mad v r := mkRepo (routing_there r) v (traffic_there r) (metrics r) (next_metric r) (topology_metric r) (probe_data r) (objects r).
Definition set_metrics v r := mkRepo (routing_there r) (gea2mad_there r) (traffic_there r) v (next_metric r) (topology_metric r) (probe_data r) (objects r).
Definition set_next_metric v r := mkRepo (routing_there r) (gea2mad_there r) (traffic_there r) (metrics r) v (topology_metric r) (probe_data r) (objects r).
Definition set_topology_metric v r := mkRepo (routing_there r) (gea2mad_there r) (traffic_there r) (metrics r) (next_metric r) v (probe_data r) (objects r).
Definition set_probe_data v r := mkRepo (routing_there r) (gea2mad_there r) (traffic_there r) (metrics r) (next_metric r) (topology_metric r) v (objects r).
Definition set_objects v r := mkRepo (routing_there r) (gea2mad_there r) (traffic_there r) (metrics r) (next_metric r) (topology_metric r) (probe_data r) v.

Class ObjRepository := {
  insertObj : list Z -> nat -> gmap (list Z) nat -> gmap (list Z) nat;
  insertObj_new : forall k x m, m !! k = None -> insertObj k x m !! k = Some x;
  insertObj_same : forall k x m, insertObj k x m !! k = Some x \/ insertObj k x m !! k = m !! k;
  insertObj_other : forall k k' x m, k' <> k -> insertObj k x m !! k' = m !! k';
}.

(** What the uninitialised variables of the main functions hold. *)
Class Uninit := { uninit_double : double; uninit_int : string -> Z }.

Section mains.
Context `{Gea, GeaDouble, GeaSeconds, GeaPrint, ObjRepository, Uninit, Tcl}.
Abbreviation P := (M repository).

Definition delete_metric : P unit :=
  i ← gets topology_metric;
  ms ← gets metrics;
  lift (of_option UseAfterFree (ms !! i));;
  modify (set_metrics (delete i ms)).

(** [new X(routing)] and the assignment; [probe] for the subclasses of [UCastMetric], whose
    constructor registers them. *)
Definition new_metric (a : any_metric) (probe : bool) : P nat :=
  i ← gets next_metric;
  modify (set_next_metric (S i));;
  modify (fun r => set_metrics (<[i := a]> (metrics r)) r);;
  (if probe then modify (set_probe_data (Some i)) else mret Datatypes.tt);;
  modify (set_topology_metric i);;
  mret i.

Definition insert_as (name : list Z) : P unit :=
  i ← gets topology_metric;
  modify (fun r => set_objects (insertObj name i (objects r)) r).

(** ** Options *)

(** The loops over the arguments behind the name of the program: [f] is given every argument
    [w] and the one behind it, [p]; the value of an option is looked at as an option too. *)
Fixpoint each_option {A} (f : list Z -> list Z -> A -> A) (argv : list (list Z)) (x : A) : A :=
  match argv with [] => x | w :: rest => each_option f rest (f w (default [] (head rest)) x) end.

Definition named (w : list Z) (s : string) : bool := bool_decide (w = str s).

(** [double h; ss >> h; interval.setSeconds(h)] *)
Definition interval_of (p : list Z) : Z := setSeconds (istream_double uninit_double p).

Definition rtt_option (w p : list Z) (x : RTTMetric * bool * double) : RTTMetric * bool * double :=
  let '(m, debug, a) := x in
  let debug := debug || named w "--debug" in
  let m := if named w "--history" then go_history m else m in
  let a := if named w "--alpha" then istream_double a p else a in
  let m := if named w "--interval" then mkRTT (rttData m) (interval_of p) (rtt_packetSize m) (rtt_blocker m) (history m) else m in
  let m := if named w "--packetsize" then mkRTT (rttData m) (rtt_interval m) (istream_unsigned (rtt_packetSize m) p) (rtt_blocker m) (history m) else m in
  (m, debug, a).

Definition pp_option (w p : list Z) (x : PktPair * bool * double) : PktPair * bool * double :=
  let '(m, debug, a) := x in
  let debug := debug || named w "--debug" in
  let m := if named w "--minimum" then mkPktPair (nodes m) (firstPackets m) (pp_interval m) (pp_packetSize m) (istream_int (bufferSize m) p) (pp_blocker m) else m in
  let a := if named w "--alpha" then istream_double a p else a in
  let m := if named w "--interval" then mkPktPair (nodes m) (firstPackets m) (interval_of p) (pp_packetSize m) (bufferSize m) (pp_blocker m) else m in
  let m := if named w "--packetsize" then mkPktPair (nodes m) (firstPackets m) (pp_interval m) (istream_int (pp_packetSize m) p) (bufferSize m) (pp_blocker m) else m in
  (m, debug, a).

Definition tt_option (w p : list Z) (x : TTMetric * bool) : TTMetric * bool :=
  let '(m, debug) := x in
  let debug := debug || named w "--debug" in
  let m := if named w "--interval" then mkTT (ttData m) (interval_of p) (tt_packetSize m) (tt_blocker m) else m in
  let m := if named w "--packetsize" then mkTT (ttData m) (tt_interval m) (istream_unsigned (tt_packetSize m) p) (tt_blocker m) else m in
  (m, debug).

(** ** The main functions; [clock] is [AbsTime::now()] *)

Definition store_metric (i : nat) (a : any_metric) : P unit := modify (fun r => set_metrics (<[i := a]> (metrics r)) r).

Definition etx_main : P Z :=
  there ← gets routing_there;
  if negb there then mret (-1) else
  delete_metric;;
  new_metric AEtx false;;
  insert_as (str "metric");;
  insert_as (str "etxmetric");;
  mret 0.

Definition rtt_main (argv : list (list Z)) (clock : Z) : P Z :=
  there ← gets routing_there;
  if negb there then mret (-1) else
  delete_metric;;
  i ← new_metric (ARtt RTTMetric_new false (dbl_of_Z 1)) true;
  let '(m, debug, a) := each_option rtt_option (tail argv) (RTTMetric_new, false, dbl_of_Z 1) in
  store_metric i (ARtt (rtt_start clock m) debug a);;
  insert_as (str "metric");;
  insert_as (str "rttmetric");;
  mret 0.

Definition pp_main (argv : list (list Z)) (clock : Z) : P Z :=
  there ← gets routing_there;
  if negb there then mret (-1) else
  delete_metric;;
  i ← new_metric (APktPair PktPair_new false (dbl_of_Z 1)) true;
  let '(m, debug, a) := each_option pp_option (tail argv) (PktPair_new, false, dbl_of_Z 1) in
  store_metric i (APktPair (pp_start clock m) debug a);;
  insert_as (str "metric");;
  insert_as (str "pktpair");;
  mret 0.

Definition tt_main (argv : list (list Z)) (clock : Z) : P Z :=
  there ← gets routing_there;
  if negb there then mret (-1) else
  g2m ← gets gea2mad_there;
  if negb g2m then mret (-1) else
  delete_metric;;
  i ← new_metric (ATt TTMetric_new false) true;
  let '(m, debug) := each_option tt_option (tail argv) (TTMetric_new, false) in
  store_metric i (ATt (tt_start clock m) debug);;
  insert_as (str "metric");;
  insert_as (str "ttmetric");;
  mret 0.

Definition gea2mad_main : P Z := modify (set_gea2mad true);; mret 0.

(** ** The signaler *)

(** Its messages, the text it prints in the end, whether it waits for a key, and the calls
    of [Traffic::send]. *)
Record signals := mkSignals { messages : list (list Z); result : list Z; stop : bool; orders : list (Z * Z * NodeId) }.
Definition message (l : list Z) (x : signals) : signals := mkSignals (messages x ++ [l]) (result x) (stop x) (orders x).
Definition set_result (l : list Z) (x : signals) : signals := mkSignals (messages x) l (stop x) (orders x).
Definition set_stop (x : signals) : signals := mkSignals (messages x) (result x) true (orders x).
Definition add_order (o : Z * Z * NodeId) (x : signals) : signals := mkSignals (messages x) (result x) (stop x) (orders x ++ [o]).

(** [rep.getObj(name)], and a member function is called if it is not null. *)
Definition with_metric (name : string) (f : any_metric -> P (list Z)) (x : signals) : P signals :=
  os ← gets objects;
  match os !! str name with
  | None => mret (message (str "cannot find object '" ++ str name ++ str "' in repository")%list x)
  | Some i =>
      ms ← gets metrics;
      a ← lift (of_option UseAfterFree (ms !! i));
      l ← f a;
      mret (set_result l x)
  end.

Definition rtt_text (text : double -> RTTMetric -> list Z) (a : any_metric) : P (list Z) :=
  match a with ARtt m _ alpha => mret (text alpha m) | _ => fail BadCast end.
Definition tt_text (my : NodeId) (a : any_metric) : P (list Z) :=
  match a with ATt m _ => mret (tt_get_values my m) | _ => fail BadCast end.
(** The times are stored by looking at them. *)
Definition pp_text (my : NodeId) (a : any_metric) : P (list Z) :=
  match a with
  | APktPair m debug alpha =>
      let '(l, m) := pp_get_values (GR := Build_GeaReport getNanoSecsD alpha) my m in
      os ← gets objects;
      (match os !! str "pktpair" with Some i => store_metric i (APktPair m debug alpha) | None => mret Datatypes.tt end);;
      mret l
  | _ => fail BadCast
  end.

(** One argument and the three behind it. *)
Definition signal (my : NodeId) (w p p1 p2 : list Z) (x : signals) : P signals :=
  x ← (if named w "tt" then
         g2m ← gets gea2mad_there;
         if negb g2m then mret (message (str "cannot find objet 'gea2mad' in repository") x) else
         t ← lift (getTT (istream_int (uninit_int "id") p));
         mret (message (str "Transmittime: " ++ print_double t)%list x)
       else mret x);
  x ← (if named w "--rtt-history"
       then with_metric "rttmetric" (rtt_text (fun a m => get_history (GR := Build_GeaReport getNanoSecsD a) m)) x else mret x);
  x ← (if named w "--rtt-values"
       then with_metric "rttmetric" (rtt_text (fun a m => rtt_get_values (GR := Build_GeaReport getNanoSecsD a) my m)) x else mret x);
  x ← (if named w "--tt-values" then with_metric "ttmetric" (tt_text my) x else mret x);
  x ← (if named w "--pktpair-values" then with_metric "pktpair" (pp_text my) x else mret x);
  let x := if named w "--stop" then set_stop x else x in
  if named w "--traffic" then
    traffic ← gets traffic_there;
    if (traffic : bool) then
      mret (add_order (istream_int (uninit_int "packetCount") p, istream_int (uninit_int "packetSize") p1,
                       AbstractID6.of_num (istream_int (uninit_int "dest") p2)) x)
    else mret (message (str "cannot find object 'traffic' in repository") x)
  else mret x.

Fixpoint signal_loop (my : NodeId) (argv : list (list Z)) (x : signals) : P signals :=
  match argv with
  | [] => mret x
  | w :: rest =>
      x ← signal my w (default [] (rest !! 0%nat)) (default [] (rest !! 1%nat)) (default [] (rest !! 2%nat)) x;
      signal_loop my rest x
  end.

Definition signaler_main (my : NodeId) (argv : list (list Z)) : P (Z * signals) :=
  x ← signal_loop my (tail argv) (mkSignals [] [] false []);
  mret (0, x).
End mains.

(** ** The size of a probe *)

Section probe.
Context `{Gea, Metric, LinkMeter, StdSort, AES, Basic, GeaRaw, GeaDouble} {U : Type} `{!Handlers U}.
Implicit Type s : AwdsRouting U.

(** A packet without the trace flag that may be forwarded. *)
Record live (p : BasePacket) : Prop := { lv_untraced : untraced p; lv_ttl : get_byte UnicastPacket.OffsetTTL p = 2 }.

Lemma live_splice off bs p : (0 < off)%nat -> (off + length bs <= MaxSize)%nat ->
  (UnicastPacket.OffsetTTL < off \/ off + length bs <= UnicastPacket.OffsetTTL)%nat -> live p -> live (upd (splice off bs) p).
Proof.
  intros Ho Hm Hk [Hu Ht]. split; [by apply untraced_splice|]. pose proof (ut_length _ Hu) as Hl. rewrite <- Ht.
  unfold get_byte, byte_at. cbn [upd set_buffer buffer]. rewrite splice_lookup by lia. case_decide; [lia|done].
Qed.

Lemma live_id off i p : (0 < off)%nat -> (off + 6 <= MaxSize)%nat ->
  (UnicastPacket.OffsetTTL < off \/ off + 6 <= UnicastPacket.OffsetTTL)%nat -> live p -> live (upd (AbstractID6.toArray i off) p).
Proof.
  intros Ho Hm Hk Hp. unfold upd. rewrite AbstractID6.id6_toArray_spec by (rewrite (ut_length _ (lv_untraced _ Hp)); done).
  apply (live_splice off); rewrite ?be_enc_length; done.
Qed.

Lemma live_mk p : live p -> live (UnicastPacket.mk p).
Proof.
  intros [Hu Ht]. split; [by apply untraced_mk|]. rewrite <- Ht. unfold get_byte, byte_at, UnicastPacket.mk, setType, set_byte.
  cbn [upd set_buffer buffer]. by rewrite list_lookup_insert_ne.
Qed.

Lemma live_ext p p' : buffer p' = buffer p -> live p -> live p'.
Proof. intros E [Hu Ht]. split; [by apply (untraced_ext p)|]. unfold get_byte. by rewrite E. Qed.

Lemma live_probe time p : untraced p -> live (UCMetricPacket.mk_time UCMetricPacket.req 2 1 time p).
Proof.
  intros Hp. pose proof (untraced_probe UCMetricPacket.req 2 1 time p Hp) as Hu.
  assert ((167 <= MaxSize)%nat) as HM by inside_tac. pose proof header_inside as HE.
  unfold UCMetricPacket.MetricHeaderEnd, UCMetricPacket.OffsetDuration, UCMetricPacket.OffsetTime2, UCMetricPacket.OffsetTime1 in HE.
  apply (live_ext (UCMetricPacket.setTime1 time (UCMetricPacket.setSeq 1 (UnicastPacket.setTTL 2 (UCMetricPacket.setType UCMetricPacket.req (UnicastPacket.mk p)))))); [done|].
  apply live_splice; [unfold UCMetricPacket.OffsetTime1; lia|rewrite time_raw_length; unfold UCMetricPacket.OffsetTime1; lia|left; inside_tac|].
  apply live_splice; [inside_tac|rewrite length_reverse, be_enc_length; inside_tac|left; inside_tac|].
  assert (untraced (UCMetricPacket.setType UCMetricPacket.req (UnicastPacket.mk p))) as U1
    by (apply untraced_byte; [vm_compute; lia|by apply untraced_mk]).
  split; [by apply untraced_byte; [vm_compute; lia|]|].
  unfold get_byte, byte_at, UnicastPacket.setTTL, set_byte. cbn [upd set_buffer buffer]. rewrite list_lookup_insert_eq; [done|].
  rewrite (ut_length _ U1). inside_tac.
Qed.

Lemma live_ttl p : live p -> (UnicastPacket.getTTL p =? 0) = false.
Proof. intros [_ Ht]. unfold UnicastPacket.getTTL. by rewrite Ht. Qed.

(** A probe is queued with its size, or with the size that is asked for if that is larger. *)
Lemma sendvia_queued q p dest size' now s : at_addr s q p -> live p -> queue (sendQueue (net s)) = [] ->
  exists p', sendvia q dest size' now s = Ok (Datatypes.tt, enqueued q false now p' (put q p' s)) /\
    size p' = Z.max (size p) size' /\ refcount p' = refcount p /\ length (buffer p') = MaxSize /\ Packet.dest p' = dest.
Proof.
  intros Hat Hp Hq. unfold sendvia, sendUnicastVia. erewrite M_bind_ok by (by apply upd_packet_ok). cbv beta zeta.
  set (p1 := set_size _ _).
  assert (live p1) as L1 by (apply (live_ext (UnicastPacket.setUcDest dest (UnicastPacket.mk p))); [done|];
    apply live_id; [inside_tac..|right; inside_tac|by apply live_mk]).
  assert (size p1 = Z.max (size p) size' /\ refcount p1 = refcount p) as [S1 R1] by done. clearbody p1.
  erewrite M_bind_ok by (apply upd_packet_ok, at_put). rewrite put_put, (live_ttl _ (live_mk _ L1)).
  pose proof (trace_ok q _ _ (at_put q (UnicastPacket.mk p1) s)) as Et.
  unfold traced in Et. rewrite (untraced_flag _ (lv_untraced _ (live_mk _ L1))), outcome_ret_bind in Et.
  erewrite M_bind_ok by exact Et. rewrite put_put. erewrite M_bind_ok by (apply upd_packet_ok, at_put). rewrite put_put.
  set (p2 := setDest dest _).
  assert (length (buffer p2) = MaxSize) as HL.
  { assert (live p2) as L2 by (apply (live_ext (UnicastPacket.setNextHop dest (UnicastPacket.mk p1))); [done|];
      apply live_id; [inside_tac..|right; inside_tac|by apply live_mk]). apply L2. }
  exists p2. split; [|split; [exact S1|split; [exact R1|split; [exact HL|done]]]].
  pose proof (send_ok q p2 false now (put q p2 s) (at_put _ _ _)) as Es.
  change (sendQueue (net (put q p2 s))) with (sendQueue (net s)) in Es. rewrite Hq in Es. change (QUEUE_LENGTH <=? length [])%nat with false in Es.
  cbn [negb andb] in Es. by erewrite M_bind_ok by exact Es.
Qed.
End probe.

Section rtt_probe.
Context `{Gea, Metric, LinkMeter, StdSort, AES, Basic, GeaRaw, GeaDouble, GeaSeconds, Uninit}.
Implicit Type s : AwdsRouting RTTMetric.

Lemma unipacket_untraced x d src ttl type p : unipacket x d src ttl type p -> untraced p.
Proof.
  intros []. split; [by destruct up_wf|by apply get_byte_wf, MaxSize_pos|].
  unfold SrcPacket.getTraceFlag, SrcPacket.getControlBit in up_trace. change (cassert _) with (Ok Datatypes.tt) in up_trace.
  rewrite outcome_ret_bind in up_trace. injection up_trace as E. exact E.
Qed.

(** The request of [go_measure]: it is in the queue with one reference. *)
Lemma go_measure_queues clock rnd now s :
  AbstractID6.wf (my_id s) -> rttData (modules s) <> [] -> queue (sendQueue (net s)) = [] ->
  exists s' q p, go_measure clock rnd now s = Ok (Datatypes.tt, s') /\ at_addr s' q p /\ queue (sendQueue (net s')) = [q] /\
    sent (sendQueue (net s')) = sent (sendQueue (net s)) /\ refcount p = 1 /\ length (buffer p) = MaxSize /\
    size p = Z.max (Z.of_nat UCMetricPacket.MetricHeaderEnd) (rtt_packetSize (modules s)).
Proof.
  intros Hme Hd Hq. unfold go_measure. mprim.
  destruct (find_oldest lastsend (rttData (modules s))) as [[dest e]|] eqn:Ef; [|by destruct (rttData (modules s))].
  destruct (newUnicastPacket_fresh PACKET_TYPE_UC_METRIC s) as (d & p & s1 & E1 & Hat & Hu & Hr & _ & Q1 & _ & M1 & _); [done|done|].
  set (q := newAddr (counters s)) in *. set (p1 := UCMetricPacket.mk_time UCMetricPacket.req 2 1 clock p).
  destruct (sendvia_queued q p1 dest (rtt_packetSize (modules s)) now (put q p1 s1)) as (p2 & E2 & S2 & R2 & L2 & _);
    [apply at_put|by eapply live_probe, unipacket_untraced|by change (queue (sendQueue (net s1)) = []); rewrite Q1|].
  set (s2 := enqueued q false now p2 (put q p2 (put q p1 s1))) in *.
  pose proof (unref_ok q _ s2 (at_enqueued q false now p2 _)) as E3. cbn [refcount set_refcount] in E3.
  assert (refcount p2 = 1) as Hr2 by (rewrite R2; exact Hr). rewrite Hr2 in E3. specialize (E3 ltac:(lia)).
  change (1 + 1 =? 1) with false in E3. change (1 + 1 - 1) with 1 in E3. cbv iota in E3.
  erewrite M_bind_ok; cycle 1.
  { erewrite M_bind_ok by exact E1. erewrite M_bind_ok by (by apply upd_packet_ok). erewrite M_bind_ok by exact E2.
    erewrite M_bind_ok by exact E3. reflexivity. }
  eexists _, q, _. split; [reflexivity|]. split; [apply lookup_insert_eq|]. cbn [refcount set_refcount buffer size].
  split_and!; [| |done|exact L2|exact S2].
  - change (queue (sendQueue (net s1)) ++ [q] = [q]). by rewrite Q1, Hq.
  - change (sent (sendQueue (net s1)) = sent (sendQueue (net s))). by rewrite Q1.
Qed.

(** The device reads behind the buffer of a packet that claims to be longer. *)
Lemma xmit_overruns {U} q p ret now (s : AwdsRouting U) :
  at_addr s q p -> queue (sendQueue (net s)) = [q] -> Z.of_nat MaxSize < size p -> on_net (xmit_cb true ret now) s = Fail OutOfBounds.
Proof.
  intros E Hq Hs. unfold on_net, zoom, xmit_cb, doSend. mprim. mprim. cbn [sendQueue set_sendQueue queue set_waiting]. rewrite Hq. mlift.
  erewrite (M_bind_fail _ _ _ OutOfBounds); [done|]. mlift. mprim. cbn [tail]. apply M_bind_fail.
  erewrite M_bind_ok by (unfold on_heap, zoom; erewrite load_packet_ok by exact E; reflexivity).
  by rewrite (proj2 (Z.leb_gt (size p) _)) by lia.
Qed.

(** *** A number as the value of an option *)

Lemma print_int_digits n : 0 <= n < 2 ^ 32 ->
  exists d ds, print_int n = 48 + d :: ((fun d => 48 + d) <$> ds) /\ Forall (fun d => 0 <= d < 10) (d :: ds) /\ digits_value 0 (d :: ds) = n.
Proof.
  intros Hn. unfold print_int. rewrite (proj2 (Z.ltb_ge n 0)) by lia.
  destruct (print_nat_digits 20 n []) as ([|d ds] & -> & HF & Hne & _ & Hv); [lia|done|done|].
  exists d, ds. by rewrite app_nil_r.
Qed.

Lemma unsigned_reads old n : 0 <= n < 2 ^ 32 -> istream_unsigned old (print_int n) = n.
Proof.
  intros Hn. destruct (print_int_digits n Hn) as (d & ds & E & HF & Hv). unfold istream_unsigned, istream_digits. rewrite E.
  inversion HF as [|? ? Hd HF']. cbn [skip_spaces]. unfold isspace.
  rewrite (proj2 (Z.eqb_neq (48 + d) 32)), (proj2 (Z.leb_gt (48 + d) 13)) by lia. rewrite andb_false_r. cbn [orb].
  unfold read_sign. rewrite (proj2 (Z.eqb_neq (48 + d) 45)), (proj2 (Z.eqb_neq (48 + d) 43)) by lia.
  destruct (read_digits_end (d :: ds) 0 0 HF) as [m Em]. cbn [fmap list_fmap] in Em. rewrite Em, Hv.
  by rewrite (proj2 (Z.ltb_ge _ _)) by lia.
Qed.

(** A number is not an option. *)
Lemma number_not_named n (w : string) : 0 <= n < 2 ^ 32 -> named (print_int n) (String "-" w) = false.
Proof.
  intros Hn. destruct (print_int_digits n Hn) as (d & ds & E & HF & _). inversion HF. unfold named. rewrite E.
  apply bool_decide_eq_false. intros Hs. assert (48 + d = 45) as Ed; [|lia].
  change (str (String "-" w)) with (45 :: str w) in Hs. by injection Hs.
Qed.

Lemma packetsize_option n x : 0 <= n < 2 ^ 32 ->
  each_option rtt_option [str "--packetsize"; print_int n] x =
  (mkRTT (rttData x.1.1) (rtt_interval x.1.1) n (rtt_blocker x.1.1) (history x.1.1), x.1.2, x.2).
Proof.
  intros Hn. destruct x as [[m debug] a].
  change (each_option _ _ _) with (rtt_option (print_int n) [] (rtt_option (str "--packetsize") (print_int n) (m, debug, a))). cbn [fst snd].
  assert (rtt_option (str "--packetsize") (print_int n) (m, debug, a) =
    (mkRTT (rttData m) (rtt_interval m) n (rtt_blocker m) (history m), debug, a)) as E.
  { unfold rtt_option. change (named (str "--packetsize") "--debug") with false. change (named (str "--packetsize") "--history") with false.
    change (named (str "--packetsize") "--alpha") with false. change (named (str "--packetsize") "--interval") with false.
    change (named (str "--packetsize") "--packetsize") with true. cbv iota. by rewrite unsigned_reads, orb_false_r. }
  rewrite E. unfold rtt_option. rewrite !number_not_named by done. by rewrite orb_false_r.
Qed.

(** C24. The size of the probes.  With the option [--packetsize n] the next request of the
    round-trip metric leaves the station with [n] bytes, or with its header if that is
    longer, as long as this fits into the buffer of a packet; for every larger [n] the option
    is taken all the same, and sending the request reads behind the buffer. *)
Theorem probe_size (n clock rnd now ret now2 : Z) (a : double) s :
  0 <= n < 2 ^ 32 -> AbstractID6.wf (my_id s) -> rttData (modules s) <> [] -> queue (sendQueue (net s)) = [] -> 0 <= ret ->
  let m := (each_option rtt_option [str "--packetsize"; print_int n] (modules s, false, a)).1.1 in
  let len := Z.max (Z.of_nat UCMetricPacket.MetricHeaderEnd) n in
  exists s', go_measure clock rnd now (set_modules m s) = Ok (Datatypes.tt, s') /\
    if len <=? Z.of_nat MaxSize then
      exists s2 dest f, on_net (xmit_cb true ret now2) s' = Ok (Datatypes.tt, s2) /\
        sent (sendQueue (net s2)) = (dest, f) :: sent (sendQueue (net s)) /\ Z.of_nat (length f) = len
    else on_net (xmit_cb true ret now2) s' = Fail OutOfBounds.
Proof.
  intros Hn Hme Hd Hq Hret m len. assert (m = mkRTT (rttData (modules s)) (rtt_interval (modules s)) n (rtt_blocker (modules s)) (history (modules s))) as Em
    by (unfold m; by rewrite packetsize_option).
  destruct (go_measure_queues clock rnd now (set_modules m s)) as (s' & q & p & E & Hat & Q1 & Q2 & Hr & Hl & Hs); [done|by rewrite Em|done|].
  exists s'. split; [exact E|]. change (modules (set_modules m s)) with m in Hs. rewrite Em in Hs. cbn [rtt_packetSize] in Hs. fold len in Hs.
  assert (0 <= len) by lia. destruct (Z.leb_spec len (Z.of_nat MaxSize)) as [Hf|Hf].
  - destruct (xmit_only q p ret now2 s' _ Hat Q1 Hret ltac:(lia) ltac:(lia) eq_refl) as (s2 & E2 & Hsent & _).
    exists s2, (Packet.dest p), (slice 0 (Z.to_nat (size p)) (buffer p)). split; [exact E2|].
    split; [by rewrite Hsent, Q2|]. rewrite slice_length; lia.
  - apply (xmit_overruns q p); [done|done|lia].
Qed.
End rtt_probe.

(** A station whose neighbour 3 has not been asked. *)
#[local] Instance ex_uninit : Uninit := {| uninit_double := S754_zero false; uninit_int _ := 0 |}.
#[local] Instance ex_seconds : GeaSeconds := {| setSeconds d := 10; getNanoSecsD t := dbl_of_Z t |}.
Definition asking_station : AwdsRouting RTTMetric := set_modules (mkRTT [(3, mkRtt 5 0 0 true)] 10 800 None None) rtt_station.

Lemma probe_size_witness :
  let m n := (each_option rtt_option [str "--packetsize"; print_int n] (modules asking_station, false, dbl_of_Z 1)).1.1 in
  let go n := go_measure (H := gea_ns) (H5 := ex_raw) 100 7 100 (set_modules (m n) asking_station) in
  (exists s' s2 dest f, go 1000 = Ok (Datatypes.tt, s') /\ on_net (xmit_cb (H := gea_ns) true 0 101) s' = Ok (Datatypes.tt, s2) /\
     sent (sendQueue (net s2)) = [(dest, f)] /\ length f = 1000%nat) /\
  (exists s', go 5000 = Ok (Datatypes.tt, s') /\ on_net (xmit_cb (H := gea_ns) true 0 101) s' = Fail OutOfBounds).
Proof.
  intros m go. split.
  - destruct (probe_size (H := gea_ns) (H5 := ex_raw) 1000 100 7 100 0 101 (dbl_of_Z 1) asking_station) as (s' & E1 & s2 & dest & f & E2 & E3 & E4);
      [lia|done|done|done|lia|]. exists s', s2, dest, f. split; [exact E1|]. split; [exact E2|]. split; [exact E3|].
    apply Nat2Z.inj. exact E4.
  - destruct (probe_size (H := gea_ns) (H5 := ex_raw) 5000 100 7 100 0 101 (dbl_of_Z 1) asking_station) as (s' & E1 & E2);
      [lia|done|done|done|lia|]. exists s'. split; [exact E1|exact E2].
Defined.

(** ** One metric at a time *)

Section one_metric.
Context `{Gea, GeaDouble, GeaSeconds, GeaPrint, ObjRepository, Uninit, Tcl}.
Implicit Type r : repository.

(** A metric is loaded. *)
Inductive main_call := CEtx | CRtt (argv : list (list Z)) (clock : Z) | CPp (argv : list (list Z)) (clock : Z) | CTt (argv : list (list Z)) (clock : Z) | CMad.
Definition run_main (c : main_call) : M repository Z :=
  match c with
  | CEtx => etx_main
  | CRtt argv clock => rtt_main argv clock
  | CPp argv clock => pp_main argv clock
  | CTt argv clock => tt_main argv clock
  | CMad => gea2mad_main
  end.
Fixpoint run_mains (cs : list main_call) : M repository Z :=
  match cs with [] => mret 0 | c :: cs => v ← run_main c; r ← run_mains cs; mret (v + r) end.

(** The only metric that is not deleted is that of the topology. *)
Definition probes (a : any_metric) : bool := match a with AHop | AEtx => false | _ => true end.
Record sound r : Prop := {
  so_one : exists a, metrics r = {[ topology_metric r := a ]};
  so_next : (topology_metric r < next_metric r)%nat;
  so_objects : forall k i, objects r !! k = Some i -> (i < next_metric r)%nat;
  so_probe : forall a, metrics r !! topology_metric r = Some a -> probes a = true -> probe_data r = Some (topology_metric r);
}.

(** What replacing the metric leaves: the new one, under the names [names]. *)
Definition replaced (probe : bool) (names : list string) (a : any_metric) r : repository :=
  let i := next_metric r in
  mkRepo (routing_there r) (gea2mad_there r) (traffic_there r) {[ i := a ]} (S i) i (if probe then Some i else probe_data r)
    (foldl (fun m k => insertObj (str k) i m) (objects r) names).

Definition own_name (c : main_call) : string :=
  match c with CEtx => "etxmetric"%string | CRtt _ _ => "rttmetric"%string | CPp _ _ => "pktpair"%string | CTt _ _ => "ttmetric"%string | CMad => ""%string end.
Definition probing (c : main_call) : bool := match c with CEtx | CMad => false | _ => true end.

Lemma stored a a0 name r :
  (i ← new_metric a0 true; store_metric i a;; insert_as (str "metric");; insert_as (str name);; mret 0) (set_metrics ∅ r) =
  Ok (0, replaced true ["metric"%string; name] a r).
Proof.
  unfold new_metric, store_metric, insert_as, replaced. unfold mbind, M_bind, gets, modify, mret, M_ret. cbn.
  by rewrite insert_insert_eq.
Qed.

Lemma run_main_ok c r : sound r ->
  (exists v g, run_main c r = Ok (v, set_gea2mad g r) /\ (c = CMad \/ v = -1)) \/
  (c <> CMad /\ exists a, probes a = probing c /\ run_main c r = Ok (0, replaced (probing c) ["metric"%string; own_name c] a r)).
Proof.
  intros [(a0 & Hm) Hn _ _].
  assert (delete_metric r = Ok (Datatypes.tt, set_metrics ∅ r)) as Ed.
  { unfold delete_metric. mprim. mprim. rewrite Hm, lookup_singleton_eq. mlift. unfold modify. by rewrite delete_singleton_eq. }
  assert (exists v' g, Ok (-1, r) = Ok (v', set_gea2mad g r) /\ (c = CMad \/ v' = -1)) as Hsame
    by (exists (-1), (gea2mad_there r); split; [by destruct r|by right]).
  destruct c as [|argv clock|argv clock|argv clock|]; cbn [run_main own_name probing].
  - unfold etx_main. mprim. destruct (routing_there r) eqn:Er; cbn [negb]; [|left; exact Hsame].
    right. split; [done|]. exists AEtx. split; [done|]. by erewrite M_bind_ok by exact Ed.
  - unfold rtt_main. mprim. destruct (routing_there r) eqn:Er; cbn [negb]; [|left; exact Hsame].
    right. split; [done|]. destruct (each_option rtt_option (tail argv) _) as [[m debug] a].
    exists (ARtt (rtt_start clock m) debug a). split; [done|]. erewrite M_bind_ok by exact Ed. apply stored.
  - unfold pp_main. mprim. destruct (routing_there r) eqn:Er; cbn [negb]; [|left; exact Hsame].
    right. split; [done|]. destruct (each_option pp_option (tail argv) _) as [[m debug] a].
    exists (APktPair (pp_start clock m) debug a). split; [done|]. erewrite M_bind_ok by exact Ed. apply stored.
  - unfold tt_main. mprim. destruct (routing_there r) eqn:Er; cbn [negb]; [|left; exact Hsame].
    mprim. destruct (gea2mad_there r) eqn:Eg; cbn [negb]; [|left; exact Hsame].
    right. split; [done|]. destruct (each_option tt_option (tail argv) _) as [m debug].
    exists (ATt (tt_start clock m) debug). split; [done|]. erewrite M_bind_ok by exact Ed. apply stored.
  - left. exists 0, true. split; [done|by left].
Qed.

Lemma inserted k x m k' i : insertObj k x m !! k' = Some i -> i = x \/ m !! k' = Some i.
Proof.
  destruct (decide (k' = k)) as [->|Hk]; [|rewrite insertObj_other by done; auto].
  destruct (insertObj_same k x m) as [->| ->]; [|auto]. intros [= ->]. by left.
Qed.

Lemma sound_replaced c a r names : probes a = probing c -> sound r -> sound (replaced (probing c) names a r).
Proof.
  intros Ha [_ Hn Ho _]. split; cbn [replaced metrics topology_metric next_metric objects probe_data].
  - by exists a.
  - lia.
  - assert (forall k i, objects r !! k = Some i -> (i < S (next_metric r))%nat) as Ho' by (intros k i Hk%Ho; lia).
    clear Ho. revert Ho'. generalize (objects r). induction names as [|k names IH]; intros os Ho; [exact Ho|].
    cbn [foldl]. apply IH. intros k' i [->|Hi]%inserted; [lia|by eapply Ho].
  - intros b. rewrite lookup_singleton_eq. intros [= <-]. rewrite Ha. by intros ->.
Qed.

Lemma run_main_sound c r : sound r -> exists v r', run_main c r = Ok (v, r') /\ sound r'.
Proof.
  intros Hs. destruct (run_main_ok c r Hs) as [(v & g & E & _)|(_ & a & Ha & E)].
  - eexists _, _. split; [exact E|]. by destruct Hs as [? ? ? ?]; split.
  - eexists _, _. split; [exact E|]. by apply sound_replaced.
Qed.


(** A replaced metric dangles.  When another metric is loaded after that of round trips,
    the repository still names the one that was deleted: the signaler that is asked for its
    history uses freed memory.  If the other metric sends no probes, the packets that answer
    probes are still handed to the deleted metric too. *)
Theorem replaced_metric_dangles (c : main_call) (argv : list (list Z)) (clock : Z) r r1 r2 : sound r ->
  objects r !! str "rttmetric" = None -> c <> CMad -> own_name c <> "rttmetric"%string ->
  run_main (CRtt argv clock) r = Ok (0, r1) -> run_main c r1 = Ok (0, r2) ->
  (forall my program rest, signaler_main my (program :: str "--rtt-history" :: rest) r2 = Fail UseAfterFree) /\
  (probing c = false -> exists i, probe_data r2 = Some i /\ metrics r2 !! i = None).
Proof.
  intros Hs Hno Hc Hname E1 E2.
  destruct (run_main_ok (CRtt argv clock) r Hs) as [(v & g & E & [|])|(_ & a & Ha & E)]; [done|by subst v; rewrite E in E1|].
  rewrite E in E1. injection E1 as <-. clear E.
  pose proof (sound_replaced (CRtt argv clock) _ r ["metric"%string; "rttmetric"%string] Ha Hs) as Hs1.
  cbn [probing own_name] in Hs1, E2. set (r1 := replaced true _ a r) in *.
  assert (objects r1 !! str "rttmetric" = Some (next_metric r)) as Ho.
  { cbn [r1 replaced objects foldl]. apply insertObj_new. by rewrite insertObj_other. }
  destruct (run_main_ok c r1 Hs1) as [(v & g & E & [|])|(_ & b & _ & E)]; [done|by subst v; rewrite E in E2|].
  rewrite E in E2. injection E2 as <-. set (r2 := replaced (probing c) _ b r1).
  assert (metrics r2 !! next_metric r = None) as Hgone by (apply lookup_singleton_ne; cbn; lia).
  split; [|intros Hp; exists (next_metric r); split; [|done]; cbn [r2 replaced probe_data]; by rewrite Hp].
  assert (objects r2 !! str "rttmetric" = Some (next_metric r)) as Ho2.
  { cbn [r2 replaced objects foldl]. rewrite insertObj_other, insertObj_other; [exact Ho|done|]. intros Es. apply Hname.
    symmetry. destruct c; vm_compute in Es; try discriminate Es; done. }
  intros my program rest. unfold signaler_main. apply M_bind_fail. cbn [tail signal_loop]. apply M_bind_fail.
  unfold signal. change (named (str "--rtt-history") "tt") with false. change (named (str "--rtt-history") "--rtt-history") with true. cbv iota.
  unfold mbind at 1, M_bind at 1, mret at 1, M_ret at 1. cbn beta iota. apply M_bind_fail. unfold with_metric. mprim. rewrite Ho2. mprim.
  rewrite Hgone. by apply M_bind_fail.
Qed.
End one_metric.

(** *** Example: the metric of round trips, then ETX *)

Section example.
#[local] Instance ex_repository : ObjRepository.
Proof.
  refine {| insertObj k x m := <[k := x]> m |}; intros.
  - by rewrite lookup_insert_eq.
  - left. by rewrite lookup_insert_eq.
  - by rewrite lookup_insert_ne.
Defined.
#[local] Instance ex_print : GeaPrint := {| print_duration d := print_int d |}.
#[local] Instance ex_tcl0 : Tcl := {| node_name := [110]; tcl_result cmd := [48] |}.
#[local] Existing Instances gea_ns ex_double.

(** A daemon with its first metric, without the simulator. *)
Definition ex_daemon : repository := mkRepo true false false {[ 0%nat := AHop ]} 1 0 None ∅.

Lemma ex_sound : sound ex_daemon.
Proof.
  split; cbn.
  - by exists AHop.
  - lia.
  - intros k i. by rewrite lookup_empty.
  - intros a. rewrite lookup_singleton_eq. by intros [= <-].
Qed.

Definition ex_mains : list main_call :=
  [CRtt [str "awds"; str "--packetsize"; str "100"; str "--history"] 5; CTt [] 6; CPp [str "awds"; str "--minimum"; str "8"] 7; CEtx].


Lemma replaced_metric_dangles_witness :
  exists r1 r2, run_main (CRtt [str "awds"] 5) ex_daemon = Ok (0, r1) /\ run_main CEtx r1 = Ok (0, r2) /\
    signaler_main 1 [str "signaler"; str "--rtt-history"] r2 = Fail UseAfterFree /\
    exists i, probe_data r2 = Some i /\ metrics r2 !! i = None.
Proof.
  assert (exists r1 r2, run_main (CRtt [str "awds"] 5) ex_daemon = Ok (0, r1) /\ run_main CEtx r1 = Ok (0, r2)) as (r1 & r2 & E1 & E2)
    by (do 2 eexists; split; vm_compute; reflexivity).
  exists r1, r2. split; [exact E1|]. split; [exact E2|].
  destruct (replaced_metric_dangles CEtx [str "awds"] 5 ex_daemon _ _ ex_sound ltac:(reflexivity) ltac:(done) ltac:(done) E1 E2) as [Hs Hp].
  split; [apply Hs|by apply Hp].
Defined.
End example.
