(* ===== verification/KModule.v ===== *)
(** * The kernel module: loading, unloading and the file of statistics

    [awds_init_module], [awds_cleanup_module] and the registration of the socket family;
    [awds_sysfs_show], the text user space reads the counters from.  The lists in which
    Linux keeps packet handlers, socket families and files surround the state of the module;
    whether Linux accepts a registration is the interface [Registrar]. *)

From Stdlib Require Import Ascii String.
From S2P Require Import Prelude Bytes NodeId Packet KState KInstance KForward KSocket KBindThms Names.

(** ** The file of statistics *)

Definition PAGE_SIZE : nat := 4096.
Definition tab : list Z := [9].
Definition newline : list Z := [10].

(** The format of the file: what is printed before each number, and the number.  The
    counters are unsigned; [%d] prints an [int]. *)
Definition stats_format (x : awds_packet_statistic) : list (list Z * Z) :=
  [(str "total rx packets:" ++ tab, rx_total_packets x);
   (newline ++ str "total rx unicasts:" ++ tab, rx_total_unicast x);
   (newline ++ str "total rx beacon:" ++ tab, rx_total_beacon x);
   (newline ++ str "total rx flood:" ++ tab ++ tab, rx_total_flood x);
   (newline ++ str "  topology:" ++ tab ++ tab, rx_flood_topo x);
   (newline ++ str "  multicast:" ++ tab ++ tab, rx_flood_mcast x);
   (newline ++ str "  private:" ++ tab ++ tab, rx_flood_private x);
   (newline ++ str "total rx flow:" ++ tab ++ tab, rx_total_foreward x);
   (newline ++ newline ++ str "local unicast:" ++ tab ++ tab, rx_local_unicast x);
   (str " (", rx_local_unicast_failed x);
   (str " failed)" ++ newline ++ str "forwarded unicast:" ++ tab, rx_forwarded_unicast x);
   (newline ++ newline ++ str "total tx packets:" ++ tab, tx_total x)]%list.

Definition stats_text (x : awds_packet_statistic) : list Z :=
  (mjoin ((fun lv => lv.1 ++ print_int (s32 lv.2)) <$> stats_format x) ++ newline)%list.

(** [snprintf(buf, n, ...)] of [text]: the result, and what [buf] holds. *)
Definition snprintf (n : nat) (text : list Z) : Z * list Z :=
  (Z.of_nat (length text), take (n - 1) text ++ [0]).

Definition awds_sysfs_show : K (Z * list Z) :=
  x ← gets awds_stats;
  let '(ret, buf) := snprintf PAGE_SIZE (stats_text x) in
  mret (if Z.of_nat PAGE_SIZE <? ret then Z.of_nat PAGE_SIZE else ret, buf).

(** ** Loading and unloading *)

Class Registrar := {
  sysfs_create_group : Z;                    (* 0, or the negative error *)
  sock_register : list Z -> Z;               (* given the families that are in use *)
}.

(** Linux around the module. *)
Record host := Host {
  modul : kstate;
  packet_types : list Z;                     (* of [dev_add_pack] *)
  families : list Z;
  groups : list (list Z);                    (* of files in the directory of the module *)
}.
Definition set_modul v h := Host v (packet_types h) (families h) (groups h).
Definition set_packet_types v h := Host (modul h) v (families h) (groups h).
Definition set_families v h := Host (modul h) (packet_types h) v (groups h).
Definition set_groups v h := Host (modul h) (packet_types h) (families h) v.
Definition in_module {A} (m : K A) : M host A := zoom modul set_modul m.

(** The level of the log is kept within its bounds. *)
Definition debuglevel_within (debuglevel : Z) : Z :=
  let debuglevel := if debuglevel <? 0 then 0 else debuglevel in
  if 9 <? debuglevel then 9 else debuglevel.

(** [awds_configuration_info] on a value of [configuration]. *)
Definition awds_configuration_info (configuration : Z) : list (list Z) :=
  let on b := if Z.land configuration b =? 0 then str "disabled" else str "enabled" in
  [str "packet forwarding configuration: " ++ on AWDS_FORWARD_CONFIG ++ newline;
   str "local delivery configuration: " ++ on AWDS_LOCAL_CONFIG ++ newline]%list.

Section modul.
Context `{Registrar}.

Definition awds_init_socket_handler : M host Z :=
  fs ← gets families;
  let err := sock_register fs in
  (if err =? 0 then modify (set_families (PF_AWDS :: fs)) else mret tt);;
  mret err.

Definition awds_release_socket_handler : M host unit :=
  modify (fun h => set_families (filter (fun f => f <> PF_AWDS) (families h)) h).

Definition awds_init_module : M host Z :=
  in_module (modify (set_routing None));;
  in_module (modify (set_mutex false));;
  in_module (modify (set_index (-1)));;
  let ret := sysfs_create_group in
  (if ret =? 0 then modify (fun h => set_groups (str "statistics" :: groups h) h) else mret tt);;
  modify (fun h => set_packet_types (ETH_P_AWDS :: packet_types h) h);;
  awds_init_socket_handler;;
  mret ret.

Definition awds_cleanup_module : M host unit :=
  awds_release_socket_handler;;
  modify (fun h => set_packet_types (filter (fun p => p <> ETH_P_AWDS) (packet_types h)) h);;
  in_module (modify (set_routing None)).
End modul.

(** ** Numbers are read back *)

(** A reader that knows the words of the file. *)
Definition after (p l : list Z) : option (list Z) := if decide (take (length p) l = p) then Some (drop (length p) l) else None.
Fixpoint read_fields (words : list (list Z)) (l : list Z) : option (list Z * list Z) :=
  match words with
  | [] => Some ([], l)
  | w :: words => l ← after w l; '(v, l) ← scan_d l; '(vs, l) ← read_fields words l; Some (v :: vs, l)
  end.

Lemma after_app p l : after p (p ++ l) = Some l.
Proof. unfold after. by rewrite take_app_length, drop_app_length, decide_True. Qed.

(** A word that cannot be taken for the rest of a number. *)
Definition separates (w : list Z) : bool := match w with c :: _ => bool_decide (digit 10 c = None) | [] => false end.

Lemma join_cons (x : list Z) l : mjoin (x :: l) = x ++ mjoin l.
Proof. done. Qed.

Lemma read_fields_text fs c r : Forall (fun lv => separates lv.1 = true) (tail fs) -> digit 10 c = None ->
  read_fields fs.*1 (mjoin ((fun lv => lv.1 ++ print_int (s32 lv.2)) <$> fs) ++ c :: r) = Some ((fun lv => s32 lv.2) <$> fs, c :: r).
Proof.
  intros HF Hc. induction fs as [|[w v] fs IH]; [done|]. rewrite !fmap_cons. cbn [read_fields tail fst snd] in *.
  rewrite join_cons. cbn [fst snd]. rewrite <- !app_assoc, after_app. cbn [mbind option_bind].
  assert (- 2 ^ 31 <= s32 v < 2 ^ 31) as Hr.
  { unfold swrap. pose proof (wrap_range 32 v ltac:(lia)) as Hw. unfold in_width in Hw. destruct (Z.ltb_spec (wrap 32 v) (2 ^ (32 - 1))); lia. }
  assert (exists d r', mjoin ((fun lv => lv.1 ++ print_int (s32 lv.2)) <$> fs) ++ c :: r = d :: r' /\ digit 10 d = None) as (d & r' & E & Hd).
  { destruct fs as [|[w' v'] fs']; [by eexists _, _|]. inversion HF as [|? ? Hs]. cbn in Hs. destruct w' as [|d w']; [done|].
    apply bool_decide_eq_true in Hs. eexists d, _. split; [reflexivity|done]. }
  rewrite E, scan_print, <- E by done. cbn [mbind option_bind]. rewrite IH; [done|]. by destruct HF.
Qed.

Lemma text_length fs : Forall (fun lv => - 2 ^ 31 <= s32 lv.2 < 2 ^ 31) fs ->
  (length (mjoin ((fun lv => lv.1 ++ print_int (s32 lv.2)) <$> fs)) <= foldr (fun w n => length w + 21 + n) 0 (fs.*1 : list (list Z)))%nat.
Proof.
  induction 1 as [|[w v] fs Hv _ IH]; [done|]. rewrite !fmap_cons, join_cons, !length_app. cbn [foldr fst snd] in *.
  pose proof (print_int_length _ Hv). lia.
Qed.

Lemma s32_range v : - 2 ^ 31 <= s32 v < 2 ^ 31.
Proof.
  unfold swrap. pose proof (wrap_range 32 v ltac:(lia)) as Hw. unfold in_width in Hw.
  destruct (Z.ltb_spec (wrap 32 v) (2 ^ (32 - 1))); lia.
Qed.

(** The words of the file. *)
Definition stats_words : list (list Z) := (stats_format awds_stats0).*1.

Lemma stats_text_fits x : (length (stats_text x) < PAGE_SIZE)%nat.
Proof.
  unfold stats_text. rewrite length_app. pose proof (text_length (stats_format x)) as Hl.
  assert ((stats_format x).*1 = stats_words) as E by reflexivity. rewrite E in Hl.
  assert (foldr (fun w n => length w + 21 + n) 0 stats_words + 1 < PAGE_SIZE)%nat as Hw by (vm_compute; lia).
  change (length newline) with 1%nat. eapply Nat.le_lt_trans; [|exact Hw]. apply Nat.add_le_mono_r, Hl, Forall_true.
  intros ?. apply s32_range.
Qed.

(** The file of statistics.  Whatever the counters are, the text fits into the page, so
    nothing of it is cut off; and a reader that knows the words of the file gets all twelve
    counters back, each as the [int] with the bits of the counter. *)
Theorem statistics_file (s : kstate) :
  exists text, awds_sysfs_show s = Ok ((Z.of_nat (length text), text ++ [0])%list, s) /\ (length text < PAGE_SIZE)%nat /\
    read_fields stats_words text = Some ((fun lv => s32 lv.2) <$> stats_format (awds_stats s), newline).
Proof.
  set (x := awds_stats s). exists (stats_text x). pose proof (stats_text_fits x) as Hf. split; [|split; [done|]].
  - unfold awds_sysfs_show, snprintf. mprim. fold x. unfold mret, M_ret.
    rewrite (proj2 (Z.ltb_ge _ _)) by lia. rewrite take_ge; [done|]. apply Nat.le_add_le_sub_r.
    rewrite Nat.add_1_r. exact Hf.
  - assert ((stats_format x).*1 = stats_words) as <- by reflexivity. apply read_fields_text; [|done].
    cbn [stats_format tail]. repeat constructor.
Qed.

(** [%d] shows a large counter as a negative number. *)
Example large_counter : take 29 (stats_text (Stats 3000000000 0 0 0 0 0 0 0 0 0 0 0)) = (str "total rx packets:" ++ tab ++ str "-1294967296")%list.
Proof. vm_compute. reflexivity. Qed.

(** ** The life of the module *)

Section life.
Context `{Registrar}.
Implicit Types h : host.

(** What loading does, whatever the answers of Linux are. *)
Lemma init_ok h : exists gs, awds_init_module h =
  Ok (sysfs_create_group, Host (set_index (-1) (set_mutex false (set_routing None (modul h)))) (ETH_P_AWDS :: packet_types h)
        (if sock_register (families h) =? 0 then PF_AWDS :: families h else families h) gs).
Proof.
  unfold awds_init_module, awds_init_socket_handler, in_module, zoom. unfold mbind, M_bind, modify, gets, mret, M_ret. cbn.
  destruct (sysfs_create_group =? 0); cbn; (destruct (sock_register (families h) =? 0); by eexists).
Qed.

Lemma cleanup_ok h : awds_cleanup_module h = Ok (tt, Host (set_routing None (modul h)) (filter (fun p => p <> ETH_P_AWDS) (packet_types h))
  (filter (fun f => f <> PF_AWDS) (families h)) (groups h)).
Proof. reflexivity. Qed.

Lemma filter_other (x : Z) (l : list Z) : x ∉ l -> filter (fun y => y <> x) l = l.
Proof.
  induction l as [|y l IH]; [done|]. intros [Hy Hl]%not_elem_of_cons. rewrite filter_cons_True by done. by rewrite IH.
Qed.

Lemma filter_first (x : Z) (l : list Z) : x ∉ l -> filter (fun y => y <> x) (x :: l) = l.
Proof. intros Hx. rewrite filter_cons_False by (by intros []). by apply filter_other. Qed.

Lemma loaded_registry : registry (set_index (-1) (set_mutex false (set_routing None kstate0))) [].
Proof.
  constructor; try done; try apply NoDup_nil_2;
    try (intros b Hb; by apply elem_of_nil in Hb);
    try (cbn; intros l [x Hx]; by rewrite lookup_empty in Hx). cbn. lia.
Qed.

(** The life of the kernel module.  When Linux accepts its registrations, loading
    leaves it with the empty registry from which binding is specified and the mutex free,
    and one handler and one socket family more; whatever it then does, unloading takes both
    away again, leaves those of others, and the routing table is freed. *)
Theorem module_life h : modul h = kstate0 -> sysfs_create_group = 0 -> sock_register (families h) = 0 ->
  PF_AWDS ∉ families h -> ETH_P_AWDS ∉ packet_types h ->
  exists h1, awds_init_module h = Ok (0, h1) /\
    registry (modul h1) [] /\ awds_instance_mutex (modul h1) = false /\
    packet_types h1 = ETH_P_AWDS :: packet_types h /\ families h1 = PF_AWDS :: families h /\
    forall k, exists h2, awds_cleanup_module (set_modul k h1) = Ok (tt, h2) /\
      packet_types h2 = packet_types h /\ families h2 = families h /\ awds_routing (modul h2) = None.
Proof.
  intros Hm Hg Hr Hf Hp. destruct (init_ok h) as [gs E]. rewrite Hg, Hr, Hm in E. eexists. split; [exact E|].
  split; [apply loaded_registry|]. do 3 (split; [done|]). intros k. eexists. split; [apply cleanup_ok|].
  cbn [set_modul packet_types families modul]. split; [by apply filter_first|]. split; [|done].
  change (filter (fun f => f <> PF_AWDS) (if 0 =? 0 then PF_AWDS :: families h else families h) = families h).
  by apply filter_first.
Qed.

(** Failed registrations.  When the file of statistics cannot be created the module
    reports the error, upon which Linux discards it, but its handler stays registered, and
    the socket family as well if Linux has accepted that.  When only the family is refused,
    because another module has it, loading reports success, and unloading then takes the
    family from the other module. *)
Theorem failed_registrations h :
  (sysfs_create_group <> 0 -> exists h1, awds_init_module h = Ok (sysfs_create_group, h1) /\
     ETH_P_AWDS ∈ packet_types h1 /\ (sock_register (families h) = 0 -> PF_AWDS ∈ families h1)) /\
  (sysfs_create_group = 0 -> sock_register (families h) <> 0 -> PF_AWDS ∈ families h ->
     exists h1 h2, awds_init_module h = Ok (0, h1) /\ families h1 = families h /\
       awds_cleanup_module h1 = Ok (tt, h2) /\ PF_AWDS ∉ families h2).
Proof.
  destruct (init_ok h) as [gs E]. split.
  - intros Hg. eexists. split; [exact E|]. split; [apply list_elem_of_here|]. intros Hr. cbn [families]. rewrite Hr. apply list_elem_of_here.
  - intros Hg Hr Hin. rewrite Hg, (proj2 (Z.eqb_neq _ _) Hr) in E. do 2 eexists. split; [exact E|]. split; [done|].
    split; [apply cleanup_ok|]. cbn [families]. by intros [? _]%list_elem_of_filter.
Qed.
End life.

(** A Linux that creates the file or fails with [ENOMEM], and knows [EEXIST]. *)
Definition registrar (g : Z) : Registrar := {|
  sysfs_create_group := g;
  sock_register fs := if bool_decide (PF_AWDS ∈ fs) then - 17 else 0;
|}.

Lemma module_life_witness :
  exists h1, awds_init_module (H := registrar 0) (Host kstate0 [] [2] []) = Ok (0, h1) /\
    registry (modul h1) [] /\ awds_instance_mutex (modul h1) = false /\
    packet_types h1 = [ETH_P_AWDS] /\ families h1 = [PF_AWDS; 2] /\
    forall k, exists h2, awds_cleanup_module (set_modul k h1) = Ok (tt, h2) /\
      packet_types h2 = [] /\ families h2 = [2] /\ awds_routing (modul h2) = None.
Proof.
  apply (module_life (H := registrar 0) (Host kstate0 [] [2] [])); [reflexivity..| |].
  - intros H%list_elem_of_singleton. discriminate H.
  - apply not_elem_of_nil.
Defined.
